(* ===== verification/_CoqProject ===== *)
-Q . S2P
Prelude.v
RustStr.v
Path.v
Core.v
Cbor.v
CborFacts.v
Wire.v
Auth.v
Crypto.v
Concrete.v
CborProps.v
AuthProps.v
CryptoProps.v
Store.v
ServiceState.v
Observability.v
ServiceFacts.v
Access.v
Namespaces.v
Objects.v
Subscribe.v
ConcreteService.v
Service.v
NamespaceSpec.v
NamespaceProps.v
AccessProps.v
EventProps.v
ListProps.v
ObjectProps.v
WireProps.v
Chunker.v
AmzDate.v
Distribution.v
Buckets.v
DistObjects.v
Multipart.v
SigV4.v
DistFacts.v
DistService.v
ConcreteDist.v
Locks.v
DistAccess.v
SigV4Props.v
MultipartProps.v
DistProps.v
UrlStr.v
Http.v
S3Xml.v
ConcreteHttp.v
Cdn.v
CdnProps.v
S3.v
S3Props.v
Front.v
Native.v
Gateway.v
ConcreteFront.v
NativeProps.v
GatewayProps.v
GatewayRoutes.v
Server.v
S3Client.v
S3Remote.v
S3Laws.v
ServiceRel.v
DistRel.v
BackendSim.v
ConcreteS3.v
S3BackendProps.v
S3Signing.v
Startup.v
StartupProps.v
Client.v
ConcreteClient.v
ClientProps.v
Conformance.v
ConformanceProps.v
Interleaving.v
InterleavingProps.v
LockConcurrency.v
