(* ===== verification/Prelude.v ===== *)
(** * Verification of the HSP storage protocol

    HSP is a multi-tenant, end-to-end encrypted object store.  Clients encrypt
    chunks, describe an object by a manifest, upload chunks and manifest, and bind
    the object to a path of a namespace; other clients resolve paths, read ranges
    and follow an event feed.  The server is a set of Rust crates under [src/];
    this library models the crates that carry the protocol's own logic, as
    executable definitions, and proves what makes them correct.

    ** Parts of the program and where they are modelled

    - [crates/hsp-path] (canonical paths, scope matching): [Path.v].
    - [crates/hsp-core] (protocol data, validation): [Core.v]; its canonical CBOR
      encoder, content identifiers and cursors: [Cbor.v], with a reference decoder
      and the facts the clients use in [CborFacts.v], the claims in [CborProps.v].
    - [crates/hsp-auth] (policy engine, replay cache, token verification):
      [Auth.v], claims in [AuthProps.v].
    - [crates/hsp-crypto] (store envelopes, key wrapping, client chunks, local and
      AWS providers): [Crypto.v], claims in [CryptoProps.v].  The trait
      [KmsProvider] is a record of operations; the class [KmsLaws] is what a
      provider promises, and both providers are instances of it.
    - [crates/hsp-service/src/store.rs] (the blob store): [Store.v].  [Backend] is
      the record of operations of [StoreBackend], [BackendLaws] its contract
      through a key-value view, and the filesystem backend, with an oracle that
      makes any operation fail at any of its steps, is an instance.  The S3 backend
      is [S3Client.v] (signing, requests, responses and their parsers),
      [S3Remote.v] (what an S3 service does) and [S3Laws.v] (the
      contract and the paged listing); claims in [S3BackendProps.v] and
      [S3Signing.v].
    - [crates/hsp-service/src/lib.rs] (the service), over any backend:
      [ServiceState.v] has the records, store keys, encrypted reads and writes,
      events, metrics and logs; [Access.v] authorization with the durable replay
      log; [Namespaces.v] bind, unbind, resolve and list; [Objects.v] the upload
      session and the reads; [Subscribe.v] the event feed; [Service.v] the public
      interface as a data type and its dispatch; [Observability.v] the metrics
      snapshot, the Prometheus text and the readiness report.  [ServiceFacts.v] has
      the laws of the encrypted store and the frame tactic the other files use.
      [ServiceRel.v] shows that the service preserves every relation its store calls
      preserve, [DistRel.v] the same of the distribution service; [BackendSim.v]
      applies it to two backends that answer alike, and [Interleaving.v] to calls of
      both that run at the same time.  It also says what the store calls of a
      task are; claims in [InterleavingProps.v] (replays) and [LockConcurrency.v]
      (object locks).
    - [crates/hsp-wire] (the frame codec): [Wire.v], claims in [WireProps.v].
    - [crates/hsp-distribution] (buckets and objects over the service):
      [Distribution.v] has the records, the names and scopes and the encrypted
      records; [Store.v] the directory listings of the store;
      [Buckets.v] buckets, access lists, lifecycle, locks, website and replication
      configuration; [DistObjects.v] put, head, get, delete, list, copy and the
      replication run; [Chunker.v] the fixed-size chunker; [Multipart.v] multipart
      uploads; [AmzDate.v] the dates of signed requests; [SigV4.v] the three ways
      to authenticate a request.  [DistService.v] is the interface as a data type,
      its dispatch and its frames, [DistFacts.v] the laws of the encrypted records.
      Claims: [Chunker.v], [AmzDate.v], [Locks.v], [DistAccess.v], [SigV4Props.v],
      [MultipartProps.v], [DistProps.v].
    - [gateway/hsp-cdn] (the edge cache over the distribution service): [Cdn.v],
      claims in [CdnProps.v].  [server/hsp-s3] (the S3 surface): documents in
      [S3Xml.v], routing, parsing and dispatch in [S3.v], claims in
      [S3Props.v].  [Http.v] has what both use of HTTP requests and responses.
    - [server/hspd] (the native server) and [gateway/hsp-gw] (the HTTP/3 gateway),
      the two front ends of the service: [Front.v] has what they share, the
      connection, the verification of its caller and the steps of a task on the
      world; [Native.v] the frames of a stream and its replies, claims in
      [NativeProps.v]; [Gateway.v] the routes, their bodies and responses and the
      event stream, claims in [GatewayProps.v] and [GatewayRoutes.v]; [Server.v] the
      tasks of both, from the accept loop to the requests, with its claims.
    - The four programs ([main.rs] of [hspd], [hsp-gw], [hsp-cdn] and [hsp-s3]) and
      the constructors of the services and servers: [Startup.v], claims in
      [StartupProps.v].
    - [conformance/hsp-conformance] (the conformance suite): the reference client in
      [Client.v], claims in [ClientProps.v]; the steps of the suite and its report in
      [Conformance.v], claims in [ConformanceProps.v].

    [RustStr.v] and [UrlStr.v] have the string and byte operations of Rust's
    standard library that the source uses.  [Concrete.v],
    [ConcreteService.v], [ConcreteDist.v], [ConcreteHttp.v],
    [ConcreteFront.v], [ConcreteS3.v] and [ConcreteClient.v] instantiate the parameters with small executable functions
    that satisfy their laws; they model no source and serve only the witnesses,
    which run the service on concrete requests.

    ** How state and effects are modelled

    A Rust [Result] is [result]; a method with effects is [ST S E A], a function
    from the state to a result and the next state, and the state survives an
    error, as it does in the code, where an early return undoes nothing.  [World]
    is everything the methods of [AlphaService] can change: the store, the random
    generator, the clock, the in-memory replay cache, metrics and logs.  The clock
    is an oracle, read at each [now_ms()] in program order.  Integers are [Z] with
    the wrap-around or saturation of the source written out ([u64_add],
    [u64_sat_sub], [as_u16]).  A [BTreeMap] is a [gmap], with [btree_iter] where
    its order matters.

    A method is a function of the world it starts in, so most statements are about
    calls that run one after the other.  Concurrency is modelled in four places.
    [Interleaving.v] lets any number of calls of services and distribution services
    run on one store and interleave between their store calls: a history lists the store calls of all tasks with
    their answers, the shared store must give these answers in this order, and the
    code of every task runs on its own part of the history.  In the edge cache,
    whose handlers take the lock of the cache twice with a fetch in between,
    [CdnProps.v] has the critical sections as a step relation and shows that the
    handlers are sequences of its steps; its claims are about every trace of states.
    [Server.v] runs the tasks of a front end, each from one await to the next, in the
    order of an arbitrary schedule.
    The subscription loops of the front ends run for as
    long as their client stays: between two polls other tasks change the world by a
    parameter [others], one list of steps per wait, and a statement about a loop
    holds for every such interference or names what it assumes of it.

    A panic is the error [panic_error]; a handler that panics gives no response.

    Code of other crates is a class of operations with a class of laws: [Hashing],
    [Base64Url], [CborReader], [CryptoPrims], [AwsCli], [Cose], [CborPayload],
    [Json] per persisted type, [Serde] per frame type, [Writer] and [Reader], and
    for the distribution crate and the HTTP servers [DistDeps], [HttpDeps] and
    [XmlDeps].  [S3Service] is what an S3 service answers, [S3ClientDeps] with
    [S3ClockLaws] the HTTP client, HMAC and calendar of the S3 backend, [HostDeps]
    the environment, files and sockets of a program on its [Machine], [ClientDeps]
    the serialiser of the reference client.  [BackendListing] and [BackendTornWrites] state what directory
    listings and interrupted writes of a backend do, [EnvelopePrefixLaw] that a cut
    envelope does not parse.  The laws are round trips and
    documented formats; where a statement depends on SHA-256 it names the collision or the finite set of names that must not
    collide.

    ** What the theorems show

    - Isolation: calls of other tenants never change a tenant's records
      ([tenant_isolation], [dist_tenant_isolation], and over HTTP
      [s3_tenant_isolation], [gateway_tenant_isolation]); a foreign token is refused
      by every operation ([foreign_token_denied]); the edge cache serves a tenant its own objects and
      never holds decrypted ones ([CdnProps.v]).
    - Authorization: the engine decides exactly a declarative policy
      ([authorize_correct]); replays are refused within a process, after a restart
      and among concurrent requests ([replay_detected_after_first_use],
      [replay_refused_after_restart], [concurrent_replays_refused]);
      accepted tokens and mutations are signed by registered issuers.  Signature
      Version 4 requests carry the signature of a stored key over a canonical form
      that determines the request ([sigv4_header_sound],
      [canonical_request_covers]); edge tokens only read.
    - Namespaces: the abstract state is a history of maps ([NamespaceSpec.v]); bind
      and unbind refine appending to it, a path resolves, now and at every past
      revision, to what was last done to it ([resolve_tells_last_mutation]), exclusive
      creation has one winner, and pages of a listing are consecutive segments of one
      snapshot ([NamespaceProps.v], [ListProps.v]).
    - Objects: an accepted chunk is the announced one and is stored, a commit
      publishes a complete object, a failed commit leaves what
      [failed_commit_leaves] lists, a range read returns exactly its bytes
      ([ObjectProps.v]); streaming a multipart upload cuts the same chunks as
      cutting its concatenation, and the parts are assembled in order.
    - Buckets and locks: lock records are well formed, a compliance retention is never
      shortened and a legal hold blocks deletion and copying ([DistProps.v], [Locks.v],
      [DistAccess.v]), also when any number of calls run at the same time
      ([lock_survives_concurrency]).
    - The S3 surface adds nothing of its own: after authentication, which may record
      the use of a presigned URL, a request is a sequence of calls of the distribution
      service, reading calls for [GET] and [HEAD] ([s3_request_refines_calls]), and
      both request styles name the same object ([S3Props.v]).
    - The front ends add nothing of their own either: the task of a native stream
      and the handler of a gateway request are sequences of calls of the service
      ([native_refines_calls], [gateway_refines_calls]), the same call made through
      both gives the same answer ([front_ends_agree]), and the URL the gateway
      parses determines tenant, realm and path ([gateway_url_roundtrip]).  Over the
      whole life of the native server, on every schedule of its tasks, the service is
      called only for callers verified on connections that were sent SETTINGS, and a
      tenant without such a caller keeps its files, the event log apart
      ([native_server_isolation]).
    - The store on S3: the service over the S3 backend answers as over a key-value
      store ([service_over_s3]), its listings are complete and end
      ([s3_listing_complete]), and its signed requests are the ones the S3 surface
      accepts ([client_requests_verify]).
    - Programs and clients: a server that runs has strong secrets, the configured
      registry, its store and a registered signer
      ([programs_start_with_strong_secrets]), starting
      keeps the records and the refused replays; what the reference client signs is
      admitted by every surface, and the native server serves what it sent
      ([client_request_served], [presigned_url_authenticates]).  The badly signed
      requests of the conformance suite are refused by the S3 surface as its report
      expects ([suite_refusals_reported]).
    - Events: appending refines a list, and polling delivers every matching event
      once ([EventProps.v]); the stream of the gateway has them in order and the
      loop of the native server ends when its client is done
      ([gateway_events_in_order], [native_subscription_terminates]).
    - Formats: canonical CBOR round-trips and content identifiers commit to their
      content; envelopes and wrapped keys open to what was sealed and in no other
      context; frames survive the stream.
    - Behaviour that surprises is stated as it is: canonicalising a path twice, the
      ambiguity of the replay key, a failed bind that withdraws a manifest, chunk
      uploads that cannot be retried, subscribers that starve, truncated stream
      limits, presigned URLs that expire early, cache hits without scope checks, an
      invalidation worker that stalls, a bulk delete that reports what it did not
      delete, an S3 listing that reaches into another tenant.

    Statements about results hold for every fault of the backend: they say what is
    true when an operation answers [Ok], and frames hold whatever it answers.
    Where an operation is total (canonical forms, envelopes, frames on a reliable
    stream) the theorem says so.

    ** Bounds and fuel

    Recursion follows lists, strings or an explicit count.  Fuel is used by the
    reference CBOR decoder, with the length of its input, proved enough for every
    encoded value; by the chunk loops, proved to end within one iteration per byte
    ([chunk_loops_terminate]); and by the string functions that strip or split at a
    pattern, with the length of the string, since each step consumes a byte.  The
    loops that read a body and the subscription loops take a count of rounds; out
    of rounds means still running ([None], [Running] or [false]), never an answer.
    Bodies end within one round per frame or part of the stream, and a native
    subscription within twenty rounds per event still to come and twenty more.  The
    listing of an S3 bucket takes a count of pages, and more pages than there are
    names are enough ([s3_listing_complete]); the client reads a reply with more
    rounds than it has data frames.  Sequence and revision counters are assumed
    below 2^64, payloads of the envelope theorems below 2^36 bytes, the limit of
    AES-GCM; frame sizes are bounded by the 8 MiB of the code.

    ** Not modelled

    The QUIC and HTTP/3 endpoints with their TLS configuration, the routers and
    listeners, which are third-party libraries; [main] of [conformance], which starts
    the servers, runs the suite and prints the report; the tests inside the crates;
    the Go client and the deployment files.  In [Interleaving.v] a store call is one
    step, as a request to S3 is; on a filesystem a new file is visible before its
    contents are.  The stores of [Interleaving.v] and the tasks of [Server.v] are not
    composed: in [Server.v] a call of the service is one step.  The limits on
    concurrent streams and what closing an endpoint does to open connections are the
    transport's.  [S3Service] describes a bucket that only the store writes to.

    This file is the prelude: results, the state and error monad, the relation
    [preserves] behind the frame proofs, automation and generic lemmas. *)

From Stdlib Require Import ZArith Lia Ascii String Bool.
From stdpp Require Import base option list strings gmap pretty numbers sorting.

#[global] Open Scope Z_scope.
#[export] Set Warnings "-clear-no-such-hyp,-register-all".

(** Rust's [Vec<u8>] and [&[u8]] are lists of 8-bit characters; a Rust
    [String] is the [string] of its UTF-8 bytes, so that [as_bytes] is a
    change of representation and nothing else. *)
Abbreviation bytes := (list ascii).

Definition as_bytes (s : string) : bytes := list_ascii_of_string s.
Definition of_bytes (b : bytes) : string := string_of_list_ascii b.

(** Rust's [Result<A, E>]. *)
Inductive result (E A : Type) : Type :=
| Ok (a : A)
| Err (e : E).
Arguments Ok {E A} a.
Arguments Err {E A} e.

#[global] Instance result_ret E : MRet (result E) := λ A a, Ok a.
#[global] Instance result_bind E : MBind (result E) :=
  λ A B f r, match r with Ok a => f a | Err e => Err e end.
#[global] Instance result_fmap E : FMap (result E) :=
  λ A B f r, match r with Ok a => Ok (f a) | Err e => Err e end.

#[global] Instance result_eq_dec {E A} `{EqDecision E, EqDecision A} :
  EqDecision (result E A).
Proof. solve_decision. Defined.

Definition is_ok {E A} (r : result E A) : bool :=
  match r with Ok _ => true | Err _ => false end.
(** [Result::map_err]. *)
Definition map_err {E F A} (f : E → F) (r : result E A) : result F A :=
  match r with Ok a => Ok a | Err e => Err (f e) end.
(** [Option::ok_or]. *)
Definition ok_or {E A} (o : option A) (e : E) : result E A :=
  match o with Some a => Ok a | None => Err e end.
(** [Result::ok]. *)
Definition result_ok {E A} (r : result E A) : option A :=
  match r with Ok a => Some a | Err _ => None end.

(** ** The state and error monad of stateful code

    [ST S E A] is an operation on a state [S] that returns a Rust [Result]; the
    state survives an error, as it does in the code, whose effects on the store
    are not undone by an early return. *)
Definition ST (S E A : Type) : Type := S → result E A * S.

#[global] Instance ST_ret S E : MRet (ST S E) := λ A a s, (Ok a, s).
#[global] Instance ST_bind S E : MBind (ST S E) :=
  λ A B f m s,
    match m s with
    | (Ok a, s') => f a s'
    | (Err e, s') => (Err e, s')
    end.

Definition throw {S E A} (e : E) : ST S E A := λ s, (Err e, s).
Definition lift_result {S E A} (r : result E A) : ST S E A := λ s, (r, s).
Definition gets {S E A} (f : S → A) : ST S E A := λ s, (Ok (f s), s).
Definition modify {S E} (f : S → S) : ST S E unit := λ s, (Ok tt, f s).
(** Run an operation and keep its [Result] as a value ([match] or [let _ =]
    on a [Result] in the source). *)
Definition attempt {S E F A} (m : ST S E A) : ST S F (result E A) :=
  λ s, let '(r, s') := m s in (Ok r, s').

(** ** Automation

    [hsp] is the database of the facts that close the routine goals of the
    component files: codec round trips, frame conditions and bounds. *)
Create HintDb hsp.
Create Rewrite HintDb hsp_rw.

Ltac simpl_monad :=
  unfold mret, mbind, fmap, result_ret, result_bind, result_fmap,
    ST_ret, ST_bind, throw, lift_result, gets, modify in *.

(** Case analysis on every [match]/[if] scrutinee of a hypothesis or the goal,
    closing the impossible branches. *)
Ltac split_match_in H :=
  match type of H with
  | context [match ?x with _ => _ end] =>
      lazymatch x with
      | context [match _ with _ => _ end] => fail
      | _ => let E := fresh "E" in destruct x eqn:E
      end
  end; simplify_eq/=.
Ltac split_match_goal :=
  match goal with
  | |- context [match ?x with _ => _ end] =>
      lazymatch x with
      | context [match _ with _ => _ end] => fail
      | _ => let E := fresh "E" in destruct x eqn:E
      end
  end; simplify_eq/=.

(** ** Generic lemmas *)

Lemma of_as_bytes s : of_bytes (as_bytes s) = s.
Proof. apply string_of_list_ascii_of_string. Qed.
Lemma as_of_bytes b : as_bytes (of_bytes b) = b.
Proof. apply list_ascii_of_string_of_list_ascii. Qed.
#[export] Hint Rewrite of_as_bytes as_of_bytes : hsp_rw.

#[global] Instance as_bytes_inj : Inj (=) (=) as_bytes.
Proof. intros s t H. by rewrite <-(of_as_bytes s), H, of_as_bytes. Qed.
#[global] Instance of_bytes_inj : Inj (=) (=) of_bytes.
Proof. intros s t H. by rewrite <-(as_of_bytes s), H, as_of_bytes. Qed.

Lemma as_bytes_app s t : as_bytes (s +:+ t) = as_bytes s ++ as_bytes t.
Proof.
  induction s as [|c s IH]; [done|].
  change (c :: as_bytes (s +:+ t) = c :: (as_bytes s ++ as_bytes t)). by rewrite IH.
Qed.

Lemma length_as_bytes s : length (as_bytes s) = String.length s.
Proof. induction s as [|c s IH]; [done|]. cbn. f_equal. exact IH. Qed.

(** Inversion of a successful or failed bind, for results and for [ST]. *)
Lemma result_bind_ok {E A B} (r : result E A) (f : A → result E B) b :
  r ≫= f = Ok b → ∃ a, r = Ok a ∧ f a = Ok b.
Proof. destruct r; [eauto|done]. Qed.

Lemma ok_bind {E A B} (a : A) (f : A → result E B) : Ok a ≫= f = f a.
Proof. done. Qed.
Lemma ok_or_Some {E A} (a : A) (e : E) : ok_or (Some a) e = Ok a.
Proof. done. Qed.
#[export] Hint Rewrite @ok_bind @ok_or_Some : hsp_rw.

(** Guards and sequenced checks, read as conjunctions. *)
Lemma guard_ok {E A} (b : bool) (e : E) (k : result E A) a :
  (if b then Err e else k) = Ok a ↔ b = false ∧ k = Ok a.
Proof. destruct b; naive_solver. Qed.

Lemma seq_ok {E A} (r : result E unit) (k : result E A) a :
  (r ≫= λ _, k) = Ok a ↔ r = Ok tt ∧ k = Ok a.
Proof. destruct r as [[]|]; cbn; naive_solver. Qed.

Lemma ok_or_bind_ok {E A B} (o : option A) (e : E) (f : A → result E B) b :
  (ok_or o e ≫= f) = Ok b ↔ ∃ a, o = Some a ∧ f a = Ok b.
Proof. destruct o; cbn; naive_solver. Qed.

Lemma ST_bind_run {S E A B} (m : ST S E A) (f : A → ST S E B) s :
  (m ≫= f) s = match m s with
               | (Ok a, s') => f a s'
               | (Err e, s') => (Err e, s')
               end.
Proof. done. Qed.

Lemma ST_bind_ok {S E A B} (m : ST S E A) (f : A → ST S E B) s b s' :
  (m ≫= f) s = (Ok b, s') →
  ∃ a s1, m s = (Ok a, s1) ∧ f a s1 = (Ok b, s').
Proof.
  rewrite ST_bind_run. destruct (m s) as [[a|e] s1] eqn:Em; [|done].
  intros H. by exists a, s1.
Qed.

Lemma ST_bind_err {S E A B} (m : ST S E A) (f : A → ST S E B) s e s' :
  (m ≫= f) s = (Err e, s') →
  (m s = (Err e, s')) ∨ (∃ a s1, m s = (Ok a, s1) ∧ f a s1 = (Err e, s')).
Proof.
  rewrite ST_bind_run. destruct (m s) as [[a|e1] s1] eqn:Em; intros H.
  - right. by exists a, s1.
  - left. by simplify_eq.
Qed.

Lemma run_pair {A B} (x : A * B) (a : A) : x.1 = a → x = (a, x.2).
Proof. destruct x. by intros <-. Qed.

Lemma ST_ret_ok {S E A} (a b : A) (s s' : S) :
  (mret a : ST S E A) s = (Ok b, s') → a = b ∧ s = s'.
Proof. intros H. by injection H. Qed.

(** ** Relations preserved by an operation

    [preserves R m]: whatever [m] returns, its final state is related by [R] to
    its initial state.  For a reflexive and transitive [R] this composes along
    the structure of the code, which is how the frame theorems are proved. *)
Definition preserves {S E A} (R : S → S → Prop) (m : ST S E A) : Prop :=
  ∀ s, R s (m s).2.

Section preserves.
Context {S E : Type} (R : S → S → Prop) `{!PreOrder R}.

Lemma preserves_ret {A} (a : A) : preserves (E:=E) R (mret a).
Proof. intros s. cbn. reflexivity. Qed.
Lemma preserves_throw {A} (e : E) : preserves (A:=A) R (throw e).
Proof. intros s. cbn. reflexivity. Qed.
Lemma preserves_lift {A} (r : result E A) : preserves R (lift_result r).
Proof. intros s. cbn. reflexivity. Qed.
Lemma preserves_gets {A} (f : S → A) : preserves (E:=E) R (gets f).
Proof. intros s. cbn. reflexivity. Qed.
Lemma preserves_bind {A B} (m : ST S E A) (f : A → ST S E B) :
  preserves R m → (∀ a, preserves R (f a)) → preserves R (m ≫= f).
Proof.
  intros Hm Hf s. rewrite ST_bind_run. specialize (Hm s).
  destruct (m s) as [[a|e] s1]; cbn in *; [|done].
  etrans; [done|apply Hf].
Qed.
Lemma preserves_attempt {F A} (m : ST S E A) :
  preserves R m → preserves (E:=F) R (attempt m).
Proof. intros Hm s. unfold attempt. specialize (Hm s). by destruct (m s). Qed.
End preserves.

#[export] Hint Resolve preserves_ret preserves_throw preserves_lift preserves_gets
  preserves_bind preserves_attempt : hsp.
