(* ===== verification/RustStr.v ===== *)
(** * Rust string operations

    The parts of [str], [String] and [format!] that the HSP crates use, on the
    UTF-8 bytes of the string.  Each definition follows the documented behaviour
    of the standard library function it is named after. *)

From Stdlib Require Import ZArith Lia Ascii String Bool.
From stdpp Require Import base option list strings gmap pretty numbers.
From S2P Require Import Prelude.

(** Numeric value of a byte, and the byte of a number ([as u8] truncates). *)
Definition byte_val (c : ascii) : Z := Z.of_N (N_of_ascii c).
Definition byte_of (z : Z) : ascii := ascii_of_N (Z.to_N (z mod 256)).

Definition is_ascii_byte (c : ascii) : bool := byte_val c <? 128.

Fixpoint str_forallb (p : ascii → bool) (s : string) : bool :=
  match s with
  | EmptyString => true
  | String c s' => p c && str_forallb p s'
  end.

Definition is_ascii (s : string) : bool := str_forallb is_ascii_byte s.

(** [str::len]: the number of bytes. *)
Definition str_len (s : string) : Z := Z.of_nat (String.length s).
Definition str_is_empty (s : string) : bool :=
  match s with EmptyString => true | _ => false end.

(** [s.contains(c)] for an ASCII character [c]. *)
Definition str_contains_char (c : ascii) (s : string) : bool :=
  negb (str_forallb (λ x, negb (Ascii.eqb x c)) s).

(** [String::push(b as char)] for a byte [b]: the character U+0000 to U+00FF is
    appended in UTF-8, in one byte below 0x80 and in two bytes from there on. *)
Definition push_latin1 (c : ascii) (rest : string) : string :=
  let z := byte_val c in
  if z <? 128 then String c rest
  else String (byte_of (192 + z / 64)) (String (byte_of (128 + z mod 64)) rest).

(** [s.split(c)] for an ASCII character [c]: always at least one piece. *)
Fixpoint split_on (c : ascii) (s : string) : list string :=
  match s with
  | EmptyString => [EmptyString]
  | String x s' =>
      if Ascii.eqb x c then EmptyString :: split_on c s'
      else match split_on c s' with
           | [] => [String x EmptyString]
           | p :: ps => String x p :: ps
           end
  end.

(** [pieces.join(sep)]. *)
Definition join (sep : string) (l : list string) : string := String.concat sep l.

(** [s.starts_with(p)]. *)
Definition starts_with (p s : string) : bool := String.prefix p s.

(** [s.strip_prefix(p)]. *)
Fixpoint strip_prefix (p s : string) : option string :=
  match p with
  | EmptyString => Some s
  | String c p' =>
      match s with
      | String d s' => if Ascii.eqb c d then strip_prefix p' s' else None
      | EmptyString => None
      end
  end.

(** [to_ascii_lowercase] and [eq_ignore_ascii_case]. *)
Definition lower_byte (c : ascii) : ascii :=
  let z := byte_val c in
  if (65 <=? z) && (z <=? 90) then byte_of (z + 32) else c.
Fixpoint str_map (f : ascii → ascii) (s : string) : string :=
  match s with
  | EmptyString => EmptyString
  | String c s' => String (f c) (str_map f s')
  end.
Definition to_ascii_lowercase (s : string) : string := str_map lower_byte s.
Definition eq_ignore_ascii_case (s t : string) : bool :=
  String.eqb (to_ascii_lowercase s) (to_ascii_lowercase t).

(** [u8::is_ascii_hexdigit], [u8::is_ascii_alphanumeric]. *)
Definition in_range (lo hi : Z) (c : ascii) : bool :=
  (lo <=? byte_val c) && (byte_val c <=? hi).
Definition is_ascii_hexdigit (c : ascii) : bool :=
  in_range 48 57 c || in_range 97 102 c || in_range 65 70 c.
Definition is_ascii_alphanumeric (c : ascii) : bool :=
  in_range 48 57 c || in_range 97 122 c || in_range 65 90 c.

(** [str::trim]: strips the characters with the Unicode property White_Space at
    both ends.  The table lists their UTF-8 encodings. *)
Definition white_space_utf8 : list (list Z) :=
  [ [9]; [10]; [11]; [12]; [13]; [32]; [194; 133]; [194; 160]; [225; 154; 128];
    [226; 128; 128]; [226; 128; 129]; [226; 128; 130]; [226; 128; 131];
    [226; 128; 132]; [226; 128; 133]; [226; 128; 134]; [226; 128; 135];
    [226; 128; 136]; [226; 128; 137]; [226; 128; 138]; [226; 128; 168];
    [226; 128; 169]; [226; 128; 175]; [226; 129; 159]; [227; 128; 128] ].

Fixpoint strip_bytes (p : list Z) (b : bytes) : option bytes :=
  match p with
  | [] => Some b
  | z :: p' =>
      match b with
      | c :: b' => if byte_val c =? z then strip_bytes p' b' else None
      | [] => None
      end
  end.
Fixpoint strip_any (ps : list (list Z)) (b : bytes) : option bytes :=
  match ps with
  | [] => None
  | p :: ps' => match strip_bytes p b with Some r => Some r | None => strip_any ps' b end
  end.
(** Every pattern is non-empty, so as many steps as there are bytes suffice. *)
Fixpoint strip_all (fuel : nat) (ps : list (list Z)) (b : bytes) : bytes :=
  match fuel with
  | O => b
  | S f => match strip_any ps b with Some r => strip_all f ps r | None => b end
  end.
Definition trim_start (s : string) : string :=
  of_bytes (strip_all (String.length s) white_space_utf8 (as_bytes s)).
Definition trim_end (s : string) : string :=
  of_bytes (rev (strip_all (String.length s) (map (@rev Z) white_space_utf8)
                           (rev (as_bytes s)))).
Definition trim (s : string) : string := trim_end (trim_start s).

(** [std::str::from_utf8]: the well-formed byte sequences of Unicode table 3-7. *)
Fixpoint utf8_valid (b : bytes) : bool :=
  match b with
  | [] => true
  | b0 :: r0 =>
      let c lo hi x := in_range lo hi x in
      if c 0 127 b0 then utf8_valid r0
      else match r0 with
      | [] => false
      | b1 :: r1 =>
          if c 194 223 b0 then c 128 191 b1 && utf8_valid r1
          else match r1 with
          | [] => false
          | b2 :: r2 =>
              if c 224 224 b0 then c 160 191 b1 && c 128 191 b2 && utf8_valid r2
              else if c 237 237 b0 then c 128 159 b1 && c 128 191 b2 && utf8_valid r2
              else if c 225 239 b0 then c 128 191 b1 && c 128 191 b2 && utf8_valid r2
              else match r2 with
              | [] => false
              | b3 :: r3 =>
                  (if c 240 240 b0 then c 144 191 b1
                   else if c 241 243 b0 then c 128 191 b1
                   else c 244 244 b0 && c 128 143 b1)
                  && c 128 191 b2 && c 128 191 b3 && utf8_valid r3
              end
          end
      end
  end.
Definition from_utf8 (b : bytes) : option string :=
  if utf8_valid b then Some (of_bytes b) else None.

(** [format!("{}", n)] of an unsigned number. *)
Definition dec (n : Z) : string := pretty (Z.to_N n).

(** [format!("{n:0w$}")] of an unsigned number below [10^w]: [w] digits. *)
Definition digit (d : Z) : ascii := byte_of (48 + d).
Fixpoint dec_fixed (w : nat) (n : Z) (acc : string) : string :=
  match w with
  | O => acc
  | S w' => dec_fixed w' (n / 10) (String (digit (n mod 10)) acc)
  end.
Definition dec_pad (w : nat) (n : Z) : string := dec_fixed w n EmptyString.

(** ** Lemmas on bytes *)

Lemma byte_val_range c : 0 <= byte_val c < 256.
Proof. unfold byte_val. pose proof (N_ascii_bounded c). lia. Qed.

Lemma byte_of_val c : byte_of (byte_val c) = c.
Proof.
  unfold byte_of. rewrite Z.mod_small by apply byte_val_range.
  unfold byte_val. rewrite N2Z.id. apply ascii_N_embedding.
Qed.

Lemma byte_val_of z : byte_val (byte_of z) = z mod 256.
Proof.
  unfold byte_val, byte_of. pose proof (Z.mod_pos_bound z 256 ltac:(lia)).
  rewrite N_ascii_embedding by lia. lia.
Qed.

Lemma byte_val_of_small z : 0 <= z < 256 → byte_val (byte_of z) = z.
Proof. intros. rewrite byte_val_of. by apply Z.mod_small. Qed.

#[global] Instance byte_val_inj : Inj (=) (=) byte_val.
Proof. intros a b H. by rewrite <-(byte_of_val a), H, byte_of_val. Qed.

Lemma byte_of_inj x y :
  0 <= x < 256 → 0 <= y < 256 → byte_of x = byte_of y → x = y.
Proof. intros Hx Hy H%(f_equal byte_val). by rewrite !byte_val_of_small in H. Qed.

(** ** Lemmas on strings *)

Lemma str_app_nil_l s : "" +:+ s = s.
Proof. done. Qed.
Lemma str_app_cons c s t : String c s +:+ t = String c (s +:+ t).
Proof. done. Qed.
Lemma str_app_nil_r s : s +:+ "" = s.
Proof. induction s as [|c s IH]; [done|]. by rewrite str_app_cons, IH. Qed.
Lemma str_app_assoc s t u : s +:+ (t +:+ u) = (s +:+ t) +:+ u.
Proof. induction s as [|c s IH]; [done|]. by rewrite !str_app_cons, IH. Qed.
#[export] Hint Rewrite str_app_nil_l str_app_cons str_app_nil_r : hsp_rw.

Lemma str_app_length s t :
  String.length (s +:+ t) = (String.length s + String.length t)%nat.
Proof. rewrite <-!length_as_bytes, as_bytes_app. apply length_app. Qed.

Lemma str_app_inj_len s s' t t' :
  String.length s = String.length s' → s +:+ t = s' +:+ t' → s = s' ∧ t = t'.
Proof.
  rewrite <-!length_as_bytes. intros Hl H%(f_equal as_bytes).
  rewrite !as_bytes_app in H. apply app_inj_1 in H as [H1 H2]; [|done].
  by apply (inj as_bytes) in H1, H2.
Qed.

Lemma str_forallb_app p s t :
  str_forallb p (s +:+ t) = str_forallb p s && str_forallb p t.
Proof.
  induction s as [|c s IH]; [done|].
  rewrite str_app_cons. cbn. by rewrite IH, andb_assoc.
Qed.

Lemma str_forallb_impl (p q : ascii → bool) s :
  (∀ c, p c = true → q c = true) → str_forallb p s = true → str_forallb q s = true.
Proof.
  intros Hpq. induction s as [|c s IH]; [done|]. cbn.
  rewrite !andb_true_iff. intros [??]; auto.
Qed.

Lemma str_contains_char_cons c x s :
  str_contains_char c (String x s) = Ascii.eqb x c || str_contains_char c s.
Proof. unfold str_contains_char. cbn. by rewrite negb_andb, negb_involutive. Qed.

Lemma str_contains_char_app c s t :
  str_contains_char c (s +:+ t) = str_contains_char c s || str_contains_char c t.
Proof. unfold str_contains_char. by rewrite str_forallb_app, negb_andb. Qed.

Lemma str_contains_char_forallb p c s :
  p c = false → str_forallb p s = true → str_contains_char c s = false.
Proof.
  intros Hc Hs. unfold str_contains_char. apply negb_false_iff.
  eapply str_forallb_impl, Hs. intros x Hx.
  destruct (Ascii.eqb_spec x c); [congruence|done].
Qed.

(** Splitting at the first occurrence of a separator is unambiguous. *)
Lemma str_split_first c s s' t t' :
  str_contains_char c s = false → str_contains_char c s' = false →
  s +:+ String c t = s' +:+ String c t' → s = s' ∧ t = t'.
Proof.
  revert s'. induction s as [|x s IH]; intros [|y s'];
    rewrite ?str_contains_char_cons, ?orb_false_iff, ?str_app_cons, ?str_app_nil_l.
  - intros _ _ [=]; done.
  - intros _ [Hy _] [=]. subst. by rewrite Ascii.eqb_refl in Hy.
  - intros [Hx _] _ [=]. subst. by rewrite Ascii.eqb_refl in Hx.
  - intros [_ Hs] [_ Hs'] [=]. subst. destruct (IH s') as [-> ->]; done.
Qed.

Lemma split_on_not_nil c s : split_on c s ≠ [].
Proof. destruct s as [|x s]; cbn; [done|]. by destruct (Ascii.eqb x c), (split_on c s). Qed.

Lemma join_cons sep s l :
  l ≠ [] → join sep (s :: l) = s +:+ sep +:+ join sep l.
Proof. by destruct l. Qed.

Lemma join_app sep l k :
  l ≠ [] → k ≠ [] → join sep (l ++ k) = join sep l +:+ sep +:+ join sep k.
Proof.
  intros Hl Hk. induction l as [|a l IH]; [done|].
  destruct (decide (l = [])) as [->|Hl']; [by apply join_cons|].
  change ((a :: l) ++ k) with (a :: (l ++ k)).
  rewrite (join_cons _ a (l ++ k)), (join_cons _ a l), IH by (by destruct l).
  by rewrite !str_app_assoc.
Qed.

(** [split] then [join] is the identity. *)
Lemma join_split_on c s : join (String c "") (split_on c s) = s.
Proof.
  induction s as [|x s IH]; [done|]. cbn [split_on].
  destruct (Ascii.eqb_spec x c) as [->|Hx].
  - rewrite join_cons by apply split_on_not_nil.
    by rewrite str_app_nil_l, str_app_cons, str_app_nil_l, IH.
  - pose proof (split_on_not_nil c s).
    destruct (split_on c s) as [|p ps]; [done|].
    destruct ps as [|q qs]; cbn in IH |- *; [by rewrite IH|].
    by rewrite <-IH, str_app_cons.
Qed.

Lemma split_on_no_sep c s : Forall (λ p, str_contains_char c p = false) (split_on c s).
Proof.
  induction s as [|x s IH]; cbn; [by constructor|].
  destruct (Ascii.eqb_spec x c) as [->|Hx]; [by constructor|].
  pose proof (split_on_not_nil c s).
  destruct (split_on c s) as [|p ps]; [done|]. inversion IH; subst.
  constructor; [|done]. rewrite str_contains_char_cons.
  by destruct (Ascii.eqb_spec x c).
Qed.

Lemma split_on_atom c s : str_contains_char c s = false → split_on c s = [s].
Proof.
  induction s as [|x s IH]; [done|]. rewrite str_contains_char_cons, orb_false_iff.
  intros [Hx Hs]. cbn. by rewrite Hx, IH.
Qed.

Lemma split_on_app c s t :
  str_contains_char c s = false →
  split_on c (s +:+ String c t) = s :: split_on c t.
Proof.
  induction s as [|x s IH].
  - intros _. rewrite str_app_nil_l. cbn. by rewrite Ascii.eqb_refl.
  - rewrite str_contains_char_cons, orb_false_iff. intros [Hx Hs].
    rewrite str_app_cons. cbn. by rewrite Hx, IH.
Qed.

(** [join] then [split] is the identity on separator-free pieces. *)
Lemma split_on_join c l :
  l ≠ [] → Forall (λ p, str_contains_char c p = false) l →
  split_on c (join (String c "") l) = l.
Proof.
  induction l as [|s l IH]; [done|]. intros _ Hall.
  inversion Hall as [|? ? Hs Hl]; subst.
  destruct (decide (l = [])) as [->|Hne]; [by apply split_on_atom|].
  rewrite join_cons, str_app_cons, str_app_nil_l, split_on_app by done.
  by rewrite IH.
Qed.

Lemma strip_prefix_Some p s r : strip_prefix p s = Some r ↔ s = p +:+ r.
Proof.
  revert s. induction p as [|c p IH]; intros s; cbn [strip_prefix].
  - rewrite str_app_nil_l. split; congruence.
  - rewrite str_app_cons. destruct s as [|d s]; [done|].
    destruct (Ascii.eqb_spec c d) as [->|Hne].
    + rewrite IH. split; [by intros ->|by intros [= ->]].
    + split; [done|]. congruence.
Qed.

Lemma starts_with_spec p s : starts_with p s = true ↔ ∃ r, s = p +:+ r.
Proof.
  unfold starts_with. revert s. induction p as [|c p IH]; intros s.
  - split; [intros _; by exists s|]. by destruct s.
  - destruct s as [|d s]; cbn; [by split; [|intros [??]]|].
    destruct (ascii_dec c d) as [->|Hne].
    + rewrite IH. split; intros [r Hr]; exists r; [by subst|].
      rewrite str_app_cons in Hr. by injection Hr.
    + split; [done|]. intros [r Hr]. rewrite str_app_cons in Hr. congruence.
Qed.

Lemma lower_byte_inj a b :
  in_range 97 122 a = false → in_range 97 122 b = false →
  lower_byte a = lower_byte b → a = b.
Proof.
  intros Ha Hb H%(f_equal byte_val). apply (inj byte_val).
  unfold lower_byte, in_range in *.
  pose proof (byte_val_range a); pose proof (byte_val_range b).
  repeat case_match; rewrite ?byte_val_of_small in H by lia; lia.
Qed.

(** Lower-casing is injective on strings without lower-case letters. *)
Lemma to_ascii_lowercase_inj s t :
  str_forallb (λ c, negb (in_range 97 122 c)) s = true →
  str_forallb (λ c, negb (in_range 97 122 c)) t = true →
  to_ascii_lowercase s = to_ascii_lowercase t → s = t.
Proof.
  revert t. induction s as [|a s IH]; intros [|b t]; cbn; try done.
  rewrite !andb_true_iff, !negb_true_iff. intros [Ha Hs] [Hb Ht] [= Hab Hst].
  f_equal; [by apply lower_byte_inj|by apply IH].
Qed.


Lemma dec_inj m n : 0 <= m → 0 <= n → dec m = dec n → m = n.
Proof. unfold dec. intros ?? H%(inj pretty). lia. Qed.

Lemma dec_fixed_inj w m n acc acc' :
  0 <= m < 10 ^ Z.of_nat w → 0 <= n < 10 ^ Z.of_nat w →
  String.length acc = String.length acc' →
  dec_fixed w m acc = dec_fixed w n acc' → m = n ∧ acc = acc'.
Proof.
  revert m n acc acc'. induction w as [|w IH]; intros m n acc acc' Hm Hn Hl H.
  - cbn in *. split; [lia|done].
  - rewrite Nat2Z.inj_succ, Z.pow_succ_r in Hm, Hn by lia.
    cbn [dec_fixed] in H.
    assert (∀ k, 0 <= k < 10 * 10 ^ Z.of_nat w → 0 <= k / 10 < 10 ^ Z.of_nat w) as Hdiv.
    { intros k ?. split; [apply Z.div_pos; lia|apply Z.div_lt_upper_bound; lia]. }
    destruct (IH (m / 10) (n / 10) _ _ (Hdiv m Hm) (Hdiv n Hn)
      (f_equal S Hl : String.length (String _ acc) = String.length (String _ acc')) H)
      as [Hq [= Hd Ha]].
    split; [|done]. unfold digit in Hd.
    pose proof (Z.mod_pos_bound m 10); pose proof (Z.mod_pos_bound n 10).
    apply byte_of_inj in Hd; [|lia..].
    pose proof (Z.div_mod m 10); pose proof (Z.div_mod n 10). lia.
Qed.

Lemma dec_pad_inj w m n :
  0 <= m < 10 ^ Z.of_nat w → 0 <= n < 10 ^ Z.of_nat w →
  dec_pad w m = dec_pad w n → m = n.
Proof. intros Hm Hn H. by apply dec_fixed_inj in H as [? _]. Qed.
