(* ===== verification/Path.v ===== *)
(** * hsp-path: percent-decoding and segment-wise prefix matching

    Models [crates/hsp-path/src/lib.rs].  A path is decoded once; a result that
    still contains an encoded byte is refused; scopes are compared segment by
    segment, never by string prefix. *)

From Stdlib Require Import ZArith Lia Ascii String Bool.
From stdpp Require Import base option list strings numbers.
From S2P Require Import Prelude RustStr.

Inductive PathError :=
| InvalidPercentEncoding
| DoublePercentDecodingForbidden.

#[global] Instance PathError_eq_dec : EqDecision PathError.
Proof. solve_decision. Defined.

(** [Display for PathError]. *)
Definition path_error_to_string (e : PathError) : string :=
  match e with
  | InvalidPercentEncoding => "invalid percent encoding"
  | DoublePercentDecodingForbidden => "double percent decoding is forbidden"
  end.

Definition percent : ascii := "%"%char.
Definition slash : ascii := "/"%char.

Definition decode_hex (byte : ascii) : result PathError Z :=
  if in_range 48 57 byte then Ok (byte_val byte - 48)
  else if in_range 97 102 byte then Ok (byte_val byte - 97 + 10)
  else if in_range 65 70 byte then Ok (byte_val byte - 65 + 10)
  else Err InvalidPercentEncoding.

Fixpoint percent_decode_once (input : string) : result PathError string :=
  match input with
  | EmptyString => Ok EmptyString
  | String byte rest =>
      if negb (Ascii.eqb byte percent) then
        output ← percent_decode_once rest; Ok (push_latin1 byte output)
      else
        match rest with
        | String high (String low rest') =>
            h ← decode_hex high;
            l ← decode_hex low;
            output ← percent_decode_once rest';
            Ok (push_latin1 (byte_of (Z.lor (Z.shiftl h 4) l)) output)
        | _ => Err InvalidPercentEncoding
        end
  end.

(** [input.as_bytes().windows(3).any(..)]. *)
Fixpoint contains_nested_percent_encoding (input : string) : bool :=
  match input with
  | EmptyString => false
  | String w0 rest =>
      match rest with
      | String w1 (String w2 _) =>
          (Ascii.eqb w0 percent && is_ascii_hexdigit w1 && is_ascii_hexdigit w2)
          || contains_nested_percent_encoding rest
      | _ => false
      end
  end.

Definition canonical_segments (path : string) : result PathError (list string) :=
  decoded ← percent_decode_once path;
  if contains_nested_percent_encoding decoded then Err DoublePercentDecodingForbidden
  else Ok (split_on slash decoded).

Definition canonical_path (path : string) : result PathError string :=
  segments ← canonical_segments path; Ok (join "/" segments).

Definition segment_prefix_matches (prefix candidate : string) : bool :=
  match canonical_segments prefix with
  | Err _ => false
  | Ok prefix_segments =>
      match canonical_segments candidate with
      | Err _ => false
      | Ok candidate_segments =>
          if Nat.ltb (length candidate_segments) (length prefix_segments) then false
          else forallb (λ '(l, r), String.eqb l r)
                       (combine prefix_segments candidate_segments)
      end
  end.

(** ** Specification vocabulary *)

(** The Latin-1 re-encoding that [byte as char] performs on every byte. *)
Fixpoint latin1 (s : string) : string :=
  match s with
  | EmptyString => EmptyString
  | String c s' => push_latin1 c (latin1 s')
  end.

(** Paths on which decoding is the identity: ASCII without a percent sign. *)
Definition plain (s : string) : bool := is_ascii s && negb (str_contains_char percent s).

(** ** Lemmas *)

Lemma decode_hex_ok c : is_ok (decode_hex c) = is_ascii_hexdigit c.
Proof.
  unfold decode_hex, is_ascii_hexdigit.
  destruct (in_range 48 57 c), (in_range 97 102 c), (in_range 65 70 c); done.
Qed.

Lemma decode_hex_err c e : decode_hex c = Err e → e = InvalidPercentEncoding.
Proof. unfold decode_hex. intros H. repeat split_match_in H; done. Qed.

(** A canonical path is the decoded path: splitting and joining cancel. *)
Lemma canonical_path_decoded p q :
  canonical_path p = Ok q ↔
  percent_decode_once p = Ok q ∧ contains_nested_percent_encoding q = false.
Proof.
  unfold canonical_path, canonical_segments.
  destruct (percent_decode_once p) as [d|e]; cbn; [|naive_solver].
  destruct (contains_nested_percent_encoding d) eqn:En; cbn.
  - naive_solver congruence.
  - change "/" with (String slash ""). rewrite join_split_on. naive_solver.
Qed.

Lemma canonical_segments_ok p q :
  canonical_path p = Ok q → canonical_segments p = Ok (split_on slash q).
Proof.
  intros [Hd Hn]%canonical_path_decoded. unfold canonical_segments.
  rewrite Hd. cbn. by rewrite Hn.
Qed.

Lemma contains_nested_tail c s :
  contains_nested_percent_encoding (String c s) = false →
  contains_nested_percent_encoding s = false.
Proof.
  destruct s as [|a [|b s]]; [done..|]. by intros [_ H]%orb_false_iff.
Qed.

Lemma no_percent_not_nested s :
  str_contains_char percent s = false → contains_nested_percent_encoding s = false.
Proof.
  induction s as [|c s IH]; [done|]. rewrite str_contains_char_cons, orb_false_iff.
  intros [Hc Hs]. destruct s as [|a [|b s]]; [done..|].
  specialize (IH Hs). cbn [contains_nested_percent_encoding]. by rewrite Hc.
Qed.

Lemma percent_decode_no_percent s :
  str_contains_char percent s = false → percent_decode_once s = Ok (latin1 s).
Proof.
  induction s as [|c s IH]; [done|]. rewrite str_contains_char_cons, orb_false_iff.
  intros [Hc Hs]. cbn. rewrite Hc. cbn. by rewrite IH.
Qed.

(** A decoded path that still has a percent sign cannot be decoded again. *)
Lemma percent_decode_not_nested s :
  contains_nested_percent_encoding s = false → str_contains_char percent s = true →
  percent_decode_once s = Err InvalidPercentEncoding.
Proof.
  induction s as [|c s IH]; [done|]. rewrite str_contains_char_cons. intros Hn Hc.
  cbn [percent_decode_once]. destruct (Ascii.eqb_spec c percent) as [->|Hne]; cbn [negb].
  - destruct s as [|h [|l s]]; [done..|].
    apply orb_false_iff in Hn as [Hn _]. rewrite Ascii.eqb_refl, andb_true_l in Hn.
    rewrite <-!decode_hex_ok in Hn.
    destruct (decode_hex h) eqn:Eh; cbn; [|by rewrite (decode_hex_err _ _ Eh)].
    destruct (decode_hex l) eqn:El; cbn; [done|by rewrite (decode_hex_err _ _ El)].
  - rewrite IH; [done|by eapply contains_nested_tail|done].
Qed.

Lemma push_latin1_no_percent c s :
  Ascii.eqb c percent = false →
  str_contains_char percent (push_latin1 c s) = str_contains_char percent s.
Proof.
  intros Hc. unfold push_latin1. destruct (Z.ltb_spec (byte_val c) 128).
  - by rewrite str_contains_char_cons, Hc.
  - rewrite !str_contains_char_cons. pose proof (byte_val_range c).
    assert (∀ z, 128 <= z < 256 → Ascii.eqb (byte_of z) percent = false) as Hb.
    { intros z Hz. destruct (Ascii.eqb_spec (byte_of z) percent) as [E|]; [|done].
      apply (f_equal byte_val) in E. rewrite byte_val_of_small in E by lia.
      change (byte_val percent) with 37 in E. lia. }
    rewrite !Hb; [done| |].
    + pose proof (Z.mod_pos_bound (byte_val c) 64); lia.
    + assert (byte_val c / 64 < 4) by (apply Z.div_lt_upper_bound; lia).
      assert (0 <= byte_val c / 64) by (apply Z.div_pos; lia). lia.
Qed.

Lemma latin1_no_percent s :
  str_contains_char percent s = false → str_contains_char percent (latin1 s) = false.
Proof.
  induction s as [|c s IH]; [done|]. rewrite str_contains_char_cons, orb_false_iff.
  intros [Hc Hs]. cbn. rewrite push_latin1_no_percent; auto.
Qed.

Lemma latin1_length s : (String.length s <= String.length (latin1 s))%nat.
Proof.
  induction s as [|c s IH]; [done|]. cbn. unfold push_latin1. case_match; cbn; lia.
Qed.

Lemma latin1_ascii s : is_ascii s = true ↔ latin1 s = s.
Proof.
  unfold is_ascii. induction s as [|c s IH]; [done|]. cbn.
  unfold push_latin1, is_ascii_byte. destruct (Z.ltb_spec (byte_val c) 128) as [Hc|Hc]; cbn.
  - rewrite IH. split; [by intros ->|congruence].
  - split; [done|]. intros H%(f_equal String.length). cbn in H.
    pose proof (latin1_length s). lia.
Qed.

Lemma plain_spec s :
  plain s = true ↔ is_ascii s = true ∧ str_contains_char percent s = false.
Proof. unfold plain. by rewrite andb_true_iff, negb_true_iff. Qed.

Lemma canonical_path_plain s : plain s = true → canonical_path s = Ok s.
Proof.
  intros [Ha Hp]%plain_spec. apply canonical_path_decoded.
  rewrite percent_decode_no_percent by done. apply latin1_ascii in Ha as ->.
  split; [done|by apply no_percent_not_nested].
Qed.

Lemma forallb_combine_prefix (l k : list string) :
  (length l <= length k)%nat →
  forallb (λ '(a, b), String.eqb a b) (combine l k) = true ↔ l `prefix_of` k.
Proof.
  revert k. induction l as [|a l IH]; intros k Hl; cbn.
  - split; [|done]. intros _. apply prefix_nil.
  - destruct k as [|b k]; cbn in *; [lia|]. rewrite andb_true_iff, IH by lia.
    rewrite String.eqb_eq. split.
    + intros [-> H]. by apply prefix_cons.
    + intros H. split; [by eapply prefix_cons_inv_1|by eapply prefix_cons_inv_2].
Qed.

Lemma segment_prefix_matches_iff p c :
  segment_prefix_matches p c = true ↔
  ∃ ps cs, canonical_segments p = Ok ps ∧ canonical_segments c = Ok cs ∧ ps `prefix_of` cs.
Proof.
  unfold segment_prefix_matches.
  destruct (canonical_segments p) as [ps|]; [|naive_solver].
  destruct (canonical_segments c) as [cs|]; [|naive_solver].
  destruct (Nat.ltb_spec (length cs) (length ps)) as [Hl|Hl].
  - split; [done|]. intros (?&?&[= <-]&[= <-]&Hp%prefix_length). lia.
  - rewrite forallb_combine_prefix by done. naive_solver.
Qed.

Lemma split_prefix_iff p c :
  split_on slash p `prefix_of` split_on slash c ↔ c = p ∨ ∃ r, c = p +:+ "/" +:+ r.
Proof.
  split.
  - intros [k Hk]. pose proof (join_split_on slash c) as Hc. rewrite Hk in Hc.
    destruct (decide (k = [])) as [->|Hne].
    + left. by rewrite app_nil_r, join_split_on in Hc.
    + right. exists (join (String slash "") k).
      by rewrite join_app, join_split_on in Hc by (done || apply split_on_not_nil).
  - intros [->|[r ->]]; [done|]. change "/" with (String slash "").
    rewrite str_app_cons, str_app_nil_l.
    exists (split_on slash r).
    induction p as [|x p IH]; cbn; rewrite ?str_app_cons; cbn.
    + by rewrite ?Ascii.eqb_refl.
    + rewrite IH. destruct (Ascii.eqb x slash); [done|].
      pose proof (split_on_not_nil slash p). by destruct (split_on slash p).
Qed.

(** ** Properties *)

(** Segment prefix matching is exactly the list-prefix relation on the
    canonical segments; a path that does not canonicalise matches nothing. *)
Theorem segment_prefix_matches_spec p c :
  segment_prefix_matches p c = true ↔
  ∃ ps cs, canonical_segments p = Ok ps ∧ canonical_segments c = Ok cs ∧
           ps `prefix_of` cs.
Proof. apply segment_prefix_matches_iff. Qed.

(** No prefix confusion.  For paths on which decoding is the identity (ASCII
    without a percent sign) a scope matches the path itself and the paths below
    it, and nothing else: [tenant/a] never matches [tenant/alpha]. *)
Theorem segment_prefix_no_confusion p c :
  plain p = true → plain c = true →
  (segment_prefix_matches p c = true ↔ c = p ∨ ∃ r, c = p +:+ "/" +:+ r).
Proof.
  intros Hp%canonical_path_plain%canonical_segments_ok
         Hc%canonical_path_plain%canonical_segments_ok.
  rewrite segment_prefix_matches_iff, <-split_prefix_iff, Hp, Hc. naive_solver.
Qed.

(** Canonicalising an already canonical path.  It fails as soon as the path
    contains a literal percent sign, and otherwise re-encodes every byte as
    Latin-1, so that it returns its argument exactly on ASCII paths.  The service
    canonicalises twice (once for the request, once in the scope check), so this
    is where percent signs and non-ASCII names are affected. *)
Theorem canonical_path_twice p q :
  canonical_path p = Ok q →
  canonical_path q =
    (if str_contains_char percent q then Err InvalidPercentEncoding else Ok (latin1 q)) ∧
  (canonical_path q = Ok q ↔ plain q = true).
Proof.
  intros [_ Hn]%canonical_path_decoded.
  assert (canonical_path q =
    (if str_contains_char percent q then Err InvalidPercentEncoding else Ok (latin1 q)))
    as Heq.
  { destruct (str_contains_char percent q) eqn:Hq.
    - unfold canonical_path, canonical_segments. by rewrite percent_decode_not_nested.
    - apply canonical_path_decoded. rewrite percent_decode_no_percent by done.
      by rewrite no_percent_not_nested by (by apply latin1_no_percent). }
  split; [exact Heq|]. rewrite Heq, plain_spec, latin1_ascii.
  clear Heq. destruct (str_contains_char percent q).
  - split; [done|by intros [_ ?]].
  - split; [by intros [= ->]|by intros [-> _]].
Qed.

(** Matching is transitive, and a path matches itself exactly when it
    canonicalises: delegating a narrower scope never widens it. *)
Lemma segment_prefix_matches_preorder a b c :
  (segment_prefix_matches a b = true → segment_prefix_matches b c = true →
   segment_prefix_matches a c = true) ∧
  segment_prefix_matches a a = is_ok (canonical_path a).
Proof.
  split.
  - rewrite !segment_prefix_matches_iff.
    intros (sa&sb&Ha&Hb&Hab) (sb'&sc&Hb'&Hc&Hbc). exists sa, sc. split_and!; [done..|].
    rewrite Hb in Hb'. injection Hb' as ->. by etrans.
  - apply eq_bool_prop_intro. rewrite !Is_true_true, segment_prefix_matches_iff.
    unfold canonical_path. destruct (canonical_segments a) as [l|]; cbn.
    + split; [done|]. intros _. by exists l, l.
    + split; [by intros (?&?&?&_)|done].
Qed.
