(* ===== verification/Core.v ===== *)
(** * hsp-core: protocol data types and their validation

    Models the data of [crates/hsp-core/src/lib.rs]: enums with their wire
    spelling, request and response structs, the manifest with its encryption
    descriptor, and the [validate] methods.  The canonical encoding of these
    types is in [Cbor.v].  Unsigned Rust integers are [Z]; [u64_range] and its
    siblings state the width.  [BTreeMap<String, String>] is [gmap string string];
    where the code iterates over one, [btree_iter] gives the ascending order. *)

From Stdlib Require Import ZArith Lia Ascii String Bool.
From stdpp Require Import base option list strings gmap numbers sorting.
From S2P Require Import Prelude RustStr.

Definition u8_range (z : Z) : Prop := 0 <= z < 2 ^ 8.
Definition u16_range (z : Z) : Prop := 0 <= z < 2 ^ 16.
Definition u32_range (z : Z) : Prop := 0 <= z < 2 ^ 32.
Definition u64_range (z : Z) : Prop := 0 <= z < 2 ^ 64.

(** [saturating_add], [saturating_sub] and plain [+] (which wraps in the release
    profile) on [u64]. *)
Definition u64_max : Z := 2 ^ 64 - 1.
Definition u64_sat_add (a b : Z) : Z := Z.min (a + b) u64_max.
Definition u64_sat_sub (a b : Z) : Z := Z.max (a - b) 0.
Definition u64_add (a b : Z) : Z := (a + b) mod 2 ^ 64.

(** Iteration order of a [BTreeMap<String, V>]: ascending byte order of keys. *)
Definition key_le {V} (a b : string * V) : Prop := String.le a.1 b.1.
#[global] Instance key_le_dec {V} : RelDecision (@key_le V).
Proof. intros a b. unfold key_le. apply _. Defined.
Definition btree_iter {V} (m : gmap string V) : list (string * V) :=
  merge_sort key_le (map_to_list m).

(** The newtypes [TenantId], [KeyPolicyId] and [EncryptionProfileId] wrap a
    [String] and derive everything from it. *)
Abbreviation TenantId := string.
Abbreviation KeyPolicyId := string.
Abbreviation EncryptionProfileId := string.
Abbreviation metadata_map := (gmap string string).

Inductive VisibilityMode := ServerVisible | EncryptedOnly | Split.
Definition visibility_as_str (v : VisibilityMode) : string :=
  match v with
  | ServerVisible => "server_visible"
  | EncryptedOnly => "encrypted_only"
  | Split => "split"
  end.

Inductive CapabilityScope :=
| ScopeRead | ScopeWrite | ScopeBind | ScopeUnbind | ScopeList | ScopeSubscribe
| ScopePin | ScopeReplicate | AdminMetricsRead | AdminAuditRead | AdminRepair
| AdminKeyRotate | AdminPolicyWrite.
Definition scope_as_str (s : CapabilityScope) : string :=
  match s with
  | ScopeRead => "read"
  | ScopeWrite => "write"
  | ScopeBind => "bind"
  | ScopeUnbind => "unbind"
  | ScopeList => "list"
  | ScopeSubscribe => "subscribe"
  | ScopePin => "pin"
  | ScopeReplicate => "replicate"
  | AdminMetricsRead => "admin.metrics.read"
  | AdminAuditRead => "admin.audit.read"
  | AdminRepair => "admin.repair"
  | AdminKeyRotate => "admin.key.rotate"
  | AdminPolicyWrite => "admin.policy.write"
  end.

Inductive OperationName :=
| OpInfo | OpHead | OpGet | OpResolve | OpBind | OpUnbind | OpList | OpSubscribe
| OpPutInit | OpPutChunk | OpPutCommit.
Definition operation_as_str (o : OperationName) : string :=
  match o with
  | OpInfo => "INFO"
  | OpHead => "HEAD"
  | OpGet => "GET"
  | OpResolve => "RESOLVE"
  | OpBind => "BIND"
  | OpUnbind => "UNBIND"
  | OpList => "LIST"
  | OpSubscribe => "SUBSCRIBE"
  | OpPutInit => "PUT_INIT"
  | OpPutChunk => "PUT_CHUNK"
  | OpPutCommit => "PUT_COMMIT"
  end.
Definition is_mutation (o : OperationName) : bool :=
  match o with
  | OpBind | OpUnbind | OpPutInit | OpPutChunk | OpPutCommit => true
  | _ => false
  end.

Inductive ApiErrorCategory :=
| CatAuth | CatReplay | CatPolicy | CatValidation | CatUnsupported | CatNotFound
| CatConflict | CatStorage.

Record ApiError := mkApiError {
  err_category : ApiErrorCategory;
  err_code : string;
  err_message : string;
}.

#[global] Instance VisibilityMode_eq_dec : EqDecision VisibilityMode.
Proof. solve_decision. Defined.
#[global] Instance CapabilityScope_eq_dec : EqDecision CapabilityScope.
Proof. solve_decision. Defined.
#[global] Instance OperationName_eq_dec : EqDecision OperationName.
Proof. solve_decision. Defined.
#[global] Instance ApiErrorCategory_eq_dec : EqDecision ApiErrorCategory.
Proof. solve_decision. Defined.
#[global] Instance ApiError_eq_dec : EqDecision ApiError.
Proof. solve_decision. Defined.

(** ** Service description *)

Record ServiceLimits := mkServiceLimits {
  max_chunk_size : Z;
  max_manifest_size : Z;
  limits_max_object_size : Z;
  max_parallel_chunk_streams : Z;
}.

Record BootstrapNativeEndpoint := mkBootstrapNativeEndpoint {
  native_alpn : string;
  native_host : string;
  native_port : Z;
}.

Record BootstrapGatewayEndpoint := mkBootstrapGatewayEndpoint { gateway_base_url : string }.

Record BootstrapDocument := mkBootstrapDocument {
  boot_version : Z;
  boot_authority : string;
  boot_native : BootstrapNativeEndpoint;
  boot_gateway : BootstrapGatewayEndpoint;
  boot_e2ee_required : bool;
  boot_storage_encryption_required : bool;
  boot_crypto_suite : list string;
  boot_key_wrapping_suite : string;
  boot_tenant_isolation_profile : string;
  boot_supported_token_profiles : list string;
  boot_supported_extensions : list string;
  boot_limits_revision : Z;
  boot_limits : ServiceLimits;
}.

Record InfoResponse := mkInfoResponse {
  info_version : Z;
  info_authority_profile : string;
  info_e2ee_required : bool;
  info_storage_encryption_required : bool;
  info_crypto_suite : list string;
  info_key_wrapping_suite : string;
  info_tenant_isolation_profile : string;
  info_supported_token_profiles : list string;
  info_supported_extensions : list string;
  info_limits_revision : Z;
  info_limits : ServiceLimits;
}.

Record SettingsFrame := mkSettingsFrame {
  set_max_chunk_size : Z;
  set_max_manifest_size : Z;
  set_max_object_size : Z;
  set_max_parallel_streams : Z;
  set_supported_chunkers : list string;
  set_supported_content_encodings : list string;
  set_supported_token_profiles : list string;
  set_supported_extensions : list string;
  set_server_instance_id : string;
  set_event_replay_window_sec : Z;
  set_limits_revision : Z;
}.

(** ** Manifests *)

Record WrappedObjectKeyRecord := mkWrappedObjectKeyRecord {
  wk_recipient_key_id : string;
  wk_wrapping_suite : string;
  wk_wrapped_key_b64 : string;
  wk_key_version : Z;
  wk_encapsulated_key_b64 : option string;
}.

Record EncryptionDescriptor := mkEncryptionDescriptor {
  ed_encryption_profile_id : EncryptionProfileId;
  ed_key_policy_id : KeyPolicyId;
  ed_content_encryption_suite : string;
  ed_key_wrapping_suite : string;
  ed_metadata_visibility : VisibilityMode;
  ed_wrapped_object_keys : list WrappedObjectKeyRecord;
  ed_server_visible_metadata : metadata_map;
  ed_encrypted_client_metadata : metadata_map;
}.

Record ChunkRef := mkChunkRef {
  cr_chunk_index : Z;
  cr_cid : string;
  cr_offset : Z;
  cr_logical_len : Z;
  cr_stored_len : Z;
  cr_content_encoding : string;
}.

Record Manifest := mkManifest {
  mf_version : Z;
  mf_tenant_id : TenantId;
  mf_logical_size : Z;
  mf_stored_size : Z;
  mf_chunker : string;
  mf_chunk_refs : list ChunkRef;
  mf_content_type : string;
  mf_created_at_ms : Z;
  mf_encryption_descriptor : EncryptionDescriptor;
}.

Definition encryption_descriptor_validate (d : EncryptionDescriptor) : result ApiError unit :=
  if str_is_empty (trim (ed_content_encryption_suite d)) then
    Err (mkApiError CatValidation "missing_content_encryption_suite"
           "content_encryption_suite must be set")
  else if str_is_empty (trim (ed_key_wrapping_suite d)) then
    Err (mkApiError CatValidation "missing_key_wrapping_suite"
           "key_wrapping_suite must be set")
  else match ed_wrapped_object_keys d with
       | [] => Err (mkApiError CatValidation "missing_wrapped_object_keys"
                      "at least one wrapped object key record is required")
       | _ => Ok tt
       end.

Definition manifest_validate (m : Manifest) : result ApiError unit :=
  match mf_chunk_refs m with
  | [] => Err (mkApiError CatValidation "empty_chunk_refs"
                 "manifest must contain at least one chunk reference")
  | _ =>
      if (mf_stored_size m =? 0) || (mf_logical_size m =? 0) then
        Err (mkApiError CatValidation "zero_sized_manifest"
               "logical_size and stored_size must be non-zero")
      else encryption_descriptor_validate (mf_encryption_descriptor m)
  end.

(** ** Authorization data *)

Record ChannelBindingProof := mkChannelBindingProof {
  cb_binding_kind : string;
  cb_proof_b64 : string;
  cb_nonce : string;
}.

Record CapabilityClaims := mkCapabilityClaims {
  iss : string;
  sub : string;
  aud : string;
  exp : Z;
  nbf : option Z;
  jti : option string;
  ops : list CapabilityScope;
  cl_tenant_id : TenantId;
  cl_namespace_prefix : option string;
  cl_path_prefix : option string;
  cl_max_object_size : option Z;
  cl_storage_classes : list string;
  cl_key_policy_id : option KeyPolicyId;
  cl_metadata_visibility : option VisibilityMode;
}.

#[global] Instance WrappedObjectKeyRecord_eq_dec : EqDecision WrappedObjectKeyRecord.
Proof. solve_decision. Defined.
#[global] Instance EncryptionDescriptor_eq_dec : EqDecision EncryptionDescriptor.
Proof. solve_decision. Defined.
#[global] Instance ChunkRef_eq_dec : EqDecision ChunkRef.
Proof. solve_decision. Defined.
#[global] Instance Manifest_eq_dec : EqDecision Manifest.
Proof. solve_decision. Defined.
#[global] Instance ChannelBindingProof_eq_dec : EqDecision ChannelBindingProof.
Proof. solve_decision. Defined.
#[global] Instance CapabilityClaims_eq_dec : EqDecision CapabilityClaims.
Proof. solve_decision. Defined.

(** ** Selectors and namespace mutations *)

Inductive ObjectSelectorKind := SelCid | SelNamespace.
Record ObjectSelector := mkObjectSelector {
  sel_kind : ObjectSelectorKind;
  sel_cid : option string;
  sel_namespace : option string;
  sel_path : option string;
}.
(** [ObjectSelector::cid] and [ObjectSelector::namespace]. *)
Definition selector_of_cid (cid : string) : ObjectSelector :=
  mkObjectSelector SelCid (Some cid) None None.
Definition selector_of_namespace (namespace path : string) : ObjectSelector :=
  mkObjectSelector SelNamespace None (Some namespace) (Some path).
(** [o.as_deref().unwrap_or_default().is_empty()]. *)
Definition opt_str_is_empty (o : option string) : bool :=
  match o with Some s => str_is_empty s | None => true end.
Definition object_selector_validate (s : ObjectSelector) : result ApiError unit :=
  match sel_kind s with
  | SelCid =>
      if opt_str_is_empty (sel_cid s) then
        Err (mkApiError CatValidation "missing_cid_selector" "cid selector must include cid")
      else Ok tt
  | SelNamespace =>
      if opt_str_is_empty (sel_namespace s) || opt_str_is_empty (sel_path s) then
        Err (mkApiError CatValidation "missing_namespace_selector"
               "namespace selector must include namespace and path")
      else Ok tt
  end.

Record AtomicBindRequest := mkAtomicBindRequest {
  ab_namespace : string;
  ab_path : string;
  ab_if_revision : option Z;
  ab_metadata : metadata_map;
  ab_ttl_ms : option Z;
  ab_signed_record_b64 : string;
}.

Inductive NamespaceMutationKind := KindBind | KindUnbind | KindHardDelete.
Definition mutation_kind_as_str (k : NamespaceMutationKind) : string :=
  match k with
  | KindBind => "bind"
  | KindUnbind => "unbind"
  | KindHardDelete => "hard_delete"
  end.

Record NamespaceMutationRecord := mkNamespaceMutationRecord {
  nm_version : Z;
  nm_tenant_id : TenantId;
  nm_namespace : string;
  nm_path : string;
  nm_kind : NamespaceMutationKind;
  nm_target_cid : option string;
  nm_if_revision : option Z;
  nm_ttl_ms : option Z;
  nm_metadata : metadata_map;
  nm_issued_at_ms : Z;
}.

#[global] Instance ObjectSelectorKind_eq_dec : EqDecision ObjectSelectorKind.
Proof. solve_decision. Defined.
#[global] Instance NamespaceMutationKind_eq_dec : EqDecision NamespaceMutationKind.
Proof. solve_decision. Defined.
#[global] Instance AtomicBindRequest_eq_dec : EqDecision AtomicBindRequest.
Proof. solve_decision. Defined.
#[global] Instance NamespaceMutationRecord_eq_dec : EqDecision NamespaceMutationRecord.
Proof. solve_decision. Defined.

Definition namespace_mutation_validate (r : NamespaceMutationRecord) : result ApiError unit :=
  if str_is_empty (trim (nm_namespace r)) then
    Err (mkApiError CatValidation "missing_namespace" "namespace mutation must include namespace")
  else if str_is_empty (trim (nm_path r)) then
    Err (mkApiError CatValidation "missing_path" "namespace mutation must include path")
  else if bool_decide (nm_kind r = KindBind) && opt_str_is_empty (nm_target_cid r) then
    Err (mkApiError CatValidation "missing_target_cid" "bind mutation must include target_cid")
  else Ok tt.

Record ResolveRequest := mkResolveRequest {
  rq_tenant_id : TenantId;
  rq_namespace : string;
  rq_path : string;
  rq_at_revision : option Z;
  rq_if_revision : option Z;
}.
Record ResolveResponse := mkResolveResponse {
  rs_revision : Z;
  rs_target_cid : option string;
  rs_manifest_cid : option string;
  rs_record_cid : string;
  rs_metadata : metadata_map;
  rs_tombstone : bool;
}.
Record BindRequest := mkBindRequest {
  br_tenant_id : TenantId;
  br_namespace : string;
  br_path : string;
  br_target_cid : string;
  br_if_revision : option Z;
  br_if_absent : bool;
  br_metadata : metadata_map;
  br_ttl_ms : option Z;
  br_idempotency_key : string;
  br_signed_record_b64 : string;
}.
Record BindResponse := mkBindResponse {
  bs_revision : Z;
  bs_record_cid : string;
  bs_event_seq : Z;
}.
Record UnbindRequest := mkUnbindRequest {
  ur_tenant_id : TenantId;
  ur_namespace : string;
  ur_path : string;
  ur_if_revision : Z;
  ur_hard_delete : bool;
  ur_idempotency_key : string;
  ur_signed_record_b64 : string;
}.
Record UnbindResponse := mkUnbindResponse {
  us_revision : Z;
  us_record_cid : string;
  us_event_seq : Z;
  us_tombstone : bool;
}.
Record ListRequest := mkListRequest {
  lq_tenant_id : TenantId;
  lq_namespace : string;
  lq_prefix : option string;
  lq_cursor : option string;
  lq_limit : option Z;
  lq_recursive : bool;
  lq_include_tombstones : bool;
}.
Record ListItem := mkListItem {
  li_namespace : string;
  li_path : string;
  li_target_cid : option string;
  li_manifest_cid : option string;
  li_revision : Z;
  li_record_cid : string;
  li_metadata : metadata_map;
  li_tombstone : bool;
}.
Record ListResponse := mkListResponse {
  ls_items : list ListItem;
  ls_next_cursor : option string;
  ls_truncated : bool;
  ls_namespace_revision_snapshot : Z;
}.

(** ** Events *)

Inductive EventType :=
| ObjectCommitted | NamespaceBound | NamespaceUnbound | NamespaceTombstoned
| AuthDenied | PinAccepted.
Definition event_type_as_str (e : EventType) : string :=
  match e with
  | ObjectCommitted => "object.committed"
  | NamespaceBound => "namespace.bound"
  | NamespaceUnbound => "namespace.unbound"
  | NamespaceTombstoned => "namespace.tombstoned"
  | AuthDenied => "auth.denied"
  | PinAccepted => "pin.accepted"
  end.
Record EventRecord := mkEventRecord {
  ev_version : Z;
  ev_seq : Z;
  ev_at_ms : Z;
  ev_event_type : EventType;
  ev_subject_kind : string;
  ev_namespace : option string;
  ev_path : option string;
  ev_cid : option string;
  ev_revision : option Z;
  ev_trace_id : option string;
  ev_payload : metadata_map;
}.
Record SubscribeFilter := mkSubscribeFilter {
  sf_namespace_prefix : option string;
  sf_path_exact : option string;
  sf_object_cid : option string;
  sf_event_type : option EventType;
  sf_tenant_scope : option TenantId;
}.
Record SubscribeRequest := mkSubscribeRequest {
  sq_tenant_id : TenantId;
  sq_filters : list SubscribeFilter;
  sq_cursor : option string;
  sq_from_seq : option Z;
  sq_heartbeat_ms : option Z;
  sq_batch_max : option Z;
}.
Record NoticeFrame := mkNoticeFrame {
  no_kind : string;
  no_message : option string;
  no_cursor : option string;
}.
Inductive SubscribeEnvelopeKind := EnvEvent | EnvNotice.
Record SubscribeEnvelope := mkSubscribeEnvelope {
  se_kind : SubscribeEnvelopeKind;
  se_event : option EventRecord;
  se_notice : option NoticeFrame;
}.
#[global] Instance EventType_eq_dec : EqDecision EventType.
Proof. solve_decision. Defined.
#[global] Instance EventRecord_eq_dec : EqDecision EventRecord.
Proof. solve_decision. Defined.

(** ** Uploads and reads *)

Record PutInitRequest := mkPutInitRequest {
  pi_tenant_id : TenantId;
  pi_manifest : Manifest;
  pi_idempotency_key : string;
  pi_encryption_profile_id : EncryptionProfileId;
  pi_key_policy_id : KeyPolicyId;
  pi_metadata_visibility : VisibilityMode;
  pi_storage_class : string;
  pi_atomic_bind : option AtomicBindRequest;
}.
Record PutInitResponse := mkPutInitResponse {
  pr_session_id : string;
  pr_missing_chunks : list Z;
  pr_accepted_manifest_cid : string;
  pr_upload_deadline_ms : Z;
  pr_max_parallel_chunk_streams : Z;
}.
Record PutChunkRequest := mkPutChunkRequest {
  pc_tenant_id : TenantId;
  pc_session_id : string;
  pc_chunk_index : Z;
  pc_chunk_cid : string;
  pc_chunk_offset : Z;
  pc_chunk_length : Z;
  pc_content_encoding : string;
}.
Record PutChunkResponse := mkPutChunkResponse {
  pcr_stored : bool;
  pcr_duplicate : bool;
  pcr_verified_cid : bool;
}.
Record PutCommitRequest := mkPutCommitRequest {
  cm_tenant_id : TenantId;
  cm_session_id : string;
  cm_manifest_cid : string;
  cm_idempotency_key : string;
}.
Record PutCommitResponse := mkPutCommitResponse {
  cmr_object_cid : string;
  cmr_committed : bool;
  cmr_event_seq : Z;
}.
Inductive GetPreference := PrefRaw | PrefChunkStream | PrefManifestOnly.
Definition get_preference_as_str (p : GetPreference) : string :=
  match p with
  | PrefRaw => "raw"
  | PrefChunkStream => "chunk-stream"
  | PrefManifestOnly => "manifest-only"
  end.
Record RangeSpec := mkRangeSpec { range_start : Z; range_end : Z }.
Definition range_validate (r : RangeSpec) : result ApiError unit :=
  if range_end r <? range_start r then
    Err (mkApiError CatValidation "invalid_range"
           "range start must be less than or equal to end")
  else Ok tt.
Record HeadRequest := mkHeadRequest {
  hq_tenant_id : TenantId;
  hq_selector : ObjectSelector;
}.
Record HeadResponse := mkHeadResponse {
  hr_exists : bool;
  hr_deleted : bool;
  hr_cid : string;
  hr_object_cid : string;
  hr_manifest_cid : string;
  hr_integrity_hash : string;
  hr_storage_class : string;
  hr_resolved_namespace : option string;
  hr_resolved_path : option string;
  hr_resolved_revision : option Z;
  hr_resolved_record_cid : option string;
  hr_size_bytes : Z;
  hr_ciphertext_size_bytes : Z;
  hr_logical_size : Z;
  hr_stored_size : Z;
  hr_content_type : string;
  hr_created_at_ms : Z;
  hr_encryption_profile_id : EncryptionProfileId;
  hr_key_policy_id : KeyPolicyId;
  hr_metadata_visibility : VisibilityMode;
  hr_server_visible_metadata : metadata_map;
  hr_encrypted_client_metadata_redacted : bool;
}.
Record GetRequest := mkGetRequest {
  gq_tenant_id : TenantId;
  gq_selector : ObjectSelector;
  gq_preference : option GetPreference;
  gq_range : option RangeSpec;
}.
Record GetChunkDescriptor := mkGetChunkDescriptor {
  gd_chunk_index : Z;
  gd_chunk_cid : string;
  gd_chunk_offset : Z;
  gd_logical_range_start : Z;
  gd_logical_range_end : Z;
  gd_fragment_offset : Z;
  gd_fragment_length : Z;
  gd_content_encoding : string;
}.
(** [GetResponseMeta] repeats the fields of [HeadResponse] and adds three. *)
Record GetResponseMeta := mkGetResponseMeta {
  gm_head : HeadResponse;
  gm_preference : GetPreference;
  gm_manifest : option Manifest;
  gm_chunk_descriptors : list GetChunkDescriptor;
}.
Record GetChunk := mkGetChunk {
  gc_descriptor : GetChunkDescriptor;
  gc_bytes : bytes;
}.
Record GetResponse := mkGetResponse {
  gr_meta : GetResponseMeta;
  gr_chunks : list GetChunk;
}.
#[global] Instance GetPreference_eq_dec : EqDecision GetPreference.
Proof. solve_decision. Defined.

Record WireErrorFrame := mkWireErrorFrame {
  we_category : ApiErrorCategory;
  we_code : string;
  we_message : string;
}.
Record GoAwayFrame := mkGoAwayFrame { ga_reason : string }.
Record AuthFrame := mkAuthFrame {
  af_token_b64 : string;
  af_channel_binding : ChannelBindingProof;
}.
Record ReadinessReport := mkReadinessReport {
  rr_ready : bool;
  rr_kms_provider : string;
  rr_encrypted_store_roots : list string;
}.

Record ManifestRequirements := mkManifestRequirements {
  encryption_descriptor_required : bool;
  metadata_hidden_by_default : bool;
  put_init_requires_key_policy : bool;
}.

(** ** The public multi-tenant profile *)

Definition public_multitenant_manifest_requirements : ManifestRequirements :=
  mkManifestRequirements true true true.

Definition public_admin_scopes : list CapabilityScope :=
  [AdminMetricsRead; AdminAuditRead; AdminRepair; AdminKeyRotate; AdminPolicyWrite].

Definition default_limits : ServiceLimits :=
  mkServiceLimits (4 * 1024 * 1024) (8 * 1024 * 1024) (4 * 1024 * 1024 * 1024) 8.

Definition public_multitenant_crypto_suite : list string :=
  ["Ed25519"; "COSE_Sign1"; "XChaCha20-Poly1305"; "AES-256-GCM"; "SHA-256"].

Definition default_supported_chunkers : list string := ["fixed-1m"].
Definition default_supported_content_encodings : list string := ["identity"].
Definition supported_extensions : list string :=
  ["encrypted-store-alpha"; "native-beta"; "gateway-http3-beta"].

Definition public_multitenant_bootstrap_document (authority base_url : string)
  : BootstrapDocument :=
  {| boot_version := 1;
     boot_authority := authority;
     boot_native := mkBootstrapNativeEndpoint "hsp/1" authority 443;
     boot_gateway := mkBootstrapGatewayEndpoint base_url;
     boot_e2ee_required := true;
     boot_storage_encryption_required := true;
     boot_crypto_suite := public_multitenant_crypto_suite;
     boot_key_wrapping_suite := "HPKE/X25519";
     boot_tenant_isolation_profile := "strict-per-tenant-key-domain";
     boot_supported_token_profiles := ["cose-sign1"];
     boot_supported_extensions := supported_extensions;
     boot_limits_revision := 1;
     boot_limits := default_limits |}.

Definition public_multitenant_info_response : InfoResponse :=
  {| info_version := 1;
     info_authority_profile := "public-multi-tenant";
     info_e2ee_required := true;
     info_storage_encryption_required := true;
     info_crypto_suite := public_multitenant_crypto_suite;
     info_key_wrapping_suite := "HPKE/X25519";
     info_tenant_isolation_profile := "strict-per-tenant-key-domain";
     info_supported_token_profiles := ["cose-sign1"];
     info_supported_extensions := supported_extensions;
     info_limits_revision := 1;
     info_limits := default_limits |}.

Definition public_multitenant_settings_frame (server_instance_id : string) : SettingsFrame :=
  {| set_max_chunk_size := max_chunk_size default_limits;
     set_max_manifest_size := max_manifest_size default_limits;
     set_max_object_size := limits_max_object_size default_limits;
     set_max_parallel_streams := max_parallel_chunk_streams default_limits;
     set_supported_chunkers := default_supported_chunkers;
     set_supported_content_encodings := default_supported_content_encodings;
     set_supported_token_profiles := ["cose-sign1"];
     set_supported_extensions := supported_extensions;
     set_server_instance_id := server_instance_id;
     set_event_replay_window_sec := 3600;
     set_limits_revision := 1 |}.

(** ** Lemmas *)

#[global] Instance visibility_as_str_inj : Inj (=) (=) visibility_as_str.
Proof. by intros [] []. Qed.
#[global] Instance scope_as_str_inj : Inj (=) (=) scope_as_str.
Proof. by intros [] []. Qed.
#[global] Instance operation_as_str_inj : Inj (=) (=) operation_as_str.
Proof. by intros [] []. Qed.
#[global] Instance mutation_kind_as_str_inj : Inj (=) (=) mutation_kind_as_str.
Proof. by intros [] []. Qed.
#[global] Instance event_type_as_str_inj : Inj (=) (=) event_type_as_str.
Proof. by intros [] []. Qed.

#[global] Instance key_le_trans V : Transitive (@key_le V).
Proof. intros a b c. unfold key_le. apply transitivity. Qed.
#[global] Instance key_le_total V : Total (@key_le V).
Proof. intros a b. unfold key_le. apply total, _. Qed.

Lemma btree_iter_Permutation {V} (m : gmap string V) : btree_iter m ≡ₚ map_to_list m.
Proof. apply merge_sort_Permutation. Qed.

Lemma btree_iter_elem {V} (m : gmap string V) k v : (k, v) ∈ btree_iter m ↔ m !! k = Some v.
Proof. rewrite btree_iter_Permutation. apply elem_of_map_to_list. Qed.

Lemma btree_iter_sorted {V} (m : gmap string V) : StronglySorted key_le (btree_iter m).
Proof. apply (StronglySorted_merge_sort key_le _). Qed.

Lemma btree_iter_NoDup_fst {V} (m : gmap string V) : NoDup (btree_iter m).*1.
Proof. rewrite btree_iter_Permutation. apply NoDup_fst_map_to_list. Qed.

#[global] Instance btree_iter_inj V : Inj (=) (=) (@btree_iter V).
Proof.
  intros m1 m2 H. apply map_eq. intros k. apply option_eq. intros v.
  by rewrite <-!btree_iter_elem, H.
Qed.

Lemma u64_sat_add_range a b : u64_range a → u64_range b → u64_range (u64_sat_add a b).
Proof. unfold u64_range, u64_sat_add, u64_max. lia. Qed.
Lemma u64_sat_sub_range a b : u64_range a → u64_range b → u64_range (u64_sat_sub a b).
Proof. unfold u64_range, u64_sat_sub. lia. Qed.
Lemma u64_add_small a b : 0 <= a + b < 2 ^ 64 → u64_add a b = a + b.
Proof. apply Z.mod_small. Qed.
