(* ===== verification/Cbor.v ===== *)
(** * hsp-core: canonical CBOR, content identifiers and cursors

    Models the encoder of [crates/hsp-core/src/lib.rs] ([CanonicalValue],
    [encode_canonical_cbor], [encode_major]), the [canonical_value] methods, the
    CIDs derived from them and the opaque cursors.  SHA-256, Base32, Base64url
    and the CBOR reader of the [ciborium] crate are parameters (type classes),
    with the documented facts the code relies on as separate law classes. *)

From Stdlib Require Import ZArith Lia Ascii String Bool.
From stdpp Require Import base option list strings gmap numbers sorting.
From S2P Require Import Prelude RustStr Core.

(** ** The canonical encoder *)

(** [to_be_bytes] of the low [8 * k] bits. *)
Fixpoint be_bytes (k : nat) (v : Z) : bytes :=
  match k with
  | O => []
  | S k' => byte_of (Z.shiftr v (8 * Z.of_nat k')) :: be_bytes k' v
  end.

(** [BTreeMap<u64, CanonicalValue>] is the list of its entries in key order. *)
Inductive CanonicalValue :=
| Unsigned (n : Z)
| Text (s : string)
| Bytes (b : bytes)
| CBool (b : bool)
| CArray (items : list CanonicalValue)
| CMap (entries : list (Z * CanonicalValue)).

(** [BTreeMap::insert] on the ordered entry list. *)
Fixpoint btree_insert (k : Z) (v : CanonicalValue) (m : list (Z * CanonicalValue))
  : list (Z * CanonicalValue) :=
  match m with
  | [] => [(k, v)]
  | (k', v') :: m' =>
      if k <? k' then (k, v) :: m
      else if k =? k' then (k, v) :: m'
      else (k', v') :: btree_insert k v m'
  end.

(** A method body that inserts entries one by one, [None] being an [if let Some]
    that does not fire. *)
Definition insert_all (es : list (option (Z * CanonicalValue))) : CanonicalValue :=
  CMap (foldl (λ m e, match e with
                      | Some (k, v) => btree_insert k v m
                      | None => m
                      end) [] es).

Definition encode_major (major value : Z) : bytes :=
  let head x := byte_of (Z.lor (Z.shiftl major 5) x) in
  if value <=? 23 then [head value]
  else if value <=? 255 then [head 24; byte_of value]
  else if value <=? 65535 then head 25 :: be_bytes 2 value
  else if value <=? 4294967295 then head 26 :: be_bytes 4 value
  else head 27 :: be_bytes 8 value.

Definition len_u64 {A} (l : list A) : Z := Z.of_nat (length l).

Fixpoint encode_value (value : CanonicalValue) : bytes :=
  match value with
  | Unsigned number => encode_major 0 number
  | Bytes b => encode_major 2 (len_u64 b) ++ b
  | Text text => encode_major 3 (str_len text) ++ as_bytes text
  | CArray items => encode_major 4 (len_u64 items) ++ List.concat (List.map encode_value items)
  | CMap entries =>
      encode_major 5 (len_u64 entries) ++
      List.concat (List.map (λ '(key, value), encode_major 0 key ++ encode_value value) entries)
  | CBool false => [byte_of 244]
  | CBool true => [byte_of 245]
  end.

Definition encode_canonical_cbor (value : CanonicalValue) : bytes := encode_value value.

(** ** Canonical values of the protocol types *)

Definition opt_entry {A} (k : Z) (f : A → CanonicalValue) (o : option A)
  : option (Z * CanonicalValue) := (λ a, (k, f a)) <$> o.

Definition metadata_map_to_canonical_value (metadata : metadata_map) : CanonicalValue :=
  CArray (map (λ '(key, value), CArray [Text key; Text value]) (btree_iter metadata)).

Definition wrapped_key_canonical_value (r : WrappedObjectKeyRecord) : CanonicalValue :=
  insert_all
    [ Some (1, Text (wk_recipient_key_id r));
      Some (2, Text (wk_wrapping_suite r));
      Some (3, Text (wk_wrapped_key_b64 r));
      Some (4, Unsigned (wk_key_version r));
      opt_entry 5 Text (wk_encapsulated_key_b64 r) ].

Definition encryption_descriptor_canonical_value (d : EncryptionDescriptor) : CanonicalValue :=
  insert_all
    [ Some (1, Text (ed_encryption_profile_id d));
      Some (2, Text (ed_key_policy_id d));
      Some (3, Text (ed_content_encryption_suite d));
      Some (4, Text (ed_key_wrapping_suite d));
      Some (5, Text (visibility_as_str (ed_metadata_visibility d)));
      Some (6, CArray (map wrapped_key_canonical_value (ed_wrapped_object_keys d)));
      Some (7, metadata_map_to_canonical_value (ed_server_visible_metadata d));
      Some (8, metadata_map_to_canonical_value (ed_encrypted_client_metadata d)) ].

Definition chunk_ref_canonical_value (c : ChunkRef) : CanonicalValue :=
  insert_all
    [ Some (1, Text (cr_cid c));
      Some (2, Unsigned (cr_chunk_index c));
      Some (3, Unsigned (cr_offset c));
      Some (4, Unsigned (cr_logical_len c));
      Some (5, Unsigned (cr_stored_len c));
      Some (6, Text (cr_content_encoding c)) ].

Definition manifest_canonical_value (m : Manifest) : CanonicalValue :=
  insert_all
    [ Some (1, Unsigned (mf_version m));
      Some (2, Text (mf_tenant_id m));
      Some (3, Unsigned (mf_logical_size m));
      Some (4, Unsigned (mf_stored_size m));
      Some (5, Text (mf_chunker m));
      Some (6, CArray (map chunk_ref_canonical_value (mf_chunk_refs m)));
      Some (7, Text (mf_content_type m));
      Some (8, Unsigned (mf_created_at_ms m));
      Some (9, encryption_descriptor_canonical_value (mf_encryption_descriptor m)) ].

Definition claims_canonical_value (c : CapabilityClaims) : CanonicalValue :=
  insert_all
    [ Some (1, Text (iss c));
      Some (2, Text (sub c));
      Some (3, Text (aud c));
      Some (4, Unsigned (exp c));
      opt_entry 5 Unsigned (nbf c);
      opt_entry 6 Text (jti c);
      Some (7, CArray (map (λ scope, Text (scope_as_str scope)) (ops c)));
      Some (8, Text (cl_tenant_id c));
      opt_entry 9 Text (cl_namespace_prefix c);
      opt_entry 10 Text (cl_path_prefix c);
      opt_entry 11 Unsigned (cl_max_object_size c);
      Some (12, CArray (map Text (cl_storage_classes c)));
      opt_entry 13 Text (cl_key_policy_id c);
      opt_entry 14 (λ v, Text (visibility_as_str v)) (cl_metadata_visibility c) ].

Definition namespace_mutation_canonical_value (r : NamespaceMutationRecord) : CanonicalValue :=
  insert_all
    [ Some (1, Unsigned (nm_version r));
      Some (2, Text (nm_tenant_id r));
      Some (3, Text (nm_namespace r));
      Some (4, Text (nm_path r));
      Some (5, Text (mutation_kind_as_str (nm_kind r)));
      opt_entry 6 Text (nm_target_cid r);
      opt_entry 7 Unsigned (nm_if_revision r);
      opt_entry 8 Unsigned (nm_ttl_ms r);
      Some (9, metadata_map_to_canonical_value (nm_metadata r));
      Some (10, Unsigned (nm_issued_at_ms r)) ].

Definition event_canonical_value (e : EventRecord) : CanonicalValue :=
  insert_all
    [ Some (0, Unsigned (ev_version e));
      Some (1, Unsigned (ev_seq e));
      Some (2, Unsigned (ev_at_ms e));
      Some (3, Text (event_type_as_str (ev_event_type e)));
      Some (4, Text (ev_subject_kind e));
      opt_entry 5 Text (ev_namespace e);
      opt_entry 6 Text (ev_path e);
      opt_entry 7 Text (ev_cid e);
      opt_entry 8 Unsigned (ev_revision e);
      opt_entry 9 Text (ev_trace_id e);
      Some (10, metadata_map_to_canonical_value (ev_payload e)) ].

Definition manifest_canonical_cbor_bytes (m : Manifest) : bytes :=
  encode_canonical_cbor (manifest_canonical_value m).
Definition claims_canonical_cbor_bytes (c : CapabilityClaims) : bytes :=
  encode_canonical_cbor (claims_canonical_value c).
Definition namespace_mutation_canonical_cbor_bytes (r : NamespaceMutationRecord) : bytes :=
  encode_canonical_cbor (namespace_mutation_canonical_value r).
Definition event_canonical_cbor_bytes (e : EventRecord) : bytes :=
  encode_canonical_cbor (event_canonical_value e).

(** ** Content identifiers *)

(** [sha2::Sha256::digest] and [data_encoding::BASE32_NOPAD.encode]. *)
Class Hashing := {
  sha256 : bytes → bytes;
  base32_nopad : bytes → string;
}.
(** RFC 4648 Base32: the alphabet is A-Z and 2-7, and encoding loses nothing. *)
Definition base32_char (c : ascii) : bool := in_range 65 90 c || in_range 50 55 c.
Class HashingLaws `{H : Hashing} : Prop := {
  base32_alphabet : ∀ b, str_forallb base32_char (base32_nopad b) = true;
  base32_inj :: Inj (=) (=) base32_nopad;
}.
(** A SHA-256 collision: two inputs with one digest. *)
Definition sha256_collision `{Hashing} (a b : bytes) : Prop :=
  a ≠ b ∧ sha256 a = sha256 b.

Definition cid_from_bytes `{Hashing} (b : bytes) : string :=
  "sha256-" +:+ to_ascii_lowercase (base32_nopad (sha256 b)).

Definition manifest_cid `{Hashing} (m : Manifest) : string :=
  cid_from_bytes (manifest_canonical_cbor_bytes m).
Definition record_cid `{Hashing} (r : NamespaceMutationRecord) : string :=
  cid_from_bytes (namespace_mutation_canonical_cbor_bytes r).
Definition event_cid `{Hashing} (e : EventRecord) : string :=
  cid_from_bytes (event_canonical_cbor_bytes e).

(** ** Cursors *)

(** [ciborium::value::Value]; a float is its bit pattern. *)
Inductive CborValue :=
| VInteger (i : Z)
| VBytes (b : bytes)
| VFloat (bits : Z)
| VText (s : string)
| VBool (b : bool)
| VNull
| VTag (t : Z) (v : CborValue)
| VArray (l : list CborValue)
| VMap (l : list (CborValue * CborValue)).

(** [URL_SAFE_NO_PAD] of the [base64] crate, and [ciborium::from_reader] into a
    [Value]; the errors carry no information the code uses. *)
Class Base64Url := {
  b64url_encode : bytes → string;
  b64url_decode : string → option bytes;
}.
Definition b64url_char (c : ascii) : bool :=
  is_ascii_alphanumeric c || Ascii.eqb c "-"%char || Ascii.eqb c "_"%char.
Class Base64UrlLaws `{B : Base64Url} : Prop := {
  b64url_decode_encode : ∀ b, b64url_decode (b64url_encode b) = Some b;
  b64url_alphabet : ∀ b, str_forallb b64url_char (b64url_encode b) = true;
}.
Class CborReader := { cbor_from_reader : bytes → option CborValue }.

Record ListCursor := mkListCursor {
  lc_tenant_id : TenantId;
  lc_namespace : string;
  lc_prefix : option string;
  lc_snapshot_revision : Z;
  lc_last_path : string;
}.
Record EventCursor := mkEventCursor {
  ec_tenant_id : TenantId;
  ec_next_seq : Z;
}.
#[global] Instance ListCursor_eq_dec : EqDecision ListCursor.
Proof. solve_decision. Defined.
#[global] Instance EventCursor_eq_dec : EqDecision EventCursor.
Proof. solve_decision. Defined.

Definition list_cursor_canonical_value (c : ListCursor) : CanonicalValue :=
  insert_all
    [ Some (1, Text (lc_tenant_id c));
      Some (2, Text (lc_namespace c));
      opt_entry 3 Text (lc_prefix c);
      Some (4, Unsigned (lc_snapshot_revision c));
      Some (5, Text (lc_last_path c)) ].
Definition event_cursor_canonical_value (c : EventCursor) : CanonicalValue :=
  insert_all [ Some (1, Text (ec_tenant_id c)); Some (2, Unsigned (ec_next_seq c)) ].

Definition invalid_cursor (message : string) : ApiError :=
  mkApiError CatValidation "invalid_cursor" message.

Definition cbor_key_eq (value : CborValue) (key : Z) : bool :=
  match value with VInteger i => i =? key | _ => false end.
Definition cbor_find (entries : list (CborValue * CborValue)) (key : Z) : option CborValue :=
  snd <$> List.find (λ e, cbor_key_eq e.1 key) entries.

Definition required_cbor_text (entries : list (CborValue * CborValue)) (key : Z) (field : string)
  : result ApiError string :=
  match cbor_find entries key with
  | Some (VText text) =>
      if negb (str_is_empty text) then Ok text
      else Err (invalid_cursor ("cursor field " +:+ field +:+ " is missing or invalid"))
  | _ => Err (invalid_cursor ("cursor field " +:+ field +:+ " is missing or invalid"))
  end.
Definition optional_cbor_text (entries : list (CborValue * CborValue)) (key : Z)
  : result ApiError (option string) :=
  match cbor_find entries key with
  | Some (VText text) => Ok (Some text)
  | Some _ => Err (invalid_cursor "cursor text field is invalid")
  | None => Ok None
  end.
Definition required_cbor_u64 (entries : list (CborValue * CborValue)) (key : Z) (field : string)
  : result ApiError Z :=
  match cbor_find entries key with
  | Some (VInteger n) =>
      if (0 <=? n) && (n <=? u64_max) then Ok n
      else Err (invalid_cursor ("cursor field " +:+ field +:+ " must be unsigned"))
  | _ => Err (invalid_cursor ("cursor field " +:+ field +:+ " is missing or invalid"))
  end.

Definition cursor_map `{Base64Url, CborReader} (encoded : string)
  : result ApiError (list (CborValue * CborValue)) :=
  match b64url_decode encoded with
  | None => Err (invalid_cursor "cursor is not valid base64url data")
  | Some b =>
      match cbor_from_reader b with
      | None => Err (invalid_cursor "cursor is not valid CBOR")
      | Some (VMap entries) => Ok entries
      | Some _ => Err (invalid_cursor "cursor payload must be a CBOR map")
      end
  end.

Definition list_cursor_encode `{Base64Url} (c : ListCursor) : string :=
  b64url_encode (encode_canonical_cbor (list_cursor_canonical_value c)).
Definition list_cursor_decode `{Base64Url, CborReader} (encoded : string)
  : result ApiError ListCursor :=
  entries ← cursor_map encoded;
  tenant_id ← required_cbor_text entries 1 "tenant_id";
  namespace ← required_cbor_text entries 2 "namespace";
  prefix ← optional_cbor_text entries 3;
  snapshot_revision ← required_cbor_u64 entries 4 "snapshot_revision";
  last_path ← required_cbor_text entries 5 "last_path";
  Ok (mkListCursor tenant_id namespace prefix snapshot_revision last_path).

Definition event_cursor_encode `{Base64Url} (c : EventCursor) : string :=
  b64url_encode (encode_canonical_cbor (event_cursor_canonical_value c)).
Definition event_cursor_decode `{Base64Url, CborReader} (encoded : string)
  : result ApiError EventCursor :=
  entries ← cursor_map encoded;
  tenant_id ← required_cbor_text entries 1 "tenant_id";
  next_seq ← required_cbor_u64 entries 2 "next_seq";
  Ok (mkEventCursor tenant_id next_seq).
