(* ===== verification/CborFacts.v ===== *)
(** * Canonical CBOR: a reference decoder, injectivity, CIDs and cursors

    A strict decoder of the RFC 8949 subset that [encode_canonical_cbor] emits is
    the specification of the encoder: it inverts it, so the encoding is
    injective and prefix-free, the CIDs commit to the whole manifest, mutation
    record or event up to a SHA-256 collision, and the cursors round-trip. *)

From Stdlib Require Import ZArith Lia Ascii String Bool.
From stdpp Require Import base option list strings gmap numbers sorting.
From S2P Require Import Prelude RustStr Core Cbor.

(** ** Reference decoder *)

Fixpoint be_value (b : bytes) : Z :=
  match b with
  | [] => 0
  | c :: b' => byte_val c * 2 ^ (8 * Z.of_nat (length b')) + be_value b'
  end.

Definition take_bytes (n : nat) (b : bytes) : option (bytes * bytes) :=
  if (n <=? length b)%nat then Some (take n b, drop n b) else None.

(** Major type, argument and rest of the input. *)
Definition decode_head (b : bytes) : option (Z * Z * bytes) :=
  match b with
  | [] => None
  | c :: r =>
      let major := byte_val c / 32 in
      let ai := byte_val c mod 32 in
      let wide n := '(x, r') ← take_bytes n r; Some (major, be_value x, r') in
      if ai <? 24 then Some (major, ai, r)
      else if ai =? 24 then wide 1%nat
      else if ai =? 25 then wide 2%nat
      else if ai =? 26 then wide 4%nat
      else if ai =? 27 then wide 8%nat
      else None
  end.

Section items.
Context {A : Type} (item : bytes → option (A * bytes)).
Fixpoint decode_items (n : nat) (b : bytes) : option (list A * bytes) :=
  match n with
  | O => Some ([], b)
  | S n' =>
      '(a, r) ← item b;
      '(l, r') ← decode_items n' r;
      Some (a :: l, r')
  end.
End items.

Definition decode_key (b : bytes) : option (Z * bytes) :=
  match decode_head b with
  | Some (0, k, r) => Some (k, r)
  | _ => None
  end.

(** The fuel bounds the nesting depth. *)
Fixpoint decode_value (fuel : nat) (b : bytes) : option (CanonicalValue * bytes) :=
  match fuel with
  | O => None
  | S f =>
      '(major, n, r) ← decode_head b;
      if major =? 0 then Some (Unsigned n, r)
      else if major =? 2 then
        '(x, r') ← take_bytes (Z.to_nat n) r; Some (Bytes x, r')
      else if major =? 3 then
        '(x, r') ← take_bytes (Z.to_nat n) r; Some (Text (of_bytes x), r')
      else if major =? 4 then
        '(l, r') ← decode_items (decode_value f) (Z.to_nat n) r; Some (CArray l, r')
      else if major =? 5 then
        '(l, r') ← decode_items (λ b, '(k, r1) ← decode_key b;
                                      '(v, r2) ← decode_value f r1; Some ((k, v), r2))
                                (Z.to_nat n) r;
        Some (CMap l, r')
      else if (major =? 7) && (n =? 20) then Some (CBool false, r)
      else if (major =? 7) && (n =? 21) then Some (CBool true, r)
      else None
  end.

(** Values whose numbers and lengths fit in 64 bits, as every Rust value does. *)
Fixpoint cv_wf (v : CanonicalValue) : bool :=
  match v with
  | Unsigned n => (0 <=? n) && (n <=? u64_max)
  | Text s => str_len s <=? u64_max
  | Bytes b => len_u64 b <=? u64_max
  | CBool _ => true
  | CArray l => (len_u64 l <=? u64_max) && forallb cv_wf l
  | CMap l =>
      (len_u64 l <=? u64_max) &&
      forallb (λ '(k, x), (0 <=? k) && (k <=? u64_max) && cv_wf x) l
  end.

Fixpoint cv_depth (v : CanonicalValue) : nat :=
  match v with
  | CArray l => S (list_max (List.map cv_depth l))
  | CMap l => S (list_max (List.map (λ '(_, x), cv_depth x) l))
  | _ => 1
  end.

(** Induction on canonical values through the nested lists. *)
Section cv_ind.
Variable P : CanonicalValue → Prop.
Hypothesis HUnsigned : ∀ n, P (Unsigned n).
Hypothesis HText : ∀ s, P (Text s).
Hypothesis HBytes : ∀ b, P (Bytes b).
Hypothesis HBool : ∀ b, P (CBool b).
Hypothesis HArray : ∀ l, Forall P l → P (CArray l).
Hypothesis HMap : ∀ l, Forall (λ e, P e.2) l → P (CMap l).
Fixpoint cv_ind' (v : CanonicalValue) : P v :=
  match v with
  | Unsigned n => HUnsigned n
  | Text s => HText s
  | Bytes b => HBytes b
  | CBool b => HBool b
  | CArray l =>
      HArray l ((fix go l : Forall P l :=
                   match l with
                   | [] => Forall_nil_2 P
                   | x :: l' => Forall_cons_2 P x l' (cv_ind' x) (go l')
                   end) l)
  | CMap l =>
      HMap l ((fix go l : Forall (λ e, P e.2) l :=
                 match l with
                 | [] => Forall_nil_2 _
                 | x :: l' => Forall_cons_2 (λ e, P e.2) x l' (cv_ind' x.2) (go l')
                 end) l)
  end.
End cv_ind.

(** ** The head of an item *)

Lemma length_be_bytes k v : length (be_bytes k v) = k.
Proof. induction k; cbn; auto. Qed.

Lemma be_value_be_bytes k v :
  0 <= v → be_value (be_bytes k v) = v mod 2 ^ (8 * Z.of_nat k).
Proof.
  intros Hv. induction k as [|k IH]; [by rewrite Z.mod_1_r|].
  cbn [be_bytes be_value]. rewrite length_be_bytes, IH, byte_val_of.
  rewrite Z.shiftr_div_pow2 by lia.
  replace (8 * Z.of_nat (S k)) with (8 * Z.of_nat k + 8) by lia.
  rewrite Z.pow_add_r by lia. change (2 ^ 8) with 256.
  rewrite Z.rem_mul_r by lia. lia.
Qed.

Lemma take_bytes_app n x r : n = length x → take_bytes n (x ++ r) = Some (x, r).
Proof.
  intros ->. unfold take_bytes. rewrite length_app, (proj2 (Nat.leb_le _ _)) by lia.
  by rewrite take_app_length, drop_app_length.
Qed.

Lemma head_byte m x :
  0 <= m < 8 → 0 <= x < 32 →
  byte_val (byte_of (Z.lor (Z.shiftl m 5) x)) / 32 = m ∧
  byte_val (byte_of (Z.lor (Z.shiftl m 5) x)) mod 32 = x.
Proof.
  intros Hm Hx. assert (Z.lor (Z.shiftl m 5) x = m * 32 + x) as ->.
  { rewrite Z.shiftl_mul_pow2 by lia. change (2 ^ 5) with 32.
    rewrite <-Z.add_lor_land, (Z.land_comm (m * 32)).
    assert (Z.land x (m * 32) = 0) as ->; [|lia].
    change 32 with (2 ^ 5). rewrite <-Z.shiftl_mul_pow2 by lia.
    apply Z.bits_inj_0. intros i. rewrite Z.land_spec.
    destruct (Z.ltb_spec i 5) as [Hi|Hi].
    - rewrite (Z.shiftl_spec_low m 5 i) by lia. apply andb_false_r.
    - rewrite Z.bits_above_log2; [done|lia|]. 
      destruct (decide (x = 0)) as [->|]; [cbn; lia|].
      apply Z.log2_lt_pow2; [lia|]. assert (2 ^ 5 <= 2 ^ i) by (apply Z.pow_le_mono_r; lia).
      change (2 ^ 5) with 32 in *. lia. }
  rewrite byte_val_of_small by lia. split.
  - rewrite Z.div_add_l by lia. rewrite Z.div_small; lia.
  - rewrite Z.add_comm, Z.mod_add by lia. by apply Z.mod_small.
Qed.

Lemma decode_head_encode_major m v r :
  0 <= m < 8 → 0 <= v <= u64_max →
  decode_head (encode_major m v ++ r) = Some (m, v, r).
Proof.
  intros Hm Hv. unfold encode_major, u64_max in *.
  assert (∀ k x, 0 <= v < 2 ^ (8 * Z.of_nat k) → 24 <= x <= 27 →
    (if x =? 24 then 1%nat else if x =? 25 then 2%nat else if x =? 26 then 4%nat else 8%nat) = k →
    decode_head ((byte_of (Z.lor (Z.shiftl m 5) x) :: be_bytes k v) ++ r) = Some (m, v, r))
    as Hwide.
  { intros k x Hk Hx Hkx. cbn [decode_head app].
    destruct (head_byte m x) as [-> ->]; [lia..|].
    destruct (Z.ltb_spec x 24); [lia|].
    assert (('(y, r') ← take_bytes k (be_bytes k v ++ r); Some (m, be_value y, r')) =
            Some (m, v, r)) as Ht.
    { rewrite take_bytes_app by (by rewrite length_be_bytes). cbn.
      by rewrite be_value_be_bytes, Z.mod_small by lia. }
    destruct (Z.eqb_spec x 24); [subst; exact Ht|].
    destruct (Z.eqb_spec x 25); [subst; exact Ht|].
    destruct (Z.eqb_spec x 26); [subst; exact Ht|].
    destruct (Z.eqb_spec x 27); [subst; exact Ht|]. lia. }
  destruct (Z.leb_spec v 23).
  { cbn [decode_head app]. destruct (head_byte m v) as [-> ->]; [lia..|].
    by destruct (Z.ltb_spec v 24); [|lia]. }
  destruct (Z.leb_spec v 255).
  { specialize (Hwide 1%nat 24). cbn [be_bytes] in Hwide.
    rewrite Z.shiftr_0_r in Hwide. apply Hwide; [lia..|done]. }
  destruct (Z.leb_spec v 65535); [apply (Hwide 2%nat 25); [lia..|done]|].
  destruct (Z.leb_spec v 4294967295); [apply (Hwide 4%nat 26); [lia..|done]|].
  apply (Hwide 8%nat 27); [lia..|done].
Qed.

Lemma encode_major_length m v : (1 <= length (encode_major m v))%nat.
Proof. unfold encode_major. repeat case_match; cbn; lia. Qed.

(** ** The decoder inverts the encoder *)

Lemma decode_items_encode {A} (enc : A → bytes) (item : bytes → option (A * bytes)) l r :
  Forall (λ a, ∀ r, item (enc a ++ r) = Some (a, r)) l →
  decode_items item (length l) (List.concat (List.map enc l) ++ r) = Some (l, r).
Proof.
  intros H. revert r. induction H as [|a l Ha Hl IH]; intros r; [done|].
  cbn. rewrite <-app_assoc, Ha. cbn. by rewrite IH.
Qed.

Lemma list_max_cons n l : list_max (n :: l) = Nat.max n (list_max l).
Proof. done. Qed.

Lemma list_max_elem {A} (f : A → nat) x l :
  x ∈ l → (f x <= list_max (List.map f l))%nat.
Proof.
  intros Hx. induction Hx; cbn [List.map]; rewrite list_max_cons; lia.
Qed.

Lemma cv_depth_pos v : (1 <= cv_depth v)%nat.
Proof. destruct v; cbn; lia. Qed.

Lemma decode_encode_value v fuel r :
  cv_wf v = true → (cv_depth v <= fuel)%nat →
  decode_value fuel (encode_value v ++ r) = Some (v, r).
Proof.
  revert fuel r. induction v as [n|s|b|[]|l IH|l IH] using cv_ind';
    intros fuel r Hwf Hd; cbn in Hd; destruct fuel as [|f]; try lia;
    cbn [decode_value encode_value]; cbn [cv_wf] in Hwf; unfold u64_max in Hwf.
  - rewrite decode_head_encode_major by (unfold u64_max; lia). done.
  - rewrite <-app_assoc, decode_head_encode_major by (unfold u64_max, str_len in *; lia). cbn.
    rewrite take_bytes_app by (unfold str_len; rewrite length_as_bytes; lia). cbn.
    by rewrite of_as_bytes.
  - rewrite <-app_assoc, decode_head_encode_major by (unfold u64_max, len_u64 in *; lia). cbn.
    by rewrite take_bytes_app by (unfold len_u64; lia).
  - done.
  - done.
  - rewrite andb_true_iff in Hwf. destruct Hwf as [Hl Hwf].
    rewrite <-app_assoc, decode_head_encode_major by (unfold u64_max, len_u64 in *; lia). cbn.
    unfold len_u64. rewrite Nat2Z.id, decode_items_encode; [done|].
    rewrite Forall_forall in IH |- *. intros x Hx r'. apply IH; [done| |].
    + rewrite forallb_forall in Hwf. apply Hwf. by apply list_elem_of_In.
    + pose proof (list_max_elem cv_depth x l Hx). lia.
  - rewrite andb_true_iff in Hwf. destruct Hwf as [Hl Hwf].
    rewrite <-app_assoc, decode_head_encode_major by (unfold u64_max, len_u64 in *; lia). cbn.
    unfold len_u64. rewrite Nat2Z.id, decode_items_encode; [done|].
    rewrite Forall_forall in IH |- *. intros [k x] Hx r'.
    assert ((0 <=? k) && (k <=? 2 ^ 64 - 1) && cv_wf x = true) as Hkx.
    { rewrite forallb_forall in Hwf. apply (Hwf (k, x)). by apply list_elem_of_In. }
    rewrite andb_true_iff in Hkx. destruct Hkx as [Hk Hwx].
    unfold decode_key. rewrite <-app_assoc, decode_head_encode_major by (unfold u64_max; lia).
    cbn. rewrite (IH (k, x) Hx); [done|done|].
    pose proof (list_max_elem (λ '(_, x), cv_depth x) (k, x) l Hx). cbn in *. lia.
Qed.

Lemma concat_map_length {A} (f : A → bytes) (g : A → nat) l :
  Forall (λ a, (g a <= length (f a))%nat) l →
  (list_max (List.map g l) <= length (List.concat (List.map f l)))%nat.
Proof.
  induction 1; cbn [List.map List.concat]; [done|]. rewrite length_app, list_max_cons. lia.
Qed.

(** As many bytes as levels of nesting: the length of the input is enough fuel. *)
Lemma cv_depth_encode v : (cv_depth v <= length (encode_value v))%nat.
Proof.
  induction v as [n|s|b|[]|l IH|l IH] using cv_ind'; cbn -[encode_major];
    rewrite ?length_app.
  - apply encode_major_length.
  - pose proof (encode_major_length 3 (str_len s)). lia.
  - pose proof (encode_major_length 2 (len_u64 b)). lia.
  - lia.
  - lia.
  - pose proof (encode_major_length 4 (len_u64 l)). apply concat_map_length in IH. lia.
  - pose proof (encode_major_length 5 (len_u64 l)).
    assert (list_max (List.map (λ '(_, x), cv_depth x) l) <= length (List.concat
      (List.map (λ '(key, value), encode_major 0 key ++ encode_value value) l)))%nat; [|lia].
    apply concat_map_length. eapply Forall_impl; [exact IH|].
    intros [k x] Hx. rewrite length_app. cbn in *. lia.
Qed.

Definition decode_canonical (b : bytes) : option CanonicalValue :=
  match decode_value (length b) b with
  | Some (v, []) => Some v
  | _ => None
  end.

Lemma decode_canonical_encode v :
  cv_wf v = true → decode_canonical (encode_canonical_cbor v) = Some v.
Proof.
  intros Hwf. unfold decode_canonical, encode_canonical_cbor.
  rewrite <-(app_nil_r (encode_value v)) at 2.
  by rewrite decode_encode_value by (done || apply cv_depth_encode).
Qed.

Lemma encode_canonical_inj v1 v2 :
  cv_wf v1 = true → cv_wf v2 = true →
  encode_canonical_cbor v1 = encode_canonical_cbor v2 → v1 = v2.
Proof.
  intros H1 H2 He. apply decode_canonical_encode in H1, H2. congruence.
Qed.

(** ** Canonical values determine their source *)

#[global] Instance Text_inj : Inj (=) (=) Text.
Proof. by intros ?? [= ->]. Qed.
#[global] Instance Unsigned_inj : Inj (=) (=) Unsigned.
Proof. by intros ?? [= ->]. Qed.
#[global] Instance CArray_inj : Inj (=) (=) CArray.
Proof. by intros ?? [= ->]. Qed.

Definition cmap_lookup (k : Z) (v : CanonicalValue) : option CanonicalValue :=
  match v with
  | CMap es => snd <$> List.find (λ e, e.1 =? k) es
  | _ => None
  end.

#[global] Instance metadata_canonical_inj : Inj (=) (=) metadata_map_to_canonical_value.
Proof.
  intros m1 m2 H. apply (inj CArray) in H. apply (inj btree_iter).
  revert H. generalize (btree_iter m1) (btree_iter m2). clear m1 m2.
  induction l as [|[k v] l IH]; intros [|[k' v'] l']; cbn; try done.
  intros [= -> -> H]. f_equal. by apply IH.
Qed.

Lemma map_inj {A B} (f : A → B) `{!Inj (=) (=) f} l k :
  List.map f l = List.map f k → l = k.
Proof.
  revert k. induction l as [|a l IH]; intros [|b k]; cbn; try done.
  intros [= ->%(inj f) H]. f_equal. by apply IH.
Qed.

#[global] Instance wrapped_key_canonical_inj : Inj (=) (=) wrapped_key_canonical_value.
Proof.
  intros [a b c d e] [a' b' c' d' e'] H.
  unfold wrapped_key_canonical_value, insert_all, opt_entry in H.
  destruct e, e'; cbn in H; injection H; congruence.
Qed.

Lemma opt_entry_lookup_inj {A} (f : A → CanonicalValue) `{!Inj (=) (=) f} (o o' : option A) :
  f <$> o = f <$> o' → o = o'.
Proof. destruct o, o'; cbn; try done. by intros [= ->%(inj f)]. Qed.

(** From the equality of two canonical values to the equality of every field,
    given the lemma that says what each key holds. *)
Ltac canonical_inj lookups :=
  let r1 := fresh "r" in let r2 := fresh "r" in let H := fresh "H" in
  let H1 := fresh "H" in let H2 := fresh "H" in
  intros r1 r2 H; pose proof (lookups r1) as H1; pose proof (lookups r2) as H2;
  rewrite H in H1; cbv zeta in H1, H2; destruct_and!;
  repeat match goal with
         | A : cmap_lookup ?k ?v = _, B : cmap_lookup ?k ?v = _ |- _ => rewrite A in B; clear A
         end;
  repeat match goal with
         | A : Some _ = Some _ |- _ => apply (inj Some) in A
         | A : _ <$> _ = _ <$> _ |- _ => apply (opt_entry_lookup_inj _) in A
         | A : List.map _ _ = List.map _ _ |- _ => apply (map_inj _) in A
         | A : metadata_map_to_canonical_value _ = _ |- _ =>
             apply (inj metadata_map_to_canonical_value) in A
         | A : ?f _ = ?f _ |- _ => apply (inj f) in A
         end;
  destruct r1, r2; cbn in *; congruence.

Lemma encryption_descriptor_canonical_lookup d :
  let v := encryption_descriptor_canonical_value d in
  cmap_lookup 1 v = Some (Text (ed_encryption_profile_id d)) ∧
  cmap_lookup 2 v = Some (Text (ed_key_policy_id d)) ∧
  cmap_lookup 3 v = Some (Text (ed_content_encryption_suite d)) ∧
  cmap_lookup 4 v = Some (Text (ed_key_wrapping_suite d)) ∧
  cmap_lookup 5 v = Some (Text (visibility_as_str (ed_metadata_visibility d))) ∧
  cmap_lookup 6 v =
    Some (CArray (List.map wrapped_key_canonical_value (ed_wrapped_object_keys d))) ∧
  cmap_lookup 7 v = Some (metadata_map_to_canonical_value (ed_server_visible_metadata d)) ∧
  cmap_lookup 8 v = Some (metadata_map_to_canonical_value (ed_encrypted_client_metadata d)).
Proof. split_and!; reflexivity. Qed.

#[global] Instance encryption_descriptor_canonical_inj :
  Inj (=) (=) encryption_descriptor_canonical_value.
Proof. canonical_inj encryption_descriptor_canonical_lookup. Qed.

#[global] Instance chunk_ref_canonical_inj : Inj (=) (=) chunk_ref_canonical_value.
Proof.
  intros [] [] H. unfold chunk_ref_canonical_value, insert_all in H. cbn in H.
  injection H. congruence.
Qed.

Lemma manifest_canonical_lookup m :
  let v := manifest_canonical_value m in
  cmap_lookup 1 v = Some (Unsigned (mf_version m)) ∧
  cmap_lookup 2 v = Some (Text (mf_tenant_id m)) ∧
  cmap_lookup 3 v = Some (Unsigned (mf_logical_size m)) ∧
  cmap_lookup 4 v = Some (Unsigned (mf_stored_size m)) ∧
  cmap_lookup 5 v = Some (Text (mf_chunker m)) ∧
  cmap_lookup 6 v = Some (CArray (List.map chunk_ref_canonical_value (mf_chunk_refs m))) ∧
  cmap_lookup 7 v = Some (Text (mf_content_type m)) ∧
  cmap_lookup 8 v = Some (Unsigned (mf_created_at_ms m)) ∧
  cmap_lookup 9 v =
    Some (encryption_descriptor_canonical_value (mf_encryption_descriptor m)).
Proof. split_and!; reflexivity. Qed.

#[global] Instance manifest_canonical_inj : Inj (=) (=) manifest_canonical_value.
Proof. canonical_inj manifest_canonical_lookup. Qed.

Lemma mutation_canonical_lookup r :
  let v := namespace_mutation_canonical_value r in
  cmap_lookup 1 v = Some (Unsigned (nm_version r)) ∧
  cmap_lookup 2 v = Some (Text (nm_tenant_id r)) ∧
  cmap_lookup 3 v = Some (Text (nm_namespace r)) ∧
  cmap_lookup 4 v = Some (Text (nm_path r)) ∧
  cmap_lookup 5 v = Some (Text (mutation_kind_as_str (nm_kind r))) ∧
  cmap_lookup 6 v = Text <$> nm_target_cid r ∧
  cmap_lookup 7 v = Unsigned <$> nm_if_revision r ∧
  cmap_lookup 8 v = Unsigned <$> nm_ttl_ms r ∧
  cmap_lookup 9 v = Some (metadata_map_to_canonical_value (nm_metadata r)) ∧
  cmap_lookup 10 v = Some (Unsigned (nm_issued_at_ms r)).
Proof.
  destruct r as [? ? ? ? ? o1 o2 o3 ? ?].
  unfold namespace_mutation_canonical_value, insert_all, opt_entry.
  destruct o1, o2, o3; split_and!; reflexivity.
Qed.

#[global] Instance mutation_canonical_inj : Inj (=) (=) namespace_mutation_canonical_value.
Proof. canonical_inj mutation_canonical_lookup. Qed.

Lemma event_canonical_lookup e :
  let v := event_canonical_value e in
  cmap_lookup 0 v = Some (Unsigned (ev_version e)) ∧
  cmap_lookup 1 v = Some (Unsigned (ev_seq e)) ∧
  cmap_lookup 2 v = Some (Unsigned (ev_at_ms e)) ∧
  cmap_lookup 3 v = Some (Text (event_type_as_str (ev_event_type e))) ∧
  cmap_lookup 4 v = Some (Text (ev_subject_kind e)) ∧
  cmap_lookup 5 v = Text <$> ev_namespace e ∧
  cmap_lookup 6 v = Text <$> ev_path e ∧
  cmap_lookup 7 v = Text <$> ev_cid e ∧
  cmap_lookup 8 v = Unsigned <$> ev_revision e ∧
  cmap_lookup 9 v = Text <$> ev_trace_id e ∧
  cmap_lookup 10 v = Some (metadata_map_to_canonical_value (ev_payload e)).
Proof.
  destruct e as [? ? ? ? ? o1 o2 o3 o4 o5 ?].
  unfold event_canonical_value, insert_all, opt_entry.
  destruct o1, o2, o3, o4, o5; split_and!; reflexivity.
Qed.

#[global] Instance event_canonical_inj : Inj (=) (=) event_canonical_value.
Proof. canonical_inj event_canonical_lookup. Qed.

(** ** CIDs commit to their content *)

Section cid.
Context {HS : Hashing} {HL : HashingLaws}.

Lemma base32_no_lower b :
  str_forallb (λ c, negb (in_range 97 122 c)) (base32_nopad b) = true.
Proof.
  eapply str_forallb_impl; [|apply base32_alphabet]. intros c.
  unfold base32_char, in_range. lia.
Qed.

Lemma cid_from_bytes_digest a b : cid_from_bytes a = cid_from_bytes b → sha256 a = sha256 b.
Proof.
  unfold cid_from_bytes. intros H%(inj _).
  apply to_ascii_lowercase_inj in H; [|apply base32_no_lower..]. by apply (inj _) in H.
Qed.

Lemma cid_from_bytes_commits a b :
  cid_from_bytes a = cid_from_bytes b → a = b ∨ sha256_collision a b.
Proof.
  intros H%cid_from_bytes_digest. destruct (decide (a = b)); [by left|by right].
Qed.

Lemma cid_of_canonical {T} (cv : T → CanonicalValue) `{!Inj (=) (=) cv} x y :
  cv_wf (cv x) = true → cv_wf (cv y) = true →
  cid_from_bytes (encode_canonical_cbor (cv x)) = cid_from_bytes (encode_canonical_cbor (cv y)) →
  x = y ∨ sha256_collision (encode_canonical_cbor (cv x)) (encode_canonical_cbor (cv y)).
Proof.
  intros Hx Hy [H|H]%cid_from_bytes_commits; [|by right].
  left. by apply encode_canonical_inj in H as ?%(inj cv).
Qed.

(** The characters of a CID: no slash, no space, no percent sign. *)
Lemma cid_no_slash b : str_contains_char "/"%char (cid_from_bytes b) = false.
Proof.
  unfold cid_from_bytes. rewrite str_contains_char_app. cbn.
  apply (str_contains_char_forallb (λ c, negb (Ascii.eqb c "/"%char))); [done|].
  unfold to_ascii_lowercase. pose proof (base32_alphabet (sha256 b)) as Ha. revert Ha.
  generalize (base32_nopad (sha256 b)). induction s as [|c s IH]; [done|].
  cbn. rewrite !andb_true_iff. intros [Hc Hs]. split; [|by apply IH].
  apply negb_true_iff. destruct (Ascii.eqb_spec (lower_byte c) "/"%char) as [E|]; [|done].
  apply (f_equal byte_val) in E. change (byte_val "/"%char) with 47 in E.
  unfold base32_char, in_range, lower_byte in *. pose proof (byte_val_range c).
  case_match; rewrite ?byte_val_of_small in E; lia.
Qed.
End cid.

(** ** Cursors *)

(** What [ciborium::from_reader] yields for the value a canonical encoding
    denotes. *)
Fixpoint cbor_value_of (v : CanonicalValue) : CborValue :=
  match v with
  | Unsigned n => VInteger n
  | Text s => VText s
  | Bytes b => VBytes b
  | CBool b => VBool b
  | CArray l => VArray (List.map cbor_value_of l)
  | CMap l => VMap (List.map (λ '(k, x), (VInteger k, cbor_value_of x)) l)
  end.

(** [ciborium] reads any well-formed CBOR item within its nesting limit (256):
    on the encoding of a canonical value it returns that value. *)
Class CborReaderLaws `{R : CborReader} : Prop := {
  cbor_from_reader_canonical : ∀ v,
    cv_wf v = true → (cv_depth v <= 128)%nat →
    cbor_from_reader (encode_canonical_cbor v) = Some (cbor_value_of v);
}.

Section cursors.
Context {B64 : Base64Url} {B64L : Base64UrlLaws} {R : CborReader} {RL : CborReaderLaws}.

Lemma cursor_map_encode es :
  cv_wf (CMap es) = true → (cv_depth (CMap es) <= 128)%nat →
  cursor_map (b64url_encode (encode_canonical_cbor (CMap es))) =
  Ok (List.map (λ '(k, x), (VInteger k, cbor_value_of x)) es).
Proof.
  intros Hwf Hd. unfold cursor_map.
  by rewrite b64url_decode_encode, cbor_from_reader_canonical.
Qed.

Definition list_cursor_wf (c : ListCursor) : bool := cv_wf (list_cursor_canonical_value c).
Definition event_cursor_wf (c : EventCursor) : bool := cv_wf (event_cursor_canonical_value c).

Lemma list_cursor_decode_encode c :
  list_cursor_wf c = true →
  list_cursor_decode (list_cursor_encode c) =
    (if str_is_empty (lc_tenant_id c)
     then Err (invalid_cursor "cursor field tenant_id is missing or invalid")
     else if str_is_empty (lc_namespace c)
     then Err (invalid_cursor "cursor field namespace is missing or invalid")
     else if str_is_empty (lc_last_path c)
     then Err (invalid_cursor "cursor field last_path is missing or invalid")
     else Ok c).
Proof.
  unfold list_cursor_wf. destruct c as [t n p r l]. intros Hwf.
  unfold list_cursor_decode, list_cursor_encode.
  unfold list_cursor_canonical_value, insert_all. rewrite cursor_map_encode.
  - assert (0 <= r <= u64_max) as Hr.
    { unfold list_cursor_canonical_value, insert_all, opt_entry in Hwf.
      destruct p; cbn -[u64_max] in Hwf; lia. }
    destruct p as [p|]; cbn -[u64_max];
      destruct t; cbn -[u64_max]; try reflexivity;
      destruct n; cbn -[u64_max]; try reflexivity;
      rewrite (proj2 (Z.leb_le 0 r)), (proj2 (Z.leb_le r u64_max)) by lia;
      destruct l; reflexivity.
  - exact Hwf.
  - unfold opt_entry. destruct p; cbn; lia.
Qed.

Lemma event_cursor_decode_encode c :
  event_cursor_wf c = true →
  event_cursor_decode (event_cursor_encode c) =
    (if str_is_empty (ec_tenant_id c)
     then Err (invalid_cursor "cursor field tenant_id is missing or invalid")
     else Ok c).
Proof.
  unfold event_cursor_wf. destruct c as [t n]. intros Hwf.
  unfold event_cursor_decode, event_cursor_encode.
  unfold event_cursor_canonical_value, insert_all. rewrite cursor_map_encode.
  - assert (0 <= n <= u64_max) as Hr.
    { unfold event_cursor_canonical_value, insert_all in Hwf. cbn -[u64_max] in Hwf. lia. }
    cbn -[u64_max]. destruct t; cbn -[u64_max]; [reflexivity|].
    by rewrite (proj2 (Z.leb_le 0 n)), (proj2 (Z.leb_le n u64_max)) by lia.
  - exact Hwf.
  - cbn. lia.
Qed.
End cursors.
