(* ===== verification/Wire.v ===== *)
(** * hsp-wire: the frame codec

    Models [crates/hsp-wire/src/lib.rs]: frame types, the five-byte header, size
    limits, payload encoding and the strict decoder of SETTINGS.  Frames travel
    over an [AsyncWrite] and an [AsyncRead]; these are records of operations with
    a ghost view, the bytes accepted so far and the bytes still to come.  The
    serde derivations of the payload structs, written by ciborium, are
    parameters. *)

From Stdlib Require Import ZArith Lia Ascii String Bool.
From stdpp Require Import base option list strings gmap numbers.
From S2P Require Import Prelude RustStr Core Cbor CborFacts.

(** ** Frame types *)

Inductive FrameType :=
| FtSettings | FtError | FtNotice | FtReqHeader | FtResHeader | FtData | FtEnd | FtEvent
| FtAck | FtAuth | FtGoAway.
#[global] Instance FrameType_eq_dec : EqDecision FrameType.
Proof. solve_decision. Defined.

(** The [repr(u8)] discriminants. *)
Definition frame_type_byte (ft : FrameType) : Z :=
  match ft with
  | FtSettings => 1
  | FtError => 2
  | FtNotice => 3
  | FtReqHeader => 16
  | FtResHeader => 17
  | FtData => 18
  | FtEnd => 19
  | FtEvent => 20
  | FtAck => 21
  | FtAuth => 22
  | FtGoAway => 23
  end.
Definition frame_type_debug (ft : FrameType) : string :=
  match ft with
  | FtSettings => "Settings"
  | FtError => "Error"
  | FtNotice => "Notice"
  | FtReqHeader => "ReqHeader"
  | FtResHeader => "ResHeader"
  | FtData => "Data"
  | FtEnd => "End"
  | FtEvent => "Event"
  | FtAck => "Ack"
  | FtAuth => "Auth"
  | FtGoAway => "GoAway"
  end.

Inductive WireCodecError :=
| Io (error : string)
| InvalidFrameType (value : Z)
| InvalidFrame (message : string)
| OversizedFrame (frame_type : FrameType) (length : Z).

(** [{:02x}] of a byte. *)
Definition hex_digit (n : Z) : ascii := byte_of (if n <? 10 then 48 + n else 87 + n).
Definition hex2 (n : Z) : string := String (hex_digit (n / 16)) (String (hex_digit (n mod 16)) "").
Definition wire_error_to_string (e : WireCodecError) : string :=
  match e with
  | Io error => error
  | InvalidFrameType value => "invalid frame type 0x" +:+ hex2 value
  | InvalidFrame message => message
  | OversizedFrame ft len =>
      "oversized " +:+ frame_type_debug ft +:+ " frame (" +:+ dec len +:+ " bytes)"
  end.

Definition frame_type_try_from (value : Z) : result WireCodecError FrameType :=
  match value with
  | 1 => Ok FtSettings
  | 2 => Ok FtError
  | 3 => Ok FtNotice
  | 16 => Ok FtReqHeader
  | 17 => Ok FtResHeader
  | 18 => Ok FtData
  | 19 => Ok FtEnd
  | 20 => Ok FtEvent
  | 21 => Ok FtAck
  | 22 => Ok FtAuth
  | 23 => Ok FtGoAway
  | _ => Err (InvalidFrameType value)
  end.

(** ** Frames *)

(** The headers carry [serde_json::Value]s, of type [V]. *)
Inductive PayloadMode := PmNone | PmJson | PmRaw | PmChunkStream.
Record ReqHeader (V : Type) := mkReqHeader {
  rh_version : Z;
  rh_operation : OperationName;
  rh_request_id : option Z;
  rh_payload_mode : option PayloadMode;
  rh_payload_length : option Z;
  rh_params : gmap string V;
  rh_extensions : gmap string V;
}.
Record ResHeader (V : Type) := mkResHeader {
  sh_version : Z;
  sh_status_code : Z;
  sh_request_id : option Z;
  sh_payload_mode : option PayloadMode;
  sh_payload_length : option Z;
  sh_meta : gmap string V;
  sh_extensions : gmap string V;
}.
Arguments mkReqHeader {V}.
Arguments mkResHeader {V}.

Inductive Frame (V : Type) :=
| FrSettings (settings : SettingsFrame)
| FrError (error : WireErrorFrame)
| FrNotice (notice : NoticeFrame)
| FrReqHeader (header : ReqHeader V)
| FrResHeader (header : ResHeader V)
| FrData (b : bytes)
| FrEnd
| FrEvent (event : EventRecord)
| FrAuth (auth : AuthFrame)
| FrGoAway (go_away : GoAwayFrame).
Arguments FrSettings {V}.
Arguments FrError {V}.
Arguments FrNotice {V}.
Arguments FrReqHeader {V}.
Arguments FrResHeader {V}.
Arguments FrData {V}.
Arguments FrEnd {V}.
Arguments FrEvent {V}.
Arguments FrAuth {V}.
Arguments FrGoAway {V}.

Definition frame_type {V} (f : Frame V) : FrameType :=
  match f with
  | FrSettings _ => FtSettings
  | FrError _ => FtError
  | FrNotice _ => FtNotice
  | FrReqHeader _ => FtReqHeader
  | FrResHeader _ => FtResHeader
  | FrData _ => FtData
  | FrEnd => FtEnd
  | FrEvent _ => FtEvent
  | FrAuth _ => FtAuth
  | FrGoAway _ => FtGoAway
  end.

Definition FRAME_HEADER_LEN : nat := 5.
Definition MAX_CONTROL_FRAME_LEN : Z := 8 * 1024 * 1024.
Definition MAX_DATA_FRAME_LEN : Z := 8 * 1024 * 1024.

Definition enforce_frame_len (ft : FrameType) (len : Z) : result WireCodecError unit :=
  let max_len := match ft with FtData => MAX_DATA_FRAME_LEN | _ => MAX_CONTROL_FRAME_LEN end in
  if max_len <? len then Err (OversizedFrame ft len) else Ok tt.

(** ** Parameters: ciborium and the streams *)

(** [ciborium::into_writer] and [ciborium::from_reader] at a derived type. *)
Class Serde (T : Type) := {
  serde_write : T → result string bytes;
  serde_read : bytes → result string T;
}.
Class SerdeLaws (T : Type) `{Serde T} : Prop :=
  serde_read_write : ∀ (v : T) b, serde_write v = Ok b → serde_read b = Ok v.

(** What serde's derivation for a struct of named fields writes: a map from the
    field names, in declaration order, to the values. *)
Definition settings_value (s : SettingsFrame) : CborValue :=
  let texts l := VArray (map VText l) in
  VMap [ (VText "max_chunk_size", VInteger (set_max_chunk_size s));
         (VText "max_manifest_size", VInteger (set_max_manifest_size s));
         (VText "max_object_size", VInteger (set_max_object_size s));
         (VText "max_parallel_streams", VInteger (set_max_parallel_streams s));
         (VText "supported_chunkers", texts (set_supported_chunkers s));
         (VText "supported_content_encodings", texts (set_supported_content_encodings s));
         (VText "supported_token_profiles", texts (set_supported_token_profiles s));
         (VText "supported_extensions", texts (set_supported_extensions s));
         (VText "server_instance_id", VText (set_server_instance_id s));
         (VText "event_replay_window_sec", VInteger (set_event_replay_window_sec s));
         (VText "limits_revision", VInteger (set_limits_revision s)) ].

Class WireDeps (V : Type) := {
  wd_error :: Serde WireErrorFrame;
  wd_notice :: Serde NoticeFrame;
  wd_req :: Serde (ReqHeader V);
  wd_res :: Serde (ResHeader V);
  wd_event :: Serde EventRecord;
  wd_auth :: Serde AuthFrame;
  wd_go_away :: Serde GoAwayFrame;
  settings_write : SettingsFrame → result string bytes;
  value_read : bytes → result string CborValue;
}.
Class WireDepsLaws V `{WireDeps V} : Prop := {
  wl_error :: SerdeLaws WireErrorFrame;
  wl_notice :: SerdeLaws NoticeFrame;
  wl_req :: SerdeLaws (ReqHeader V);
  wl_res :: SerdeLaws (ResHeader V);
  wl_event :: SerdeLaws EventRecord;
  wl_auth :: SerdeLaws AuthFrame;
  wl_go_away :: SerdeLaws GoAwayFrame;
  settings_read_write : ∀ s b, settings_write s = Ok b → value_read b = Ok (settings_value s);
}.

(** A writer accepts bytes; a failed write may have accepted some of them. *)
Record Writer := mkWriter {
  wstate : Type;
  write_all : bytes → ST wstate string unit;
  flush : ST wstate string unit;
}.
Class WriterLaws (W : Writer) := {
  written : wstate W → bytes;
  write_all_ok : ∀ b s s', write_all W b s = (Ok tt, s') → written s' = written s ++ b;
  flush_ok : ∀ s r s', flush W s = (r, s') → written s' = written s;
}.
(** A reader delivers the bytes to come in order; [read_exact] that fails says why. *)
Record Reader := mkReader {
  rstate : Type;
  read_exact : nat → ST rstate string bytes;
}.
Class ReaderLaws (R : Reader) := {
  coming : rstate R → bytes;
  read_exact_ok : ∀ n s b s', read_exact R n s = (Ok b, s') →
    length b = n ∧ coming s = b ++ coming s';
}.

Definition io {S A} (m : ST S string A) : ST S WireCodecError A :=
  λ s, let '(r, s') := m s in (map_err Io r, s').

(** ** Payloads *)

Section codec.
Context {V : Type} `{WireDeps V}.

Definition encode_cbor {T} `{Serde T} (value : T) : result WireCodecError bytes :=
  map_err InvalidFrame (serde_write value).
Definition decode_cbor {T} `{Serde T} (payload : bytes) : result WireCodecError T :=
  map_err InvalidFrame (serde_read payload).

Definition encode_frame_payload (f : Frame V) : result WireCodecError bytes :=
  match f with
  | FrSettings settings => map_err InvalidFrame (settings_write settings)
  | FrError error => encode_cbor error
  | FrNotice notice => encode_cbor notice
  | FrReqHeader header => encode_cbor header
  | FrResHeader header => encode_cbor header
  | FrData b => Ok b
  | FrEnd => Ok []
  | FrEvent event => encode_cbor event
  | FrAuth auth => encode_cbor auth
  | FrGoAway go_away => encode_cbor go_away
  end.

Definition required_u64 (entries : gmap string CborValue) (key : string)
  : result WireCodecError Z :=
  match entries !! key with
  | Some (VInteger value) =>
      if (0 <=? value) && (value <=? u64_max) then Ok value
      else Err (InvalidFrame ("SETTINGS " +:+ key +:+ " must be unsigned"))
  | _ => Err (InvalidFrame ("SETTINGS " +:+ key +:+ " is missing or not an integer"))
  end.
Definition required_text (entries : gmap string CborValue) (key : string)
  : result WireCodecError string :=
  match entries !! key with
  | Some (VText value) =>
      if negb (str_is_empty value) then Ok value
      else Err (InvalidFrame ("SETTINGS " +:+ key +:+ " is missing or not a text string"))
  | _ => Err (InvalidFrame ("SETTINGS " +:+ key +:+ " is missing or not a text string"))
  end.
Fixpoint collect_texts (key : string) (values : list CborValue)
  : result WireCodecError (list string) :=
  match values with
  | [] => Ok []
  | VText text :: rest => texts ← collect_texts key rest; Ok (text :: texts)
  | _ :: _ => Err (InvalidFrame ("SETTINGS " +:+ key +:+ " must contain only text values"))
  end.
Definition required_text_array (entries : gmap string CborValue) (key : string)
  : result WireCodecError (list string) :=
  match entries !! key with
  | Some (VArray values) => collect_texts key values
  | _ => Err (InvalidFrame ("SETTINGS " +:+ key +:+ " is missing or not an array"))
  end.

(** The loop over the pairs of the map, with the keys seen so far. *)
Fixpoint settings_entries (pairs : list (CborValue * CborValue)) (seen : gset string)
  (entries : gmap string CborValue) : result WireCodecError (gmap string CborValue) :=
  match pairs with
  | [] => Ok entries
  | (VText key, value) :: rest =>
      if bool_decide (key ∈ seen)
      then Err (InvalidFrame ("duplicate SETTINGS key: " +:+ key))
      else settings_entries rest ({[key]} ∪ seen) (<[key := value]> entries)
  | _ :: _ => Err (InvalidFrame "SETTINGS keys must be text")
  end.

(** [as u16]. *)
Definition as_u16 (z : Z) : Z := z mod 2 ^ 16.

Definition settings_of_entries (entries : gmap string CborValue)
  : result WireCodecError SettingsFrame :=
  max_chunk_size ← required_u64 entries "max_chunk_size";
  max_manifest_size ← required_u64 entries "max_manifest_size";
  max_object_size ← required_u64 entries "max_object_size";
  max_parallel_streams ← required_u64 entries "max_parallel_streams";
  supported_chunkers ← required_text_array entries "supported_chunkers";
  supported_content_encodings ← required_text_array entries "supported_content_encodings";
  supported_token_profiles ← required_text_array entries "supported_token_profiles";
  supported_extensions ← required_text_array entries "supported_extensions";
  server_instance_id ← required_text entries "server_instance_id";
  event_replay_window_sec ← required_u64 entries "event_replay_window_sec";
  limits_revision ← required_u64 entries "limits_revision";
  Ok {| set_max_chunk_size := max_chunk_size; set_max_manifest_size := max_manifest_size;
        set_max_object_size := max_object_size;
        set_max_parallel_streams := as_u16 max_parallel_streams;
        set_supported_chunkers := supported_chunkers;
        set_supported_content_encodings := supported_content_encodings;
        set_supported_token_profiles := supported_token_profiles;
        set_supported_extensions := supported_extensions;
        set_server_instance_id := server_instance_id;
        set_event_replay_window_sec := event_replay_window_sec;
        set_limits_revision := limits_revision |}.

Definition decode_settings_frame (payload : bytes) : result WireCodecError SettingsFrame :=
  value ← map_err InvalidFrame (value_read payload);
  pairs ← match value with
          | VMap pairs => Ok pairs
          | _ => Err (InvalidFrame "SETTINGS payload must be a CBOR map")
          end;
  entries ← settings_entries pairs ∅ ∅;
  settings_of_entries entries.

Definition decode_frame_payload (ft : FrameType) (payload : bytes)
  : result WireCodecError (Frame V) :=
  match ft with
  | FtSettings => FrSettings <$> decode_settings_frame payload
  | FtError => FrError <$> decode_cbor payload
  | FtNotice => FrNotice <$> decode_cbor payload
  | FtReqHeader => FrReqHeader <$> decode_cbor payload
  | FtResHeader => FrResHeader <$> decode_cbor payload
  | FtData => Ok (FrData payload)
  | FtEnd =>
      match payload with
      | [] => Ok FrEnd
      | _ => Err (InvalidFrame "END frame must not carry payload")
      end
  | FtEvent => FrEvent <$> decode_cbor payload
  | FtAuth => FrAuth <$> decode_cbor payload
  | FtGoAway => FrGoAway <$> decode_cbor payload
  | FtAck => Err (InvalidFrame "Ack is reserved in beta runtime")
  end.

(** ** Frames on a stream *)

Definition write_frame (W : Writer) (f : Frame V) : ST (wstate W) WireCodecError unit :=
  let ft := frame_type f in
  payload ← lift_result (encode_frame_payload f);
  _ ← lift_result (enforce_frame_len ft (len_u64 payload));
  _ ← io (write_all W (byte_of (frame_type_byte ft)
                         :: be_bytes 4 (len_u64 payload mod 2 ^ 32)));
  _ ← (if bool_decide (payload = []) then mret tt else io (write_all W payload));
  io (flush W).

Definition read_frame (R : Reader) : ST (rstate R) WireCodecError (Frame V) :=
  header ← io (read_exact R FRAME_HEADER_LEN);
  ft ← lift_result (frame_type_try_from (default 0 (byte_val <$> header !! 0%nat)));
  let len := be_value (drop 1 header) in
  _ ← lift_result (enforce_frame_len ft len);
  payload ← (if 0 <? len then io (read_exact R (Z.to_nat len)) else mret []);
  lift_result (decode_frame_payload ft payload).
End codec.
