(* ===== verification/Auth.v ===== *)
(** * hsp-auth: the policy engine, the replay cache and token verification

    Models [crates/hsp-auth/src/lib.rs].  [authorize] takes the clock reading
    and the content of the replay cache (the map behind its mutex) and returns
    the decision with the new content.  COSE parsing, CBOR deserialisation of
    the claims, Base64 and Ed25519 are parameters. *)

From Stdlib Require Import ZArith Lia Ascii String Bool.
From stdpp Require Import base option list strings gmap numbers.
From S2P Require Import Prelude RustStr Path Core Cbor.

Record AuthContext := mkAuthContext {
  claims : CapabilityClaims;
  channel_binding : option ChannelBindingProof;
}.

Inductive ReplayStatus := Fresh | IdempotentRetry.
#[global] Instance ReplayStatus_eq_dec : EqDecision ReplayStatus.
Proof. solve_decision. Defined.

Record AuthorizationDecision := mkAuthorizationDecision { replay_status : ReplayStatus }.

Record AuthRequestMeta := mkAuthRequestMeta {
  am_operation : OperationName;
  am_tenant_id : TenantId;
  am_subject : string;
  am_namespace : option string;
  am_path : option string;
  am_content_size : option Z;
  am_storage_class : option string;
  am_key_policy_id : option KeyPolicyId;
  am_encryption_profile_id : option EncryptionProfileId;
  am_metadata_visibility : option VisibilityMode;
  am_idempotency_key : option string;
}.

Record IssuerRecord := mkIssuerRecord {
  issuer : string;
  issuer_key_id : string;
  algorithm : string;
  public_key_b64 : string;
  audiences : list string;
}.
Record IssuerRegistry := mkIssuerRegistry { issuers : list IssuerRecord }.

Inductive DenialReason :=
| TenantMismatch | OperationNotAllowed | MissingChannelBinding | MissingJti
| MissingKeyPolicyId | MissingEncryptionProfileId | KeyPolicyMismatch
| MetadataVisibilityMismatch | NamespaceScopeMismatch | PathScopeMismatch
| ObjectTooLarge | StorageClassMismatch | ExpiredToken | NotYetValid
| ReplayDetected | InvalidSignedRecord.
#[global] Instance DenialReason_eq_dec : EqDecision DenialReason.
Proof. solve_decision. Defined.

(** [Display for DenialReason]. *)
Definition denial_to_string (r : DenialReason) : string :=
  match r with
  | TenantMismatch => "tenant mismatch"
  | OperationNotAllowed => "operation not allowed"
  | MissingChannelBinding => "missing channel binding"
  | MissingJti => "missing jti"
  | MissingKeyPolicyId => "missing key policy id"
  | MissingEncryptionProfileId => "missing encryption profile id"
  | KeyPolicyMismatch => "key policy mismatch"
  | MetadataVisibilityMismatch => "metadata visibility mismatch"
  | NamespaceScopeMismatch => "namespace scope mismatch"
  | PathScopeMismatch => "path scope mismatch"
  | ObjectTooLarge => "object too large"
  | StorageClassMismatch => "storage class mismatch"
  | ExpiredToken => "expired token"
  | NotYetValid => "token not yet valid"
  | ReplayDetected => "replay detected"
  | InvalidSignedRecord => "invalid signed record"
  end.

Definition denial_to_api_error (reason : DenialReason) : ApiError :=
  let '(category, code) :=
    match reason with
    | ReplayDetected => (CatReplay, "replay_detected")
    | MissingChannelBinding => (CatAuth, "missing_channel_binding")
    | MissingJti => (CatAuth, "missing_jti")
    | TenantMismatch => (CatAuth, "tenant_mismatch")
    | OperationNotAllowed => (CatAuth, "operation_not_allowed")
    | MissingKeyPolicyId => (CatPolicy, "missing_key_policy_id")
    | MissingEncryptionProfileId => (CatPolicy, "missing_encryption_profile_id")
    | KeyPolicyMismatch => (CatPolicy, "key_policy_mismatch")
    | MetadataVisibilityMismatch => (CatPolicy, "metadata_visibility_mismatch")
    | NamespaceScopeMismatch => (CatPolicy, "namespace_scope_mismatch")
    | PathScopeMismatch => (CatPolicy, "path_scope_mismatch")
    | ObjectTooLarge => (CatValidation, "object_too_large")
    | StorageClassMismatch => (CatPolicy, "storage_class_mismatch")
    | ExpiredToken => (CatAuth, "token_expired")
    | NotYetValid => (CatAuth, "token_not_yet_valid")
    | InvalidSignedRecord => (CatAuth, "invalid_signed_record")
    end in
  mkApiError category code (denial_to_string reason).

Definition public_profile_requires_channel_binding : bool := true.
Definition mutation_requires_jti (operation : OperationName) : bool := is_mutation operation.
Definition granular_admin_scopes : list CapabilityScope :=
  [AdminMetricsRead; AdminAuditRead; AdminRepair; AdminKeyRotate; AdminPolicyWrite].

Definition scope_matches_operation (scope : CapabilityScope) (operation : OperationName) : bool :=
  match operation with
  | OpInfo | OpHead | OpGet | OpResolve => bool_decide (scope = ScopeRead)
  | OpBind => match scope with ScopeBind | ScopeWrite => true | _ => false end
  | OpUnbind => match scope with ScopeUnbind | ScopeBind | ScopeWrite => true | _ => false end
  | OpList => match scope with ScopeList | ScopeRead => true | _ => false end
  | OpSubscribe => match scope with ScopeSubscribe | ScopeRead => true | _ => false end
  | OpPutInit | OpPutChunk | OpPutCommit => bool_decide (scope = ScopeWrite)
  end.

Definition operation_requires_object_crypto (operation : OperationName) : bool :=
  match operation with OpPutInit | OpPutChunk | OpPutCommit => true | _ => false end.

Definition validate_time_window (now : Z) (c : CapabilityClaims) : result DenialReason unit :=
  if exp c <? now then Err ExpiredToken
  else match nbf c with
       | Some n => if now <? n then Err NotYetValid else Ok tt
       | None => Ok tt
       end.

(** ** The replay cache: [HashMap<String, String>] behind a mutex *)

Definition replay_key (tenant_id : TenantId) (jti : string) (operation : OperationName)
  (subject : string) : string :=
  tenant_id +:+ "|" +:+ jti +:+ "|" +:+ operation_as_str operation +:+ "|" +:+ subject.

Definition observe (tenant_id : TenantId) (jti : string) (operation : OperationName)
  (subject : string) (idempotency_key : option string)
  : ST (gmap string string) DenialReason ReplayStatus := λ seen,
  if negb (is_mutation operation) then (Ok Fresh, seen)
  else
    let key := replay_key tenant_id jti operation subject in
    match seen !! key with
    | Some existing =>
        if bool_decide (idempotency_key = Some existing) then (Ok IdempotentRetry, seen)
        else (Err ReplayDetected, seen)
    | None => (Ok Fresh, <[key := default "" idempotency_key]> seen)
    end.

(** The checks of [PolicyEngine::authorize] before the replay cache, in order. *)
Definition check_request (now : Z) (auth : AuthContext) (meta : AuthRequestMeta)
  : result DenialReason unit :=
  let c := claims auth in
  _ ← validate_time_window now c;
  if negb (bool_decide (cl_tenant_id c = am_tenant_id meta)) then Err TenantMismatch
  else if negb (existsb (λ scope, scope_matches_operation scope (am_operation meta)) (ops c))
  then Err OperationNotAllowed
  else if is_mutation (am_operation meta) && public_profile_requires_channel_binding
          && bool_decide (channel_binding auth = None)
  then Err MissingChannelBinding
  else if operation_requires_object_crypto (am_operation meta)
          && bool_decide (am_key_policy_id meta = None)
  then Err MissingKeyPolicyId
  else if operation_requires_object_crypto (am_operation meta)
          && bool_decide (am_encryption_profile_id meta = None)
  then Err MissingEncryptionProfileId
  else if is_mutation (am_operation meta) && bool_decide (jti c = None)
  then Err MissingJti
  else
  _ ← match cl_key_policy_id c, am_key_policy_id meta with
      | Some expected, Some actual =>
          if negb (bool_decide (actual = expected)) then Err KeyPolicyMismatch else Ok tt
      | _, _ => Ok tt
      end;
  _ ← match cl_metadata_visibility c, am_metadata_visibility meta with
      | Some expected, Some actual =>
          if negb (bool_decide (actual = expected)) then Err MetadataVisibilityMismatch
          else Ok tt
      | _, _ => Ok tt
      end;
  _ ← match cl_path_prefix c with
      | Some path_prefix =>
          path ← ok_or (am_path meta) PathScopeMismatch;
          if negb (segment_prefix_matches path_prefix path) then Err PathScopeMismatch
          else Ok tt
      | None => Ok tt
      end;
  _ ← match cl_namespace_prefix c with
      | Some namespace_prefix =>
          namespace ← ok_or (am_namespace meta) NamespaceScopeMismatch;
          if negb (segment_prefix_matches namespace_prefix namespace)
          then Err NamespaceScopeMismatch
          else Ok tt
      | None => Ok tt
      end;
  _ ← match cl_max_object_size c, am_content_size meta with
      | Some max_object_size, Some content_size =>
          if max_object_size <? content_size then Err ObjectTooLarge else Ok tt
      | _, _ => Ok tt
      end;
  match am_storage_class meta with
  | Some storage_class =>
      if negb (bool_decide (cl_storage_classes c = []))
         && negb (existsb (λ allowed, String.eqb allowed storage_class) (cl_storage_classes c))
      then Err StorageClassMismatch
      else Ok tt
  | None => Ok tt
  end.

Definition authorize (now : Z) (auth : AuthContext) (meta : AuthRequestMeta)
  : ST (gmap string string) DenialReason AuthorizationDecision :=
  _ ← lift_result (check_request now auth meta);
  status ← match jti (claims auth) with
           | Some j => observe (am_tenant_id meta) j (am_operation meta) (am_subject meta)
                               (am_idempotency_key meta)
           | None => mret Fresh
           end;
  mret (mkAuthorizationDecision status).

(** ** Issuers and signed tokens *)

Definition resolve (registry : IssuerRegistry) (name : string) : option IssuerRecord :=
  List.find (λ candidate, String.eqb (issuer candidate) name) (issuers registry).

Definition resolve_key_id (registry : IssuerRegistry) (key_id : bytes) : option IssuerRecord :=
  key_id ← from_utf8 key_id;
  List.find (λ candidate, String.eqb (issuer_key_id candidate) key_id) (issuers registry).

(** [coset::CoseSign1]: the parts the code reads.  [cose_tbs aad] is the
    [Sig_structure] that [verify_signature] hands to its callback. *)
Record CoseSign1 := mkCoseSign1 {
  cose_payload : option bytes;
  cose_key_id : bytes;
  cose_signature : bytes;
  cose_tbs : bytes → bytes;
}.
Class Cose := {
  cose_from_slice : bytes → option CoseSign1;
  (** [VerifyingKey::from_bytes] on 32 bytes; keys are their bytes. *)
  ed25519_key_valid : bytes → bool;
  (** [Signature::try_from]. *)
  ed25519_signature_valid : bytes → bool;
  (** [verifying_key.verify(message, signature)]. *)
  ed25519_verify : bytes → bytes → bytes → bool;
}.
(** [ciborium::de::from_reader] into the claims type. *)
Class CborPayload (T : Type) := { payload_from_cbor : bytes → option T }.
(** The string members ["iss"] and ["aud"] of the JSON form of the claims, which
    the code reads through [serde_json::to_value]. *)
Class IssuerClaims (T : Type) := {
  payload_iss : T → option string;
  payload_aud : T → option string;
}.
#[global] Instance claims_issuer : IssuerClaims CapabilityClaims :=
  {| payload_iss := λ c, Some (iss c); payload_aud := λ c, Some (aud c) |}.
#[global] Instance mutation_issuer : IssuerClaims NamespaceMutationRecord :=
  {| payload_iss := λ _, None; payload_aud := λ _, None |}.

Definition auth_error (code message : string) : ApiError := mkApiError CatAuth code message.

Definition verify_cose_sign1_payload `{Base64Url, Cose} {T} `{CborPayload T, IssuerClaims T}
  (token_b64 : string) (registry : IssuerRegistry) (payload_name : string)
  : result ApiError T :=
  token_bytes ← ok_or (b64url_decode token_b64)
    (auth_error "invalid_token_base64" ("invalid " +:+ payload_name +:+ " encoding"));
  token ← ok_or (cose_from_slice token_bytes)
    (auth_error "invalid_token_format" ("invalid COSE_Sign1 " +:+ payload_name));
  payload ← ok_or (cose_payload token)
    (auth_error "missing_token_payload" (payload_name +:+ " payload is missing"));
  claims ← ok_or (payload_from_cbor payload)
    (auth_error "invalid_token_claims" (payload_name +:+ " payload is not valid CBOR"));
  issuer ← ok_or
    match payload_iss claims with
    | Some issuer_name => resolve registry issuer_name
    | None =>
        if negb (bool_decide (cose_key_id token = []))
        then resolve_key_id registry (cose_key_id token)
        else None
    end
    (auth_error "unknown_issuer" (payload_name +:+ " signer is not trusted"));
  if negb (String.eqb (algorithm issuer) "Ed25519") then
    Err (auth_error "unsupported_token_algorithm" "issuer algorithm is not supported")
  else if negb (bool_decide (audiences issuer = []))
          && match payload_aud claims with
             | Some audience => negb (existsb (λ c, String.eqb c audience) (audiences issuer))
             | None => false
             end
  then Err (auth_error "invalid_token_audience"
              (payload_name +:+ " audience is not allowed by issuer registry"))
  else
  public_key_bytes ← ok_or (b64url_decode (public_key_b64 issuer))
    (auth_error "invalid_issuer_key" "issuer public key encoding is invalid");
  if negb (Nat.eqb (length public_key_bytes) 32) then
    Err (auth_error "invalid_issuer_key" "issuer public key must be 32 bytes")
  else if negb (ed25519_key_valid public_key_bytes) then
    Err (auth_error "invalid_issuer_key" "issuer public key is invalid")
  else if negb (ed25519_signature_valid (cose_signature token)) then
    Err (auth_error "invalid_token_signature" "token signature is malformed")
  else if negb (ed25519_verify public_key_bytes (cose_tbs token []) (cose_signature token)) then
    Err (auth_error "invalid_token_signature" "token signature verification failed")
  else Ok claims.

Definition verify_cose_sign1_token `{Base64Url, Cose} `{!CborPayload CapabilityClaims}
  (token_b64 : string) (registry : IssuerRegistry) : result ApiError CapabilityClaims :=
  verify_cose_sign1_payload token_b64 registry "capability token".
Definition verify_signed_namespace_record `{Base64Url, Cose}
  `{!CborPayload NamespaceMutationRecord}
  (token_b64 : string) (registry : IssuerRegistry) : result ApiError NamespaceMutationRecord :=
  verify_cose_sign1_payload token_b64 registry "namespace mutation".

Definition verify_tls_exporter_binding `{Base64Url} (exported_key_material : bytes)
  (binding : ChannelBindingProof) : result ApiError unit :=
  if negb (String.eqb (cb_binding_kind binding) "tls-exporter") then
    Err (auth_error "invalid_channel_binding" "unsupported channel binding kind")
  else if negb (String.eqb (cb_proof_b64 binding) (b64url_encode exported_key_material)) then
    Err (auth_error "invalid_channel_binding" "channel binding proof verification failed")
  else Ok tt.

(** ** Specification of the policy *)

(** What a request must satisfy, as a conjunction with no order. *)
Record Permitted (now : Z) (auth : AuthContext) (meta : AuthRequestMeta) : Prop := {
  permitted_not_expired : now <= exp (claims auth);
  permitted_started : ∀ n, nbf (claims auth) = Some n → n <= now;
  permitted_tenant : cl_tenant_id (claims auth) = am_tenant_id meta;
  permitted_scope :
    ∃ s, s ∈ ops (claims auth) ∧ scope_matches_operation s (am_operation meta) = true;
  permitted_binding :
    is_mutation (am_operation meta) = true → channel_binding auth ≠ None;
  permitted_jti : is_mutation (am_operation meta) = true → jti (claims auth) ≠ None;
  permitted_crypto :
    operation_requires_object_crypto (am_operation meta) = true →
    am_key_policy_id meta ≠ None ∧ am_encryption_profile_id meta ≠ None;
  permitted_key_policy : ∀ e a,
    cl_key_policy_id (claims auth) = Some e → am_key_policy_id meta = Some a → a = e;
  permitted_visibility : ∀ e a,
    cl_metadata_visibility (claims auth) = Some e → am_metadata_visibility meta = Some a →
    a = e;
  permitted_path : ∀ p, cl_path_prefix (claims auth) = Some p →
    ∃ q, am_path meta = Some q ∧ segment_prefix_matches p q = true;
  permitted_namespace : ∀ p, cl_namespace_prefix (claims auth) = Some p →
    ∃ q, am_namespace meta = Some q ∧ segment_prefix_matches p q = true;
  permitted_size : ∀ m s,
    cl_max_object_size (claims auth) = Some m → am_content_size meta = Some s → s <= m;
  permitted_class : ∀ s, am_storage_class meta = Some s →
    cl_storage_classes (claims auth) = [] ∨ s ∈ cl_storage_classes (claims auth);
}.

(** ** Lemmas *)

Lemma validate_time_window_ok now c :
  validate_time_window now c = Ok tt ↔
  now <= exp c ∧ (∀ n, nbf c = Some n → n <= now).
Proof.
  unfold validate_time_window. rewrite guard_ok, Z.ltb_ge.
  destruct (nbf c) as [n|].
  - rewrite guard_ok, Z.ltb_ge. naive_solver.
  - naive_solver.
Qed.

Lemma opt_eq_check_ok {A} `{EqDecision A} (e : DenialReason) (x y : option A) :
  match x, y with
  | Some expected, Some actual =>
      if negb (bool_decide (actual = expected)) then Err e else Ok tt
  | _, _ => Ok tt
  end = Ok tt ↔ (∀ a b, x = Some a → y = Some b → b = a).
Proof.
  destruct x as [a|], y as [b|]; [|naive_solver..].
  rewrite guard_ok, negb_false_iff, bool_decide_eq_true. naive_solver.
Qed.

Lemma prefix_check_ok (e : DenialReason) (p q : option string) :
  match p with
  | Some prefix =>
      x ← ok_or q e; if negb (segment_prefix_matches prefix x) then Err e else Ok tt
  | None => Ok tt
  end = Ok tt ↔
  (∀ a, p = Some a → ∃ b, q = Some b ∧ segment_prefix_matches a b = true).
Proof.
  destruct p as [a|]; [|naive_solver]. rewrite ok_or_bind_ok.
  split.
  - intros (b&->&[Hb _]%guard_ok) ? [= <-]. apply negb_false_iff in Hb. eauto.
  - intros H. destruct (H a eq_refl) as (b&->&Hb). exists b. by rewrite Hb.
Qed.

Lemma existsb_elem {A} (f : A → bool) l : existsb f l = true ↔ ∃ x, x ∈ l ∧ f x = true.
Proof. rewrite existsb_exists. by setoid_rewrite list_elem_of_In. Qed.

Lemma and_none_check {A} `{EqDecision A} (b : bool) (o : option A) :
  b && bool_decide (o = None) = false ↔ (b = true → o ≠ None).
Proof. rewrite andb_false_iff, bool_decide_eq_false. destruct b; naive_solver. Qed.

Lemma size_check_ok (m s : option Z) :
  match m, s with
  | Some max_size, Some size => if max_size <? size then Err ObjectTooLarge else Ok tt
  | _, _ => Ok tt
  end = Ok tt ↔ (∀ a b, m = Some a → s = Some b → b <= a).
Proof.
  destruct m, s; [|naive_solver..]. rewrite guard_ok, Z.ltb_ge. naive_solver.
Qed.

Lemma class_check_ok (s : option string) (l : list string) :
  match s with
  | Some c =>
      if negb (bool_decide (l = [])) && negb (existsb (λ a, String.eqb a c) l)
      then Err StorageClassMismatch else Ok tt
  | None => Ok tt
  end = Ok tt ↔ (∀ c, s = Some c → l = [] ∨ c ∈ l).
Proof.
  destruct s as [c|]; [|naive_solver].
  rewrite guard_ok, andb_false_iff, !negb_false_iff, bool_decide_eq_true, existsb_elem.
  assert ((∃ x, x ∈ l ∧ String.eqb x c = true) ↔ c ∈ l) as ->.
  { setoid_rewrite String.eqb_eq. naive_solver. }
  naive_solver.
Qed.

Lemma check_request_ok now auth meta :
  check_request now auth meta = Ok tt ↔ Permitted now auth meta.
Proof.
  unfold check_request, public_profile_requires_channel_binding.
  rewrite !seq_ok, validate_time_window_ok, !guard_ok, !negb_false_iff, !seq_ok,
    !opt_eq_check_ok, !prefix_check_ok, size_check_ok, class_check_ok.
  rewrite bool_decide_eq_true, existsb_elem, andb_true_r, !and_none_check.
  split.
  - intros H. destruct_and!. split; auto.
  - intros []. split_and!; auto; intros; naive_solver.
Qed.

Lemma check_request_not_replay now auth meta e :
  check_request now auth meta = Err e → e ≠ ReplayDetected.
Proof.
  unfold check_request, validate_time_window, ok_or. intros H ->. simpl_monad.
  repeat (simplify_eq/=; case_match; try done).
Qed.

Lemma observe_mono t j op s k seen : seen ⊆ (observe t j op s k seen).2.
Proof.
  unfold observe. repeat case_match; cbn; try done. by apply insert_subseteq.
Qed.

Lemma observe_err t j op s k seen e seen' :
  observe t j op s k seen = (Err e, seen') → e = ReplayDetected ∧ seen' = seen.
Proof. unfold observe. intros H. repeat case_match; by simplify_eq. Qed.

Lemma authorize_spec now auth meta seen :
  authorize now auth meta seen =
    match check_request now auth meta with
    | Err e => (Err e, seen)
    | Ok _ =>
        match jti (claims auth) with
        | None => (Ok (mkAuthorizationDecision Fresh), seen)
        | Some j =>
            match observe (am_tenant_id meta) j (am_operation meta) (am_subject meta)
                          (am_idempotency_key meta) seen with
            | (Ok st, seen') => (Ok (mkAuthorizationDecision st), seen')
            | (Err e, seen') => (Err e, seen')
            end
        end
    end.
Proof.
  unfold authorize. rewrite ST_bind_run. unfold lift_result.
  destruct (check_request now auth meta); [|done].
  rewrite ST_bind_run. destruct (jti (claims auth)); [|done].
  by destruct (observe _ _ _ _ _ _) as [[] ?].
Qed.

Lemma replay_key_inj t j op s t' j' op' s' :
  str_contains_char "|"%char t = false → str_contains_char "|"%char t' = false →
  str_contains_char "|"%char j = false → str_contains_char "|"%char j' = false →
  replay_key t j op s = replay_key t' j' op' s' → t = t' ∧ j = j' ∧ op = op' ∧ s = s'.
Proof.
  intros Ht Ht' Hj Hj'. unfold replay_key. change "|" with (String "|"%char "").
  rewrite !str_app_cons, !str_app_nil_l. intros [-> H]%str_split_first; [|done..].
  apply str_split_first in H as [-> H]; [|done..].
  apply str_split_first in H as [Hop ->]; [|by destruct op|by destruct op'].
  by apply (inj operation_as_str) in Hop.
Qed.

Lemma resolved_issuer registry (i : option string) key_id rec :
  match i with
  | Some name => resolve registry name
  | None => if negb (bool_decide (key_id = [])) then resolve_key_id registry key_id else None
  end = Some rec →
  rec ∈ issuers registry ∧
  match i with
  | Some name => issuer rec = name
  | None => as_bytes (issuer_key_id rec) = key_id
  end.
Proof.
  destruct i as [name|]; unfold resolve, resolve_key_id.
  - intros [Hin Heq]%List.find_some. split; [by apply list_elem_of_In|by apply String.eqb_eq].
  - destruct (negb _); [|done].
    intros (k&Hk&[Hin ->%String.eqb_eq]%List.find_some)%bind_Some.
    split; [by apply list_elem_of_In|].
    unfold from_utf8 in Hk. destruct (utf8_valid key_id); simplify_eq. apply as_of_bytes.
Qed.
