(* ===== verification/Crypto.v ===== *)
(** * hsp-crypto: store envelopes, wrapped keys and the KMS providers

    Models [crates/hsp-crypto/src/lib.rs].  The ciphers, HKDF, Base64, the
    operating system's random generator and the AWS command line are
    parameters.  Operations that draw randomness or call the AWS command line are
    [ST nat CryptoError]: the state counts the draws made so far, and the
    generator is an oracle indexed by that count.  [KmsProvider] is the trait as
    a record of operations; [KmsLaws] is what the encrypted store relies on, and
    both providers are proved to satisfy it. *)

From Stdlib Require Import ZArith Lia Ascii String Bool.
From stdpp Require Import base option list strings gmap numbers.
From S2P Require Import Prelude RustStr Core Cbor.

(** ** Parameters: third-party primitives *)

Class CryptoPrims := {
  (** [OsRng.fill_bytes] on a buffer of the given length, by draw number. *)
  os_rng : nat → nat → bytes;
  (** [Aes256Gcm]: key, nonce, message, associated data. *)
  aes_gcm_encrypt : bytes → bytes → bytes → bytes → option bytes;
  aes_gcm_decrypt : bytes → bytes → bytes → bytes → option bytes;
  (** [XChaCha20Poly1305]. *)
  xchacha_encrypt : bytes → bytes → bytes → bytes → option bytes;
  xchacha_decrypt : bytes → bytes → bytes → bytes → option bytes;
  (** [Hkdf::<Sha256>::new(salt, ikm)] and [expand(info)] to a length. *)
  hkdf_sha256 : bytes → bytes → bytes → nat → option bytes;
  (** [STANDARD_NO_PAD] and [STANDARD] of the [base64] crate. *)
  b64np_encode : bytes → string;
  b64np_decode : string → option bytes;
  b64std_encode : bytes → string;
  b64std_decode : string → option bytes;
}.

(** Documented facts: buffers are filled, authenticated decryption inverts
    encryption under the same key, nonce and associated data, encryption of
    messages below the limit of GCM (2^36 bytes) succeeds, HKDF expands to up to
    255 blocks, Base64 decoding inverts encoding. *)
Class CryptoLaws `{C : CryptoPrims} : Prop := {
  os_rng_length : ∀ i n, length (os_rng i n) = n;
  aes_gcm_inverse : ∀ k n m a c,
    aes_gcm_encrypt k n m a = Some c → aes_gcm_decrypt k n c a = Some m;
  aes_gcm_total : ∀ k n m a,
    length k = 32%nat → length n = 12%nat → Z.of_nat (length m) < 2 ^ 36 →
    is_Some (aes_gcm_encrypt k n m a);
  xchacha_inverse : ∀ k n m a c,
    xchacha_encrypt k n m a = Some c → xchacha_decrypt k n c a = Some m;
  xchacha_total : ∀ k n m a,
    length k = 32%nat → length n = 24%nat → Z.of_nat (length m) < 2 ^ 36 →
    is_Some (xchacha_encrypt k n m a);
  hkdf_expands : ∀ salt ikm info n, (n <= 255 * 32)%nat →
    ∃ key, hkdf_sha256 salt ikm info n = Some key ∧ length key = n;
  b64np_inverse : ∀ b, b64np_decode (b64np_encode b) = Some b;
  b64std_inverse : ∀ b, b64std_decode (b64std_encode b) = Some b;
}.

(** ** Data *)

Inductive SignatureSuite := Ed25519.
Inductive ContentEncryptionSuite := XChaCha20Poly1305.
Inductive StorageEncryptionSuite := Aes256Gcm.
Inductive KeyWrappingSuite := HpkeX25519.
Inductive HashSuite := Sha256.
Record CryptoProfile := mkCryptoProfile {
  cp_signature : SignatureSuite;
  cp_content_encryption : ContentEncryptionSuite;
  cp_storage_encryption : StorageEncryptionSuite;
  cp_key_wrapping : KeyWrappingSuite;
  cp_hash : HashSuite;
}.
Definition public_multitenant_crypto_profile : CryptoProfile :=
  mkCryptoProfile Ed25519 XChaCha20Poly1305 Aes256Gcm HpkeX25519 Sha256.

Record StoredEnvelope := mkStoredEnvelope {
  env_key_version : Z;
  env_tenant_id : string;
  env_store_kind : string;
  env_wrapped_dek_b64 : string;
  env_wrap_nonce_b64 : string;
  env_data_nonce_b64 : string;
  env_ciphertext_b64 : string;
}.
#[global] Instance StoredEnvelope_eq_dec : EqDecision StoredEnvelope.
Proof. solve_decision. Defined.

Record EncryptedClientChunk := mkEncryptedClientChunk {
  ecc_cid : string;
  ecc_nonce_b64 : string;
  ecc_ciphertext : bytes;
}.
Record LocalDevKms := mkLocalDevKms { root_seed : bytes; kms_key_version : Z }.
Record AwsKmsProviderConfig := mkAwsKmsProviderConfig {
  key_alias : string;
  region : string;
  workload_identity_required : bool;
}.
Inductive AwsKmsRuntimeMode := LocalFallback | LiveCli.
Record AwsKmsProvider := mkAwsKmsProvider {
  aws_config : AwsKmsProviderConfig;
  aws_fallback : LocalDevKms;
  aws_runtime_mode : AwsKmsRuntimeMode;
  aws_cli_path : string;
}.
Record AesEncrypted := mkAesEncrypted { ae_nonce : bytes; ae_ciphertext : bytes }.

Inductive CryptoError :=
| InvalidSeed
| MissingRuntimeSecret (name : string)
| WeakRuntimeSecret (name : string)
| EncryptionFailed
| DecryptionFailed
| InvalidEnvelope
| InvalidWrappedKey
| MissingAwsKmsRuntime
| InvalidAwsKmsRuntime
| MissingWorkloadIdentity
| MissingAwsCli
| AwsCliFailed (message : string).
#[global] Instance CryptoError_eq_dec : EqDecision CryptoError.
Proof. solve_decision. Defined.

(** [Display for CryptoError]. *)
Definition crypto_error_to_string (e : CryptoError) : string :=
  match e with
  | InvalidSeed => "invalid local KMS seed"
  | MissingRuntimeSecret name => name +:+ " must be configured explicitly"
  | WeakRuntimeSecret name => name +:+ " is empty, too short, or uses a forbidden default"
  | EncryptionFailed => "encryption failed"
  | DecryptionFailed => "decryption failed"
  | InvalidEnvelope => "invalid encrypted envelope"
  | InvalidWrappedKey => "invalid wrapped key record"
  | MissingAwsKmsRuntime => "HSP_AWS_KMS_RUNTIME must be configured explicitly"
  | InvalidAwsKmsRuntime => "HSP_AWS_KMS_RUNTIME must be either live-cli or local-dev"
  | MissingWorkloadIdentity => "missing workload identity for AWS KMS provider"
  | MissingAwsCli => "AWS CLI was not found for live AWS KMS mode"
  | AwsCliFailed message => "AWS CLI request failed: " +:+ message
  end.

Definition crypto_error_to_api (error : CryptoError) (message : string) : ApiError :=
  let category :=
    match error with
    | InvalidEnvelope | InvalidWrappedKey => CatValidation
    | InvalidSeed | MissingRuntimeSecret _ | WeakRuntimeSecret _ | MissingAwsKmsRuntime
    | InvalidAwsKmsRuntime | MissingWorkloadIdentity | MissingAwsCli => CatPolicy
    | EncryptionFailed | DecryptionFailed | AwsCliFailed _ => CatStorage
    end in
  mkApiError category "crypto_error" message.

(** ** Runtime secrets *)

Definition MIN_RUNTIME_SECRET_BYTES : Z := 32.
Definition DEFAULT_KMS_SEED_LITERALS : list string :=
  ["hsp-secure-alpha-local-seed"; "hsp-alpha-test-seed"; "hsp-s3-runtime-seed";
   "hsp-cdn-runtime-seed"; "hsp-aws-kms-fallback-seed"].
Definition DEFAULT_EDGE_SIGNING_SECRET_LITERALS : list string := ["edge-secret"].

Definition validate_runtime_secret_bytes (secret_name : string) (value : bytes)
  (rejected_literals : list string) : result CryptoError bytes :=
  let decoded := from_utf8 value in
  let material := match decoded with Some s => trim s | None => "" end in
  let secret_len := match decoded with Some s => str_len (trim s) | None => len_u64 value end in
  if (secret_len <? MIN_RUNTIME_SECRET_BYTES)
     || existsb (λ literal, eq_ignore_ascii_case material literal) rejected_literals
  then Err (WeakRuntimeSecret secret_name)
  else Ok (match decoded with Some s => as_bytes (trim s) | None => value end).

Definition validate_runtime_secret (secret_name value : string) (rejected_literals : list string)
  : result CryptoError bytes :=
  validate_runtime_secret_bytes secret_name (as_bytes value) rejected_literals.

(** [std::env::var]: the environment is a map. *)
Definition required_runtime_secret_from_env (env : gmap string string) (secret_name : string)
  (rejected_literals : list string) : result CryptoError bytes :=
  value ← ok_or (env !! secret_name) (MissingRuntimeSecret secret_name);
  validate_runtime_secret secret_name value rejected_literals.

(** ** The provider trait *)

(** [encrypt] and [wrap] draw randomness; decryption does not. *)
Record KmsProvider := mkKmsProvider {
  provider_name : string;
  kms_encrypt : TenantId → string → bytes → ST nat CryptoError StoredEnvelope;
  kms_decrypt : TenantId → string → StoredEnvelope → result CryptoError bytes;
  kms_wrap : TenantId → string → bytes → ST nat CryptoError WrappedObjectKeyRecord;
  kms_unwrap : TenantId → WrappedObjectKeyRecord → result CryptoError bytes;
}.

(** The provided method of the trait. *)
Definition rewrap_store_envelope (kms : KmsProvider) (tenant_id : TenantId)
  (store_kind : string) (envelope : StoredEnvelope) : ST nat CryptoError StoredEnvelope :=
  plaintext ← lift_result (kms_decrypt kms tenant_id store_kind envelope);
  kms_encrypt kms tenant_id store_kind plaintext.

(** What the encrypted store relies on. *)
Class KmsLaws (kms : KmsProvider) : Prop := {
  kms_decrypt_encrypt : ∀ t k p d env d',
    kms_encrypt kms t k p d = (Ok env, d') → kms_decrypt kms t k env = Ok p;
  kms_envelope_context : ∀ t k p d env d',
    kms_encrypt kms t k p d = (Ok env, d') → env_tenant_id env = t ∧ env_store_kind env = k;
  kms_decrypt_context : ∀ t k env p,
    kms_decrypt kms t k env = Ok p → env_tenant_id env = t ∧ env_store_kind env = k;
  kms_unwrap_wrap : ∀ t r k d rec d',
    length k = 32%nat →
    kms_wrap kms t r k d = (Ok rec, d') → kms_unwrap kms t rec = Ok k;
  kms_wrap_recipient : ∀ t r k d rec d',
    kms_wrap kms t r k d = (Ok rec, d') → wk_recipient_key_id rec = r;
}.

Definition aad (tenant_id : TenantId) (store_kind : string) : string :=
  "hsp:" +:+ tenant_id +:+ ":" +:+ store_kind.

Section primitives.
Context `{CryptoPrims, Hashing}.

Definition fill_bytes {E} (n : nat) : ST nat E bytes :=
  λ draws, (Ok (os_rng draws n), S draws).

(** [decode_fixed::<N>]. *)
Definition decode_fixed (n : nat) (input : string) (error : CryptoError)
  : result CryptoError bytes :=
  decoded ← ok_or (b64np_decode input) error;
  if negb (Nat.eqb (length decoded) n) then Err error else Ok decoded.

Definition decode_base64_any (input : string) (error : CryptoError) : result CryptoError bytes :=
  ok_or (match b64std_decode input with Some b => Some b | None => b64np_decode input end) error.

(** ** The local provider *)

Definition from_seed (seed : bytes) : result CryptoError LocalDevKms :=
  match seed with
  | [] => Err InvalidSeed
  | _ => Ok (mkLocalDevKms (sha256 seed) 1)
  end.

Definition local_dev_kms_from_env (env : gmap string string) (secret_name : string)
  (rejected_literals : list string) : result CryptoError LocalDevKms :=
  seed ← required_runtime_secret_from_env env secret_name rejected_literals;
  from_seed seed.

Definition generate_object_data_key : ST nat CryptoError bytes := fill_bytes 32.

Definition derive_context_key (kms : LocalDevKms) (tenant_id : TenantId) (context label : string)
  : result CryptoError bytes :=
  ok_or (hkdf_sha256 (root_seed kms) (as_bytes tenant_id)
           (as_bytes (context +:+ ":" +:+ label)) 32)
        EncryptionFailed.

Definition encrypt_aes_gcm (key_material plaintext aad : bytes)
  : ST nat CryptoError AesEncrypted :=
  nonce ← fill_bytes 12;
  ciphertext ← lift_result
    (ok_or (aes_gcm_encrypt key_material nonce plaintext aad) EncryptionFailed);
  mret (mkAesEncrypted nonce ciphertext).

Definition decrypt_aes_gcm (key_material nonce ciphertext aad : bytes)
  : result CryptoError bytes :=
  ok_or (aes_gcm_decrypt key_material nonce ciphertext aad) DecryptionFailed.

Definition encrypt_store_payload (kms : LocalDevKms) (tenant_id : TenantId)
  (store_kind : string) (plaintext : bytes) : ST nat CryptoError StoredEnvelope :=
  data_key ← generate_object_data_key;
  kek ← lift_result (derive_context_key kms tenant_id store_kind "store-kek");
  wrapped ← encrypt_aes_gcm kek data_key (as_bytes (aad tenant_id store_kind));
  encrypted_payload ←
    encrypt_aes_gcm data_key plaintext (as_bytes (aad tenant_id store_kind));
  mret {| env_key_version := kms_key_version kms;
          env_tenant_id := tenant_id;
          env_store_kind := store_kind;
          env_wrapped_dek_b64 := b64np_encode (ae_ciphertext wrapped);
          env_wrap_nonce_b64 := b64np_encode (ae_nonce wrapped);
          env_data_nonce_b64 := b64np_encode (ae_nonce encrypted_payload);
          env_ciphertext_b64 := b64np_encode (ae_ciphertext encrypted_payload) |}.

Definition decrypt_store_payload (kms : LocalDevKms) (tenant_id : TenantId)
  (store_kind : string) (envelope : StoredEnvelope) : result CryptoError bytes :=
  if negb (String.eqb (env_tenant_id envelope) tenant_id)
     || negb (String.eqb (env_store_kind envelope) store_kind)
  then Err InvalidEnvelope
  else
  kek ← derive_context_key kms tenant_id store_kind "store-kek";
  wrap_nonce ← decode_fixed 12 (env_wrap_nonce_b64 envelope) InvalidEnvelope;
  wrapped_dek ← ok_or (b64np_decode (env_wrapped_dek_b64 envelope)) InvalidEnvelope;
  data_key ← decrypt_aes_gcm kek wrap_nonce wrapped_dek (as_bytes (aad tenant_id store_kind));
  if negb (Nat.eqb (length data_key) 32) then Err InvalidEnvelope
  else
  data_nonce ← decode_fixed 12 (env_data_nonce_b64 envelope) InvalidEnvelope;
  ciphertext ← ok_or (b64np_decode (env_ciphertext_b64 envelope)) InvalidEnvelope;
  decrypt_aes_gcm data_key data_nonce ciphertext (as_bytes (aad tenant_id store_kind)).

Definition wrap_object_key_for_recipient (kms : LocalDevKms) (tenant_id : TenantId)
  (recipient_key_id : string) (object_key : bytes)
  : ST nat CryptoError WrappedObjectKeyRecord :=
  wrapping_key ← lift_result
    (derive_context_key kms tenant_id recipient_key_id "object-recipient-wrap");
  nonce ← fill_bytes 24;
  ciphertext ← lift_result
    (ok_or (xchacha_encrypt wrapping_key nonce object_key
              (as_bytes (aad tenant_id recipient_key_id))) EncryptionFailed);
  mret {| wk_recipient_key_id := recipient_key_id;
          wk_wrapping_suite := "HPKE/X25519";
          wk_wrapped_key_b64 := b64np_encode ciphertext;
          wk_key_version := kms_key_version kms;
          wk_encapsulated_key_b64 := Some (b64np_encode nonce) |}.

Definition unwrap_object_key_for_recipient (kms : LocalDevKms) (tenant_id : TenantId)
  (record : WrappedObjectKeyRecord) : result CryptoError bytes :=
  nonce_b64 ← ok_or (wk_encapsulated_key_b64 record) InvalidWrappedKey;
  nonce ← decode_fixed 24 nonce_b64 InvalidWrappedKey;
  ciphertext ← ok_or (b64np_decode (wk_wrapped_key_b64 record)) InvalidWrappedKey;
  wrapping_key ←
    derive_context_key kms tenant_id (wk_recipient_key_id record) "object-recipient-wrap";
  plaintext ← ok_or (xchacha_decrypt wrapping_key nonce ciphertext
                       (as_bytes (aad tenant_id (wk_recipient_key_id record))))
                    DecryptionFailed;
  if negb (Nat.eqb (length plaintext) 32) then Err InvalidWrappedKey else Ok plaintext.

Definition encrypt_client_chunk (object_key plaintext : bytes)
  : ST nat CryptoError EncryptedClientChunk :=
  nonce ← fill_bytes 24;
  ciphertext ← lift_result
    (ok_or (xchacha_encrypt object_key nonce plaintext (as_bytes "hsp-client-chunk"))
           EncryptionFailed);
  mret (mkEncryptedClientChunk (cid_from_bytes ciphertext) (b64np_encode nonce) ciphertext).

Definition decrypt_client_chunk (object_key : bytes) (nonce_b64 : string) (ciphertext : bytes)
  : result CryptoError bytes :=
  nonce ← decode_fixed 24 nonce_b64 DecryptionFailed;
  ok_or (xchacha_decrypt object_key nonce ciphertext (as_bytes "hsp-client-chunk"))
        DecryptionFailed.

(** [impl KmsProvider for LocalDevKms]. *)
Definition local_provider (kms : LocalDevKms) : KmsProvider :=
  {| provider_name := "local-dev-kms";
     kms_encrypt := encrypt_store_payload kms;
     kms_decrypt := decrypt_store_payload kms;
     kms_wrap := wrap_object_key_for_recipient kms;
     kms_unwrap := unwrap_object_key_for_recipient kms |}.
End primitives.

(** ** The AWS provider *)

(** Running the AWS command line and reading its JSON output into the struct the
    caller expects; [Err] carries the message of [AwsCliFailed].  Data keys are
    generated afresh per call; decryption and encryption are answers of KMS to
    the arguments. *)
Class AwsCli := {
  aws_cli_found : string → bool;
  aws_cli_generate : string → nat → list string → result string (string * string);
  aws_cli_decrypt : string → list string → result string string;
  aws_cli_encrypt : string → list string → result string string;
}.

Section aws.
Context `{CryptoPrims, Hashing, AwsCli}.

(** The environment is a map; [aws_cli_found] is whether [--version] could be run. *)
Definition with_local_fallback (env : gmap string string) (config : AwsKmsProviderConfig)
  (fallback : LocalDevKms) : result CryptoError AwsKmsProvider :=
  runtime ← ok_or (env !! "HSP_AWS_KMS_RUNTIME") MissingAwsKmsRuntime;
  runtime_mode ←
    (if String.eqb runtime "live-cli" then Ok LiveCli
     else if String.eqb runtime "local-dev" then Ok LocalFallback
     else Err InvalidAwsKmsRuntime);
  let live := match runtime_mode with LiveCli => true | LocalFallback => false end in
  if live && workload_identity_required config
     && bool_decide (env !! "AWS_WEB_IDENTITY_TOKEN_FILE" = None)
     && bool_decide (env !! "AWS_ROLE_ARN" = None)
  then Err MissingWorkloadIdentity
  else
  let cli_path := default "aws" (env !! "HSP_AWS_CLI_PATH") in
  if live && negb (aws_cli_found cli_path) then Err MissingAwsCli
  else Ok (mkAwsKmsProvider config fallback runtime_mode cli_path).

(** [AwsKmsProvider::new]. *)
Definition aws_new (env : gmap string string) (config : AwsKmsProviderConfig)
  (local_seed : bytes) : result CryptoError AwsKmsProvider :=
  fallback ← from_seed local_seed;
  with_local_fallback env config fallback.

Definition use_live_cli (aws : AwsKmsProvider) : bool :=
  match aws_runtime_mode aws with LiveCli => true | LocalFallback => false end.

Definition encryption_context_args (tenant_id : TenantId) (context : string) : list string :=
  ["--encryption-context"; "tenant_id=" +:+ tenant_id; "context=" +:+ context].

(** The argument vectors of the four commands. *)
Definition generate_args (aws : AwsKmsProvider) (tenant_id : TenantId) (store_kind : string)
  : list string :=
  ["kms"; "generate-data-key"; "--key-id"; key_alias (aws_config aws); "--key-spec"; "AES_256";
   "--region"; region (aws_config aws); "--output"; "json"]
  ++ encryption_context_args tenant_id store_kind.
Definition decrypt_args (aws : AwsKmsProvider) (blob : string) (tenant_id : TenantId)
  (context : string) : list string :=
  ["kms"; "decrypt"; "--ciphertext-blob"; blob; "--region"; region (aws_config aws);
   "--output"; "json"]
  ++ encryption_context_args tenant_id context.
Definition encrypt_args (aws : AwsKmsProvider) (plaintext : string) (tenant_id : TenantId)
  (context : string) : list string :=
  ["kms"; "encrypt"; "--key-id"; key_alias (aws_config aws); "--plaintext"; plaintext;
   "--region"; region (aws_config aws); "--output"; "json"]
  ++ encryption_context_args tenant_id context.

Definition generate_data_key_live (aws : AwsKmsProvider) (tenant_id : TenantId)
  (store_kind : string) : ST nat CryptoError (bytes * string) := λ draws,
  (match aws_cli_generate (aws_cli_path aws) draws (generate_args aws tenant_id store_kind) with
   | Err message => Err (AwsCliFailed message)
   | Ok (plaintext, ciphertext_blob) =>
       plaintext ← decode_base64_any plaintext DecryptionFailed;
       if negb (Nat.eqb (length plaintext) 32) then Err DecryptionFailed
       else Ok (plaintext, ciphertext_blob)
   end, S draws).

Definition decrypt_data_key_live (aws : AwsKmsProvider) (tenant_id : TenantId)
  (store_kind wrapped_dek_b64 : string) : result CryptoError bytes :=
  output ← map_err AwsCliFailed
    (aws_cli_decrypt (aws_cli_path aws) (decrypt_args aws wrapped_dek_b64 tenant_id store_kind));
  plaintext ← decode_base64_any output DecryptionFailed;
  if negb (Nat.eqb (length plaintext) 32) then Err DecryptionFailed else Ok plaintext.

Definition wrap_object_key_live (aws : AwsKmsProvider) (tenant_id : TenantId)
  (recipient_key_id : string) (object_key : bytes)
  : result CryptoError WrappedObjectKeyRecord :=
  ciphertext_blob ← map_err AwsCliFailed
    (aws_cli_encrypt (aws_cli_path aws)
       (encrypt_args aws (b64std_encode object_key) tenant_id
          ("recipient:" +:+ recipient_key_id)));
  Ok {| wk_recipient_key_id := recipient_key_id;
        wk_wrapping_suite := "AWS-KMS";
        wk_wrapped_key_b64 := ciphertext_blob;
        wk_key_version := kms_key_version (aws_fallback aws);
        wk_encapsulated_key_b64 := None |}.

Definition unwrap_object_key_live (aws : AwsKmsProvider) (tenant_id : TenantId)
  (record : WrappedObjectKeyRecord) : result CryptoError bytes :=
  output ← map_err AwsCliFailed
    (aws_cli_decrypt (aws_cli_path aws)
       (decrypt_args aws (wk_wrapped_key_b64 record) tenant_id
          ("recipient:" +:+ wk_recipient_key_id record)));
  plaintext ← decode_base64_any output InvalidWrappedKey;
  if negb (Nat.eqb (length plaintext) 32) then Err InvalidWrappedKey else Ok plaintext.

Definition aws_encrypt_store_payload (aws : AwsKmsProvider) (tenant_id : TenantId)
  (store_kind : string) (plaintext : bytes) : ST nat CryptoError StoredEnvelope :=
  if negb (use_live_cli aws)
  then encrypt_store_payload (aws_fallback aws) tenant_id store_kind plaintext
  else
  '(data_key, wrapped_dek_b64) ← generate_data_key_live aws tenant_id store_kind;
  encrypted_payload ←
    encrypt_aes_gcm data_key plaintext (as_bytes (aad tenant_id store_kind));
  mret {| env_key_version := kms_key_version (aws_fallback aws);
          env_tenant_id := tenant_id;
          env_store_kind := store_kind;
          env_wrapped_dek_b64 := wrapped_dek_b64;
          env_wrap_nonce_b64 := "aws-kms-v1";
          env_data_nonce_b64 := b64np_encode (ae_nonce encrypted_payload);
          env_ciphertext_b64 := b64np_encode (ae_ciphertext encrypted_payload) |}.

Definition aws_decrypt_store_payload (aws : AwsKmsProvider) (tenant_id : TenantId)
  (store_kind : string) (envelope : StoredEnvelope) : result CryptoError bytes :=
  if negb (use_live_cli aws)
  then decrypt_store_payload (aws_fallback aws) tenant_id store_kind envelope
  else if negb (String.eqb (env_tenant_id envelope) tenant_id)
          || negb (String.eqb (env_store_kind envelope) store_kind)
  then Err InvalidEnvelope
  else
  data_key ← decrypt_data_key_live aws tenant_id store_kind (env_wrapped_dek_b64 envelope);
  data_nonce ← decode_fixed 12 (env_data_nonce_b64 envelope) InvalidEnvelope;
  ciphertext ← ok_or (b64np_decode (env_ciphertext_b64 envelope)) InvalidEnvelope;
  decrypt_aes_gcm data_key data_nonce ciphertext (as_bytes (aad tenant_id store_kind)).

Definition aws_wrap_object_key_for_recipient (aws : AwsKmsProvider) (tenant_id : TenantId)
  (recipient_key_id : string) (object_key : bytes)
  : ST nat CryptoError WrappedObjectKeyRecord :=
  if use_live_cli aws
  then lift_result (wrap_object_key_live aws tenant_id recipient_key_id object_key)
  else wrap_object_key_for_recipient (aws_fallback aws) tenant_id recipient_key_id object_key.

Definition aws_unwrap_object_key_for_recipient (aws : AwsKmsProvider) (tenant_id : TenantId)
  (record : WrappedObjectKeyRecord) : result CryptoError bytes :=
  if use_live_cli aws then unwrap_object_key_live aws tenant_id record
  else unwrap_object_key_for_recipient (aws_fallback aws) tenant_id record.

(** [impl KmsProvider for AwsKmsProvider]. *)
Definition aws_provider (aws : AwsKmsProvider) : KmsProvider :=
  {| provider_name := "aws-kms";
     kms_encrypt := aws_encrypt_store_payload aws;
     kms_decrypt := aws_decrypt_store_payload aws;
     kms_wrap := aws_wrap_object_key_for_recipient aws;
     kms_unwrap := aws_unwrap_object_key_for_recipient aws |}.

(** What KMS documents: a generated or encrypted key is decrypted to the same
    plaintext under the same region and encryption context. *)
Class AwsCliLaws : Prop := {
  aws_generate_decrypt : ∀ aws n t k plain blob,
    aws_cli_generate (aws_cli_path aws) n (generate_args aws t k) = Ok (plain, blob) →
    aws_cli_decrypt (aws_cli_path aws) (decrypt_args aws blob t k) = Ok plain;
  aws_encrypt_decrypt : ∀ aws plain blob t k,
    aws_cli_encrypt (aws_cli_path aws) (encrypt_args aws plain t k) = Ok blob →
    aws_cli_decrypt (aws_cli_path aws) (decrypt_args aws blob t k) = Ok plain;
}.
End aws.

(** ** Lemmas *)

Section facts.
Context `{CL : CryptoLaws} `{HS : Hashing}.

Lemma decode_fixed_encode n b e : length b = n → decode_fixed n (b64np_encode b) e = Ok b.
Proof. intros <-. unfold decode_fixed. by rewrite b64np_inverse; cbn; rewrite Nat.eqb_refl. Qed.

Lemma fill_bytes_run {E} n d : fill_bytes (E:=E) n d = (Ok (os_rng d n), S d).
Proof. done. Qed.

Lemma derive_context_key_ok kms t c l :
  ∃ key, derive_context_key kms t c l = Ok key ∧ length key = 32%nat.
Proof.
  destruct (hkdf_expands (root_seed kms) (as_bytes t) (as_bytes (c +:+ ":" +:+ l)) 32)
    as (key&Hk&Hl); [lia|].
  exists key. unfold derive_context_key. by rewrite Hk.
Qed.

Lemma encrypt_aes_gcm_ok k p a d e d' :
  encrypt_aes_gcm k p a d = (Ok e, d') →
  d' = S d ∧ ae_nonce e = os_rng d 12 ∧
  aes_gcm_encrypt k (ae_nonce e) p a = Some (ae_ciphertext e).
Proof.
  unfold encrypt_aes_gcm. rewrite ST_bind_run, fill_bytes_run, ST_bind_run. cbn.
  destruct (aes_gcm_encrypt k (os_rng d 12) p a) as [c|] eqn:Ec; cbn; [|done].
  intros [= <- <-]. done.
Qed.

Lemma decrypt_aes_gcm_encrypted k p a d e d' :
  encrypt_aes_gcm k p a d = (Ok e, d') →
  decrypt_aes_gcm k (ae_nonce e) (ae_ciphertext e) a = Ok p ∧ length (ae_nonce e) = 12%nat.
Proof.
  intros (_&Hn&He)%encrypt_aes_gcm_ok. unfold decrypt_aes_gcm.
  split; [by rewrite (aes_gcm_inverse _ _ _ _ _ He)|].
  by rewrite Hn, os_rng_length.
Qed.

Lemma encrypt_aes_gcm_total k p a d :
  length k = 32%nat → Z.of_nat (length p) < 2 ^ 36 →
  ∃ e, encrypt_aes_gcm k p a d = (Ok e, S d).
Proof.
  intros Hk Hp. unfold encrypt_aes_gcm. rewrite ST_bind_run, fill_bytes_run, ST_bind_run.
  destruct (aes_gcm_total k (os_rng d 12) p a Hk (os_rng_length d 12) Hp) as [c Hc].
  unfold lift_result. rewrite Hc. cbn. eauto.
Qed.

Lemma context_guard_ok {A} (a b c d : string) (e : CryptoError) (r : result CryptoError A) x :
  (if negb (String.eqb a b) || negb (String.eqb c d) then Err e else r) = Ok x ↔
  a = b ∧ c = d ∧ r = Ok x.
Proof.
  rewrite guard_ok, orb_false_iff, !negb_false_iff, !String.eqb_eq. naive_solver.
Qed.

Lemma encrypt_store_payload_ok kms t k p d env d' :
  encrypt_store_payload kms t k p d = (Ok env, d') →
  ∃ kek dek w e d1 d2,
    derive_context_key kms t k "store-kek" = Ok kek ∧ length dek = 32%nat ∧
    encrypt_aes_gcm kek dek (as_bytes (aad t k)) d1 = (Ok w, d2) ∧
    encrypt_aes_gcm dek p (as_bytes (aad t k)) d2 = (Ok e, d') ∧
    env = {| env_key_version := kms_key_version kms; env_tenant_id := t;
             env_store_kind := k; env_wrapped_dek_b64 := b64np_encode (ae_ciphertext w);
             env_wrap_nonce_b64 := b64np_encode (ae_nonce w);
             env_data_nonce_b64 := b64np_encode (ae_nonce e);
             env_ciphertext_b64 := b64np_encode (ae_ciphertext e) |}.
Proof.
  unfold encrypt_store_payload, generate_object_data_key.
  rewrite ST_bind_run, fill_bytes_run, ST_bind_run. unfold lift_result.
  destruct (derive_context_key kms t k "store-kek") as [kek|] eqn:Ek; [|done].
  intros (w&d2&Hw&H)%ST_bind_ok. apply ST_bind_ok in H as (e&d3&He&H).
  apply ST_ret_ok in H as [<- <-].
  exists kek, (os_rng d 32), w, e, (S d), d2. split_and!; try done. apply os_rng_length.
Qed.

Lemma local_decrypt_encrypt kms t k p d env d' :
  encrypt_store_payload kms t k p d = (Ok env, d') →
  decrypt_store_payload kms t k env = Ok p.
Proof.
  intros (kek&dek&w&e&d1&d2&Hk&Hl&Hw&He&->)%encrypt_store_payload_ok.
  apply decrypt_aes_gcm_encrypted in Hw as [Hw Hwn], He as [He Hen].
  apply context_guard_ok. cbn [env_tenant_id env_store_kind env_wrap_nonce_b64
    env_wrapped_dek_b64 env_data_nonce_b64 env_ciphertext_b64]. split_and!; [done..|].
  rewrite Hk, ok_bind, !decode_fixed_encode, !b64np_inverse by done.
  autorewrite with hsp_rw. by rewrite Hw, ok_bind, Hl.
Qed.

Lemma local_unwrap_wrap kms t r k d rec d' :
  length k = 32%nat →
  wrap_object_key_for_recipient kms t r k d = (Ok rec, d') →
  unwrap_object_key_for_recipient kms t rec = Ok k.
Proof.
  intros Hl. unfold wrap_object_key_for_recipient. rewrite ST_bind_run. unfold lift_result.
  destruct (derive_context_key kms t r "object-recipient-wrap") as [key|] eqn:Ek; [|done].
  rewrite ST_bind_run, fill_bytes_run, ST_bind_run.
  destruct (xchacha_encrypt key (os_rng d 24) k _) as [c|] eqn:Ec; [|done]. cbn.
  intros [= <- <-]. unfold unwrap_object_key_for_recipient. cbn -[decode_fixed].
  rewrite decode_fixed_encode, b64np_inverse by apply os_rng_length. cbn.
  rewrite Ek. cbn. rewrite (xchacha_inverse _ _ _ _ _ Ec). cbn. by rewrite Hl.
Qed.

Lemma local_wrap_recipient kms t r k d rec d' :
  wrap_object_key_for_recipient kms t r k d = (Ok rec, d') → wk_recipient_key_id rec = r.
Proof.
  unfold wrap_object_key_for_recipient. intros (key&d1&_&H)%ST_bind_ok.
  apply ST_bind_ok in H as (nonce&d2&_&H). apply ST_bind_ok in H as (c&d3&_&H).
  by apply ST_ret_ok in H as [<- _].
Qed.

(** A client chunk decrypts under the key and nonce it was made with. *)
Lemma client_chunk_inverse key p d chunk d' :
  encrypt_client_chunk key p d = (Ok chunk, d') →
  decrypt_client_chunk key (ecc_nonce_b64 chunk) (ecc_ciphertext chunk) = Ok p.
Proof.
  unfold encrypt_client_chunk. rewrite ST_bind_run, fill_bytes_run, ST_bind_run.
  unfold lift_result. destruct (xchacha_encrypt key (os_rng d 24) p _) as [c|] eqn:Hc; [|done].
  intros [= <- _]. unfold decrypt_client_chunk. cbn [ecc_nonce_b64 ecc_ciphertext].
  rewrite decode_fixed_encode, ok_bind by apply os_rng_length.
  by rewrite (xchacha_inverse _ _ _ _ _ Hc).
Qed.

#[export] Instance local_provider_laws kms : KmsLaws (local_provider kms).
Proof.
  split; cbn.
  - apply local_decrypt_encrypt.
  - intros t k p d env d' (?&?&?&?&?&?&_&_&_&_&->)%encrypt_store_payload_ok. done.
  - intros t k env p. unfold decrypt_store_payload.
    intros (?&?&_)%context_guard_ok. done.
  - apply local_unwrap_wrap.
  - apply local_wrap_recipient.
Qed.

(** Encryption is total: a payload below the limit of GCM always has an envelope. *)
Lemma encrypt_store_payload_total kms t k p d :
  Z.of_nat (length p) < 2 ^ 36 →
  ∃ env, encrypt_store_payload kms t k p d = (Ok env, S (S (S d))).
Proof.
  intros Hp. unfold encrypt_store_payload, generate_object_data_key.
  rewrite ST_bind_run, fill_bytes_run, ST_bind_run. unfold lift_result.
  destruct (derive_context_key_ok kms t k "store-kek") as (kek&->&Hk).
  destruct (encrypt_aes_gcm_total kek (os_rng d 32) (as_bytes (aad t k)) (S d)) as [w Hw];
    [done|rewrite os_rng_length; lia|].
  destruct (encrypt_aes_gcm_total (os_rng d 32) p (as_bytes (aad t k)) (S (S d))) as [e He];
    [by rewrite os_rng_length|done|].
  rewrite ST_bind_run, Hw, ST_bind_run, He. eexists. reflexivity.
Qed.

Section aws_facts.
Context `{AC : AwsCli} `{ACL : !AwsCliLaws}.

Lemma generated_key_decrypts aws t k d key blob d' :
  generate_data_key_live aws t k d = (Ok (key, blob), d') →
  decrypt_data_key_live aws t k blob = Ok key.
Proof.
  unfold generate_data_key_live, decrypt_data_key_live.
  destruct (aws_cli_generate _ _ _) as [[plain b]|m] eqn:Eg; [|done].
  intros [= Hr <-]. apply result_bind_ok in Hr as (pt&Hpt&Hr).
  assert (b = blob) as -> by (destruct (negb _); by simplify_eq).
  rewrite (aws_generate_decrypt _ _ _ _ _ _ Eg). cbn. rewrite Hpt. cbn.
  destruct (negb _); by simplify_eq.
Qed.

Lemma aws_encrypt_live_ok aws t k p d env d' :
  use_live_cli aws = true →
  aws_encrypt_store_payload aws t k p d = (Ok env, d') →
  env_tenant_id env = t ∧ env_store_kind env = k ∧
  aws_decrypt_store_payload aws t k env = Ok p.
Proof.
  intros Hlive. unfold aws_encrypt_store_payload, aws_decrypt_store_payload. rewrite Hlive.
  intros ([dek blob]&d1&Hg&He)%ST_bind_ok. apply ST_bind_ok in He as (e&d2&He&Hr).
  apply ST_ret_ok in Hr as [<- <-]. split_and!; [done..|]. cbn [negb].
  apply decrypt_aes_gcm_encrypted in He as [He Hn].
  apply context_guard_ok. cbn [env_tenant_id env_store_kind env_wrapped_dek_b64
    env_data_nonce_b64 env_ciphertext_b64]. split_and!; [done..|].
  rewrite (generated_key_decrypts _ _ _ _ _ _ _ Hg), decode_fixed_encode, b64np_inverse by done.
  by autorewrite with hsp_rw.
Qed.

Lemma aws_unwrap_wrap_live aws t r k rec :
  length k = 32%nat →
  wrap_object_key_live aws t r k = Ok rec → unwrap_object_key_live aws t rec = Ok k.
Proof.
  intros Hl. unfold wrap_object_key_live, unwrap_object_key_live.
  destruct (aws_cli_encrypt _ _) as [blob|] eqn:Ee; unfold map_err; [|done].
  rewrite ok_bind. intros [= <-]. cbn [wk_wrapped_key_b64 wk_recipient_key_id].
  rewrite (aws_encrypt_decrypt _ _ _ _ _ Ee), ok_bind.
  unfold decode_base64_any. rewrite b64std_inverse, ok_or_Some, ok_bind. by rewrite Hl.
Qed.

#[export] Instance aws_provider_laws aws : KmsLaws (aws_provider aws).
Proof.
  destruct (use_live_cli aws) eqn:Hlive; split; cbn.
  - intros t k p d env d' Henc. by apply (aws_encrypt_live_ok aws) in Henc as (_&_&?).
  - intros t k p d env d' Henc. by apply (aws_encrypt_live_ok aws) in Henc as (?&?&_).
  - intros t k env p. unfold aws_decrypt_store_payload. rewrite Hlive. cbn [negb].
    intros (?&?&_)%context_guard_ok. done.
  - intros t r k d rec d' Hl. unfold aws_wrap_object_key_for_recipient,
      aws_unwrap_object_key_for_recipient. rewrite Hlive. intros [= Hw _].
    by eapply aws_unwrap_wrap_live.
  - intros t r k d rec d'. unfold aws_wrap_object_key_for_recipient, wrap_object_key_live.
    rewrite Hlive. intros [= Hw _]. by apply result_bind_ok in Hw as (blob & _ & [= <-]).
  - intros t k p d env d'. unfold aws_encrypt_store_payload, aws_decrypt_store_payload.
    rewrite Hlive. apply (kms_decrypt_encrypt (kms := local_provider (aws_fallback aws))).
  - intros t k p d env d'. unfold aws_encrypt_store_payload. rewrite Hlive.
    apply (kms_envelope_context (kms := local_provider (aws_fallback aws))).
  - intros t k env p. unfold aws_decrypt_store_payload. rewrite Hlive.
    apply (kms_decrypt_context (kms := local_provider (aws_fallback aws))).
  - intros t r k d rec d' Hl. unfold aws_wrap_object_key_for_recipient,
      aws_unwrap_object_key_for_recipient. rewrite Hlive. by apply local_unwrap_wrap.
  - intros t r k d rec d'. unfold aws_wrap_object_key_for_recipient. rewrite Hlive.
    apply local_wrap_recipient.
Qed.
End aws_facts.
End facts.
