(* ===== verification/Concrete.v ===== *)
(** * Concrete parameters for the witnesses

    Executable stand-ins for the third-party crates, each proved to satisfy the
    laws the properties assume of the real one: a 64-bit FNV-1a hash for SHA-256,
    a nibble alphabet for Base32 and Base64, the reference decoder for the CBOR
    reader, and an authenticated cipher and the AWS command line of the key
    services.  They model nothing of the source; they show that the
    hypotheses of the properties can be met. *)

From Stdlib Require Import ZArith Lia Ascii String Bool.
From stdpp Require Import base option list strings gmap numbers.
From S2P Require Import Prelude RustStr Core Cbor CborFacts Crypto.

Definition fnv1a (b : bytes) : bytes :=
  be_bytes 8 (foldl (λ h c, (Z.lxor h (byte_val c) * 1099511628211) mod 2 ^ 64)
                    14695981039346656037 b).

(** Two letters A to P per byte. *)
Fixpoint nibbles_encode (b : bytes) : string :=
  match b with
  | [] => ""
  | c :: b' =>
      String (byte_of (65 + byte_val c / 16))
             (String (byte_of (65 + byte_val c mod 16)) (nibbles_encode b'))
  end.
Fixpoint nibbles_decode (s : string) : option bytes :=
  match s with
  | EmptyString => Some []
  | String h (String l s') =>
      if in_range 65 80 h && in_range 65 80 l then
        b ← nibbles_decode s';
        Some (byte_of ((byte_val h - 65) * 16 + (byte_val l - 65)) :: b)
      else None
  | _ => None
  end.

#[local] Instance concrete_hashing : Hashing :=
  {| sha256 := fnv1a; base32_nopad := nibbles_encode |}.
#[local] Instance concrete_b64url : Base64Url :=
  {| b64url_encode := nibbles_encode; b64url_decode := nibbles_decode |}.
#[local] Instance concrete_cbor_reader : CborReader :=
  {| cbor_from_reader := λ b, cbor_value_of <$> decode_canonical b |}.

Lemma nibble_bounds c : 0 <= byte_val c / 16 < 16 ∧ 0 <= byte_val c mod 16 < 16.
Proof.
  pose proof (byte_val_range c). split; [|apply Z.mod_pos_bound; lia].
  split; [apply Z.div_pos; lia|apply Z.div_lt_upper_bound; lia].
Qed.

Lemma nibbles_decode_encode b : nibbles_decode (nibbles_encode b) = Some b.
Proof.
  induction b as [|c b IH]; [done|]. cbn -[in_range].
  pose proof (nibble_bounds c) as [H1 H2].
  unfold in_range. rewrite !byte_val_of_small by lia.
  rewrite !(proj2 (Z.leb_le _ _)) by lia. cbn. rewrite IH. cbn. do 2 f_equal.
  rewrite <-(byte_of_val c) at 3. f_equal. pose proof (Z.div_mod (byte_val c) 16). lia.
Qed.

Lemma nibbles_alphabet p b :
  (∀ z, 65 <= z <= 80 → p (byte_of z) = true) → str_forallb p (nibbles_encode b) = true.
Proof.
  intros Hp. induction b as [|c b IH]; [done|]. cbn.
  pose proof (nibble_bounds c) as [H1 H2]. by rewrite !Hp by lia.
Qed.

#[local] Instance concrete_hashing_laws : HashingLaws.
Proof.
  split.
  - intros b. apply nibbles_alphabet. intros z Hz.
    unfold base32_char, in_range. rewrite byte_val_of_small; lia.
  - intros a b H%(f_equal nibbles_decode). cbn in H.
    rewrite !nibbles_decode_encode in H. congruence.
Qed.
#[local] Instance concrete_b64url_laws : Base64UrlLaws.
Proof.
  split; [apply nibbles_decode_encode|]. intros b. apply nibbles_alphabet. intros z Hz.
  unfold b64url_char, is_ascii_alphanumeric, in_range. rewrite byte_val_of_small by lia.
  rewrite !orb_true_iff. lia.
Qed.
#[local] Instance concrete_cbor_reader_laws : CborReaderLaws.
Proof. split. intros v Hwf _. cbn. by rewrite decode_canonical_encode. Qed.

(** The instances are in force only where this module is imported, so that the
    general statements never pick one of them. *)
Module Toy.
#[export] Existing Instances concrete_hashing concrete_b64url concrete_cbor_reader
  concrete_hashing_laws concrete_b64url_laws concrete_cbor_reader_laws.
End Toy.

(** The manifest of the crate's tests. *)
Definition sample_manifest : Manifest :=
  {| mf_version := 1;
     mf_tenant_id := "tenant-alpha";
     mf_logical_size := 1024;
     mf_stored_size := 1024;
     mf_chunker := "fixed-1m";
     mf_chunk_refs :=
       [ {| cr_chunk_index := 0; cr_cid := "sha256-example"; cr_offset := 0;
            cr_logical_len := 1024; cr_stored_len := 1024;
            cr_content_encoding := "identity" |} ];
     mf_content_type := "application/octet-stream";
     mf_created_at_ms := 1713632400000;
     mf_encryption_descriptor :=
       {| ed_encryption_profile_id := "public-e2ee-v1";
          ed_key_policy_id := "policy-default";
          ed_content_encryption_suite := "XChaCha20-Poly1305";
          ed_key_wrapping_suite := "HPKE/X25519";
          ed_metadata_visibility := Split;
          ed_wrapped_object_keys :=
            [ {| wk_recipient_key_id := "reader-1"; wk_wrapping_suite := "HPKE/X25519";
                 wk_wrapped_key_b64 := "ZmFrZQ"; wk_key_version := 1;
                 wk_encapsulated_key_b64 := Some "ZW5jYXA" |} ];
          ed_server_visible_metadata := {[ "content-language" := "ru" ]};
          ed_encrypted_client_metadata := {[ "owner" := "alice" ]} |} |}.


(** * Concrete cryptographic parameters for the witnesses

    Executable stand-ins for the ciphers, HKDF, Base64, the random generator and
    the AWS command line, proved to satisfy [CryptoLaws] and [AwsCliLaws].  The
    toy cipher reverses the message and appends a keyed FNV tag, so that it
    refuses a wrong key, nonce or context as the real ones do.  They model
    nothing of the source. *)

Import Toy.

Definition toy_stream (seed : bytes) (n : nat) : bytes :=
  resize n "."%char (fnv1a seed).
Definition toy_tag (k n a : bytes) : bytes := fnv1a (k ++ n ++ a).
Definition toy_seal (k n m a : bytes) : option bytes := Some (toy_tag k n a ++ reverse m).
Definition toy_open (k n c a : bytes) : option bytes :=
  if bool_decide (take 8 c = toy_tag k n a) then Some (reverse (drop 8 c)) else None.

#[local] Instance concrete_crypto : CryptoPrims :=
  {| os_rng := λ i n, toy_stream (be_bytes 8 (Z.of_nat i)) n;
     aes_gcm_encrypt := toy_seal; aes_gcm_decrypt := toy_open;
     xchacha_encrypt := toy_seal; xchacha_decrypt := toy_open;
     hkdf_sha256 := λ salt ikm info n, Some (toy_stream (salt ++ ikm ++ info) n);
     b64np_encode := nibbles_encode; b64np_decode := nibbles_decode;
     b64std_encode := nibbles_encode; b64std_decode := nibbles_decode |}.

(** The blob is the plaintext; a generated key is drawn from the generator. *)
#[local] Instance concrete_aws : AwsCli :=
  {| aws_cli_found := λ path, String.eqb path "aws";
     aws_cli_generate := λ _ i _,
       let key := nibbles_encode (toy_stream (be_bytes 8 (Z.of_nat i)) 32) in Ok (key, key);
     aws_cli_decrypt := λ _ args, ok_or (args !! 3%nat) "no blob";
     aws_cli_encrypt := λ _ args, ok_or (args !! 5%nat) "no plaintext" |}.

Lemma toy_stream_length seed n : length (toy_stream seed n) = n.
Proof. apply length_resize. Qed.

Lemma toy_open_seal k n m a c : toy_seal k n m a = Some c → toy_open k n c a = Some m.
Proof.
  unfold toy_seal, toy_open. intros Hc.
  assert (c = toy_tag k n a ++ reverse m) as -> by congruence.
  assert (length (toy_tag k n a) = 8%nat) as Hl by done.
  rewrite drop_app_length', take_app_length', reverse_involutive by done.
  by rewrite bool_decide_eq_true_2.
Qed.

#[local] Instance concrete_crypto_laws : CryptoLaws.
Proof.
  split; cbn.
  - intros. apply toy_stream_length.
  - apply toy_open_seal.
  - eauto.
  - apply toy_open_seal.
  - eauto.
  - intros salt ikm info n _. eexists. split; [done|]. apply toy_stream_length.
  - apply nibbles_decode_encode.
  - apply nibbles_decode_encode.
Qed.
#[local] Instance concrete_aws_laws : AwsCliLaws.
Proof. split; cbn; congruence. Qed.

Module ToyKms.
#[export] Existing Instances concrete_crypto concrete_aws concrete_crypto_laws
  concrete_aws_laws.
End ToyKms.

Definition sample_kms : LocalDevKms := mkLocalDevKms (sha256 (as_bytes "seed")) 1.
Definition sample_aws : AwsKmsProvider :=
  mkAwsKmsProvider (mkAwsKmsProviderConfig "alias/hsp-test" "us-east-1" true) sample_kms
    LiveCli "aws".
