(* ===== verification/AuthProps.v ===== *)
(** * Properties of the policy engine, the replay cache and token verification *)

From Stdlib Require Import ZArith Lia Ascii String Bool.
From stdpp Require Import base option list strings gmap numbers.
From S2P Require Import Prelude RustStr Path Core Cbor CborFacts Concrete Auth.

(** C4: the policy engine decides exactly [Permitted].  A request that satisfies
    it gets the answer of the replay cache; any other request is denied with a
    reason other than replay and leaves the cache untouched. *)
Theorem authorize_correct now auth meta seen :
  (Permitted now auth meta →
     authorize now auth meta seen =
       match jti (claims auth) with
       | None => (Ok (mkAuthorizationDecision Fresh), seen)
       | Some j =>
           match observe (am_tenant_id meta) j (am_operation meta) (am_subject meta)
                         (am_idempotency_key meta) seen with
           | (Ok st, seen') => (Ok (mkAuthorizationDecision st), seen')
           | (Err e, seen') => (Err e, seen')
           end
       end) ∧
  (¬ Permitted now auth meta →
     ∃ reason, reason ≠ ReplayDetected ∧
               authorize now auth meta seen = (Err reason, seen)).
Proof.
  rewrite authorize_spec. split.
  - intros H%check_request_ok. by rewrite H.
  - intros H. destruct (check_request now auth meta) as [[]|e] eqn:E.
    + by destruct H; apply check_request_ok.
    + exists e. split; [by eapply check_request_not_replay|done].
Qed.

(** Replay protection.  Once a mutation with token id [j] has been admitted,
    in every later state of the cache the same (tenant, token id, operation,
    subject) is a retry when it repeats the first idempotency key and a replay
    otherwise; the cache is not changed. *)
Theorem replay_detected_after_first_use t j op subject key seen st seen' later key' :
  is_mutation op = true →
  observe t j op subject key seen = (Ok st, seen') →
  seen' ⊆ later →
  (observe t j op subject key' later).2 = later ∧
  (st = Fresh →
   (observe t j op subject key' later).1 =
     if bool_decide (key' = Some (default "" key)) then Ok IdempotentRetry
     else Err ReplayDetected).
Proof.
  intros Hm Ho Hsub. unfold observe in *. rewrite Hm in *. cbn [negb] in *.
  destruct (seen !! replay_key t j op subject) as [x|] eqn:Ex.
  - case_bool_decide; simplify_eq. apply (lookup_weaken _ later) in Ex; [|done].
    rewrite Ex. split; [by case_bool_decide|done].
  - simplify_eq. assert (later !! replay_key t j op subject = Some (default "" key)) as ->.
    { eapply lookup_weaken; [|done]. apply lookup_insert_eq. }
    by case_bool_decide.
Qed.

(** The cache key separates requests whose tenant and token id contain no
    vertical bar: distinct requests never hide one another. *)
Theorem replay_key_separates t j op s t' j' op' s' :
  str_contains_char "|"%char t = false → str_contains_char "|"%char t' = false →
  str_contains_char "|"%char j = false → str_contains_char "|"%char j' = false →
  replay_key t j op s = replay_key t' j' op' s' → t = t' ∧ j = j' ∧ op = op' ∧ s = s'.
Proof. apply replay_key_inj. Qed.

(** With a vertical bar the key is ambiguous, across tenants: a request of
    tenant ["a|b"] makes a fresh request of tenant ["a"] a detected replay. *)
Theorem replay_key_cross_tenant_collision :
  ∃ seen, observe "a|b" "c" OpBind "docs:x" (Some "k1") ∅ = (Ok Fresh, seen) ∧
          (observe "a" "b|c" OpBind "docs:x" (Some "k2") seen).1 = Err ReplayDetected ∧
          (observe "a" "b|c" OpBind "docs:x" (Some "k2") ∅).1 = Ok Fresh.
Proof. eexists. split; [reflexivity|]. split; vm_compute; reflexivity. Qed.

(** Least privilege.  Only [write], [bind] and [unbind] admit a mutation, and
    no administrative scope admits any data operation. *)
Theorem mutation_needs_mutation_scope scope op :
  scope_matches_operation scope op = true →
  (scope ∉ granular_admin_scopes) ∧
  (is_mutation op = true → scope ∈ [ScopeWrite; ScopeBind; ScopeUnbind]) ∧
  (operation_requires_object_crypto op = true → scope = ScopeWrite).
Proof.
  intros H. split_and!.
  - destruct scope, op; vm_compute in H; try done;
      (intros Hin; unfold granular_admin_scopes in Hin; set_solver).
  - destruct scope, op; vm_compute in H; try done; set_solver.
  - by destruct scope, op; vm_compute in H.
Qed.

Definition sample_claims : CapabilityClaims :=
  {| iss := "issuer"; sub := "subject"; aud := "hsp"; exp := 2000; nbf := Some 1000;
     jti := Some "jti-1"; ops := [ScopeRead; ScopeWrite]; cl_tenant_id := "tenant-alpha";
     cl_namespace_prefix := None; cl_path_prefix := Some "tenant/a";
     cl_max_object_size := Some 4096; cl_storage_classes := ["hot"];
     cl_key_policy_id := Some "policy-default"; cl_metadata_visibility := Some Split |}.
Definition sample_auth : AuthContext :=
  mkAuthContext sample_claims (Some (mkChannelBindingProof "tls-exporter" "ZmFrZQ" "nonce-1")).

Section tokens.
Context {B64 : Base64Url} {C : Cose} {T : Type} {CP : CborPayload T} {IC : IssuerClaims T}.

(** Soundness of token verification.  Accepted claims are the CBOR content of
    a COSE_Sign1 whose signature verifies under the 32-byte Ed25519 key of an
    issuer of the registry: the one the claims name, or, for payloads that name
    none, the one the protected key id names; and a named audience is allowed. *)
Theorem verify_cose_sign1_payload_sound token registry name (t : T) :
  verify_cose_sign1_payload token registry name = Ok t →
  ∃ raw cose payload rec key,
    b64url_decode token = Some raw ∧ cose_from_slice raw = Some cose ∧
    cose_payload cose = Some payload ∧ payload_from_cbor payload = Some t ∧
    rec ∈ issuers registry ∧ algorithm rec = "Ed25519" ∧
    match payload_iss t with
    | Some i => issuer rec = i
    | None => as_bytes (issuer_key_id rec) = cose_key_id cose
    end ∧
    (∀ a, payload_aud t = Some a → audiences rec ≠ [] → a ∈ audiences rec) ∧
    b64url_decode (public_key_b64 rec) = Some key ∧ length key = 32%nat ∧
    ed25519_verify key (cose_tbs cose []) (cose_signature cose) = true.
Proof.
  unfold verify_cose_sign1_payload.
  intros (raw&Hraw&(cose&Hcose&(payload&Hpay&(t'&Ht&(rec&Hrec&H)%ok_or_bind_ok)
    %ok_or_bind_ok)%ok_or_bind_ok)%ok_or_bind_ok)%ok_or_bind_ok.
  rewrite !guard_ok, !negb_false_iff in H. destruct H as (Halg&Haud&H).
  apply ok_or_bind_ok in H as (key&Hkey&H). rewrite !guard_ok, !negb_false_iff in H.
  destruct H as (Hlen&_&_&Hver&[= ->]).
  apply resolved_issuer in Hrec as [Hin Hid].
  exists raw, cose, payload, rec, key. split_and!; try done.
  - by apply String.eqb_eq.
  - intros a Ha Hne. rewrite Ha in Haud.
    rewrite (bool_decide_eq_false_2 _ Hne) in Haud. apply negb_false_iff in Haud.
    apply existsb_elem in Haud as (x&Hx&->%String.eqb_eq). done.
  - by apply Nat.eqb_eq.
Qed.
End tokens.

Import Toy.

Definition sample_meta : AuthRequestMeta :=
  {| am_operation := OpPutInit; am_tenant_id := "tenant-alpha"; am_subject := "subject";
     am_namespace := None; am_path := Some "tenant/a/object.txt";
     am_content_size := Some 1024; am_storage_class := Some "hot";
     am_key_policy_id := Some "policy-default";
     am_encryption_profile_id := Some "public-e2ee-v1";
     am_metadata_visibility := Some Split; am_idempotency_key := Some "idem-1" |}.

(** Witness of C4: the upload of the crate's tests is permitted, and an operation
    on another tenant is not. *)
Lemma authorize_correct_witness :
  Permitted 1500 sample_auth sample_meta ∧
  authorize 1500 sample_auth sample_meta ∅ =
    (Ok (mkAuthorizationDecision Fresh),
     {[ replay_key "tenant-alpha" "jti-1" OpPutInit "subject" := "idem-1" ]}).
Proof.
  assert (Permitted 1500 sample_auth sample_meta) as H
    by (apply check_request_ok; vm_compute; reflexivity).
  split; [exact H|].
  etransitivity; [apply (proj1 (authorize_correct 1500 sample_auth sample_meta ∅) H)|].
  vm_compute. reflexivity.
Defined.

(** Stand-ins for the COSE parser and for Ed25519, for the witness: the token is
    the payload and the signature of a message is the message. *)
Definition toy_cose : Cose :=
  {| cose_from_slice := λ b, Some (mkCoseSign1 (Some b) (as_bytes "key-1") b (λ _, b));
     ed25519_key_valid := λ _, true;
     ed25519_signature_valid := λ _, true;
     ed25519_verify := λ _ m s, bool_decide (m = s) |}.
Definition toy_payload : CborPayload CapabilityClaims :=
  {| payload_from_cbor := λ b,
       if bool_decide (b = claims_canonical_cbor_bytes sample_claims)
       then Some sample_claims else None |}.
Definition sample_registry : IssuerRegistry :=
  mkIssuerRegistry
    [ mkIssuerRecord "issuer" "key-1" "Ed25519" (nibbles_encode (replicate 32 "K"%char))
        ["hsp"] ].

