(* ===== verification/CryptoProps.v ===== *)
(** * Properties of the envelopes, the wrapped keys and the provider selection *)

From Stdlib Require Import ZArith Lia Ascii String Bool.
From stdpp Require Import base option list strings gmap numbers.
From S2P Require Import Prelude RustStr Core Cbor CborFacts Concrete Crypto.

Section local.
Context `{CL : CryptoLaws} `{HS : Hashing}.

(** Store encryption with the local provider.  Every payload below the limit
    of GCM has an envelope; decrypting it for the same tenant and store kind gives
    the payload back, and for any other tenant or kind is refused as an invalid
    envelope before any key is used. *)
Theorem store_envelope_roundtrip kms t k p d :
  Z.of_nat (length p) < 2 ^ 36 →
  ∃ env, encrypt_store_payload kms t k p d = (Ok env, S (S (S d))) ∧
    decrypt_store_payload kms t k env = Ok p ∧
    ∀ t' k', (t', k') ≠ (t, k) → decrypt_store_payload kms t' k' env = Err InvalidEnvelope.
Proof.
  intros Hp. destruct (encrypt_store_payload_total kms t k p d Hp) as [env Henv].
  exists env. split_and!; [done|by eapply local_decrypt_encrypt|].
  intros t' k' Hne.
  destruct (kms_envelope_context (kms := local_provider kms) _ _ _ _ _ _ Henv) as [<- <-].
  unfold decrypt_store_payload.
  destruct (String.eqb_spec (env_tenant_id env) t'), (String.eqb_spec (env_store_kind env) k');
    [congruence|done..].
Qed.

(** Object keys and client chunks.  A 32-byte object key wrapped for a
    recipient is unwrapped to itself, a chunk encrypted under it is decrypted to
    itself, and the chunk is named by the CID of its ciphertext. *)
Theorem object_key_and_chunk_roundtrip kms t r key d p d2 :
  length key = 32%nat → Z.of_nat (length p) < 2 ^ 36 →
  (∃ rec, wrap_object_key_for_recipient kms t r key d = (Ok rec, S d) ∧
          wk_recipient_key_id rec = r ∧
          unwrap_object_key_for_recipient kms t rec = Ok key) ∧
  (∃ chunk, encrypt_client_chunk key p d2 = (Ok chunk, S d2) ∧
            ecc_cid chunk = cid_from_bytes (ecc_ciphertext chunk) ∧
            decrypt_client_chunk key (ecc_nonce_b64 chunk) (ecc_ciphertext chunk) = Ok p).
Proof.
  intros Hk Hp. split.
  - destruct (derive_context_key_ok kms t r "object-recipient-wrap") as (wk&Hwk&Hl).
    destruct (xchacha_total wk (os_rng d 24) key (as_bytes (aad t r)) Hl
                (os_rng_length d 24)) as [c Hc]; [lia|].
    assert (∃ rec, wrap_object_key_for_recipient kms t r key d = (Ok rec, S d) ∧
                   wk_recipient_key_id rec = r) as (rec&Hrec&Hr).
    { unfold wrap_object_key_for_recipient. rewrite ST_bind_run. unfold lift_result.
      rewrite Hwk, ST_bind_run, fill_bytes_run, ST_bind_run, Hc. by eexists. }
    exists rec. split_and!; [done..|]. by eapply local_unwrap_wrap.
  - destruct (xchacha_total key (os_rng d2 24) p (as_bytes "hsp-client-chunk") Hk
                (os_rng_length d2 24) Hp) as [c Hc].
    assert (∃ chunk, encrypt_client_chunk key p d2 = (Ok chunk, S d2) ∧
                     ecc_cid chunk = cid_from_bytes (ecc_ciphertext chunk)) as (chunk&He&Hcid).
    { unfold encrypt_client_chunk. rewrite ST_bind_run, fill_bytes_run, ST_bind_run.
      unfold lift_result. rewrite Hc. by eexists. }
    exists chunk. split_and!; [done..|]. by eapply client_chunk_inverse.
Qed.
End local.

Section aws.
Context `{CL : CryptoLaws} `{HS : Hashing} `{AC : AwsCli} `{ACL : !AwsCliLaws}.

(** Store encryption with the AWS provider, in either mode.  Whenever an
    envelope is produced it decrypts to the payload for the same tenant and kind
    and to nothing for others. *)
Theorem aws_envelope_roundtrip aws t k p d env d' :
  aws_encrypt_store_payload aws t k p d = (Ok env, d') →
  aws_decrypt_store_payload aws t k env = Ok p ∧
  ∀ t' k', (t', k') ≠ (t, k) → aws_decrypt_store_payload aws t' k' env = Err InvalidEnvelope.
Proof.
  intros Henv. split; [by apply (kms_decrypt_encrypt (kms := aws_provider aws)) in Henv|].
  intros t' k' Hne.
  destruct (kms_envelope_context (kms := aws_provider aws) _ _ _ _ _ _ Henv) as [<- <-].
  unfold aws_decrypt_store_payload, decrypt_store_payload.
  destruct (String.eqb_spec (env_tenant_id env) t'), (String.eqb_spec (env_store_kind env) k');
    [congruence|by destruct (negb (use_live_cli aws))..].
Qed.

(** No silent fallback.  A provider is built only for an explicit runtime; it
    is local exactly when the environment says ["local-dev"], and a live one has
    a working command line and, where required, a workload identity. *)
Theorem aws_runtime_mode_explicit env config fallback aws :
  with_local_fallback env config fallback = Ok aws →
  aws_config aws = config ∧ aws_fallback aws = fallback ∧
  (use_live_cli aws = false ↔ env !! "HSP_AWS_KMS_RUNTIME" = Some "local-dev") ∧
  (use_live_cli aws = true →
     env !! "HSP_AWS_KMS_RUNTIME" = Some "live-cli" ∧
     aws_cli_found (aws_cli_path aws) = true ∧
     (workload_identity_required config = true →
      is_Some (env !! "AWS_WEB_IDENTITY_TOKEN_FILE") ∨ is_Some (env !! "AWS_ROLE_ARN"))).
Proof.
  unfold with_local_fallback. intros (runtime&Hr&(mode&Hm&H)%result_bind_ok)%ok_or_bind_ok.
  rewrite !guard_ok in H. destruct H as (Hid&Hcli&[= <-]). rewrite Hr.
  destruct (String.eqb_spec runtime "live-cli") as [->|].
  - injection Hm as <-. unfold use_live_cli. cbn in *. split_and!; [done..| |].
    + split; [done|]. by intros [=].
    + intros _. apply negb_false_iff in Hcli. split_and!; [done..|].
      intros Hw. rewrite Hw in Hid. cbn in Hid. rewrite andb_false_iff, !bool_decide_eq_false in Hid.
      rewrite <-!not_eq_None_Some. done.
  - destruct (String.eqb_spec runtime "local-dev") as [->|]; [|done].
    injection Hm as <-. by unfold use_live_cli.
Qed.
End aws.

(** Key rotation.  Rewrapping an envelope, with any lawful provider, keeps its
    plaintext and its context; an envelope of another tenant or kind is refused
    without drawing randomness. *)
Theorem rewrap_preserves_plaintext (kms : KmsProvider) `{!KmsLaws kms} t k env d :
  (∀ env' d', rewrap_store_envelope kms t k env d = (Ok env', d') →
     kms_decrypt kms t k env' = kms_decrypt kms t k env ∧
     env_tenant_id env' = t ∧ env_store_kind env' = k) ∧
  ((env_tenant_id env, env_store_kind env) ≠ (t, k) →
   ∃ e, rewrap_store_envelope kms t k env d = (Err e, d)).
Proof.
  unfold rewrap_store_envelope. rewrite ST_bind_run. unfold lift_result.
  destruct (kms_decrypt kms t k env) as [p|e] eqn:Ed.
  - split.
    + intros env' d' Henc. destruct (kms_envelope_context _ _ _ _ _ _ Henc).
      split_and!; [|done..]. by erewrite kms_decrypt_encrypt.
    + intros Hne. destruct (kms_decrypt_context _ _ _ _ Ed). congruence.
  - split; [done|]. eauto.
Qed.

(** Runtime secrets.  A secret is accepted exactly when what is left after
    trimming (the raw bytes when it is not UTF-8) has at least 32 bytes and is
    not one of the rejected literals up to ASCII case, and then that is the
    value used. *)
Theorem validate_runtime_secret_bytes_spec name value rejected b :
  validate_runtime_secret_bytes name value rejected = Ok b ↔
  b = match from_utf8 value with Some s => as_bytes (trim s) | None => value end ∧
  32 <= len_u64 b ∧
  ∀ l, l ∈ rejected →
    eq_ignore_ascii_case (match from_utf8 value with Some s => trim s | None => "" end) l = false.
Proof.
  unfold validate_runtime_secret_bytes, MIN_RUNTIME_SECRET_BYTES.
  rewrite guard_ok, orb_false_iff, Z.ltb_ge.
  assert (∀ f, existsb f rejected = false ↔ ∀ l, l ∈ rejected → f l = false) as ->.
  { intros f. setoid_rewrite list_elem_of_In. induction rejected as [|x l IH]; cbn.
    - naive_solver.
    - rewrite orb_false_iff, IH. naive_solver. }
  assert (∀ s, str_len (trim s) = len_u64 (as_bytes (trim s))) as Hlen.
  { intros s. unfold str_len, len_u64. by rewrite length_as_bytes. }
  destruct (from_utf8 value) as [s|]; rewrite ?Hlen; split; intros H; naive_solver.
Qed.
