(* ===== verification/Store.v ===== *)
(** * hsp-service, store.rs: the storage backend

    [Backend] is the interface the service uses ([exists], [read], [write],
    [create], [delete]) as a record of operations on a backend state, and
    [BackendLaws] what it promises about the key-value map the state represents,
    whatever the operation returns.  [fs_backend] is the filesystem backend with
    injected input/output errors, and satisfies the laws.

    Filesystem model: the state maps the key of every regular file below the root
    to its content.  The keys of the service have three segments and directories
    at most two, so a key never names a directory, and parent directories matter
    only as something whose creation can fail.  The [n]-th operation fails the way
    the oracle [faults n] says: a failed [fs::write] may leave any prefix of the
    new content behind, and a [create] that fails after the file was opened leaves
    the file.  [Path::exists] is assumed not to fail (the code reads such a failure
    as absence). *)

From Stdlib Require Import ZArith Lia Ascii String Bool.
From stdpp Require Import base option list strings gmap numbers sorting.
From S2P Require Import Prelude RustStr Core.

(** ** The interface *)

Record Backend := mkBackend {
  bstate : Type;
  b_exists : string → bstate → bool * bstate;
  b_read : string → ST bstate ApiError (option bytes);
  b_write : string → bytes → ST bstate ApiError unit;
  b_create : string → bytes → ST bstate ApiError bool;
  b_delete : string → ST bstate ApiError unit;
}.

(** Two maps that agree except perhaps at [k]. *)
Definition agree_off {V} (k : string) (m m' : gmap string V) : Prop :=
  delete k m = delete k m'.

Class BackendLaws (B : Backend) := {
  b_view : bstate B → gmap string bytes;
  b_exists_view : ∀ k s,
    b_view (b_exists B k s).2 = b_view s ∧
    ((b_exists B k s).1 = true → is_Some (b_view s !! k));
  b_read_view : ∀ k s,
    b_view (b_read B k s).2 = b_view s ∧
    (∀ o, (b_read B k s).1 = Ok o → o = b_view s !! k);
  b_write_view : ∀ k b s,
    agree_off k (b_view s) (b_view (b_write B k b s).2) ∧
    ((b_write B k b s).1 = Ok tt → b_view (b_write B k b s).2 = <[k := b]> (b_view s));
  b_create_view : ∀ k b s,
    agree_off k (b_view s) (b_view (b_create B k b s).2) ∧
    (is_Some (b_view s !! k) → b_view (b_create B k b s).2 = b_view s) ∧
    ((b_create B k b s).1 = Ok true →
       b_view s !! k = None ∧ b_view (b_create B k b s).2 = <[k := b]> (b_view s)) ∧
    ((b_create B k b s).1 = Ok false → b_view (b_create B k b s).2 = b_view s);
  b_delete_view : ∀ k s,
    agree_off k (b_view s) (b_view (b_delete B k s).2) ∧
    ((b_delete B k s).1 = Ok tt → b_view (b_delete B k s).2 = delete k (b_view s));
}.

(** ** Errors *)

Definition storage_error (code message : string) : ApiError := mkApiError CatStorage code message.
Definition config_error (message : string) : ApiError :=
  storage_error "storage_config_invalid" message.
Definition storage_read_error (error : string) : ApiError :=
  storage_error "store_read_failed" error.
Definition storage_write_error (error : string) : ApiError :=
  storage_error "store_write_failed" error.
Definition storage_create_error (error : string) : ApiError :=
  storage_error "store_create_failed" error.
Definition storage_sync_error (error : string) : ApiError :=
  storage_error "store_sync_failed" error.
Definition storage_delete_error (error : string) : ApiError :=
  storage_error "store_delete_failed" error.
Definition mkdir_error (error : string) : ApiError := storage_error "mkdir_failed" error.

(** ** The filesystem backend *)

(** Where an operation fails: creating the parent directories, opening (or, for
    reads and deletions, the call itself), after writing some bytes, or in
    [sync_all]. *)
Inductive FaultPoint :=
| AtMkdir
| AtOpen
| AtWrite (written : nat)
| AtSync.

Record FsState := mkFsState {
  fs_files : gmap string bytes;
  fs_ops : nat;
}.

Section filesystem.
(** The fault of the [n]-th operation, with the text of the [io::Error]. *)
Variable faults : nat → option (FaultPoint * string).

Definition fs_next (s : FsState) (files : gmap string bytes) : FsState :=
  mkFsState files (S (fs_ops s)).

Definition fs_exists (key : string) (s : FsState) : bool * FsState :=
  (bool_decide (is_Some (fs_files s !! key)), fs_next s (fs_files s)).

Definition fs_read (key : string) : ST FsState ApiError (option bytes) := λ s,
  (match fs_files s !! key with
   | None => Ok None
   | Some content =>
       match faults (fs_ops s) with
       | Some (_, error) => Err (storage_read_error error)
       | None => Ok (Some content)
       end
   end, fs_next s (fs_files s)).

Definition fs_write (key : string) (content : bytes) : ST FsState ApiError unit := λ s,
  match faults (fs_ops s) with
  | Some (AtMkdir, error) => (Err (mkdir_error error), fs_next s (fs_files s))
  | Some (AtWrite n, error) =>
      (Err (storage_write_error error), fs_next s (<[key := take n content]> (fs_files s)))
  | Some (_, error) => (Err (storage_write_error error), fs_next s (fs_files s))
  | None => (Ok tt, fs_next s (<[key := content]> (fs_files s)))
  end.

Definition fs_create (key : string) (content : bytes) : ST FsState ApiError bool := λ s,
  match faults (fs_ops s) with
  | Some (AtMkdir, error) => (Err (mkdir_error error), fs_next s (fs_files s))
  | Some (AtOpen, error) => (Err (storage_create_error error), fs_next s (fs_files s))
  | fault =>
      if bool_decide (is_Some (fs_files s !! key)) then (Ok false, fs_next s (fs_files s))
      else match fault with
           | Some (AtWrite n, error) =>
               (Err (storage_write_error error),
                fs_next s (<[key := take n content]> (fs_files s)))
           | Some (_, error) =>
               (Err (storage_sync_error error), fs_next s (<[key := content]> (fs_files s)))
           | None => (Ok true, fs_next s (<[key := content]> (fs_files s)))
           end
  end.

Definition fs_delete (key : string) : ST FsState ApiError unit := λ s,
  match fs_files s !! key with
  | None => (Ok tt, fs_next s (fs_files s))
  | Some _ =>
      match faults (fs_ops s) with
      | Some (_, error) => (Err (storage_delete_error error), fs_next s (fs_files s))
      | None => (Ok tt, fs_next s (delete key (fs_files s)))
      end
  end.

Definition fs_backend : Backend :=
  mkBackend FsState fs_exists fs_read fs_write fs_create fs_delete.

Lemma agree_off_refl {V} k (m : gmap string V) : agree_off k m m.
Proof. done. Qed.
Lemma agree_off_insert {V} k v (m : gmap string V) : agree_off k m (<[k := v]> m).
Proof. unfold agree_off. by rewrite delete_insert_eq. Qed.
Lemma agree_off_delete {V} k (m : gmap string V) : agree_off k m (delete k m).
Proof. unfold agree_off. by rewrite delete_delete_eq. Qed.
Lemma agree_off_lookup {V} k k' (m m' : gmap string V) :
  agree_off k m m' → k' ≠ k → m' !! k' = m !! k'.
Proof.
  intros H Hne. rewrite <-(lookup_delete_ne m' k k'), <-H by done. by apply lookup_delete_ne.
Qed.

Lemma fs_read_view k s :
  fs_files (fs_read k s).2 = fs_files s ∧
  (∀ o, (fs_read k s).1 = Ok o → o = fs_files s !! k).
Proof.
  unfold fs_read. cbn. split; [done|]. intros o.
  destruct (fs_files s !! k); [|by intros [= <-]].
  destruct (faults (fs_ops s)) as [[]|]; by intros [= <-].
Qed.

Lemma fs_write_view k b s :
  agree_off k (fs_files s) (fs_files (fs_write k b s).2) ∧
  ((fs_write k b s).1 = Ok tt → fs_files (fs_write k b s).2 = <[k := b]> (fs_files s)).
Proof.
  unfold fs_write. destruct (faults (fs_ops s)) as [[[] ?]|]; cbn;
    (split; [apply agree_off_refl || apply agree_off_insert|done]).
Qed.

Lemma fs_create_view k b s :
  agree_off k (fs_files s) (fs_files (fs_create k b s).2) ∧
  (is_Some (fs_files s !! k) → fs_files (fs_create k b s).2 = fs_files s) ∧
  ((fs_create k b s).1 = Ok true →
     fs_files s !! k = None ∧ fs_files (fs_create k b s).2 = <[k := b]> (fs_files s)) ∧
  ((fs_create k b s).1 = Ok false → fs_files (fs_create k b s).2 = fs_files s).
Proof.
  unfold fs_create. destruct (fs_files s !! k) as [c|].
  - rewrite bool_decide_eq_true_2 by eauto.
    destruct (faults (fs_ops s)) as [[[] ?]|]; cbn;
      (split_and!; [apply agree_off_refl|done|done|eauto]).
  - rewrite bool_decide_eq_false_2 by (by intros []).
    destruct (faults (fs_ops s)) as [[[] ?]|]; cbn;
      (split_and!; [apply agree_off_refl || apply agree_off_insert|by intros []|done..]).
Qed.

Lemma fs_delete_view k s :
  agree_off k (fs_files s) (fs_files (fs_delete k s).2) ∧
  ((fs_delete k s).1 = Ok tt → fs_files (fs_delete k s).2 = delete k (fs_files s)).
Proof.
  unfold fs_delete. destruct (fs_files s !! k) eqn:Ek.
  - destruct (faults (fs_ops s)) as [[? ?]|]; cbn;
      (split; [apply agree_off_refl || apply agree_off_delete|done]).
  - cbn. split; [done|]. by rewrite delete_id.
Qed.

Lemma fs_exists_view k s :
  fs_files (fs_exists k s).2 = fs_files s ∧
  ((fs_exists k s).1 = true → is_Some (fs_files s !! k)).
Proof. split; [done|]. apply bool_decide_eq_true. Qed.

(** The filesystem backend keeps the promises of the interface, under any faults. *)
#[export] Instance fs_backend_laws : BackendLaws fs_backend :=
  {| b_view := fs_files : bstate fs_backend → _;
     b_exists_view := fs_exists_view;
     b_read_view := fs_read_view;
     b_write_view := fs_write_view;
     b_create_view := fs_create_view;
     b_delete_view := fs_delete_view |}.
End filesystem.


(** * hsp-service, store.rs: directory listings

    [list_values] and [list_child_dirs] of the storage backend, which only the
    distribution service uses.  [BackendListing] adds them to a backend,
    [BackendListingLaws] is what a client may rely on, and the filesystem backend
    above is extended with both.

    Filesystem model: the order in which [read_dir] returns entries is an oracle
    (a permutation), and so is which directories without files exist, as the
    state records regular files only. *)

Class BackendListing (B : Backend) := {
  b_list_values : string → ST (bstate B) ApiError (list bytes);
  b_list_child_dirs : string → ST (bstate B) ApiError (list string);
}.

(** The entry of a directory a file name is, if it is one. *)
Definition dir_entry (prefix name : string) : option string :=
  match strip_prefix prefix name with
  | Some f => if str_is_empty f || str_contains_char "/"%char f then None else Some f
  | None => None
  end.
(** The child directory of [prefix] a file name is below of, if there is one. *)
Definition child_dir (prefix name : string) : option string :=
  match strip_prefix (prefix +:+ "/") name with
  | Some rest =>
      match split_on "/"%char rest with
      | child :: _ :: _ => Some child
      | _ => None
      end
  | None => None
  end.

Class BackendListingLaws (B : Backend) `{BL : BackendLaws B, L : BackendListing B} : Prop := {
  b_list_values_view : ∀ prefix s,
    b_view (b_list_values prefix s).2 = b_view s ∧
    ∀ l, (b_list_values prefix s).1 = Ok l →
      ∃ names, NoDup names ∧
        (∀ name, name ∈ names ↔ is_Some (b_view s !! name) ∧ is_Some (dir_entry prefix name)) ∧
        Forall2 (λ name b, b_view s !! name = Some b) names l;
  b_list_child_dirs_view : ∀ prefix s,
    b_view (b_list_child_dirs prefix s).2 = b_view s ∧
    ∀ l, (b_list_child_dirs prefix s).1 = Ok l →
      ∀ name child, is_Some (b_view s !! name) → child_dir prefix name = Some child → child ∈ l;
}.

Section filesystem.
Variable faults : nat → option (FaultPoint * string).
Variable dir_order : nat → list string → list string.
(** Whether a directory without files exists, and the empty directories below it. *)
Variable dir_exists : nat → string → bool.
Variable empty_dirs : nat → string → list string.

Definition entries (prefix : string) (s : FsState) : list string :=
  filter (λ name, is_Some (dir_entry prefix name)) (map fst (map_to_list (fs_files s))).

Definition fs_list_values (prefix : string) : ST FsState ApiError (list bytes) := λ s,
  let names := entries prefix s in
  (match faults (fs_ops s) with
   | Some (_, error) =>
       if bool_decide (names = []) && negb (dir_exists (fs_ops s) prefix) then Ok []
       else Err (storage_read_error error)
   | None => Ok (omap (λ name, fs_files s !! name) (dir_order (fs_ops s) names))
   end, fs_next s (fs_files s)).

Definition fs_list_child_dirs (prefix : string) : ST FsState ApiError (list string) := λ s,
  let children := remove_dups (omap (child_dir prefix) (map fst (map_to_list (fs_files s)))) in
  (match faults (fs_ops s) with
   | Some (_, error) =>
       if bool_decide (children = []) && negb (dir_exists (fs_ops s) prefix) then Ok []
       else Err (storage_read_error error)
   | None => Ok (dir_order (fs_ops s) (children ++ empty_dirs (fs_ops s) prefix))
   end, fs_next s (fs_files s)).

#[export] Instance fs_listing : BackendListing (fs_backend faults) :=
  @Build_BackendListing (fs_backend faults) fs_list_values fs_list_child_dirs.

Hypothesis dir_order_perm : ∀ n l, dir_order n l ≡ₚ l.

Lemma entries_spec prefix s name :
  name ∈ entries prefix s ↔ is_Some (fs_files s !! name) ∧ is_Some (dir_entry prefix name).
Proof.
  unfold entries. rewrite list_elem_of_filter, list_elem_of_fmap.
  split; intros [H1 H2].
  - destruct H2 as [[n b] [-> Hin]]. apply elem_of_map_to_list in Hin. eauto.
  - destruct H1 as [b Hb]. split; [done|]. exists (name, b). by rewrite elem_of_map_to_list.
Qed.

Lemma fs_list_values_view prefix s :
  fs_files (fs_list_values prefix s).2 = fs_files s ∧
  ∀ l, (fs_list_values prefix s).1 = Ok l →
    ∃ names, NoDup names ∧
      (∀ name, name ∈ names ↔ is_Some (fs_files s !! name) ∧ is_Some (dir_entry prefix name)) ∧
      Forall2 (λ name b, fs_files s !! name = Some b) names l.
Proof.
  split; [done|]. intros l. unfold fs_list_values. cbn.
  assert (Hnd : NoDup (entries prefix s)).
  { apply NoDup_filter. apply NoDup_fst_map_to_list. }
  destruct (faults (fs_ops s)) as [[p error]|].
  - destruct (bool_decide_reflect (entries prefix s = [])) as [He|]; [|done].
    destruct (negb _); [|done]. intros [= <-]. exists []. split_and!; [constructor| |constructor].
    intros name. rewrite <-entries_spec, He. done.
  - intros [= <-]. exists (dir_order (fs_ops s) (entries prefix s)). split_and!.
    + by rewrite dir_order_perm.
    + intros name. by rewrite dir_order_perm, entries_spec.
    + assert (Hall : Forall (λ name, is_Some (fs_files s !! name))
                       (dir_order (fs_ops s) (entries prefix s))).
      { apply Forall_forall. intros name. rewrite dir_order_perm, entries_spec. tauto. }
      induction Hall as [|name names [b Hb] _ IH]; cbn; [constructor|].
      rewrite Hb. by constructor.
Qed.

Lemma fs_list_child_dirs_view prefix s :
  fs_files (fs_list_child_dirs prefix s).2 = fs_files s ∧
  ∀ l, (fs_list_child_dirs prefix s).1 = Ok l →
    ∀ name child, is_Some (fs_files s !! name) → child_dir prefix name = Some child → child ∈ l.
Proof.
  split; [done|]. intros l. unfold fs_list_child_dirs. cbn. intros Hl name child [b Hb] Hc.
  assert (Hin : child ∈ remove_dups (omap (child_dir prefix)
                          (map fst (map_to_list (fs_files s))))).
  { rewrite elem_of_remove_dups, list_elem_of_omap. exists name. split; [|done].
    apply list_elem_of_fmap. exists (name, b). by rewrite elem_of_map_to_list. }
  destruct (faults (fs_ops s)) as [[p error]|].
  - destruct (bool_decide_reflect (remove_dups (omap (child_dir prefix)
      (map fst (map_to_list (fs_files s)))) = [])) as [He|]; [|done].
    rewrite He in Hin. by apply not_elem_of_nil in Hin.
  - injection Hl as <-. rewrite dir_order_perm. apply elem_of_app. by left.
Qed.

(** The filesystem backend keeps the promises of the listings. *)
Lemma fs_listing_laws : BackendListingLaws (fs_backend faults).
Proof. split; [exact fs_list_values_view|exact fs_list_child_dirs_view]. Qed.
End filesystem.

(** ** Torn writes

    What a failed write may leave: the old content, or a prefix of the new one. *)
Class BackendTornWrites (B : Backend) `{BL : BackendLaws B} : Prop :=
  b_write_torn : ∀ k b s e, (b_write B k b s).1 = Err e →
    b_view (b_write B k b s).2 !! k = b_view s !! k ∨
    ∃ n, b_view (b_write B k b s).2 !! k = Some (take n b).

#[export] Instance fs_torn_writes faults : BackendTornWrites (fs_backend faults).
Proof.
  intros k b s e. cbn. unfold fs_write.
  destruct (faults (fs_ops s)) as [[[| |n|] msg]|]; cbn; intros He; try by left.
  right. exists n. by rewrite lookup_insert_eq.
Qed.
