(* ===== verification/ServiceState.v ===== *)
(** * hsp-service: the service state, its records and the encrypted store

    Models the part of [crates/hsp-service/src/lib.rs] everything else is built
    on: the persisted records, the store keys, encrypted reads and writes over
    the backend of [Store.v], and the metrics and log buffer.  [World] is what
    the methods of [AlphaService] mutate; the clock is an oracle read once per
    [now_ms()], and JSON serialisation is a parameter per persisted type. *)

From Stdlib Require Import ZArith Lia Ascii String Bool.
From stdpp Require Import base option list strings gmap numbers sorting.
From S2P Require Import Prelude RustStr Path Core Cbor Auth Crypto Store.

(** ** Persisted records *)

Record UploadSessionRecord := mkUploadSessionRecord {
  us_session_id : string;
  us_tenant_id : TenantId;
  us_manifest : Manifest;
  us_manifest_cid : string;
  us_idempotency_key : string;
  us_storage_class : string;
  us_atomic_bind : option AtomicBindRequest;
  us_uploaded_chunks : list Z;
  us_committed : bool;
  us_created_at_ms : Z;
  us_upload_deadline_ms : Z;
}.
Record ManifestRecord := mkManifestRecord {
  mr_tenant_id : TenantId;
  mr_manifest : Manifest;
  mr_manifest_cid : string;
  mr_object_cid : string;
  mr_storage_class : string;
  mr_committed_at_ms : Z;
}.
Record IdempotencyRecord (T : Type) := mkIdempotencyRecord { idem_response : T }.
Arguments mkIdempotencyRecord {T} idem_response.
Arguments idem_response {T} i.
Record ReplayRecord := mkReplayRecord {
  rp_tenant_id : TenantId;
  rp_jti : string;
  rp_operation : string;
  rp_subject : string;
  rp_idempotency_key : string;
  rp_observed_at_ms : Z;
}.
Record AuditRecord := mkAuditRecord {
  au_seq : Z;
  au_tenant_id : TenantId;
  au_operation : string;
  au_subject : string;
  au_at_ms : Z;
}.
Record SequenceState := mkSequenceState { next_seq : Z }.
Record NamespaceBindingState := mkNamespaceBindingState {
  bn_path : string;
  bn_target_cid : option string;
  bn_manifest_cid : option string;
  bn_revision : Z;
  bn_record_cid : string;
  bn_metadata : metadata_map;
  bn_tombstone : bool;
}.
Record NamespaceCurrentState := mkNamespaceCurrentState {
  ns_namespace : string;
  ns_revision : Z;
  ns_bindings : gmap string NamespaceBindingState;
}.
Record NamespaceRevisionState := mkNamespaceRevisionState { next_revision : Z }.
Record NamespaceJournalEntry := mkNamespaceJournalEntry {
  je_revision : Z;
  je_record : NamespaceMutationRecord;
  je_record_cid : string;
  je_target_cid : option string;
  je_manifest_cid : option string;
  je_metadata : metadata_map;
  je_tombstone : bool;
}.
Record SelectorResolution := mkSelectorResolution {
  sr_manifest_cid : string;
  sr_namespace : option string;
  sr_path : option string;
  sr_revision : option Z;
  sr_record_cid : option string;
}.

#[global] Instance UploadSessionRecord_eq_dec : EqDecision UploadSessionRecord.
Proof. solve_decision. Defined.
#[global] Instance NamespaceBindingState_eq_dec : EqDecision NamespaceBindingState.
Proof. solve_decision. Defined.
#[global] Instance NamespaceJournalEntry_eq_dec : EqDecision NamespaceJournalEntry.
Proof. solve_decision. Defined.

(** ** Observability *)

Record ServiceMetricEntry := mkServiceMetricEntry {
  me_operation : string;
  me_tenant_id : string;
  me_namespace : option string;
  me_status_code : Z;
  me_outcome : string;
  me_count : Z;
  me_latency_ms_sum : Z;
  me_object_size_bytes_sum : Z;
}.
Record StructuredLogRecord := mkStructuredLogRecord {
  lr_at_ms : Z;
  lr_operation : string;
  lr_tenant_id : string;
  lr_namespace : option string;
  lr_status_code : Z;
  lr_outcome : string;
  lr_latency_ms : Z;
  lr_object_size_bytes : option Z;
  lr_error_code : option string;
}.
(** [MetricKey]: operation, tenant, namespace, status code, outcome. *)
Definition MetricKey : Type := string * string * option string * Z * string.
Record MetricValue := mkMetricValue {
  mv_count : Z;
  mv_latency_ms_sum : Z;
  mv_object_size_bytes_sum : Z;
}.
Record Observation := mkObservation {
  ob_operation : string;
  ob_tenant_id : TenantId;
  ob_namespace : option string;
  ob_status_code : Z;
  ob_outcome : string;
  ob_latency_ms : Z;
  ob_object_size_bytes : option Z;
  ob_error_code : option string;
}.

(** ** Parameters *)

(** [serde_json::to_vec_pretty] and [serde_json::from_slice] at one type; errors
    are their text. *)
Class Json (T : Type) := {
  to_vec_pretty : T → result string bytes;
  from_slice : bytes → result string T;
}.
Class JsonLaws (T : Type) `{Json T} : Prop :=
  from_slice_to_vec : ∀ (v : T) b, to_vec_pretty v = Ok b → from_slice b = Ok v.

(** Everything the service uses of other crates and of the machine. *)
Class Deps := {
  dep_hashing :: Hashing;
  dep_b64url :: Base64Url;
  dep_cbor :: CborReader;
  dep_crypto :: CryptoPrims;
  dep_cose :: Cose;
  dep_payload :: CborPayload NamespaceMutationRecord;
  json_envelope :: Json StoredEnvelope;
  json_session :: Json UploadSessionRecord;
  json_manifest :: Json ManifestRecord;
  json_idem_init :: Json (IdempotencyRecord PutInitResponse);
  json_idem_commit :: Json (IdempotencyRecord PutCommitResponse);
  json_idem_bind :: Json (IdempotencyRecord BindResponse);
  json_idem_unbind :: Json (IdempotencyRecord UnbindResponse);
  json_replay :: Json ReplayRecord;
  json_audit :: Json AuditRecord;
  json_sequence :: Json SequenceState;
  json_current :: Json NamespaceCurrentState;
  json_revision :: Json NamespaceRevisionState;
  json_journal :: Json (list NamespaceJournalEntry);
  json_event :: Json EventRecord;
  (** The clock in milliseconds, by reading. *)
  clock : nat → Z;
}.
Class DepsLaws `{D : Deps} : Prop := {
  dl_hashing :: HashingLaws;
  dl_b64url :: Base64UrlLaws;
  dl_crypto :: CryptoLaws;
  dl_envelope :: JsonLaws StoredEnvelope;
  dl_session :: JsonLaws UploadSessionRecord;
  dl_manifest :: JsonLaws ManifestRecord;
  dl_idem_init :: JsonLaws (IdempotencyRecord PutInitResponse);
  dl_idem_commit :: JsonLaws (IdempotencyRecord PutCommitResponse);
  dl_idem_bind :: JsonLaws (IdempotencyRecord BindResponse);
  dl_idem_unbind :: JsonLaws (IdempotencyRecord UnbindResponse);
  dl_replay :: JsonLaws ReplayRecord;
  dl_audit :: JsonLaws AuditRecord;
  dl_sequence :: JsonLaws SequenceState;
  dl_current :: JsonLaws NamespaceCurrentState;
  dl_revision :: JsonLaws NamespaceRevisionState;
  dl_journal :: JsonLaws (list NamespaceJournalEntry);
  dl_event :: JsonLaws EventRecord;
}.

(** ** The service and its world *)

Record AlphaConfig := mkAlphaConfig {
  cfg_authority : string;
  cfg_gateway_base_url : string;
  cfg_native_port : Z;
  cfg_server_instance_id : string;
}.
(** The immutable fields of [AlphaService]; the store, the replay cache of the
    policy engine and the observability buffers are in [World]. *)
Record AlphaService := mkAlphaService {
  sv_config : AlphaConfig;
  sv_kms : LocalDevKms;
  sv_issuer_registry : option IssuerRegistry;
}.

Record World (B : Backend) := mkWorld {
  w_store : bstate B;
  w_draws : nat;
  w_ticks : nat;
  w_replay : gmap string string;
  w_metrics : gmap MetricKey MetricValue;
  w_logs : list StructuredLogRecord;
}.
Arguments mkWorld {B}.
Arguments w_store {B}.
Arguments w_draws {B}.
Arguments w_ticks {B}.
Arguments w_replay {B}.
Arguments w_metrics {B}.
Arguments w_logs {B}.

Definition bootstrap_document (sv : AlphaService) : BootstrapDocument :=
  let document := public_multitenant_bootstrap_document (cfg_authority (sv_config sv))
                    (cfg_gateway_base_url (sv_config sv)) in
  {| boot_version := boot_version document;
     boot_authority := boot_authority document;
     boot_native := mkBootstrapNativeEndpoint (native_alpn (boot_native document))
                      (native_host (boot_native document)) (cfg_native_port (sv_config sv));
     boot_gateway := boot_gateway document;
     boot_e2ee_required := boot_e2ee_required document;
     boot_storage_encryption_required := boot_storage_encryption_required document;
     boot_crypto_suite := boot_crypto_suite document;
     boot_key_wrapping_suite := boot_key_wrapping_suite document;
     boot_tenant_isolation_profile := boot_tenant_isolation_profile document;
     boot_supported_token_profiles := boot_supported_token_profiles document;
     boot_supported_extensions := boot_supported_extensions document;
     boot_limits_revision := boot_limits_revision document;
     boot_limits := boot_limits document |}.
Definition info : InfoResponse := public_multitenant_info_response.
Definition settings (sv : AlphaService) : SettingsFrame :=
  public_multitenant_settings_frame (cfg_server_instance_id (sv_config sv)).

(** ** Store keys *)

Section keys.
Context `{Deps}.

Definition tenant_store_dir (tenant_id : TenantId) : string := b64url_encode (as_bytes tenant_id).
Definition store_file_name (key : string) : string :=
  cid_from_bytes (as_bytes key) +:+ ".json.enc".
Definition store_key (tenant_id : TenantId) (store_kind key : string) : string :=
  store_kind +:+ "/" +:+ tenant_store_dir tenant_id +:+ "/" +:+ store_file_name key.
Definition idempotency_key (tenant_id : TenantId) (op value : string) : string :=
  op +:+ "-" +:+ cid_from_bytes (as_bytes tenant_id) +:+ "-" +:+ cid_from_bytes (as_bytes value).
(** [AlphaService::replay_key]: the key of the durable record. *)
Definition durable_replay_key (tenant_id : TenantId) (jti : string) (operation : OperationName)
  (subject : string) : string :=
  to_ascii_lowercase (operation_as_str operation) +:+ "-" +:+
  cid_from_bytes (as_bytes (replay_key tenant_id jti operation subject)).
End keys.

Definition store_kinds : list string :=
  ["chunks"; "manifests"; "namespace-current"; "namespace-journal"; "namespace-revisions";
   "sessions"; "audit"; "idempotency"; "replay"; "events"].

(** ** Operations on the world *)

Definition set_store {B} (s : bstate B) (w : World B) : World B :=
  mkWorld s (w_draws w) (w_ticks w) (w_replay w) (w_metrics w) (w_logs w).
Definition set_draws {B} (d : nat) (w : World B) : World B :=
  mkWorld (w_store w) d (w_ticks w) (w_replay w) (w_metrics w) (w_logs w).
Definition set_replay {B} (r : gmap string string) (w : World B) : World B :=
  mkWorld (w_store w) (w_draws w) (w_ticks w) r (w_metrics w) (w_logs w).

(** Run an operation on one component of the world. *)
Definition zoom {W S E A} (get : W → S) (set : S → W → W) (m : ST S E A) : ST W E A := λ w,
  let '(r, s) := m (get w) in (r, set s w).

Definition metric_zero : MetricValue := mkMetricValue 0 0 0.
Definition MAX_LOG_RECORDS : nat := 1024.

Section store.
Context `{Deps} {B : Backend} (sv : AlphaService).

Definition now_ms {E} : ST (World B) E Z := λ w,
  (Ok (clock (w_ticks w)),
   mkWorld (w_store w) (w_draws w) (S (w_ticks w)) (w_replay w) (w_metrics w) (w_logs w)).
Definition elapsed_ms {E} (start_ms : Z) : ST (World B) E Z :=
  now ← now_ms; mret (u64_sat_sub now start_ms).

(** The two critical sections of [record_observation]: the metrics entry and the
    log buffer, which keeps the last 1024 records. *)
Definition observe_metrics (o : Observation) (metrics : gmap MetricKey MetricValue)
  : gmap MetricKey MetricValue :=
  let key : MetricKey :=
    (ob_operation o, ob_tenant_id o, ob_namespace o, ob_status_code o, ob_outcome o) in
  let value := default metric_zero (metrics !! key) in
  <[key := mkMetricValue (u64_sat_add (mv_count value) 1)
             (u64_sat_add (mv_latency_ms_sum value) (ob_latency_ms o))
             (u64_sat_add (mv_object_size_bytes_sum value)
                          (default 0 (ob_object_size_bytes o)))]> metrics.
Definition push_log (record : StructuredLogRecord) (logs : list StructuredLogRecord)
  : list StructuredLogRecord :=
  let logs := logs ++ [record] in drop (length logs - MAX_LOG_RECORDS) logs.

Definition record_observation {E} (o : Observation) : ST (World B) E unit :=
  _ ← modify (λ w, mkWorld (w_store w) (w_draws w) (w_ticks w) (w_replay w)
                     (observe_metrics o (w_metrics w)) (w_logs w));
  at_ms ← now_ms;
  modify (λ w, mkWorld (w_store w) (w_draws w) (w_ticks w) (w_replay w) (w_metrics w)
    (push_log {| lr_at_ms := at_ms; lr_operation := ob_operation o;
                 lr_tenant_id := ob_tenant_id o; lr_namespace := ob_namespace o;
                 lr_status_code := ob_status_code o; lr_outcome := ob_outcome o;
                 lr_latency_ms := ob_latency_ms o;
                 lr_object_size_bytes := ob_object_size_bytes o;
                 lr_error_code := ob_error_code o |} (w_logs w))).

Definition kms_observation (tenant_id : TenantId) (size : option Z) (code : string)
  : Observation :=
  mkObservation "kms_error" tenant_id None 500 "kms_error" 0 size (Some code).

Definition on_store {A} (m : ST (bstate B) ApiError A) : ST (World B) ApiError A :=
  zoom w_store set_store m.

Definition write_envelope (tenant_id : TenantId) (store_kind key : string)
  (envelope : StoredEnvelope) : ST (World B) ApiError unit :=
  b ← lift_result (map_err (storage_error "envelope_serialize_failed") (to_vec_pretty envelope));
  on_store (b_write B (store_key tenant_id store_kind key) b).

Definition create_envelope (tenant_id : TenantId) (store_kind key : string)
  (envelope : StoredEnvelope) : ST (World B) ApiError bool :=
  b ← lift_result (map_err (storage_error "envelope_serialize_failed") (to_vec_pretty envelope));
  on_store (b_create B (store_key tenant_id store_kind key) b).

(** [self.kms.encrypt_store_payload]. *)
Definition encrypt_payload (tenant_id : TenantId) (store_kind : string) (b : bytes)
  : ST (World B) CryptoError StoredEnvelope :=
  zoom w_draws set_draws (encrypt_store_payload (sv_kms sv) tenant_id store_kind b).

Definition write_encrypted_bytes (tenant_id : TenantId) (store_kind key : string) (b : bytes)
  : ST (World B) ApiError unit :=
  r ← attempt (encrypt_payload tenant_id store_kind b);
  match r with
  | Err error =>
      let api_error := crypto_error_to_api error "failed to encrypt store payload" in
      _ ← record_observation
            (kms_observation tenant_id (Some (len_u64 b)) (err_code api_error));
      throw api_error
  | Ok envelope => write_envelope tenant_id store_kind key envelope
  end.

Definition write_encrypted_json {T} `{Json T} (tenant_id : TenantId) (store_kind key : string)
  (value : T) : ST (World B) ApiError unit :=
  b ← lift_result (map_err (storage_error "json_serialize_failed") (to_vec_pretty value));
  write_encrypted_bytes tenant_id store_kind key b.

Definition create_encrypted_json {T} `{Json T} (tenant_id : TenantId) (store_kind key : string)
  (value : T) : ST (World B) ApiError bool :=
  b ← lift_result (map_err (storage_error "json_serialize_failed") (to_vec_pretty value));
  r ← attempt (encrypt_payload tenant_id store_kind b);
  match r with
  | Err error => throw (crypto_error_to_api error "failed to encrypt store payload")
  | Ok envelope => create_envelope tenant_id store_kind key envelope
  end.

Definition read_encrypted_bytes (tenant_id : TenantId) (store_kind key : string)
  : ST (World B) ApiError (option bytes) :=
  o ← on_store (b_read B (store_key tenant_id store_kind key));
  match o with
  | None => mret None
  | Some b =>
      envelope ← lift_result (map_err (storage_error "envelope_deserialize_failed")
                                      (from_slice b));
      match decrypt_store_payload (sv_kms sv) tenant_id store_kind envelope with
      | Ok p => mret (Some p)
      | Err error =>
          let api_error := crypto_error_to_api error "failed to decrypt store payload" in
          _ ← record_observation (kms_observation tenant_id None (err_code api_error));
          throw api_error
      end
  end.

Definition read_encrypted_json {T} `{Json T} (tenant_id : TenantId) (store_kind key : string)
  : ST (World B) ApiError (option T) :=
  o ← read_encrypted_bytes tenant_id store_kind key;
  match o with
  | None => mret None
  | Some b =>
      v ← lift_result (map_err (storage_error "json_deserialize_failed") (from_slice b));
      mret (Some v)
  end.

Definition delete_store_key (tenant_id : TenantId) (store_kind key : string)
  : ST (World B) ApiError unit :=
  on_store (b_delete B (store_key tenant_id store_kind key)).

Definition chunk_exists (tenant_id : TenantId) (cid : string) : ST (World B) ApiError bool :=
  λ w, let '(b, s) := b_exists B (store_key tenant_id "chunks" cid) (w_store w) in
       (Ok b, set_store s w).

Definition manifest_record (tenant_id : TenantId) (manifest_cid : string)
  : ST (World B) ApiError ManifestRecord :=
  o ← read_encrypted_json tenant_id "manifests" manifest_cid;
  lift_result (ok_or o (mkApiError CatNotFound "manifest_not_found" "manifest not found")).

(** ** Events and audit *)

Definition event_key (seq : Z) : string := "event-" +:+ dec_pad 20 seq.

Definition next_event_seq (tenant_id : TenantId) : ST (World B) ApiError Z :=
  o ← read_encrypted_json tenant_id "events" "sequence";
  let current := next_seq (default (mkSequenceState 1) o) in
  _ ← write_encrypted_json tenant_id "events" "sequence" (mkSequenceState (u64_add current 1));
  mret current.

Definition next_read_event_seq (tenant_id : TenantId) : ST (World B) ApiError Z :=
  o ← read_encrypted_json tenant_id "events" "sequence";
  mret (next_seq (default (mkSequenceState 1) o)).

Definition set_event_seq (event : EventRecord) (seq : Z) : EventRecord :=
  {| ev_version := ev_version event; ev_seq := seq; ev_at_ms := ev_at_ms event;
     ev_event_type := ev_event_type event; ev_subject_kind := ev_subject_kind event;
     ev_namespace := ev_namespace event; ev_path := ev_path event; ev_cid := ev_cid event;
     ev_revision := ev_revision event; ev_trace_id := ev_trace_id event;
     ev_payload := ev_payload event |}.

Definition append_event (tenant_id : TenantId) (event : EventRecord) : ST (World B) ApiError Z :=
  seq ← next_event_seq tenant_id;
  _ ← write_encrypted_json tenant_id "events" (event_key seq) (set_event_seq event seq);
  mret seq.

Definition write_audit (tenant_id : TenantId) (seq : Z) (operation subject : string)
  : ST (World B) ApiError unit :=
  at_ms ← now_ms;
  write_encrypted_json tenant_id "audit" (dec seq +:+ "-" +:+ cid_from_bytes (as_bytes subject))
    (mkAuditRecord seq tenant_id operation subject at_ms).
End store.
