(* ===== verification/Observability.v ===== *)
(** * hsp-service: metrics, logs and readiness

    Models the observability reports of [crates/hsp-service/src/lib.rs]: the
    snapshot of the metrics in key order, the structured logs, the Prometheus
    exposition with its escaping of label values, and the readiness report. *)

From Stdlib Require Import ZArith Lia Ascii String Bool.
From stdpp Require Import base option list strings gmap numbers sorting.
From S2P Require Import Prelude RustStr Path Core Cbor Auth Crypto Store ServiceState.

(** ** The order of [MetricKey], derived field by field *)

Definition lex (c d : comparison) : comparison := match c with Eq => d | _ => c end.
Definition option_compare (a b : option string) : comparison :=
  match a, b with
  | None, None => Eq
  | None, Some _ => Lt
  | Some _, None => Gt
  | Some x, Some y => String.compare x y
  end.
Definition metric_key_compare (a b : MetricKey) : comparison :=
  let '(operation, tenant_id, namespace, status_code, outcome) := a in
  let '(operation', tenant_id', namespace', status_code', outcome') := b in
  lex (String.compare operation operation')
    (lex (String.compare tenant_id tenant_id')
      (lex (option_compare namespace namespace')
        (lex (Z.compare status_code status_code') (String.compare outcome outcome')))).
Definition metric_le (a b : MetricKey * MetricValue) : Prop := metric_key_compare a.1 b.1 ≠ Gt.
#[global] Instance metric_le_dec : RelDecision metric_le.
Proof. intros a b. unfold metric_le. apply _. Defined.

(** ** Reports *)

Definition metric_entry (m : MetricKey * MetricValue) : ServiceMetricEntry :=
  let '(operation, tenant_id, namespace, status_code, outcome) := m.1 in
  {| me_operation := operation; me_tenant_id := tenant_id; me_namespace := namespace;
     me_status_code := status_code; me_outcome := outcome; me_count := mv_count m.2;
     me_latency_ms_sum := mv_latency_ms_sum m.2;
     me_object_size_bytes_sum := mv_object_size_bytes_sum m.2 |}.

(** [s.replace(c, replacement)]. *)
Fixpoint replace_char (c : ascii) (replacement s : string) : string :=
  match s with
  | EmptyString => ""
  | String x s' => (if Ascii.eqb x c then replacement else String x "")
                   +:+ replace_char c replacement s'
  end.

Definition backslash : ascii := "092"%char.
Definition quote : ascii := "034"%char.
Definition line_feed : ascii := "010"%char.
Definition prometheus_escape (value : string) : string :=
  replace_char line_feed (String backslash "n")
    (replace_char quote (String backslash (String quote ""))
      (replace_char backslash (String backslash (String backslash "")) value)).

Definition quoted (s : string) : string := String quote s +:+ String quote "".
Definition prometheus_labels (entry : ServiceMetricEntry) : string :=
  "operation=" +:+ quoted (prometheus_escape (me_operation entry)) +:+
  ",tenant=" +:+ quoted (prometheus_escape (me_tenant_id entry)) +:+
  ",namespace=" +:+ quoted (prometheus_escape (default "" (me_namespace entry))) +:+
  ",status_code=" +:+ quoted (dec (me_status_code entry)) +:+
  ",outcome=" +:+ quoted (prometheus_escape (me_outcome entry)).

(** The lines of one metric. *)
Fixpoint metric_lines (name : string) (value : ServiceMetricEntry → Z)
  (entries : list ServiceMetricEntry) : string :=
  match entries with
  | [] => ""
  | entry :: rest =>
      name +:+ "{" +:+ prometheus_labels entry +:+ "} " +:+ dec (value entry)
      +:+ String line_feed "" +:+ metric_lines name value rest
  end.
Definition metric_header (name help : string) : string :=
  "# HELP " +:+ name +:+ " " +:+ help +:+ String line_feed "" +:+
  "# TYPE " +:+ name +:+ " counter" +:+ String line_feed "".

Section reports.
Context {B : Backend}.

Definition metrics_snapshot (w : World B) : list ServiceMetricEntry :=
  metric_entry <$> merge_sort metric_le (map_to_list (w_metrics w)).
Definition structured_logs (w : World B) : list StructuredLogRecord := w_logs w.
Definition prometheus_metrics (w : World B) : string :=
  let entries := metrics_snapshot w in
  metric_header "hsp_requests_total"
    "HSP requests by operation, tenant, namespace, status, and outcome." +:+
  metric_lines "hsp_requests_total" me_count entries +:+
  metric_header "hsp_request_latency_ms_sum"
    "Total observed HSP request latency in milliseconds." +:+
  metric_lines "hsp_request_latency_ms_sum" me_latency_ms_sum entries +:+
  metric_header "hsp_object_size_bytes_sum"
    "Total observed HSP object or chunk size in bytes." +:+
  metric_lines "hsp_object_size_bytes_sum" me_object_size_bytes_sum entries.
End reports.

(** [ready] is what the backend answers at this moment. *)
Definition readiness (ready : bool) : ReadinessReport :=
  {| rr_ready := ready; rr_kms_provider := "local-dev-kms"; rr_encrypted_store_roots := store_kinds |}.

(** ** Label values cannot break out of their quotes *)

Definition escape_byte (c : ascii) : string :=
  if Ascii.eqb c backslash then String backslash (String backslash "")
  else if Ascii.eqb c quote then String backslash (String quote "")
  else if Ascii.eqb c line_feed then String backslash "n"
  else String c "".
Fixpoint escape_bytes (s : string) : string :=
  match s with EmptyString => "" | String c s' => escape_byte c +:+ escape_bytes s' end.

Lemma replace_char_app c r s t :
  replace_char c r (s +:+ t) = replace_char c r s +:+ replace_char c r t.
Proof.
  induction s as [|x s IH]; [done|]. rewrite str_app_cons. cbn [replace_char].
  by rewrite IH, str_app_assoc.
Qed.
(** The three passes do what one pass byte by byte does. *)
Lemma prometheus_escape_bytes s : prometheus_escape s = escape_bytes s.
Proof.
  unfold prometheus_escape. induction s as [|c s IH]; [done|]. cbn [replace_char escape_bytes].
  rewrite !replace_char_app, IH. f_equal. unfold escape_byte.
  destruct (Ascii.eqb_spec c backslash) as [->|Hb]; [done|]. cbn [replace_char].
  destruct (Ascii.eqb_spec c quote) as [->|Hq]; [done|].
  rewrite str_app_nil_r. cbn [replace_char]. rewrite str_app_nil_r. done.
Qed.

(** The shape of one escaped byte. *)
Lemma escape_byte_cases c :
  (∃ e, escape_byte c = String backslash (String e "") ∧
        (c = backslash ∧ e = backslash ∨ c = quote ∧ e = quote ∨ c = line_feed ∧ e = "n"%char))
  ∨ escape_byte c = String c "" ∧ c ≠ backslash ∧ c ≠ quote.
Proof.
  unfold escape_byte. destruct (Ascii.eqb_spec c backslash) as [->|]; [left; eauto 10|].
  destruct (Ascii.eqb_spec c quote) as [->|]; [left; eauto 10|].
  destruct (Ascii.eqb_spec c line_feed) as [->|]; [left; eauto 10|]. by right.
Qed.

(** What follows a quoted value is read off unambiguously. *)
Lemma escaped_value_unique s s' t t' :
  prometheus_escape s +:+ String quote t = prometheus_escape s' +:+ String quote t' →
  s = s' ∧ t = t'.
Proof.
  rewrite !prometheus_escape_bytes. revert s'.
  induction s as [|c s IH]; intros [|c' s']; cbn [escape_bytes]; rewrite <- ?str_app_assoc.
  - intros [= ->]. done.
  - destruct (escape_byte_cases c') as [(e & -> & _)|(-> & Hb & Hq)]; [done|].
    rewrite !str_app_cons, str_app_nil_l. intros [= <- _]. done.
  - destruct (escape_byte_cases c) as [(e & -> & _)|(-> & Hb & Hq)]; [done|].
    rewrite !str_app_cons, str_app_nil_l. intros [= -> _]. done.
  - destruct (escape_byte_cases c) as [(e & -> & He)|(-> & Hb & Hq)];
      destruct (escape_byte_cases c') as [(e' & -> & He')|(-> & Hb' & Hq')];
      rewrite !str_app_cons, !str_app_nil_l; intros Heq;
      injection Heq as Hc Heq; try (injection Heq as He2 Heq); try congruence;
      destruct (IH _ Heq) as [-> ->]; split; try done; f_equal; naive_solver.
Qed.
