(* ===== verification/ServiceFacts.v ===== *)
(** * hsp-service: laws of the encrypted store

    Reasoning principles for the client files.  [files] is the key-value map of a
    world and [stored] the decrypted, parsed record a map holds under a tenant,
    kind and key: a successful read returns it, a successful write sets it, and
    [keeps t kinds] is the frame of an operation that touches nothing but records
    of tenant [t] of these kinds, whatever it returns. *)

From Stdlib Require Import ZArith Lia Ascii String Bool.
From stdpp Require Import base option list strings gmap numbers sorting.
From S2P Require Import Prelude RustStr Path Core Cbor CborFacts Auth Crypto Store ServiceState.

Definition slash_free (s : string) : bool := negb (str_contains_char "/"%char s).

Section facts.
Context `{DL : DepsLaws} {B : Backend} `{BL : BackendLaws B} (sv : AlphaService).
Implicit Types w : World B.

Definition files (w : World B) : gmap string bytes := b_view (w_store w).

Definition stored_bytes (f : gmap string bytes) (t : TenantId) (k key : string) : option bytes :=
  b ← f !! store_key t k key;
  env ← result_ok (from_slice b : result string StoredEnvelope);
  result_ok (decrypt_store_payload (sv_kms sv) t k env).
Definition stored {T} `{Json T} (f : gmap string bytes) (t : TenantId) (k key : string)
  : option T :=
  b ← stored_bytes f t k key; result_ok (from_slice b).

(** ** Keys *)

Lemma tenant_store_dir_no_slash t : str_contains_char "/"%char (tenant_store_dir t) = false.
Proof.
  apply (str_contains_char_forallb b64url_char); [done|apply b64url_alphabet].
Qed.

#[local] Instance tenant_store_dir_inj : Inj (=) (=) tenant_store_dir.
Proof.
  unfold tenant_store_dir. intros t t' Heq%(f_equal b64url_decode).
  rewrite !b64url_decode_encode in Heq. injection Heq as Heq. by apply (inj as_bytes).
Qed.

(** A file name determines the kind, the tenant and the CID of the key. *)
Lemma store_key_inj t k key t' k' key' :
  slash_free k = true → slash_free k' = true →
  store_key t k key = store_key t' k' key' →
  k = k' ∧ t = t' ∧ cid_from_bytes (as_bytes key) = cid_from_bytes (as_bytes key').
Proof.
  unfold slash_free, store_key, store_file_name. intros Hk%negb_true_iff Hk'%negb_true_iff.
  change "/" with (String "/"%char "").
  rewrite !str_app_cons, !str_app_nil_l. intros [-> Heq]%str_split_first; [|done..].
  apply str_split_first in Heq as [->%(inj _) Heq]; [|apply tenant_store_dir_no_slash..].
  split_and!; [done..|]. revert Heq. generalize (cid_from_bytes (as_bytes key)) as a.
  generalize (cid_from_bytes (as_bytes key')) as b. intros b a Heq.
  apply (f_equal as_bytes) in Heq. rewrite !as_bytes_app in Heq.
  by apply app_inv_tail, (inj as_bytes) in Heq.
Qed.

Lemma store_key_kind_ne t k key k' key' :
  slash_free k = true → slash_free k' = true → k ≠ k' →
  store_key t k key ≠ store_key t k' key'.
Proof. intros Hk Hk' Hne Heq. by apply store_key_inj in Heq as (?&_&_). Qed.

(** ** What a map stores *)

Lemma stored_bytes_ext f f' t k key :
  f' !! store_key t k key = f !! store_key t k key →
  stored_bytes f' t k key = stored_bytes f t k key.
Proof. unfold stored_bytes. by intros ->. Qed.
Lemma stored_ext {T} `{Json T} f f' t k key :
  f' !! store_key t k key = f !! store_key t k key →
  stored f' t k key = stored f t k key.
Proof. unfold stored. intros Heq. by rewrite (stored_bytes_ext f f'). Qed.

Lemma stored_bytes_envelope f t k key (p : bytes) d env d' b :
  encrypt_store_payload (sv_kms sv) t k p d = (Ok env, d') →
  to_vec_pretty env = Ok b →
  stored_bytes (<[store_key t k key := b]> f) t k key = Some p.
Proof.
  intros Henc Hb. unfold stored_bytes. rewrite lookup_insert_eq. cbn.
  rewrite (from_slice_to_vec _ _ Hb). cbn.
  by rewrite (local_decrypt_encrypt _ _ _ _ _ _ _ Henc).
Qed.

Lemma stored_absent {T} `{Json T} f t k key :
  f !! store_key t k key = None → stored f t k key = None.
Proof. unfold stored, stored_bytes. by intros ->. Qed.

(** ** Frames *)

Definition keeps (t : TenantId) (kinds : list string) (w w' : World B) : Prop :=
  ∀ name, (∀ k key, k ∈ kinds → name ≠ store_key t k key) → files w' !! name = files w !! name.

#[global] Instance keeps_preorder t kinds : PreOrder (keeps t kinds).
Proof.
  split; [by intros w name|]. intros w1 w2 w3 H12 H23 name Hn.
  by rewrite H23, H12.
Qed.

Lemma keeps_weaken t kinds kinds' w w' :
  kinds ⊆ kinds' → keeps t kinds w w' → keeps t kinds' w w'.
Proof. intros Hsub Hk name Hn. apply Hk. intros k key Hin. by apply Hn, Hsub. Qed.

Lemma keeps_same t kinds w w' : files w' = files w → keeps t kinds w w'.
Proof. by intros Heq name _; rewrite Heq. Qed.

Lemma keeps_agree_off t kinds k key w w' :
  k ∈ kinds → agree_off (store_key t k key) (files w) (files w') → keeps t kinds w w'.
Proof. intros Hin Hoff name Hn. eapply agree_off_lookup; [done|]. by apply Hn. Qed.

(** A record of another kind, or of another tenant, is not affected. *)
Lemma keeps_stored {T} `{Json T} t kinds w w' t' k key :
  keeps t kinds w w' → Forall (λ x, slash_free x = true) kinds → slash_free k = true →
  (k ∉ kinds ∨ t' ≠ t) → stored (files w') t' k key = stored (files w) t' k key.
Proof.
  intros Hk Hfree Hks Hne. apply stored_ext, Hk. intros k' key' Hin Heq.
  rewrite Forall_forall in Hfree.
  apply store_key_inj in Heq as (->&->&_); [|done|by apply Hfree].
  by destruct Hne.
Qed.
Lemma keeps_stored_bytes t kinds w w' t' k key :
  keeps t kinds w w' → Forall (λ x, slash_free x = true) kinds → slash_free k = true →
  (k ∉ kinds ∨ t' ≠ t) → stored_bytes (files w') t' k key = stored_bytes (files w) t' k key.
Proof.
  intros Hk Hfree Hks Hne. apply stored_bytes_ext, Hk. intros k' key' Hin Heq.
  rewrite Forall_forall in Hfree.
  apply store_key_inj in Heq as (->&->&_); [|done|by apply Hfree].
  by destruct Hne.
Qed.

(** ** The primitive operations *)

Lemma files_set_store s w : files (set_store s w) = b_view s.
Proof. done. Qed.
Lemma record_observation_files {E} o w : files (record_observation (E:=E) o w).2 = files w.
Proof. done. Qed.
Lemma record_observation_ok {E} o w :
  record_observation (E:=E) o w = (Ok tt, (record_observation (E:=E) o w).2).
Proof. done. Qed.
Lemma encrypt_payload_files t k b w : files (encrypt_payload sv t k b w).2 = files w.
Proof. unfold encrypt_payload, zoom. by destruct (encrypt_store_payload _ _ _ _ _). Qed.

Lemma on_store_run {A} (m : ST (bstate B) ApiError A) w :
  on_store m w = ((m (w_store w)).1, set_store (m (w_store w)).2 w).
Proof. unfold on_store, zoom. by destruct (m (w_store w)). Qed.

Lemma read_bytes_spec t k key w :
  files (read_encrypted_bytes sv t k key w).2 = files w ∧
  ∀ o, (read_encrypted_bytes sv t k key w).1 = Ok o → o = stored_bytes (files w) t k key ∧
       (o = None → files w !! store_key t k key = None).
Proof.
  unfold read_encrypted_bytes. rewrite ST_bind_run, on_store_run.
  destruct (b_read_view (store_key t k key) (w_store w)) as [Hv Hr].
  destruct (b_read B (store_key t k key) (w_store w)) as [[o|e] s] eqn:Er; cbn in *; [|done].
  specialize (Hr o eq_refl). unfold stored_bytes. fold (files w) in Hr. rewrite <-Hr.
  destruct o as [b|]; cbn; [|split; [done|]; intros ? [= <-]; done].
  rewrite ST_bind_run. unfold lift_result.
  destruct (from_slice b) as [env|e]; cbn; [|done].
  destruct (decrypt_store_payload (sv_kms sv) t k env) as [p|e]; cbn; [|done].
  split; [done|]. by intros ? [= <-].
Qed.

Lemma read_json_spec {T} `{Json T} t k key w :
  files (read_encrypted_json (T:=T) sv t k key w).2 = files w ∧
  ∀ o, (read_encrypted_json (T:=T) sv t k key w).1 = Ok o →
       o = stored (files w) t k key ∧ (o = None → files w !! store_key t k key = None).
Proof.
  unfold read_encrypted_json, stored. rewrite ST_bind_run.
  destruct (read_bytes_spec t k key w) as [Hf Ho].
  destruct (read_encrypted_bytes sv t k key w) as [[o|e] w1]; cbn in *; [|done].
  destruct (Ho o eq_refl) as [<- Hn]. destruct o as [b|]; cbn.
  - rewrite ST_bind_run. unfold lift_result. destruct (from_slice b); cbn; [|done].
    split; [done|]. by intros ? [= <-].
  - split; [done|]. intros ? [= <-]. auto.
Qed.

Lemma write_envelope_spec t k key env w :
  agree_off (store_key t k key) (files w) (files (write_envelope t k key env w).2) ∧
  ((write_envelope t k key env w).1 = Ok tt →
   ∃ b, to_vec_pretty env = Ok b ∧
        files (write_envelope t k key env w).2 = <[store_key t k key := b]> (files w)).
Proof.
  unfold write_envelope. rewrite ST_bind_run. unfold lift_result.
  destruct (to_vec_pretty env) as [b|e]; cbn; [|done]. rewrite on_store_run. cbn.
  destruct (b_write_view (store_key t k key) b (w_store w)) as [Ha Hi].
  split; [done|]. intros Hok. exists b. by rewrite files_set_store, Hi.
Qed.

Lemma write_bytes_spec t k key b w :
  agree_off (store_key t k key) (files w) (files (write_encrypted_bytes sv t k key b w).2) ∧
  ((write_encrypted_bytes sv t k key b w).1 = Ok tt →
   stored_bytes (files (write_encrypted_bytes sv t k key b w).2) t k key = Some b).
Proof.
  unfold write_encrypted_bytes. rewrite ST_bind_run. unfold attempt.
  pose proof (encrypt_payload_files t k b w) as Hf.
  destruct (encrypt_payload sv t k b w) as [[env|e] w1] eqn:Ee; cbn in Hf.
  - rewrite <-Hf. destruct (write_envelope_spec t k key env w1) as [Ha Hi].
    split; [done|]. intros Hok. destruct (Hi Hok) as (x&Hx&->).
    unfold encrypt_payload, zoom in Ee.
    destruct (encrypt_store_payload (sv_kms sv) t k b (w_draws w)) as [r d] eqn:Henc.
    injection Ee as -> _. by eapply stored_bytes_envelope.
  - cbn. by rewrite <-Hf.
Qed.

Lemma write_json_spec {T} `{Json T} `{!JsonLaws T} t k key (v : T) w :
  agree_off (store_key t k key) (files w) (files (write_encrypted_json sv t k key v w).2) ∧
  ((write_encrypted_json sv t k key v w).1 = Ok tt →
   stored (files (write_encrypted_json sv t k key v w).2) t k key = Some v).
Proof.
  unfold write_encrypted_json. rewrite ST_bind_run. unfold lift_result.
  destruct (to_vec_pretty v) as [b|e] eqn:Hb; cbn; [|done].
  destruct (write_bytes_spec t k key b w) as [Ha Hs]. split; [done|].
  intros Hok. unfold stored. rewrite (Hs Hok). cbn. by rewrite (from_slice_to_vec _ _ Hb).
Qed.

Lemma create_json_spec {T} `{Json T} `{!JsonLaws T} t k key (v : T) w :
  let r := create_encrypted_json sv t k key v w in
  agree_off (store_key t k key) (files w) (files r.2) ∧
  (is_Some (files w !! store_key t k key) → files r.2 = files w) ∧
  (r.1 = Ok true → files w !! store_key t k key = None ∧ stored (files r.2) t k key = Some v) ∧
  (r.1 = Ok false → files r.2 = files w).
Proof.
  cbn zeta. unfold create_encrypted_json. rewrite ST_bind_run. unfold lift_result.
  destruct (to_vec_pretty v) as [b|e] eqn:Hb; cbn; [|done].
  rewrite ST_bind_run. unfold attempt.
  pose proof (encrypt_payload_files t k b w) as Hf.
  destruct (encrypt_payload sv t k b w) as [[env|e] w1] eqn:Ee; cbn in Hf |- *;
    [|by rewrite Hf].
  rewrite <-Hf. unfold create_envelope. rewrite ST_bind_run. unfold lift_result.
  destruct (to_vec_pretty env) as [x|e] eqn:Hx; cbn; [|done]. rewrite on_store_run. cbn.
  destruct (b_create_view (store_key t k key) x (w_store w1)) as (Ha&Hk&Ht&Hfalse).
  split_and!; [done|done| |done]. intros Hok. destruct (Ht Hok) as [Hn Heq].
  split; [done|]. rewrite files_set_store, Heq. unfold encrypt_payload, zoom in Ee.
  destruct (encrypt_store_payload (sv_kms sv) t k b (w_draws w)) as [r d] eqn:Henc.
  injection Ee as -> _. unfold stored.
  rewrite (stored_bytes_envelope _ _ _ _ _ _ _ _ _ Henc Hx). cbn.
  by rewrite (from_slice_to_vec _ _ Hb).
Qed.

(** ** Successful runs *)

Lemma read_json_ok {T} `{Json T} t k key w (o : option T) w' :
  read_encrypted_json sv t k key w = (Ok o, w') →
  files w' = files w ∧ o = stored (files w) t k key ∧
  (o = None → files w !! store_key t k key = None).
Proof.
  intros Hr. destruct (read_json_spec (T:=T) t k key w) as [Hf Ho]. rewrite Hr in Hf, Ho.
  by destruct (Ho o eq_refl).
Qed.
Lemma read_bytes_ok t k key w o w' :
  read_encrypted_bytes sv t k key w = (Ok o, w') →
  files w' = files w ∧ o = stored_bytes (files w) t k key.
Proof.
  intros Hr. destruct (read_bytes_spec t k key w) as [Hf Ho]. rewrite Hr in Hf, Ho.
  by destruct (Ho o eq_refl).
Qed.
Lemma write_json_ok {T} `{Json T} `{!JsonLaws T} t k key (v : T) w u w' :
  write_encrypted_json sv t k key v w = (Ok u, w') →
  agree_off (store_key t k key) (files w) (files w') ∧ stored (files w') t k key = Some v.
Proof.
  intros Hr. destruct (write_json_spec t k key v w) as [Ha Hs]. rewrite Hr in Ha, Hs.
  destruct u. auto.
Qed.
Lemma write_bytes_ok t k key b w u w' :
  write_encrypted_bytes sv t k key b w = (Ok u, w') →
  agree_off (store_key t k key) (files w) (files w') ∧
  stored_bytes (files w') t k key = Some b.
Proof.
  intros Hr. destruct (write_bytes_spec t k key b w) as [Ha Hs]. rewrite Hr in Ha, Hs.
  destruct u. auto.
Qed.
Lemma manifest_record_ok t cid w r w' :
  manifest_record sv t cid w = (Ok r, w') →
  files w' = files w ∧ stored (files w) t "manifests" cid = Some r.
Proof.
  unfold manifest_record. intros (o&w1&(Hf&Ho&_)%read_json_ok&Hl)%ST_bind_ok.
  unfold lift_result in Hl. injection Hl as Hl <-. rewrite <-Ho.
  destruct o; by simplify_eq/=.
Qed.
Lemma chunk_exists_ok t cid w b w' :
  chunk_exists t cid w = (Ok b, w') →
  files w' = files w ∧ (b = true → is_Some (files w !! store_key t "chunks" cid)).
Proof.
  unfold chunk_exists.
  destruct (b_exists_view (store_key t "chunks" cid) (w_store w)) as [Hv Hs].
  destruct (b_exists B _ _) as [x s]. intros [= <- <-]. by rewrite files_set_store.
Qed.

(** ** Frames of the operations *)

Section frames.
Context (t : TenantId) (kinds : list string).

Lemma frame_same {E A} (m : ST (World B) E A) :
  (∀ w, files (m w).2 = files w) → preserves (keeps t kinds) m.
Proof. intros Hm w. by apply keeps_same. Qed.
Lemma frame_off {A} k key (m : ST (World B) ApiError A) :
  k ∈ kinds → (∀ w, agree_off (store_key t k key) (files w) (files (m w).2)) →
  preserves (keeps t kinds) m.
Proof. intros Hin Hm w. by eapply keeps_agree_off. Qed.

Lemma frame_now {E} : preserves (keeps t kinds) (now_ms (E:=E)).
Proof. by apply frame_same. Qed.
Lemma frame_elapsed {E} n : preserves (keeps t kinds) (elapsed_ms (E:=E) n).
Proof. by apply frame_same. Qed.
Lemma frame_observation {E} o : preserves (keeps t kinds) (record_observation (E:=E) o).
Proof. by apply frame_same. Qed.
Lemma frame_read_json {T} `{Json T} t' k key :
  preserves (keeps t kinds) (read_encrypted_json (T:=T) sv t' k key).
Proof. apply frame_same. intros w. apply read_json_spec. Qed.
Lemma frame_read_bytes t' k key :
  preserves (keeps t kinds) (read_encrypted_bytes sv t' k key).
Proof. apply frame_same. intros w. apply read_bytes_spec. Qed.
Lemma frame_write_json {T} `{Json T} `{!JsonLaws T} k key (v : T) :
  k ∈ kinds → preserves (keeps t kinds) (write_encrypted_json sv t k key v).
Proof. intros Hk. apply (frame_off k key); [done|]. intros w. apply write_json_spec. Qed.
Lemma frame_write_bytes k key b :
  k ∈ kinds → preserves (keeps t kinds) (write_encrypted_bytes sv t k key b).
Proof. intros Hk. apply (frame_off k key); [done|]. intros w. apply write_bytes_spec. Qed.
Lemma frame_create_json {T} `{Json T} `{!JsonLaws T} k key (v : T) :
  k ∈ kinds → preserves (keeps t kinds) (create_encrypted_json sv t k key v).
Proof. intros Hk. apply (frame_off k key); [done|]. intros w. apply create_json_spec. Qed.
Lemma frame_delete k key :
  k ∈ kinds → preserves (keeps t kinds) (delete_store_key t k key).
Proof.
  intros Hk. apply (frame_off k key); [done|]. intros w. unfold delete_store_key.
  rewrite on_store_run. apply b_delete_view.
Qed.
Lemma frame_chunk_exists t' cid : preserves (keeps t kinds) (chunk_exists t' cid).
Proof.
  apply frame_same. intros w. destruct (chunk_exists t' cid w) as [[b|e] w'] eqn:Hr.
  - by apply chunk_exists_ok in Hr as [? _].
  - unfold chunk_exists in Hr. by destruct (b_exists B _ _).
Qed.
End frames.
End facts.

(** [frame] proves [preserves (keeps t kinds) m] along the structure of [m]. *)
Ltac in_kinds := first [assumption | (refine (bool_decide_eq_true_1 _ _); vm_compute; reflexivity)].
Create HintDb hsp_frame.
#[export] Hint Resolve frame_now frame_elapsed frame_observation frame_read_json
  frame_read_bytes frame_write_json frame_write_bytes frame_create_json frame_delete
  frame_chunk_exists : hsp_frame.
#[export] Hint Extern 1 (_ ∈ _) => in_kinds : hsp_frame.
Ltac frame_step :=
  lazymatch goal with
  | |- ∀ _, _ => intros ?
  | |- preserves _ (match ?x with _ => _ end) => destruct x
  | |- preserves _ (mret _) => apply preserves_ret, _
  | |- preserves _ (throw _) => apply preserves_throw, _
  | |- preserves _ (lift_result _) => apply preserves_lift, _
  | |- preserves _ (_ ≫= _) => first [solve [eauto 3 with hsp_frame nocore] | apply preserves_bind; [apply _| |]]
  | |- preserves _ (attempt _) => apply preserves_attempt
  | |- preserves _ _ => solve [eauto 3 with hsp_frame nocore typeclass_instances]
  end.
Ltac frame := repeat (cbn zeta beta; frame_step).

Section events.
Context `{DL : DepsLaws} {B : Backend} `{BL : BackendLaws B} (sv : AlphaService).
Implicit Types w : World B.

Lemma frame_manifest_record t kinds t' cid :
  preserves (keeps (B:=B) t kinds) (manifest_record sv t' cid).
Proof. unfold manifest_record. frame. Qed.
Lemma frame_next_event_seq t kinds :
  "events" ∈ kinds → preserves (keeps (B:=B) t kinds) (next_event_seq sv t).
Proof. intros He. unfold next_event_seq. frame. Qed.
Lemma frame_append_event t kinds ev :
  "events" ∈ kinds → preserves (keeps (B:=B) t kinds) (append_event sv t ev).
Proof.
  intros He. unfold append_event, next_event_seq. frame.
Qed.
Lemma frame_write_audit t kinds seq op subject :
  "audit" ∈ kinds → preserves (keeps (B:=B) t kinds) (write_audit sv t seq op subject).
Proof. intros Ha. unfold write_audit. frame. Qed.
End events.
#[export] Hint Resolve frame_manifest_record frame_append_event frame_write_audit : hsp_frame.
