(* ===== verification/Access.v ===== *)
(** * hsp-service: authorization with a durable replay log

    Models [AlphaService::authorize], [observe_durable_replay] and
    [authorization_denied_api_error] of [crates/hsp-service/src/lib.rs]: the
    policy engine of [Auth.v] decides first, then a replay record is created in
    the encrypted store, so that replays are detected after a restart too. *)

From Stdlib Require Import ZArith Lia Ascii String Bool.
From stdpp Require Import base option list strings gmap numbers.
From S2P Require Import Prelude RustStr Path Core Cbor CborFacts Auth Crypto Store ServiceState ServiceFacts.

Section access.
Context `{Deps} {B : Backend} (sv : AlphaService).

Definition authorization_denied_api_error (meta : AuthRequestMeta) (reason : DenialReason)
  : ST (World B) ApiError ApiError :=
  let error := denial_to_api_error reason in
  _ ← record_observation
        {| ob_operation := "auth_denied"; ob_tenant_id := am_tenant_id meta;
           ob_namespace := am_namespace meta; ob_status_code := 403;
           ob_outcome := "auth_denied"; ob_latency_ms := 0;
           ob_object_size_bytes := am_content_size meta;
           ob_error_code := Some (err_code error) |};
  at_ms ← now_ms;
  _ ← attempt (append_event sv (am_tenant_id meta)
        {| ev_version := 1; ev_seq := 0; ev_at_ms := at_ms; ev_event_type := AuthDenied;
           ev_subject_kind := "auth"; ev_namespace := am_namespace meta;
           ev_path := am_path meta; ev_cid := None; ev_revision := None; ev_trace_id := None;
           ev_payload := {[ "code" := err_code error;
                            "operation" := operation_as_str (am_operation meta) ]} |})
      : ST (World B) ApiError (result ApiError Z);
  mret error.

Definition observe_durable_replay (auth : AuthContext) (meta : AuthRequestMeta)
  (decision : AuthorizationDecision) : ST (World B) ApiError AuthorizationDecision :=
  if negb (is_mutation (am_operation meta)) then mret decision
  else match jti (claims auth) with
  | None => mret decision
  | Some j =>
      let key := durable_replay_key (am_tenant_id meta) j (am_operation meta)
                   (am_subject meta) in
      observed_at_ms ← now_ms;
      created ← create_encrypted_json sv (am_tenant_id meta) "replay" key
        {| rp_tenant_id := am_tenant_id meta; rp_jti := j;
           rp_operation := operation_as_str (am_operation meta);
           rp_subject := am_subject meta;
           rp_idempotency_key := default "" (am_idempotency_key meta);
           rp_observed_at_ms := observed_at_ms |};
      if (created : bool) then mret decision
      else
      o ← read_encrypted_json sv (am_tenant_id meta) "replay" key;
      existing ← lift_result (ok_or o
        (storage_error "replay_record_missing"
           "replay record disappeared after create conflict"));
      if bool_decide (am_idempotency_key meta = Some (rp_idempotency_key existing))
      then mret (mkAuthorizationDecision IdempotentRetry)
      else
      error ← authorization_denied_api_error meta ReplayDetected;
      throw error
  end.

(** [AlphaService::authorize]: the policy engine reads the clock first. *)
Definition authorize_request (auth : AuthContext) (meta : AuthRequestMeta)
  : ST (World B) ApiError AuthorizationDecision :=
  now ← now_ms;
  r ← attempt (zoom w_replay set_replay (authorize now auth meta));
  match r with
  | Err reason => error ← authorization_denied_api_error meta reason; throw error
  | Ok decision => observe_durable_replay auth meta decision
  end.
End access.

(** ** Frames and successful runs *)

Definition access_kinds : list string := ["replay"; "events"].

Section facts.
Context `{DL : DepsLaws} {B : Backend} `{BL : BackendLaws B} (sv : AlphaService).
Implicit Types w : World B.

Lemma frame_denied meta reason kinds :
  "events" ∈ kinds →
  preserves (keeps (B:=B) (am_tenant_id meta) kinds)
    (authorization_denied_api_error sv meta reason).
Proof. intros He. unfold authorization_denied_api_error. frame. Qed.
#[local] Hint Resolve frame_denied : hsp_frame.

Lemma frame_durable_replay auth meta d kinds :
  "events" ∈ kinds → "replay" ∈ kinds →
  preserves (keeps (B:=B) (am_tenant_id meta) kinds) (observe_durable_replay sv auth meta d).
Proof. intros He Hr. unfold observe_durable_replay. frame. Qed.
#[local] Hint Resolve frame_durable_replay : hsp_frame.

Lemma frame_authorize auth meta kinds :
  "events" ∈ kinds → "replay" ∈ kinds →
  preserves (keeps (B:=B) (am_tenant_id meta) kinds) (authorize_request sv auth meta).
Proof.
  intros He Hr. unfold authorize_request. frame.
  apply frame_same. intros w. unfold zoom. by destruct (authorize _ _ _ _).
Qed.

(** A request that passes is permitted by the policy at the time of the check. *)
Lemma authorize_request_permitted auth meta w d w' :
  authorize_request sv auth meta w = (Ok d, w') →
  Permitted (clock (w_ticks w)) auth meta.
Proof.
  unfold authorize_request. rewrite ST_bind_run. cbn -[attempt zoom authorize].
  rewrite ST_bind_run. unfold attempt, zoom. rewrite authorize_spec. cbn -[observe].
  destruct (check_request (clock (w_ticks w)) auth meta) as [[]|e] eqn:Ec.
  - intros _. by apply check_request_ok.
  - rewrite ST_bind_run. destruct (authorization_denied_api_error sv meta e _) as [[]]; done.
Qed.
End facts.
#[export] Hint Resolve frame_authorize : hsp_frame.
