(* ===== verification/Namespaces.v ===== *)
(** * hsp-service: namespaces

    Models the namespace operations of [crates/hsp-service/src/lib.rs]: the
    current state, the journal and the revision counter of a namespace, signed
    bind and unbind with their preconditions, resolution (also at an earlier
    revision, by replaying the journal) and paged listing. *)

From Stdlib Require Import ZArith Lia Ascii String Bool.
From stdpp Require Import base option list strings gmap numbers sorting.
From S2P Require Import Prelude RustStr Path Core Cbor CborFacts Auth Crypto Store ServiceState ServiceFacts Access.

Definition invalid_path_error (code : string) (e : PathError) : ApiError :=
  mkApiError CatValidation code (path_error_to_string e).
Definition canonical_namespace_and_path (namespace path : string)
  : result ApiError (string * string) :=
  namespace ← map_err (invalid_path_error "invalid_namespace") (canonical_path namespace);
  path ← map_err (invalid_path_error "invalid_path") (canonical_path path);
  Ok (namespace, path).

Definition revision_conflict (message : string) : ApiError :=
  mkApiError CatConflict "revision_conflict" message.
Definition path_not_bound : ApiError :=
  mkApiError CatNotFound "path_not_bound" "namespace path is not bound".

(** The metadata of a request that is about a namespace path. *)
Definition namespace_meta (operation : OperationName) (tenant_id : TenantId)
  (namespace path : string) (idempotency_key : option string) : AuthRequestMeta :=
  {| am_operation := operation; am_tenant_id := tenant_id;
     am_subject := namespace +:+ ":" +:+ path; am_namespace := Some namespace;
     am_path := Some path; am_content_size := None; am_storage_class := None;
     am_key_policy_id := None; am_encryption_profile_id := None;
     am_metadata_visibility := None; am_idempotency_key := idempotency_key |}.

(** One step of the journal replay in [namespace_snapshot_at]. *)
Definition apply_journal_entry (bindings : gmap string NamespaceBindingState)
  (entry : NamespaceJournalEntry) : gmap string NamespaceBindingState :=
  let path := nm_path (je_record entry) in
  if je_tombstone entry then
    <[path := {| bn_path := path; bn_target_cid := None; bn_manifest_cid := None;
                 bn_revision := je_revision entry; bn_record_cid := je_record_cid entry;
                 bn_metadata := je_metadata entry; bn_tombstone := true |}]> bindings
  else if bool_decide (nm_kind (je_record entry) = KindHardDelete) then delete path bindings
  else
    <[path := {| bn_path := path; bn_target_cid := je_target_cid entry;
                 bn_manifest_cid := je_manifest_cid entry; bn_revision := je_revision entry;
                 bn_record_cid := je_record_cid entry; bn_metadata := je_metadata entry;
                 bn_tombstone := false |}]> bindings.
(** The loop, which stops at the first entry beyond the limit. *)
Fixpoint replay_journal (limit : Z) (bindings : gmap string NamespaceBindingState)
  (journal : list NamespaceJournalEntry) : gmap string NamespaceBindingState :=
  match journal with
  | [] => bindings
  | entry :: rest =>
      if limit <? je_revision entry then bindings
      else replay_journal limit (apply_journal_entry bindings entry) rest
  end.

(** [ResolveResponse] of a binding. *)
Definition resolve_response (binding : NamespaceBindingState) : ResolveResponse :=
  {| rs_revision := bn_revision binding; rs_target_cid := bn_target_cid binding;
     rs_manifest_cid := bn_manifest_cid binding; rs_record_cid := bn_record_cid binding;
     rs_metadata := bn_metadata binding; rs_tombstone := bn_tombstone binding |}.
(** The lookup and the revision precondition shared by [resolve] and
    [resolve_snapshot]. *)
Definition lookup_binding (snapshot : NamespaceCurrentState) (path : string)
  (if_revision : option Z) : result ApiError ResolveResponse :=
  binding ← ok_or (ns_bindings snapshot !! path) path_not_bound;
  match if_revision with
  | Some expected =>
      if negb (bn_revision binding =? expected) then
        Err (revision_conflict "namespace revision precondition failed")
      else Ok (resolve_response binding)
  | None => Ok (resolve_response binding)
  end.

Section namespaces.
Context `{Deps} {B : Backend} (sv : AlphaService).

Definition namespace_current_state (tenant_id : TenantId) (namespace : string)
  : ST (World B) ApiError NamespaceCurrentState :=
  o ← read_encrypted_json sv tenant_id "namespace-current" namespace;
  mret (default (mkNamespaceCurrentState namespace 0 ∅) o).
Definition write_namespace_current_state (tenant_id : TenantId) (namespace : string)
  (state : NamespaceCurrentState) : ST (World B) ApiError unit :=
  write_encrypted_json sv tenant_id "namespace-current" namespace state.
Definition namespace_journal (tenant_id : TenantId) (namespace : string)
  : ST (World B) ApiError (list NamespaceJournalEntry) :=
  o ← read_encrypted_json sv tenant_id "namespace-journal" namespace;
  mret (default [] o).
Definition append_namespace_journal (tenant_id : TenantId) (namespace : string)
  (entry : NamespaceJournalEntry) : ST (World B) ApiError unit :=
  journal ← namespace_journal tenant_id namespace;
  write_encrypted_json sv tenant_id "namespace-journal" namespace (journal ++ [entry]).
Definition next_namespace_revision (tenant_id : TenantId) (namespace : string)
  : ST (World B) ApiError Z :=
  o ← read_encrypted_json sv tenant_id "namespace-revisions" namespace;
  let revision := next_revision (default (mkNamespaceRevisionState 1) o) in
  _ ← write_encrypted_json sv tenant_id "namespace-revisions" namespace
        (mkNamespaceRevisionState (u64_add revision 1));
  mret revision.

Definition namespace_snapshot_at (tenant_id : TenantId) (namespace : string)
  (at_revision : option Z) : ST (World B) ApiError NamespaceCurrentState :=
  match at_revision with
  | None => namespace_current_state tenant_id namespace
  | Some limit =>
      journal ← namespace_journal tenant_id namespace;
      mret (mkNamespaceCurrentState namespace limit (replay_journal limit ∅ journal))
  end.

Definition resolve_snapshot (tenant_id : TenantId) (namespace path : string)
  (at_revision if_revision : option Z) : ST (World B) ApiError ResolveResponse :=
  '(namespace, path) ← lift_result (canonical_namespace_and_path namespace path);
  snapshot ← namespace_snapshot_at tenant_id namespace at_revision;
  lift_result (lookup_binding snapshot path if_revision).

(** [AlphaService::resolve]. *)
Definition resolve_op (auth : AuthContext) (request : ResolveRequest)
  : ST (World B) ApiError ResolveResponse :=
  '(namespace, path) ←
    lift_result (canonical_namespace_and_path (rq_namespace request) (rq_path request));
  _ ← authorize_request sv auth
        (namespace_meta OpResolve (rq_tenant_id request) namespace path None);
  snapshot ← namespace_snapshot_at (rq_tenant_id request) namespace (rq_at_revision request);
  lift_result (lookup_binding snapshot path (rq_if_revision request)).

Definition issuer_registry_missing : ApiError :=
  mkApiError CatPolicy "issuer_registry_missing"
    "signed namespace mutations require an issuer registry".
Definition signed_record_mismatch (op : string) : ApiError :=
  mkApiError CatAuth "signed_record_mismatch"
    ("signed namespace mutation does not match " +:+ op +:+ " request").

Definition verify_signed_bind_record (request : BindRequest) (namespace path : string)
  : result ApiError NamespaceMutationRecord :=
  registry ← ok_or (sv_issuer_registry sv) issuer_registry_missing;
  record ← verify_signed_namespace_record (br_signed_record_b64 request) registry;
  if negb (String.eqb (nm_tenant_id record) (br_tenant_id request))
     || negb (String.eqb (nm_namespace record) namespace)
     || negb (String.eqb (nm_path record) path)
     || negb (bool_decide (nm_kind record = KindBind))
     || negb (bool_decide (nm_target_cid record = Some (br_target_cid request)))
     || negb (bool_decide (nm_if_revision record = br_if_revision request))
     || negb (bool_decide (nm_ttl_ms record = br_ttl_ms request))
     || negb (bool_decide (nm_metadata record = br_metadata request))
  then Err (signed_record_mismatch "bind")
  else
  _ ← namespace_mutation_validate record;
  Ok record.

Definition verify_signed_unbind_record (request : UnbindRequest) (namespace path : string)
  : result ApiError NamespaceMutationRecord :=
  registry ← ok_or (sv_issuer_registry sv) issuer_registry_missing;
  record ← verify_signed_namespace_record (ur_signed_record_b64 request) registry;
  let expected_kind := if ur_hard_delete request then KindHardDelete else KindUnbind in
  if negb (String.eqb (nm_tenant_id record) (ur_tenant_id request))
     || negb (String.eqb (nm_namespace record) namespace)
     || negb (String.eqb (nm_path record) path)
     || negb (bool_decide (nm_kind record = expected_kind))
     || negb (bool_decide (nm_if_revision record = Some (ur_if_revision request)))
  then Err (signed_record_mismatch "unbind")
  else
  _ ← namespace_mutation_validate record;
  Ok record.

(** The preconditions of a bind against the existing binding of the path. *)
Definition check_bind_precondition (request : BindRequest)
  (existing : option NamespaceBindingState) : result ApiError unit :=
  if br_if_absent request
     && match existing with Some binding => negb (bn_tombstone binding) | None => false end
  then Err (revision_conflict "path is already bound")
  else match br_if_revision request with
       | Some expected =>
           let actual := match existing with Some binding => bn_revision binding | None => 0 end in
           if negb (actual =? expected)
           then Err (revision_conflict "namespace revision precondition failed")
           else Ok tt
       | None => Ok tt
       end.

(** The part of [bind_internal] after authorization and the idempotency lookup. *)
Definition apply_bind (request : BindRequest) (namespace path : string)
  (signed_record : NamespaceMutationRecord) : ST (World B) ApiError BindResponse :=
  let tenant_id := br_tenant_id request in
  if bool_decide (br_if_revision request = None) && negb (br_if_absent request) then
    throw (mkApiError CatConflict "precondition_required"
             "BIND requires if_revision or if_absent=true")
  else
  _ ← manifest_record sv tenant_id (br_target_cid request);
  current ← namespace_current_state tenant_id namespace;
  _ ← lift_result (check_bind_precondition request (ns_bindings current !! path));
  revision ← next_namespace_revision tenant_id namespace;
  let binding :=
    {| bn_path := path; bn_target_cid := Some (br_target_cid request);
       bn_manifest_cid := Some (br_target_cid request); bn_revision := revision;
       bn_record_cid := record_cid signed_record; bn_metadata := br_metadata request;
       bn_tombstone := false |} in
  _ ← write_namespace_current_state tenant_id namespace
        (mkNamespaceCurrentState (ns_namespace current) revision
           (<[path := binding]> (ns_bindings current)));
  _ ← append_namespace_journal tenant_id namespace
        {| je_revision := revision; je_record := signed_record;
           je_record_cid := bn_record_cid binding; je_target_cid := bn_target_cid binding;
           je_manifest_cid := bn_manifest_cid binding; je_metadata := bn_metadata binding;
           je_tombstone := false |};
  at_ms ← now_ms;
  event_seq ← append_event sv tenant_id
        {| ev_version := 1; ev_seq := 0; ev_at_ms := at_ms; ev_event_type := NamespaceBound;
           ev_subject_kind := "namespace"; ev_namespace := Some namespace;
           ev_path := Some path; ev_cid := Some (br_target_cid request);
           ev_revision := Some revision; ev_trace_id := None;
           ev_payload := br_metadata request |};
  _ ← write_audit sv tenant_id event_seq (operation_as_str OpBind)
        (namespace +:+ ":" +:+ path);
  mret (mkBindResponse revision (bn_record_cid binding) event_seq).

Definition bind_internal (auth : AuthContext) (request : BindRequest)
  (persist_idempotency : bool) : ST (World B) ApiError BindResponse :=
  let tenant_id := br_tenant_id request in
  '(namespace, path) ←
    lift_result (canonical_namespace_and_path (br_namespace request) (br_path request));
  signed_record ← lift_result (verify_signed_bind_record request namespace path);
  decision ← authorize_request sv auth
    (namespace_meta OpBind tenant_id namespace path (Some (br_idempotency_key request)));
  let idempotency_key := idempotency_key tenant_id "bind" (br_idempotency_key request) in
  previous ←
    (if persist_idempotency && bool_decide (replay_status decision = IdempotentRetry)
     then read_encrypted_json sv tenant_id "idempotency" idempotency_key
     else mret None);
  match previous with
  | Some record => mret (idem_response record)
  | None =>
      response ← apply_bind request namespace path signed_record;
      _ ← (if persist_idempotency
           then write_encrypted_json sv tenant_id "idempotency" idempotency_key
                  (mkIdempotencyRecord response)
           else mret tt);
      mret response
  end.

Definition bind (auth : AuthContext) (request : BindRequest) : ST (World B) ApiError BindResponse :=
  bind_internal auth request true.

(** The part of [unbind_internal] after authorization and the idempotency lookup,
    up to the response. *)
Definition apply_unbind (request : UnbindRequest) (namespace path : string)
  (signed_record : NamespaceMutationRecord) : ST (World B) ApiError UnbindResponse :=
  let tenant_id := ur_tenant_id request in
  current ← namespace_current_state tenant_id namespace;
  existing ← lift_result (ok_or (ns_bindings current !! path) path_not_bound);
  if negb (bn_revision existing =? ur_if_revision request) then
    throw (revision_conflict "namespace revision precondition failed")
  else
  revision ← next_namespace_revision tenant_id namespace;
  let tombstone := negb (ur_hard_delete request) in
  let bindings :=
    if tombstone then
      <[path := {| bn_path := path; bn_target_cid := None; bn_manifest_cid := None;
                   bn_revision := revision; bn_record_cid := record_cid signed_record;
                   bn_metadata := ∅; bn_tombstone := true |}]> (ns_bindings current)
    else delete path (ns_bindings current) in
  _ ← write_namespace_current_state tenant_id namespace
        (mkNamespaceCurrentState (ns_namespace current) revision bindings);
  _ ← append_namespace_journal tenant_id namespace
        {| je_revision := revision; je_record := signed_record;
           je_record_cid := record_cid signed_record; je_target_cid := None;
           je_manifest_cid := None; je_metadata := ∅; je_tombstone := tombstone |};
  at_ms ← now_ms;
  event_seq ← append_event sv tenant_id
        {| ev_version := 1; ev_seq := 0; ev_at_ms := at_ms;
           ev_event_type := if tombstone then NamespaceTombstoned else NamespaceUnbound;
           ev_subject_kind := "namespace"; ev_namespace := Some namespace;
           ev_path := Some path; ev_cid := None; ev_revision := Some revision;
           ev_trace_id := None; ev_payload := ∅ |};
  _ ← write_audit sv tenant_id event_seq (operation_as_str OpUnbind)
        (namespace +:+ ":" +:+ path);
  mret (mkUnbindResponse revision (record_cid signed_record) event_seq tombstone).

Definition unbind_observation (request : UnbindRequest) (namespace outcome : string)
  (latency : Z) : Observation :=
  {| ob_operation := "delete"; ob_tenant_id := ur_tenant_id request;
     ob_namespace := Some namespace; ob_status_code := 200; ob_outcome := outcome;
     ob_latency_ms := latency; ob_object_size_bytes := None; ob_error_code := None |}.

Definition unbind_internal (auth : AuthContext) (request : UnbindRequest)
  (persist_idempotency : bool) : ST (World B) ApiError UnbindResponse :=
  let tenant_id := ur_tenant_id request in
  started_at_ms ← now_ms;
  '(namespace, path) ←
    lift_result (canonical_namespace_and_path (ur_namespace request) (ur_path request));
  signed_record ← lift_result (verify_signed_unbind_record request namespace path);
  if ur_hard_delete request && negb (bool_decide (AdminRepair ∈ ops (claims auth))) then
    throw (mkApiError CatPolicy "hard_delete_requires_admin"
             "hard delete requires admin.repair scope")
  else
  decision ← authorize_request sv auth
    (namespace_meta OpUnbind tenant_id namespace path (Some (ur_idempotency_key request)));
  let idempotency_key := idempotency_key tenant_id "unbind" (ur_idempotency_key request) in
  previous ←
    (if persist_idempotency && bool_decide (replay_status decision = IdempotentRetry)
     then read_encrypted_json sv tenant_id "idempotency" idempotency_key
     else mret None);
  match previous with
  | Some record =>
      latency ← elapsed_ms started_at_ms;
      _ ← record_observation (unbind_observation request namespace "idempotent_retry" latency);
      mret (idem_response record)
  | None =>
      response ← apply_unbind request namespace path signed_record;
      _ ← (if persist_idempotency
           then write_encrypted_json sv tenant_id "idempotency" idempotency_key
                  (mkIdempotencyRecord response)
           else mret tt);
      latency ← elapsed_ms started_at_ms;
      _ ← record_observation
            (unbind_observation request namespace
               (if us_tombstone response then "tombstoned" else "hard_deleted") latency);
      mret response
  end.

Definition unbind (auth : AuthContext) (request : UnbindRequest)
  : ST (World B) ApiError UnbindResponse :=
  unbind_internal auth request true.

(** ** Listing *)

Definition binding_path_le (a b : NamespaceBindingState) : Prop :=
  String.le (bn_path a) (bn_path b).
#[global] Instance binding_path_le_dec : RelDecision binding_path_le.
Proof. intros a b. unfold binding_path_le. apply _. Defined.

(** The filters and the order of the items; [values()] iterates in key order. *)
Definition list_items (prefix : option string) (include_tombstones : bool)
  (snapshot : NamespaceCurrentState) : list NamespaceBindingState :=
  merge_sort binding_path_le
    (List.filter (λ b, include_tombstones || negb (bn_tombstone b))
       (List.filter (λ b, match prefix with
                          | None => true
                          | Some p => String.eqb (bn_path b) p
                                      || starts_with (p +:+ "/") (bn_path b)
                          end)
          (map snd (btree_iter (ns_bindings snapshot))))).

Definition list_item_of (namespace : string) (b : NamespaceBindingState) : ListItem :=
  {| li_namespace := namespace; li_path := bn_path b; li_target_cid := bn_target_cid b;
     li_manifest_cid := bn_manifest_cid b; li_revision := bn_revision b;
     li_record_cid := bn_record_cid b; li_metadata := bn_metadata b;
     li_tombstone := bn_tombstone b |}.

(** Where a page starts: after the last path of the previous one. *)
Definition list_start (items : list NamespaceBindingState) (last_path : option string) : nat :=
  match last_path with
  | Some path =>
      match list_find (λ b, bn_path b = path) items with
      | Some (index, _) => S index
      | None => O
      end
  | None => O
  end.
Definition list_page (items : list NamespaceBindingState) (start limit : nat)
  : list NamespaceBindingState * bool :=
  let page := take limit (drop start items) in
  (page, Nat.ltb (start + length page) (length items)).

Definition list_meta (tenant_id : TenantId) (namespace : string) (prefix : option string)
  : AuthRequestMeta :=
  {| am_operation := OpList; am_tenant_id := tenant_id;
     am_subject := "list:" +:+ namespace; am_namespace := Some namespace; am_path := prefix;
     am_content_size := None; am_storage_class := None; am_key_policy_id := None;
     am_encryption_profile_id := None; am_metadata_visibility := None;
     am_idempotency_key := None |}.

(** [AlphaService::list]. *)
Definition list_op (auth : AuthContext) (request : ListRequest)
  : ST (World B) ApiError ListResponse :=
  let tenant_id := lq_tenant_id request in
  namespace ← lift_result (map_err (invalid_path_error "invalid_namespace")
                                   (canonical_path (lq_namespace request)));
  prefix ← lift_result
    (match lq_prefix request with
     | Some value =>
         p ← map_err (invalid_path_error "invalid_prefix") (canonical_path value); Ok (Some p)
     | None => Ok None
     end);
  _ ← authorize_request sv auth (list_meta tenant_id namespace prefix);
  '(snapshot_revision, last_path) ←
    (match lq_cursor request with
     | Some encoded =>
         cursor ← lift_result (list_cursor_decode encoded);
         if negb (String.eqb (lc_tenant_id cursor) tenant_id)
            || negb (String.eqb (lc_namespace cursor) namespace)
            || negb (bool_decide (lc_prefix cursor = prefix))
         then throw (invalid_cursor "cursor does not match current list request")
         else mret (lc_snapshot_revision cursor, Some (lc_last_path cursor))
     | None =>
         current ← namespace_current_state tenant_id namespace;
         mret (ns_revision current, None)
     end);
  snapshot ← namespace_snapshot_at tenant_id namespace (Some snapshot_revision);
  let limit := Z.to_nat (default 100 (lq_limit request)) in
  let all_items := list_items prefix (lq_include_tombstones request) snapshot in
  let '(page, truncated) := list_page all_items (list_start all_items last_path) limit in
  mret {| ls_items := map (list_item_of namespace) page;
          ls_next_cursor :=
            if truncated
            then Some (list_cursor_encode
                   (mkListCursor tenant_id namespace prefix snapshot_revision
                      (match last page with Some b => bn_path b | None => "" end)))
            else None;
          ls_truncated := truncated;
          ls_namespace_revision_snapshot := snapshot_revision |}.
End namespaces.

(** ** Frames *)

Definition namespace_kinds : list string :=
  ["replay"; "events"; "namespace-revisions"; "namespace-current"; "namespace-journal";
   "audit"; "idempotency"].

Section frames.
Context `{DL : DepsLaws} {B : Backend} `{BL : BackendLaws B} (sv : AlphaService).

Lemma frame_apply_bind request ns path record kinds :
  namespace_kinds ⊆ kinds →
  preserves (keeps (B:=B) (br_tenant_id request) kinds)
    (apply_bind sv request ns path record).
Proof.
  intros Hk w. eapply keeps_weaken; [done|]. revert w.
  change (preserves (keeps (B:=B) (br_tenant_id request) namespace_kinds)
    (apply_bind sv request ns path record)).
  unfold apply_bind, namespace_current_state, next_namespace_revision,
    write_namespace_current_state, append_namespace_journal, namespace_journal. frame.
Qed.

Lemma frame_bind_internal auth request persist kinds :
  namespace_kinds ⊆ kinds →
  preserves (keeps (B:=B) (br_tenant_id request) kinds)
    (bind_internal sv auth request persist).
Proof.
  intros Hk w. eapply keeps_weaken; [done|]. revert w.
  change (preserves (keeps (B:=B) (br_tenant_id request) namespace_kinds)
    (bind_internal sv auth request persist)).
  unfold bind_internal. frame.
  - apply (frame_authorize sv auth (namespace_meta _ (br_tenant_id request) _ _ _)); in_kinds.
  - by apply frame_apply_bind.
Qed.

Lemma frame_apply_unbind request ns path record :
  preserves (keeps (B:=B) (ur_tenant_id request) namespace_kinds)
    (apply_unbind sv request ns path record).
Proof.
  unfold apply_unbind, namespace_current_state, next_namespace_revision,
    write_namespace_current_state, append_namespace_journal, namespace_journal. frame.
Qed.

Lemma frame_unbind_internal auth request persist :
  preserves (keeps (B:=B) (ur_tenant_id request) namespace_kinds)
    (unbind_internal sv auth request persist).
Proof.
  unfold unbind_internal. frame.
  - apply (frame_authorize sv auth (namespace_meta _ (ur_tenant_id request) _ _ _)); in_kinds.
  - by apply frame_apply_unbind.
Qed.

Lemma frame_snapshot_at t kinds t' ns at_revision :
  preserves (keeps (B:=B) t kinds) (namespace_snapshot_at sv t' ns at_revision).
Proof. unfold namespace_snapshot_at, namespace_current_state, namespace_journal. frame. Qed.
#[local] Hint Resolve frame_snapshot_at : hsp_frame.

Lemma frame_resolve_snapshot t kinds t' ns path r1 r2 :
  preserves (keeps (B:=B) t kinds) (resolve_snapshot sv t' ns path r1 r2).
Proof. unfold resolve_snapshot. frame. Qed.

Lemma frame_resolve_op auth request :
  preserves (keeps (B:=B) (rq_tenant_id request) access_kinds) (resolve_op sv auth request).
Proof.
  unfold resolve_op. frame.
  apply (frame_authorize sv auth (namespace_meta _ (rq_tenant_id request) _ _ _)); in_kinds.
Qed.

Lemma frame_list_op auth request :
  preserves (keeps (B:=B) (lq_tenant_id request) access_kinds) (list_op sv auth request).
Proof.
  unfold list_op, namespace_current_state. frame.
  apply (frame_authorize sv auth (list_meta (lq_tenant_id request) _ _)); in_kinds.
Qed.
End frames.
#[export] Hint Resolve frame_resolve_snapshot : hsp_frame.
