(* ===== verification/Objects.v ===== *)
(** * hsp-service: uploads and reads

    Models [put_init], [put_chunk], [put_commit], [head] and [get] of
    [crates/hsp-service/src/lib.rs] with the session, chunk and manifest records
    they keep in the encrypted store. *)

From Stdlib Require Import ZArith Lia Ascii String Bool.
From stdpp Require Import base option list strings gmap numbers sorting.
From S2P Require Import Prelude RustStr Path Core Cbor CborFacts Auth Crypto Store ServiceState ServiceFacts Access Namespaces.

Definition validation_error (code message : string) : ApiError :=
  mkApiError CatValidation code message.
Definition upload_session_not_found : ApiError :=
  mkApiError CatNotFound "upload_session_not_found" "upload session not found".

(** The checks of [put_init] before authorization. *)
Definition check_put_init (request : PutInitRequest) : result ApiError unit :=
  let descriptor := mf_encryption_descriptor (pi_manifest request) in
  _ ← manifest_validate (pi_manifest request);
  if negb (String.eqb (mf_tenant_id (pi_manifest request)) (pi_tenant_id request)) then
    Err (validation_error "manifest_tenant_mismatch"
           "manifest tenant_id must match request tenant_id")
  else if negb (String.eqb (ed_key_policy_id descriptor) (pi_key_policy_id request)) then
    Err (validation_error "manifest_key_policy_mismatch"
           "manifest encryption descriptor key_policy_id must match PUT_INIT key_policy_id")
  else if negb (String.eqb (ed_encryption_profile_id descriptor)
                           (pi_encryption_profile_id request)) then
    Err (validation_error "manifest_encryption_profile_mismatch"
           "manifest encryption descriptor encryption_profile_id must match PUT_INIT encryption_profile_id")
  else if negb (bool_decide (ed_metadata_visibility descriptor = pi_metadata_visibility request))
  then
    Err (validation_error "manifest_visibility_mismatch"
           "manifest metadata_visibility must match PUT_INIT metadata_visibility")
  else Ok tt.

Definition put_init_meta (request : PutInitRequest) (manifest_cid : string) : AuthRequestMeta :=
  {| am_operation := OpPutInit; am_tenant_id := pi_tenant_id request;
     am_subject := manifest_cid; am_namespace := ab_namespace <$> pi_atomic_bind request;
     am_path := ab_path <$> pi_atomic_bind request;
     am_content_size := Some (mf_stored_size (pi_manifest request));
     am_storage_class := Some (pi_storage_class request);
     am_key_policy_id := Some (pi_key_policy_id request);
     am_encryption_profile_id := Some (pi_encryption_profile_id request);
     am_metadata_visibility := Some (pi_metadata_visibility request);
     am_idempotency_key := Some (pi_idempotency_key request) |}.

Definition put_init_observation (request : PutInitRequest) (outcome : string) (latency : Z)
  : Observation :=
  {| ob_operation := "put_init"; ob_tenant_id := pi_tenant_id request;
     ob_namespace := ab_namespace <$> pi_atomic_bind request; ob_status_code := 200;
     ob_outcome := outcome; ob_latency_ms := latency;
     ob_object_size_bytes := Some (mf_stored_size (pi_manifest request));
     ob_error_code := None |}.

(** The metadata of [put_chunk] and [put_commit], from the upload session. *)
Definition session_meta (operation : OperationName) (session : UploadSessionRecord)
  (tenant_id : TenantId) (subject : string) (bind : option AtomicBindRequest) (size : Z)
  (idempotency_key : option string) : AuthRequestMeta :=
  let descriptor := mf_encryption_descriptor (us_manifest session) in
  {| am_operation := operation; am_tenant_id := tenant_id; am_subject := subject;
     am_namespace := ab_namespace <$> bind; am_path := ab_path <$> bind;
     am_content_size := Some size; am_storage_class := Some (us_storage_class session);
     am_key_policy_id := Some (ed_key_policy_id descriptor);
     am_encryption_profile_id := Some (ed_encryption_profile_id descriptor);
     am_metadata_visibility := None; am_idempotency_key := idempotency_key |}.

Definition put_chunk_observation (request : PutChunkRequest) (operation outcome : string)
  (status latency size : Z) (error : option string) : Observation :=
  {| ob_operation := operation; ob_tenant_id := pc_tenant_id request; ob_namespace := None;
     ob_status_code := status; ob_outcome := outcome; ob_latency_ms := latency;
     ob_object_size_bytes := Some size; ob_error_code := error |}.

(** The checks of [put_chunk] against the upload session. *)
Definition check_put_chunk (request : PutChunkRequest) (session : UploadSessionRecord)
  (ciphertext_chunk : bytes) : result ApiError unit :=
  if us_committed session then
    Err (mkApiError CatConflict "upload_session_already_committed"
           "upload session is already committed")
  else
  manifest_chunk ← ok_or
    (List.find (λ c, cr_chunk_index c =? pc_chunk_index request)
       (mf_chunk_refs (us_manifest session)))
    (validation_error "unknown_chunk_index"
       "chunk_index is not present in the upload session manifest");
  if negb (String.eqb (cr_cid manifest_chunk) (pc_chunk_cid request))
     || negb (cr_offset manifest_chunk =? pc_chunk_offset request)
     || negb (cr_stored_len manifest_chunk =? pc_chunk_length request)
  then Err (validation_error "chunk_descriptor_mismatch"
              "chunk descriptor does not match manifest chunk reference")
  else if negb (pc_chunk_length request =? len_u64 ciphertext_chunk) then
    Err (validation_error "chunk_length_mismatch"
           "PUT_CHUNK chunk_length must match the actual ciphertext payload length")
  else if max_chunk_size (info_limits info) <? len_u64 ciphertext_chunk then
    Err (validation_error "chunk_too_large" "ciphertext chunk exceeds max_chunk_size")
  else Ok tt.

Definition with_uploaded (session : UploadSessionRecord) (chunks : list Z) (committed : bool)
  : UploadSessionRecord :=
  {| us_session_id := us_session_id session; us_tenant_id := us_tenant_id session;
     us_manifest := us_manifest session; us_manifest_cid := us_manifest_cid session;
     us_idempotency_key := us_idempotency_key session;
     us_storage_class := us_storage_class session; us_atomic_bind := us_atomic_bind session;
     us_uploaded_chunks := chunks; us_committed := committed;
     us_created_at_ms := us_created_at_ms session;
     us_upload_deadline_ms := us_upload_deadline_ms session |}.
(** [if !contains { push; sort_unstable }]. *)
Definition add_uploaded (index : Z) (chunks : list Z) : list Z :=
  if bool_decide (index ∈ chunks) then chunks else merge_sort Z.le (chunks ++ [index]).

Definition missing_chunk (category : ApiErrorCategory) (cid : string) : ApiError :=
  mkApiError category "missing_chunk" ("missing ciphertext chunk " +:+ cid).

(** The bind request of a committed upload with an atomic bind. *)
Definition atomic_bind_request (request : PutCommitRequest) (object_cid : string)
  (atomic_bind : AtomicBindRequest) : BindRequest :=
  {| br_tenant_id := cm_tenant_id request; br_namespace := ab_namespace atomic_bind;
     br_path := ab_path atomic_bind; br_target_cid := object_cid;
     br_if_revision := ab_if_revision atomic_bind;
     br_if_absent := bool_decide (ab_if_revision atomic_bind = None);
     br_metadata := ab_metadata atomic_bind; br_ttl_ms := ab_ttl_ms atomic_bind;
     br_idempotency_key := cm_idempotency_key request;
     br_signed_record_b64 := ab_signed_record_b64 atomic_bind |}.

Definition put_commit_observation (request : PutCommitRequest) (session : UploadSessionRecord)
  (outcome : string) (latency : Z) : Observation :=
  {| ob_operation := "put"; ob_tenant_id := cm_tenant_id request;
     ob_namespace := ab_namespace <$> us_atomic_bind session; ob_status_code := 200;
     ob_outcome := outcome; ob_latency_ms := latency;
     ob_object_size_bytes := Some (mf_stored_size (us_manifest session));
     ob_error_code := None |}.

Section uploads.
Context `{Deps} {B : Backend} (sv : AlphaService).

(** [filter(|chunk| !self.chunk_exists(..)).map(|chunk| chunk.chunk_index)]. *)
Fixpoint missing_chunks (tenant_id : TenantId) (refs : list ChunkRef)
  : ST (World B) ApiError (list Z) :=
  match refs with
  | [] => mret []
  | chunk :: rest =>
      present ← chunk_exists tenant_id (cr_cid chunk);
      missing ← missing_chunks tenant_id rest;
      mret (if (present : bool) then missing else cr_chunk_index chunk :: missing)
  end.

Definition put_init (auth : AuthContext) (request : PutInitRequest)
  : ST (World B) ApiError PutInitResponse :=
  let tenant_id := pi_tenant_id request in
  started_at_ms ← now_ms;
  _ ← lift_result (check_put_init request);
  let manifest_cid := manifest_cid (pi_manifest request) in
  decision ← authorize_request sv auth (put_init_meta request manifest_cid);
  let idempotency_key := idempotency_key tenant_id "put_init" (pi_idempotency_key request) in
  previous ←
    (if bool_decide (replay_status decision = IdempotentRetry)
     then read_encrypted_json sv tenant_id "idempotency" idempotency_key
     else mret None);
  match previous with
  | Some record =>
      latency ← elapsed_ms started_at_ms;
      _ ← record_observation (put_init_observation request "idempotent_retry" latency);
      mret (idem_response record)
  | None =>
      missing ← missing_chunks tenant_id (mf_chunk_refs (pi_manifest request));
      created_at_ms ← now_ms;
      deadline_from ← now_ms;
      let session_record :=
        {| us_session_id := "session-" +:+ manifest_cid; us_tenant_id := tenant_id;
           us_manifest := pi_manifest request; us_manifest_cid := manifest_cid;
           us_idempotency_key := pi_idempotency_key request;
           us_storage_class := pi_storage_class request;
           us_atomic_bind := pi_atomic_bind request; us_uploaded_chunks := [];
           us_committed := false; us_created_at_ms := created_at_ms;
           us_upload_deadline_ms := u64_add deadline_from (15 * 60 * 1000) |} in
      _ ← write_encrypted_json sv tenant_id "sessions" (us_session_id session_record)
            session_record;
      let response :=
        {| pr_session_id := us_session_id session_record; pr_missing_chunks := missing;
           pr_accepted_manifest_cid := manifest_cid;
           pr_upload_deadline_ms := us_upload_deadline_ms session_record;
           pr_max_parallel_chunk_streams := max_parallel_chunk_streams (info_limits info) |} in
      _ ← write_encrypted_json sv tenant_id "idempotency" idempotency_key
            (mkIdempotencyRecord response);
      latency ← elapsed_ms started_at_ms;
      _ ← record_observation (put_init_observation request "ok" latency);
      mret response
  end.

Definition put_chunk (auth : AuthContext) (request : PutChunkRequest) (ciphertext_chunk : bytes)
  : ST (World B) ApiError PutChunkResponse :=
  let tenant_id := pc_tenant_id request in
  let size := len_u64 ciphertext_chunk in
  started_at_ms ← now_ms;
  if negb (String.eqb (cid_from_bytes ciphertext_chunk) (pc_chunk_cid request)) then
    latency ← elapsed_ms started_at_ms;
    _ ← record_observation
          (put_chunk_observation request "integrity_error" "integrity_error" 400 latency size
             (Some "chunk_cid_mismatch"));
    throw (validation_error "chunk_cid_mismatch"
             "chunk ciphertext CID does not match request.chunk_cid")
  else
  o ← read_encrypted_json sv tenant_id "sessions" (pc_session_id request);
  session ← lift_result (ok_or o upload_session_not_found);
  _ ← lift_result (check_put_chunk request session ciphertext_chunk);
  _ ← authorize_request sv auth
        (session_meta OpPutChunk session tenant_id
           (pc_session_id request +:+ ":" +:+ dec (pc_chunk_index request)) None size None);
  duplicate ← chunk_exists tenant_id (pc_chunk_cid request);
  _ ← (if (duplicate : bool) then mret tt
       else write_encrypted_bytes sv tenant_id "chunks" (pc_chunk_cid request)
              ciphertext_chunk);
  _ ← write_encrypted_json sv tenant_id "sessions" (pc_session_id request)
        (with_uploaded session
           (add_uploaded (pc_chunk_index request) (us_uploaded_chunks session))
           (us_committed session));
  latency ← elapsed_ms started_at_ms;
  _ ← record_observation
        (put_chunk_observation request "put_chunk" (if duplicate then "duplicate" else "ok")
           200 latency size None);
  mret (mkPutChunkResponse (negb duplicate) duplicate true).

(** The loop of [put_commit] over the chunk references. *)
Fixpoint require_chunks (tenant_id : TenantId) (refs : list ChunkRef)
  : ST (World B) ApiError unit :=
  match refs with
  | [] => mret tt
  | chunk :: rest =>
      present ← chunk_exists tenant_id (cr_cid chunk);
      if negb present then throw (missing_chunk CatConflict (cr_cid chunk))
      else require_chunks tenant_id rest
  end.

(** The bind of an upload with an atomic bind: a failure deletes the manifest
    record, and the deletion's own failure is ignored. *)
Definition commit_atomic_bind (auth : AuthContext) (request : PutCommitRequest)
  (record : ManifestRecord) (atomic_bind : option AtomicBindRequest)
  : ST (World B) ApiError unit :=
  match atomic_bind with
  | None => mret tt
  | Some bind =>
      r ← attempt (bind_internal sv auth
                     (atomic_bind_request request (mr_object_cid record) bind) false);
      match r with
      | Ok _ => mret tt
      | Err error =>
          _ ← attempt (delete_store_key (cm_tenant_id request) "manifests"
                         (mr_manifest_cid record))
              : ST (World B) ApiError (result ApiError unit);
          throw error
      end
  end.

Definition committed_event (request : PutCommitRequest) (session : UploadSessionRecord)
  (record : ManifestRecord) (at_ms : Z) : EventRecord :=
  {| ev_version := 1; ev_seq := 0; ev_at_ms := at_ms; ev_event_type := ObjectCommitted;
     ev_subject_kind := "object"; ev_namespace := ab_namespace <$> us_atomic_bind session;
     ev_path := ab_path <$> us_atomic_bind session; ev_cid := Some (mr_object_cid record);
     ev_revision := None; ev_trace_id := None;
     ev_payload := {[ "session_id" := cm_session_id request;
                      "manifest_cid" := mr_manifest_cid record ]} |}.

(** The part of [put_commit] after the idempotency lookup. *)
Definition apply_commit (auth : AuthContext) (request : PutCommitRequest)
  (session : UploadSessionRecord) : ST (World B) ApiError PutCommitResponse :=
  let tenant_id := cm_tenant_id request in
  _ ← require_chunks tenant_id (mf_chunk_refs (us_manifest session));
  committed_at_ms ← now_ms;
  let record :=
    {| mr_tenant_id := tenant_id; mr_manifest := us_manifest session;
       mr_manifest_cid := us_manifest_cid session; mr_object_cid := us_manifest_cid session;
       mr_storage_class := us_storage_class session; mr_committed_at_ms := committed_at_ms |} in
  _ ← write_encrypted_json sv tenant_id "manifests" (mr_manifest_cid record) record;
  _ ← commit_atomic_bind auth request record (us_atomic_bind session);
  at_ms ← now_ms;
  seq ← append_event sv tenant_id (committed_event request session record at_ms);
  _ ← write_audit sv tenant_id seq (operation_as_str OpPutCommit) (cm_session_id request);
  _ ← write_encrypted_json sv tenant_id "sessions" (cm_session_id request)
        (with_uploaded session (us_uploaded_chunks session) true);
  mret (mkPutCommitResponse (mr_object_cid record) true seq).

Definition put_commit (auth : AuthContext) (request : PutCommitRequest)
  : ST (World B) ApiError PutCommitResponse :=
  let tenant_id := cm_tenant_id request in
  started_at_ms ← now_ms;
  o ← read_encrypted_json sv tenant_id "sessions" (cm_session_id request);
  session ← lift_result (ok_or o upload_session_not_found);
  if negb (String.eqb (us_manifest_cid session) (cm_manifest_cid request)) then
    throw (mkApiError CatConflict "manifest_cid_mismatch"
             "request manifest_cid does not match upload session manifest")
  else
  decision ← authorize_request sv auth
    (session_meta OpPutCommit session tenant_id (cm_session_id request)
       (us_atomic_bind session) (mf_stored_size (us_manifest session))
       (Some (cm_idempotency_key request)));
  let idempotency_key := idempotency_key tenant_id "put_commit" (cm_idempotency_key request) in
  previous ←
    (if bool_decide (replay_status decision = IdempotentRetry)
     then read_encrypted_json sv tenant_id "idempotency" idempotency_key
     else mret None);
  match previous with
  | Some record =>
      latency ← elapsed_ms started_at_ms;
      _ ← record_observation
            (put_commit_observation request session "idempotent_retry" latency);
      mret (idem_response record)
  | None =>
      response ← apply_commit auth request session;
      _ ← write_encrypted_json sv tenant_id "idempotency" idempotency_key
            (mkIdempotencyRecord response);
      latency ← elapsed_ms started_at_ms;
      _ ← record_observation (put_commit_observation request session "ok" latency);
      mret response
  end.
End uploads.

(** ** Reads *)

Definition read_meta (operation : OperationName) (tenant_id : TenantId)
  (resolution : SelectorResolution) : AuthRequestMeta :=
  {| am_operation := operation; am_tenant_id := tenant_id;
     am_subject := sr_manifest_cid resolution; am_namespace := sr_namespace resolution;
     am_path := sr_path resolution; am_content_size := None; am_storage_class := None;
     am_key_policy_id := None; am_encryption_profile_id := None;
     am_metadata_visibility := None; am_idempotency_key := None |}.

Definition head_response (record : ManifestRecord) (resolution : SelectorResolution)
  : HeadResponse :=
  let manifest := mr_manifest record in
  let descriptor := mf_encryption_descriptor manifest in
  {| hr_exists := true; hr_deleted := false; hr_cid := mr_object_cid record;
     hr_object_cid := mr_object_cid record; hr_manifest_cid := mr_manifest_cid record;
     hr_integrity_hash := mr_object_cid record; hr_storage_class := mr_storage_class record;
     hr_resolved_namespace := sr_namespace resolution; hr_resolved_path := sr_path resolution;
     hr_resolved_revision := sr_revision resolution;
     hr_resolved_record_cid := sr_record_cid resolution;
     hr_size_bytes := mf_logical_size manifest;
     hr_ciphertext_size_bytes := mf_stored_size manifest;
     hr_logical_size := mf_logical_size manifest; hr_stored_size := mf_stored_size manifest;
     hr_content_type := mf_content_type manifest;
     hr_created_at_ms := mf_created_at_ms manifest;
     hr_encryption_profile_id := ed_encryption_profile_id descriptor;
     hr_key_policy_id := ed_key_policy_id descriptor;
     hr_metadata_visibility := ed_metadata_visibility descriptor;
     hr_server_visible_metadata := ed_server_visible_metadata descriptor;
     hr_encrypted_client_metadata_redacted :=
       negb (bool_decide (ed_encrypted_client_metadata descriptor = ∅)) |}.

Definition read_observation (operation outcome : string) (tenant_id : TenantId)
  (namespace : option string) (size latency : Z) : Observation :=
  {| ob_operation := operation; ob_tenant_id := tenant_id; ob_namespace := namespace;
     ob_status_code := 200; ob_outcome := outcome; ob_latency_ms := latency;
     ob_object_size_bytes := Some size; ob_error_code := None |}.

(** The range a request asks for, of an object of a given logical size. *)
Definition get_range (range : option RangeSpec) (logical_size : Z) : result ApiError (Z * Z) :=
  match range with
  | Some r =>
      if logical_size <=? range_end r then
        Err (validation_error "invalid_range" "range end is outside object logical size")
      else Ok (range_start r, range_end r)
  | None => Ok (0, u64_sat_sub logical_size 1)
  end.

(** The fragment of a chunk inside a range, [None] where the loop continues. *)
Definition chunk_fragment (range_start range_end : Z) (chunk : ChunkRef)
  : option GetChunkDescriptor :=
  let chunk_start := cr_offset chunk in
  let chunk_end := u64_sat_add (cr_offset chunk) (u64_sat_sub (cr_logical_len chunk) 1) in
  if (chunk_end <? range_start) || (range_end <? chunk_start) then None
  else
  let fragment_start := Z.max range_start chunk_start in
  let fragment_end := Z.min range_end chunk_end in
  Some {| gd_chunk_index := cr_chunk_index chunk; gd_chunk_cid := cr_cid chunk;
          gd_chunk_offset := cr_offset chunk; gd_logical_range_start := fragment_start;
          gd_logical_range_end := fragment_end;
          gd_fragment_offset := u64_sat_sub fragment_start chunk_start;
          gd_fragment_length := u64_sat_add (u64_sat_sub fragment_end fragment_start) 1;
          gd_content_encoding := cr_content_encoding chunk |}.

(** [bytes.get(start..end)]. *)
Definition slice_get (b : bytes) (from until : Z) : option bytes :=
  if (from <=? until) && (until <=? len_u64 b)
  then Some (take (Z.to_nat (until - from)) (drop (Z.to_nat from) b))
  else None.

Section reads.
Context `{Deps} {B : Backend} (sv : AlphaService).

(** A selector that passed [validate] has the fields the code [expect]s. *)
Definition selector_resolution (tenant_id : TenantId) (selector : ObjectSelector)
  : ST (World B) ApiError SelectorResolution :=
  match sel_kind selector with
  | SelCid => mret (mkSelectorResolution (default "" (sel_cid selector)) None None None None)
  | SelNamespace =>
      let namespace := default "" (sel_namespace selector) in
      let path := default "" (sel_path selector) in
      resolved ← resolve_snapshot sv tenant_id namespace path None None;
      if rs_tombstone resolved then
        throw (mkApiError CatNotFound "path_tombstoned" "namespace path is tombstoned")
      else
      manifest_cid ← lift_result (ok_or (rs_manifest_cid resolved)
        (mkApiError CatNotFound "path_not_bound"
           "namespace path does not resolve to a committed object"));
      mret (mkSelectorResolution manifest_cid (Some namespace) (Some path)
              (Some (rs_revision resolved)) (Some (rs_record_cid resolved)))
  end.

Definition head (auth : AuthContext) (request : HeadRequest)
  : ST (World B) ApiError HeadResponse :=
  let tenant_id := hq_tenant_id request in
  started_at_ms ← now_ms;
  _ ← lift_result (object_selector_validate (hq_selector request));
  resolution ← selector_resolution tenant_id (hq_selector request);
  _ ← authorize_request sv auth (read_meta OpHead tenant_id resolution);
  record ← manifest_record sv tenant_id (sr_manifest_cid resolution);
  let response := head_response record resolution in
  latency ← elapsed_ms started_at_ms;
  _ ← record_observation
        (read_observation "head" "ok" tenant_id (hr_resolved_namespace response)
           (hr_ciphertext_size_bytes response) latency);
  mret response.

(** The loop of [get] over the chunk references. *)
Fixpoint get_chunks (tenant_id : TenantId) (range_start range_end : Z) (refs : list ChunkRef)
  : ST (World B) ApiError (list GetChunk) :=
  match refs with
  | [] => mret []
  | chunk :: rest =>
      match chunk_fragment range_start range_end chunk with
      | None => get_chunks tenant_id range_start range_end rest
      | Some descriptor =>
          o ← read_encrypted_bytes sv tenant_id "chunks" (cr_cid chunk);
          b ← lift_result (ok_or o (missing_chunk CatNotFound (cr_cid chunk)));
          let end_offset := u64_add (gd_fragment_offset descriptor)
                                    (gd_fragment_length descriptor) in
          fragment ← lift_result
            (ok_or (slice_get b (gd_fragment_offset descriptor) end_offset)
               (validation_error "invalid_range"
                  "requested chunk fragment does not match stored ciphertext length"));
          others ← get_chunks tenant_id range_start range_end rest;
          mret (mkGetChunk descriptor fragment :: others)
      end
  end.

Definition get (auth : AuthContext) (request : GetRequest) : ST (World B) ApiError GetResponse :=
  let tenant_id := gq_tenant_id request in
  started_at_ms ← now_ms;
  _ ← lift_result (object_selector_validate (gq_selector request));
  _ ← lift_result (match gq_range request with
                   | Some range => range_validate range
                   | None => Ok tt
                   end);
  resolution ← selector_resolution tenant_id (gq_selector request);
  _ ← authorize_request sv auth (read_meta OpGet tenant_id resolution);
  record ← manifest_record sv tenant_id (sr_manifest_cid resolution);
  let preference := default PrefChunkStream (gq_preference request) in
  let meta := head_response record resolution in
  let observation outcome latency :=
    read_observation "get" outcome tenant_id (hr_resolved_namespace meta)
      (hr_ciphertext_size_bytes meta) latency in
  match preference with
  | PrefRaw =>
      throw (mkApiError CatUnsupported "unsupported_preference"
               "raw GET is not supported in public E2EE beta")
  | PrefManifestOnly =>
      latency ← elapsed_ms started_at_ms;
      _ ← record_observation (observation "manifest_only" latency);
      mret (mkGetResponse
              (mkGetResponseMeta meta preference (Some (mr_manifest record)) []) [])
  | PrefChunkStream =>
      '(range_start, range_end) ←
        lift_result (get_range (gq_range request) (mf_logical_size (mr_manifest record)));
      chunks ← get_chunks tenant_id range_start range_end
                 (mf_chunk_refs (mr_manifest record));
      latency ← elapsed_ms started_at_ms;
      _ ← record_observation (observation "chunk_stream" latency);
      mret (mkGetResponse
              (mkGetResponseMeta meta preference None (map gc_descriptor chunks)) chunks)
  end.
End reads.

(** ** Frames *)

Definition upload_kinds : list string := ["sessions"; "chunks"; "manifests"] ++ namespace_kinds.

Section frames.
Context `{DL : DepsLaws} {B : Backend} `{BL : BackendLaws B} (sv : AlphaService).

Lemma frame_missing_chunks t kinds t' refs :
  preserves (keeps (B:=B) t kinds) (missing_chunks t' refs).
Proof. induction refs; cbn [missing_chunks]; frame; auto. Qed.
Lemma frame_require_chunks t kinds t' refs :
  preserves (keeps (B:=B) t kinds) (require_chunks t' refs).
Proof. induction refs; cbn [require_chunks]; frame; auto. Qed.
Lemma frame_get_chunks t kinds t' a b refs :
  preserves (keeps (B:=B) t kinds) (get_chunks sv t' a b refs).
Proof. induction refs; cbn [get_chunks]; frame; auto. Qed.
#[local] Hint Resolve frame_missing_chunks frame_require_chunks frame_get_chunks : hsp_frame.

Lemma frame_put_init auth request :
  preserves (keeps (B:=B) (pi_tenant_id request) upload_kinds) (put_init sv auth request).
Proof.
  unfold put_init. frame. apply (frame_authorize sv auth (put_init_meta request _)); in_kinds.
Qed.

Lemma frame_put_chunk auth request chunk :
  preserves (keeps (B:=B) (pc_tenant_id request) upload_kinds)
    (put_chunk sv auth request chunk).
Proof.
  unfold put_chunk. frame.
  apply (frame_authorize sv auth (session_meta _ _ (pc_tenant_id request) _ _ _ _)); in_kinds.
Qed.

Lemma frame_commit_atomic_bind auth request record bind :
  preserves (keeps (B:=B) (cm_tenant_id request) upload_kinds)
    (commit_atomic_bind sv auth request record bind).
Proof.
  unfold commit_atomic_bind. frame.
  apply (frame_bind_internal sv auth (atomic_bind_request request _ _)). set_solver.
Qed.
#[local] Hint Resolve frame_commit_atomic_bind : hsp_frame.

Lemma frame_put_commit auth request :
  preserves (keeps (B:=B) (cm_tenant_id request) upload_kinds) (put_commit sv auth request).
Proof.
  unfold put_commit, apply_commit. frame.
  apply (frame_authorize sv auth (session_meta _ _ (cm_tenant_id request) _ _ _ _)); in_kinds.
Qed.

Lemma frame_selector_resolution t kinds t' sel :
  preserves (keeps (B:=B) t kinds) (selector_resolution sv t' sel).
Proof. unfold selector_resolution. frame. Qed.
#[local] Hint Resolve frame_selector_resolution : hsp_frame.

Lemma frame_head auth request :
  preserves (keeps (B:=B) (hq_tenant_id request) access_kinds) (head sv auth request).
Proof.
  unfold head. frame.
  apply (frame_authorize sv auth (read_meta _ (hq_tenant_id request) _)); in_kinds.
Qed.

Lemma frame_get auth request :
  preserves (keeps (B:=B) (gq_tenant_id request) access_kinds) (get sv auth request).
Proof.
  unfold get. frame.
  apply (frame_authorize sv auth (read_meta _ (gq_tenant_id request) _)); in_kinds.
Qed.
End frames.
