(* ===== verification/Subscribe.v ===== *)
(** * hsp-service: the event feed

    Models [subscribe_start], [subscribe_poll] and the readers of the event log
    of [crates/hsp-service/src/lib.rs]. *)

From Stdlib Require Import ZArith Lia Ascii String Bool.
From stdpp Require Import base option list strings gmap numbers sorting.
From S2P Require Import Prelude RustStr Path Core Cbor CborFacts Auth Crypto Store ServiceState ServiceFacts Access.

Definition event_matches_filter (event : EventRecord) (filter : SubscribeFilter) : bool :=
  match sf_namespace_prefix filter with
  | Some prefix =>
      match ev_namespace event with
      | None => false
      | Some ns => String.eqb ns prefix || starts_with (prefix +:+ "/") ns
      end
  | None => true
  end
  && match sf_path_exact filter with
     | Some path => bool_decide (ev_path event = Some path)
     | None => true
     end
  && match sf_object_cid filter with
     | Some cid => bool_decide (ev_cid event = Some cid)
     | None => true
     end
  && match sf_event_type filter with
     | Some event_type => bool_decide (ev_event_type event = event_type)
     | None => true
     end.

Definition subscribe_meta (tenant_id : TenantId) (subject : string)
  (namespace path : option string) : AuthRequestMeta :=
  {| am_operation := OpSubscribe; am_tenant_id := tenant_id; am_subject := subject;
     am_namespace := namespace; am_path := path; am_content_size := None;
     am_storage_class := None; am_key_policy_id := None; am_encryption_profile_id := None;
     am_metadata_visibility := None; am_idempotency_key := None |}.

(** The filtering and cursor step of [subscribe_poll]. *)
Definition matching_events (filters : list SubscribeFilter) (events : list EventRecord)
  : list EventRecord :=
  List.filter (λ event, bool_decide (filters = [])
                        || existsb (event_matches_filter event) filters) events.
Definition advance_cursor (cursor : EventCursor) (tenant_id : TenantId)
  (matching : list EventRecord) : EventCursor :=
  mkEventCursor tenant_id
    (match last matching with
     | Some event => u64_add (ev_seq event) 1
     | None => ec_next_seq cursor
     end).

Section subscribe.
Context `{Deps} {B : Backend} (sv : AlphaService).

(** One authorization per filter, in order. *)
Fixpoint authorize_filters (auth : AuthContext) (tenant_id : TenantId) (index : nat)
  (filters : list SubscribeFilter) : ST (World B) ApiError unit :=
  match filters with
  | [] => mret tt
  | filter :: rest =>
      _ ← authorize_request sv auth
            (subscribe_meta tenant_id ("events:filter:" +:+ dec (Z.of_nat index))
               (sf_namespace_prefix filter) (sf_path_exact filter));
      authorize_filters auth tenant_id (S index) rest
  end.

Definition ensure_event_cursor_within_window (tenant_id : TenantId) (from : Z)
  : ST (World B) ApiError unit :=
  latest_next_seq ← next_read_event_seq sv tenant_id;
  let oldest_allowed :=
    u64_sat_sub latest_next_seq (set_event_replay_window_sec (settings sv)) in
  if from <? oldest_allowed then
    throw (mkApiError CatValidation "cursor_expired"
             "event cursor is outside the replay window")
  else mret tt.

Definition subscribe_start (auth : AuthContext) (request : SubscribeRequest)
  : ST (World B) ApiError EventCursor :=
  let tenant_id := sq_tenant_id request in
  if existsb (λ f, match sf_tenant_scope f with
                   | Some scope => negb (String.eqb scope tenant_id)
                   | None => false
                   end) (sq_filters request)
  then throw (mkApiError CatPolicy "tenant_scope_mismatch"
                "subscribe filter tenant_scope must match request tenant_id")
  else
  _ ← (if bool_decide (sq_filters request = [])
       then _ ← authorize_request sv auth (subscribe_meta tenant_id "events" None None); mret tt
       else authorize_filters auth tenant_id 0 (sq_filters request));
  latest_next_seq ← next_read_event_seq sv tenant_id;
  from ← lift_result
    (match sq_cursor request with
     | Some encoded =>
         decoded ← event_cursor_decode encoded;
         if negb (String.eqb (ec_tenant_id decoded) tenant_id)
         then Err (invalid_cursor "event cursor tenant does not match request tenant")
         else Ok (ec_next_seq decoded)
     | None => Ok (default latest_next_seq (sq_from_seq request))
     end);
  _ ← ensure_event_cursor_within_window tenant_id from;
  mret (mkEventCursor tenant_id from).

(** The loop over the sequence numbers [seq], [seq + 1], ... with [count] left;
    it stops when [room] events were collected. *)
Fixpoint read_events (tenant_id : TenantId) (seq : Z) (count room : nat)
  : ST (World B) ApiError (list EventRecord) :=
  match count with
  | O => mret []
  | S count' =>
      match room with
      | O => mret []
      | S room' =>
          o ← read_encrypted_json sv tenant_id "events" (event_key seq);
          match o with
          | Some event =>
              rest ← read_events tenant_id (seq + 1) count' room'; mret (event :: rest)
          | None => read_events tenant_id (seq + 1) count' room
          end
      end
  end.
Definition read_event_records_after (tenant_id : TenantId) (from : Z) (batch_max : nat)
  : ST (World B) ApiError (list EventRecord) :=
  latest_next_seq ← next_read_event_seq sv tenant_id;
  read_events tenant_id from (Z.to_nat (latest_next_seq - from)) batch_max.

Definition subscribe_poll (auth : AuthContext) (request : SubscribeRequest)
  (cursor : EventCursor) : ST (World B) ApiError (list SubscribeEnvelope * EventCursor) :=
  let tenant_id := sq_tenant_id request in
  _ ← subscribe_start auth request;
  let batch_max := Z.to_nat (default 64 (sq_batch_max request)) in
  events ← read_event_records_after tenant_id (ec_next_seq cursor) batch_max;
  let filtered := matching_events (sq_filters request) events in
  let next_cursor := advance_cursor cursor tenant_id filtered in
  mret (match filtered with
        | [] =>
            [mkSubscribeEnvelope EnvNotice None
               (Some (mkNoticeFrame "heartbeat" None (Some (event_cursor_encode next_cursor))))]
        | _ => map (λ event, mkSubscribeEnvelope EnvEvent (Some event) None) filtered
        end, next_cursor).
End subscribe.

(** ** Frames *)

Section frames.
Context `{DL : DepsLaws} {B : Backend} `{BL : BackendLaws B} (sv : AlphaService).

Lemma frame_authorize_filters auth t i filters :
  preserves (keeps (B:=B) t access_kinds) (authorize_filters sv auth t i filters).
Proof.
  revert i. induction filters; intros i; cbn [authorize_filters]; frame.
  apply (frame_authorize sv auth (subscribe_meta t _ _ _)); in_kinds.
Qed.
Lemma frame_read_events t kinds t' seq count room :
  preserves (keeps (B:=B) t kinds) (read_events sv t' seq count room).
Proof.
  revert seq room. induction count; intros seq room; cbn [read_events]; frame; auto.
Qed.
#[local] Hint Resolve frame_authorize_filters frame_read_events : hsp_frame.

Lemma frame_subscribe_start auth request :
  preserves (keeps (B:=B) (sq_tenant_id request) access_kinds)
    (subscribe_start sv auth request).
Proof.
  unfold subscribe_start, ensure_event_cursor_within_window, next_read_event_seq. frame.
  apply (frame_authorize sv auth (subscribe_meta (sq_tenant_id request) _ _ _)); in_kinds.
Qed.
#[local] Hint Resolve frame_subscribe_start : hsp_frame.

Lemma frame_subscribe_poll auth request cursor :
  preserves (keeps (B:=B) (sq_tenant_id request) access_kinds)
    (subscribe_poll sv auth request cursor).
Proof. unfold subscribe_poll, read_event_records_after, next_read_event_seq. frame. Qed.
End frames.
