(* ===== verification/ConcreteService.v ===== *)
(** * Concrete parameters of the service for the witnesses

    A small self-delimiting serialiser stands in for [serde_json]: a record is
    the stream of its fields as strings.  Together with [Concrete.v] it
    instantiates [Deps] and [DepsLaws], so that the whole service can be run on
    concrete requests.  In-memory streams and the same serialiser for the frame
    structs do so for the frame codec.  It models nothing of the source. *)

From Stdlib Require Import ZArith Lia Ascii String Bool.
From stdpp Require Import base option list strings gmap numbers.
From S2P Require Import Prelude RustStr Path Core Cbor CborFacts Auth Crypto Concrete Store ServiceState Wire.

(** ** Field streams *)

Import Toy ToyKms.

Class Codec (A : Type) := {
  enc : A → list string;
  dec_opt : list string → option (A * list string);
  dec_enc : ∀ a r, dec_opt (enc a ++ r) = Some (a, r);
}.

#[export] Program Instance codec_string : Codec string :=
  {| enc := λ s, [s];
     dec_opt := λ l, match l with s :: r => Some (s, r) | [] => None end |}.
Next Obligation. done. Qed.

Fixpoint pos_bits (p : positive) : string :=
  match p with
  | xH => ""
  | xO q => String "0" (pos_bits q)
  | xI q => String "1" (pos_bits q)
  end.
Fixpoint bits_pos (s : string) : positive :=
  match s with
  | EmptyString => xH
  | String c s' => if Ascii.eqb c "0" then xO (bits_pos s') else xI (bits_pos s')
  end.
Definition z_string (z : Z) : string :=
  match z with
  | Z0 => ""
  | Zpos p => String "+" (pos_bits p)
  | Zneg p => String "-" (pos_bits p)
  end.
Definition string_z (s : string) : Z :=
  match s with
  | EmptyString => Z0
  | String c s' => if Ascii.eqb c "+" then Zpos (bits_pos s') else Zneg (bits_pos s')
  end.
Lemma bits_pos_bits p : bits_pos (pos_bits p) = p.
Proof. induction p as [p IH|p IH|]; cbn; by rewrite ?IH. Qed.
Lemma string_z_string z : string_z (z_string z) = z.
Proof. destruct z; cbn; by rewrite ?bits_pos_bits. Qed.

Definition codec_iso {A X} (C : Codec X) (f : A → X) (g : X → A) (Hgf : ∀ a, g (f a) = a)
  : Codec A.
Proof.
  refine {| enc := λ a, enc (f a);
            dec_opt := λ l, match dec_opt l with Some (x, r) => Some (g x, r) | None => None end |}.
  intros a r. by rewrite dec_enc, Hgf.
Defined.

#[export] Instance codec_Z : Codec Z := codec_iso codec_string z_string string_z string_z_string.
#[export] Instance codec_bool : Codec bool.
Proof.
  refine (codec_iso codec_Z (λ b : bool, if b then 1 else 0) (λ z, z =? 1) _). by intros [].
Defined.
#[export] Instance codec_prod {A B} `{Codec A, Codec B} : Codec (A * B).
Proof.
  refine {| enc := λ p, enc p.1 ++ enc p.2;
            dec_opt := λ l, match dec_opt l with
                            | Some (a, r) =>
                                match dec_opt r with
                                | Some (b, r') => Some ((a, b), r')
                                | None => None
                                end
                            | None => None
                            end |}.
  intros [a b] r. cbn. by rewrite <-(assoc_L (++)), !dec_enc.
Defined.
#[export] Instance codec_option {A} `{Codec A} : Codec (option A).
Proof.
  refine {| enc := λ o, match o with Some a => "1" :: enc a | None => ["0"] end;
            dec_opt := λ l, match l with
                            | "1" :: r => match dec_opt r with
                                          | Some (a, r') => Some (Some a, r')
                                          | None => None
                                          end
                            | "0" :: r => Some (None, r)
                            | _ => None
                            end |}.
  intros [a|] r; cbn; [by rewrite dec_enc|done].
Defined.

(** A list is its items, each announced by ["1"], then ["0"]. *)
Fixpoint dec_list {A} `{Codec A} (fuel : nat) (l : list string) : option (list A * list string) :=
  match fuel with
  | O => None
  | S f => match l with
           | "1" :: r =>
               match dec_opt r with
               | Some (a, r') => match dec_list f r' with
                                 | Some (x, r'') => Some (a :: x, r'')
                                 | None => None
                                 end
               | None => None
               end
           | "0" :: r => Some ([], r)
           | _ => None
           end
  end.
Fixpoint enc_list {A} `{Codec A} (x : list A) : list string :=
  match x with [] => ["0"] | a :: x' => "1" :: enc a ++ enc_list x' end.
Lemma dec_enc_list {A} `{Codec A} (x : list A) fuel r :
  (length x < fuel)%nat → dec_list fuel (enc_list x ++ r) = Some (x, r).
Proof.
  revert fuel. induction x as [|a x IH]; intros [|fuel] Hf; cbn in *; [lia|done|lia|].
  rewrite <-(assoc_L (++)), dec_enc, IH; [done|lia].
Qed.
Lemma enc_list_length {A} `{Codec A} (x : list A) : (length x < length (enc_list x))%nat.
Proof. induction x as [|a x IH]; cbn; [lia|]. rewrite length_app. lia. Qed.
#[export] Instance codec_list {A} `{Codec A} : Codec (list A).
Proof.
  refine {| enc := enc_list; dec_opt := λ l, dec_list (length l) l |}.
  intros x r. apply dec_enc_list. rewrite length_app. pose proof (enc_list_length x). lia.
Defined.
#[export] Instance codec_gmap {A} `{Codec A} : Codec (gmap string A).
Proof.
  refine (codec_iso (codec_list (A := string * A)) (λ m : gmap string A, map_to_list m)
            (λ l : list (string * A), list_to_map l : gmap string A) _).
  intros m. apply list_to_map_to_list.
Defined.

(** ** Bytes of a stream: every character is preceded by ["1"], every field ended by ["0"] *)

Fixpoint field_bytes (s : string) : bytes :=
  match s with
  | EmptyString => ["0"%char]
  | String c s' => "1"%char :: c :: field_bytes s'
  end.
Fixpoint parse_fields (b : bytes) (cur : bytes) : option (list string) :=
  match b with
  | [] => match cur with [] => Some [] | _ => None end
  | "0"%char :: r => rest ← parse_fields r []; Some (of_bytes (rev cur) :: rest)
  | "1"%char :: c :: r => parse_fields r (c :: cur)
  | _ => None
  end.
Definition stream_bytes (l : list string) : bytes := List.concat (map field_bytes l).

Lemma parse_field s cur r :
  parse_fields (field_bytes s ++ r) cur =
  (rest ← parse_fields r []; Some (of_bytes (rev cur ++ as_bytes s) :: rest)).
Proof.
  revert cur. induction s as [|c s IH]; intros cur; cbn [field_bytes app].
  - change (as_bytes "") with (@nil ascii). by rewrite app_nil_r.
  - cbn [parse_fields]. rewrite IH. cbn [rev]. by rewrite <-(assoc_L (++)).
Qed.
Lemma parse_stream l : parse_fields (stream_bytes l) [] = Some l.
Proof.
  induction l as [|s l IH]; [done|]. unfold stream_bytes in *. cbn [map List.concat].
  rewrite parse_field, IH. cbn -[of_bytes as_bytes]. by rewrite of_as_bytes.
Qed.

(** [serde_json] at a type with a codec. *)
#[local] Instance codec_json {A} `{Codec A} : Json A :=
  {| to_vec_pretty := λ a, Ok (stream_bytes (enc a));
     from_slice := λ b, match parse_fields b [] with
                        | Some l => match dec_opt l with
                                    | Some (a, []) => Ok a
                                    | _ => Err "trailing characters"
                                    end
                        | None => Err "expected value"
                        end |}.
#[local] Instance codec_json_laws {A} `{Codec A} : JsonLaws A.
Proof.
  intros a b Hb. cbn -[parse_fields] in *. injection Hb as <-. rewrite parse_stream.
  rewrite <-(app_nil_r (enc a)). by rewrite dec_enc.
Qed.

(** ** Codecs of the persisted types *)

Ltac solve_iso := by intros [].

#[export] Instance codec_visibility : Codec VisibilityMode.
Proof.
  refine (codec_iso codec_Z
    (λ v, match v with ServerVisible => 0 | EncryptedOnly => 1 | Split => 2 end)
    (λ z, if z =? 0 then ServerVisible else if z =? 1 then EncryptedOnly else Split) _).
  solve_iso.
Defined.
#[export] Instance codec_mutation_kind : Codec NamespaceMutationKind.
Proof.
  refine (codec_iso codec_Z
    (λ v, match v with KindBind => 0 | KindUnbind => 1 | KindHardDelete => 2 end)
    (λ z, if z =? 0 then KindBind else if z =? 1 then KindUnbind else KindHardDelete) _).
  solve_iso.
Defined.
#[export] Instance codec_event_type : Codec EventType.
Proof.
  refine (codec_iso codec_Z
    (λ v, match v with ObjectCommitted => 0 | NamespaceBound => 1 | NamespaceUnbound => 2
                     | NamespaceTombstoned => 3 | AuthDenied => 4 | PinAccepted => 5 end)
    (λ z, if z =? 0 then ObjectCommitted else if z =? 1 then NamespaceBound
          else if z =? 2 then NamespaceUnbound else if z =? 3 then NamespaceTombstoned
          else if z =? 4 then AuthDenied else PinAccepted) _).
  solve_iso.
Defined.
#[export] Instance codec_StoredEnvelope : Codec StoredEnvelope.
Proof.
  refine (codec_iso _
    (λ r, (env_key_version r, env_tenant_id r, env_store_kind r, env_wrapped_dek_b64 r,
           env_wrap_nonce_b64 r, env_data_nonce_b64 r, env_ciphertext_b64 r))
    (λ '(x0, x1, x2, x3, x4, x5, x6),
       mkStoredEnvelope x0 x1 x2 x3 x4 x5 x6) _).
  solve_iso.
Defined.
#[export] Instance codec_WrappedObjectKeyRecord : Codec WrappedObjectKeyRecord.
Proof.
  refine (codec_iso _
    (λ r, (wk_recipient_key_id r, wk_wrapping_suite r, wk_wrapped_key_b64 r,
           wk_key_version r, wk_encapsulated_key_b64 r))
    (λ '(x0, x1, x2, x3, x4),
       mkWrappedObjectKeyRecord x0 x1 x2 x3 x4) _).
  solve_iso.
Defined.
#[export] Instance codec_EncryptionDescriptor : Codec EncryptionDescriptor.
Proof.
  refine (codec_iso _
    (λ r, (ed_encryption_profile_id r, ed_key_policy_id r, ed_content_encryption_suite r,
           ed_key_wrapping_suite r, ed_metadata_visibility r, ed_wrapped_object_keys r,
           ed_server_visible_metadata r, ed_encrypted_client_metadata r))
    (λ '(x0, x1, x2, x3, x4, x5, x6, x7),
       mkEncryptionDescriptor x0 x1 x2 x3 x4 x5 x6 x7) _).
  solve_iso.
Defined.
#[export] Instance codec_ChunkRef : Codec ChunkRef.
Proof.
  refine (codec_iso _
    (λ r, (cr_chunk_index r, cr_cid r, cr_offset r, cr_logical_len r, cr_stored_len r,
           cr_content_encoding r))
    (λ '(x0, x1, x2, x3, x4, x5),
       mkChunkRef x0 x1 x2 x3 x4 x5) _).
  solve_iso.
Defined.
#[export] Instance codec_Manifest : Codec Manifest.
Proof.
  refine (codec_iso _
    (λ r, (mf_version r, mf_tenant_id r, mf_logical_size r, mf_stored_size r, mf_chunker r,
           mf_chunk_refs r, mf_content_type r, mf_created_at_ms r,
           mf_encryption_descriptor r))
    (λ '(x0, x1, x2, x3, x4, x5, x6, x7, x8),
       mkManifest x0 x1 x2 x3 x4 x5 x6 x7 x8) _).
  solve_iso.
Defined.
#[export] Instance codec_AtomicBindRequest : Codec AtomicBindRequest.
Proof.
  refine (codec_iso _
    (λ r, (ab_namespace r, ab_path r, ab_if_revision r, ab_metadata r, ab_ttl_ms r,
           ab_signed_record_b64 r))
    (λ '(x0, x1, x2, x3, x4, x5),
       mkAtomicBindRequest x0 x1 x2 x3 x4 x5) _).
  solve_iso.
Defined.
#[export] Instance codec_NamespaceMutationRecord : Codec NamespaceMutationRecord.
Proof.
  refine (codec_iso _
    (λ r, (nm_version r, nm_tenant_id r, nm_namespace r, nm_path r, nm_kind r,
           nm_target_cid r, nm_if_revision r, nm_ttl_ms r, nm_metadata r, nm_issued_at_ms r))
    (λ '(x0, x1, x2, x3, x4, x5, x6, x7, x8, x9),
       mkNamespaceMutationRecord x0 x1 x2 x3 x4 x5 x6 x7 x8 x9) _).
  solve_iso.
Defined.
#[export] Instance codec_UploadSessionRecord : Codec UploadSessionRecord.
Proof.
  refine (codec_iso _
    (λ r, (us_session_id r, us_tenant_id r, us_manifest r, us_manifest_cid r,
           us_idempotency_key r, us_storage_class r, us_atomic_bind r,
           us_uploaded_chunks r, us_committed r, us_created_at_ms r,
           us_upload_deadline_ms r))
    (λ '(x0, x1, x2, x3, x4, x5, x6, x7, x8, x9, x10),
       mkUploadSessionRecord x0 x1 x2 x3 x4 x5 x6 x7 x8 x9 x10) _).
  solve_iso.
Defined.
#[export] Instance codec_ManifestRecord : Codec ManifestRecord.
Proof.
  refine (codec_iso _
    (λ r, (mr_tenant_id r, mr_manifest r, mr_manifest_cid r, mr_object_cid r,
           mr_storage_class r, mr_committed_at_ms r))
    (λ '(x0, x1, x2, x3, x4, x5),
       mkManifestRecord x0 x1 x2 x3 x4 x5) _).
  solve_iso.
Defined.
#[export] Instance codec_PutInitResponse : Codec PutInitResponse.
Proof.
  refine (codec_iso _
    (λ r, (pr_session_id r, pr_missing_chunks r, pr_accepted_manifest_cid r,
           pr_upload_deadline_ms r, pr_max_parallel_chunk_streams r))
    (λ '(x0, x1, x2, x3, x4),
       mkPutInitResponse x0 x1 x2 x3 x4) _).
  solve_iso.
Defined.
#[export] Instance codec_PutCommitResponse : Codec PutCommitResponse.
Proof.
  refine (codec_iso _
    (λ r, (cmr_object_cid r, cmr_committed r, cmr_event_seq r))
    (λ '(x0, x1, x2),
       mkPutCommitResponse x0 x1 x2) _).
  solve_iso.
Defined.
#[export] Instance codec_BindResponse : Codec BindResponse.
Proof.
  refine (codec_iso _
    (λ r, (bs_revision r, bs_record_cid r, bs_event_seq r))
    (λ '(x0, x1, x2),
       mkBindResponse x0 x1 x2) _).
  solve_iso.
Defined.
#[export] Instance codec_UnbindResponse : Codec UnbindResponse.
Proof.
  refine (codec_iso _
    (λ r, (us_revision r, us_record_cid r, us_event_seq r, us_tombstone r))
    (λ '(x0, x1, x2, x3),
       mkUnbindResponse x0 x1 x2 x3) _).
  solve_iso.
Defined.
#[export] Instance codec_ReplayRecord : Codec ReplayRecord.
Proof.
  refine (codec_iso _
    (λ r, (rp_tenant_id r, rp_jti r, rp_operation r, rp_subject r, rp_idempotency_key r,
           rp_observed_at_ms r))
    (λ '(x0, x1, x2, x3, x4, x5),
       mkReplayRecord x0 x1 x2 x3 x4 x5) _).
  solve_iso.
Defined.
#[export] Instance codec_AuditRecord : Codec AuditRecord.
Proof.
  refine (codec_iso _
    (λ r, (au_seq r, au_tenant_id r, au_operation r, au_subject r, au_at_ms r))
    (λ '(x0, x1, x2, x3, x4),
       mkAuditRecord x0 x1 x2 x3 x4) _).
  solve_iso.
Defined.
#[export] Instance codec_SequenceState : Codec SequenceState.
Proof.
  refine (codec_iso _ next_seq mkSequenceState _). solve_iso.
Defined.
#[export] Instance codec_NamespaceBindingState : Codec NamespaceBindingState.
Proof.
  refine (codec_iso _
    (λ r, (bn_path r, bn_target_cid r, bn_manifest_cid r, bn_revision r, bn_record_cid r,
           bn_metadata r, bn_tombstone r))
    (λ '(x0, x1, x2, x3, x4, x5, x6),
       mkNamespaceBindingState x0 x1 x2 x3 x4 x5 x6) _).
  solve_iso.
Defined.
#[export] Instance codec_NamespaceCurrentState : Codec NamespaceCurrentState.
Proof.
  refine (codec_iso _
    (λ r, (ns_namespace r, ns_revision r, ns_bindings r))
    (λ '(x0, x1, x2),
       mkNamespaceCurrentState x0 x1 x2) _).
  solve_iso.
Defined.
#[export] Instance codec_NamespaceRevisionState : Codec NamespaceRevisionState.
Proof.
  refine (codec_iso _ next_revision mkNamespaceRevisionState _). solve_iso.
Defined.
#[export] Instance codec_NamespaceJournalEntry : Codec NamespaceJournalEntry.
Proof.
  refine (codec_iso _
    (λ r, (je_revision r, je_record r, je_record_cid r, je_target_cid r, je_manifest_cid r,
           je_metadata r, je_tombstone r))
    (λ '(x0, x1, x2, x3, x4, x5, x6),
       mkNamespaceJournalEntry x0 x1 x2 x3 x4 x5 x6) _).
  solve_iso.
Defined.
#[export] Instance codec_EventRecord : Codec EventRecord.
Proof.
  refine (codec_iso _
    (λ r, (ev_version r, ev_seq r, ev_at_ms r, ev_event_type r, ev_subject_kind r,
           ev_namespace r, ev_path r, ev_cid r, ev_revision r, ev_trace_id r, ev_payload r))
    (λ '(x0, x1, x2, x3, x4, x5, x6, x7, x8, x9, x10),
       mkEventRecord x0 x1 x2 x3 x4 x5 x6 x7 x8 x9 x10) _).
  solve_iso.
Defined.
#[export] Instance codec_idempotency {T} `{Codec T} : Codec (IdempotencyRecord T).
Proof. refine (codec_iso _ idem_response mkIdempotencyRecord _). solve_iso. Defined.

(** ** The parameters of the service *)

(** A token is the serialised record; the signature is the payload. *)
Definition concrete_cose : Cose :=
  {| cose_from_slice := λ b, Some (mkCoseSign1 (Some b) (as_bytes "key-1") b (λ _, b));
     ed25519_key_valid := λ _, true;
     ed25519_signature_valid := λ _, true;
     ed25519_verify := λ _ m s, bool_decide (m = s) |}.
Definition concrete_payload : CborPayload NamespaceMutationRecord :=
  {| payload_from_cbor := λ b, result_ok (from_slice b) |}.

#[local] Instance concrete_deps : Deps :=
  {| dep_cose := concrete_cose; dep_payload := concrete_payload;
     clock := λ n, 1500 + Z.of_nat n |}.
#[local] Instance concrete_deps_laws : DepsLaws.
Proof. split; apply _. Qed.

Module ToyService.
#[export] Existing Instances concrete_deps concrete_deps_laws.
End ToyService.

(** A service on the filesystem backend without faults, and its empty world. *)
Definition no_faults : nat → option (FaultPoint * string) := λ _, None.
Definition concrete_service : AlphaService :=
  mkAlphaService (mkAlphaConfig "localhost" "https://localhost/v1/" 443 "hsp-alpha-dev")
    sample_kms
    (Some (mkIssuerRegistry
       [ mkIssuerRecord "issuer" "key-1" "Ed25519" (nibbles_encode (replicate 32 "K"%char)) [] ])).
Definition empty_world (faults : nat → option (FaultPoint * string)) : World (fs_backend faults) :=
  @mkWorld (fs_backend faults) (mkFsState ∅ 0) 0 0 ∅ ∅ [].
(** The signed form of a namespace mutation for these parameters. *)
Definition sign_mutation (r : NamespaceMutationRecord) : string :=
  nibbles_encode (stream_bytes (enc r)).

(** A tenant's token, and a store that holds one committed object. *)
Definition sample_token (tenant : TenantId) (id : string) : AuthContext :=
  mkAuthContext
    {| iss := "issuer"; sub := "subject"; aud := "hsp"; exp := 20000; nbf := None;
       jti := Some id; ops := [ScopeRead; ScopeWrite; ScopeBind]; cl_tenant_id := tenant;
       cl_namespace_prefix := None; cl_path_prefix := None; cl_max_object_size := None;
       cl_storage_classes := []; cl_key_policy_id := None; cl_metadata_visibility := None |}
    (Some (mkChannelBindingProof "tls-exporter" "ZmFrZQ" "nonce-1")).
Definition sample_record : ManifestRecord :=
  mkManifestRecord "tenant-alpha" sample_manifest "sha256-object" "sha256-object" "hot" 1500.
Definition sample_world : World (fs_backend no_faults) :=
  (write_encrypted_json concrete_service "tenant-alpha" "manifests" "sha256-object"
     sample_record (empty_world no_faults)).2.

Definition sample_bind_record : NamespaceMutationRecord :=
  mkNamespaceMutationRecord 1 "tenant-alpha" "docs" "reports/q1" KindBind
    (Some "sha256-object") None None ∅ 1500.
Definition sample_bind : BindRequest :=
  {| br_tenant_id := "tenant-alpha"; br_namespace := "docs"; br_path := "reports/q1";
     br_target_cid := "sha256-object"; br_if_revision := None; br_if_absent := true;
     br_metadata := ∅; br_ttl_ms := None; br_idempotency_key := "idem-1";
     br_signed_record_b64 := sign_mutation sample_bind_record |}.
Definition sample_unbind : UnbindRequest :=
  {| ur_tenant_id := "tenant-alpha"; ur_namespace := "docs"; ur_path := "reports/q1";
     ur_if_revision := 1; ur_hard_delete := false; ur_idempotency_key := "idem-2";
     ur_signed_record_b64 := sign_mutation
       (mkNamespaceMutationRecord 1 "tenant-alpha" "docs" "reports/q1" KindUnbind None
          (Some 1) None ∅ 1600) |}.


(** * Concrete parameters of the frame codec for the witnesses

    In-memory streams and the field-stream serialiser above for
    the frame structs.  They model nothing of the source. *)

(** ** Streams in memory *)

Definition mem_writer : Writer :=
  mkWriter bytes (λ b s, (Ok tt, s ++ b)) (λ s, (Ok tt, s)).
Definition mem_reader : Reader :=
  mkReader bytes (λ n s, if Nat.leb n (length s) then (Ok (take n s), drop n s)
                         else (Err "early eof", [])).
#[export] Instance mem_writer_laws : WriterLaws mem_writer.
Proof. refine {| written := λ s : wstate mem_writer, s |}; cbn; congruence. Defined.
#[export] Instance mem_reader_laws : ReaderLaws mem_reader.
Proof.
  refine {| coming := λ s : rstate mem_reader, s |}. cbn. intros n s b s' H.
  destruct (Nat.leb_spec n (length s)); simplify_eq/=.
  split; [rewrite length_take; lia|]. by rewrite take_drop.
Defined.

(** ** Serialisers *)

#[export] Instance codec_category : Codec ApiErrorCategory.
Proof.
  refine (codec_iso codec_Z
    (λ c, match c with CatAuth => 0 | CatReplay => 1 | CatPolicy => 2 | CatValidation => 3
          | CatUnsupported => 4 | CatNotFound => 5 | CatConflict => 6 | CatStorage => 7 end)
    (λ z, default CatAuth ([CatAuth; CatReplay; CatPolicy; CatValidation; CatUnsupported;
                            CatNotFound; CatConflict; CatStorage] !! Z.to_nat z)) _).
  solve_iso.
Defined.
#[export] Instance codec_operation : Codec OperationName.
Proof.
  refine (codec_iso codec_Z
    (λ o, match o with OpInfo => 0 | OpHead => 1 | OpGet => 2 | OpResolve => 3 | OpBind => 4
          | OpUnbind => 5 | OpList => 6 | OpSubscribe => 7 | OpPutInit => 8 | OpPutChunk => 9
          | OpPutCommit => 10 end)
    (λ z, default OpInfo ([OpInfo; OpHead; OpGet; OpResolve; OpBind; OpUnbind; OpList;
                           OpSubscribe; OpPutInit; OpPutChunk; OpPutCommit] !! Z.to_nat z)) _).
  solve_iso.
Defined.
#[export] Instance codec_payload_mode : Codec PayloadMode.
Proof.
  refine (codec_iso codec_Z
    (λ m, match m with PmNone => 0 | PmJson => 1 | PmRaw => 2 | PmChunkStream => 3 end)
    (λ z, default PmNone ([PmNone; PmJson; PmRaw; PmChunkStream] !! Z.to_nat z)) _).
  solve_iso.
Defined.
#[export] Instance codec_WireErrorFrame : Codec WireErrorFrame.
Proof.
  refine (codec_iso _ (λ r, (we_category r, we_code r, we_message r))
            (λ '(x0, x1, x2), mkWireErrorFrame x0 x1 x2) _). solve_iso.
Defined.
#[export] Instance codec_NoticeFrame : Codec NoticeFrame.
Proof.
  refine (codec_iso _ (λ r, (no_kind r, no_message r, no_cursor r))
            (λ '(x0, x1, x2), mkNoticeFrame x0 x1 x2) _). solve_iso.
Defined.
#[export] Instance codec_GoAwayFrame : Codec GoAwayFrame.
Proof. refine (codec_iso _ ga_reason mkGoAwayFrame _). solve_iso. Defined.
#[export] Instance codec_ChannelBindingProof : Codec ChannelBindingProof.
Proof.
  refine (codec_iso _ (λ r, (cb_binding_kind r, cb_proof_b64 r, cb_nonce r))
            (λ '(x0, x1, x2), mkChannelBindingProof x0 x1 x2) _). solve_iso.
Defined.
#[export] Instance codec_AuthFrame : Codec AuthFrame.
Proof.
  refine (codec_iso _ (λ r, (af_token_b64 r, af_channel_binding r))
            (λ '(x0, x1), mkAuthFrame x0 x1) _). solve_iso.
Defined.
#[export] Instance codec_ReqHeader : Codec (ReqHeader string).
Proof.
  refine (codec_iso _
    (λ r, (rh_version _ r, rh_operation _ r, rh_request_id _ r, rh_payload_mode _ r,
           rh_payload_length _ r, rh_params _ r, rh_extensions _ r))
    (λ '(x0, x1, x2, x3, x4, x5, x6), mkReqHeader x0 x1 x2 x3 x4 x5 x6) _). solve_iso.
Defined.
#[export] Instance codec_ResHeader : Codec (ResHeader string).
Proof.
  refine (codec_iso _
    (λ r, (sh_version _ r, sh_status_code _ r, sh_request_id _ r, sh_payload_mode _ r,
           sh_payload_length _ r, sh_meta _ r, sh_extensions _ r))
    (λ '(x0, x1, x2, x3, x4, x5, x6), mkResHeader x0 x1 x2 x3 x4 x5 x6) _). solve_iso.
Defined.
#[export] Instance codec_SettingsFrame : Codec SettingsFrame.
Proof.
  refine (codec_iso _
    (λ r, (set_max_chunk_size r, set_max_manifest_size r, set_max_object_size r,
           set_max_parallel_streams r, set_supported_chunkers r,
           set_supported_content_encodings r, set_supported_token_profiles r,
           set_supported_extensions r, set_server_instance_id r,
           set_event_replay_window_sec r, set_limits_revision r))
    (λ '(x0, x1, x2, x3, x4, x5, x6, x7, x8, x9, x10),
       mkSettingsFrame x0 x1 x2 x3 x4 x5 x6 x7 x8 x9 x10) _). solve_iso.
Defined.

Definition codec_write {A} `{Codec A} (a : A) : result string bytes := Ok (stream_bytes (enc a)).
Definition codec_read {A} `{Codec A} (b : bytes) : result string A :=
  match parse_fields b [] with
  | Some l => match dec_opt l with Some (a, []) => Ok a | _ => Err "trailing data" end
  | None => Err "semantic error"
  end.
Lemma codec_read_write {A} `{Codec A} (a : A) b : codec_write a = Ok b → codec_read b = Ok a.
Proof.
  unfold codec_write, codec_read. intros [= <-]. rewrite parse_stream.
  rewrite <-(app_nil_r (enc a)). by rewrite dec_enc.
Qed.
#[local] Instance codec_serde {A} `{Codec A} : Serde A :=
  {| serde_write := codec_write; serde_read := codec_read |}.
#[local] Instance codec_serde_laws {A} `{Codec A} : SerdeLaws A.
Proof. intros a b. apply codec_read_write. Qed.

#[local] Instance concrete_wire : WireDeps string :=
  {| settings_write := codec_write;
     value_read := λ b, settings_value <$> codec_read b |}.
#[local] Instance concrete_wire_laws : WireDepsLaws string.
Proof.
  split; try apply _. intros s b Hb. cbn in *. by rewrite (codec_read_write _ _ Hb).
Qed.

Module ToyWire.
#[export] Existing Instances concrete_wire concrete_wire_laws.
End ToyWire.
