(* ===== verification/Service.v ===== *)
(** * hsp-service: the whole interface, and tenant isolation

    [ServiceCall] is the public interface of [AlphaService] as data and
    [run_call] its dispatch to the operations of [Objects.v], [Namespaces.v] and
    [Subscribe.v]; [run_calls] is a sequence of calls on one world.  The frames
    of the operations add up to the isolation of tenants. *)

From Stdlib Require Import ZArith Lia Ascii String Bool.
From stdpp Require Import base option list strings gmap numbers.
From S2P Require Import Prelude RustStr Path Core Cbor CborFacts Concrete Auth Crypto Store ServiceState ServiceFacts Access Namespaces Objects Subscribe ConcreteService.

Inductive ServiceCall :=
| CallPutInit (request : PutInitRequest)
| CallPutChunk (request : PutChunkRequest) (ciphertext_chunk : bytes)
| CallPutCommit (request : PutCommitRequest)
| CallHead (request : HeadRequest)
| CallGet (request : GetRequest)
| CallResolve (request : ResolveRequest)
| CallBind (request : BindRequest)
| CallUnbind (request : UnbindRequest)
| CallList (request : ListRequest)
| CallSubscribeStart (request : SubscribeRequest)
| CallSubscribePoll (request : SubscribeRequest) (cursor : EventCursor).

Definition call_tenant (c : ServiceCall) : TenantId :=
  match c with
  | CallPutInit r => pi_tenant_id r
  | CallPutChunk r _ => pc_tenant_id r
  | CallPutCommit r => cm_tenant_id r
  | CallHead r => hq_tenant_id r
  | CallGet r => gq_tenant_id r
  | CallResolve r => rq_tenant_id r
  | CallBind r => br_tenant_id r
  | CallUnbind r => ur_tenant_id r
  | CallList r => lq_tenant_id r
  | CallSubscribeStart r => sq_tenant_id r
  | CallSubscribePoll r _ => sq_tenant_id r
  end.

(** Forget the response. *)
Definition ignore {S E A} (m : ST S E A) : ST S E unit := _ ← m; mret tt.

Section calls.
Context `{Deps} {B : Backend} (sv : AlphaService).

Definition run_call (auth : AuthContext) (c : ServiceCall) : ST (World B) ApiError unit :=
  match c with
  | CallPutInit r => ignore (put_init sv auth r)
  | CallPutChunk r b => ignore (put_chunk sv auth r b)
  | CallPutCommit r => ignore (put_commit sv auth r)
  | CallHead r => ignore (head sv auth r)
  | CallGet r => ignore (get sv auth r)
  | CallResolve r => ignore (resolve_op sv auth r)
  | CallBind r => ignore (bind sv auth r)
  | CallUnbind r => ignore (unbind sv auth r)
  | CallList r => ignore (list_op sv auth r)
  | CallSubscribeStart r => ignore (subscribe_start sv auth r)
  | CallSubscribePoll r cursor => ignore (subscribe_poll sv auth r cursor)
  end.

(** A sequence of calls, whatever each of them returns. *)
Fixpoint run_calls (calls : list (AuthContext * ServiceCall)) (w : World B) : World B :=
  match calls with
  | [] => w
  | (auth, c) :: rest => run_calls rest (run_call auth c w).2
  end.
End calls.

(** ** Operations that are denied

    [denies kinds m]: [m] fails and, until it does, touches only records of these
    kinds. *)
Definition denies {B} `{BL : BackendLaws B} `{Deps} {A} (t : TenantId) (kinds : list string)
  (m : ST (World B) ApiError A) : Prop :=
  ∀ w, is_ok (m w).1 = false ∧ keeps t kinds w (m w).2.

Section denied.
Context `{DL : DepsLaws} {B : Backend} `{BL : BackendLaws B} (sv : AlphaService).
Context (t : TenantId) (kinds : list string).
Implicit Types w : World B.

Lemma denies_bind {A A'} (m : ST (World B) ApiError A) (f : A → ST (World B) ApiError A') :
  preserves (keeps t kinds) m → (∀ a, denies t kinds (f a)) → denies t kinds (m ≫= f).
Proof.
  intros Hm Hf w. rewrite ST_bind_run. specialize (Hm w).
  destruct (m w) as [[a|e] w1]; cbn in *; [|done]. destruct (Hf a w1) as [Hn Hk].
  split; [done|]. by etrans.
Qed.
Lemma denies_head {A A'} (m : ST (World B) ApiError A) (f : A → ST (World B) ApiError A') :
  denies t kinds m → denies t kinds (m ≫= f).
Proof.
  intros Hm w. rewrite ST_bind_run. destruct (Hm w) as [Hn Hk].
  destruct (m w) as [[a|e] w1]; cbn in *; [done|auto].
Qed.
Lemma denies_throw {A} e : denies t kinds (throw e : ST (World B) ApiError A).
Proof. intros w. cbn. split; [done|]. reflexivity. Qed.
Lemma denies_ignore {A} (m : ST (World B) ApiError A) :
  denies t kinds m → denies t kinds (ignore m).
Proof. apply denies_head. Qed.
Lemma denies_observed {A} (m : ST (World B) ApiError unit) e :
  preserves (keeps t kinds) m → denies t kinds (m ≫= λ _, throw e : ST (World B) ApiError A).
Proof. intros Hm. apply denies_bind; [done|]. intros _. apply denies_throw. Qed.

(** A token of another tenant is denied, with one [AuthDenied] event at most. *)
Lemma authorize_foreign auth meta :
  cl_tenant_id (claims auth) ≠ am_tenant_id meta → am_tenant_id meta = t →
  "events" ∈ kinds → denies t kinds (authorize_request sv auth meta).
Proof.
  intros Hne <- Hin w. split.
  - destruct (authorize_request sv auth meta w) as [[d|e] w'] eqn:Ha; [|done].
    apply authorize_request_permitted in Ha. destruct Ha. done.
  - unfold authorize_request. rewrite ST_bind_run. cbn -[attempt zoom authorize].
    rewrite ST_bind_run. unfold attempt, zoom. rewrite authorize_spec.
    destruct (check_request _ auth meta) as [[]|e] eqn:Ec.
    + apply check_request_ok in Ec as []. done.
    + cbn. etrans; [|apply (preserves_bind (keeps (am_tenant_id meta) kinds))].
      * by apply keeps_same.
      * by apply frame_denied.
      * intros ?. apply preserves_throw, _.
Qed.
End denied.

(** Skip reads and checks until the authorization, which denies. *)
Ltac deny_step :=
  lazymatch goal with
  | |- ∀ _, _ => intros ?
  | |- denies _ _ (match ?x with _ => _ end) => destruct x
  | |- denies _ _ (throw _) => apply denies_throw
  | |- denies _ _ (authorize_request _ _ _ ≫= _) =>
      apply denies_head, authorize_foreign; [done|done|in_kinds]
  | |- denies _ _ (_ ≫= _) => apply denies_bind; [solve [frame]|]
  end.
Ltac deny := repeat (cbn zeta beta; deny_step).

Section foreign.
Context `{DL : DepsLaws} {B : Backend} `{BL : BackendLaws B} (sv : AlphaService).

Lemma foreign_filters auth t i f filters :
  cl_tenant_id (claims auth) ≠ t →
  denies (B:=B) t ["events"] (authorize_filters sv auth t i (f :: filters)).
Proof. intros Hne. cbn [authorize_filters]. deny. Qed.

Lemma foreign_subscribe_start auth request :
  cl_tenant_id (claims auth) ≠ sq_tenant_id request →
  denies (B:=B) (sq_tenant_id request) ["events"] (subscribe_start sv auth request).
Proof.
  intros Hne. unfold subscribe_start. destruct (existsb _ _); [apply denies_throw|].
  apply denies_head. destruct (sq_filters request) as [|f l].
  - rewrite bool_decide_eq_true_2 by done. deny.
  - rewrite bool_decide_eq_false_2 by done. by apply foreign_filters.
Qed.

Lemma frame_selector t kinds t' sel :
  preserves (keeps (B:=B) t kinds) (selector_resolution sv t' sel).
Proof. apply frame_selector_resolution. Qed.
#[local] Hint Resolve frame_selector : hsp_frame.

Lemma run_call_foreign auth c :
  cl_tenant_id (claims auth) ≠ call_tenant c →
  denies (B:=B) (call_tenant c) ["events"] (run_call sv auth c).
Proof.
  intros Hne. destruct c; cbn [run_call call_tenant] in *; apply denies_ignore.
  - unfold put_init. deny.
  - unfold put_chunk. deny.
  - unfold put_commit. deny.
  - unfold head. deny.
  - unfold get. deny.
  - unfold resolve_op. deny.
  - unfold bind, bind_internal. deny.
  - unfold unbind, unbind_internal. deny.
  - unfold list_op. deny.
  - by apply foreign_subscribe_start.
  - unfold subscribe_poll. by apply denies_head, foreign_subscribe_start.
Qed.

Lemma preserves_ignore {S E A} (R : S → S → Prop) `{!PreOrder R} (m : ST S E A) :
  preserves R m → preserves R (ignore m).
Proof. intros Hm. apply preserves_bind; [done|done|]. intros _. by apply preserves_ret. Qed.

Lemma frame_weaken {E A} t kinds kinds' (m : ST (World B) E A) :
  kinds ⊆ kinds' → preserves (keeps t kinds) m → preserves (keeps t kinds') m.
Proof. intros Hsub Hm w. by eapply keeps_weaken. Qed.

Lemma run_call_frame auth c :
  preserves (keeps (B:=B) (call_tenant c) store_kinds) (run_call sv auth c).
Proof.
  destruct c; cbn [run_call call_tenant]; apply preserves_ignore; try apply _.
  - eapply frame_weaken, frame_put_init. set_solver.
  - eapply frame_weaken, frame_put_chunk. set_solver.
  - eapply frame_weaken, frame_put_commit. set_solver.
  - eapply frame_weaken, frame_head. set_solver.
  - eapply frame_weaken, frame_get. set_solver.
  - eapply frame_weaken, frame_resolve_op. set_solver.
  - eapply (frame_bind_internal sv auth request true). set_solver.
  - eapply frame_weaken, frame_unbind_internal. set_solver.
  - eapply frame_weaken, frame_list_op. set_solver.
  - eapply frame_weaken, frame_subscribe_start. set_solver.
  - eapply frame_weaken, frame_subscribe_poll. set_solver.
Qed.

Lemma store_kinds_slash_free : Forall (λ k, slash_free k = true) store_kinds.
Proof. repeat constructor. Qed.

(** The files of a tenant are not named by the keys of another. *)
Lemma keeps_other_tenant t t' kinds w w' k key :
  keeps (B:=B) t kinds w w' → Forall (λ x, slash_free x = true) kinds →
  slash_free k = true → t' ≠ t →
  files w' !! store_key t' k key = files w !! store_key t' k key.
Proof.
  intros Hk Hfree Hks Hne. apply Hk. intros k' key' Hin Heq.
  rewrite Forall_forall in Hfree. apply store_key_inj in Heq as (_&->&_); [done|done|].
  by apply Hfree, list_elem_of_In.
Qed.

(** ** Properties *)

(** C1: tenant isolation.  Whatever sequence of calls is made for other tenants,
    with whatever tokens, results and backend errors, every file of a tenant is
    what it was: no other tenant's call creates, changes or deletes it. *)
Theorem tenant_isolation calls w t k key :
  Forall (λ ac, call_tenant ac.2 ≠ t) calls → slash_free k = true →
  files (run_calls (B:=B) sv calls w) !! store_key t k key = files w !! store_key t k key.
Proof.
  intros Hcalls Hk. revert w. induction Hcalls as [|[auth c] calls Hc _ IH]; intros w; [done|].
  cbn [run_calls]. rewrite IH. cbn in Hc.
  eapply keeps_other_tenant; [apply run_call_frame|apply store_kinds_slash_free|done|done].
Qed.

(** A token of another tenant is useless.  Every call whose tenant is not the
    token's fails, whatever the operation, and touches nothing but the event log
    of the tenant it names, which receives the denial. *)
Theorem foreign_token_denied auth c w :
  cl_tenant_id (claims auth) ≠ call_tenant c →
  ∃ e w', run_call (B:=B) sv auth c w = (Err e, w') ∧
    ∀ t k key, slash_free k = true → (t, k) ≠ (call_tenant c, "events") →
      files w' !! store_key t k key = files w !! store_key t k key.
Proof.
  intros Hne. destruct (run_call_foreign auth c Hne w) as [Hn Hk].
  destruct (run_call sv auth c w) as [[u|e] w']; [done|]. exists e, w'. split; [done|].
  intros t k key Hks Htk. apply Hk. intros k' key' ->%list_elem_of_singleton Heq.
  by apply store_key_inj in Heq as (->&->&_).
Qed.
End foreign.

Import ToyService.

Definition sample_resolve (tenant : TenantId) : ServiceCall :=
  CallResolve (mkResolveRequest tenant "docs" "reports/q1" None None).

(** Witness of C1: calls of tenant-beta, one of them denied, on tenant-alpha. *)
Lemma tenant_isolation_witness :
  let calls := [(sample_token "tenant-beta" "j1", sample_resolve "tenant-beta");
                (sample_token "tenant-alpha" "j2", sample_resolve "tenant-beta")] in
  let w := empty_world no_faults in
  files (run_calls concrete_service calls w) !! store_key "tenant-alpha" "events" "sequence"
  = files w !! store_key "tenant-alpha" "events" "sequence".
Proof.
  apply (tenant_isolation concrete_service); [|reflexivity].
  repeat constructor; cbn; congruence.
Defined.

