(* ===== verification/NamespaceSpec.v ===== *)
(** * Specification of a namespace and its refinement

    The abstract state of a namespace is its history: the list of its revisions,
    each with the whole map from paths to bindings that was current at it.  A
    bind or unbind appends one revision.  The implementation keeps the current
    map, a journal of single mutations and a counter in three records;
    [ns_refines] relates them to a history: the current record is the last map,
    and replaying the journal up to a revision gives the map that was current
    then.  Successful operations of [Namespaces.v] preserve the relation. *)

From Stdlib Require Import ZArith Lia Ascii String Bool.
From stdpp Require Import base option list strings gmap numbers sorting.
From S2P Require Import Prelude RustStr Path Core Cbor CborFacts Auth Crypto Store ServiceState ServiceFacts Access Namespaces.

(** ** Histories *)

Abbreviation bindings_map := (gmap string NamespaceBindingState).
Definition ns_history : Type := list (Z * bindings_map).

(** The map that was current at a revision, and the current one. *)
Definition history_at (r : Z) (h : ns_history) : bindings_map :=
  foldl (λ m e, if e.1 <=? r then e.2 else m) ∅ h.
Definition history_now (h : ns_history) : bindings_map :=
  match last h with Some e => e.2 | None => ∅ end.
Definition history_revision (h : ns_history) : Z :=
  match last h with Some e => e.1 | None => 0 end.

Lemma history_at_snoc r h e :
  history_at r (h ++ [e]) = if e.1 <=? r then e.2 else history_at r h.
Proof. unfold history_at. by rewrite foldl_app. Qed.

Lemma history_now_snoc h e : history_now (h ++ [e]) = e.2.
Proof. unfold history_now. by rewrite last_snoc. Qed.

Lemma history_at_latest r h : Forall (λ e, e.1 <= r) h → history_at r h = history_now h.
Proof.
  destruct h as [|e h _] using rev_ind; [done|]. rewrite Forall_app, Forall_singleton.
  intros [_ He]. rewrite history_at_snoc, history_now_snoc.
  by rewrite (proj2 (Z.leb_le _ _) He).
Qed.

(** Replaying one more, later entry. *)
Lemma replay_journal_snoc limit b j e :
  Forall (λ x, je_revision x < je_revision e) j →
  replay_journal limit b (j ++ [e]) =
    if limit <? je_revision e then replay_journal limit b j
    else apply_journal_entry (replay_journal limit b j) e.
Proof.
  intros Hj. revert b. induction Hj as [|x j Hx _ IH]; intros b; cbn; [done|].
  destruct (Z.ltb_spec limit (je_revision x)).
  - by rewrite (proj2 (Z.ltb_lt limit (je_revision e))) by lia.
  - apply IH.
Qed.

Section spec.
Context `{DL : DepsLaws} {B : Backend} `{BL : BackendLaws B} (sv : AlphaService).
Implicit Types (f : gmap string bytes) (w : World B).

(** What the three records of a namespace hold, with the defaults of the code. *)
Definition ns_current f t ns : NamespaceCurrentState :=
  default (mkNamespaceCurrentState ns 0 ∅) (stored sv f t "namespace-current" ns).
Definition ns_journal f t ns : list NamespaceJournalEntry :=
  default [] (stored sv f t "namespace-journal" ns).
Definition ns_next f t ns : Z :=
  next_revision (default (mkNamespaceRevisionState 1) (stored sv f t "namespace-revisions" ns)).

Record ns_refines f (t : TenantId) (ns : string) (h : ns_history) : Prop := {
  nr_now : ns_bindings (ns_current f t ns) = history_now h;
  nr_revision : ns_revision (ns_current f t ns) = history_revision h;
  nr_snapshots : ∀ r, replay_journal r ∅ (ns_journal f t ns) = history_at r h;
  nr_revisions : je_revision <$> ns_journal f t ns = h.*1;
  nr_fresh : Forall (λ e, 1 <= e.1 < ns_next f t ns) h;
  nr_next : 1 <= ns_next f t ns;
}.

(** A namespace that was never written has the empty history. *)
Lemma ns_refines_init f t ns :
  f !! store_key t "namespace-current" ns = None →
  f !! store_key t "namespace-journal" ns = None →
  f !! store_key t "namespace-revisions" ns = None → ns_refines f t ns [].
Proof.
  intros Hc Hj Hr.
  split; unfold ns_current, ns_journal, ns_next;
    rewrite ?(stored_absent sv f t _ _ Hc), ?(stored_absent sv f t _ _ Hj),
      ?(stored_absent sv f t _ _ Hr); cbn; done.
Qed.

(** Appending a revision on both sides. *)
Lemma ns_refines_step f f' t ns h rev entry bindings :
  ns_refines f t ns h →
  ns_journal f' t ns = ns_journal f t ns ++ [entry] →
  je_revision entry = rev → rev = ns_next f t ns → ns_next f t ns + 1 < 2 ^ 64 →
  bindings = apply_journal_entry (ns_bindings (ns_current f t ns)) entry →
  ns_bindings (ns_current f' t ns) = bindings →
  ns_revision (ns_current f' t ns) = rev →
  ns_next f' t ns = u64_add (ns_next f t ns) 1 →
  ns_refines f' t ns (h ++ [(rev, bindings)]).
Proof.
  intros [Hnow Hrev Hsnap Hrevs Hfresh Hnext] Hj <- He Hmax -> Hb Hr Hn.
  rewrite u64_add_small in Hn by lia.
  assert (Forall (λ x, je_revision x < je_revision entry) (ns_journal f t ns)) as Hold.
  { assert (Forall (λ r, r < je_revision entry) (je_revision <$> ns_journal f t ns)) as Hlt.
    - rewrite Hrevs. apply Forall_fmap. eapply Forall_impl; [done|]. intros e; cbn; lia.
    - by apply Forall_fmap in Hlt. }
  split.
  - by rewrite history_now_snoc.
  - unfold history_revision. by rewrite last_snoc.
  - intros r. rewrite Hj, replay_journal_snoc, history_at_snoc, Hsnap by done. cbn.
    rewrite Z.ltb_antisym. destruct (Z.leb_spec (je_revision entry) r); cbn; [|done].
    rewrite history_at_latest, Hnow; [done|].
    eapply Forall_impl; [done|]. intros e; cbn; lia.
  - by rewrite Hj, fmap_app, Hrevs, fmap_app.
  - rewrite Hn, Forall_app, Forall_singleton. cbn. split; [|lia].
    eapply Forall_impl; [done|]. intros e; cbn; lia.
  - lia.
Qed.

(** The relation depends on the three records only. *)
Definition ns_record_kinds : list string :=
  ["namespace-current"; "namespace-journal"; "namespace-revisions"].
Lemma ns_records_ext f f' t ns :
  (∀ k, k ∈ ns_record_kinds → f' !! store_key t k ns = f !! store_key t k ns) →
  ns_current f' t ns = ns_current f t ns ∧ ns_journal f' t ns = ns_journal f t ns ∧
  ns_next f' t ns = ns_next f t ns.
Proof.
  intros Hf. unfold ns_current, ns_journal, ns_next.
  by rewrite !(stored_ext sv f f') by (apply Hf; unfold ns_record_kinds; set_solver).
Qed.

Lemma ns_refines_ext f f' t ns h :
  (∀ k, k ∈ ns_record_kinds → f' !! store_key t k ns = f !! store_key t k ns) →
  ns_refines f t ns h → ns_refines f' t ns h.
Proof.
  intros (Hc&Hj&Hn)%ns_records_ext []. split; rewrite ?Hc, ?Hj, ?Hn; done.
Qed.

(** ** Successful operations *)

Lemma agree_off_stored {T} `{Json T} t k key f f' k' key' :
  agree_off (store_key t k key) f f' →
  slash_free k = true → slash_free k' = true → k' ≠ k →
  stored (T:=T) sv f' t k' key' = stored sv f t k' key'.
Proof.
  intros Hoff Hk Hk' Hne. apply stored_ext. eapply agree_off_lookup; [done|].
  by apply store_key_kind_ne.
Qed.

Lemma current_state_ok t ns w c w' :
  namespace_current_state sv t ns w = (Ok c, w') →
  files w' = files w ∧ c = ns_current (files w) t ns.
Proof.
  unfold namespace_current_state. intros (o&w1&(Hf&->&_)%read_json_ok&Hr)%ST_bind_ok.
  by apply ST_ret_ok in Hr as [<- <-].
Qed.

Lemma next_revision_ok t ns w r w' :
  next_namespace_revision sv t ns w = (Ok r, w') →
  r = ns_next (files w) t ns ∧
  agree_off (store_key t "namespace-revisions" ns) (files w) (files w') ∧
  ns_next (files w') t ns = u64_add r 1.
Proof.
  unfold next_namespace_revision. intros (o&w1&(Hf&->&_)%read_json_ok&Hr)%ST_bind_ok.
  cbn zeta in Hr. apply ST_bind_ok in Hr as (u&w2&Hw&Hr).
  apply write_json_ok in Hw as [Ha Hs]; [|apply _].
  apply ST_ret_ok in Hr as [<- <-]. rewrite Hf in Ha. split_and!; [done..|].
  unfold ns_next at 1. by rewrite Hs.
Qed.

Lemma append_journal_ok t ns e w u w' :
  append_namespace_journal sv t ns e w = (Ok u, w') →
  agree_off (store_key t "namespace-journal" ns) (files w) (files w') ∧
  ns_journal (files w') t ns = ns_journal (files w) t ns ++ [e].
Proof.
  unfold append_namespace_journal, namespace_journal.
  intros (j&w1&Hj&Hw)%ST_bind_ok.
  apply ST_bind_ok in Hj as (o&w2&(Hf&->&_)%read_json_ok&Hr).
  apply ST_ret_ok in Hr as [<- <-]. apply write_json_ok in Hw as [Ha Hs]; [|apply _].
  rewrite Hf in Ha. split; [done|]. unfold ns_journal at 1. by rewrite Hs.
Qed.

(** The three namespace writes of a mutation, in the order of the code. *)
Lemma namespace_writes_ok t ns w1 w2 w3 w4 r state e u u' :
  next_namespace_revision sv t ns w1 = (Ok r, w2) →
  write_namespace_current_state sv t ns state w2 = (Ok u, w3) →
  append_namespace_journal sv t ns e w3 = (Ok u', w4) →
  r = ns_next (files w1) t ns ∧ ns_current (files w4) t ns = state ∧
  ns_journal (files w4) t ns = ns_journal (files w1) t ns ++ [e] ∧
  ns_next (files w4) t ns = u64_add (ns_next (files w1) t ns) 1.
Proof.
  intros (->&Ha2&Hn2)%next_revision_ok Hw (Ha4&Hj4)%append_journal_ok.
  apply write_json_ok in Hw as [Ha3 Hs3]; [|apply _].
  split_and!; [done|..].
  - unfold ns_current. by rewrite (agree_off_stored _ _ _ _ _ _ _ Ha4), Hs3.
  - rewrite Hj4. f_equal. unfold ns_journal.
    by rewrite (agree_off_stored _ _ _ _ _ _ _ Ha3), (agree_off_stored _ _ _ _ _ _ _ Ha2).
  - rewrite <-Hn2. unfold ns_next.
    by rewrite (agree_off_stored _ _ _ _ _ _ _ Ha4), (agree_off_stored _ _ _ _ _ _ _ Ha3).
Qed.

(** The binding a bind creates. *)
Definition bound (request : BindRequest) (path : string) (record : NamespaceMutationRecord)
  (revision : Z) : NamespaceBindingState :=
  {| bn_path := path; bn_target_cid := Some (br_target_cid request);
     bn_manifest_cid := Some (br_target_cid request); bn_revision := revision;
     bn_record_cid := record_cid record; bn_metadata := br_metadata request;
     bn_tombstone := false |}.
(** The tombstone an unbind leaves. *)
Definition tombstoned (path : string) (record : NamespaceMutationRecord) (revision : Z)
  : NamespaceBindingState :=
  {| bn_path := path; bn_target_cid := None; bn_manifest_cid := None;
     bn_revision := revision; bn_record_cid := record_cid record; bn_metadata := ∅;
     bn_tombstone := true |}.

(** The namespace records are not touched by an operation with the given frame. *)
Lemma keeps_namespace t kinds w w' ns :
  keeps t kinds w w' → Forall (λ x, slash_free x = true) kinds →
  (∀ k, k ∈ ns_record_kinds → k ∉ kinds) →
  ∀ k, k ∈ ns_record_kinds → files w' !! store_key t k ns = files w !! store_key t k ns.
Proof.
  intros Hk Hfree Hdis k Hin. apply Hk. intros k' key' Hin' Heq.
  rewrite Forall_forall in Hfree. apply store_key_inj in Heq as (->&_&_).
  - by apply (Hdis k').
  - unfold ns_record_kinds in Hin. set_unfold in Hin. by destruct_or! Hin; subst.
  - by apply Hfree.
Qed.

(** The tail of a mutation: event, audit record and response. *)
Lemma mutation_tail_keeps {A} t ev op subject (resp : Z → A) w b w' :
  (at_ms ← now_ms;
   seq ← append_event sv t (ev at_ms);
   _ ← write_audit sv t seq op subject;
   mret (resp seq)) w = (Ok b, w') →
  keeps t ["events"; "audit"] w w' ∧ ∃ seq, b = resp seq.
Proof.
  intros Hr. split.
  - assert (preserves (keeps (B:=B) t ["events"; "audit"])
      (at_ms ← now_ms; seq ← append_event sv t (ev at_ms);
       _ ← write_audit sv t seq op subject; mret (resp seq))) as Hp by frame.
    specialize (Hp w). by rewrite Hr in Hp.
  - apply ST_bind_ok in Hr as (at_ms&w1&_&Hr). apply ST_bind_ok in Hr as (seq&w2&_&Hr).
    apply ST_bind_ok in Hr as (u&w3&_&Hr). apply ST_ret_ok in Hr as [<- _]. eauto.
Qed.

Lemma apply_bind_ok request ns path record w resp w' :
  apply_bind sv request ns path record w = (Ok resp, w') →
  let t := br_tenant_id request in
  let rev := ns_next (files w) t ns in
  let current := ns_current (files w) t ns in
  (is_Some (br_if_revision request) ∨ br_if_absent request = true) ∧
  (∃ m : ManifestRecord,
     stored sv (files w) t "manifests" (br_target_cid request) = Some m) ∧
  check_bind_precondition request (ns_bindings current !! path) = Ok tt ∧
  bs_revision resp = rev ∧
  ns_current (files w') t ns =
    mkNamespaceCurrentState (ns_namespace current) rev
      (<[path := bound request path record rev]> (ns_bindings current)) ∧
  ns_journal (files w') t ns = ns_journal (files w) t ns ++
    [ mkNamespaceJournalEntry rev record (record_cid record) (Some (br_target_cid request))
        (Some (br_target_cid request)) (br_metadata request) false ] ∧
  ns_next (files w') t ns = u64_add rev 1.
Proof.
  unfold apply_bind. cbn zeta. destruct (_ && _) eqn:Hpre; [done|].
  intros (m&w1&(Hf1&Hm)%manifest_record_ok&H)%ST_bind_ok.
  apply ST_bind_ok in H as (c&w2&(Hf2&->)%current_state_ok&H).
  apply ST_bind_ok in H as (u&w3&Hc&H). unfold lift_result in Hc. injection Hc as Hc <-.
  apply ST_bind_ok in H as (r&w4&Hr&H). apply ST_bind_ok in H as (u1&w5&Hw&H).
  apply ST_bind_ok in H as (u2&w6&Hj&H).
  destruct (namespace_writes_ok _ _ _ _ _ _ _ _ _ _ _ Hr Hw Hj) as (->&Hcur&Hjou&Hnext).
  apply (mutation_tail_keeps (br_tenant_id request) _ _ _ (λ seq, mkBindResponse _ _ seq))
    in H as [Hk [seq ->]].
  rewrite Hf1 in *. rewrite Hf2 in *. destruct u.
  destruct (ns_records_ext (files w6) (files w') (br_tenant_id request) ns) as (->&->&->).
  { eapply keeps_namespace; [done|repeat constructor|]. unfold ns_record_kinds. set_solver. }
  split_and!; [|eauto|done..].
  rewrite andb_false_iff, bool_decide_eq_false, negb_false_iff in Hpre.
  rewrite <-not_eq_None_Some. done.
Qed.

Lemma apply_unbind_ok request ns path record w resp w' :
  apply_unbind sv request ns path record w = (Ok resp, w') →
  let t := ur_tenant_id request in
  let rev := ns_next (files w) t ns in
  let current := ns_current (files w) t ns in
  (∃ b, ns_bindings current !! path = Some b ∧ bn_revision b = ur_if_revision request) ∧
  us_revision resp = rev ∧ us_tombstone resp = negb (ur_hard_delete request) ∧
  ns_current (files w') t ns =
    mkNamespaceCurrentState (ns_namespace current) rev
      (if negb (ur_hard_delete request)
       then <[path := tombstoned path record rev]> (ns_bindings current)
       else delete path (ns_bindings current)) ∧
  ns_journal (files w') t ns = ns_journal (files w) t ns ++
    [ mkNamespaceJournalEntry rev record (record_cid record) None None ∅
        (negb (ur_hard_delete request)) ] ∧
  ns_next (files w') t ns = u64_add rev 1.
Proof.
  unfold apply_unbind. cbn zeta. intros (c&w2&(Hf2&->)%current_state_ok&H)%ST_bind_ok.
  apply ST_bind_ok in H as (b&w3&Hb&H). unfold lift_result in Hb. injection Hb as Hb <-.
  destruct (negb (bn_revision b =? ur_if_revision request)) eqn:Hrev; [done|].
  apply negb_false_iff, Z.eqb_eq in Hrev.
  apply ST_bind_ok in H as (r&w4&Hr&H). apply ST_bind_ok in H as (u1&w5&Hw&H).
  apply ST_bind_ok in H as (u2&w6&Hj&H).
  destruct (namespace_writes_ok _ _ _ _ _ _ _ _ _ _ _ Hr Hw Hj) as (->&Hcur&Hjou&Hnext).
  apply (mutation_tail_keeps (ur_tenant_id request) _ _ _ (λ seq, mkUnbindResponse _ _ seq _))
    in H as [Hk [seq ->]].
  rewrite Hf2 in *.
  destruct (ns_records_ext (files w6) (files w') (ur_tenant_id request) ns) as (->&->&->).
  { eapply keeps_namespace; [done|repeat constructor|]. unfold ns_record_kinds. set_solver. }
  split_and!; [|done..]. exists b. split; [|done].
  destruct (ns_bindings _ !! path); by simplify_eq/=.
Qed.

(** ** Signed records *)

Lemma verify_bind_ok request ns path record :
  verify_signed_bind_record sv request ns path = Ok record →
  (∃ registry, sv_issuer_registry sv = Some registry ∧
     verify_signed_namespace_record (br_signed_record_b64 request) registry = Ok record) ∧
  nm_tenant_id record = br_tenant_id request ∧ nm_namespace record = ns ∧
  nm_path record = path ∧ nm_kind record = KindBind ∧
  nm_target_cid record = Some (br_target_cid request) ∧
  nm_if_revision record = br_if_revision request ∧ nm_ttl_ms record = br_ttl_ms request ∧
  nm_metadata record = br_metadata request.
Proof.
  unfold verify_signed_bind_record.
  intros (registry&Hreg&(r&Hr&H)%result_bind_ok)%ok_or_bind_ok.
  rewrite guard_ok, !orb_false_iff, !negb_false_iff, !bool_decide_eq_true, !String.eqb_eq,
    seq_ok in H.
  destruct_and! H. simplify_eq. split_and!; [by eauto|done..].
Qed.

Lemma verify_unbind_ok request ns path record :
  verify_signed_unbind_record sv request ns path = Ok record →
  (∃ registry, sv_issuer_registry sv = Some registry ∧
     verify_signed_namespace_record (ur_signed_record_b64 request) registry = Ok record) ∧
  nm_tenant_id record = ur_tenant_id request ∧ nm_namespace record = ns ∧
  nm_path record = path ∧
  nm_kind record = (if ur_hard_delete request then KindHardDelete else KindUnbind) ∧
  nm_if_revision record = Some (ur_if_revision request).
Proof.
  unfold verify_signed_unbind_record.
  intros (registry&Hreg&(r&Hr&H)%result_bind_ok)%ok_or_bind_ok. cbn zeta in H.
  rewrite guard_ok, !orb_false_iff, !negb_false_iff, !bool_decide_eq_true, !String.eqb_eq,
    seq_ok in H.
  destruct_and! H. simplify_eq. split_and!; [by eauto|done..].
Qed.

(** ** The operations up to the idempotency record *)

Lemma authorized_keeps auth meta w d w' :
  authorize_request sv auth meta w = (Ok d, w') →
  keeps (am_tenant_id meta) access_kinds w w'.
Proof.
  intros Ha. assert (preserves (keeps (B:=B) (am_tenant_id meta) access_kinds)
    (authorize_request sv auth meta)) as Hp by (apply frame_authorize; in_kinds).
  specialize (Hp w). by rewrite Ha in Hp.
Qed.

(** A successful bind is a retry answered from its record, or the application of
    a verified mutation to a world with the same namespace. *)
Lemma bind_internal_ok auth request persist ns path w resp w' :
  canonical_namespace_and_path (br_namespace request) (br_path request) = Ok (ns, path) →
  bind_internal sv auth request persist w = (Ok resp, w') →
  let t := br_tenant_id request in
  (persist = true ∧
   stored sv (files w) t "idempotency" (idempotency_key t "bind" (br_idempotency_key request))
   = Some (mkIdempotencyRecord resp) ∧ keeps t access_kinds w w') ∨
  (∃ record w1 w2, verify_signed_bind_record sv request ns path = Ok record ∧
     keeps t access_kinds w w1 ∧ apply_bind sv request ns path record w1 = (Ok resp, w2) ∧
     keeps t ["idempotency"] w2 w').
Proof.
  intros Hc H t. unfold bind_internal in H. cbn zeta in H. rewrite ST_bind_run in H.
  unfold lift_result in H at 1. rewrite Hc in H.
  apply ST_bind_ok in H as (record&w0&Hv&H). unfold lift_result in Hv. injection Hv as Hv <-.
  apply ST_bind_ok in H as (d&w1&Ha&H). apply authorized_keeps in Ha.
  change (keeps t access_kinds w w1) in Ha.
  apply ST_bind_ok in H as (prev&w2&Hprev&H).
  assert (files w2 = files w1 ∧ (prev = None ∨ persist = true ∧
    prev = stored sv (files w1) t "idempotency"
             (idempotency_key t "bind" (br_idempotency_key request)))) as [Hf Hp].
  { destruct (persist && _) eqn:Hcond.
    - apply read_json_ok in Hprev as (?&?&_). apply andb_true_iff in Hcond as [-> _]. auto.
    - apply ST_ret_ok in Hprev as [<- <-]. auto. }
  assert (keeps t access_kinds w w2) as Ha2 by (intros name Hn; rewrite Hf; by apply Ha).
  destruct prev as [rec|].
  - left. apply ST_ret_ok in H as [<- <-]. destruct Hp as [?|[-> Hp]]; [done|].
    split_and!; [done| |done]. rewrite <-(keeps_stored sv t access_kinds w w1), <-Hp;
      [by destruct rec|done|repeat constructor|done|left; unfold access_kinds; set_solver].
  - right. apply ST_bind_ok in H as (resp'&w3&Happ&H).
    apply ST_bind_ok in H as (u&w4&Hw&H). apply ST_ret_ok in H as [<- <-].
    exists record, w2, w3. split_and!; [done|done|done|].
    destruct persist.
    + apply write_json_ok in Hw as [Hoff _]; [|apply _]. eapply keeps_agree_off, Hoff. set_solver.
    + apply ST_ret_ok in Hw as [_ <-]. reflexivity.
Qed.

Lemma unbind_internal_ok auth request persist ns path w resp w' :
  canonical_namespace_and_path (ur_namespace request) (ur_path request) = Ok (ns, path) →
  unbind_internal sv auth request persist w = (Ok resp, w') →
  let t := ur_tenant_id request in
  (persist = true ∧
   stored sv (files w) t "idempotency" (idempotency_key t "unbind" (ur_idempotency_key request))
   = Some (mkIdempotencyRecord resp) ∧ keeps t access_kinds w w') ∨
  (∃ record w1 w2, verify_signed_unbind_record sv request ns path = Ok record ∧
     (ur_hard_delete request = true → AdminRepair ∈ ops (claims auth)) ∧
     keeps t access_kinds w w1 ∧ apply_unbind sv request ns path record w1 = (Ok resp, w2) ∧
     keeps t ["idempotency"] w2 w').
Proof.
  intros Hc H t. unfold unbind_internal in H. cbn zeta in H.
  apply ST_bind_ok in H as (start&w0&[= _ <-]&H). rewrite ST_bind_run in H.
  unfold lift_result in H at 1. rewrite Hc in H.
  apply ST_bind_ok in H as (record&w0&Hv&H). unfold lift_result in Hv. injection Hv as Hv <-.
  destruct (ur_hard_delete request && _) eqn:Hhard; [done|].
  apply ST_bind_ok in H as (d&w1&Ha&H). apply authorized_keeps in Ha.
  change (keeps t access_kinds w w1) in Ha.
  apply ST_bind_ok in H as (prev&w2&Hprev&H).
  assert (files w2 = files w1 ∧ (prev = None ∨ persist = true ∧
    prev = stored sv (files w1) t "idempotency"
             (idempotency_key t "unbind" (ur_idempotency_key request)))) as [Hf Hp].
  { destruct (persist && _) eqn:Hcond.
    - apply read_json_ok in Hprev as (?&?&_). apply andb_true_iff in Hcond as [-> _]. auto.
    - apply ST_ret_ok in Hprev as [<- <-]. auto. }
  assert (keeps t access_kinds w w2) as Ha2 by (intros name Hn; rewrite Hf; by apply Ha).
  destruct prev as [rec|].
  - left. injection H as <- <-. destruct Hp as [?|[-> Hp]]; [done|].
    split_and!; [done| |exact Ha2]. rewrite <-(keeps_stored sv t access_kinds w w1), <-Hp;
      [by destruct rec|done|repeat constructor|done|left; unfold access_kinds; set_solver].
  - right. apply ST_bind_ok in H as (resp'&w3&Happ&H).
    apply ST_bind_ok in H as (u&w4&Hw&H). injection H as <- <-.
    exists record, w2, w3. split_and!; [done| |done|done|].
    + intros Hd. rewrite Hd in Hhard. by apply negb_false_iff, bool_decide_eq_true in Hhard.
    + destruct persist.
      * apply write_json_ok in Hw as [Hoff _]; [|apply _]. eapply keeps_agree_off, Hoff. set_solver.
      * apply ST_ret_ok in Hw as [_ <-]. by apply keeps_same.
Qed.

(** A namespace is not affected by what an authorization or an idempotency record
    touches. *)
Lemma ns_refines_keeps t kinds w w' ns h :
  keeps t kinds w w' → Forall (λ x, slash_free x = true) kinds →
  (∀ k, k ∈ ns_record_kinds → k ∉ kinds) →
  ns_refines (files w) t ns h → ns_refines (files w') t ns h.
Proof. intros Hk Hfree Hdis. apply ns_refines_ext. by eapply keeps_namespace. Qed.
Lemma ns_records_keeps t kinds w w' ns :
  keeps t kinds w w' → Forall (λ x, slash_free x = true) kinds →
  (∀ k, k ∈ ns_record_kinds → k ∉ kinds) →
  ns_current (files w') t ns = ns_current (files w) t ns ∧
  ns_journal (files w') t ns = ns_journal (files w) t ns ∧
  ns_next (files w') t ns = ns_next (files w) t ns.
Proof. intros Hk Hfree Hdis. apply ns_records_ext. by eapply keeps_namespace. Qed.

Lemma snapshot_at_ok t ns r w s w' :
  namespace_snapshot_at sv t ns r w = (Ok s, w') →
  files w' = files w ∧
  ns_bindings s = match r with
                  | None => ns_bindings (ns_current (files w) t ns)
                  | Some limit => replay_journal limit ∅ (ns_journal (files w) t ns)
                  end.
Proof.
  unfold namespace_snapshot_at. destruct r as [limit|].
  - unfold namespace_journal. intros (j&w1&Hj&Hr)%ST_bind_ok.
    apply ST_bind_ok in Hj as (o&w2&(Hf&->&_)%read_json_ok&Hj).
    apply ST_ret_ok in Hj as [<- <-]. by apply ST_ret_ok in Hr as [<- <-].
  - by intros [Hf ->]%current_state_ok.
Qed.

Lemma lookup_binding_bindings s s' path r :
  ns_bindings s = ns_bindings s' → lookup_binding s path r = lookup_binding s' path r.
Proof. unfold lookup_binding. by intros ->. Qed.

Lemma resolve_snapshot_run t n p ns path r ifr w :
  canonical_namespace_and_path n p = Ok (ns, path) →
  resolve_snapshot sv t n p r ifr w =
    match namespace_snapshot_at sv t ns r w with
    | (Ok s, w') => (lookup_binding s path ifr, w')
    | (Err e, w') => (Err e, w')
    end.
Proof.
  intros Hc. unfold resolve_snapshot. rewrite ST_bind_run. unfold lift_result. rewrite Hc.
  rewrite ST_bind_run. by destruct (namespace_snapshot_at sv t ns r w) as [[]].
Qed.

(** A successful bind is a retry or one step of the history. *)
Lemma bind_refines auth request persist ns path w resp w' h :
  canonical_namespace_and_path (br_namespace request) (br_path request) = Ok (ns, path) →
  ns_refines (files w) (br_tenant_id request) ns h →
  ns_next (files w) (br_tenant_id request) ns + 1 < 2 ^ 64 →
  bind_internal sv auth request persist w = (Ok resp, w') →
  (stored sv (files w) (br_tenant_id request) "idempotency"
     (idempotency_key (br_tenant_id request) "bind" (br_idempotency_key request))
   = Some (mkIdempotencyRecord resp) ∧
   ns_refines (files w') (br_tenant_id request) ns h) ∨
  (∃ record, verify_signed_bind_record sv request ns path = Ok record ∧
     check_bind_precondition request (history_now h !! path) = Ok tt ∧
     bs_revision resp = ns_next (files w) (br_tenant_id request) ns ∧
     ns_refines (files w') (br_tenant_id request) ns
       (h ++ [(bs_revision resp,
               <[path := bound request path record (bs_revision resp)]> (history_now h))])).
Proof.
  intros Hc Hr Hmax H.
  destruct (bind_internal_ok _ _ _ _ _ _ _ _ Hc H) as [(_&Hs&Hk)|(record&w1&w2&Hv&Hk1&Happ&Hk2)].
  { left. split; [done|]. eapply ns_refines_keeps; [done|repeat constructor| |done].
    unfold ns_record_kinds, access_kinds. set_solver. }
  right. destruct (ns_records_keeps _ _ _ _ ns Hk1) as (Ec1&Ej1&En1);
    [repeat constructor|unfold ns_record_kinds, access_kinds; set_solver|].
  destruct (apply_bind_ok _ _ _ _ _ _ _ Happ) as (_&_&Hpre&Hrev&Hcur&Hjou&Hnext).
  rewrite Ec1, ?Ej1, En1 in *.
  assert (ns_refines (files w2) (br_tenant_id request) ns
    (h ++ [(bs_revision resp,
            <[path := bound request path record (bs_revision resp)]> (history_now h))])) as Hr2.
  { rewrite Hrev. destruct (verify_bind_ok _ _ _ _ Hv) as (_&_&_&Hp&Hkind&_).
    eapply (ns_refines_step _ _ _ _ _ _ _ _ Hr Hjou eq_refl eq_refl Hmax);
      [|by rewrite Hcur, (nr_now _ _ _ _ Hr)|by rewrite Hcur|done].
    unfold apply_journal_entry. cbn. rewrite Hkind, Hp, (nr_now _ _ _ _ Hr). done. }
  exists record. split_and!; [done| |done|].
  - by rewrite <-(nr_now _ _ _ _ Hr).
  - eapply ns_refines_keeps; [done|repeat constructor| |done]. unfold ns_record_kinds. set_solver.
Qed.
End spec.
