(* ===== verification/NamespaceProps.v ===== *)
(** * Properties of namespaces: refinement of the history, resolution, exclusion *)

From Stdlib Require Import ZArith Lia Ascii String Bool.
From stdpp Require Import base option list strings gmap numbers sorting.
From S2P Require Import Prelude RustStr Path Core Cbor CborFacts Concrete Auth Crypto Store ServiceState ServiceFacts Access Namespaces NamespaceSpec ConcreteService.

Section props.
Context `{DL : DepsLaws} {B : Backend} `{BL : BackendLaws B} (sv : AlphaService).
Implicit Types w : World B.

(** C2: a bind implements one step of the history.  A successful bind is either
    the recorded answer to a retry and leaves the namespace as it is, or appends
    exactly one revision, numbered by the counter, in which the path is bound to
    the target as the signed record says and every other path is unchanged; and
    then the precondition of the request held of the map that was current. *)
Theorem bind_refines_history auth request persist ns path w resp w' h :
  canonical_namespace_and_path (br_namespace request) (br_path request) = Ok (ns, path) →
  ns_refines sv (files w) (br_tenant_id request) ns h →
  ns_next sv (files w) (br_tenant_id request) ns + 1 < 2 ^ 64 →
  bind_internal sv auth request persist w = (Ok resp, w') →
  (stored sv (files w) (br_tenant_id request) "idempotency"
     (idempotency_key (br_tenant_id request) "bind" (br_idempotency_key request))
   = Some (mkIdempotencyRecord resp) ∧
   ns_refines sv (files w') (br_tenant_id request) ns h) ∨
  (∃ record, verify_signed_bind_record sv request ns path = Ok record ∧
     check_bind_precondition request (history_now h !! path) = Ok tt ∧
     bs_revision resp = ns_next sv (files w) (br_tenant_id request) ns ∧
     ns_refines sv (files w') (br_tenant_id request) ns
       (h ++ [(bs_revision resp,
               <[path := bound request path record (bs_revision resp)]> (history_now h))])).
Proof. apply bind_refines. Qed.

(** An unbind implements one step of the history.  The path had a binding with
    the expected revision; in the appended revision it has a tombstone, or, for a
    hard delete, which needs the admin.repair scope, no binding. *)
Theorem unbind_refines_history auth request persist ns path w resp w' h :
  canonical_namespace_and_path (ur_namespace request) (ur_path request) = Ok (ns, path) →
  ns_refines sv (files w) (ur_tenant_id request) ns h →
  ns_next sv (files w) (ur_tenant_id request) ns + 1 < 2 ^ 64 →
  unbind_internal sv auth request persist w = (Ok resp, w') →
  (stored sv (files w) (ur_tenant_id request) "idempotency"
     (idempotency_key (ur_tenant_id request) "unbind" (ur_idempotency_key request))
   = Some (mkIdempotencyRecord resp) ∧
   ns_refines sv (files w') (ur_tenant_id request) ns h) ∨
  (∃ record b, verify_signed_unbind_record sv request ns path = Ok record ∧
     history_now h !! path = Some b ∧ bn_revision b = ur_if_revision request ∧
     (ur_hard_delete request = true → AdminRepair ∈ ops (claims auth)) ∧
     us_revision resp = ns_next sv (files w) (ur_tenant_id request) ns ∧
     ns_refines sv (files w') (ur_tenant_id request) ns
       (h ++ [(us_revision resp,
               if ur_hard_delete request then delete path (history_now h)
               else <[path := tombstoned path record (us_revision resp)]> (history_now h))])).
Proof.
  intros Hc Hr Hmax H.
  destruct (unbind_internal_ok sv _ _ _ _ _ _ _ _ Hc H)
    as [(_&Hs&Hk)|(record&w1&w2&Hv&Hadm&Hk1&Happ&Hk2)].
  { left. split; [done|]. eapply ns_refines_keeps; [done|repeat constructor| |done].
    unfold ns_record_kinds, access_kinds. set_solver. }
  right. destruct (ns_records_keeps sv _ _ _ _ ns Hk1) as (Ec1&Ej1&En1);
    [repeat constructor|unfold ns_record_kinds, access_kinds; set_solver|].
  destruct (apply_unbind_ok sv _ _ _ _ _ _ _ Happ) as ((b&Hb&Hbrev)&Hrev&_&Hcur&Hjou&Hnext).
  rewrite Ec1, ?Ej1, En1 in *. exists record, b. rewrite <-(nr_now _ _ _ _ _ Hr).
  split_and!; [done|done|done|done|done|].
  eapply ns_refines_keeps; [done|repeat constructor|unfold ns_record_kinds; set_solver|].
  rewrite Hrev. destruct (verify_unbind_ok sv _ _ _ _ Hv) as (_&_&_&Hp&Hkind&_).
  eapply (ns_refines_step sv _ _ _ _ _ _ _ _ Hr Hjou eq_refl eq_refl Hmax);
    [|rewrite Hcur; by destruct (ur_hard_delete request)|by rewrite Hcur|done].
  unfold apply_journal_entry. cbn. rewrite Hkind, Hp. by destruct (ur_hard_delete request).
Qed.

(** ** The mutations of a namespace *)

(** What a client was told it did to a namespace. *)
Inductive Change :=
| Bound (target_cid : string) (metadata : metadata_map)
| Tombstoned
| Removed.
Record Mutation := mkMutation {
  mu_path : string;
  mu_change : Change;
  mu_revision : Z;
  mu_record_cid : string;
}.

(** What resolving a path says when [m] is the last mutation of the path. *)
Definition told (m : Mutation) : option ResolveResponse :=
  match mu_change m with
  | Bound target metadata =>
      Some (mkResolveResponse (mu_revision m) (Some target) (Some target) (mu_record_cid m) metadata false)
  | Tombstoned => Some (mkResolveResponse (mu_revision m) None None (mu_record_cid m) ∅ true)
  | Removed => None
  end.
Definition seen (log : list Mutation) (path : string) : option ResolveResponse :=
  m ← last (filter (λ m, mu_path m = path) log); told m.
(** The answer to a resolve with the optional precondition [if_revision]. *)
Definition expected_answer (log : list Mutation) (path : string) (if_revision : option Z)
  : result ApiError ResolveResponse :=
  match seen log path with
  | None => Err path_not_bound
  | Some answer =>
      if from_option (λ revision, negb (rs_revision answer =? revision)) false if_revision
      then Err (revision_conflict "namespace revision precondition failed") else Ok answer
  end.
(** The mutations up to a revision; the first mutation makes revision 1. *)
Definition up_to (revision : option Z) (log : list Mutation) : list Mutation :=
  match revision with None => log | Some r => take (Z.to_nat r) log end.

Lemma seen_snoc log m path :
  seen (log ++ [m]) path = if decide (path = mu_path m) then told m else seen log path.
Proof.
  unfold seen. rewrite filter_app. destruct (decide (mu_path m = path)) as [<-|Hne].
  - rewrite filter_cons_True, filter_nil, last_snoc by done. by rewrite decide_True.
  - by rewrite filter_cons_False, filter_nil, app_nil_r, decide_False by done.
Qed.

(** [w] is reached from a namespace that was never written, and [log] holds the binds
    and unbinds of [ns] that were acknowledged on the way and took effect.  Anything
    may happen in between that leaves the three records of the namespace alone: the
    recorded answer to a retry, other calls, other processes, a restart. *)
Definition same_records (t : TenantId) (ns : string) w w' : Prop :=
  ∀ k, k ∈ ns_record_kinds → files w' !! store_key t k ns = files w !! store_key t k ns.
Inductive ns_run (t : TenantId) (ns : string) : list Mutation → World B → Prop :=
| run_new w :
    (∀ k, k ∈ ns_record_kinds → files w !! store_key t k ns = None) → ns_run t ns [] w
| run_elsewhere log w w' : ns_run t ns log w → same_records t ns w w' → ns_run t ns log w'
| run_bind log w auth request persist path record resp w' :
    ns_run t ns log w → br_tenant_id request = t →
    canonical_namespace_and_path (br_namespace request) (br_path request) = Ok (ns, path) →
    verify_signed_bind_record sv request ns path = Ok record →
    bind_internal sv auth request persist w = (Ok resp, w') → ¬ same_records t ns w w' →
    ns_run t ns
      (log ++ [mkMutation path (Bound (br_target_cid request) (br_metadata request))
                 (bs_revision resp) (record_cid record)]) w'
| run_unbind log w auth request persist path record resp w' :
    ns_run t ns log w → ur_tenant_id request = t →
    canonical_namespace_and_path (ur_namespace request) (ur_path request) = Ok (ns, path) →
    verify_signed_unbind_record sv request ns path = Ok record →
    unbind_internal sv auth request persist w = (Ok resp, w') → ¬ same_records t ns w w' →
    ns_run t ns
      (log ++ [mkMutation path (if ur_hard_delete request then Removed else Tombstoned)
                 (us_revision resp) (record_cid record)]) w'.

(** The three records of a namespace with the mutations [log]. *)
Record records_tell (f : gmap string bytes) t ns (log : list Mutation) : Prop := {
  rt_current : ∀ path, resolve_response <$> ns_bindings (ns_current sv f t ns) !! path = seen log path;
  rt_journal : ∀ r path,
    resolve_response <$> replay_journal r ∅ (ns_journal sv f t ns) !! path
    = seen (take (Z.to_nat r) log) path;
  rt_entries : Forall (λ e, je_revision e <= Z.of_nat (length log)) (ns_journal sv f t ns);
  rt_next : ns_next sv f t ns = Z.of_nat (length log) + 1;
  rt_revisions : ∀ i m, log !! i = Some m → mu_revision m = Z.of_nat i + 1;
}.

(** [g] changes the binding of one path, to what [o] answers. *)
Definition rebinds (g : bindings_map → bindings_map) (path : string) (o : option ResolveResponse)
  : Prop :=
  ∀ b p, resolve_response <$> g b !! p = if decide (p = path) then o else resolve_response <$> b !! p.
Lemma rebinds_insert path b o :
  Some (resolve_response b) = o → rebinds (insert path b) path o.
Proof.
  intros <- m p. destruct (decide (p = path)) as [->|]; [by rewrite lookup_insert_eq|].
  by rewrite lookup_insert_ne.
Qed.
Lemma rebinds_delete path : rebinds (delete path) path None.
Proof.
  intros m p. destruct (decide (p = path)) as [->|]; [by rewrite lookup_delete_eq|].
  by rewrite lookup_delete_ne.
Qed.

Lemma records_tell_step f f' t ns log m entry g :
  records_tell f t ns log → Z.of_nat (length log) + 2 < 2 ^ 64 →
  rebinds g (mu_path m) (told m) →
  rebinds (λ b, apply_journal_entry b entry) (mu_path m) (told m) →
  ns_bindings (ns_current sv f' t ns) = g (ns_bindings (ns_current sv f t ns)) →
  ns_journal sv f' t ns = ns_journal sv f t ns ++ [entry] →
  je_revision entry = ns_next sv f t ns → mu_revision m = ns_next sv f t ns →
  ns_next sv f' t ns = u64_add (ns_next sv f t ns) 1 → records_tell f' t ns (log ++ [m]).
Proof.
  intros [Hc Hj He Hn Hm] Hmax Hg Hentry Ec Ej Ee Em En. rewrite Hn in *.
  rewrite u64_add_small in En by lia.
  split; rewrite ?Ec, ?Ej, ?En, ?length_app; cbn [length].
  - intros p. by rewrite Hg, seen_snoc, Hc.
  - intros r p. rewrite replay_journal_snoc, Ee.
    2:{ eapply Forall_impl; [exact He|]. intros x Hx. cbn in Hx. lia. }
    destruct (Z.ltb_spec r (Z.of_nat (length log) + 1)).
    + by rewrite Hj, take_app_le by lia.
    + by rewrite Hentry, Hj, !take_ge, seen_snoc by (rewrite ?length_app; cbn; lia).
  - rewrite Forall_app, Forall_singleton. split; [|lia].
    eapply Forall_impl; [exact He|]. intros x Hx. cbn in Hx. lia.
  - lia.
  - intros i x [Hi|[Hi Hx]]%lookup_app_Some; [by apply Hm|].
    apply list_lookup_singleton_Some in Hx as [? <-]. rewrite Em. lia.
Qed.

Lemma records_tell_ext t ns log w w' :
  records_tell (files w) t ns log → same_records t ns w w' → records_tell (files w') t ns log.
Proof.
  intros [] Hs. destruct (ns_records_ext sv _ _ _ _ Hs) as (Hc&Hj&Hn).
  split; rewrite ?Hc, ?Hj, ?Hn; done.
Qed.
Lemma keeps_same_records t ns kinds w w' :
  keeps t kinds w w' → kinds = access_kinds ∨ kinds = ["idempotency"] → same_records t ns w w'.
Proof.
  intros Hk Hkinds k Hin. apply (keeps_namespace _ kinds w w' ns Hk); [..|exact Hin];
    destruct Hkinds as [-> | ->]; [by repeat constructor..| |];
    unfold ns_record_kinds, access_kinds; set_solver.
Qed.

Lemma bind_tells log w auth request persist ns path record resp w' :
  let t := br_tenant_id request in
  records_tell (files w) t ns log → Z.of_nat (length log) + 2 < 2 ^ 64 →
  canonical_namespace_and_path (br_namespace request) (br_path request) = Ok (ns, path) →
  verify_signed_bind_record sv request ns path = Ok record →
  bind_internal sv auth request persist w = (Ok resp, w') → ¬ same_records t ns w w' →
  records_tell (files w') t ns
    (log ++ [mkMutation path (Bound (br_target_cid request) (br_metadata request))
               (bs_revision resp) (record_cid record)]).
Proof.
  cbn zeta. intros Hr Hmax Hc Hv H Hne.
  destruct (bind_internal_ok sv _ _ _ _ _ _ _ _ Hc H) as [(_&_&Hk)|(record'&w1&w2&Hv'&Hk1&Happ&Hk2)].
  { destruct Hne. by eapply keeps_same_records; [exact Hk|left]. }
  rewrite Hv in Hv'. injection Hv' as <-.
  eapply records_tell_ext; [|by eapply keeps_same_records; [exact Hk2|right]].
  eapply records_tell_ext in Hr; [|by eapply keeps_same_records; [exact Hk1|left]].
  destruct (apply_bind_ok sv _ _ _ _ _ _ _ Happ) as (_&_&_&Hrev&Hcur&Hjou&Hnext).
  destruct (verify_bind_ok sv _ _ _ _ Hv) as (_&_&_&Hp&Hkind&_).
  eapply (records_tell_step _ _ _ _ _ _ _ _ Hr Hmax); [| |by rewrite Hcur|exact Hjou|done|done|exact Hnext].
  - apply rebinds_insert. cbn. by rewrite Hrev.
  - unfold apply_journal_entry. cbn. rewrite Hkind, Hp. apply rebinds_insert. cbn. by rewrite Hrev.
Qed.

Lemma unbind_tells log w auth request persist ns path record resp w' :
  let t := ur_tenant_id request in
  records_tell (files w) t ns log → Z.of_nat (length log) + 2 < 2 ^ 64 →
  canonical_namespace_and_path (ur_namespace request) (ur_path request) = Ok (ns, path) →
  verify_signed_unbind_record sv request ns path = Ok record →
  unbind_internal sv auth request persist w = (Ok resp, w') → ¬ same_records t ns w w' →
  records_tell (files w') t ns
    (log ++ [mkMutation path (if ur_hard_delete request then Removed else Tombstoned)
               (us_revision resp) (record_cid record)]).
Proof.
  cbn zeta. intros Hr Hmax Hc Hv H Hne.
  destruct (unbind_internal_ok sv _ _ _ _ _ _ _ _ Hc H) as [(_&_&Hk)|(record'&w1&w2&Hv'&_&Hk1&Happ&Hk2)].
  { destruct Hne. by eapply keeps_same_records; [exact Hk|left]. }
  rewrite Hv in Hv'. injection Hv' as <-.
  eapply records_tell_ext; [|by eapply keeps_same_records; [exact Hk2|right]].
  eapply records_tell_ext in Hr; [|by eapply keeps_same_records; [exact Hk1|left]].
  destruct (apply_unbind_ok sv _ _ _ _ _ _ _ Happ) as (_&Hrev&_&Hcur&Hjou&Hnext).
  destruct (verify_unbind_ok sv _ _ _ _ Hv) as (_&_&_&Hp&Hkind&_).
  eapply (records_tell_step _ _ _ _ _ _ _
    (λ b, if negb (ur_hard_delete request)
          then <[path := tombstoned path record (us_revision resp)]> b else delete path b)
    Hr Hmax); [| |by rewrite Hcur, Hrev|exact Hjou|done|done|exact Hnext].
  - cbn. destruct (ur_hard_delete request); [apply rebinds_delete|by apply rebinds_insert].
  - unfold apply_journal_entry. cbn. rewrite Hkind, Hp.
    destruct (ur_hard_delete request); cbn; [apply rebinds_delete|apply rebinds_insert].
    cbn. by rewrite Hrev.
Qed.

Lemma run_tells t ns log w :
  ns_run t ns log w → Z.of_nat (length log) + 1 < 2 ^ 64 → records_tell (files w) t ns log.
Proof.
  induction 1 as [w Hnew|log w w' _ IH Hs|log w auth request persist path record resp w' _ IH <- Hc Hv H Hne
    |log w auth request persist path record resp w' _ IH <- Hc Hv H Hne]; intros Hmax.
  - unfold ns_record_kinds in Hnew. split; unfold ns_current, ns_journal, ns_next;
      rewrite ?stored_absent by (apply Hnew; set_solver); try done.
    intros r path. cbn. by rewrite take_nil.
  - eapply records_tell_ext; [by apply IH|done].
  - rewrite length_app in Hmax. cbn in Hmax. eapply bind_tells; try done; [apply IH|]; lia.
  - rewrite length_app in Hmax. cbn in Hmax. eapply unbind_tells; try done; [apply IH|]; lia.
Qed.

Lemma lookup_binding_expected snapshot path if_revision log :
  resolve_response <$> ns_bindings snapshot !! path = seen log path →
  lookup_binding snapshot path if_revision = expected_answer log path if_revision.
Proof.
  unfold lookup_binding, expected_answer. intros <-.
  destruct (ns_bindings snapshot !! path) as [b|]; [|done]. cbn.
  destruct if_revision; [|done]. cbn. by destruct (negb _).
Qed.

(** C25: a path resolves to what was last done to it.  Start with a namespace that was
    never written, and let clients bind and unbind paths in it, in any order and with
    anything else going on.  The acknowledged mutations are numbered 1, 2, 3, ... by
    the revisions their clients were told, and resolving a path at revision [r], or
    now, answers with the last mutation of the path among the first [r], or among all:
    its target, revision, record and metadata, a tombstone, or that the path is not
    bound, and with a conflict if the caller expected another revision; unless the
    caller may not read the path or the store cannot be read. *)
Theorem resolve_tells_last_mutation t ns log w auth request path res w' :
  ns_run t ns log w → Z.of_nat (length log) + 1 < 2 ^ 64 →
  rq_tenant_id request = t →
  canonical_namespace_and_path (rq_namespace request) (rq_path request) = Ok (ns, path) →
  resolve_op sv auth request w = (res, w') →
  (∀ i m, log !! i = Some m → mu_revision m = Z.of_nat i + 1) ∧
  (res = expected_answer (up_to (rq_at_revision request) log) path (rq_if_revision request) ∨
   ∃ e, res = Err e ∧
     let '(decision, w1) := authorize_request sv auth (namespace_meta OpResolve t ns path None) w in
     decision = Err e ∨ (namespace_snapshot_at sv t ns (rq_at_revision request) w1).1 = Err e).
Proof.
  intros Hrun Hmax <- Hc H. pose proof (run_tells _ _ _ _ Hrun Hmax) as Htell.
  split; [apply Htell|]. unfold resolve_op in H. rewrite ST_bind_run in H. unfold lift_result in H at 1.
  rewrite Hc, ST_bind_run in H.
  destruct (authorize_request sv auth _ w) as [[d|e] w1] eqn:Ha; [|injection H as <- _; eauto].
  pose proof (authorized_keeps sv _ _ _ _ _ Ha) as Hk. change (am_tenant_id _) with (rq_tenant_id request) in Hk.
  eapply records_tell_ext in Htell; [|by eapply keeps_same_records; [exact Hk|left]].
  rewrite ST_bind_run in H.
  destruct (namespace_snapshot_at sv _ ns (rq_at_revision request) w1) as [[s|e] w2] eqn:Hs;
    [|injection H as <- _; eauto].
  injection H as <- _. left. apply lookup_binding_expected.
  apply snapshot_at_ok in Hs as [_ ->]. destruct Htell. by destruct (rq_at_revision request).
Qed.

(** Read your writes.  After a bind that was applied, resolving the same path
    gives the target, the revision of the response and the metadata, unless the
    store cannot be read. *)
Theorem bind_then_resolve request ns path record w resp w1 w2 res w3 :
  canonical_namespace_and_path (br_namespace request) (br_path request) = Ok (ns, path) →
  apply_bind sv request ns path record w = (Ok resp, w1) →
  keeps (br_tenant_id request) ["idempotency"; "replay"; "events"; "audit"] w1 w2 →
  resolve_snapshot sv (br_tenant_id request) (br_namespace request) (br_path request)
    None None w2 = (res, w3) →
  res = Ok {| rs_revision := bs_revision resp; rs_target_cid := Some (br_target_cid request);
              rs_manifest_cid := Some (br_target_cid request);
              rs_record_cid := record_cid record; rs_metadata := br_metadata request;
              rs_tombstone := false |}
  ∨ ∃ e, (namespace_snapshot_at sv (br_tenant_id request) ns None w2).1 = Err e ∧ res = Err e.
Proof.
  intros Hc Happ Hk H. rewrite (resolve_snapshot_run sv _ _ _ _ _ _ _ _ Hc) in H.
  destruct (namespace_snapshot_at sv _ ns None w2) as [[s|e] w4] eqn:Hs; simplify_eq;
    [left|right; eauto].
  apply snapshot_at_ok in Hs as [_ Hb].
  destruct (ns_records_keeps sv _ _ _ _ ns Hk) as (Ec&_&_);
    [repeat constructor|unfold ns_record_kinds; set_solver|].
  destruct (apply_bind_ok sv _ _ _ _ _ _ _ Happ) as (_&_&_&Hrev&Hcur&_&_).
  unfold lookup_binding. rewrite Hb, Ec, Hcur. cbn [ns_bindings].
  rewrite lookup_insert_eq, ok_or_Some, ok_bind, Hrev. reflexivity.
Qed.

(** Exclusive creation.  After an applied bind of a path, no later bind of it
    with [if_absent] is applied as long as the namespace record is the one it
    left: of two clients that create a path, at most one wins. *)
Theorem bind_if_absent_exclusive request ns path record w resp w1 request' record' w2 :
  apply_bind sv request ns path record w = (Ok resp, w1) →
  br_tenant_id request' = br_tenant_id request →
  files w2 !! store_key (br_tenant_id request) "namespace-current" ns
  = files w1 !! store_key (br_tenant_id request) "namespace-current" ns →
  br_if_absent request' = true →
  is_ok (apply_bind sv request' ns path record' w2).1 = false.
Proof.
  intros Happ Ht Hsame Habs.
  destruct (apply_bind sv request' ns path record' w2) as [[r|e] w3] eqn:Happ2; [|done].
  destruct (apply_bind_ok sv _ _ _ _ _ _ _ Happ) as (_&_&_&_&Hcur&_&_).
  destruct (apply_bind_ok sv _ _ _ _ _ _ _ Happ2) as (_&_&Hpre&_).
  rewrite Ht in Hpre. unfold ns_current in Hpre, Hcur.
  rewrite (stored_ext sv _ _ _ _ _ Hsame), Hcur in Hpre. cbn [ns_bindings] in Hpre.
  rewrite lookup_insert_eq in Hpre. unfold check_bind_precondition in Hpre.
  by rewrite Habs in Hpre.
Qed.

(** A mutation is what its signer signed.  A bind record is accepted only if
    it verifies under a registered issuer and names the tenant, the canonical
    namespace and path, the target, the precondition and the metadata of the
    request. *)
Theorem signed_bind_record_sound request ns path record :
  verify_signed_bind_record sv request ns path = Ok record →
  (∃ registry, sv_issuer_registry sv = Some registry ∧
     verify_signed_namespace_record (br_signed_record_b64 request) registry = Ok record) ∧
  nm_tenant_id record = br_tenant_id request ∧ nm_namespace record = ns ∧
  nm_path record = path ∧ nm_kind record = KindBind ∧
  nm_target_cid record = Some (br_target_cid request) ∧
  nm_if_revision record = br_if_revision request ∧ nm_ttl_ms record = br_ttl_ms request ∧
  nm_metadata record = br_metadata request.
Proof. apply verify_bind_ok. Qed.
End props.

Import ToyService.

Definition bind_run : result ApiError BindResponse * World (fs_backend no_faults) :=
  bind_internal concrete_service (sample_token "tenant-alpha" "j1") sample_bind true sample_world.

(** Witness of C2: the first bind in an empty namespace. *)
Lemma bind_refines_history_witness :
  ∃ resp, bind_run.1 = Ok resp ∧ bs_revision resp = 1 ∧
  ((stored concrete_service (files sample_world) "tenant-alpha" "idempotency"
      (idempotency_key "tenant-alpha" "bind" "idem-1") = Some (mkIdempotencyRecord resp) ∧
    ns_refines concrete_service (files bind_run.2) "tenant-alpha" "docs" []) ∨
   (∃ record, verify_signed_bind_record concrete_service sample_bind "docs" "reports/q1"
              = Ok record ∧
      check_bind_precondition sample_bind (history_now [] !! "reports/q1") = Ok tt ∧
      bs_revision resp = ns_next concrete_service (files sample_world) "tenant-alpha" "docs" ∧
      ns_refines concrete_service (files bind_run.2) "tenant-alpha" "docs"
        ([] ++ [(bs_revision resp,
                 <["reports/q1" := bound sample_bind "reports/q1" record (bs_revision resp)]>
                   (history_now []))]))).
Proof.
  eexists. split; [vm_compute; reflexivity|]. split; [reflexivity|].
  eapply (bind_refines_history concrete_service (sample_token "tenant-alpha" "j1")
            sample_bind true "docs" "reports/q1" sample_world).
  - vm_compute. reflexivity.
  - apply ns_refines_init; vm_compute; reflexivity.
  - vm_compute. reflexivity.
  - apply run_pair. vm_compute. reflexivity.
Defined.

(** The history after the sample bind. *)
Definition sample_history : ns_history :=
  [(1, {[ "reports/q1" := bound sample_bind "reports/q1" sample_bind_record 1 ]})].
Lemma sample_history_refined :
  ns_refines concrete_service (files bind_run.2) "tenant-alpha" "docs" sample_history.
Proof.
  destruct (bind_refines concrete_service (sample_token "tenant-alpha" "j1") sample_bind true
    "docs" "reports/q1" sample_world (mkBindResponse 1 (record_cid sample_bind_record) 1)
    bind_run.2 []) as [[Hs _]|(record&Hv&_&_&Hr)].
  - vm_compute. reflexivity.
  - apply ns_refines_init; vm_compute; reflexivity.
  - vm_compute. reflexivity.
  - apply run_pair. vm_compute. reflexivity.
  - vm_compute in Hs. discriminate.
  - assert (record = sample_bind_record) as ->; [|exact Hr].
    assert (verify_signed_bind_record concrete_service sample_bind "docs" "reports/q1"
            = Ok sample_bind_record) as Hv' by (vm_compute; reflexivity).
    congruence.
Qed.

Definition unbind_run : result ApiError UnbindResponse * World (fs_backend no_faults) :=
  unbind_internal concrete_service (sample_token "tenant-alpha" "j2") sample_unbind true
    bind_run.2.

(** The sample binding is unbound. *)
Lemma unbind_refines_history_witness :
  ∃ resp, unbind_run.1 = Ok resp ∧ us_revision resp = 2 ∧
  ((stored concrete_service (files bind_run.2) "tenant-alpha" "idempotency"
      (idempotency_key "tenant-alpha" "unbind" "idem-2") = Some (mkIdempotencyRecord resp) ∧
    ns_refines concrete_service (files unbind_run.2) "tenant-alpha" "docs" sample_history) ∨
   (∃ record b, verify_signed_unbind_record concrete_service sample_unbind "docs" "reports/q1"
                = Ok record ∧
      history_now sample_history !! "reports/q1" = Some b ∧ bn_revision b = 1 ∧
      (false = true → AdminRepair ∈ ops (claims (sample_token "tenant-alpha" "j2"))) ∧
      us_revision resp = ns_next concrete_service (files bind_run.2) "tenant-alpha" "docs" ∧
      ns_refines concrete_service (files unbind_run.2) "tenant-alpha" "docs"
        (sample_history ++
         [(us_revision resp, <["reports/q1" := tombstoned "reports/q1" record
                                 (us_revision resp)]> (history_now sample_history))]))).
Proof.
  eexists. split; [vm_compute; reflexivity|]. split; [reflexivity|].
  eapply (unbind_refines_history concrete_service (sample_token "tenant-alpha" "j2")
            sample_unbind true "docs" "reports/q1" bind_run.2).
  - vm_compute. reflexivity.
  - apply sample_history_refined.
  - vm_compute. reflexivity.
  - apply run_pair. vm_compute. reflexivity.
Defined.

(** The two mutations of the samples. *)
Definition sample_unbind_record : NamespaceMutationRecord :=
  Eval vm_compute in default sample_bind_record (result_ok
    (verify_signed_unbind_record concrete_service sample_unbind "docs" "reports/q1")).
Definition sample_mutations : list Mutation :=
  [mkMutation "reports/q1" (Bound (br_target_cid sample_bind) (br_metadata sample_bind)) 1
     (record_cid sample_bind_record);
   mkMutation "reports/q1" Tombstoned 2 (record_cid sample_unbind_record)].

Lemma records_changed (w w' : World (fs_backend no_faults)) :
  bool_decide (files w' !! store_key "tenant-alpha" "namespace-journal" "docs"
               = files w !! store_key "tenant-alpha" "namespace-journal" "docs") = false →
  ¬ same_records "tenant-alpha" "docs" w w'.
Proof.
  intros Hne%bool_decide_eq_false Hs. apply Hne, Hs. unfold ns_record_kinds. set_solver.
Qed.
Lemma sample_run : ns_run concrete_service "tenant-alpha" "docs" sample_mutations unbind_run.2.
Proof.
  apply (run_unbind concrete_service "tenant-alpha" "docs" (take 1 sample_mutations) bind_run.2
           (sample_token "tenant-alpha" "j2") sample_unbind true "reports/q1" sample_unbind_record
           (mkUnbindResponse 2 (record_cid sample_unbind_record) 2 true)).
  - apply (run_bind concrete_service "tenant-alpha" "docs" [] sample_world
             (sample_token "tenant-alpha" "j1") sample_bind true "reports/q1" sample_bind_record
             (mkBindResponse 1 (record_cid sample_bind_record) 1)).
    + apply run_new. intros k [-> |[-> |[-> |[]%elem_of_nil]%elem_of_cons]%elem_of_cons]%elem_of_cons;
        vm_compute; reflexivity.
    + reflexivity.
    + vm_compute. reflexivity.
    + vm_compute. reflexivity.
    + apply run_pair. vm_compute. reflexivity.
    + apply records_changed. vm_compute. reflexivity.
  - reflexivity.
  - vm_compute. reflexivity.
  - vm_compute. reflexivity.
  - apply run_pair. vm_compute. reflexivity.
  - apply records_changed. vm_compute. reflexivity.
Qed.

(** Witness of C25: revision 1 is asked for after the path was unbound in revision 2. *)
Lemma resolve_tells_last_mutation_witness :
  let resolve := resolve_op concrete_service (sample_token "tenant-alpha" "j3")
    (mkResolveRequest "tenant-alpha" "docs" "reports/q1" (Some 1) None) unbind_run.2 in
  resolve.1 = expected_answer (take 1 sample_mutations) "reports/q1" None ∧
  is_ok resolve.1 = true.
Proof.
  assert (is_ok (resolve_op concrete_service (sample_token "tenant-alpha" "j3")
    (mkResolveRequest "tenant-alpha" "docs" "reports/q1" (Some 1) None) unbind_run.2).1 = true) as Hok
    by (vm_compute; reflexivity).
  intros resolve. split; [|exact Hok].
  destruct (resolve_tells_last_mutation concrete_service "tenant-alpha" "docs" sample_mutations
    unbind_run.2 (sample_token "tenant-alpha" "j3")
    (mkResolveRequest "tenant-alpha" "docs" "reports/q1" (Some 1) None) "reports/q1"
    resolve.1 resolve.2) as [_ [Hres|(e&He&_)]].
  - exact sample_run.
  - reflexivity.
  - reflexivity.
  - vm_compute. reflexivity.
  - apply surjective_pairing.
  - exact Hres.
  - exfalso. change (is_ok resolve.1 = true) in Hok. rewrite He in Hok. discriminate Hok.
Defined.
