(* ===== verification/AccessProps.v ===== *)
(** * Properties of the durable replay log

    The replay cache of the policy engine lives in memory; the replay records of
    [observe_durable_replay] are what survives a restart.  The statements below
    constrain the second world only by the replay record it holds, so they cover
    a fresh process with an empty cache, another process on the same store, and
    any later state. *)

From Stdlib Require Import ZArith Lia Ascii String Bool.
From stdpp Require Import base option list strings gmap numbers.
From S2P Require Import Prelude RustStr Path Core Cbor CborFacts Concrete Auth Crypto Store ServiceState ServiceFacts Access Namespaces Objects ConcreteService.

Section replay.
Context `{DL : DepsLaws} {B : Backend} `{BL : BackendLaws B} (sv : AlphaService).
Implicit Types w : World B.

(** The replay record of a request. *)
Definition replay_record f (meta : AuthRequestMeta) (j : string) : option ReplayRecord :=
  stored sv f (am_tenant_id meta) "replay"
    (durable_replay_key (am_tenant_id meta) j (am_operation meta) (am_subject meta)).

(** What an admitted mutation with a token id leaves behind: a record with its
    idempotency key.  A retry found one; a first use wrote it. *)
Lemma durable_replay_ok auth meta d w d' w' j :
  is_mutation (am_operation meta) = true → jti (claims auth) = Some j →
  observe_durable_replay sv auth meta d w = (Ok d', w') →
  ∃ r, replay_record (files w') meta j = Some r ∧
       rp_idempotency_key r = default "" (am_idempotency_key meta) ∧
       (d' = d ∧ files w !! store_key (am_tenant_id meta) "replay"
          (durable_replay_key (am_tenant_id meta) j (am_operation meta) (am_subject meta)) = None
        ∨ d' = mkAuthorizationDecision IdempotentRetry ∧
          am_idempotency_key meta = Some (rp_idempotency_key r) ∧
          replay_record (files w) meta j = Some r).
Proof.
  intros Hm Hj. unfold observe_durable_replay. rewrite Hm, Hj. cbn [negb].
  intros (at_ms&w1&Hn&H)%ST_bind_ok. injection Hn as _ <-.
  apply ST_bind_ok in H as (created&w2&Hc&H).
  match type of Hc with create_encrypted_json _ ?t ?k ?key ?v ?w0 = _ =>
    pose proof (create_json_spec sv t k key v w0) as Hs end.
  cbv zeta in Hs. rewrite Hc in Hs. destruct Hs as (_&_&Ht&Hf). cbn [fst snd] in *.
  destruct created.
  - apply ST_ret_ok in H as [<- <-]. destruct (Ht eq_refl) as [Hnone Hst].
    eexists. split; [exact Hst|]. split; [done|]. by left.
  - apply ST_bind_ok in H as (o&w3&(Hf3&Ho&_)%read_json_ok&H).
    apply ST_bind_ok in H as (existing&w4&He&H). unfold lift_result in He.
    injection He as He <-. destruct o as [x|]; simplify_eq/=.
    case_bool_decide as Hk.
    + apply ST_ret_ok in H as [<- <-]. exists existing. unfold replay_record.
      pose proof (Hf eq_refl) as Hsame.
      rewrite Hf3, <-Ho, Hk. split_and!; [done..|]. right. split_and!; [done..|].
      rewrite Ho, Hsame. done.
    + rewrite ST_bind_run in H.
      by destruct (authorization_denied_api_error sv meta ReplayDetected _) as [[]].
Qed.

Lemma authorize_request_ok auth meta w d w' :
  authorize_request sv auth meta w = (Ok d, w') →
  ∃ d0 w1, files w1 = files w ∧ observe_durable_replay sv auth meta d0 w1 = (Ok d, w').
Proof.
  unfold authorize_request. intros (now&w1&Hn&H)%ST_bind_ok. injection Hn as <- <-.
  apply ST_bind_ok in H as (r&w2&Hr&H). unfold attempt, zoom in Hr.
  destruct (authorize _ _ _ _) as [r' seen]. injection Hr as <- <-.
  destruct r' as [d0|reason].
  - exists d0. eexists. split; [|exact H]. done.
  - rewrite ST_bind_run in H.
    by destruct (authorization_denied_api_error sv meta reason _) as [[]].
Qed.

(** With a replay record in the store, only the holder of its idempotency key is
    admitted, and only as a retry. *)
Lemma authorize_request_recorded auth meta w d w' j r :
  is_mutation (am_operation meta) = true → jti (claims auth) = Some j →
  replay_record (files w) meta j = Some r →
  authorize_request sv auth meta w = (Ok d, w') →
  d = mkAuthorizationDecision IdempotentRetry ∧
  am_idempotency_key meta = Some (rp_idempotency_key r).
Proof.
  intros Hm Hj Hr (d0&w1&Hf&H)%authorize_request_ok.
  destruct (durable_replay_ok _ _ _ _ _ _ _ Hm Hj H) as (r'&_&_&[[_ Hn]|(->&Hk&Hr')]).
  - unfold replay_record in Hr. rewrite stored_absent in Hr; [done|]. by rewrite <-Hf.
  - rewrite Hf, Hr in Hr'. injection Hr' as ->. done.
Qed.

(** C5: replays are refused after a restart.  Once a mutation was admitted, a
    request with the same tenant, token id, operation and subject is refused in
    every world that still holds the replay record, whatever its cache and clock
    are, unless it repeats the first idempotency key, and then it is classified
    as a retry. *)
Theorem replay_refused_after_restart auth meta w d w1 auth' meta' w2 j :
  is_mutation (am_operation meta) = true →
  jti (claims auth) = Some j → jti (claims auth') = Some j →
  am_tenant_id meta' = am_tenant_id meta → am_operation meta' = am_operation meta →
  am_subject meta' = am_subject meta →
  authorize_request sv auth meta w = (Ok d, w1) →
  replay_record (files w2) meta j = replay_record (files w1) meta j →
  (am_idempotency_key meta' ≠ Some (default "" (am_idempotency_key meta)) →
     is_ok (authorize_request sv auth' meta' w2).1 = false) ∧
  (∀ d', (authorize_request sv auth' meta' w2).1 = Ok d' →
     d' = mkAuthorizationDecision IdempotentRetry).
Proof.
  intros Hm Hj Hj' Et Eo Es (d0&w0&_&H)%authorize_request_ok Hsame.
  destruct (durable_replay_ok _ _ _ _ _ _ _ Hm Hj H) as (r&Hr&Hk&_).
  assert (replay_record (files w2) meta' j = Some r) as Hr2.
  { unfold replay_record in *. by rewrite Et, Eo, Es, Hsame. }
  destruct (authorize_request sv auth' meta' w2) as [[d2|e] w3] eqn:Ha; [|by split].
  assert (is_mutation (am_operation meta') = true) as Hm' by by rewrite Eo.
  destruct (authorize_request_recorded _ _ _ _ _ _ _ Hm' Hj' Hr2 Ha) as [-> Hi].
  rewrite Hk in Hi. cbn. split; [done|]. by intros ? [= <-].
Qed.
End replay.

Import ToyService.

(** A bind of a token, and what its authorization leaves. *)
Definition bind_meta (key : option string) : AuthRequestMeta :=
  {| am_operation := OpBind; am_tenant_id := "tenant-alpha"; am_subject := "docs:reports/q1";
     am_namespace := Some "docs"; am_path := Some "reports/q1"; am_content_size := None;
     am_storage_class := None; am_key_policy_id := None; am_encryption_profile_id := None;
     am_metadata_visibility := None; am_idempotency_key := key |}.
Definition first_use : result ApiError AuthorizationDecision * World (fs_backend no_faults) :=
  authorize_request concrete_service (sample_token "tenant-alpha" "j1")
    (bind_meta (Some "idem-1")) (empty_world no_faults).
(** The same store under a new process: no cache, no metrics, no logs. *)
Definition restarted : World (fs_backend no_faults) :=
  @mkWorld (fs_backend no_faults) (w_store first_use.2) 100 200 ∅ ∅ [].

(** Witness of C5: a replay with another key and a retry, both after a restart. *)
Lemma replay_refused_after_restart_witness :
  first_use.1 = Ok (mkAuthorizationDecision Fresh) ∧
  is_ok (authorize_request concrete_service (sample_token "tenant-alpha" "j1")
           (bind_meta (Some "idem-2")) restarted).1 = false ∧
  (authorize_request concrete_service (sample_token "tenant-alpha" "j1")
     (bind_meta (Some "idem-1")) restarted).1 = Ok (mkAuthorizationDecision IdempotentRetry).
Proof.
  split; [vm_compute; reflexivity|]. split.
  - refine (proj1 (replay_refused_after_restart concrete_service
      (sample_token "tenant-alpha" "j1") (bind_meta (Some "idem-1")) (empty_world no_faults)
      (mkAuthorizationDecision Fresh) first_use.2 (sample_token "tenant-alpha" "j1")
      (bind_meta (Some "idem-2")) restarted "j1" eq_refl eq_refl eq_refl eq_refl eq_refl
      eq_refl _ eq_refl) _); [apply run_pair; vm_compute; reflexivity|discriminate].
  - vm_compute. reflexivity.
Defined.
