(* ===== verification/EventProps.v ===== *)
(** * Specification of the event log, and what a subscriber receives

    The abstract state of a tenant's event log is the list of its entries in
    sequence order, starting at 1; an entry is [None] where a number was taken
    but no event was written.  [log_refines] relates it to the sequence record
    and the event records of the store.  Appending refines [snoc], and polling
    is a cursor over the list: what a poll delivers, followed by what later polls
    find, is what matched before it. *)

From Stdlib Require Import ZArith Lia Ascii String Bool.
From stdpp Require Import base option list strings gmap numbers sorting.
From S2P Require Import Prelude RustStr Path Core Cbor CborFacts Concrete Auth Crypto Store ServiceState ServiceFacts Access Subscribe ConcreteService AccessProps.

Abbreviation event_log := (list (option EventRecord)).

(** ** Cursors over a list *)

(** The last element that passes a filter splits the list: nothing after it in
    the list passes. *)
Lemma filter_last_split {A} (p : A → bool) l x :
  last (List.filter p l) = Some x →
  ∃ l1 l2, l = l1 ++ x :: l2 ∧ List.filter p l2 = [].
Proof.
  induction l as [|y l IH] using rev_ind; [done|].
  rewrite List.filter_app. cbn. destruct (p y) eqn:Hy.
  - rewrite last_snoc. intros [= ->]. by exists l, [].
  - rewrite app_nil_r. intros (l1&l2&->&Hl2)%IH. exists l1, (l2 ++ [y]).
    rewrite List.filter_app, Hl2. cbn. rewrite Hy. split; [|done]. by rewrite <-(assoc_L (++)).
Qed.

(** An event of a log, as an entry: the entries after it are the events after it. *)
Lemma omap_id_split {A} (l : list (option A)) l1 x l2 :
  omap id l = l1 ++ x :: l2 →
  ∃ k, l !! k = Some (Some x) ∧ omap id (drop (S k) l) = l2.
Proof.
  revert l1. induction l as [|[y|] l IH]; intros l1; cbn.
  - by destruct l1.
  - destruct l1 as [|z l1]; cbn; intros [= -> H].
    + by exists 0%nat.
    + destruct (IH _ H) as (k&?&?). by exists (S k).
  - intros (k&?&?)%IH. by exists (S k).
Qed.

(** Names of the records of a log of length [n]. *)
Definition event_names (n : nat) : list string :=
  "sequence" :: ((λ i, event_key (Z.of_nat i)) <$> seq 1 n).

Lemma event_key_inj m n :
  0 <= m < 2 ^ 64 → 0 <= n < 2 ^ 64 → event_key m = event_key n → m = n.
Proof.
  unfold event_key. intros Hm Hn H%(f_equal as_bytes). rewrite !as_bytes_app in H.
  apply app_inv_head, (inj as_bytes) in H. revert H.
  apply dec_pad_inj; cbn; lia.
Qed.
Lemma event_key_not_sequence n : event_key n ≠ "sequence".
Proof. unfold event_key. discriminate. Qed.

Section log.
Context `{DL : DepsLaws} {B : Backend} `{BL : BackendLaws B} (sv : AlphaService).
Implicit Types (w : World B) (f : gmap string bytes) (t : TenantId).

(** SHA-256 separates the names of the records of a log of length [n]. *)
Definition event_names_separate (n : nat) : Prop :=
  NoDup ((λ s, cid_from_bytes (as_bytes s)) <$> event_names n).

Definition log_next f t : Z :=
  next_seq (default (mkSequenceState 1) (stored sv f t "events" "sequence")).

Record log_refines f t (log : event_log) : Prop := {
  lr_next : log_next f t = Z.of_nat (length log) + 1;
  lr_event : ∀ i ev, log !! i = Some (Some ev) →
    stored sv f t "events" (event_key (Z.of_nat i + 1)) = Some ev ∧
    ev_seq ev = Z.of_nat i + 1;
  lr_gap : ∀ i, log !! i = Some None →
    f !! store_key t "events" (event_key (Z.of_nat i + 1)) = None;
}.

Lemma event_names_ne n a b t :
  event_names_separate n → a ∈ event_names n → b ∈ event_names n → a ≠ b →
  store_key t "events" a ≠ store_key t "events" b.
Proof.
  intros Hsep (i&Hi)%list_elem_of_lookup (j&Hj)%list_elem_of_lookup Hne Heq.
  apply store_key_inj in Heq as (_&_&Hcid); [|done..].
  assert (i = j) as ->; [|congruence].
  eapply NoDup_lookup; [exact Hsep|rewrite list_lookup_fmap, Hi; reflexivity|].
  rewrite list_lookup_fmap, Hj. cbn. by rewrite Hcid.
Qed.

Lemma event_key_name n i :
  1 <= i <= Z.of_nat n → event_key i ∈ event_names n.
Proof.
  intros Hi. apply list_elem_of_further, list_elem_of_fmap. exists (Z.to_nat i).
  rewrite Z2Nat.id by lia. split; [done|]. apply elem_of_seq. lia.
Qed.

(** One sequence number, and one event. *)
Lemma next_event_seq_ok t w n w' :
  next_event_seq sv t w = (Ok n, w') →
  n = log_next (files w) t ∧ log_next (files w') t = u64_add n 1 ∧
  agree_off (store_key t "events" "sequence") (files w) (files w').
Proof.
  unfold next_event_seq. intros (o&w1&(Hf&->&_)%read_json_ok&H)%ST_bind_ok. cbn zeta in H.
  apply ST_bind_ok in H as (u&w2&Hw&H). apply write_json_ok in Hw as [Ha Hs]; [|apply _].
  apply ST_ret_ok in H as [<- <-]. rewrite Hf in Ha. split_and!; [done| |done].
  unfold log_next at 1. by rewrite Hs.
Qed.

Lemma append_event_ok t ev w n w' :
  append_event sv t ev w = (Ok n, w') →
  ∃ w1, n = log_next (files w) t ∧ log_next (files w1) t = u64_add n 1 ∧
    agree_off (store_key t "events" "sequence") (files w) (files w1) ∧
    agree_off (store_key t "events" (event_key n)) (files w1) (files w') ∧
    stored sv (files w') t "events" (event_key n) = Some (set_event_seq ev n).
Proof.
  unfold append_event. intros (m&w1&(->&Hn&Hoff)%next_event_seq_ok&H)%ST_bind_ok.
  apply ST_bind_ok in H as (u&w2&Hw&H). apply write_json_ok in Hw as [Ha Hs]; [|apply _].
  apply ST_ret_ok in H as [<- <-]. by exists w1.
Qed.

(** ** Appending *)

Lemma append_event_refines t log ev w n w' :
  event_names_separate (S (length log)) → Z.of_nat (length log) + 2 < 2 ^ 64 →
  log_refines (files w) t log → append_event sv t ev w = (Ok n, w') →
  n = Z.of_nat (length log) + 1 ∧
  log_refines (files w') t (log ++ [Some (set_event_seq ev n)]).
Proof.
  intros Hsep Hmax [Hnext Hev Hgap] (w1&Hn&Hn1&Hoff1&Hoff2&Hst)%append_event_ok.
  rewrite Hnext in Hn. split; [done|]. rewrite u64_add_small in Hn1 by lia.
  pose proof (λ i, event_key_name (S (length log)) i) as Hname.
  assert (∀ i, (i < length log)%nat →
    files w' !! store_key t "events" (event_key (Z.of_nat i + 1)) =
    files w !! store_key t "events" (event_key (Z.of_nat i + 1))) as Hold.
  { intros i Hi. rewrite (agree_off_lookup _ _ _ _ Hoff2).
    - apply (agree_off_lookup _ _ _ _ Hoff1). eapply event_names_ne;
        [exact Hsep|apply Hname; lia|left|apply event_key_not_sequence].
    - eapply event_names_ne; [exact Hsep|apply Hname; lia|apply Hname; lia|].
      intros Heq%event_key_inj; lia. }
  split.
  - unfold log_next. rewrite (stored_ext (T:=SequenceState) sv _ _ _ _ _ (agree_off_lookup _ _ _ _ Hoff2
      ltac:(eapply event_names_ne; [exact Hsep|left|apply Hname; lia|];
            apply not_eq_sym, event_key_not_sequence))).
    fold (log_next (files w1) t). rewrite Hn1, length_app. cbn. lia.
  - intros i e [Hi|[Hi Hl]]%lookup_app_Some.
    + destruct (Hev _ _ Hi) as [Hs Hq]. split; [|done].
      rewrite (stored_ext (T:=EventRecord) sv _ _ _ _ _ (Hold i (lookup_lt_Some _ _ _ Hi))). done.
    + apply list_lookup_singleton_Some in Hl as [? [= <-]].
      replace (Z.of_nat i + 1) with n by lia. done.
  - intros i [Hi|[_ [_ [=]]%list_lookup_singleton_Some]]%lookup_app_Some.
    rewrite (Hold i (lookup_lt_Some _ _ _ Hi)). by apply Hgap.
Qed.

(** ** Reading *)

Lemma read_events_ok t log w i count room evs w' :
  log_refines (files w) t log → (i + count <= length log)%nat →
  read_events sv t (Z.of_nat i + 1) count room w = (Ok evs, w') →
  files w' = files w ∧ evs = take room (omap id (take count (drop i log))).
Proof.
  intros Hlog. revert i room w evs Hlog.
  induction count as [|count IH]; intros i room w evs Hlog Hle; cbn [read_events].
  { intros [<- <-]%ST_ret_ok. by destruct room. }
  destruct room as [|room]; [by intros [<- <-]%ST_ret_ok|].
  intros (o&w1&(Hf&Ho&_)%read_json_ok&H)%ST_bind_ok.
  destruct (lookup_lt_is_Some_2 log i) as [e He]; [lia|].
  rewrite (drop_S _ _ _ He). cbn [take]. replace (Z.of_nat i + 1 + 1) with (Z.of_nat (S i) + 1) in H by lia.
  assert (log_refines (files w1) t log) as Hlog1 by by rewrite Hf.
  destruct e as [ev|].
  - destruct (lr_event _ _ _ Hlog _ _ He) as [Hs _]. rewrite Hs in Ho. subst o.
    apply ST_bind_ok in H as (rest&w2&Hr&H). apply ST_ret_ok in H as [<- <-].
    apply (IH _ _ _ _ Hlog1) in Hr as [Hf2 ->]; [|lia]. cbn. by rewrite Hf2.
  - rewrite (stored_absent sv _ _ _ _ (lr_gap _ _ _ Hlog _ He)) in Ho. subst o.
    apply (IH _ _ _ _ Hlog1) in H as [Hf2 ->]; [|lia]. cbn. by rewrite Hf2.
Qed.

(** The events a cursor has ahead of it. *)
Definition events_from (next : Z) (log : event_log) : list EventRecord :=
  omap id (drop (Z.to_nat (next - 1)) log).

Lemma read_event_records_after_ok t log w from batch evs w' :
  1 <= from → log_refines (files w) t log →
  read_event_records_after sv t from batch w = (Ok evs, w') →
  files w' = files w ∧ evs = take batch (events_from from log).
Proof.
  intros Hfrom Hlog. unfold read_event_records_after.
  intros (n&w1&Hn&H)%ST_bind_ok. unfold next_read_event_seq in Hn.
  apply ST_bind_ok in Hn as (o&w2&(Hf&->&_)%read_json_ok&Hn). apply ST_ret_ok in Hn as [<- <-].
  fold (log_next (files w) t) in H. rewrite (lr_next _ _ _ Hlog) in H.
  unfold events_from. destruct (decide (from <= Z.of_nat (length log) + 1)).
  - replace from with (Z.of_nat (Z.to_nat (from - 1)) + 1) in H at 1 by lia.
    apply (read_events_ok t log) in H as [Hf2 ->]; [|by rewrite Hf|lia].
    split; [by rewrite Hf2|]. rewrite (take_ge (drop _ _)); [done|]. rewrite length_drop. lia.
  - replace (Z.to_nat (_ - from)) with 0%nat in H by lia. apply ST_ret_ok in H as [<- <-].
    rewrite drop_ge by lia. by destruct batch.
Qed.

(** Subscribing changes nothing in the store. *)
Lemma authorize_read_files auth meta w d w' :
  is_mutation (am_operation meta) = false →
  authorize_request sv auth meta w = (Ok d, w') → files w' = files w.
Proof.
  intros Hm (d0&w1&Hf&H)%authorize_request_ok. unfold observe_durable_replay in H.
  rewrite Hm in H. by apply ST_ret_ok in H as [_ <-].
Qed.

Lemma authorize_filters_files auth t i filters w u w' :
  authorize_filters sv auth t i filters w = (Ok u, w') → files w' = files w.
Proof.
  revert i w. induction filters as [|x filters IH]; intros i w; cbn [authorize_filters].
  { by intros [_ <-]%ST_ret_ok. }
  intros (d&w1&Ha&H)%ST_bind_ok. apply authorize_read_files in Ha; [|done].
  apply IH in H. by rewrite H.
Qed.

Lemma next_read_event_seq_files t w n w' :
  next_read_event_seq sv t w = (Ok n, w') → files w' = files w.
Proof.
  unfold next_read_event_seq. intros (o&w1&(Hf&_)%read_json_ok&H)%ST_bind_ok.
  by apply ST_ret_ok in H as [_ <-].
Qed.

Lemma subscribe_start_files auth request w c w' :
  subscribe_start sv auth request w = (Ok c, w') → files w' = files w.
Proof.
  unfold subscribe_start. destruct (existsb _ _); [done|].
  intros (u&w1&Ha&H)%ST_bind_ok. apply ST_bind_ok in H as (n&w2&Hn&H).
  apply ST_bind_ok in H as (from&w3&Hl&H). apply ST_bind_ok in H as (u2&w4&Hw&H).
  apply ST_ret_ok in H as [_ <-]. unfold lift_result in Hl. injection Hl as _ <-.
  transitivity (files w2).
  { unfold ensure_event_cursor_within_window in Hw. apply ST_bind_ok in Hw as (m&w5&Hm&Hw).
    destruct (_ <? _); [done|]. apply ST_ret_ok in Hw as [_ <-].
    by apply next_read_event_seq_files in Hm. }
  transitivity (files w1); [by apply next_read_event_seq_files in Hn|].
  case_bool_decide; [|by apply authorize_filters_files in Ha].
  apply ST_bind_ok in Ha as (d&w5&Ha&Hr). apply ST_ret_ok in Hr as [_ <-].
  by apply authorize_read_files in Ha.
Qed.

(** A poll in terms of the log. *)
Lemma subscribe_poll_ok auth request c w envs c' w' log :
  1 <= ec_next_seq c → log_refines (files w) (sq_tenant_id request) log →
  subscribe_poll sv auth request c w = (Ok (envs, c'), w') →
  let delivered := matching_events (sq_filters request)
    (take (Z.to_nat (default 64 (sq_batch_max request))) (events_from (ec_next_seq c) log)) in
  files w' = files w ∧ c' = advance_cursor c (sq_tenant_id request) delivered ∧
  envs = match delivered with
         | [] => [mkSubscribeEnvelope EnvNotice None
                    (Some (mkNoticeFrame "heartbeat" None (Some (event_cursor_encode c'))))]
         | _ => map (λ ev, mkSubscribeEnvelope EnvEvent (Some ev) None) delivered
         end.
Proof.
  intros Hc Hlog H. unfold subscribe_poll in H. cbn zeta in H.
  apply ST_bind_ok in H as (c0&w1&Hs&H). apply subscribe_start_files in Hs.
  apply ST_bind_ok in H as (evs&w2&Hr&H).
  apply (read_event_records_after_ok _ log) in Hr as [Hf ->]; [|done|by rewrite Hs].
  injection H as <- <- <-. cbn zeta. split_and!; [by rewrite Hf|done|done].
Qed.

Lemma matching_events_app filters l1 l2 :
  matching_events filters (l1 ++ l2) = matching_events filters l1 ++ matching_events filters l2.
Proof. apply List.filter_app. Qed.

(** The events of a response. *)
Lemma delivered_events c (evs : list EventRecord) :
  omap se_event (match evs with
    | [] => [mkSubscribeEnvelope EnvNotice None
               (Some (mkNoticeFrame "heartbeat" None (Some (event_cursor_encode c))))]
    | _ => map (λ ev, mkSubscribeEnvelope EnvEvent (Some ev) None) evs
    end) = evs.
Proof.
  destruct evs as [|e evs]; [done|]. generalize (e :: evs).
  induction l as [|x l IH]; cbn; congruence.
Qed.

(** The cursor moves behind the last delivered event and no further. *)
Lemma advance_cursor_split f t log c filters batch :
  1 <= ec_next_seq c → Z.of_nat (length log) + 2 < 2 ^ 64 → log_refines f t log →
  let delivered := matching_events filters (take batch (events_from (ec_next_seq c) log)) in
  let c' := advance_cursor c t delivered in
  matching_events filters (events_from (ec_next_seq c) log) =
    delivered ++ matching_events filters (events_from (ec_next_seq c') log) ∧
  ec_next_seq c <= ec_next_seq c'.
Proof.
  intros Hc Hmax Hlog. cbn zeta. pose proof (take_drop batch (events_from (ec_next_seq c) log)) as Hall.
  unfold advance_cursor. destruct (last (matching_events _ _)) as [x|] eqn:Hlast; cbn [ec_next_seq].
  - rewrite <-Hall at 1. rewrite matching_events_app.
    apply filter_last_split in Hlast as (l1&l2&Hsplit&Hl2).
    rewrite Hsplit, <-(assoc_L (++)) in Hall. cbn in Hall. symmetry in Hall.
    apply omap_id_split in Hall as (k&Hk&Hrest). rewrite lookup_drop in Hk.
    rewrite drop_drop in Hrest. pose proof (lookup_lt_Some _ _ _ Hk).
    destruct (lr_event _ _ _ Hlog _ _ Hk) as [_ Hseq].
    rewrite u64_add_small by lia. split; [|lia]. f_equal.
    unfold events_from at 2. replace (Z.to_nat (ev_seq x + 1 - 1)) with
      (Z.to_nat (ec_next_seq c - 1) + S k)%nat by lia.
    rewrite Hrest, matching_events_app. unfold matching_events at 2. by rewrite Hl2.
  - apply last_None in Hlast. by rewrite Hlast.
Qed.

(** C7: a subscriber misses nothing and sees nothing twice.  The events a poll
    delivers, followed by the matching events ahead of the cursor it returns, are
    the matching events ahead of the cursor it was given; the cursor never moves
    back and the log is not changed. *)
Theorem subscribe_poll_exactly_once auth request c w envs c' w' log :
  1 <= ec_next_seq c → Z.of_nat (length log) + 2 < 2 ^ 64 →
  log_refines (files w) (sq_tenant_id request) log →
  subscribe_poll sv auth request c w = (Ok (envs, c'), w') →
  matching_events (sq_filters request) (events_from (ec_next_seq c) log) =
    omap se_event envs ++
    matching_events (sq_filters request) (events_from (ec_next_seq c') log) ∧
  ec_next_seq c <= ec_next_seq c' ∧
  log_refines (files w') (sq_tenant_id request) log.
Proof.
  intros Hc Hmax Hlog H.
  destruct (subscribe_poll_ok _ _ _ _ _ _ _ _ Hc Hlog H) as (Hf&->&->).
  rewrite delivered_events, Hf. edestruct advance_cursor_split as [H1 H2]; [done..|].
  split_and!; [exact H1|exact H2|done].
Qed.

(** A subscriber can starve.  When none of the next [batch_max] events matches,
    a poll answers with a heartbeat and the cursor it was given, however many
    matching events come later: every further poll does the same. *)
Theorem subscribe_poll_stalls auth request c w envs c' w' log :
  1 <= ec_next_seq c → log_refines (files w) (sq_tenant_id request) log →
  matching_events (sq_filters request)
    (take (Z.to_nat (default 64 (sq_batch_max request))) (events_from (ec_next_seq c) log)) = [] →
  subscribe_poll sv auth request c w = (Ok (envs, c'), w') →
  c' = mkEventCursor (sq_tenant_id request) (ec_next_seq c) ∧
  envs = [mkSubscribeEnvelope EnvNotice None
            (Some (mkNoticeFrame "heartbeat" None (Some (event_cursor_encode c'))))] ∧
  log_refines (files w') (sq_tenant_id request) log.
Proof.
  intros Hc Hlog Hnone H.
  destruct (subscribe_poll_ok _ _ _ _ _ _ _ _ Hc Hlog H) as (Hf&->&->).
  rewrite Hnone, Hf. done.
Qed.
End log.

Import ToyService.

(** A log of two events: an [AuthDenied] and an [ObjectCommitted]. *)
Definition sample_log_event (kind : EventType) : EventRecord :=
  mkEventRecord 1 0 1500 kind "object" None None None None None ∅.
Definition first_append : result ApiError Z * World (fs_backend no_faults) :=
  append_event concrete_service "tenant-alpha" (sample_log_event AuthDenied)
    (empty_world no_faults).
Definition second_append : result ApiError Z * World (fs_backend no_faults) :=
  append_event concrete_service "tenant-alpha" (sample_log_event ObjectCommitted)
    first_append.2.
Definition sample_log : event_log :=
  [Some (set_event_seq (sample_log_event AuthDenied) 1);
   Some (set_event_seq (sample_log_event ObjectCommitted) 2)].

Lemma sample_names_separate : event_names_separate 2.
Proof. refine (bool_decide_eq_true_1 _ _). vm_compute. reflexivity. Qed.
Lemma sample_names_separate_1 : event_names_separate 1.
Proof. refine (bool_decide_eq_true_1 _ _). vm_compute. reflexivity. Qed.

Lemma first_append_refined :
  log_refines concrete_service (files first_append.2) "tenant-alpha" (take 1 sample_log).
Proof.
  refine (proj2 (append_event_refines concrete_service "tenant-alpha" [] _
    (empty_world no_faults) 1 first_append.2 sample_names_separate_1 eq_refl _ _)).
  - split; [reflexivity|intros i ev Hi; by destruct i|intros i Hi; by destruct i].
  - apply run_pair. vm_compute. reflexivity.
Qed.

Lemma sample_log_refined :
  log_refines concrete_service (files second_append.2) "tenant-alpha" sample_log.
Proof.
  refine (proj2 (append_event_refines concrete_service "tenant-alpha" (take 1 sample_log) _
    first_append.2 2 second_append.2 sample_names_separate eq_refl first_append_refined _)).
  apply run_pair. vm_compute. reflexivity.
Qed.

(** A subscription to committed objects, with a batch size. *)
Definition sample_subscription (batch : Z) : SubscribeRequest :=
  mkSubscribeRequest "tenant-alpha"
    [mkSubscribeFilter None None None (Some ObjectCommitted) None] None (Some 1) None (Some batch).
Definition poll_run (batch : Z)
  : result ApiError (list SubscribeEnvelope * EventCursor) * World (fs_backend no_faults) :=
  subscribe_poll concrete_service (sample_token "tenant-alpha" "j1") (sample_subscription batch)
    (mkEventCursor "tenant-alpha" 1) second_append.2.

(** Witness of C7: a batch of two delivers the committed object. *)
Lemma subscribe_poll_exactly_once_witness :
  ∃ envs c', (poll_run 2).1 = Ok (envs, c') ∧ length (omap se_event envs) = 1%nat ∧
  matching_events (sq_filters (sample_subscription 2)) (events_from 1 sample_log) =
    omap se_event envs ++
    matching_events (sq_filters (sample_subscription 2)) (events_from (ec_next_seq c') sample_log) ∧
  1 <= ec_next_seq c' ∧
  log_refines concrete_service (files (poll_run 2).2) "tenant-alpha" sample_log.
Proof.
  eexists _, _. split; [vm_compute; reflexivity|]. split; [reflexivity|].
  eapply (subscribe_poll_exactly_once concrete_service (sample_token "tenant-alpha" "j1")
            (sample_subscription 2) (mkEventCursor "tenant-alpha" 1) second_append.2).
  - cbn. lia.
  - reflexivity.
  - exact sample_log_refined.
  - apply run_pair. vm_compute. reflexivity.
Defined.

