(* ===== verification/ListProps.v ===== *)
(** * Pagination of namespace listings

    A listing is cut into pages by a cursor that names a snapshot revision and
    the last path of the page.  The listing of a snapshot is a function of the
    history of [NamespaceSpec.v], so later mutations do not disturb it, and
    consecutive pages are consecutive segments of it. *)

From Stdlib Require Import ZArith Lia Ascii String Bool.
From stdpp Require Import base option list strings gmap numbers sorting.
From S2P Require Import Prelude RustStr Path Core Cbor CborFacts Concrete Auth Crypto Store ServiceState ServiceFacts Access Namespaces NamespaceSpec ConcreteService.

(** ** Listings *)

(** Every binding sits under its own path. *)
Definition keyed (m : bindings_map) : Prop := ∀ k b, m !! k = Some b → bn_path b = k.

Lemma keyed_insert m k b : bn_path b = k → keyed m → keyed (<[k := b]> m).
Proof. intros Hb Hm k' b' [[<- <-]|[_ ?]]%lookup_insert_Some; auto. Qed.
Lemma keyed_delete m k : keyed m → keyed (delete k m).
Proof. intros Hm k' b' [_ ?]%lookup_delete_Some. auto. Qed.
Lemma replay_journal_keyed r m j : keyed m → keyed (replay_journal r m j).
Proof.
  revert m. induction j as [|e j IH]; intros m Hm; cbn; [done|].
  destruct (r <? je_revision e); [done|]. apply IH. unfold apply_journal_entry.
  repeat case_match; auto using keyed_insert, keyed_delete.
Qed.

Lemma NoDup_fmap_filter {A B} (f : A → B) p l :
  NoDup (f <$> l) → NoDup (f <$> List.filter p l).
Proof.
  induction l as [|x l IH]; [done|]. rewrite fmap_cons. intros [Hx Hl]%NoDup_cons.
  cbn [List.filter]. destruct (p x); [|auto]. rewrite fmap_cons. apply NoDup_cons. split; [|auto].
  intros (y&Heq&Hy)%list_elem_of_fmap. apply Hx, list_elem_of_fmap. exists y. split; [done|].
  rewrite list_elem_of_In in *. by apply List.filter_In in Hy as [? _].
Qed.

Lemma list_items_NoDup prefix tombstones s :
  keyed (ns_bindings s) → NoDup (bn_path <$> list_items prefix tombstones s).
Proof.
  intros Hk. unfold list_items. rewrite merge_sort_Permutation.
  do 2 apply NoDup_fmap_filter. replace (bn_path <$> _) with ((btree_iter (ns_bindings s)).*1).
  { apply btree_iter_NoDup_fst. }
  change (map snd ?l) with (snd <$> l). rewrite <-list_fmap_compose.
  apply list_fmap_ext. intros i [k b] Hi. cbn. symmetry. apply Hk, btree_iter_elem.
  by eapply list_elem_of_lookup_2.
Qed.

(** The page after a page starts where that page ended. *)
Lemma list_start_next items start limit b :
  NoDup (bn_path <$> items) → last (take limit (drop start items)) = Some b →
  list_start items (Some (bn_path b)) = (start + length (take limit (drop start items)))%nat.
Proof.
  set (page := take limit (drop start items)). intros Hnd Hlast.
  assert (∃ n, length page = S n ∧ items !! (start + n)%nat = Some b) as (n&Hn&Hb).
  { rewrite last_lookup in Hlast. destruct (length page) as [|n] eqn:Hlen.
    - by destruct page.
    - exists n. split; [done|]. cbn in Hlast. unfold page in Hlast.
      apply lookup_take_Some in Hlast as [Hlast _]. by rewrite lookup_drop in Hlast. }
  cbn. destruct (list_find (λ x, bn_path x = bn_path b) items) as [[i x]|] eqn:Hf.
  - apply list_find_Some in Hf as (Hi&Heq&_). rewrite Hn.
    assert (i = (start + n)%nat) as ->; [|lia].
    eapply NoDup_lookup; [exact Hnd|rewrite list_lookup_fmap, Hi; reflexivity|].
    rewrite list_lookup_fmap, Hb. cbn. by rewrite Heq.
  - apply list_find_None in Hf. rewrite Forall_lookup in Hf. by destruct (Hf _ _ Hb).
Qed.

(** Two consecutive pages of a list. *)
Lemma two_pages {A} (l : list A) start l1 l2 :
  let p1 := take l1 (drop start l) in
  let p2 := take l2 (drop (start + length p1) l) in
  l = take start l ++ p1 ++ p2 ++ drop (start + length p1 + length p2) l.
Proof.
  cbn zeta.
  assert (∀ (k : list A) n, k = take n k ++ drop (length (take n k)) k) as Hcut.
  { intros k n. rewrite length_take. destruct (decide (n <= length k)%nat).
    - by rewrite Nat.min_l, take_drop by lia.
    - by rewrite take_ge, drop_ge, app_nil_r by lia. }
  rewrite <-(take_drop start l) at 1. f_equal.
  rewrite (Hcut (drop start l) l1) at 1. rewrite drop_drop. f_equal.
  rewrite (Hcut (drop (start + _) l) l2) at 1. by rewrite drop_drop.
Qed.

Lemma history_at_app r h h' :
  Forall (λ e, r < e.1) h' → history_at r (h ++ h') = history_at r h.
Proof.
  induction h' as [|e h' IH] using rev_ind; [by rewrite app_nil_r|].
  rewrite Forall_app, Forall_singleton. intros [Hh He]. rewrite (assoc_L (++)), history_at_snoc.
  rewrite (proj2 (Z.leb_gt _ _) He). auto.
Qed.

Section list.
Context `{DL : DepsLaws} `{CL : !CborReaderLaws} {B : Backend} `{BL : BackendLaws B} (sv : AlphaService).
Implicit Types w : World B.

(** The items of a snapshot, in path order. *)
Definition listing (ns : string) (prefix : option string) (tombstones : bool) (r : Z)
  (h : ns_history) : list NamespaceBindingState :=
  list_items prefix tombstones (mkNamespaceCurrentState ns r (history_at r h)).

Definition canonical_prefix (prefix : option string) : result ApiError (option string) :=
  match prefix with
  | Some value => p ← map_err (invalid_path_error "invalid_prefix") (canonical_path value); Ok (Some p)
  | None => Ok None
  end.

(** The position a request names: a snapshot and a last path. *)
Definition list_position (request : ListRequest) (ns : string) (prefix : option string)
  (h : ns_history) (r : Z) (last_path : option string) : Prop :=
  match lq_cursor request with
  | Some encoded =>
      ∃ c, list_cursor_decode encoded = Ok c ∧ lc_snapshot_revision c = r ∧
           last_path = Some (lc_last_path c)
  | None => r = history_revision h ∧ last_path = None
  end.

Lemma listing_NoDup f t ns prefix tombstones r h :
  ns_refines sv f t ns h → NoDup (bn_path <$> listing ns prefix tombstones r h).
Proof.
  intros Hr. apply list_items_NoDup. cbn. rewrite <-(nr_snapshots _ _ _ _ _ Hr).
  by apply replay_journal_keyed.
Qed.

(** A listing request that succeeds, in terms of the history. *)
Lemma list_op_ok auth request ns prefix w resp w' h :
  canonical_path (lq_namespace request) = Ok ns →
  canonical_prefix (lq_prefix request) = Ok prefix →
  ns_refines sv (files w) (lq_tenant_id request) ns h →
  list_op sv auth request w = (Ok resp, w') →
  ∃ r last_path, list_position request ns prefix h r last_path ∧
  let items := listing ns prefix (lq_include_tombstones request) r h in
  let start := list_start items last_path in
  let page := take (Z.to_nat (default 100 (lq_limit request))) (drop start items) in
  resp = {| ls_items := map (list_item_of ns) page;
            ls_next_cursor :=
              if Nat.ltb (start + length page) (length items)
              then Some (list_cursor_encode
                     (mkListCursor (lq_tenant_id request) ns prefix r
                        (match last page with Some b => bn_path b | None => "" end)))
              else None;
            ls_truncated := Nat.ltb (start + length page) (length items);
            ls_namespace_revision_snapshot := r |}.
Proof.
  intros Hns Hpre Href H. unfold list_op in H. cbn zeta in H. rewrite Hns in H.
  apply ST_bind_ok in H as (ns'&w0&Hl&H). unfold lift_result in Hl. injection Hl as <- <-.
  apply ST_bind_ok in H as (pre'&w0&Hl&H). unfold lift_result in Hl.
  fold (canonical_prefix (lq_prefix request)) in Hl. rewrite Hpre in Hl. injection Hl as <- <-.
  apply ST_bind_ok in H as (d&w1&Ha&H). apply authorized_keeps in Ha.
  assert (ns_refines sv (files w1) (lq_tenant_id request) ns h) as Href1.
  { eapply ns_refines_keeps; [exact Ha|repeat constructor| |done].
    unfold ns_record_kinds, access_kinds. set_solver. }
  apply ST_bind_ok in H as ([r last_path]&w2&Hpos&H).
  apply ST_bind_ok in H as (s&w3&Hs&H). apply snapshot_at_ok in Hs as [_ Hb].
  assert (files w2 = files w1 ∧ list_position request ns prefix h r last_path) as [Hf Hposn].
  { unfold list_position. destruct (lq_cursor request) as [enc|].
    - apply ST_bind_ok in Hpos as (c&w4&Hc&Hpos). unfold lift_result in Hc. injection Hc as Hc <-.
      destruct (_ || _); [done|]. injection Hpos as <- <- <-. eauto 6.
    - apply ST_bind_ok in Hpos as (c&w4&Hc&Hpos). apply current_state_ok in Hc as [Hf ->].
      injection Hpos as <- <- <-. split; [done|]. split; [apply Href1|done]. }
  rewrite Hf, (nr_snapshots _ _ _ _ _ Href1) in Hb.
  exists r, last_path. split; [done|]. cbn zeta.
  assert (list_items prefix (lq_include_tombstones request) s =
          listing ns prefix (lq_include_tombstones request) r h) as Hitems.
  { unfold listing, list_items. by rewrite Hb. }
  rewrite Hitems in H. by injection H as <- _.
Qed.

(** The same request with the cursor of a page. *)
Definition next_request (request : ListRequest) (cursor : string) (limit : option Z)
  : ListRequest :=
  mkListRequest (lq_tenant_id request) (lq_namespace request) (lq_prefix request) (Some cursor)
    limit (lq_recursive request) (lq_include_tombstones request).

(** The cursor that names a listed path decodes to itself. *)
Lemma next_cursor_ok (t : TenantId) ns prefix tombstones r h b c :
  keyed (history_at r h) → b ∈ listing ns prefix tombstones r h →
  (∀ path x, history_at r h !! path = Some x →
     list_cursor_wf (mkListCursor t ns prefix r path) = true) →
  list_cursor_decode (list_cursor_encode (mkListCursor t ns prefix r (bn_path b))) = Ok c →
  c = mkListCursor t ns prefix r (bn_path b).
Proof.
  intros Hk Hb Hwf. rewrite list_cursor_decode_encode.
  { cbn [lc_tenant_id lc_namespace lc_last_path]. repeat case_match; congruence. }
  unfold listing, list_items in Hb. cbn [ns_bindings] in Hb.
  rewrite merge_sort_Permutation, list_elem_of_In, !List.filter_In, <-list_elem_of_In in Hb.
  destruct Hb as [[([k x]&->&Hin)%list_elem_of_fmap _] _]. apply btree_iter_elem in Hin.
  cbn. rewrite (Hk _ _ Hin). by apply (Hwf k x).
Qed.

(** The last item of a page that leaves items behind. *)
Lemma truncated_page_last {A} (items : list A) start limit :
  (0 < limit)%nat →
  (start + length (take limit (drop start items)) < length items)%nat →
  ∃ b, last (take limit (drop start items)) = Some b ∧ b ∈ items.
Proof.
  intros Hl Hlt. destruct (last (take limit (drop start items))) as [b|] eqn:Hlast.
  - exists b. split; [done|]. apply last_Some_elem_of in Hlast.
    apply elem_of_take in Hlast as (i&Hi&_). rewrite lookup_drop in Hi.
    by eapply list_elem_of_lookup_2.
  - apply last_None in Hlast. rewrite Hlast in Hlt. apply (f_equal length) in Hlast.
    rewrite length_take, length_drop in Hlast. cbn in *. lia.
Qed.

(** C23: pages are consecutive segments of one snapshot.  Whatever was bound or
    unbound between the two requests, the items of a page followed by the items
    of the page its cursor leads to are a segment of the listing of the first
    page's snapshot; without a cursor the first page starts the listing, and the
    second page is marked truncated exactly when items remain. *)
Theorem list_pages_consecutive auth request ns prefix w1 p1 w1' auth' limit w2 p2 w2' h h' c :
  canonical_path (lq_namespace request) = Ok ns →
  canonical_prefix (lq_prefix request) = Ok prefix →
  0 < default 100 (lq_limit request) →
  ns_refines sv (files w1) (lq_tenant_id request) ns h →
  ns_refines sv (files w2) (lq_tenant_id request) ns (h ++ h') →
  list_op sv auth request w1 = (Ok p1, w1') →
  ls_next_cursor p1 = Some c →
  Forall (λ e, ls_namespace_revision_snapshot p1 < e.1) h' →
  (∀ path b, history_at (ls_namespace_revision_snapshot p1) h !! path = Some b →
     list_cursor_wf (mkListCursor (lq_tenant_id request) ns prefix
                       (ls_namespace_revision_snapshot p1) path) = true) →
  list_op sv auth' (next_request request c limit) w2 = (Ok p2, w2') →
  let r := ls_namespace_revision_snapshot p1 in
  ls_namespace_revision_snapshot p2 = r ∧
  ∃ before after,
    list_item_of ns <$> listing ns prefix (lq_include_tombstones request) r h =
      before ++ ls_items p1 ++ ls_items p2 ++ after ∧
    (lq_cursor request = None → before = []) ∧
    (ls_truncated p2 = false ↔ after = []).
Proof.
  intros Hns Hpre Hlim Href1 Href2 H1 Hcur Hlater Hwf H2. cbn zeta.
  destruct (list_op_ok _ _ _ _ _ _ _ _ Hns Hpre Href1 H1) as (r&lp&Hpos1&Hp1). cbn zeta in Hp1.
  subst p1. cbn [ls_namespace_revision_snapshot ls_next_cursor ls_items] in *.
  destruct (list_op_ok _ (next_request request c limit) _ _ _ _ _ _ Hns Hpre Href2 H2)
    as (r2&lp2&Hpos2&Hp2). cbn zeta in Hp2. subst p2. cbn [lq_include_tombstones next_request] in *.
  set (items := listing ns prefix (lq_include_tombstones request) r h) in *.
  set (page := take _ (drop (list_start items lp) items)) in *.
  destruct (Nat.ltb_spec (list_start items lp + length page) (length items)) as [Hlt|]; [|done].
  injection Hcur as <-. destruct (truncated_page_last items (list_start items lp)
    (Z.to_nat (default 100 (lq_limit request))) ltac:(lia) Hlt) as (b&Hlast&Hb). fold page in Hlast. rewrite Hlast in Hpos2.
  destruct Hpos2 as (cur&Hdec&<-&->). apply (next_cursor_ok _ _ _ _ _ _ _ _
    ltac:(rewrite <-(nr_snapshots _ _ _ _ _ Href1); by apply replay_journal_keyed) Hb Hwf)
    in Hdec as ->. cbn [lc_snapshot_revision lc_last_path].
  assert (listing ns prefix (lq_include_tombstones request) r (h ++ h') = items) as ->.
  { unfold items, listing. by rewrite history_at_app. }
  rewrite (list_start_next items (list_start items lp) _ b
    (listing_NoDup _ _ _ _ _ _ _ Href1) Hlast). fold page. set (page2 := take _ (drop _ items)).
  split; [done|].
  exists (list_item_of ns <$> take (list_start items lp) items),
    (list_item_of ns <$> drop (list_start items lp + length page + length page2) items).
  split_and!.
  - rewrite (two_pages items (list_start items lp) (Z.to_nat (default 100 (lq_limit request)))
      (Z.to_nat (default 100 limit))) at 1. by rewrite !fmap_app.
  - intros Hnone. unfold list_position in Hpos1. rewrite Hnone in Hpos1. by destruct Hpos1 as [_ ->].
  - cbn [ls_truncated]. rewrite Nat.ltb_ge, skipn_all_iff. split; [by intros ->|apply fmap_nil_inv].
Qed.
End list.

Import Toy ToyService.

(** Three binds: [reports/q1], [reports/q2], and then [archive], which sorts first. *)
Definition bind_at (path : string) : BindRequest :=
  {| br_tenant_id := "tenant-alpha"; br_namespace := "docs"; br_path := path;
     br_target_cid := "sha256-object"; br_if_revision := None; br_if_absent := true;
     br_metadata := ∅; br_ttl_ms := None; br_idempotency_key := path;
     br_signed_record_b64 := "" |}.
Definition record_at (path : string) : NamespaceMutationRecord :=
  mkNamespaceMutationRecord 1 "tenant-alpha" "docs" path KindBind (Some "sha256-object") None
    None ∅ 1500.
Definition after_bind (path : string) (w : World (fs_backend no_faults))
  : World (fs_backend no_faults) :=
  (apply_bind concrete_service (bind_at path) "docs" path (record_at path) w).2.
Definition first_world : World (fs_backend no_faults) :=
  Eval vm_compute in after_bind "reports/q1" sample_world.
Definition listed_world : World (fs_backend no_faults) :=
  Eval vm_compute in after_bind "reports/q2" first_world.
Definition later_world : World (fs_backend no_faults) :=
  Eval vm_compute in after_bind "archive" listed_world.

Definition binding_at (path : string) (revision : Z) : NamespaceBindingState :=
  bound (bind_at path) path (record_at path) revision.
Definition listed_history : ns_history :=
  [(1, {[ "reports/q1" := binding_at "reports/q1" 1 ]});
   (2, {[ "reports/q1" := binding_at "reports/q1" 1; "reports/q2" := binding_at "reports/q2" 2 ]})].
Definition later_history : ns_history :=
  [(3, {[ "archive" := binding_at "archive" 3; "reports/q1" := binding_at "reports/q1" 1;
          "reports/q2" := binding_at "reports/q2" 2 ]})].

Ltac solve_refines_step :=
  eapply ns_refines_step;
  [eassumption|vm_compute; reflexivity|reflexivity|vm_compute; reflexivity|vm_compute; reflexivity
  |vm_compute; reflexivity|vm_compute; reflexivity|vm_compute; reflexivity|vm_compute; reflexivity].

Lemma listed_world_refined :
  ns_refines concrete_service (files listed_world) "tenant-alpha" "docs" listed_history.
Proof.
  assert (ns_refines concrete_service (files sample_world) "tenant-alpha" "docs" []) as H0
    by (apply ns_refines_init; vm_compute; reflexivity).
  assert (ns_refines concrete_service (files first_world) "tenant-alpha" "docs"
    ([] ++ take 1 listed_history)) as H1 by solve_refines_step.
  change listed_history with (take 1 listed_history ++ drop 1 listed_history).
  cbn [take app] in H1. solve_refines_step.
Qed.
Lemma later_world_refined :
  ns_refines concrete_service (files later_world) "tenant-alpha" "docs"
    (listed_history ++ later_history).
Proof. pose proof listed_world_refined. unfold later_history. solve_refines_step. Qed.

(** Listing one item at a time. *)
Definition list_one : ListRequest :=
  mkListRequest "tenant-alpha" "docs" (Some "reports") None (Some 1) false false.
Definition page_one : result ApiError ListResponse * World (fs_backend no_faults) :=
  list_op concrete_service (sample_token "tenant-alpha" "j1") list_one listed_world.
Definition page_two_cursor : string :=
  list_cursor_encode (mkListCursor "tenant-alpha" "docs" (Some "reports") 2 "reports/q1").
Definition page_two : result ApiError ListResponse * World (fs_backend no_faults) :=
  list_op concrete_service (sample_token "tenant-alpha" "j1")
    (next_request list_one page_two_cursor (Some 1)) later_world.

(** Witness of C23: a third path is bound between the two pages of a listing. *)
Lemma list_pages_consecutive_witness :
  ∃ p1 p2, page_one.1 = Ok p1 ∧ page_two.1 = Ok p2 ∧
  ls_namespace_revision_snapshot p2 = ls_namespace_revision_snapshot p1 ∧
  ∃ before after,
    list_item_of "docs" <$> listing "docs" (Some "reports") false
      (ls_namespace_revision_snapshot p1) listed_history =
      before ++ ls_items p1 ++ ls_items p2 ++ after ∧
    (None = None (A:=string) → before = []) ∧ (ls_truncated p2 = false ↔ after = []).
Proof.
  eexists _, _. split; [vm_compute; reflexivity|]. split; [vm_compute; reflexivity|].
  eapply (list_pages_consecutive concrete_service (sample_token "tenant-alpha" "j1") list_one
            "docs" (Some "reports") listed_world _ page_one.2 (sample_token "tenant-alpha" "j1")
            (Some 1) later_world _ page_two.2 listed_history later_history page_two_cursor).
  - reflexivity.
  - reflexivity.
  - reflexivity.
  - exact listed_world_refined.
  - exact later_world_refined.
  - unfold page_one. apply run_pair. vm_compute. reflexivity.
  - vm_compute. reflexivity.
  - repeat constructor.
  - cbn [ls_namespace_revision_snapshot]. intros path b Hb.
    apply elem_of_map_to_list in Hb. vm_compute (map_to_list _) in Hb.
    rewrite !elem_of_cons, elem_of_nil in Hb. destruct_or! Hb; simplify_eq; reflexivity.
  - unfold page_two. apply run_pair. vm_compute. reflexivity.
Defined.
