(* ===== verification/ObjectProps.v ===== *)
(** * Properties of uploads and reads *)

From Stdlib Require Import ZArith Lia Ascii String Bool.
From stdpp Require Import base option list strings gmap numbers sorting.
From S2P Require Import Prelude RustStr Path Core Cbor CborFacts Concrete Auth Crypto Store ServiceState ServiceFacts Access Namespaces NamespaceSpec Objects ConcreteService AccessProps.

Section facts.
Context `{DL : DepsLaws} {B : Backend} `{BL : BackendLaws B} (sv : AlphaService).
Implicit Types w : World B.

(** ** Ranges *)

(** The chunks of an object: contiguous from an offset, stored under their CIDs,
    with the logical length of each the length of its content. *)
Fixpoint laid_out (f : gmap string bytes) (t : TenantId) (off : Z) (refs : list ChunkRef)
  (contents : list bytes) : Prop :=
  match refs, contents with
  | [], [] => True
  | c :: refs', b :: contents' =>
      cr_offset c = off ∧ cr_logical_len c = len_u64 b ∧ b ≠ [] ∧
      stored_bytes sv f t "chunks" (cr_cid c) = Some b ∧
      laid_out f t (off + len_u64 b) refs' contents'
  | _, _ => False
  end.

Lemma laid_out_ext f f' t off refs contents :
  (∀ cid, stored_bytes sv f' t "chunks" cid = stored_bytes sv f t "chunks" cid) →
  laid_out f t off refs contents → laid_out f' t off refs contents.
Proof.
  intros Hf. revert off contents.
  induction refs as [|c refs IH]; intros off [|b contents]; cbn; [done..|].
  intros (?&?&?&?&?). rewrite Hf. split_and!; auto.
Qed.

(** The slice of a list that starts [s] and ends before [e], in pieces. *)
Lemma slice_app {A} (s e : nat) (b l : list A) :
  take (e - s) (drop s (b ++ l)) =
  take (e `min` length b - s) (drop s b) ++
  take ((e - length b) - (s - length b)) (drop (s - length b) l).
Proof.
  rewrite drop_app. destruct (decide (s <= length b)%nat).
  - replace (s - length b)%nat with 0%nat by lia. rewrite drop_0, take_app, length_drop, Nat.sub_0_r.
    f_equal; [|f_equal; lia].
    destruct (decide (e <= length b)%nat); [by rewrite Nat.min_l by lia|].
    rewrite Nat.min_r, !take_ge by (rewrite ?length_drop; lia). done.
  - rewrite (drop_ge b) by lia. rewrite take_nil. cbn. f_equal. lia.
Qed.

Lemma slice_get_ok (b : bytes) (s e : nat) :
  (s <= e)%nat → (e <= length b)%nat →
  slice_get b (Z.of_nat s) (Z.of_nat e) = Some (take (e - s) (drop s b)).
Proof.
  intros Hs He. unfold slice_get, len_u64.
  rewrite !(proj2 (Z.leb_le _ _)) by lia. cbn. do 2 f_equal; [lia|]. f_equal. lia.
Qed.

(** The fragment of one chunk, as positions inside it. *)
Lemma chunk_fragment_spec c (b : bytes) s e off :
  cr_offset c = off → cr_logical_len c = len_u64 b → b ≠ [] →
  0 <= off → 0 <= s <= e → off + len_u64 b < 2 ^ 63 → e < 2 ^ 63 →
  let S := Z.to_nat (s - off) in
  let E := Z.to_nat (e + 1 - off) in
  match chunk_fragment s e c with
  | None => take (E `min` length b - S) (drop S b) = []
  | Some d =>
      slice_get b (gd_fragment_offset d) (u64_add (gd_fragment_offset d) (gd_fragment_length d))
      = Some (take (E `min` length b - S) (drop S b))
  end.
Proof.
  intros Ho Hl Hne Hoff Hs Hmax He S E. unfold chunk_fragment. rewrite Ho, Hl.
  assert (0 < len_u64 b) as Hpos. { unfold len_u64. destruct b; [done|]. cbn. lia. }
  assert (u64_sat_add off (u64_sat_sub (len_u64 b) 1) = off + len_u64 b - 1) as ->.
  { unfold u64_sat_add, u64_sat_sub, u64_max. lia. }
  unfold len_u64 in *.
  destruct (Z.ltb_spec (off + Z.of_nat (length b) - 1) s); cbn [orb].
  { rewrite (drop_ge b); [apply take_nil|]. subst S. lia. }
  destruct (Z.ltb_spec e off); cbn.
  { replace (E `min` length b - S)%nat with 0%nat by (subst S E; lia). done. }
  replace (u64_sat_sub (Z.max s off) off) with (Z.of_nat S)
    by (subst S; unfold u64_sat_sub; lia).
  replace (u64_add (Z.of_nat S) _) with (Z.of_nat (E `min` length b)).
  { apply slice_get_ok; subst S E; lia. }
  unfold u64_sat_add, u64_sat_sub, u64_max. rewrite u64_add_small; subst S E; lia.
Qed.

(** The fragments returned for a range are the slice of the content. *)
Lemma get_chunks_slice t s e refs contents off w chunks w' :
  laid_out (files w) t off refs contents →
  0 <= off → 0 <= s <= e → off + len_u64 (List.concat contents) < 2 ^ 63 → e < 2 ^ 63 →
  get_chunks sv t s e refs w = (Ok chunks, w') →
  List.concat (map gc_bytes chunks) =
    take (Z.to_nat (e + 1 - off) - Z.to_nat (s - off))
      (drop (Z.to_nat (s - off)) (List.concat contents)).
Proof.
  revert contents off w chunks. induction refs as [|c refs IH];
    intros [|b contents] off w chunks; cbn [laid_out]; try done.
  { intros _ _ _ _ _ [= <- _]. cbn. by rewrite drop_nil, take_nil. }
  intros (Ho&Hl&Hne&Hb&Hrest) Hoff Hs Hmax He. cbn [List.concat] in *.
  unfold len_u64 in Hmax. rewrite length_app, Nat2Z.inj_add in Hmax.
  pose proof (chunk_fragment_spec c b s e off Ho Hl Hne Hoff Hs) as Hfrag.
  unfold len_u64 in Hfrag. specialize (Hfrag ltac:(lia) He). cbn zeta in Hfrag.
  rewrite slice_app.
  assert (∀ x, Z.to_nat (x - (off + len_u64 b)) = (Z.to_nat (x - off) - length b)%nat) as Hsub.
  { intros x. unfold len_u64. lia. }
  cbn [get_chunks]. destruct (chunk_fragment s e c) as [d|].
  - intros (o&w1&Hr&H)%ST_bind_ok. apply read_bytes_ok in Hr as [Hf ->]. rewrite Hb in H.
    apply ST_bind_ok in H as (b'&w2&[= <- <-]&H). apply ST_bind_ok in H as (x&w3&Hx&H).
    unfold lift_result in Hx. rewrite Hfrag in Hx. injection Hx as <- <-.
    apply ST_bind_ok in H as (others&w4&Hrec&H). apply ST_ret_ok in H as [<- <-].
    cbn [map List.concat gc_bytes]. f_equal.
    rewrite (IH contents (off + len_u64 b) w1 others); rewrite ?Hf, ?Hsub; try done;
      unfold len_u64; lia.
  - intros H. rewrite Hfrag. cbn [app].
    rewrite (IH contents (off + len_u64 b) w chunks); rewrite ?Hsub; try done;
      unfold len_u64; lia.
Qed.

(** ** Successful runs *)

Lemma authorized_stored_bytes auth meta w d w' k key :
  authorize_request sv auth meta w = (Ok d, w') → slash_free k = true → k ∉ access_kinds →
  stored_bytes sv (files w') (am_tenant_id meta) k key
  = stored_bytes sv (files w) (am_tenant_id meta) k key.
Proof.
  intros Ha%authorized_keeps Hk Hin.
  eapply keeps_stored_bytes; [done|repeat constructor|done|by left].
Qed.
Lemma authorized_stored {T} `{Json T} auth meta w d w' k key :
  authorize_request sv auth meta w = (Ok d, w') → slash_free k = true → k ∉ access_kinds →
  stored (T:=T) sv (files w') (am_tenant_id meta) k key
  = stored sv (files w) (am_tenant_id meta) k key.
Proof. intros. unfold stored. by erewrite authorized_stored_bytes. Qed.

Lemma require_chunks_ok t refs w u w' :
  require_chunks t refs w = (Ok u, w') →
  files w' = files w ∧
  Forall (λ c, is_Some (files w !! store_key t "chunks" (cr_cid c))) refs.
Proof.
  revert w. induction refs as [|c refs IH]; intros w; cbn [require_chunks].
  { intros [= _ <-]. auto. }
  intros (p&w1&Hp&H)%ST_bind_ok. apply chunk_exists_ok in Hp as [Hf Hs].
  destruct p; cbn in H; [|done]. apply IH in H as [Hf' Hall]. rewrite Hf in *. auto.
Qed.

(** A kind that an operation leaves alone, by its frame. *)
Lemma run_keeps_stored {T A} `{Json T} t kinds (m : ST (World B) ApiError A) w r w' k key :
  preserves (keeps t kinds) m → m w = (r, w') → Forall (λ x, slash_free x = true) kinds →
  slash_free k = true → k ∉ kinds →
  stored (T:=T) sv (files w') t k key = stored sv (files w) t k key.
Proof.
  intros Hm Hr Hfree Hk Hin. specialize (Hm w). rewrite Hr in Hm.
  eapply keeps_stored; [done|done|done|by left].
Qed.

(** The kinds the commit touches after writing the manifest record, when its
    atomic bind succeeds. *)
Lemma commit_bind_keeps auth request record bind w u w' :
  commit_atomic_bind sv auth request record bind w = (Ok u, w') →
  keeps (cm_tenant_id request) namespace_kinds w w'.
Proof.
  unfold commit_atomic_bind. destruct bind as [bind|].
  - intros (r&w1&Hr&H)%ST_bind_ok. unfold attempt in Hr.
    destruct (bind_internal sv auth _ false w) as [r' w2] eqn:Hb. injection Hr as -> ->.
    pose proof (frame_bind_internal sv auth
      (atomic_bind_request request (mr_object_cid record) bind) false namespace_kinds
      ltac:(done) w) as Hk. rewrite Hb in Hk. cbn in Hk.
    destruct r as [resp|e]; [by injection H as _ <-|].
    by apply ST_bind_ok in H as (?&?&_&?).
  - intros [= _ <-]. reflexivity.
Qed.

Lemma apply_commit_ok auth request session w resp w' :
  apply_commit sv auth request session w = (Ok resp, w') →
  let t := cm_tenant_id request in
  Forall (λ c, is_Some (files w !! store_key t "chunks" (cr_cid c)))
    (mf_chunk_refs (us_manifest session)) ∧
  cmr_object_cid resp = us_manifest_cid session ∧ cmr_committed resp = true ∧
  (∃ at_ms, stored sv (files w') t "manifests" (us_manifest_cid session) =
     Some (mkManifestRecord t (us_manifest session) (us_manifest_cid session)
             (us_manifest_cid session) (us_storage_class session) at_ms)) ∧
  stored sv (files w') t "sessions" (cm_session_id request) =
    Some (with_uploaded session (us_uploaded_chunks session) true).
Proof.
  intros H t. unfold apply_commit in H. cbn zeta in H.
  apply ST_bind_ok in H as (u&w1&(Hf1&Hall)%require_chunks_ok&H).
  apply ST_bind_ok in H as (at_ms&w2&[= _ <-]&H).
  apply ST_bind_ok in H as (u2&w3&Hw&H). apply write_json_ok in Hw as [_ Hm]; [|apply _].
  apply ST_bind_ok in H as (u3&w4&Hbind&H). apply commit_bind_keeps in Hbind.
  apply ST_bind_ok in H as (at2&w5&[= _ <-]&H).
  apply ST_bind_ok in H as (seq&w6&Hev&H). apply ST_bind_ok in H as (u5&w7&Hau&H).
  apply ST_bind_ok in H as (u6&w8&Hs&H). apply write_json_ok in Hs as [Hoff Hs]; [|apply _].
  injection H as <- <-. split_and!; [done|done|done| |done].
  exists at_ms. etrans; [|exact Hm]. subst t. set (t := cm_tenant_id request) in *.
  rewrite (agree_off_stored sv t _ _ _ _ "manifests" _ Hoff) by done.
  rewrite (run_keeps_stored (T:=ManifestRecord) t ["audit"] _ _ _ _ "manifests" _
    (frame_write_audit sv t ["audit"] _ _ _ ltac:(in_kinds)) Hau
    ltac:(repeat constructor) eq_refl) by set_solver.
  rewrite (run_keeps_stored (T:=ManifestRecord) t ["events"] _ _ _ _ "manifests" _
    (frame_append_event sv t ["events"] _ ltac:(in_kinds)) Hev
    ltac:(repeat constructor) eq_refl) by set_solver.
  eapply keeps_stored; [exact Hbind|repeat constructor|done|left].
  unfold namespace_kinds. set_solver.
Qed.

Lemma check_put_chunk_ok request session chunk u :
  check_put_chunk request session chunk = Ok u →
  us_committed session = false ∧
  (∃ c, c ∈ mf_chunk_refs (us_manifest session) ∧ cr_chunk_index c = pc_chunk_index request ∧
        cr_cid c = pc_chunk_cid request ∧ cr_offset c = pc_chunk_offset request ∧
        cr_stored_len c = len_u64 chunk) ∧
  pc_chunk_length request = len_u64 chunk ∧
  len_u64 chunk <= max_chunk_size (info_limits info).
Proof.
  unfold check_put_chunk. rewrite guard_ok. intros [Hc (c&Hfind&H)%ok_or_bind_ok].
  rewrite !guard_ok, !orb_false_iff, !negb_false_iff, Z.ltb_ge, String.eqb_eq, !Z.eqb_eq in H.
  apply List.find_some in Hfind as [Hin Hidx%Z.eqb_eq].
  destruct_and! H. split_and!; [done| |done|done].
  exists c. split_and!; [by apply list_elem_of_In|congruence..].
Qed.

(** ** Properties *)

(** An accepted chunk is the one the manifest announces.  Its bytes hash to
    the CID of the manifest's reference, have the announced length and at most
    the maximal size; the session was open and now lists the chunk; the chunk is
    stored under its CID, with exactly these bytes unless it was there before,
    and then it is not rewritten. *)
Theorem put_chunk_stores_announced_chunk auth request chunk w resp w' :
  put_chunk sv auth request chunk w = (Ok resp, w') →
  let t := pc_tenant_id request in
  cid_from_bytes chunk = pc_chunk_cid request ∧ len_u64 chunk <= 4 * 1024 * 1024 ∧
  (∃ session, stored sv (files w) t "sessions" (pc_session_id request) = Some session ∧
     us_committed session = false ∧
     (∃ c, c ∈ mf_chunk_refs (us_manifest session) ∧
           cr_chunk_index c = pc_chunk_index request ∧ cr_cid c = cid_from_bytes chunk ∧
           cr_offset c = pc_chunk_offset request ∧ cr_stored_len c = len_u64 chunk) ∧
     stored sv (files w') t "sessions" (pc_session_id request) =
       Some (with_uploaded session
               (add_uploaded (pc_chunk_index request) (us_uploaded_chunks session)) false)) ∧
  (pcr_duplicate resp = false →
     stored_bytes sv (files w') t "chunks" (pc_chunk_cid request) = Some chunk) ∧
  (pcr_duplicate resp = true →
     is_Some (files w !! store_key t "chunks" (pc_chunk_cid request)) ∧
     files w' !! store_key t "chunks" (pc_chunk_cid request)
     = files w !! store_key t "chunks" (pc_chunk_cid request)).
Proof.
  intros H t. unfold put_chunk in H. cbn zeta in H.
  apply ST_bind_ok in H as (start&w0&[= _ <-]&H).
  destruct (String.eqb_spec (cid_from_bytes chunk) (pc_chunk_cid request)) as [Hcid|];
    cbn [negb] in H;
    [|apply ST_bind_ok in H as (?&?&_&H); by apply ST_bind_ok in H as (?&?&_&H)].
  apply ST_bind_ok in H as (o&w1&Hr&H). apply read_json_ok in Hr as (Hf1&Ho&_).
  apply ST_bind_ok in H as (session&w2&Hs&H). unfold lift_result in Hs. injection Hs as Hs <-.
  apply ST_bind_ok in H as (u&w2&Hchk&H). unfold lift_result in Hchk. injection Hchk as Hchk <-.
  apply check_put_chunk_ok in Hchk as (Hcom&Href&Hlen&Hmax).
  apply ST_bind_ok in H as (d&w3&Ha&H). apply authorized_keeps in Ha.
  change (keeps t access_kinds w1 w3) in Ha.
  apply ST_bind_ok in H as (dup&w4&Hdup&H). apply chunk_exists_ok in Hdup as [Hf4 Hd].
  apply ST_bind_ok in H as (u1&w5&Hw&H). apply ST_bind_ok in H as (u2&w6&Hw2&H).
  apply write_json_ok in Hw2 as [Hoff2 Hses]; [|apply _]. injection H as <- <-.
  assert (files w3 !! store_key t "chunks" (pc_chunk_cid request) =
          files w !! store_key t "chunks" (pc_chunk_cid request)) as Hchunk.
  { rewrite Ha, Hf1; [done|]. intros k key Hin. apply store_key_kind_ne; [done| |].
    - unfold access_kinds in Hin. set_unfold in Hin. by destruct_or! Hin; subst.
    - unfold access_kinds in Hin. set_unfold in Hin. by destruct_or! Hin; subst. }
  assert (store_key t "chunks" (pc_chunk_cid request) ≠
          store_key t "sessions" (pc_session_id request)) as Hne by by apply store_key_kind_ne.
  split_and!; [done|exact Hmax| | |].
  - exists session. destruct o as [o|]; simplify_eq/=. rewrite Hcom in Hses.
    rewrite Hcid. split_and!; [by rewrite Ho|done|done|done].
  - cbn. intros ->. apply write_bytes_ok in Hw as [_ Hw].
    rewrite <-Hw. apply stored_bytes_ext. by eapply agree_off_lookup.
  - cbn. intros ->. injection Hw as _ <-. rewrite <-Hchunk. split; [by apply Hd|].
    etrans; [by eapply agree_off_lookup|]. by rewrite Hf4.
Qed.

(** C24: a committed object is complete and published.  A successful commit is the
    recorded answer to a retry, or all chunks of the manifest were present, the
    manifest record with the session's manifest is readable under the object's
    CID and the session is closed. *)
Theorem put_commit_publishes auth request w resp w' :
  put_commit sv auth request w = (Ok resp, w') →
  let t := cm_tenant_id request in
  stored sv (files w) t "idempotency"
    (idempotency_key t "put_commit" (cm_idempotency_key request))
    = Some (mkIdempotencyRecord resp)
  ∨ ∃ session, stored sv (files w) t "sessions" (cm_session_id request) = Some session ∧
      us_manifest_cid session = cm_manifest_cid request ∧
      Forall (λ c, is_Some (files w !! store_key t "chunks" (cr_cid c)))
        (mf_chunk_refs (us_manifest session)) ∧
      cmr_object_cid resp = cm_manifest_cid request ∧ cmr_committed resp = true ∧
      (∃ record, stored sv (files w') t "manifests" (cm_manifest_cid request) = Some record ∧
                 mr_manifest record = us_manifest session ∧
                 mr_object_cid record = cm_manifest_cid request) ∧
      ∃ closed, stored sv (files w') t "sessions" (cm_session_id request) = Some closed ∧
                us_committed closed = true ∧ us_manifest closed = us_manifest session.
Proof.
  intros H t. unfold put_commit in H. cbn zeta in H.
  apply ST_bind_ok in H as (start&w0&[= _ <-]&H).
  apply ST_bind_ok in H as (o&w1&Hr&H). apply read_json_ok in Hr as (Hf1&Ho&_).
  apply ST_bind_ok in H as (session&w2&Hs&H). unfold lift_result in Hs. injection Hs as Hs <-.
  destruct (String.eqb_spec (us_manifest_cid session) (cm_manifest_cid request)) as [Hcid|];
    cbn [negb] in H; [|done].
  apply ST_bind_ok in H as (d&w2&Ha&H). apply authorized_keeps in Ha.
  change (keeps t access_kinds w1 w2) in Ha. apply ST_bind_ok in H as (prev&w3&Hprev&H).
  assert (files w3 = files w2 ∧ (prev = None ∨ prev = stored sv (files w2) t "idempotency"
    (idempotency_key t "put_commit" (cm_idempotency_key request)))) as [Hf3 Hp].
  { destruct (bool_decide _).
    - apply read_json_ok in Hprev as (?&?&_). auto.
    - apply ST_ret_ok in Hprev as [<- <-]. auto. }
  destruct prev as [rec|].
  - left. injection H as <- <-. destruct Hp as [?|Hp]; [done|].
    change (files w1 = files w) in Hf1. rewrite <-Hf1.
    rewrite <-(keeps_stored sv t access_kinds w1 w2), <-Hp;
      [by destruct rec|done|repeat constructor|done|left; unfold access_kinds; set_solver].
  - right. exists session. apply ST_bind_ok in H as (resp'&w4&Happ&H).
    apply ST_bind_ok in H as (u&w5&Hw&H). apply write_json_ok in Hw as [Hoff _]; [|apply _].
    injection H as <- <-. apply apply_commit_ok in Happ as (Hall&Hobj&Hc&[at_ms Hm]&Hses).
    split_and!; [destruct o; by simplify_eq/=|done| |congruence|done| |].
    + eapply Forall_impl; [exact Hall|]. intros c. cbn. rewrite Hf3, Ha, Hf1; [done|].
      intros k key Hin. apply store_key_kind_ne; [done| |];
        unfold access_kinds in Hin; set_unfold in Hin; by destruct_or! Hin; subst.
    + eexists. rewrite (agree_off_stored sv t _ _ _ _ "manifests" _ Hoff), <-Hcid by done.
      split_and!; [exact Hm|done|done].
    + eexists. rewrite (agree_off_stored sv t _ _ _ _ "sessions" _ Hoff) by done.
      split_and!; [exact Hses|done|done].
Qed.

(** The writes of a commit that follow its bind. *)
Definition closing_kinds : list string := ["events"; "audit"; "sessions"; "idempotency"].

(** How [apply_commit] can fail. *)
Lemma apply_commit_err auth request session w e w' :
  apply_commit sv auth request session w = (Err e, w') →
  let t := cm_tenant_id request in let cid := us_manifest_cid session in
  files w' = files w ∨
  ∃ record w1, files w1 = files w ∧ mr_manifest record = us_manifest session ∧
    mr_manifest_cid record = cid ∧ mr_object_cid record = cid ∧
    Forall (λ c, is_Some (files w !! store_key t "chunks" (cr_cid c)))
      (mf_chunk_refs (us_manifest session)) ∧
    let '(written, w2) := write_encrypted_json sv t "manifests" cid record w1 in
    (written = Err e ∧ w' = w2) ∨
    (written = Ok tt ∧ commit_atomic_bind sv auth request record (us_atomic_bind session) w2 = (Err e, w')) ∨
    (written = Ok tt ∧ ∃ w3, commit_atomic_bind sv auth request record (us_atomic_bind session) w2 = (Ok tt, w3) ∧
       keeps t closing_kinds w3 w').
Proof.
  intros H. cbn zeta. unfold apply_commit in H. cbn zeta in H. set (t := cm_tenant_id request) in *.
  apply ST_bind_err in H as [H|(u&w1&(Hf1&Hall)%require_chunks_ok&H)].
  { left. pose proof (frame_require_chunks t [] t (mf_chunk_refs (us_manifest session)) w) as Hk.
    rewrite H in Hk. apply map_eq. intros name. apply Hk. by intros ? ? ?%elem_of_nil. }
  right. apply ST_bind_err in H as [H|(at_ms&w2&[= <- <-]&H)]; [done|].
  match type of H with (write_encrypted_json _ _ _ _ ?r ≫= _) ?w0 = _ => exists r, w0 end.
  split_and!; [exact Hf1|reflexivity..|exact Hall|].
  apply ST_bind_err in H as [H|([]&w3&Hw&H)].
  { cbn [mr_manifest_cid] in H. rewrite H. by left. }
  cbn [mr_manifest_cid] in Hw. rewrite Hw. right.
  apply ST_bind_err in H as [H|([]&w4&Hb&H)]; [by left|].
  right. split; [done|]. exists w4. split; [done|].
  match type of H with ?m w4 = _ =>
    assert (preserves (keeps (B:=B) t closing_kinds) m) as Hp by (unfold closing_kinds; frame) end.
  specialize (Hp w4). by rewrite H in Hp.
Qed.

Lemma run_keeps {A} t kinds (m : ST (World B) ApiError A) w r w' :
  preserves (keeps t kinds) m → m w = (r, w') → keeps t kinds w w'.
Proof. intros Hm Hr. specialize (Hm w). by rewrite Hr in Hm. Qed.

(** How a commit can fail once the session is read. *)
Lemma put_commit_err auth request w e w' session :
  put_commit sv auth request w = (Err e, w') →
  let t := cm_tenant_id request in
  stored sv (files w) t "sessions" (cm_session_id request) = Some session →
  keeps t access_kinds w w' ∨
  ∃ w1, keeps t access_kinds w w1 ∧
    (apply_commit sv auth request session w1 = (Err e, w') ∨
     ∃ resp w2, apply_commit sv auth request session w1 = (Ok resp, w2) ∧ keeps t closing_kinds w2 w').
Proof.
  intros H. cbn zeta. unfold put_commit in H. cbn zeta in H. intros Hses.
  apply ST_bind_err in H as [H|(start&w0&[= _ <-]&H)]; [done|].
  apply ST_bind_err in H as [H|(o&w1&Hr&H)].
  { left. exact (run_keeps _ _ _ _ _ _ (frame_read_json sv _ _ _ _ _) H). }
  apply read_json_ok in Hr as (Hf1&Ho&_). change (files w1 = files w) in Hf1.
  change (o = stored sv (files w) (cm_tenant_id request) "sessions" (cm_session_id request)) in Ho.
  rewrite Hses in Ho. subst o. rewrite ST_bind_run in H. cbn [ok_or lift_result] in H.
  destruct (negb _); [left; apply keeps_same; by injection H as _ <-|].
  apply ST_bind_err in H as [H|(d&w2&Ha&H)].
  { left. intros name Hn. rewrite <-Hf1. revert name Hn.
    eapply run_keeps; [|exact H].
    apply (frame_authorize sv auth (session_meta _ _ (cm_tenant_id request) _ _ _ _)); in_kinds. }
  apply authorized_keeps in Ha. change (am_tenant_id _) with (cm_tenant_id request) in Ha.
  assert (keeps (cm_tenant_id request) access_kinds w w2) as Hk2
    by (intros name Hn; by rewrite (Ha name Hn), Hf1).
  apply ST_bind_err in H as [H|(prev&w3&Hprev&H)].
  { left. etrans; [exact Hk2|]. destruct (bool_decide _); [|done].
    exact (run_keeps _ _ _ _ _ _ (frame_read_json sv _ _ _ _ _) H). }
  assert (files w3 = files w2) as Hf3.
  { destruct (bool_decide _); [by apply read_json_ok in Hprev as (?&_)|].
    by apply ST_ret_ok in Hprev as [_ <-]. }
  destruct prev; [done|]. right. exists w3. split; [etrans; [exact Hk2|by apply keeps_same]|].
  apply ST_bind_err in H as [H|(resp&w4&Happ&H)]; [by left|]. right. exists resp, w4. split; [done|].
  eapply run_keeps; [|exact H]. unfold closing_kinds. frame.
Qed.

(** A bind that fails takes the manifest record with it; sessions are not touched. *)
Lemma commit_bind_err auth request record bind w e w' :
  commit_atomic_bind sv auth request record bind w = (Err e, w') →
  let t := cm_tenant_id request in
  keeps t ("manifests" :: namespace_kinds) w w' ∧
  ∃ b w1, bind = Some b ∧
    bind_internal sv auth (atomic_bind_request request (mr_object_cid record) b) false w = (Err e, w1) ∧
    let '(deleted, w2) := delete_store_key t "manifests" (mr_manifest_cid record) w1 in
    w' = w2 ∧ (is_ok deleted = true →
      files w' !! store_key t "manifests" (mr_manifest_cid record) = None).
Proof.
  unfold commit_atomic_bind. cbn zeta. destruct bind as [b|]; [|done].
  rewrite ST_bind_run. unfold attempt.
  destruct (bind_internal sv auth _ false w) as [[r|e1] w1] eqn:Hb; [done|].
  rewrite ST_bind_run. intros H.
  destruct (delete_store_key (cm_tenant_id request) "manifests" (mr_manifest_cid record) w1)
    as [r w2] eqn:Hd.
  injection H as <- <-. split.
  - transitivity w1.
    + eapply run_keeps; [|exact Hb]. apply (frame_bind_internal sv auth (atomic_bind_request request _ _)).
      set_solver.
    + eapply run_keeps; [|exact Hd]. apply frame_delete. set_solver.
  - exists b, w1. split_and!; [done..|]. rewrite Hd. split; [done|]. intros Hok.
    unfold delete_store_key in Hd. rewrite on_store_run in Hd. injection Hd as Hr <-.
    destruct (b_delete_view (store_key (cm_tenant_id request) "manifests"
      (mr_manifest_cid record)) (w_store w1)) as [_ Hv].
    rewrite files_set_store, Hv; [apply lookup_delete_eq|]. rewrite Hr. by destruct r as [[]|].
Qed.

(** Files and records of kinds that a run leaves alone. *)
Lemma keeps_file t kinds w w' k key :
  keeps t kinds w w' → forallb slash_free kinds = true → slash_free k = true →
  bool_decide (k ∈ kinds) = false → files w' !! store_key t k key = files w !! store_key t k key.
Proof.
  intros Hk Hfree Hs Hin%bool_decide_eq_false. apply Hk. intros k' key' Hin' Heq.
  rewrite forallb_forall in Hfree. apply store_key_inj in Heq as (->&_&_); [done|done|].
  by apply Hfree, list_elem_of_In.
Qed.
Lemma keeps_record {T} `{Json T} t kinds w w' k key :
  keeps t kinds w w' → forallb slash_free kinds = true → slash_free k = true →
  bool_decide (k ∈ kinds) = false → stored (T:=T) sv (files w') t k key = stored sv (files w) t k key.
Proof. intros. apply stored_ext. by eapply keeps_file. Qed.


(** C3: a ranged read returns the range.  For an object selected by its CID, whose
    chunks are laid out contiguously, the fragments of a successful chunk-stream read, concatenated,
    are the bytes from the start to the end of the range, both included, of the
    concatenated chunks; without a range they are the whole object. *)
Theorem get_returns_range auth request cid w resp w' record contents :
  get sv auth request w = (Ok resp, w') →
  gq_selector request = selector_of_cid cid →
  default PrefChunkStream (gq_preference request) = PrefChunkStream →
  stored sv (files w) (gq_tenant_id request) "manifests" cid = Some record →
  laid_out (files w) (gq_tenant_id request) 0 (mf_chunk_refs (mr_manifest record)) contents →
  mf_logical_size (mr_manifest record) = len_u64 (List.concat contents) →
  0 < mf_logical_size (mr_manifest record) < 2 ^ 63 →
  (∀ r, gq_range request = Some r → 0 <= range_start r) →
  List.concat (map gc_bytes (gr_chunks resp)) =
    match gq_range request with
    | None => List.concat contents
    | Some r => take (Z.to_nat (range_end r + 1) - Z.to_nat (range_start r))
                  (drop (Z.to_nat (range_start r)) (List.concat contents))
    end.
Proof.
  intros H Hsel Hpref Hrec Hlay Hsize Hbig Hpos. unfold get in H. cbn zeta in H.
  apply ST_bind_ok in H as (start&w0&[= _ <-]&H).
  apply ST_bind_ok in H as (u&w1&[= _ <-]&H).
  apply ST_bind_ok in H as (u1&w1&[= Hrange <-]&H).
  rewrite Hsel in H. apply ST_bind_ok in H as (res&w1&[= <- <-]&H).
  apply ST_bind_ok in H as (d&w1&Ha&H).
  pose proof (λ key, authorized_stored_bytes _ _ _ _ _ "chunks" key Ha eq_refl
    ltac:(unfold access_kinds; set_solver)) as Hch.
  pose proof (authorized_stored (T:=ManifestRecord) _ _ _ _ _ "manifests" cid Ha eq_refl
    ltac:(unfold access_kinds; set_solver)) as Hman. cbn [am_tenant_id read_meta] in Hch, Hman.
  apply ST_bind_ok in H as (record'&w2&Hm&H). apply manifest_record_ok in Hm as [Hf2 Hm].
  cbn [sr_manifest_cid default] in Hm. rewrite Hman in Hm. assert (record' = record) as ->.
  { change (stored sv (files w) (gq_tenant_id request) "manifests" cid = Some record') in Hm.
    congruence. }
  rewrite Hpref in H. apply ST_bind_ok in H as ([s e]&w3&[= Hse <-]&H).
  apply ST_bind_ok in H as (chunks&w3&Hget&H). injection H as <- _. cbn [gr_chunks].
  assert (0 <= s <= e ∧ e < mf_logical_size (mr_manifest record)) as [Hs He].
  { unfold get_range, range_validate, u64_sat_sub in *. destruct (gq_range request) as [r|].
    - specialize (Hpos r eq_refl).
      destruct (Z.ltb_spec (range_end r) (range_start r)); [done|].
      destruct (Z.leb_spec (mf_logical_size (mr_manifest record)) (range_end r)); [done|].
      simplify_eq. lia.
    - simplify_eq. lia. }
  apply (get_chunks_slice _ _ _ _ contents 0) in Hget; [|rewrite Hf2|lia..].
  2:{ eapply laid_out_ext, Hlay. exact Hch. }
  rewrite Hget, !Z.sub_0_r. unfold get_range in Hse. destruct (gq_range request) as [r|].
  - destruct (_ <=? _); by simplify_eq.
  - simplify_eq. rewrite drop_0. apply take_ge. rewrite Hsize.
    unfold u64_sat_sub, len_u64. lia.
Qed.
(** The request metadata of an upload. *)
Definition put_chunk_meta (request : PutChunkRequest) (session : UploadSessionRecord)
  (chunk : bytes) : AuthRequestMeta :=
  session_meta OpPutChunk session (pc_tenant_id request)
    (pc_session_id request +:+ ":" +:+ dec (pc_chunk_index request)) None (len_u64 chunk) None.

(** An upload that passes was authorized with the token id, and the rest of it
    writes no replay record. *)
Lemma put_chunk_authorized auth request chunk w resp w' :
  put_chunk sv auth request chunk w = (Ok resp, w') →
  ∃ session d w1 w2,
    files w1 = files w ∧
    authorize_request sv auth (put_chunk_meta request session chunk) w1 = (Ok d, w2) ∧
    keeps (pc_tenant_id request) ["chunks"; "sessions"] w2 w'.
Proof.
  intros H. unfold put_chunk in H. cbn zeta in H.
  apply ST_bind_ok in H as (start&w0&[= _ <-]&H).
  destruct (String.eqb _ _); cbn [negb] in H;
    [|apply ST_bind_ok in H as (?&?&_&H); by apply ST_bind_ok in H as (?&?&_&H)].
  apply ST_bind_ok in H as (o&w1&Hr&H). apply read_json_ok in Hr as (Hf1&_&_).
  apply ST_bind_ok in H as (session&w2&Hs&H). unfold lift_result in Hs. injection Hs as Hs <-.
  apply ST_bind_ok in H as (u&w2&Hchk&H). unfold lift_result in Hchk. injection Hchk as _ <-.
  apply ST_bind_ok in H as (d&w3&Ha&H). exists session, d, w1, w3.
  split_and!; [done..|].
  match type of H with ?m w3 = _ =>
    assert (preserves (keeps (pc_tenant_id request) ["chunks"; "sessions"]) m) as Hk
      by (frame; by apply preserves_ret, _) end.
  specialize (Hk w3). by rewrite H in Hk.
Qed.

(** An upload is not retryable with its token.  Once a chunk was accepted, the
    same upload with a token of the same id is refused in every world that still
    holds the replay record: [put_chunk] sends no idempotency key, so the answer
    [duplicate] is reserved to other tokens and other sessions. *)
Theorem put_chunk_retry_refused auth request chunk w resp w1 auth' w2 j :
  jti (claims auth) = Some j → jti (claims auth') = Some j →
  put_chunk sv auth request chunk w = (Ok resp, w1) →
  (∀ session, replay_record sv (files w2) (put_chunk_meta request session chunk) j =
              replay_record sv (files w1) (put_chunk_meta request session chunk) j) →
  is_ok (put_chunk sv auth' request chunk w2).1 = false.
Proof.
  intros Hj Hj' (s&d&wa&wb&_&Ha&Hk)%put_chunk_authorized Hsame.
  destruct (put_chunk sv auth' request chunk w2) as [[resp'|e] w3] eqn:H2; [|done].
  apply put_chunk_authorized in H2 as (s'&d'&wc&wd&Hf&Ha'&_).
  apply authorize_request_ok in Ha as (d0&w0&_&Hd).
  destruct (durable_replay_ok sv _ (put_chunk_meta request s chunk) _ _ _ _ j eq_refl Hj Hd) as (r&Hr&_).
  destruct (authorize_request_recorded sv _ (put_chunk_meta request s' chunk) wc d' wd j r
    eq_refl Hj') as [_ Hkey]; [|done|done].
  rewrite Hf. transitivity (replay_record sv (files w2) (put_chunk_meta request s chunk) j);
    [done|]. rewrite Hsame, <-Hr. eapply keeps_stored; [exact Hk|repeat constructor|done|].
  left. set_solver.
Qed.
End facts.

Import ToyService.

(** An object of two chunks, its upload session, and stores that hold them. *)
Definition chunk_a : bytes := as_bytes "hello ".
Definition chunk_b : bytes := as_bytes "world".
Definition two_chunks : Manifest :=
  {| mf_version := 1; mf_tenant_id := "tenant-alpha"; mf_logical_size := 11;
     mf_stored_size := 11; mf_chunker := "fixed-1m";
     mf_chunk_refs := [mkChunkRef 0 (cid_from_bytes chunk_a) 0 6 6 "identity";
                       mkChunkRef 1 (cid_from_bytes chunk_b) 6 5 5 "identity"];
     mf_content_type := "text/plain"; mf_created_at_ms := 1000;
     mf_encryption_descriptor := mf_encryption_descriptor sample_manifest |}.
Definition open_session (bind : option AtomicBindRequest) : UploadSessionRecord :=
  {| us_session_id := "session-1"; us_tenant_id := "tenant-alpha"; us_manifest := two_chunks;
     us_manifest_cid := "sha256-object"; us_idempotency_key := "idem-1";
     us_storage_class := "hot"; us_atomic_bind := bind; us_uploaded_chunks := [];
     us_committed := false; us_created_at_ms := 1500; us_upload_deadline_ms := 901500 |}.
Definition with_session (bind : option AtomicBindRequest) (w : World (fs_backend no_faults))
  : World (fs_backend no_faults) :=
  (write_encrypted_json concrete_service "tenant-alpha" "sessions" "session-1"
     (open_session bind) w).2.
Definition with_chunk (b : bytes) (w : World (fs_backend no_faults))
  : World (fs_backend no_faults) :=
  (write_encrypted_bytes concrete_service "tenant-alpha" "chunks" (cid_from_bytes b) b w).2.
Definition with_manifest (w : World (fs_backend no_faults)) : World (fs_backend no_faults) :=
  (write_encrypted_json concrete_service "tenant-alpha" "manifests" "sha256-object"
     (mkManifestRecord "tenant-alpha" two_chunks "sha256-object" "sha256-object" "hot" 1500)
     w).2.

Definition sample_put_chunk : PutChunkRequest :=
  mkPutChunkRequest "tenant-alpha" "session-1" 1 (cid_from_bytes chunk_b) 6 5 "identity".
Definition put_chunk_run : result ApiError PutChunkResponse * World (fs_backend no_faults) :=
  put_chunk concrete_service (sample_token "tenant-alpha" "j1") sample_put_chunk chunk_b
    (with_session None (empty_world no_faults)).

Definition sample_commit : PutCommitRequest :=
  mkPutCommitRequest "tenant-alpha" "session-1" "sha256-object" "idem-c".
Definition ready_world (bind : option AtomicBindRequest) : World (fs_backend no_faults) :=
  with_chunk chunk_a (with_chunk chunk_b (with_session bind (empty_world no_faults))).
Definition put_commit_run : result ApiError PutCommitResponse * World (fs_backend no_faults) :=
  put_commit concrete_service (sample_token "tenant-alpha" "j1") sample_commit
    (ready_world None).

(** Witness of C24. *)
Lemma put_commit_publishes_witness :
  ∃ resp, put_commit_run.1 = Ok resp ∧
  (stored concrete_service (files (ready_world None)) "tenant-alpha" "idempotency"
     (idempotency_key "tenant-alpha" "put_commit" "idem-c") = Some (mkIdempotencyRecord resp)
   ∨ ∃ session, stored concrete_service (files (ready_world None)) "tenant-alpha" "sessions"
                  "session-1" = Some session ∧
      us_manifest_cid session = "sha256-object" ∧
      Forall (λ c, is_Some (files (ready_world None) !!
                              store_key "tenant-alpha" "chunks" (cr_cid c)))
        (mf_chunk_refs (us_manifest session)) ∧
      cmr_object_cid resp = "sha256-object" ∧ cmr_committed resp = true ∧
      (∃ record, stored concrete_service (files put_commit_run.2) "tenant-alpha" "manifests"
                   "sha256-object" = Some record ∧
                 mr_manifest record = us_manifest session ∧
                 mr_object_cid record = "sha256-object") ∧
      ∃ closed, stored concrete_service (files put_commit_run.2) "tenant-alpha" "sessions"
                  "session-1" = Some closed ∧
                us_committed closed = true ∧ us_manifest closed = us_manifest session).
Proof.
  eexists. split; [vm_compute; reflexivity|].
  apply (put_commit_publishes concrete_service (sample_token "tenant-alpha" "j1") sample_commit
           (ready_world None) _ put_commit_run.2).
  unfold put_commit_run. apply run_pair. vm_compute. reflexivity.
Defined.

(** An atomic bind whose signed record does not match. *)
Definition bad_bind : AtomicBindRequest :=
  mkAtomicBindRequest "docs" "reports/q1" None ∅ None "AA".
Definition withdrawn_world : World (fs_backend no_faults) := with_manifest (ready_world (Some bad_bind)).
#[local] Abbreviation failed_run :=
  (put_commit concrete_service (sample_token "tenant-alpha" "j1") sample_commit withdrawn_world).


Definition stored_world : World (fs_backend no_faults) :=
  with_manifest (with_chunk chunk_a (with_chunk chunk_b (empty_world no_faults))).
Definition sample_get : GetRequest :=
  mkGetRequest "tenant-alpha" (selector_of_cid "sha256-object") None (Some (mkRangeSpec 4 7)).
Definition get_run : result ApiError GetResponse * World (fs_backend no_faults) :=
  get concrete_service (sample_token "tenant-alpha" "j1") sample_get stored_world.

(** Witness of C3: bytes 4 to 7 of "hello world", across the two chunks. *)
Lemma get_returns_range_witness :
  ∃ resp, get_run.1 = Ok resp ∧
    List.concat (map gc_bytes (gr_chunks resp)) = as_bytes "o wo".
Proof.
  eexists. split; [vm_compute; reflexivity|].
  etransitivity.
  - eapply (get_returns_range concrete_service (sample_token "tenant-alpha" "j1") sample_get
              "sha256-object" stored_world _ get_run.2 _ [chunk_a; chunk_b]).
    + unfold get_run. apply run_pair. vm_compute. reflexivity.
    + reflexivity.
    + reflexivity.
    + vm_compute. reflexivity.
    + cbn. split_and!; try (vm_compute; reflexivity); discriminate.
    + reflexivity.
    + cbn. lia.
    + intros r [= <-]. cbn. lia.
  - reflexivity.
Defined.
