(* ===== verification/WireProps.v ===== *)
(** * Properties of the frame codec

    Frames written one after the other on a stream are read back one by one,
    oversized frames are refused before their payload is read, and the SETTINGS
    decoder accepts exactly maps with distinct text keys. *)

From Stdlib Require Import ZArith Lia Ascii String Bool.
From stdpp Require Import base option list strings gmap numbers.
From S2P Require Import Prelude RustStr Path Core Cbor CborFacts Concrete Auth Crypto Store ServiceState ConcreteService Wire.

(** ** SETTINGS *)

(** Field widths of the Rust struct, and the one content rule of the decoder. *)
Definition settings_ok (s : SettingsFrame) : Prop :=
  u64_range (set_max_chunk_size s) ∧ u64_range (set_max_manifest_size s) ∧
  u64_range (set_max_object_size s) ∧ u16_range (set_max_parallel_streams s) ∧
  u64_range (set_event_replay_window_sec s) ∧ u64_range (set_limits_revision s) ∧
  set_server_instance_id s ≠ "".

(** A successful pass over the pairs: text keys, all distinct and new, and the
    map of the pairs. *)
Lemma settings_entries_ok pairs seen entries entries' :
  settings_entries pairs seen entries = Ok entries' →
  (∀ k, k ∈ dom entries → k ∈ seen) →
  ∃ keys : list string, pairs.*1 = VText <$> keys ∧ NoDup keys ∧ (∀ k, k ∈ keys → k ∉ seen) ∧
    ∀ k v, entries' !! k = Some v ↔ entries !! k = Some v ∨ (VText k, v) ∈ pairs.
Proof.
  revert seen entries. induction pairs as [|[[] v] pairs IH]; intros seen entries; cbn; try done.
  { intros [= ->] _. exists []. split_and!; [done|constructor|set_solver|].
    intros k v. rewrite elem_of_nil. tauto. }
  case_bool_decide as Hs; [done|]. intros H Hdom. rename s into key.
  destruct (IH _ _ H) as (keys&Hk&Hnd&Hnew&Hl); [set_solver|].
  exists (key :: keys). split_and!.
  - cbn. by rewrite Hk.
  - apply NoDup_cons_2; [|done]. intros Hin. apply Hnew in Hin. set_solver.
  - intros k [->|Hin]%elem_of_cons; [done|]. apply Hnew in Hin. set_solver.
  - intros k x. rewrite Hl, lookup_insert_Some, elem_of_cons. split.
    + intros [[[-> ->]|[_ ?]]|?]; auto.
    + intros [He|[[= -> ->]|?]]; auto. left. right. split; [|done]. intros <-.
      apply Hs, Hdom, elem_of_dom. eauto.
Qed.

Lemma collect_texts_ok key values texts :
  collect_texts key values = Ok texts → values = map VText texts.
Proof.
  revert texts. induction values as [|v values IH]; intros texts; cbn; [by intros [= <-]|].
  destruct v; try done. intros (l&Hl&[= <-])%result_bind_ok. cbn. by rewrite (IH _ Hl).
Qed.
Lemma collect_texts_map key texts : collect_texts key (map VText texts) = Ok texts.
Proof. induction texts as [|x texts IH]; cbn; [done|by rewrite IH]. Qed.

Lemma required_u64_ok entries key n :
  required_u64 entries key = Ok n ↔ entries !! key = Some (VInteger n) ∧ u64_range n.
Proof.
  unfold required_u64, u64_range, u64_max. destruct (entries !! key) as [[]|]; try naive_solver.
  destruct (Z.leb_spec 0 i), (Z.leb_spec i (2 ^ 64 - 1)); cbn; try naive_solver lia.
Qed.
Lemma required_text_ok entries key s :
  required_text entries key = Ok s ↔ entries !! key = Some (VText s) ∧ s ≠ "".
Proof.
  unfold required_text. destruct (entries !! key) as [[]|]; try naive_solver.
  destruct s0; cbn; naive_solver.
Qed.
Lemma required_text_array_ok entries key l :
  required_text_array entries key = Ok l ↔ entries !! key = Some (VArray (map VText l)).
Proof.
  unfold required_text_array. split.
  - destruct (entries !! key) as [[]|]; try done. by intros ->%collect_texts_ok.
  - intros ->. apply collect_texts_map.
Qed.

Section props.
Context {V : Type} `{D : WireDeps V} `{DL : !WireDepsLaws V}.

(** Every field of an accepted SETTINGS frame is the value of its key. *)
Lemma settings_of_entries_ok entries s :
  settings_of_entries entries = Ok s ↔
  ∃ streams,
    entries !! "max_chunk_size" = Some (VInteger (set_max_chunk_size s)) ∧
    entries !! "max_manifest_size" = Some (VInteger (set_max_manifest_size s)) ∧
    entries !! "max_object_size" = Some (VInteger (set_max_object_size s)) ∧
    entries !! "max_parallel_streams" = Some (VInteger streams) ∧
    set_max_parallel_streams s = as_u16 streams ∧ u64_range streams ∧
    entries !! "supported_chunkers" = Some (VArray (map VText (set_supported_chunkers s))) ∧
    entries !! "supported_content_encodings"
      = Some (VArray (map VText (set_supported_content_encodings s))) ∧
    entries !! "supported_token_profiles"
      = Some (VArray (map VText (set_supported_token_profiles s))) ∧
    entries !! "supported_extensions"
      = Some (VArray (map VText (set_supported_extensions s))) ∧
    entries !! "server_instance_id" = Some (VText (set_server_instance_id s)) ∧
    entries !! "event_replay_window_sec" = Some (VInteger (set_event_replay_window_sec s)) ∧
    entries !! "limits_revision" = Some (VInteger (set_limits_revision s)) ∧
    u64_range (set_max_chunk_size s) ∧ u64_range (set_max_manifest_size s) ∧
    u64_range (set_max_object_size s) ∧ u64_range (set_event_replay_window_sec s) ∧
    u64_range (set_limits_revision s) ∧ set_server_instance_id s ≠ "".
Proof.
  unfold settings_of_entries. split.
  - intros H. repeat (apply result_bind_ok in H as (?&Hf&H);
      first [apply required_u64_ok in Hf as [? ?] | apply required_text_ok in Hf as [? ?]
            | pose proof (proj1 (required_text_array_ok _ _ _) Hf); clear Hf]).
    injection H as <-. cbn. eexists. split_and!; eauto.
  - destruct s as [a b c d l1 l2 l3 l4 i e r]; cbn [set_max_chunk_size set_max_manifest_size
      set_max_object_size set_max_parallel_streams set_supported_chunkers
      set_supported_content_encodings set_supported_token_profiles set_supported_extensions
      set_server_instance_id set_event_replay_window_sec set_limits_revision].
    intros (n&Hs). destruct_and! Hs. subst d.
    repeat match goal with
    | Hk : entries !! ?k = Some (VInteger ?n), Hn : u64_range ?n
      |- context [required_u64 entries ?k] =>
        rewrite (proj2 (required_u64_ok entries k n) (conj Hk Hn))
    | Hk : entries !! ?k = Some (VArray (map VText ?l))
      |- context [required_text_array entries ?k] =>
        rewrite (proj2 (required_text_array_ok entries k l) Hk)
    | Hk : entries !! ?k = Some (VText ?x), Hx : ?x ≠ ""
      |- context [required_text entries ?k] =>
        rewrite (proj2 (required_text_ok entries k x) (conj Hk Hx))
    end. reflexivity.
Qed.

(** What the derived writer produces is accepted and read back. *)
Lemma decode_settings_written s b :
  settings_ok s → settings_write s = Ok b → decode_settings_frame b = Ok s.
Proof.
  intros (H1&H2&H3&H4&H5&H6&H7) Hb. unfold decode_settings_frame.
  rewrite (settings_read_write _ _ Hb). cbn [map_err]. rewrite ok_bind.
  unfold settings_value. cbv zeta. rewrite ok_bind.
  match goal with |- (settings_entries ?p _ _ ≫= _) = _ =>
    assert (is_ok (settings_entries p ∅ ∅) = true) as He by (vm_compute; reflexivity);
    destruct (settings_entries p ∅ ∅) as [entries|e] eqn:Hs; [clear He|done] end.
  apply settings_entries_ok in Hs as (keys&_&_&_&Hl); [|set_solver].
  rewrite ok_bind. apply settings_of_entries_ok. exists (set_max_parallel_streams s).
  unfold as_u16. unfold u16_range, u64_range in *. rewrite Z.mod_small by lia.
  split_and!; try lia; try done; apply Hl; right;
    repeat first [apply list_elem_of_here | apply list_elem_of_further].
Qed.

Definition frame_ok (f : Frame V) : Prop :=
  match f with FrSettings s => settings_ok s | _ => True end.

Lemma decode_cbor_encode {T} `{Serde T} `{!SerdeLaws T} (v : T) b :
  encode_cbor v = Ok b → decode_cbor b = Ok v.
Proof.
  unfold encode_cbor, decode_cbor. destruct (serde_write v) as [x|] eqn:Hw; [|done].
  intros [= ->]. by rewrite (serde_read_write _ _ Hw).
Qed.

Lemma decode_frame_payload_encode f b :
  frame_ok f → encode_frame_payload f = Ok b → decode_frame_payload (frame_type f) b = Ok f.
Proof.
  destruct f; cbn; intros Hok Hb; try (rewrite (decode_cbor_encode _ _ Hb); done);
    try (injection Hb as <-; done).
  destruct (settings_write settings) as [x|] eqn:Hw; [|done]. injection Hb as <-.
  by rewrite (decode_settings_written _ _ Hok Hw).
Qed.

Lemma frame_type_try_from_byte ft :
  frame_type_try_from (byte_val (byte_of (frame_type_byte ft))) = Ok ft.
Proof. by destruct ft. Qed.

Lemma enforce_frame_len_ok ft n : enforce_frame_len ft n = Ok tt ↔ n <= 8 * 1024 * 1024.
Proof.
  unfold enforce_frame_len, MAX_DATA_FRAME_LEN, MAX_CONTROL_FRAME_LEN.
  destruct ft; destruct (Z.ltb_spec (8 * 1024 * 1024) n); split; (done || lia).
Qed.

(** The bytes of a frame. *)
Definition frame_bytes (ft : FrameType) (payload : bytes) : bytes :=
  (byte_of (frame_type_byte ft) :: be_bytes 4 (len_u64 payload)) ++ payload.

Section streams.
Context (W : Writer) `{WL : !WriterLaws W} (R : Reader) `{RL : !ReaderLaws R}.
(** A reader that delivers what has come. *)
Definition reliable : Prop :=
  ∀ n s, (n <= length (coming s))%nat → is_ok (read_exact R n s).1 = true.

Lemma io_ok {S A} (m : ST S string A) s a s' : io m s = (Ok a, s') → m s = (Ok a, s').
Proof. unfold io. destruct (m s) as [[x|e] s1]; cbn; congruence. Qed.

Lemma write_frame_ok f s s' :
  write_frame W f s = (Ok tt, s') →
  ∃ payload, encode_frame_payload f = Ok payload ∧ len_u64 payload <= 8 * 1024 * 1024 ∧
    written s' = written s ++ frame_bytes (frame_type f) payload.
Proof.
  unfold write_frame. cbn zeta. intros (payload&s1&Hp&H)%ST_bind_ok.
  unfold lift_result in Hp. injection Hp as Hp <-.
  apply ST_bind_ok in H as (u&s1&Hl&H). unfold lift_result in Hl. injection Hl as Hl <-.
  destruct u. apply enforce_frame_len_ok in Hl.
  apply ST_bind_ok in H as (u&s1&Hh&H). destruct u. apply io_ok, write_all_ok in Hh.
  apply ST_bind_ok in H as (u&s2&Hw&H). apply io_ok, flush_ok in H.
  assert (written s2 = written s1 ++ payload) as Hw2.
  { case_bool_decide as He; [apply ST_ret_ok in Hw as [_ <-]; by rewrite He, app_nil_r|].
    destruct u. by apply io_ok, write_all_ok in Hw. }
  exists payload. split_and!; [done..|]. rewrite H, Hw2, Hh, <-(assoc_L (++)).
  unfold frame_bytes. rewrite Z.mod_small; [done|]. unfold len_u64 in *. lia.
Qed.

Lemma read_exact_total n s b rest :
  reliable → length b = n → coming s = b ++ rest →
  ∃ s', io (read_exact R n) s = (Ok b, s') ∧ coming s' = rest.
Proof.
  intros Hrel Hn Hc. specialize (Hrel n s). rewrite Hc, length_app in Hrel.
  specialize (Hrel ltac:(lia)). destruct (read_exact R n s) as [[x|e] s'] eqn:Hr; [|done].
  apply read_exact_ok in Hr as Hx. destruct Hx as [Hl Hx].
  rewrite Hc in Hx. apply app_inj_1 in Hx as [<- Hrest]; [|congruence].
  exists s'. unfold io. by rewrite Hr.
Qed.

(** Reading a header. *)
Lemma read_frame_header ft n r rest :
  reliable → 0 <= n < 2 ^ 32 →
  coming r = (byte_of (frame_type_byte ft) :: be_bytes 4 n) ++ rest →
  ∃ r', coming r' = rest ∧
    read_frame (V:=V) R r =
      (_ ← lift_result (enforce_frame_len ft n);
       payload ← (if 0 <? n then io (read_exact R (Z.to_nat n)) else mret []);
       lift_result (decode_frame_payload ft payload)) r'.
Proof.
  intros Hrel Hn Hc.
  destruct (read_exact_total 5 r _ _ Hrel ltac:(by rewrite length_cons, length_be_bytes) Hc)
    as (r'&Hr&Hrest).
  exists r'. split; [done|]. unfold read_frame, FRAME_HEADER_LEN. rewrite ST_bind_run, Hr.
  rewrite lookup_cons. cbn [fmap option_fmap option_map from_option id]. rewrite ST_bind_run.
  unfold lift_result at 1. rewrite frame_type_try_from_byte. cbn zeta. rewrite skipn_cons, drop_0.
  rewrite be_value_be_bytes by lia. rewrite Z.mod_small by lia. reflexivity.
Qed.

Lemma read_frame_bytes f payload r rest :
  reliable → frame_ok f → encode_frame_payload f = Ok payload →
  len_u64 payload <= 8 * 1024 * 1024 →
  coming r = frame_bytes (frame_type f) payload ++ rest →
  ∃ r', read_frame R r = (Ok f, r') ∧ coming r' = rest.
Proof.
  intros Hrel Hok Henc Hlen Hc. unfold frame_bytes in Hc. rewrite <-(assoc_L (++)) in Hc.
  assert (0 <= len_u64 payload < 2 ^ 32) as Hr32 by (unfold len_u64 in *; lia).
  destruct (read_frame_header _ _ _ _ Hrel Hr32 Hc) as (r1&Hc1&->).
  rewrite ST_bind_run. unfold lift_result.
  rewrite (proj2 (enforce_frame_len_ok _ _) Hlen), ST_bind_run.
  destruct payload as [|x payload].
  - exists r1. split; [|done].
    exact (f_equal (λ x, (x, r1)) (decode_frame_payload_encode _ _ Hok Henc)).
  - destruct (Z.ltb_spec 0 (len_u64 (x :: payload))) as [_|Hneg];
      [|unfold len_u64 in Hneg; cbn in Hneg; lia].
    destruct (read_exact_total (Z.to_nat (len_u64 (x :: payload))) r1 (x :: payload) _ Hrel
      ltac:(unfold len_u64; lia) Hc1) as (r2&->&Hc2).
    rewrite (decode_frame_payload_encode _ _ Hok Henc). by exists r2.
Qed.

(** Several frames, one after the other. *)
Fixpoint write_frames (frames : list (Frame V)) : ST (wstate W) WireCodecError unit :=
  match frames with
  | [] => mret tt
  | f :: rest => _ ← write_frame W f; write_frames rest
  end.
Fixpoint read_frames (n : nat) : ST (rstate R) WireCodecError (list (Frame V)) :=
  match n with
  | O => mret []
  | S n' => f ← read_frame R; rest ← read_frames n'; mret (f :: rest)
  end.

(** C31: frames survive the stream.  The bytes a sequence of frames adds to a
    writer, delivered by any reader and followed by anything, are read back as
    the same frames, and what follows is left on the stream: frame borders are
    never lost.  A SETTINGS frame must carry a server instance id, which the reader
    requires and the writer does not check, and integers of their width. *)
Theorem frames_roundtrip frames w w' :
  Forall frame_ok frames → write_frames frames w = (Ok tt, w') →
  ∃ b, written w' = written w ++ b ∧
    ∀ r rest, reliable → coming r = b ++ rest →
      ∃ r', read_frames (length frames) r = (Ok frames, r') ∧ coming r' = rest.
Proof.
  intros Hok. revert w. induction Hok as [|f frames Hf Hok IH]; intros w; cbn [write_frames].
  { intros [_ <-]%ST_ret_ok. exists []. split; [by rewrite app_nil_r|].
    intros r rest _ Hc. by exists r. }
  intros (u&w1&Hw&H)%ST_bind_ok. destruct u.
  apply write_frame_ok in Hw as (payload&Henc&Hlen&Hw1). apply IH in H as (b&Hw'&Hread).
  exists (frame_bytes (frame_type f) payload ++ b). split; [by rewrite Hw', Hw1, (assoc_L (++))|].
  intros r rest Hrel Hc. rewrite <-(assoc_L (++)) in Hc.
  destruct (read_frame_bytes _ _ _ _ Hrel Hf Henc Hlen Hc) as (r1&Hr1&Hc1).
  destruct (Hread r1 rest Hrel Hc1) as (r2&Hr2&Hc2). exists r2. split; [|done].
  cbn [length read_frames]. by rewrite ST_bind_run, Hr1, ST_bind_run, Hr2.
Qed.

(** The size limit comes first.  A header that announces more than 8 MiB is
    refused with its type and length, and nothing behind the header is read. *)
Theorem oversized_frame_refused ft n r rest :
  reliable → 8 * 1024 * 1024 < n < 2 ^ 32 →
  coming r = (byte_of (frame_type_byte ft) :: be_bytes 4 n) ++ rest →
  ∃ r', read_frame (V:=V) R r = (Err (OversizedFrame ft n), r') ∧ coming r' = rest.
Proof.
  intros Hrel Hn Hc.
  destruct (read_frame_header ft n r rest Hrel ltac:(lia) Hc) as (r'&Hc'&->).
  exists r'. split; [|done]. rewrite ST_bind_run. unfold lift_result, enforce_frame_len.
  unfold MAX_DATA_FRAME_LEN, MAX_CONTROL_FRAME_LEN.
  destruct ft; by rewrite (proj2 (Z.ltb_lt _ _)) by lia.
Qed.
End streams.

(** What the SETTINGS decoder accepts.  The payload is a map with distinct
    text keys; every field is the value of its key, in range; unknown keys are
    allowed; and [max_parallel_streams] is the low sixteen bits of a 64-bit
    value. *)
Theorem decode_settings_frame_sound b s :
  decode_settings_frame b = Ok s →
  ∃ pairs (keys : list string) streams, value_read b = Ok (VMap pairs) ∧
    pairs.*1 = VText <$> keys ∧ NoDup keys ∧
    (VText "max_chunk_size", VInteger (set_max_chunk_size s)) ∈ pairs ∧
    (VText "max_manifest_size", VInteger (set_max_manifest_size s)) ∈ pairs ∧
    (VText "max_object_size", VInteger (set_max_object_size s)) ∈ pairs ∧
    (VText "max_parallel_streams", VInteger streams) ∈ pairs ∧
    set_max_parallel_streams s = streams mod 2 ^ 16 ∧ u64_range streams ∧
    (VText "supported_chunkers", VArray (map VText (set_supported_chunkers s))) ∈ pairs ∧
    (VText "server_instance_id", VText (set_server_instance_id s)) ∈ pairs ∧
    set_server_instance_id s ≠ "".
Proof.
  unfold decode_settings_frame. intros (value&Hv&H)%result_bind_ok.
  apply result_bind_ok in H as (pairs&Hp&H). destruct value; try done. injection Hp as ->.
  apply result_bind_ok in H as (entries&He&H).
  apply settings_entries_ok in He as (keys&Hk&Hnd&_&Hl); [|set_solver].
  apply settings_of_entries_ok in H as (streams&Hs).
  assert (∀ k v, entries !! k = Some v → (VText k, v) ∈ pairs) as Hin.
  { intros k v [Hn|Hin]%Hl; [by rewrite lookup_empty in Hn|done]. }
  exists pairs, keys, streams. destruct_and! Hs. destruct (value_read b); simplify_eq/=.
  split_and!; auto.
Qed.
End props.

Import ToyWire.

Lemma mem_reader_reliable : reliable mem_reader.
Proof. intros n s Hn. cbn in *. by rewrite (proj2 (Nat.leb_le _ _) Hn). Qed.

(** A greeting, a request and a chunk with its end. *)
Definition sample_frames : list (Frame string) :=
  [FrSettings (public_multitenant_settings_frame "server-1");
   FrReqHeader (mkReqHeader 1 OpInfo (Some 7) (Some PmJson) (Some 0) ∅ ∅);
   FrData (as_bytes "ciphertext"); FrEnd].
Definition sent : result WireCodecError unit * wstate mem_writer :=
  write_frames mem_writer sample_frames [].

(** Witness of C31: the frames are read back in front of other bytes. *)
Lemma frames_roundtrip_witness :
  sent.1 = Ok tt ∧
  ∃ b, written sent.2 = written (W:=mem_writer) [] ++ b ∧
    ∀ r rest, reliable mem_reader → coming r = b ++ rest →
      ∃ r', read_frames mem_reader (length sample_frames) r = (Ok sample_frames, r') ∧ coming r' = rest.
Proof.
  split; [vm_compute; reflexivity|].
  apply (frames_roundtrip mem_writer mem_reader sample_frames [] sent.2).
  - repeat constructor; cbn; try done; unfold u64_range; lia.
  - unfold sent. apply run_pair. vm_compute. reflexivity.
Defined.

Definition wide_settings : SettingsFrame :=
  mkSettingsFrame 1 2 3 65544 ["fixed-4m"] ["identity"] [] [] "server-1" 4 5.

