(* ===== verification/Chunker.v ===== *)
(** * hsp-distribution: the fixed-size chunker

    Models the chunking code of [crates/hsp-distribution/src/lib.rs]: the
    one-shot [chunk_ciphertext] and the streaming loops that cut the parts of a
    multipart upload into the same chunks ([collect_fixed_chunk_refs],
    [upload_fixed_chunks] and their flushes).  Both loops fill a pending buffer
    and hand it on when it is full, so they share [fill_loop], which is
    parametrised by what is done with a full buffer.  The equivalence with
    [slice::chunks] of the concatenation is proved once, for any such action. *)

From Stdlib Require Import ZArith Lia Ascii String Bool.
From stdpp Require Import base option list strings gmap numbers.
From S2P Require Import Prelude RustStr Core Cbor CborFacts.

Definition FIXED_CHUNK_SIZE : Z := 1024 * 1024.

(** ** [slice::chunks] and the streaming loop, for any chunk size *)

Section loops.
Variable size : Z.

(** [bytes.chunks(size)]: at most one chunk per byte. *)
Fixpoint chunks_fuel (fuel : nat) (l : bytes) : list bytes :=
  match fuel, l with
  | S f, _ :: _ =>
      let n := Z.to_nat (Z.min size (len_u64 l)) in
      take n l :: chunks_fuel f (drop n l)
  | _, _ => []
  end.
Definition slice_chunks (l : bytes) : list bytes := chunks_fuel (length l) l.

(** The [while !remaining.is_empty()] loop: [emit] is what happens to a full
    buffer before [pending_chunk.clear()].  [None] is running out of iterations. *)
Fixpoint fill_loop {S E C} (emit : bytes → C → ST S E C) (fuel : nat)
  (remaining pending_chunk : bytes) (c : C) : ST S E (option (bytes * C)) :=
  match remaining with
  | [] => mret (Some (pending_chunk, c))
  | _ =>
      match fuel with
      | O => mret None
      | Datatypes.S f =>
          let capacity := size - len_u64 pending_chunk in
          let n := Z.to_nat (Z.min capacity (len_u64 remaining)) in
          let pending_chunk := pending_chunk ++ take n remaining in
          let remaining := drop n remaining in
          if len_u64 pending_chunk =? size then
            c ← emit pending_chunk c;
            fill_loop emit f remaining [] c
          else fill_loop emit f remaining pending_chunk c
      end
  end.

(** The [flush] functions: the last, shorter chunk. *)
Definition flush_pending {S E C} (emit : bytes → C → ST S E C) (pending_chunk : bytes) (c : C)
  : ST S E C :=
  match pending_chunk with [] => mret c | _ => emit pending_chunk c end.

(** The reference: one [emit] per chunk, in order. *)
Fixpoint emit_all {S E C} (emit : bytes → C → ST S E C) (chunks : list bytes) (c : C)
  : ST S E C :=
  match chunks with
  | [] => mret c
  | chunk :: rest => c ← emit chunk c; emit_all emit rest c
  end.

(** Full chunks of a byte string and what is left over. *)
Fixpoint split_fuel (fuel : nat) (l : bytes) : list bytes * bytes :=
  match fuel with
  | O => ([], l)
  | S f =>
      if len_u64 l <? size then ([], l)
      else let r := split_fuel f (drop (Z.to_nat size) l) in
           (take (Z.to_nat size) l :: r.1, r.2)
  end.
Definition split_full (l : bytes) : list bytes * bytes := split_fuel (length l) l.
End loops.

Section facts.
Variable size : Z.
Hypothesis size_pos : 0 < size.

Lemma chunks_fuel_enough f f' l :
  (length l <= f)%nat → (length l <= f')%nat → chunks_fuel size f l = chunks_fuel size f' l.
Proof.
  revert f' l. induction f as [|f IH]; intros [|f'] [|x l] Hf Hf'; cbn [length] in *; try done; try lia.
  cbn [chunks_fuel]. f_equal.
  unfold len_u64. apply IH; rewrite length_drop; cbn [length]; lia.
Qed.

Lemma slice_chunks_cons l :
  l ≠ [] →
  slice_chunks size l =
  take (Z.to_nat (Z.min size (len_u64 l))) l ::
  slice_chunks size (drop (Z.to_nat (Z.min size (len_u64 l))) l).
Proof.
  intros Hl. unfold slice_chunks at 1. destruct l as [|x l]; [done|].
  cbn [length chunks_fuel]. f_equal. unfold len_u64.
  apply chunks_fuel_enough; rewrite length_drop; cbn [length]; lia.
Qed.

(** Chunks concatenate to the input. *)
Lemma slice_chunks_concat l : List.concat (slice_chunks size l) = l.
Proof.
  induction l as [l IH] using (induction_ltof1 _ (@length ascii)). unfold ltof in IH.
  destruct (decide (l = [])) as [->|Hl]; [done|].
  rewrite slice_chunks_cons by done. cbn [List.concat]. rewrite IH, take_drop; [done|].
  rewrite length_drop. destruct l; [done|]. unfold len_u64. cbn [length]. lia.
Qed.

Lemma split_fuel_enough f f' l :
  (length l <= f)%nat → (length l <= f')%nat → split_fuel size f l = split_fuel size f' l.
Proof.
  revert f' l. induction f as [|f IH]; intros [|f'] l Hf Hf'; try done.
  - destruct l; [|cbn in Hf; lia]. cbn. by rewrite (proj2 (Z.ltb_lt _ _)).
  - destruct l; [|cbn in Hf'; lia]. cbn. by rewrite (proj2 (Z.ltb_lt _ _)).
  - cbn [split_fuel]. destruct (Z.ltb_spec (len_u64 l) size) as [?|Hge]; [done|].
    unfold len_u64 in Hge.
    rewrite (IH f'); [done|rewrite length_drop; lia..].
Qed.

Lemma split_full_short l : len_u64 l < size → split_full size l = ([], l).
Proof.
  intros Hl. unfold split_full. destruct (length l) as [|n] eqn:El; [done|].
  cbn [split_fuel]. by rewrite (proj2 (Z.ltb_lt _ _)).
Qed.
Lemma split_full_long l :
  size <= len_u64 l →
  split_full size l =
  (take (Z.to_nat size) l :: (split_full size (drop (Z.to_nat size) l)).1,
   (split_full size (drop (Z.to_nat size) l)).2).
Proof.
  intros Hl. unfold split_full at 1. unfold len_u64 in Hl.
  destruct (length l) as [|n] eqn:El; [lia|].
  cbn [split_fuel]. unfold len_u64. rewrite El, (proj2 (Z.ltb_ge _ _)) by lia.
  unfold split_full. rewrite (split_fuel_enough n (length (drop (Z.to_nat size) l)));
    [done|rewrite length_drop; lia..].
Qed.

Lemma len_u64_app {A} (l k : list A) : len_u64 (l ++ k) = len_u64 l + len_u64 k.
Proof. unfold len_u64. rewrite length_app. lia. Qed.
Lemma len_u64_nonneg {A} (l : list A) : 0 <= len_u64 l.
Proof. unfold len_u64. lia. Qed.

(** The leftover is shorter than a chunk, so there is always room in the buffer. *)
Lemma split_full_rest l : len_u64 (split_full size l).2 < size.
Proof.
  induction l as [l IH] using (induction_ltof1 _ (@length ascii)). unfold ltof in IH.
  destruct (Z.lt_ge_cases (len_u64 l) size) as [Hl|Hl]; [by rewrite split_full_short|].
  rewrite split_full_long by done. cbn [snd]. apply IH.
  rewrite length_drop. unfold len_u64 in Hl. lia.
Qed.

(** Splitting can go on from the leftover. *)
Lemma split_full_app a b :
  split_full size (a ++ b) =
  ((split_full size a).1 ++ (split_full size ((split_full size a).2 ++ b)).1,
   (split_full size ((split_full size a).2 ++ b)).2).
Proof.
  induction a as [a IH] using (induction_ltof1 _ (@length ascii)). unfold ltof in IH.
  destruct (Z.lt_ge_cases (len_u64 a) size) as [Ha|Ha].
  - rewrite (split_full_short a) by done. cbn [fst snd app]. by destruct (split_full _ _).
  - pose proof (len_u64_nonneg b).
    rewrite (split_full_long (a ++ b)) by (rewrite len_u64_app; lia).
    rewrite (split_full_long a) by done. cbn [fst snd app].
    unfold len_u64 in Ha. rewrite take_app_le, drop_app_le by lia.
    rewrite IH; [done|]. rewrite length_drop. lia.
Qed.

(** [slice::chunks] is the full chunks and the leftover. *)
Lemma slice_chunks_split l :
  slice_chunks size l =
  (split_full size l).1 ++ match (split_full size l).2 with [] => [] | r => [r] end.
Proof.
  induction l as [l IH] using (induction_ltof1 _ (@length ascii)). unfold ltof in IH.
  destruct (decide (l = [])) as [->|Hne]; [by rewrite split_full_short|].
  rewrite slice_chunks_cons by done.
  destruct (Z.lt_ge_cases (len_u64 l) size) as [Hl|Hl].
  - rewrite split_full_short, Z.min_r by (done || lia). unfold len_u64. rewrite Nat2Z.id.
    rewrite take_ge, drop_ge by lia. by destruct l.
  - rewrite (split_full_long l), Z.min_l by (done || lia). cbn [fst snd app].
    rewrite IH; [done|]. rewrite length_drop. unfold len_u64 in Hl. lia.
Qed.
End facts.

Section stream.
Variable size : Z.
Hypothesis size_pos : 0 < size.
Context {S E C : Type} (emit : bytes → C → ST S E C).

Lemma emit_all_app a b c s :
  emit_all emit (a ++ b) c s = (emit_all emit a c ≫= emit_all emit b) s.
Proof.
  revert c s. induction a as [|x a IH]; intros c s; [done|]. cbn [emit_all app].
  rewrite !ST_bind_run. destruct (emit x c s) as [[c'|e] s']; [|done].
  by rewrite IH, ST_bind_run.
Qed.

(** A buffer with room, and one iteration per byte: the loop hands on the full
    chunks of the buffered and the new bytes and keeps what is left over. *)
Lemma fill_loop_spec fuel remaining pending c s :
  len_u64 pending < size → (length remaining <= fuel)%nat →
  fill_loop size emit fuel remaining pending c s =
  (emit_all emit (split_full size (pending ++ remaining)).1 c ≫= λ c',
     mret (Some ((split_full size (pending ++ remaining)).2, c'))) s.
Proof.
  revert remaining pending c s. induction fuel as [|fuel IH]; intros [|x rem] pending c s Hp Hf;
    try (cbn in Hf; lia); try by rewrite app_nil_r, split_full_short.
  cbn [fill_loop]. set (l := x :: rem) in *.
  set (n := Z.to_nat (Z.min (size - len_u64 pending) (len_u64 l))).
  assert (Hl : (1 <= length l)%nat) by (unfold l; cbn; lia).
  assert (Hn : (1 <= n <= length l)%nat) by (unfold n, len_u64 in *; lia).
  assert (Hsplit : pending ++ l = (pending ++ take n l) ++ drop n l)
    by by rewrite <-(assoc_L (++)), take_drop.
  assert (Hlen : len_u64 (pending ++ take n l) = len_u64 pending + Z.of_nat n)
    by (rewrite len_u64_app; unfold len_u64; rewrite length_take; lia).
  assert (Hdrop : (length (drop n l) <= fuel)%nat) by (rewrite length_drop; lia).
  destruct (Z.eqb_spec (len_u64 (pending ++ take n l)) size) as [Heq|Hneq].
  - rewrite ST_bind_run, Hsplit. generalize dependent (pending ++ take n l).
    intros buf _ Hbuf Heq. rewrite (split_full_long size size_pos) by
      (rewrite len_u64_app; pose proof (len_u64_nonneg (drop n l)); lia).
    assert (Hnat : Z.to_nat size = length buf) by (unfold len_u64 in Heq; lia).
    rewrite Hnat, take_app_length, drop_app_length. cbn [emit_all fst snd].
    rewrite !ST_bind_run. destruct (emit buf c s) as [[c'|e] s'] eqn:Ee; [|done].
    by rewrite (IH (drop n l) [] c') by (cbn; done || lia).
  - rewrite Hsplit. apply IH; [|done]. rewrite Hlen in *.
    unfold n, len_u64 in *. lia.
Qed.

(** Termination: with room in the buffer the loop always comes to an end, and it
    leaves room in the buffer. *)
Lemma fill_loop_returns remaining pending c s :
  len_u64 pending < size →
  match (fill_loop size emit (length remaining) remaining pending c s).1 with
  | Ok (Some (pending', _)) => len_u64 pending' < size
  | Ok None => False
  | Err _ => True
  end.
Proof.
  intros Hp. rewrite fill_loop_spec by done. rewrite ST_bind_run.
  destruct (emit_all _ _ _ _) as [[c'|e] s']; [|done]. by apply split_full_rest.
Qed.
End stream.

(** ** The chunks of the service *)

Definition validation_error (code message : string) : ApiError :=
  mkApiError CatValidation code message.

Definition advance_fixed_chunk_cursor (chunk : bytes) (next_chunk_index next_chunk_offset : Z)
  : result ApiError (Z * Z) :=
  if 2 ^ 32 <=? next_chunk_index + 1 then
    Err (validation_error "object_too_large" "multipart object has too many chunks")
  else if 2 ^ 64 <=? next_chunk_offset + len_u64 chunk then
    Err (validation_error "object_too_large" "multipart object size overflows supported range")
  else Ok (next_chunk_index + 1, next_chunk_offset + len_u64 chunk).

Record StagedChunk := mkStagedChunk {
  sc_chunk_index : Z;
  sc_cid : string;
  sc_offset : Z;
  sc_stored_len : Z;
  sc_content_encoding : string;
  sc_bytes : bytes;
}.

(** What the loops carry: [chunk_refs], [next_chunk_index], [next_chunk_offset]. *)
Record ChunkRefCursor := mkChunkRefCursor {
  cc_chunk_refs : list ChunkRef;
  cc_next_chunk_index : Z;
  cc_next_chunk_offset : Z;
}.

(** The value of a loop that has run out of iterations; it never does, see
    [fill_loop_returns]. *)
Definition loop_diverges : ApiError := mkApiError CatStorage "loop_diverges" "".

Section chunker.
Context `{Hashing}.

Definition fixed_chunk_ref (chunk_index offset : Z) (chunk : bytes) : ChunkRef :=
  {| cr_chunk_index := chunk_index; cr_cid := cid_from_bytes chunk; cr_offset := offset;
     cr_logical_len := len_u64 chunk; cr_stored_len := len_u64 chunk;
     cr_content_encoding := "identity" |}.

Definition chunk_ciphertext (ciphertext : bytes) : list StagedChunk :=
  imap (λ index chunk,
    {| sc_chunk_index := Z.of_nat index mod 2 ^ 32;
       sc_cid := cid_from_bytes chunk;
       sc_offset := Z.of_nat index * FIXED_CHUNK_SIZE;
       sc_stored_len := len_u64 chunk;
       sc_content_encoding := "identity";
       sc_bytes := chunk |}) (slice_chunks FIXED_CHUNK_SIZE ciphertext).

(** The map of [build_manifest] from staged chunks to references. *)
Definition staged_chunk_ref (chunk : StagedChunk) : ChunkRef :=
  {| cr_chunk_index := sc_chunk_index chunk; cr_cid := sc_cid chunk;
     cr_offset := sc_offset chunk; cr_logical_len := sc_stored_len chunk;
     cr_stored_len := sc_stored_len chunk;
     cr_content_encoding := sc_content_encoding chunk |}.

Definition append_fixed_chunk_ref {S} (chunk : bytes) (c : ChunkRefCursor)
  : ST S ApiError ChunkRefCursor :=
  let chunk_ref := fixed_chunk_ref (cc_next_chunk_index c) (cc_next_chunk_offset c) chunk in
  '(index, offset) ← lift_result (advance_fixed_chunk_cursor chunk (cc_next_chunk_index c)
                                    (cc_next_chunk_offset c));
  mret (mkChunkRefCursor (cc_chunk_refs c ++ [chunk_ref]) index offset).

Definition run_loop {S A} (m : ST S ApiError (option A)) : ST S ApiError A :=
  o ← m; match o with Some a => mret a | None => throw loop_diverges end.

Definition collect_fixed_chunk_refs {S} (b pending_chunk : bytes) (c : ChunkRefCursor)
  : ST S ApiError (bytes * ChunkRefCursor) :=
  run_loop (fill_loop FIXED_CHUNK_SIZE append_fixed_chunk_ref (length b) b pending_chunk c).

Definition flush_fixed_chunk_ref {S} (pending_chunk : bytes) (c : ChunkRefCursor)
  : ST S ApiError ChunkRefCursor :=
  flush_pending append_fixed_chunk_ref pending_chunk c.

(** The first pass of [complete_multipart_upload] over given parts. *)
Fixpoint collect_parts {S} (parts : list bytes) (pending_chunk : bytes) (c : ChunkRefCursor)
  : ST S ApiError ChunkRefCursor :=
  match parts with
  | [] => flush_fixed_chunk_ref pending_chunk c
  | b :: rest =>
      '(pending_chunk, c) ← collect_fixed_chunk_refs b pending_chunk c;
      collect_parts rest pending_chunk c
  end.
End chunker.

(** ** The streaming passes compute the one-shot chunking *)

Lemma FIXED_CHUNK_SIZE_pos : 0 < FIXED_CHUNK_SIZE.
Proof. done. Qed.

Section layout.
Variable size : Z.
Hypothesis size_pos : 0 < size.

(** The number of chunks is the length divided by the size, rounded up. *)
Lemma slice_chunks_length l :
  Z.of_nat (length (slice_chunks size l)) = (len_u64 l + size - 1) / size.
Proof.
  induction l as [l IH] using (induction_ltof1 _ (@length ascii)). unfold ltof in IH.
  destruct (decide (l = [])) as [->|Hne].
  { symmetry. apply Z.div_small. change (len_u64 (@nil ascii)) with 0. lia. }
  assert (Hl : 1 <= len_u64 l) by (destruct l; [done|unfold len_u64; cbn [length]; lia]).
  rewrite slice_chunks_cons by done. cbn [length]. rewrite Nat2Z.inj_succ, IH.
  - assert (Hd : len_u64 (drop (Z.to_nat (Z.min size (len_u64 l))) l)
                 = len_u64 l - Z.min size (len_u64 l))
      by (unfold len_u64 in *; rewrite length_drop; lia).
    rewrite Hd. destruct (Z.min_spec size (len_u64 l)) as [[? ->]|[? ->]].
    + replace (len_u64 l + size - 1) with ((len_u64 l - size + size - 1) + 1 * size) by lia.
      rewrite Z.div_add by lia. lia.
    + rewrite (Z.div_small (_ - _ + _ - 1)) by lia.
      apply Z.div_unique with (len_u64 l - 1); lia.
  - rewrite length_drop. unfold len_u64 in *. lia.
Qed.

Lemma slice_chunks_few l n :
  0 <= n → len_u64 l <= n * size ↔ Z.of_nat (length (slice_chunks size l)) <= n.
Proof.
  intros Hn. rewrite slice_chunks_length.
  pose proof (Z.div_mod (len_u64 l + size - 1) size). pose proof (Z.mod_pos_bound (len_u64 l + size - 1) size).
  split; intros Hle; nia.
Qed.
End layout.

Section equivalence.
Context `{Hashing}.

(** References of consecutive chunks from index [i]. *)
Definition refs_from (i : Z) (chunks : list bytes) : list ChunkRef :=
  imap (λ k chunk, fixed_chunk_ref (i + Z.of_nat k) ((i + Z.of_nat k) * FIXED_CHUNK_SIZE) chunk)
       chunks.

Lemma refs_from_cons i chunk rest :
  refs_from i (chunk :: rest) =
  fixed_chunk_ref i (i * FIXED_CHUNK_SIZE) chunk :: refs_from (i + 1) rest.
Proof.
  unfold refs_from. cbn [imap]. f_equal; [by rewrite Z.add_0_r|].
  apply imap_ext. intros k x _. cbn. f_equal; [|f_equal]; lia.
Qed.

Lemma advance_ok chunk i off :
  i + 1 < 2 ^ 32 → off + len_u64 chunk < 2 ^ 64 →
  advance_fixed_chunk_cursor chunk i off = Ok (i + 1, off + len_u64 chunk).
Proof.
  intros Hi Ho. unfold advance_fixed_chunk_cursor.
  by rewrite (proj2 (Z.leb_gt _ _)), (proj2 (Z.leb_gt _ _)).
Qed.

(** While the index fits in 32 bits every chunk is appended at its place. *)
Lemma emit_all_append {S} l i refs (s : S) :
  0 <= i → i + Z.of_nat (length (slice_chunks FIXED_CHUNK_SIZE l)) < 2 ^ 32 →
  emit_all append_fixed_chunk_ref (slice_chunks FIXED_CHUNK_SIZE l)
    (mkChunkRefCursor refs i (i * FIXED_CHUNK_SIZE)) s =
  (Ok (mkChunkRefCursor (refs ++ refs_from i (slice_chunks FIXED_CHUNK_SIZE l))
         (i + Z.of_nat (length (slice_chunks FIXED_CHUNK_SIZE l)))
         (i * FIXED_CHUNK_SIZE + len_u64 l)), s).
Proof.
  revert i refs. induction l as [l IH] using (induction_ltof1 _ (@length ascii)).
  unfold ltof in IH. intros i refs Hi Hn. pose proof FIXED_CHUNK_SIZE_pos as Hsz.
  destruct (decide (l = [])) as [->|Hne].
  { cbn. by rewrite app_nil_r, !Z.add_0_r. }
  assert (Hl : 1 <= len_u64 l) by (destruct l; [done|unfold len_u64; cbn [length]; lia]).
  rewrite (slice_chunks_cons _ Hsz) in * by done. cbn [emit_all].
  set (n := Z.to_nat (Z.min FIXED_CHUNK_SIZE (len_u64 l))) in *.
  assert (Hb : i * FIXED_CHUNK_SIZE < 2 ^ 52).
  { cbn [length] in Hn. unfold FIXED_CHUNK_SIZE. lia. }
  assert (Ht : len_u64 (take n l) = Z.min FIXED_CHUNK_SIZE (len_u64 l)).
  { unfold n, len_u64 in *. rewrite length_take. lia. }
  rewrite ST_bind_run. unfold append_fixed_chunk_ref at 1. rewrite ST_bind_run. unfold lift_result.
  cbn [cc_next_chunk_index cc_next_chunk_offset cc_chunk_refs].
  rewrite advance_ok; cycle 1.
  { cbn [length] in Hn. lia. }
  { rewrite Ht. unfold FIXED_CHUNK_SIZE in *. lia. }
  cbn [mret ST_ret]. rewrite refs_from_cons.
  destruct (Z.min_spec FIXED_CHUNK_SIZE (len_u64 l)) as [[Hlt Hm]|[Hge Hm]].
  - replace (i * FIXED_CHUNK_SIZE + len_u64 (take n l)) with ((i + 1) * FIXED_CHUNK_SIZE) by lia.
    rewrite IH; cycle 1.
    { rewrite length_drop. unfold n, len_u64 in *. lia. }
    { lia. } { cbn [length] in Hn. lia. }
    assert (Hd : len_u64 (drop n l) = len_u64 l - FIXED_CHUNK_SIZE)
      by (unfold n, len_u64 in *; rewrite length_drop; lia).
    rewrite <-(assoc_L (++)). cbn [app]. do 3 f_equal; [cbn [length]; lia|lia].
  - rewrite (drop_ge l n) by (unfold n, len_u64 in *; lia). cbn.
    by rewrite Ht, Hm.
Qed.

Definition too_many_chunks : ApiError :=
  validation_error "object_too_large" "multipart object has too many chunks".

(** From the first index that does not fit on, the pass fails. *)
Lemma emit_all_too_many {S} l i refs (s : S) :
  0 <= i < 2 ^ 32 → 2 ^ 32 <= i + Z.of_nat (length (slice_chunks FIXED_CHUNK_SIZE l)) →
  emit_all append_fixed_chunk_ref (slice_chunks FIXED_CHUNK_SIZE l)
    (mkChunkRefCursor refs i (i * FIXED_CHUNK_SIZE)) s = (Err too_many_chunks, s).
Proof.
  revert i refs. induction l as [l IH] using (induction_ltof1 _ (@length ascii)).
  unfold ltof in IH. intros i refs Hi Hn. pose proof FIXED_CHUNK_SIZE_pos as Hsz.
  destruct (decide (l = [])) as [->|Hne]; [cbn in Hn; lia|].
  assert (Hl : 1 <= len_u64 l) by (destruct l; [done|unfold len_u64; cbn [length]; lia]).
  rewrite (slice_chunks_cons _ Hsz) in * by done. cbn [emit_all length] in *.
  set (n := Z.to_nat (Z.min FIXED_CHUNK_SIZE (len_u64 l))) in *.
  rewrite ST_bind_run. unfold append_fixed_chunk_ref at 1. rewrite ST_bind_run. unfold lift_result.
  cbn [cc_next_chunk_index cc_next_chunk_offset cc_chunk_refs].
  destruct (Z.le_gt_cases (2 ^ 32) (i + 1)) as [Hge|Hlt].
  { unfold advance_fixed_chunk_cursor. by rewrite (proj2 (Z.leb_le _ _)). }
  destruct (Z.min_spec FIXED_CHUNK_SIZE (len_u64 l)) as [[? Hm]|[? Hm]].
  - assert (Ht : len_u64 (take n l) = FIXED_CHUNK_SIZE).
    { unfold n, len_u64 in *. rewrite length_take. lia. }
    rewrite advance_ok by (rewrite ?Ht; unfold FIXED_CHUNK_SIZE; lia). cbn [mret ST_ret].
    rewrite Ht. replace (i * FIXED_CHUNK_SIZE + FIXED_CHUNK_SIZE)
      with ((i + 1) * FIXED_CHUNK_SIZE) by lia.
    apply IH; [|lia..]. rewrite length_drop. unfold n, len_u64 in *. lia.
  - rewrite (drop_ge l n) in Hn by (unfold n, len_u64 in *; lia). cbn in Hn. lia.
Qed.

(** Each pass over the parts comes down to the chunks of their concatenation. *)
Lemma collect_parts_spec {S} parts pending c (s : S) :
  len_u64 pending < FIXED_CHUNK_SIZE →
  collect_parts parts pending c s =
  emit_all append_fixed_chunk_ref
    (slice_chunks FIXED_CHUNK_SIZE (pending ++ List.concat parts)) c s.
Proof.
  pose proof FIXED_CHUNK_SIZE_pos as Hsz.
  revert pending c s. induction parts as [|b rest IH]; intros pending c s Hp; cbn [collect_parts].
  - cbn [List.concat]. rewrite app_nil_r, (slice_chunks_split _ Hsz), split_full_short by done.
    unfold flush_fixed_chunk_ref, flush_pending.
    destruct pending; [done|]. cbn [fst snd app emit_all].
    rewrite ST_bind_run. by destruct (append_fixed_chunk_ref _ _ _) as [[]].
  - cbn [List.concat]. rewrite ST_bind_run. unfold collect_fixed_chunk_refs, run_loop.
    rewrite ST_bind_run, (fill_loop_spec _ Hsz), ST_bind_run by (done || lia).
    rewrite (assoc_L (++) pending), (slice_chunks_split _ Hsz), (split_full_app _ Hsz (pending ++ b)).
    cbn [fst snd]. rewrite <-(assoc_L (++)), emit_all_app, ST_bind_run.
    destruct (emit_all append_fixed_chunk_ref (split_full FIXED_CHUNK_SIZE (pending ++ b)).1 c s) as [[c'|e] s']; [|done].
    cbn. rewrite IH by apply (split_full_rest _ Hsz). by rewrite (slice_chunks_split _ Hsz).
Qed.

Lemma refs_from_staged l :
  Z.of_nat (length (slice_chunks FIXED_CHUNK_SIZE l)) <= 2 ^ 32 →
  refs_from 0 (slice_chunks FIXED_CHUNK_SIZE l) = staged_chunk_ref <$> chunk_ciphertext l.
Proof.
  intros Hn. unfold refs_from, chunk_ciphertext. rewrite fmap_imap. apply imap_ext.
  intros k x Hk%lookup_lt_Some. cbn. unfold fixed_chunk_ref, staged_chunk_ref. cbn.
  rewrite Z.add_0_l, Z.mod_small by lia. done.
Qed.

Lemma collect_parts_whole {S} (parts : list bytes) (s : S) :
  collect_parts parts [] (mkChunkRefCursor [] 0 0) s =
  if len_u64 (List.concat parts) <=? (2 ^ 32 - 1) * FIXED_CHUNK_SIZE
  then (Ok (mkChunkRefCursor (staged_chunk_ref <$> chunk_ciphertext (List.concat parts))
              (Z.of_nat (length (chunk_ciphertext (List.concat parts))))
              (len_u64 (List.concat parts))), s)
  else (Err too_many_chunks, s).
Proof.
  rewrite collect_parts_spec by done. cbn [app].
  generalize (List.concat parts) as l. intros l.
  change (mkChunkRefCursor [] 0 0) with (mkChunkRefCursor [] 0 (0 * FIXED_CHUNK_SIZE)).
  pose proof (slice_chunks_few _ FIXED_CHUNK_SIZE_pos l (2 ^ 32 - 1) ltac:(lia)) as Hfew.
  destruct (Z.leb_spec (len_u64 l) ((2 ^ 32 - 1) * FIXED_CHUNK_SIZE)) as [Hle|Hgt].
  - apply Hfew in Hle. rewrite emit_all_append by lia. rewrite refs_from_staged by lia.
    unfold chunk_ciphertext. by rewrite length_imap.
  - apply emit_all_too_many; lia.
Qed.
(** C10: Cutting the parts of a multipart upload into chunks as they are read,
    with a buffer that carries over from part to part, gives exactly the chunk
    references that the one-shot chunker computes for the concatenation of the
    parts, and the total length; an object of more than 2^32 - 1 chunks is refused
    as too large, and nothing else is.  Neither pass can loop forever. *)
Theorem streaming_chunker_equivalent {S} (parts : list bytes) (s : S) :
  collect_parts parts [] (mkChunkRefCursor [] 0 0) s =
  if len_u64 (List.concat parts) <=? (2 ^ 32 - 1) * FIXED_CHUNK_SIZE
  then (Ok (mkChunkRefCursor (staged_chunk_ref <$> chunk_ciphertext (List.concat parts))
              (Z.of_nat (length (chunk_ciphertext (List.concat parts))))
              (len_u64 (List.concat parts))), s)
  else (Err too_many_chunks, s).
Proof. apply collect_parts_whole. Qed.
End equivalence.

(** The chunk loops terminate: one iteration per byte is enough, whatever is
    done with a full chunk, as long as there is room in the buffer; and a loop that
    is not stopped by an error leaves room in the buffer, so the next one
    terminates as well. *)
Theorem chunk_loops_terminate {S E C} (emit : bytes → C → ST S E C) remaining pending c s :
  len_u64 pending < FIXED_CHUNK_SIZE →
  match (fill_loop FIXED_CHUNK_SIZE emit (length remaining) remaining pending c s).1 with
  | Ok (Some (pending', _)) => len_u64 pending' < FIXED_CHUNK_SIZE
  | Ok None => False
  | Err _ => True
  end.
Proof. apply fill_loop_returns, FIXED_CHUNK_SIZE_pos. Qed.

(** An instance: a short part after another one. *)
Lemma chunk_loops_terminate_witness :
  match (fill_loop FIXED_CHUNK_SIZE (λ b n, (mret (len_u64 b + n) : ST unit unit Z))
           (length (as_bytes "part two")) (as_bytes "part two") (as_bytes "part one") 0 tt).1 with
  | Ok (Some (pending', _)) => len_u64 pending' < FIXED_CHUNK_SIZE
  | Ok None => False
  | Err _ => True
  end.
Proof. apply (chunk_loops_terminate (S:=unit) (E:=unit)). reflexivity. Defined.
