(* ===== verification/AmzDate.v ===== *)
(** * hsp-distribution: dates of signed requests

    Models [parse_amz_date_with_code], [datetime_to_epoch_ms], [days_from_civil]
    and their inverses [civil_from_days] and [amz_date_from_epoch_ms] of
    [crates/hsp-distribution/src/lib.rs].  Division is Rust's, which truncates;
    casts and products wrap at their width.  The day count is proved to be the
    proleptic Gregorian calendar: day 0 is 1970-01-01 and the day after a date is
    the next date of the calendar. *)

From Stdlib Require Import ZArith Lia Ascii String Bool.
From stdpp Require Import base option list strings gmap numbers.
From S2P Require Import Prelude RustStr Core Auth.

(** ** Strings and numbers *)

(** [u64::from_str]: an optional plus sign, then at least one digit. *)
Fixpoint digits_value (s : string) (acc : Z) : option Z :=
  match s with
  | EmptyString => Some acc
  | String c s' =>
      if in_range 48 57 c then
        let acc := acc * 10 + (byte_val c - 48) in
        if acc <=? u64_max then digits_value s' acc else None
      else None
  end.
Definition parse_u64 (s : string) : option Z :=
  match s with
  | EmptyString => None
  | String "+" EmptyString => None
  | String "+" s' => digits_value s' 0
  | _ => digits_value s 0
  end.

(** [str::is_char_boundary] and [&s[a..b]] within the length; [None] is a panic. *)
Definition is_char_boundary (s : string) (i : nat) : bool :=
  match String.get i s with
  | Some c => negb (in_range 128 191 c)
  | None => Nat.eqb i (String.length s)
  end.
Definition str_slice (a b : nat) (s : string) : option string :=
  if is_char_boundary s a && is_char_boundary s b then Some (String.substring a (b - a) s)
  else None.

Definition ends_with_char (c : ascii) (s : string) : bool :=
  match rev (as_bytes s) with x :: _ => Ascii.eqb x c | [] => false end.

(** [format!("{n:0w$}")] for any width: longer numbers are not cut. *)
Definition fmt_pad (w : nat) (n : Z) : string :=
  if n <? 10 ^ Z.of_nat w then dec_pad w n else dec n.

(** A panic of the code: the call does not return a value of its own. *)
Definition panic_error (what : string) : ApiError := mkApiError CatStorage "panic" what.

(** ** Days *)

Definition days_from_civil (year month day : Z) : Z :=
  let year := year - (if month <=? 2 then 1 else 0) in
  let era := Z.quot (if 0 <=? year then year else year - 399) 400 in
  let yoe := year - era * 400 in
  let doy := Z.quot (153 * (month + (if 2 <? month then -3 else 9)) + 2) 5 + day - 1 in
  let doe := yoe * 365 + Z.quot yoe 4 - Z.quot yoe 100 + doy in
  era * 146097 + doe - 719468.

Definition civil_from_days (days : Z) : Z * Z * Z :=
  let z := days + 719468 in
  let era := Z.quot (if 0 <=? z then z else z - 146096) 146097 in
  let doe := z - era * 146097 in
  let yoe := Z.quot (doe - Z.quot doe 1460 + Z.quot doe 36524 - Z.quot doe 146096) 365 in
  let y := yoe + era * 400 in
  let doy := doe - (365 * yoe + Z.quot yoe 4 - Z.quot yoe 100) in
  let mp := Z.quot (5 * doy + 2) 153 in
  let day := doy - Z.quot (153 * mp + 2) 5 + 1 in
  let month := mp + (if mp <? 10 then 3 else -9) in
  let year := y + (if month <=? 2 then 1 else 0) in
  (year, month mod 2 ^ 64, day mod 2 ^ 64).

Definition u64_wrap (z : Z) : Z := z mod 2 ^ 64.

Definition datetime_to_epoch_ms (year month day hour minute second : Z) : Z :=
  let days := days_from_civil year month day in
  u64_wrap ((u64_wrap days * 86400 + hour * 3600 + minute * 60 + second) * 1000).

Definition amz_date_from_epoch_ms (epoch_ms : Z) : string :=
  let total_seconds := epoch_ms / 1000 in
  let days := total_seconds / 86400 in
  let seconds_of_day := total_seconds mod 86400 in
  let hour := seconds_of_day / 3600 in
  let minute := seconds_of_day mod 3600 / 60 in
  let second := seconds_of_day mod 60 in
  let '(year, month, day) := civil_from_days days in
  fmt_pad 4 year +:+ fmt_pad 2 month +:+ fmt_pad 2 day +:+ "T" +:+
  fmt_pad 2 hour +:+ fmt_pad 2 minute +:+ fmt_pad 2 second +:+ "Z".

Definition invalid_amz_date (error_code : string) : ApiError :=
  auth_error error_code "invalid X-Amz-Date format".

Definition parse_amz_date_with_code (value error_code : string) : result ApiError Z :=
  if negb (str_len value =? 16) || negb (ends_with_char "Z" value)
  then Err (invalid_amz_date error_code)
  else
  let field a b :=
    s ← ok_or (str_slice a b value) (panic_error "byte index is not a char boundary");
    ok_or (parse_u64 s) (invalid_amz_date error_code) in
  year ← field 0%nat 4%nat;
  month ← field 4%nat 6%nat;
  day ← field 6%nat 8%nat;
  hour ← field 9%nat 11%nat;
  minute ← field 11%nat 13%nat;
  second ← field 13%nat 15%nat;
  Ok (datetime_to_epoch_ms year month day hour minute second).

(** ** The Gregorian calendar *)

Definition leap_year (y : Z) : bool :=
  ((y mod 4 =? 0) && negb (y mod 100 =? 0)) || (y mod 400 =? 0).
Definition days_in_month (y m : Z) : Z :=
  if m =? 2 then (if leap_year y then 29 else 28)
  else if (m =? 4) || (m =? 6) || (m =? 9) || (m =? 11) then 30 else 31.
Definition valid_date (date : Z * Z * Z) : bool :=
  let '(y, m, d) := date in
  (1 <=? m) && (m <=? 12) && (1 <=? d) && (d <=? days_in_month y m).
Definition next_date (date : Z * Z * Z) : Z * Z * Z :=
  let '(y, m, d) := date in
  if d <? days_in_month y m then (y, m, d + 1)
  else if m <? 12 then (y, m + 1, 1) else (y + 1, 1, 1).

Lemma era_floor a z :
  0 < a → Z.quot (if 0 <=? z then z else z - (a - 1)) a = z / a.
Proof. intros Ha. destruct (Z.leb_spec 0 z); Z.to_euclidean_division_equations; nia. Qed.

(** Eras of 400 years only shift the year. *)
Lemma civil_from_days_era era days :
  civil_from_days (days + era * 146097) =
  let '(y, m, d) := civil_from_days days in (y + era * 400, m, d).
Proof.
  unfold civil_from_days.
  change 146096 with (146097 - 1) at 1. change 146096 with (146097 - 1) at 2.
  rewrite !(era_floor 146097) by lia.
  replace (days + era * 146097 + 719468) with (days + 719468 + era * 146097) by lia.
  rewrite Z.div_add by lia. set (q := (days + 719468) / 146097).
  replace (days + 719468 + era * 146097 - (q + era) * 146097)
    with (days + 719468 - q * 146097) by lia.
  cbn zeta. f_equal; f_equal. lia.
Qed.

Lemma days_from_civil_era era y m d :
  days_from_civil (y + era * 400) m d = days_from_civil y m d + era * 146097.
Proof.
  unfold days_from_civil. set (c := if m <=? 2 then 1 else 0).
  change 399 with (400 - 1). rewrite !(era_floor 400) by lia.
  replace (y + era * 400 - c) with (y - c + era * 400) by lia.
  rewrite Z.div_add by lia. set (q := (y - c) / 400).
  replace (y - c + era * 400 - (q + era) * 400) with (y - c - q * 400) by lia. lia.
Qed.


(** The year and day of a day of an era: years start in March, so that a leap
    day is the last day of its year. *)
Definition yoe_of (doe : Z) : Z := (doe - doe / 1460 + doe / 36524 - doe / 146096) / 365.
Definition year_start (yoe : Z) : Z := 365 * yoe + yoe / 4 - yoe / 100.
Lemma yoe_bounds doe :
  0 <= doe < 146097 →
  0 <= yoe_of doe <= 399 ∧
  year_start (yoe_of doe) <= doe < year_start (yoe_of doe + 1) + (yoe_of doe + 1) / 400.
Proof.
  unfold yoe_of, year_start. intros Hd. Z.to_euclidean_division_equations. lia.
Qed.
(** Months from March and the day of the month. *)
Definition mp_of (doy : Z) : Z := (5 * doy + 2) / 153.
Lemma mp_bounds doy :
  0 <= doy <= 365 →
  0 <= mp_of doy <= 11 ∧ (153 * mp_of doy + 2) / 5 <= doy < (153 * (mp_of doy + 1) + 2) / 5.
Proof. unfold mp_of. intros Hd. Z.to_euclidean_division_equations. lia. Qed.
Lemma leap_year_era y era : leap_year (y + era * 400) = leap_year y.
Proof.
  unfold leap_year. replace (era * 400) with (era * 100 * 4) at 1 by lia.
  rewrite Z.mod_add by lia. replace (era * 400) with (era * 4 * 100) at 1 by lia.
  by rewrite !Z.mod_add by lia.
Qed.
Lemma days_in_month_era y m era : days_in_month (y + era * 400) m = days_in_month y m.
Proof. unfold days_in_month. by rewrite leap_year_era. Qed.

Definition year_end (yoe : Z) : Z := year_start (yoe + 1) + (yoe + 1) / 400.

(** A year from March has 365 days, and one more if it ends in a leap February. *)
Lemma year_length yoe :
  0 <= yoe <= 399 → year_end yoe - year_start yoe = if leap_year (yoe + 1) then 366 else 365.
Proof.
  intros Hy. unfold year_end, year_start, leap_year.
  destruct (Z.eqb_spec ((yoe + 1) mod 4) 0), (Z.eqb_spec ((yoe + 1) mod 100) 0),
    (Z.eqb_spec ((yoe + 1) mod 400) 0); cbn [andb orb negb];
    Z.to_euclidean_division_equations; lia.
Qed.
Lemma yoe_unique doe yoe :
  0 <= yoe <= 399 → year_start yoe <= doe < year_end yoe → yoe_of doe = yoe.
Proof.
  unfold year_end, yoe_of, year_start. intros Hy Hd. Z.to_euclidean_division_equations. lia.
Qed.
Lemma mp_unique doy mp :
  0 <= mp <= 11 → (153 * mp + 2) / 5 <= doy < (153 * (mp + 1) + 2) / 5 → mp_of doy = mp.
Proof. unfold mp_of. intros Hm Hd. Z.to_euclidean_division_equations. lia. Qed.

Definition month_of (mp : Z) : Z := if mp <? 10 then mp + 3 else mp - 9.
Definition mp_from (month : Z) : Z := if 2 <? month then month - 3 else month + 9.

(** The conversions, on the era, the year of the era and the day of that year. *)
Lemma civil_from_days_parts era yoe doy :
  0 <= yoe <= 399 → 0 <= doy < year_end yoe - year_start yoe →
  civil_from_days (era * 146097 + year_start yoe + doy - 719468) =
  (yoe + era * 400 + (if month_of (mp_of doy) <=? 2 then 1 else 0), month_of (mp_of doy),
   doy - (153 * mp_of doy + 2) / 5 + 1).
Proof.
  intros Hy Hd.
  assert (Hdoy : 0 <= doy <= 365).
  { rewrite year_length in Hd by done. destruct (leap_year _); lia. }
  assert (Hdoe : 0 <= year_start yoe + doy < 146097).
  { unfold year_end, year_start in *. Z.to_euclidean_division_equations. lia. }
  replace (era * 146097 + year_start yoe + doy - 719468)
    with (year_start yoe + doy - 719468 + era * 146097) by lia.
  rewrite civil_from_days_era. unfold civil_from_days.
  replace (year_start yoe + doy - 719468 + 719468) with (year_start yoe + doy) by lia.
  rewrite (proj2 (Z.leb_le 0 _)), (Z.quot_small _ 146097) by lia. rewrite Z.mul_0_l, Z.sub_0_r.
  pose proof (yoe_unique (year_start yoe + doy) yoe Hy ltac:(lia)) as Hu.
  unfold yoe_of in Hu. set (doe := year_start yoe + doy) in *.
  rewrite !(Z.quot_div_nonneg doe) by lia.
  rewrite Z.quot_div_nonneg, Hu by (Z.to_euclidean_division_equations; lia).
  rewrite !(Z.quot_div_nonneg yoe) by lia. fold (year_start yoe).
  replace (doe - year_start yoe) with doy by (unfold doe; lia).
  rewrite (Z.quot_div_nonneg _ 153) by lia. fold (mp_of doy).
  pose proof (mp_bounds doy Hdoy) as [Hm Hdm]. rewrite (Z.quot_div_nonneg _ 5) by lia.
  assert (Hmo : mp_of doy + (if mp_of doy <? 10 then 3 else -9) = month_of (mp_of doy)).
  { unfold month_of. destruct (_ <? _); lia. }
  rewrite Hmo.
  assert (1 <= month_of (mp_of doy) <= 12).
  { unfold month_of. destruct (Z.ltb_spec (mp_of doy) 10); lia. }
  rewrite (Z.mod_small (month_of _)), (Z.mod_small (doy - _ + 1))
    by (Z.to_euclidean_division_equations; lia).
  f_equal; f_equal. lia.
Qed.

Lemma days_from_civil_parts era yoe m d :
  0 <= yoe <= 399 → 1 <= m <= 12 →
  days_from_civil (yoe + era * 400 + (if m <=? 2 then 1 else 0)) m d =
  era * 146097 + year_start yoe + ((153 * mp_from m + 2) / 5 + d - 1) - 719468.
Proof.
  intros Hy Hm. replace (yoe + era * 400 + (if m <=? 2 then 1 else 0))
    with (yoe + (if m <=? 2 then 1 else 0) + era * 400) by lia.
  rewrite days_from_civil_era. unfold days_from_civil.
  replace (yoe + (if m <=? 2 then 1 else 0) - (if m <=? 2 then 1 else 0)) with yoe by lia.
  rewrite (proj2 (Z.leb_le 0 _)), (Z.quot_small yoe 400) by lia. rewrite Z.mul_0_l, Z.sub_0_r.
  rewrite !(Z.quot_div_nonneg yoe) by lia.
  rewrite (Z.quot_div_nonneg _ 5) by (destruct (Z.ltb_spec 2 m); lia).
  replace (m + (if 2 <? m then -3 else 9)) with (mp_from m).
  - unfold year_start. lia.
  - unfold mp_from. destruct (2 <? m); lia.
Qed.

(** Every day and every date has such parts. *)
Lemma days_parts days :
  ∃ era yoe doy, 0 <= yoe <= 399 ∧ 0 <= doy < year_end yoe - year_start yoe ∧
    days = era * 146097 + year_start yoe + doy - 719468.
Proof.
  set (era := (days + 719468) / 146097). set (doe := (days + 719468) mod 146097).
  pose proof (Z.mod_pos_bound (days + 719468) 146097 ltac:(lia)) as Hdoe. fold doe in Hdoe.
  pose proof (Z.div_mod (days + 719468) 146097 ltac:(lia)) as Hdm. fold era doe in Hdm.
  pose proof (yoe_bounds doe Hdoe) as [Hy Hb]. fold (year_end (yoe_of doe)) in Hb.
  exists era, (yoe_of doe), (doe - year_start (yoe_of doe)). lia.
Qed.

Lemma date_parts y m d :
  valid_date (y, m, d) = true →
  ∃ era yoe, 0 <= yoe <= 399 ∧ 1 <= m <= 12 ∧ 1 <= d <= days_in_month y m ∧
    y = yoe + era * 400 + (if m <=? 2 then 1 else 0).
Proof.
  cbn. rewrite !andb_true_iff, !Z.leb_le. intros [[[? ?] ?] ?].
  set (c := if m <=? 2 then 1 else 0).
  exists ((y - c) / 400), ((y - c) mod 400).
  pose proof (Z.mod_pos_bound (y - c) 400). pose proof (Z.div_mod (y - c) 400). lia.
Qed.

(** The day of the year from March of a valid date, and its month. *)
Lemma doy_bounds yoe era m d :
  0 <= yoe <= 399 → 1 <= m <= 12 →
  1 <= d <= days_in_month (yoe + era * 400 + (if m <=? 2 then 1 else 0)) m →
  let doy := (153 * mp_from m + 2) / 5 + d - 1 in
  0 <= doy < year_end yoe - year_start yoe ∧ mp_of doy = mp_from m ∧ month_of (mp_from m) = m.
Proof.
  intros Hy Hm Hd doy. rewrite year_length by done.
  replace (yoe + era * 400 + (if m <=? 2 then 1 else 0))
    with (yoe + (if m <=? 2 then 1 else 0) + era * 400) in Hd by lia.
  rewrite days_in_month_era in Hd.
  assert (Hc : m = 1 ∨ m = 2 ∨ m = 3 ∨ m = 4 ∨ m = 5 ∨ m = 6 ∨ m = 7 ∨ m = 8 ∨ m = 9 ∨
               m = 10 ∨ m = 11 ∨ m = 12) by lia.
  unfold doy, days_in_month in *. clear doy.
  destruct Hc as [->|[->|[->|[->|[->|[->|[->|[->|[->|[->|[->| ->]]]]]]]]]]];
    cbn -[leap_year mp_of] in Hd |- *;
    (split; [destruct (leap_year (yoe + 1)); Z.to_euclidean_division_equations; lia|]);
    (split; [apply mp_unique; [lia|]; destruct (leap_year (yoe + 1));
             Z.to_euclidean_division_equations; lia|done]).
Qed.

Lemma civil_from_days_from_civil y m d :
  valid_date (y, m, d) = true → civil_from_days (days_from_civil y m d) = (y, m, d).
Proof.
  intros (era & yoe & Hy & Hm & Hd & ->)%date_parts.
  pose proof (doy_bounds yoe era m d Hy Hm Hd) as (Hb & Hmp & Hmo).
  rewrite days_from_civil_parts by done.
  rewrite (civil_from_days_parts era yoe ((153 * mp_from m + 2) / 5 + d - 1)) by done.
  rewrite Hmp, Hmo. f_equal. lia.
Qed.

Local Ltac eval_tests :=
  repeat match goal with
  | |- context [Z.leb ?a ?b] =>
      let v := eval vm_compute in (Z.leb a b) in
      first [constr_eq v true | constr_eq v false]; change (Z.leb a b) with v
  | |- context [Z.ltb ?a ?b] =>
      let v := eval vm_compute in (Z.ltb a b) in
      first [constr_eq v true | constr_eq v false]; change (Z.ltb a b) with v
  | |- context [Z.eqb ?a ?b] =>
      let v := eval vm_compute in (Z.eqb a b) in
      first [constr_eq v true | constr_eq v false]; change (Z.eqb a b) with v
  end; cbn [orb].
Local Ltac eval_month :=
  match goal with
  | |- context [month_of ?k] =>
      let v := eval vm_compute in (month_of k) in change (month_of k) with v
  end.
Lemma civil_parts_valid era yoe doy :
  0 <= yoe <= 399 → 0 <= doy < year_end yoe - year_start yoe →
  valid_date (yoe + era * 400 + (if month_of (mp_of doy) <=? 2 then 1 else 0),
              month_of (mp_of doy), doy - (153 * mp_of doy + 2) / 5 + 1) = true.
Proof.
  intros Hy Hd. rewrite year_length in Hd by done.
  assert (Hdoy : 0 <= doy <= 365) by (destruct (leap_year _); lia).
  pose proof (mp_bounds doy Hdoy) as [Hm Hdm]. unfold valid_date.
  replace (yoe + era * 400 + (if month_of (mp_of doy) <=? 2 then 1 else 0))
    with (yoe + (if month_of (mp_of doy) <=? 2 then 1 else 0) + era * 400) by lia.
  rewrite days_in_month_era. set (mp := mp_of doy) in *. clearbody mp.
  assert (Hc : mp = 0 ∨ mp = 1 ∨ mp = 2 ∨ mp = 3 ∨ mp = 4 ∨ mp = 5 ∨ mp = 6 ∨ mp = 7 ∨
               mp = 8 ∨ mp = 9 ∨ mp = 10 ∨ mp = 11) by lia.
  rewrite !andb_true_iff, !Z.leb_le.
  destruct Hc as [->|[->|[->|[->|[->|[->|[->|[->|[->|[->|[->| ->]]]]]]]]]]];
    eval_month; unfold days_in_month; eval_tests;
    destruct (leap_year (yoe + 1)); Z.to_euclidean_division_equations; lia.
Qed.

Lemma days_from_civil_from_days days :
  let '(y, m, d) := civil_from_days days in
  valid_date (y, m, d) = true ∧ days_from_civil y m d = days.
Proof.
  destruct (days_parts days) as (era & yoe & doy & Hy & Hd & ->).
  rewrite civil_from_days_parts by done. split; [by apply civil_parts_valid|].
  assert (Hdoy : 0 <= doy <= 365).
  { rewrite year_length in Hd by done. destruct (leap_year _); lia. }
  pose proof (mp_bounds doy Hdoy) as [Hm Hdm]. set (mp := mp_of doy) in *.
  assert (Hmo : 1 <= month_of mp <= 12 ∧ mp_from (month_of mp) = mp).
  { unfold month_of, mp_from. destruct (Z.ltb_spec mp 10), (Z.ltb_spec 2 (mp + 3)),
      (Z.ltb_spec 2 (mp - 9)); lia. }
  rewrite days_from_civil_parts by (done || lia). rewrite (proj2 Hmo). lia.
Qed.

Lemma next_date_valid date : valid_date date = true → valid_date (next_date date) = true.
Proof.
  destruct date as [[y m] d]. unfold valid_date, next_date, days_in_month.
  rewrite !andb_true_iff, !Z.leb_le. intros [[[? ?] ?] ?].
  repeat (case_match; simplify_eq); rewrite !andb_true_iff, !Z.leb_le; repeat case_match; lia.
Qed.

(** Day numbers counted from the first of March of a year. *)
Definition march_start (year : Z) : Z := year / 400 * 146097 + year_start (year mod 400).
Lemma march_start_next year :
  march_start (year + 1) = march_start year + (if leap_year (year + 1) then 366 else 365).
Proof.
  unfold march_start, year_start, leap_year.
  destruct (Z.eqb_spec ((year + 1) mod 4) 0), (Z.eqb_spec ((year + 1) mod 100) 0),
    (Z.eqb_spec ((year + 1) mod 400) 0); cbn [andb orb negb];
    Z.to_euclidean_division_equations; lia.
Qed.
Lemma days_from_march year m d :
  1 <= m <= 12 →
  days_from_civil year m d =
  march_start (year - (if m <=? 2 then 1 else 0)) + (153 * mp_from m + 2) / 5 + d - 719469.
Proof.
  intros Hm. set (c := if m <=? 2 then 1 else 0).
  pose proof (Z.mod_pos_bound (year - c) 400 ltac:(lia)).
  pose proof (Z.div_mod (year - c) 400 ltac:(lia)).
  replace year with ((year - c) mod 400 + (year - c) / 400 * 400 + c) at 1 by lia.
  unfold c at 3. rewrite days_from_civil_parts by lia. unfold march_start. lia.
Qed.

(** The day number of the next date is the next one. *)
Lemma days_from_civil_next y m d :
  valid_date (y, m, d) = true →
  let '(y', m', d') := next_date (y, m, d) in
  days_from_civil y' m' d' = days_from_civil y m d + 1.
Proof.
  unfold valid_date, next_date. rewrite !andb_true_iff, !Z.leb_le. intros [[[? ?] ?] Hd].
  destruct (Z.ltb_spec d (days_in_month y m)) as [Hlt|Hge].
  { rewrite !days_from_march by lia. lia. }
  pose proof (march_start_next (y - 1)) as Hn. replace (y - 1 + 1) with y in Hn by lia.
  assert (Hc : m = 1 ∨ m = 2 ∨ m = 3 ∨ m = 4 ∨ m = 5 ∨ m = 6 ∨ m = 7 ∨ m = 8 ∨ m = 9 ∨
               m = 10 ∨ m = 11 ∨ m = 12) by lia.
  assert (d = days_in_month y m) as -> by lia. clear Hd Hge.
  destruct Hc as [->|[->|[->|[->|[->|[->|[->|[->|[->|[->|[->| ->]]]]]]]]]]];
    eval_tests; rewrite !days_from_march by lia; unfold days_in_month, mp_from; eval_tests;
    rewrite ?Z.sub_0_r, ?Z.add_simpl_r;
    try (destruct (leap_year y)); Z.to_euclidean_division_equations; lia.
Qed.

(** [civil_from_days] and [days_from_civil] are the proleptic Gregorian
    calendar and inverse to each other: day 0 is 1970-01-01, the day after a date is
    the next calendar date, every day number comes back from its date, and every
    valid date from its day number. *)
Theorem days_are_gregorian :
  civil_from_days 0 = (1970, 1, 1) ∧
  (∀ days, civil_from_days (days + 1) = next_date (civil_from_days days)) ∧
  (∀ days, let '(y, m, d) := civil_from_days days in days_from_civil y m d = days) ∧
  (∀ y m d, valid_date (y, m, d) = true → civil_from_days (days_from_civil y m d) = (y, m, d)).
Proof.
  split_and!; [done| | |apply civil_from_days_from_civil].
  - intros days. pose proof (days_from_civil_from_days days) as H.
    destruct (civil_from_days days) as [[y m] d]. destruct H as [Hv <-].
    pose proof (next_date_valid _ Hv) as Hv'. pose proof (days_from_civil_next y m d Hv) as Hn.
    destruct (next_date (y, m, d)) as [[y' m'] d']. rewrite <-Hn.
    by apply civil_from_days_from_civil.
  - intros days. pose proof (days_from_civil_from_days days) as H.
    by destruct (civil_from_days days) as [[y m] d], H.
Qed.

(** ** Printing and parsing *)

Lemma digits_value_digit d s acc :
  0 <= d < 10 → 0 <= acc → acc * 10 + d <= u64_max →
  digits_value (String (digit d) s) acc = digits_value s (acc * 10 + d).
Proof.
  intros Hd Ha Hb. cbn [digits_value]. unfold in_range, digit.
  rewrite byte_val_of_small by lia. rewrite !(proj2 (Z.leb_le _ _)) by lia. cbn [andb].
  by replace (48 + d - 48) with d by lia.
Qed.
Lemma parse_u64_digit d s :
  0 <= d < 10 → parse_u64 (String (digit d) s) = digits_value (String (digit d) s) 0.
Proof.
  intros Hd. assert (Hc : d = 0 ∨ d = 1 ∨ d = 2 ∨ d = 3 ∨ d = 4 ∨ d = 5 ∨ d = 6 ∨ d = 7 ∨
                          d = 8 ∨ d = 9) by lia.
  by destruct Hc as [->|[->|[->|[->|[->|[->|[->|[->|[->| ->]]]]]]]]].
Qed.
Lemma digit_boundary d : 0 <= d < 10 → in_range 128 191 (digit d) = false.
Proof.
  intros Hd. unfold in_range, digit. rewrite byte_val_of_small by lia.
  apply andb_false_iff. left. apply Z.leb_gt. lia.
Qed.

Lemma fmt_pad_2 n :
  0 <= n < 100 → fmt_pad 2 n = String (digit (n / 10)) (String (digit (n mod 10)) "").
Proof.
  intros Hn. unfold fmt_pad. change (10 ^ Z.of_nat 2) with 100.
  rewrite (proj2 (Z.ltb_lt _ _)) by lia. unfold dec_pad. cbn [dec_fixed].
  by rewrite (Z.mod_small (n / 10)) by (Z.to_euclidean_division_equations; lia).
Qed.
Lemma fmt_pad_4 n :
  0 <= n < 10000 →
  fmt_pad 4 n = String (digit (n / 1000)) (String (digit (n / 100 mod 10))
    (String (digit (n / 10 mod 10)) (String (digit (n mod 10)) ""))).
Proof.
  intros Hn. unfold fmt_pad. change (10 ^ Z.of_nat 4) with 10000.
  rewrite (proj2 (Z.ltb_lt _ _)) by lia. unfold dec_pad. cbn [dec_fixed].
  rewrite !Zdiv.Zdiv_Zdiv by lia. cbn [Z.mul Pos.mul Pos.add].
  rewrite (Z.mod_small (n / (10 * 10 * 10))) by (Z.to_euclidean_division_equations; lia).
  done.
Qed.

Lemma parse_fmt_2 n : 0 <= n < 100 → parse_u64 (fmt_pad 2 n) = Some n.
Proof.
  intros Hn. rewrite fmt_pad_2 by done.
  pose proof (Z.div_mod n 10). pose proof (Z.mod_pos_bound n 10).
  assert (0 <= n / 10 < 10) by (Z.to_euclidean_division_equations; lia).
  rewrite parse_u64_digit, !digits_value_digit by (unfold u64_max; lia). cbn [digits_value].
  f_equal. lia.
Qed.
Lemma parse_fmt_4 n : 0 <= n < 10000 → parse_u64 (fmt_pad 4 n) = Some n.
Proof.
  intros Hn. rewrite fmt_pad_4 by done.
  pose proof (Z.mod_pos_bound (n / 100) 10 ltac:(lia)).
  pose proof (Z.mod_pos_bound (n / 10) 10 ltac:(lia)). pose proof (Z.mod_pos_bound n 10 ltac:(lia)).
  assert (0 <= n / 1000 < 10) by (Z.to_euclidean_division_equations; lia).
  rewrite parse_u64_digit, !digits_value_digit by (unfold u64_max; lia). cbn [digits_value].
  f_equal. Z.to_euclidean_division_equations. lia.
Qed.

(** A date whose fields have their widths is read back field by field. *)
Lemma parse_amz_fields y mo d h mi s code :
  0 <= y < 10000 → 0 <= mo < 100 → 0 <= d < 100 → 0 <= h < 100 → 0 <= mi < 100 →
  0 <= s < 100 →
  parse_amz_date_with_code
    (fmt_pad 4 y +:+ fmt_pad 2 mo +:+ fmt_pad 2 d +:+ "T" +:+
     fmt_pad 2 h +:+ fmt_pad 2 mi +:+ fmt_pad 2 s +:+ "Z") code =
  Ok (datetime_to_epoch_ms y mo d h mi s).
Proof.
  intros Hy Hmo Hd Hh Hmi Hs.
  pose proof (parse_fmt_4 y Hy) as Ey. pose proof (parse_fmt_2 mo Hmo) as Emo.
  pose proof (parse_fmt_2 d Hd) as Ed. pose proof (parse_fmt_2 h Hh) as Eh.
  pose proof (parse_fmt_2 mi Hmi) as Emi. pose proof (parse_fmt_2 s Hs) as Es.
  rewrite fmt_pad_4 in * by done. rewrite !fmt_pad_2 in * by done.
  assert (Hdiv : ∀ n, 0 <= n < 100 → 0 <= n / 10 < 10)
    by (intros; Z.to_euclidean_division_equations; lia).
  assert (Hmod : ∀ n, 0 <= n mod 10 < 10) by (intros; apply Z.mod_pos_bound; lia).
  assert (Hth : 0 <= y / 1000 < 10) by (Z.to_euclidean_division_equations; lia).
  rewrite !str_app_cons, !str_app_nil_l. unfold parse_amz_date_with_code.
  match goal with |- context [str_len ?v] => set (value := v) end.
  change (str_len value) with 16. change (ends_with_char "Z" value) with true. cbn [Z.eqb Pos.eqb negb orb].
  unfold str_slice.
  repeat match goal with |- context [is_char_boundary value ?i] =>
    replace (is_char_boundary value i) with true
      by (symmetry; unfold is_char_boundary, value; cbn [String.get];
          first [reflexivity | rewrite digit_boundary by auto; reflexivity]) end.
  cbn [andb ok_or]. unfold value. cbn [String.substring Nat.sub]. rewrite !ok_bind.
  rewrite Ey. cbn [ok_or]. rewrite ok_bind, Emo. cbn [ok_or]. rewrite ok_bind, Ed.
  cbn [ok_or]. rewrite ok_bind, Eh. cbn [ok_or]. rewrite ok_bind, Emi. cbn [ok_or].
  rewrite ok_bind, Es. done.
Qed.

(** Days of the years 1970 to 9999. *)
Lemma civil_year_range days :
  0 <= days < 2932897 → let '(y, m, d) := civil_from_days days in 1970 <= y < 10000.
Proof.
  intros Hd. destruct (days_parts days) as (era & yoe & doy & Hy & Hdoy & Heq).
  rewrite Heq, civil_from_days_parts by done.
  assert (Hm : 0 <= doy <= 365).
  { rewrite year_length in Hdoy by done. destruct (leap_year _); lia. }
  unfold month_of, mp_of.
  destruct (Z.ltb_spec ((5 * doy + 2) / 153) 10), (Z.leb_spec ((5 * doy + 2) / 153 + 3) 2),
    (Z.leb_spec ((5 * doy + 2) / 153 - 9) 2);
    unfold year_end, year_start in *; Z.to_euclidean_division_equations; lia.
Qed.

(** A date printed from a time of the years 1970 to 9999 is parsed back to that
    time, cut to whole seconds. *)
Theorem amz_date_roundtrip (epoch_ms : Z) (error_code : string) :
  0 <= epoch_ms < 253402300800000 →
  parse_amz_date_with_code (amz_date_from_epoch_ms epoch_ms) error_code =
  Ok (epoch_ms / 1000 * 1000).
Proof.
  intros Hms. unfold amz_date_from_epoch_ms.
  set (secs := epoch_ms / 1000). set (days := secs / 86400). set (sod := secs mod 86400).
  assert (Hdays : 0 <= days < 2932897)
    by (unfold days, secs; Z.to_euclidean_division_equations; lia).
  assert (Hsod : 0 <= sod < 86400) by (apply Z.mod_pos_bound; lia).
  assert (Hs : secs = days * 86400 + sod) by (unfold days, sod; rewrite Z.mul_comm; by apply Z.div_mod).
  pose proof (civil_year_range days Hdays) as Hy.
  pose proof (days_from_civil_from_days days) as Hc.
  destruct (civil_from_days days) as [[y m] d]. destruct Hc as [Hv Hdc].
  unfold valid_date, days_in_month in Hv. rewrite !andb_true_iff, !Z.leb_le in Hv.
  rewrite parse_amz_fields; [|lia|lia| |Z.to_euclidean_division_equations; lia..].
  2: { destruct Hv as [[[? ?] ?] Hv]. split; [lia|]. repeat case_match; lia. }
  unfold datetime_to_epoch_ms, u64_wrap. rewrite Hdc, (Z.mod_small days) by lia.
  rewrite Z.mod_small by (Z.to_euclidean_division_equations; lia).
  f_equal. fold secs. rewrite Hs. Z.to_euclidean_division_equations. lia.
Qed.
