(* ===== verification/Distribution.v ===== *)
(** * hsp-distribution: records, the service and its encrypted store

    Models the data of [crates/hsp-distribution/src/lib.rs], the checks of names,
    scopes and access control lists, and the encrypted store of the distribution
    service.  The service owns an [AlphaService] over the same store, so its
    methods act on the [World] of [ServiceState.v]; its own records are in store
    kinds of their own and are encrypted with the provider [ds_store_kms]. *)

From Stdlib Require Import ZArith Lia Ascii String Bool.
From stdpp Require Import base option list strings gmap numbers sorting.
From S2P Require Import Prelude RustStr Path Core Cbor Auth Crypto Store ServiceState Chunker.

Definition BUCKET_REGISTRY_STORE : string := "bucket-registry".
Definition DISTRIBUTION_METADATA_STORE : string := "distribution-metadata".
Definition MULTIPART_SESSIONS_STORE : string := "multipart-sessions".
Definition MULTIPART_PARTS_STORE : string := "multipart-parts".
Definition PRESIGN_AUDIT_STORE : string := "presign-audit".
Definition ACL_STORE : string := "acl".
Definition LIFECYCLE_STORE : string := "lifecycle".
Definition OBJECT_LOCK_STORE : string := "object-lock".
Definition WEBSITE_STORE : string := "website".
Definition REPLICATION_STORE : string := "replication".
Definition WORKER_CURSOR_STORE : string := "worker-cursor".
Definition dist_store_kinds : list string :=
  [BUCKET_REGISTRY_STORE; DISTRIBUTION_METADATA_STORE; MULTIPART_SESSIONS_STORE;
   MULTIPART_PARTS_STORE; PRESIGN_AUDIT_STORE; ACL_STORE; LIFECYCLE_STORE; OBJECT_LOCK_STORE;
   WEBSITE_STORE; REPLICATION_STORE; WORKER_CURSOR_STORE].
Definition DEFAULT_STORAGE_CLASS : string := "hot".
Definition TRUSTED_EDGE_PROFILE : string := "trusted-edge-v1".
Definition TRUSTED_EDGE_RECIPIENT_KEY_ID : string := "trusted-edge".
Definition MAX_SIGV4_CLOCK_SKEW_MS : Z := 5 * 60 * 1000.
Definition MAX_PRESIGN_EXPIRES_SEC : Z := 7 * 24 * 60 * 60.

(** ** Records *)

Record DistributionConfig := mkDistributionConfig {
  dc_alpha : AlphaConfig;
  dc_capability_audience : string;
  dc_immutable_cid_ttl_sec : Z;
  dc_namespace_ttl_sec : Z;
  dc_plaintext_profile_enabled : bool;
  dc_aws_kms : option AwsKmsProviderConfig;
}.
Record BucketRecord := mkBucketRecord {
  bk_tenant_id : TenantId;
  bk_bucket : string;
  bk_namespace : string;
  bk_visibility_policy : string;
  bk_namespace_cache_ttl_sec : Z;
  bk_immutable_cid_cache_ttl_sec : Z;
  bk_created_at_ms : Z;
}.
Inductive AccessProfile := PublicCiphertext | TrustedEdgeV1.
Definition access_profile_as_str (p : AccessProfile) : string :=
  match p with PublicCiphertext => "public-ciphertext" | TrustedEdgeV1 => TRUSTED_EDGE_PROFILE end.
Inductive CannedAcl := AclPrivate | AclPublicRead | AclAuthenticatedRead.
Definition canned_acl_as_str (a : CannedAcl) : string :=
  match a with
  | AclPrivate => "private"
  | AclPublicRead => "public-read"
  | AclAuthenticatedRead => "authenticated-read"
  end.
Record BucketAclRecord := mkBucketAclRecord {
  ba_tenant_id : TenantId;
  ba_bucket : string;
  ba_acl : CannedAcl;
  ba_updated_at_ms : Z;
}.
Record ObjectAclRecord := mkObjectAclRecord {
  oa_tenant_id : TenantId;
  oa_bucket : string;
  oa_key : string;
  oa_acl : CannedAcl;
  oa_updated_at_ms : Z;
}.
Record LifecycleRule := mkLifecycleRule {
  lcr_id : string;
  lcr_prefix : option string;
  lcr_expire_after_days : option Z;
  lcr_transition_after_days : option Z;
  lcr_transition_storage_class : option string;
  lcr_enabled : bool;
}.
Record LifecycleConfig := mkLifecycleConfig {
  lc_tenant_id : TenantId;
  lc_bucket : string;
  lc_rules : list LifecycleRule;
  lc_updated_at_ms : Z;
}.
Record ObjectLockRecord := mkObjectLockRecord {
  ol_tenant_id : TenantId;
  ol_bucket : string;
  ol_key : string;
  ol_immutable_until_ms : option Z;
  ol_legal_hold : bool;
  ol_mode : option string;
  ol_updated_at_ms : Z;
}.
Record WebsiteConfig := mkWebsiteConfig {
  wc_tenant_id : TenantId;
  wc_bucket : string;
  wc_enabled : bool;
  wc_index_document : string;
  wc_error_document : string;
  wc_access_profile : AccessProfile;
  wc_updated_at_ms : Z;
}.
Record ReplicationConfig := mkReplicationConfig {
  rc_tenant_id : TenantId;
  rc_source_bucket : string;
  rc_destination_bucket : string;
  rc_prefix : option string;
  rc_enabled : bool;
  rc_updated_at_ms : Z;
}.
Record ReplicationStatus := mkReplicationStatus {
  rst_tenant_id : TenantId;
  rst_source_bucket : string;
  rst_destination_bucket : string;
  rst_copied_objects : Z;
  rst_failed_objects : Z;
  rst_last_run_ms : Z;
  rst_last_error : option string;
}.
Record SigV4AccessKeyRecord := mkSigV4AccessKeyRecord {
  ak_access_key_id : string;
  ak_secret_access_key : string;
  ak_tenant_id : TenantId;
  ak_namespace_prefix : option string;
  ak_path_prefix : option string;
  ak_max_object_size : option Z;
  ak_storage_classes : list string;
  ak_key_policy_id : KeyPolicyId;
  ak_metadata_visibility : VisibilityMode;
  ak_enabled : bool;
}.
Record DistributionMetadataRecord := mkDistributionMetadataRecord {
  dm_tenant_id : TenantId;
  dm_bucket : string;
  dm_edge_token_policy : string;
  dm_presign_enabled : bool;
  dm_updated_at_ms : Z;
}.
Record MultipartSessionRecord := mkMultipartSessionRecord {
  ms_upload_id : string;
  ms_tenant_id : TenantId;
  ms_bucket : string;
  ms_key : string;
  ms_access_profile : AccessProfile;
  ms_payload_plaintext : bool;
  ms_content_type : string;
  ms_encryption_profile_id : EncryptionProfileId;
  ms_key_policy_id : KeyPolicyId;
  ms_metadata_visibility : VisibilityMode;
  ms_content_encryption_suite : string;
  ms_key_wrapping_suite : string;
  ms_wrapped_object_keys : list WrappedObjectKeyRecord;
  ms_server_visible_metadata : metadata_map;
  ms_encrypted_client_metadata : metadata_map;
  ms_storage_class : string;
  ms_initiated_at_ms : Z;
  ms_idempotency_key : string;
  ms_completed : bool;
}.
Record MultipartPartRecord := mkMultipartPartRecord {
  mpp_upload_id : string;
  mpp_part_number : Z;
  mpp_etag : string;
  mpp_length : Z;
  mpp_created_at_ms : Z;
}.
Record PresignAuditRecord := mkPresignAuditRecord {
  pa_token_id : string;
  pa_tenant_id : TenantId;
  pa_method : string;
  pa_bucket : option string;
  pa_key : option string;
  pa_cid : option string;
  pa_expires_at_ms : Z;
  pa_created_at_ms : Z;
}.
Record BucketSummary := mkBucketSummary {
  bsm_bucket : string;
  bsm_namespace : string;
  bsm_created_at_ms : Z;
}.
Record EdgeTokenClaims := mkEdgeTokenClaims {
  et_tenant_id : TenantId;
  et_bucket : option string;
  et_key : option string;
  et_cid : option string;
  et_access_profile : AccessProfile;
  et_method : string;
  et_exp : Z;
}.

#[global] Instance AccessProfile_eq_dec : EqDecision AccessProfile.
Proof. solve_decision. Defined.
#[global] Instance ObjectLockRecord_eq_dec : EqDecision ObjectLockRecord.
Proof. solve_decision. Defined.

(** ** Parameters *)

(** What the distribution service uses beyond the parameters of the service:
    JSON of its records, HMAC, and the signing side of COSE and Ed25519. *)
Class DistDeps := {
  dist_deps :: Deps;
  json_bucket :: Json BucketRecord;
  json_dist_metadata :: Json DistributionMetadataRecord;
  json_bucket_acl :: Json BucketAclRecord;
  json_object_acl :: Json ObjectAclRecord;
  json_lifecycle :: Json LifecycleConfig;
  json_object_lock :: Json ObjectLockRecord;
  json_website :: Json WebsiteConfig;
  json_replication :: Json ReplicationConfig;
  json_replication_status :: Json ReplicationStatus;
  json_access_key :: Json SigV4AccessKeyRecord;
  json_multipart_session :: Json MultipartSessionRecord;
  json_multipart_part :: Json MultipartPartRecord;
  json_presign_audit :: Json PresignAuditRecord;
  (** [serde_json::to_vec] and [from_slice] of the claims of an edge token. *)
  edge_claims_to_vec : EdgeTokenClaims → result string bytes;
  edge_claims_from_slice : bytes → result string EdgeTokenClaims;
  (** HMAC-SHA256 of a message under a key (of any length). *)
  hmac_sha256_mac : bytes → bytes → bytes;
  (** [ciborium::into_writer] of a namespace record. *)
  record_to_cbor : NamespaceMutationRecord → result string bytes;
  (** [CoseSign1Builder] with an EdDSA header of the given key id: the bytes to be
      signed, and the encoded token with its signature. *)
  cose_sign1_tbs : bytes → bytes → bytes;
  cose_sign1_to_vec : bytes → bytes → bytes → result string bytes;
  (** [SigningKey::sign] and the verifying key of a signing key. *)
  ed25519_sign : bytes → bytes → bytes;
  ed25519_verifying_key : bytes → bytes;
}.

Class DistDepsLaws `{DD : DistDeps} : Prop := {
  ddl_deps :: DepsLaws;
  ddl_bucket :: JsonLaws BucketRecord;
  ddl_dist_metadata :: JsonLaws DistributionMetadataRecord;
  ddl_bucket_acl :: JsonLaws BucketAclRecord;
  ddl_object_acl :: JsonLaws ObjectAclRecord;
  ddl_lifecycle :: JsonLaws LifecycleConfig;
  ddl_object_lock :: JsonLaws ObjectLockRecord;
  ddl_website :: JsonLaws WebsiteConfig;
  ddl_replication :: JsonLaws ReplicationConfig;
  ddl_replication_status :: JsonLaws ReplicationStatus;
  ddl_access_key :: JsonLaws SigV4AccessKeyRecord;
  ddl_multipart_session :: JsonLaws MultipartSessionRecord;
  ddl_multipart_part :: JsonLaws MultipartPartRecord;
  ddl_presign_audit :: JsonLaws PresignAuditRecord;
  edge_claims_inverse : ∀ c b, edge_claims_to_vec c = Ok b → edge_claims_from_slice b = Ok c;
  record_cbor_inverse : ∀ r b, record_to_cbor r = Ok b → payload_from_cbor b = Some r;
  cose_sign1_inverse : ∀ kid payload sig b,
    cose_sign1_to_vec kid payload sig = Ok b →
    ∃ token, cose_from_slice b = Some token ∧ cose_payload token = Some payload ∧
      cose_key_id token = kid ∧ cose_signature token = sig ∧
      cose_tbs token [] = cose_sign1_tbs kid payload;
  ed25519_signed : ∀ key message,
    ed25519_signature_valid (ed25519_sign key message) = true ∧
    ed25519_verify (ed25519_verifying_key key) message (ed25519_sign key message) = true;
}.

(** ** The service *)

Record DistributionService := mkDistributionService {
  ds_config : DistributionConfig;
  ds_alpha : AlphaService;
  ds_object_kms : LocalDevKms;
  ds_store_kms : KmsProvider;
  ds_issuer_registry : IssuerRegistry;
  ds_namespace_signing_key : bytes;
  ds_namespace_signing_key_id : string;
  ds_edge_signing_secret : bytes;
}.

(** ** Names *)

Definition canonical_bucket_name (bucket : string) : result ApiError string :=
  if str_is_empty (trim bucket) || str_contains_char slash bucket then
    Err (validation_error "invalid_bucket"
           "bucket name must be non-empty and must not contain '/'")
  else
  canonical ← map_err (λ error, validation_error "invalid_bucket" (path_error_to_string error))
                (canonical_path bucket);
  if str_is_empty (trim canonical) || str_contains_char slash canonical then
    Err (validation_error "invalid_bucket"
           "bucket name must remain a single canonical segment after percent-decoding")
  else Ok canonical.

Definition canonical_object_key_name (key : string) : result ApiError string :=
  map_err (λ error, validation_error "invalid_object_key" (path_error_to_string error))
    (canonical_path key).

(** ** Scopes and access control *)

Definition tenant_mismatch : ApiError :=
  auth_error "tenant_mismatch" "tenant does not match the authenticated principal".
Definition namespace_scope_mismatch : ApiError :=
  mkApiError CatPolicy "namespace_scope_mismatch"
    "bucket is outside the authenticated namespace scope".
Definition path_scope_mismatch : ApiError :=
  mkApiError CatPolicy "path_scope_mismatch"
    "object key is outside the authenticated path scope".

Definition has_scope (auth : AuthContext) (scopes : list CapabilityScope) : bool :=
  existsb (λ scope, bool_decide (scope ∈ scopes)) (ops (claims auth)).

Definition has_read_capability (auth : AuthContext) : bool :=
  has_scope auth [ScopeRead; ScopeList; ScopeWrite].
Definition has_cid_read_capability (auth : AuthContext) : bool :=
  has_read_capability auth || has_scope auth [AdminRepair].

Definition ensure_bucket_scope_matches (auth : AuthContext) (bucket key : option string)
  : result ApiError unit :=
  _ ← match cl_namespace_prefix (claims auth) with
      | Some namespace_prefix =>
          bucket ← ok_or bucket namespace_scope_mismatch;
          if negb (segment_prefix_matches namespace_prefix bucket)
          then Err namespace_scope_mismatch else Ok tt
      | None => Ok tt
      end;
  match cl_path_prefix (claims auth) with
  | Some path_prefix =>
      key ← ok_or key path_scope_mismatch;
      if negb (segment_prefix_matches path_prefix key)
      then Err path_scope_mismatch else Ok tt
  | None => Ok tt
  end.

Definition ensure_tenant_matches (auth : AuthContext) (tenant_id : TenantId)
  : result ApiError unit :=
  if negb (String.eqb (cl_tenant_id (claims auth)) tenant_id) then Err tenant_mismatch else Ok tt.

Definition ensure_bucket_mutation_scope_for (auth : AuthContext) (tenant_id : TenantId)
  (bucket key : option string) : result ApiError unit :=
  if negb (String.eqb (cl_tenant_id (claims auth)) tenant_id) then Err tenant_mismatch
  else if negb (has_scope auth [ScopeWrite; ScopeBind; ScopeUnbind]) then
    Err (auth_error "operation_not_allowed" "bucket mutation requires write-capable credentials")
  else ensure_bucket_scope_matches auth bucket key.

Definition ensure_bucket_read_scope_for_optional (auth : AuthContext) (tenant_id : TenantId)
  (bucket key : option string) : result ApiError unit :=
  if negb (String.eqb (cl_tenant_id (claims auth)) tenant_id) then Err tenant_mismatch
  else if negb (has_scope auth [ScopeRead; ScopeList; ScopeWrite]) then
    Err (auth_error "operation_not_allowed" "bucket read requires read-capable credentials")
  else ensure_bucket_scope_matches auth bucket key.

Definition ensure_bucket_read_scope (auth : AuthContext) (tenant_id : TenantId)
  : result ApiError unit :=
  ensure_bucket_read_scope_for_optional auth tenant_id None None.

Definition ensure_unscoped_cid_read_scope (auth : AuthContext) (tenant_id : TenantId)
  : result ApiError unit :=
  if negb (String.eqb (cl_tenant_id (claims auth)) tenant_id) then Err tenant_mismatch
  else if negb (has_cid_read_capability auth) then
    Err (auth_error "operation_not_allowed" "CID read requires tenant read-capable credentials")
  else if bool_decide (is_Some (cl_namespace_prefix (claims auth)))
          || bool_decide (is_Some (cl_path_prefix (claims auth))) then
    Err (mkApiError CatPolicy "cid_scope_requires_binding"
           "CID reads with scoped credentials require a proven bucket/key binding")
  else Ok tt.

Definition acl_allows_read (acl : CannedAcl) : bool :=
  match acl with AclPublicRead | AclAuthenticatedRead => true | AclPrivate => false end.

Definition require_admin_repair (auth : AuthContext) (code : string) : result ApiError unit :=
  if has_scope auth [AdminRepair] then Ok tt
  else Err (mkApiError CatPolicy code "admin.repair scope is required for this lock operation").

Definition validate_access_profile (ds : DistributionService) (access_profile : AccessProfile)
  (plaintext_requested : bool) : result ApiError unit :=
  match access_profile with
  | PublicCiphertext =>
      if plaintext_requested then
        Err (mkApiError CatUnsupported "trusted_edge_required"
               "plaintext serving requires trusted-edge-v1 profile")
      else Ok tt
  | TrustedEdgeV1 =>
      if plaintext_requested && negb (dc_plaintext_profile_enabled (ds_config ds)) then
        Err (mkApiError CatPolicy "trusted_edge_required"
               "trusted-edge-v1 profile is disabled for this deployment")
      else Ok tt
  end.

(** ** Store keys *)

(** [format!("{byte:02x}")] of each byte. *)
Definition hex_digit (n : Z) : ascii := if n <? 10 then byte_of (48 + n) else byte_of (87 + n).
Definition hex_byte (c : ascii) : string :=
  String (hex_digit (byte_val c / 16)) (String (hex_digit (byte_val c mod 16)) "").
Fixpoint hex_lower (b : bytes) : string :=
  match b with [] => "" | c :: b' => hex_byte c +:+ hex_lower b' end.

Definition multipart_part_store_key (upload_id : string) (part_number : Z) : string :=
  upload_id +:+ "-part-" +:+
  (if part_number <? 10 ^ 5 then dec_pad 5 part_number else dec part_number).
Definition bucket_acl_store_key (bucket : string) : string := "bucket-" +:+ bucket.
Definition object_acl_store_key (bucket key : string) : string :=
  "object-" +:+ bucket +:+ "-" +:+ key.
Definition lifecycle_store_key (bucket : string) : string := "bucket-" +:+ bucket.
Definition object_lock_store_key (bucket key : string) : string :=
  "object-" +:+ bucket +:+ "-" +:+ key.
Definition website_store_key (bucket : string) : string := "bucket-" +:+ bucket.
Definition replication_config_store_key (source_bucket : string) : string :=
  "config-" +:+ source_bucket.
Definition replication_status_store_key (source_bucket : string) : string :=
  "status-" +:+ source_bucket.

Definition storage_serialize_error (error : string) : ApiError :=
  storage_error "json_serialize_failed" error.
Definition storage_deserialize_error (error : string) : ApiError :=
  storage_error "json_deserialize_failed" error.

Section keys.
Context `{Deps}.

Definition hex_sha256 (b : bytes) : string := hex_lower (sha256 b).
Definition dist_tenant_store_dir (tenant_id : TenantId) : string :=
  b64url_encode (as_bytes tenant_id).
Definition decode_tenant_store_dir (input : string) : option string :=
  decoded ← b64url_decode input; from_utf8 decoded.
Definition dist_store_file_name (key : string) : string := hex_sha256 (as_bytes key) +:+ ".json.enc".
Definition dist_store_key (tenant_id : TenantId) (store_kind key : string) : string :=
  store_kind +:+ "/" +:+ dist_tenant_store_dir tenant_id +:+ "/" +:+ dist_store_file_name key.
End keys.

(** ** The encrypted store *)

Section store.
Context `{DistDeps} {B : Backend} `{BackendListing B} (ds : DistributionService).

Definition dist_write_envelope (tenant_id : TenantId) (store_kind key : string)
  (envelope : StoredEnvelope) : ST (World B) ApiError unit :=
  b ← lift_result (map_err storage_serialize_error (to_vec_pretty envelope));
  on_store (b_write B (dist_store_key tenant_id store_kind key) b).

(** [self.store_kms.encrypt_store_payload]. *)
Definition dist_encrypt (tenant_id : TenantId) (store_kind : string) (b : bytes)
  : ST (World B) CryptoError StoredEnvelope :=
  zoom w_draws set_draws (kms_encrypt (ds_store_kms ds) tenant_id store_kind b).

Definition map_error {S E F A} (f : E → F) (m : ST S E A) : ST S F A :=
  r ← attempt m; lift_result (map_err f r).

Definition dist_write_encrypted_bytes (tenant_id : TenantId) (store_kind key : string)
  (b : bytes) : ST (World B) ApiError unit :=
  envelope ← map_error (λ error, crypto_error_to_api error "failed to encrypt distribution payload")
               (dist_encrypt tenant_id store_kind b);
  dist_write_envelope tenant_id store_kind key envelope.

Definition dist_write_encrypted_json {T} `{Json T} (tenant_id : TenantId)
  (store_kind key : string) (value : T) : ST (World B) ApiError unit :=
  b ← lift_result (map_err storage_serialize_error (to_vec_pretty value));
  dist_write_encrypted_bytes tenant_id store_kind key b.

Definition dist_decrypt (tenant_id : TenantId) (store_kind : string) (b : bytes)
  : result ApiError bytes :=
  envelope ← map_err storage_deserialize_error (from_slice b : result string StoredEnvelope);
  map_err (λ error, crypto_error_to_api error "failed to decrypt distribution payload")
    (kms_decrypt (ds_store_kms ds) tenant_id store_kind envelope).

Definition dist_read_encrypted_bytes (tenant_id : TenantId) (store_kind key : string)
  : ST (World B) ApiError (option bytes) :=
  o ← on_store (b_read B (dist_store_key tenant_id store_kind key));
  match o with
  | None => mret None
  | Some b => p ← lift_result (dist_decrypt tenant_id store_kind b); mret (Some p)
  end.

Definition dist_read_encrypted_json {T} `{Json T} (tenant_id : TenantId)
  (store_kind key : string) : ST (World B) ApiError (option T) :=
  o ← dist_read_encrypted_bytes tenant_id store_kind key;
  match o with
  | None => mret None
  | Some b => v ← lift_result (map_err storage_deserialize_error (from_slice b)); mret (Some v)
  end.

Fixpoint decrypt_items {T} `{Json T} (tenant_id : TenantId) (store_kind : string)
  (values : list bytes) : result ApiError (list T) :=
  match values with
  | [] => Ok []
  | b :: rest =>
      plaintext ← dist_decrypt tenant_id store_kind b;
      items ← decrypt_items tenant_id store_kind rest;
      Ok (match from_slice plaintext with Ok value => value :: items | Err _ => items end)
  end.

Definition list_encrypted_json {T} `{Json T} (tenant_id : TenantId) (store_kind : string)
  : ST (World B) ApiError (list T) :=
  let prefix := store_kind +:+ "/" +:+ dist_tenant_store_dir tenant_id +:+ "/" in
  values ← on_store (b_list_values prefix);
  lift_result (decrypt_items tenant_id store_kind values).

Definition dist_delete_store_key (tenant_id : TenantId) (store_kind key : string)
  : ST (World B) ApiError unit :=
  on_store (b_delete B (dist_store_key tenant_id store_kind key)).

(** ** Records of buckets *)

Definition bucket_not_found : ApiError := mkApiError CatNotFound "bucket_not_found" "bucket not found".

Definition bucket_record (tenant_id : TenantId) (bucket : string)
  : ST (World B) ApiError (option BucketRecord) :=
  dist_read_encrypted_json tenant_id BUCKET_REGISTRY_STORE bucket.

Definition require_bucket (tenant_id : TenantId) (bucket : string)
  : ST (World B) ApiError BucketRecord :=
  bucket ← lift_result (canonical_bucket_name bucket);
  o ← bucket_record tenant_id bucket;
  lift_result (ok_or o bucket_not_found).

Definition ensure_bucket_read_scope_for (auth : AuthContext) (tenant_id : TenantId)
  (bucket : string) (key : option string) : ST (World B) ApiError unit :=
  if negb (String.eqb (cl_tenant_id (claims auth)) tenant_id) then throw tenant_mismatch
  else if has_read_capability auth then
    lift_result (ensure_bucket_scope_matches auth (Some bucket) key)
  else
  bucket_acl ← dist_read_encrypted_json (T:=BucketAclRecord) tenant_id ACL_STORE
                 (bucket_acl_store_key bucket);
  if from_option (λ record, acl_allows_read (ba_acl record)) false bucket_acl then
    lift_result (ensure_bucket_scope_matches auth (Some bucket) key)
  else
  let denied := auth_error "acl_denied" "read request is blocked by ACL policy" in
  match key with
  | Some key =>
      object_acl ← dist_read_encrypted_json (T:=ObjectAclRecord) tenant_id ACL_STORE
                     (object_acl_store_key bucket key);
      if from_option (λ record, acl_allows_read (oa_acl record)) false object_acl then
        lift_result (ensure_bucket_scope_matches auth (Some bucket) (Some key))
      else throw denied
  | None => throw denied
  end.

(** ** Signing of namespace records *)

Definition sign_namespace_record (record : NamespaceMutationRecord) : result ApiError string :=
  payload ← map_err (auth_error "signed_record_encode_failed") (record_to_cbor record);
  let kid := as_bytes (ds_namespace_signing_key_id ds) in
  let signature := ed25519_sign (ds_namespace_signing_key ds) (cose_sign1_tbs kid payload) in
  token ← map_err (auth_error "signed_record_encode_failed")
            (cose_sign1_to_vec kid payload signature);
  Ok (b64url_encode token).
End store.
