(* ===== verification/Buckets.v ===== *)
(** * hsp-distribution: buckets, access lists, locks and configurations

    Models the operations of [DistributionService] on its own records: the bucket
    registry, access control lists, lifecycle, object locks, website and
    replication configuration, and access keys.  Arguments that the code evaluates
    eagerly ([unwrap_or] with [now_ms()]) read the clock here too. *)

From Stdlib Require Import ZArith Lia Ascii String Bool.
From stdpp Require Import base option list strings gmap numbers sorting.
From S2P Require Import Prelude RustStr Path Core Cbor Auth Crypto Store ServiceState Namespaces Distribution.

Section buckets.
Context `{DistDeps} {B : Backend} `{BackendListing B} (ds : DistributionService).

Definition register_sigv4_access_key (record : SigV4AccessKeyRecord)
  : ST (World B) ApiError unit :=
  if str_is_empty (trim (ak_access_key_id record))
     || str_is_empty (trim (ak_secret_access_key record)) then
    throw (mkApiError CatValidation "invalid_sigv4_access_key"
             "access key id and secret must be non-empty")
  else
  dist_write_encrypted_json ds (ak_tenant_id record) DISTRIBUTION_METADATA_STORE
    ("access-key-" +:+ ak_access_key_id record) record.

Definition create_bucket (auth : AuthContext) (tenant_id : TenantId) (bucket : string)
  : ST (World B) ApiError BucketRecord :=
  bucket ← lift_result (canonical_bucket_name bucket);
  _ ← lift_result (ensure_bucket_mutation_scope_for auth tenant_id (Some bucket) None);
  existing ← bucket_record ds tenant_id bucket;
  match existing with
  | Some _ => throw (mkApiError CatConflict "bucket_already_exists" "bucket already exists")
  | None =>
      created_at_ms ← now_ms;
      let record :=
        {| bk_tenant_id := tenant_id; bk_bucket := bucket; bk_namespace := bucket;
           bk_visibility_policy := "signed-only";
           bk_namespace_cache_ttl_sec := dc_namespace_ttl_sec (ds_config ds);
           bk_immutable_cid_cache_ttl_sec := dc_immutable_cid_ttl_sec (ds_config ds);
           bk_created_at_ms := created_at_ms |} in
      _ ← dist_write_encrypted_json ds tenant_id BUCKET_REGISTRY_STORE bucket record;
      updated_at_ms ← now_ms;
      _ ← dist_write_encrypted_json ds tenant_id DISTRIBUTION_METADATA_STORE
            ("bucket-meta-" +:+ bucket)
            {| dm_tenant_id := tenant_id; dm_bucket := bucket; dm_edge_token_policy := "signed";
               dm_presign_enabled := true; dm_updated_at_ms := updated_at_ms |};
      mret record
  end.

Definition bucket_summary (record : BucketRecord) : BucketSummary :=
  mkBucketSummary (bk_bucket record) (bk_namespace record) (bk_created_at_ms record).
Definition bucket_summary_le (a b : BucketSummary) : Prop :=
  String.le (bsm_bucket a) (bsm_bucket b).

(** [sort_by] on the bucket name is a stable merge sort. *)
Definition list_buckets (auth : AuthContext) (tenant_id : TenantId)
  : ST (World B) ApiError (list BucketSummary) :=
  _ ← lift_result (ensure_bucket_read_scope auth tenant_id);
  records ← list_encrypted_json ds tenant_id BUCKET_REGISTRY_STORE;
  mret (merge_sort bucket_summary_le (bucket_summary <$> records)).

Definition head_bucket (auth : AuthContext) (tenant_id : TenantId) (bucket : string)
  : ST (World B) ApiError BucketRecord :=
  bucket ← lift_result (canonical_bucket_name bucket);
  _ ← ensure_bucket_read_scope_for ds auth tenant_id bucket None;
  o ← bucket_record ds tenant_id bucket;
  lift_result (ok_or o bucket_not_found).

Definition has_multipart_sessions (tenant_id : TenantId) (bucket : string)
  : ST (World B) ApiError bool :=
  sessions ← list_encrypted_json ds tenant_id MULTIPART_SESSIONS_STORE;
  mret (existsb (λ session, String.eqb (ms_bucket session) bucket
                            && negb (ms_completed session)) sessions).

Definition bucket_not_empty (message : string) : ApiError :=
  mkApiError CatConflict "bucket_not_empty" message.

Definition delete_bucket (auth : AuthContext) (tenant_id : TenantId) (bucket : string)
  : ST (World B) ApiError unit :=
  bucket ← lift_result (canonical_bucket_name bucket);
  _ ← lift_result (ensure_bucket_mutation_scope_for auth tenant_id (Some bucket) None);
  _ ← head_bucket auth tenant_id bucket;
  objects ← list_op (ds_alpha ds) auth
    {| lq_tenant_id := tenant_id; lq_namespace := bucket; lq_prefix := None; lq_cursor := None;
       lq_limit := Some 1; lq_recursive := true; lq_include_tombstones := false |};
  if negb (Nat.eqb (length (ls_items objects)) 0) then
    throw (bucket_not_empty "bucket namespace still contains objects")
  else
  uploads ← has_multipart_sessions tenant_id bucket;
  if (uploads : bool) then throw (bucket_not_empty "bucket still has active multipart uploads")
  else
  _ ← dist_delete_store_key tenant_id BUCKET_REGISTRY_STORE bucket;
  dist_delete_store_key tenant_id DISTRIBUTION_METADATA_STORE ("bucket-meta-" +:+ bucket).

(** ** Access control lists *)

Definition put_bucket_acl (auth : AuthContext) (tenant_id : TenantId) (bucket : string)
  (acl : CannedAcl) : ST (World B) ApiError BucketAclRecord :=
  bucket ← lift_result (canonical_bucket_name bucket);
  _ ← lift_result (ensure_bucket_mutation_scope_for auth tenant_id (Some bucket) None);
  _ ← require_bucket ds tenant_id bucket;
  updated_at_ms ← now_ms;
  let record := mkBucketAclRecord tenant_id bucket acl updated_at_ms in
  _ ← dist_write_encrypted_json ds tenant_id ACL_STORE (bucket_acl_store_key bucket) record;
  mret record.

Definition get_bucket_acl (auth : AuthContext) (tenant_id : TenantId) (bucket : string)
  : ST (World B) ApiError BucketAclRecord :=
  bucket ← lift_result (canonical_bucket_name bucket);
  _ ← ensure_bucket_read_scope_for ds auth tenant_id bucket None;
  _ ← require_bucket ds tenant_id bucket;
  o ← dist_read_encrypted_json ds tenant_id ACL_STORE (bucket_acl_store_key bucket);
  updated_at_ms ← now_ms;
  mret (default (mkBucketAclRecord tenant_id bucket AclPrivate updated_at_ms) o).

Definition put_object_acl (auth : AuthContext) (tenant_id : TenantId) (bucket key : string)
  (acl : CannedAcl) : ST (World B) ApiError ObjectAclRecord :=
  bucket ← lift_result (canonical_bucket_name bucket);
  key ← lift_result (canonical_object_key_name key);
  _ ← lift_result (ensure_bucket_mutation_scope_for auth tenant_id (Some bucket) (Some key));
  _ ← require_bucket ds tenant_id bucket;
  updated_at_ms ← now_ms;
  let record := mkObjectAclRecord tenant_id bucket key acl updated_at_ms in
  _ ← dist_write_encrypted_json ds tenant_id ACL_STORE (object_acl_store_key bucket key) record;
  mret record.

Definition get_object_acl (auth : AuthContext) (tenant_id : TenantId) (bucket key : string)
  : ST (World B) ApiError ObjectAclRecord :=
  bucket ← lift_result (canonical_bucket_name bucket);
  key ← lift_result (canonical_object_key_name key);
  _ ← ensure_bucket_read_scope_for ds auth tenant_id bucket (Some key);
  _ ← require_bucket ds tenant_id bucket;
  o ← dist_read_encrypted_json ds tenant_id ACL_STORE (object_acl_store_key bucket key);
  updated_at_ms ← now_ms;
  mret (default (mkObjectAclRecord tenant_id bucket key AclPrivate updated_at_ms) o).

(** ** Lifecycle *)

Definition rule_without_action (rule : LifecycleRule) : bool :=
  bool_decide (lcr_expire_after_days rule = None) &&
  (bool_decide (lcr_transition_after_days rule = None)
   || bool_decide (lcr_transition_storage_class rule = None)).

Definition put_lifecycle_config (auth : AuthContext) (config : LifecycleConfig)
  : ST (World B) ApiError LifecycleConfig :=
  bucket ← lift_result (canonical_bucket_name (lc_bucket config));
  _ ← lift_result (ensure_bucket_mutation_scope_for auth (lc_tenant_id config) (Some bucket) None);
  _ ← require_bucket ds (lc_tenant_id config) bucket;
  if existsb rule_without_action (lc_rules config) then
    throw (mkApiError CatValidation "lifecycle_conflict"
             "lifecycle rule must define expiration or transition action")
  else
  updated_at_ms ← now_ms;
  let config := mkLifecycleConfig (lc_tenant_id config) bucket (lc_rules config) updated_at_ms in
  _ ← dist_write_encrypted_json ds (lc_tenant_id config) LIFECYCLE_STORE
        (lifecycle_store_key bucket) config;
  mret config.

Definition get_lifecycle_config (auth : AuthContext) (tenant_id : TenantId) (bucket : string)
  : ST (World B) ApiError LifecycleConfig :=
  bucket ← lift_result (canonical_bucket_name bucket);
  _ ← ensure_bucket_read_scope_for ds auth tenant_id bucket None;
  _ ← require_bucket ds tenant_id bucket;
  o ← dist_read_encrypted_json ds tenant_id LIFECYCLE_STORE (lifecycle_store_key bucket);
  lift_result (ok_or o (mkApiError CatNotFound "lifecycle_not_found"
                          "bucket lifecycle configuration not found")).

Definition delete_lifecycle_config (auth : AuthContext) (tenant_id : TenantId)
  (bucket : string) : ST (World B) ApiError unit :=
  bucket ← lift_result (canonical_bucket_name bucket);
  _ ← lift_result (ensure_bucket_mutation_scope_for auth tenant_id (Some bucket) None);
  dist_delete_store_key tenant_id LIFECYCLE_STORE (lifecycle_store_key bucket).

(** ** Object locks *)

Definition lock_conflict (message : string) : ApiError :=
  mkApiError CatConflict "lock_conflict" message.

Definition ensure_retention_update_allowed (current : ObjectLockRecord)
  (new_immutable_until_ms : option Z) (new_mode : option string) (auth : AuthContext)
  : ST (World B) ApiError unit :=
  match ol_immutable_until_ms current with
  | None => mret tt
  | Some current_until =>
      now ← now_ms;
      if current_until <=? now then mret tt
      else
      let shortens_or_clears :=
        match new_immutable_until_ms with
        | Some new_until => new_until <? current_until
        | None => true
        end in
      let changes_active_mode := negb (bool_decide (ol_mode current = new_mode)) in
      if negb shortens_or_clears && negb changes_active_mode then mret tt
      else if from_option (λ mode, eq_ignore_ascii_case mode "compliance") false (ol_mode current)
      then throw (lock_conflict "active compliance retention cannot be shortened or cleared")
      else lift_result (require_admin_repair auth "lock_conflict")
  end.

Definition ensure_object_mutation_unlocked (tenant_id : TenantId) (bucket key : string)
  (delete_op : bool) (auth : AuthContext) : ST (World B) ApiError unit :=
  lock ← dist_read_encrypted_json ds tenant_id OBJECT_LOCK_STORE (object_lock_store_key bucket key);
  match lock with
  | None => mret tt
  | Some lock =>
      if ol_legal_hold lock then
        throw (mkApiError CatConflict "legal_hold_active" "object is under legal hold")
      else
      match ol_immutable_until_ms lock with
      | None => mret tt
      | Some until =>
          now ← now_ms;
          if (now <? until) && negb (has_scope auth [AdminRepair]) then
            throw (lock_conflict
              (if delete_op then "object retention lock blocks delete before immutable-until"
               else "object retention lock blocks overwrite before immutable-until"))
          else mret tt
      end
  end.

Definition no_lock (tenant_id : TenantId) (bucket key : string) (updated_at_ms : Z)
  : ObjectLockRecord :=
  mkObjectLockRecord tenant_id bucket key None false None updated_at_ms.

Definition put_object_retention (auth : AuthContext) (tenant_id : TenantId) (bucket key : string)
  (immutable_until_ms : option Z) (mode : option string)
  : ST (World B) ApiError ObjectLockRecord :=
  bucket ← lift_result (canonical_bucket_name bucket);
  key ← lift_result (canonical_object_key_name key);
  _ ← lift_result (ensure_bucket_mutation_scope_for auth tenant_id (Some bucket) (Some key));
  _ ← require_bucket ds tenant_id bucket;
  o ← dist_read_encrypted_json ds tenant_id OBJECT_LOCK_STORE (object_lock_store_key bucket key);
  read_at_ms ← now_ms;
  let record := default (no_lock tenant_id bucket key read_at_ms) o in
  _ ← ensure_retention_update_allowed record immutable_until_ms mode auth;
  updated_at_ms ← now_ms;
  let record := mkObjectLockRecord (ol_tenant_id record) (ol_bucket record) (ol_key record)
                  immutable_until_ms (ol_legal_hold record) mode updated_at_ms in
  _ ← dist_write_encrypted_json ds tenant_id OBJECT_LOCK_STORE (object_lock_store_key bucket key)
        record;
  mret record.

Definition put_object_legal_hold (auth : AuthContext) (tenant_id : TenantId) (bucket key : string)
  (legal_hold : bool) : ST (World B) ApiError ObjectLockRecord :=
  bucket ← lift_result (canonical_bucket_name bucket);
  key ← lift_result (canonical_object_key_name key);
  _ ← lift_result (ensure_bucket_mutation_scope_for auth tenant_id (Some bucket) (Some key));
  _ ← require_bucket ds tenant_id bucket;
  o ← dist_read_encrypted_json ds tenant_id OBJECT_LOCK_STORE (object_lock_store_key bucket key);
  read_at_ms ← now_ms;
  let record := default (no_lock tenant_id bucket key read_at_ms) o in
  _ ← lift_result (if ol_legal_hold record && negb legal_hold
                   then require_admin_repair auth "legal_hold_active" else Ok tt);
  updated_at_ms ← now_ms;
  let record := mkObjectLockRecord (ol_tenant_id record) (ol_bucket record) (ol_key record)
                  (ol_immutable_until_ms record) legal_hold (ol_mode record) updated_at_ms in
  _ ← dist_write_encrypted_json ds (ol_tenant_id record) OBJECT_LOCK_STORE
        (object_lock_store_key (ol_bucket record) (ol_key record)) record;
  mret record.

Definition get_object_lock (auth : AuthContext) (tenant_id : TenantId) (bucket key : string)
  : ST (World B) ApiError ObjectLockRecord :=
  bucket ← lift_result (canonical_bucket_name bucket);
  key ← lift_result (canonical_object_key_name key);
  _ ← ensure_bucket_read_scope_for ds auth tenant_id bucket (Some key);
  o ← dist_read_encrypted_json ds tenant_id OBJECT_LOCK_STORE (object_lock_store_key bucket key);
  read_at_ms ← now_ms;
  mret (default (no_lock tenant_id bucket key read_at_ms) o).

(** ** Website and replication configuration *)

Definition put_website_config (auth : AuthContext) (config : WebsiteConfig)
  : ST (World B) ApiError WebsiteConfig :=
  bucket ← lift_result (canonical_bucket_name (wc_bucket config));
  _ ← lift_result (ensure_bucket_mutation_scope_for auth (wc_tenant_id config) (Some bucket) None);
  _ ← require_bucket ds (wc_tenant_id config) bucket;
  if negb (bool_decide (wc_access_profile config = TrustedEdgeV1))
     || negb (dc_plaintext_profile_enabled (ds_config ds)) then
    throw (mkApiError CatPolicy "trusted_edge_required"
             "website hosting mode is allowed only for trusted-edge-v1 profile")
  else
  updated_at_ms ← now_ms;
  let config :=
    {| wc_tenant_id := wc_tenant_id config; wc_bucket := bucket; wc_enabled := wc_enabled config;
       wc_index_document := wc_index_document config;
       wc_error_document := wc_error_document config;
       wc_access_profile := wc_access_profile config; wc_updated_at_ms := updated_at_ms |} in
  _ ← dist_write_encrypted_json ds (wc_tenant_id config) WEBSITE_STORE (website_store_key bucket)
        config;
  mret config.

Definition get_website_config (auth : AuthContext) (tenant_id : TenantId) (bucket : string)
  : ST (World B) ApiError WebsiteConfig :=
  bucket ← lift_result (canonical_bucket_name bucket);
  _ ← ensure_bucket_read_scope_for ds auth tenant_id bucket None;
  o ← dist_read_encrypted_json ds tenant_id WEBSITE_STORE (website_store_key bucket);
  lift_result (ok_or o (mkApiError CatNotFound "website_config_not_found"
                          "website configuration not found")).

Definition delete_website_config (auth : AuthContext) (tenant_id : TenantId) (bucket : string)
  : ST (World B) ApiError unit :=
  bucket ← lift_result (canonical_bucket_name bucket);
  _ ← lift_result (ensure_bucket_mutation_scope_for auth tenant_id (Some bucket) None);
  dist_delete_store_key tenant_id WEBSITE_STORE (website_store_key bucket).

Definition put_replication_config (auth : AuthContext) (config : ReplicationConfig)
  : ST (World B) ApiError ReplicationConfig :=
  let tenant_id := rc_tenant_id config in
  source_bucket ← lift_result (canonical_bucket_name (rc_source_bucket config));
  destination_bucket ← lift_result (canonical_bucket_name (rc_destination_bucket config));
  _ ← lift_result (ensure_bucket_mutation_scope_for auth tenant_id (Some source_bucket)
                     (rc_prefix config));
  _ ← lift_result (ensure_bucket_mutation_scope_for auth tenant_id (Some destination_bucket)
                     (rc_prefix config));
  if String.eqb source_bucket destination_bucket then
    throw (mkApiError CatValidation "lifecycle_conflict"
             "replication source and destination buckets must differ")
  else
  _ ← require_bucket ds tenant_id source_bucket;
  _ ← require_bucket ds tenant_id destination_bucket;
  updated_at_ms ← now_ms;
  let config :=
    {| rc_tenant_id := tenant_id; rc_source_bucket := source_bucket;
       rc_destination_bucket := destination_bucket; rc_prefix := rc_prefix config;
       rc_enabled := rc_enabled config; rc_updated_at_ms := updated_at_ms |} in
  _ ← dist_write_encrypted_json ds tenant_id REPLICATION_STORE
        (replication_config_store_key source_bucket) config;
  mret config.

Definition get_replication_config (auth : AuthContext) (tenant_id : TenantId)
  (source_bucket : string) : ST (World B) ApiError ReplicationConfig :=
  source_bucket ← lift_result (canonical_bucket_name source_bucket);
  _ ← ensure_bucket_read_scope_for ds auth tenant_id source_bucket None;
  o ← dist_read_encrypted_json ds tenant_id REPLICATION_STORE
        (replication_config_store_key source_bucket);
  lift_result (ok_or o (mkApiError CatNotFound "replication_not_found"
                          "replication configuration not found")).

Definition get_replication_status (auth : AuthContext) (tenant_id : TenantId)
  (source_bucket : string) : ST (World B) ApiError ReplicationStatus :=
  source_bucket ← lift_result (canonical_bucket_name source_bucket);
  _ ← ensure_bucket_read_scope_for ds auth tenant_id source_bucket None;
  o ← dist_read_encrypted_json ds tenant_id REPLICATION_STORE
        (replication_status_store_key source_bucket);
  mret (default (mkReplicationStatus tenant_id source_bucket "" 0 0 0
                   (Some "replication_not_started")) o).

Definition delete_replication_config (auth : AuthContext) (tenant_id : TenantId)
  (source_bucket : string) : ST (World B) ApiError unit :=
  source_bucket ← lift_result (canonical_bucket_name source_bucket);
  _ ← lift_result (ensure_bucket_mutation_scope_for auth tenant_id (Some source_bucket) None);
  _ ← dist_delete_store_key tenant_id REPLICATION_STORE
        (replication_config_store_key source_bucket);
  dist_delete_store_key tenant_id REPLICATION_STORE (replication_status_store_key source_bucket).
End buckets.
