(* ===== verification/DistObjects.v ===== *)
(** * hsp-distribution: objects in buckets

    Models [put_object], [head_object], [get_object], [delete_object],
    [list_objects], [copy_object] and [run_replication_once] of
    [crates/hsp-distribution/src/lib.rs].  Each is built from the operations of
    the service ([Objects.v], [Namespaces.v]) on the shared world, with a namespace
    record signed by the distribution service for every change of a binding. *)

From Stdlib Require Import ZArith Lia Ascii String Bool.
From stdpp Require Import base option list strings gmap numbers sorting.
From S2P Require Import Prelude RustStr Path Core Cbor Auth Crypto Store ServiceState Access Namespaces Objects Chunker Distribution Buckets.

(** ** Requests and responses *)

Record PutObjectRequest := mkPutObjectRequest {
  po_tenant_id : TenantId;
  po_bucket : string;
  po_key : string;
  po_access_profile : AccessProfile;
  po_payload_plaintext : bool;
  po_content_type : string;
  po_encryption_profile_id : EncryptionProfileId;
  po_key_policy_id : KeyPolicyId;
  po_metadata_visibility : VisibilityMode;
  po_content_encryption_suite : string;
  po_key_wrapping_suite : string;
  po_wrapped_object_keys : list WrappedObjectKeyRecord;
  po_server_visible_metadata : metadata_map;
  po_encrypted_client_metadata : metadata_map;
  po_storage_class : string;
  po_idempotency_key : string;
}.
Record PutObjectResponse := mkPutObjectResponse {
  por_bucket : string;
  por_key : string;
  por_object_cid : string;
  por_manifest_cid : string;
  por_etag : string;
  por_event_seq : Z;
}.
Record HeadObjectRequest := mkHeadObjectRequest {
  hor_tenant_id : TenantId;
  hor_bucket : string;
  hor_key : string;
}.
Record HeadObjectResponse := mkHeadObjectResponse {
  ho_exists : bool;
  ho_deleted : bool;
  ho_cid : string;
  ho_bucket : string;
  ho_key : string;
  ho_object_cid : string;
  ho_manifest_cid : string;
  ho_integrity_hash : string;
  ho_etag : string;
  ho_size_bytes : Z;
  ho_ciphertext_size_bytes : Z;
  ho_content_length : Z;
  ho_content_type : string;
  ho_last_modified_ms : Z;
  ho_encryption_profile_id : EncryptionProfileId;
  ho_key_policy_id : KeyPolicyId;
  ho_server_visible_metadata : metadata_map;
  ho_encrypted_client_metadata_redacted : bool;
  ho_metadata_visibility : VisibilityMode;
}.
Record GetObjectRequest := mkGetObjectRequest {
  go_tenant_id : TenantId;
  go_bucket : option string;
  go_key : option string;
  go_cid : option string;
  go_access_profile : AccessProfile;
  go_prefer_plaintext : bool;
  go_range : option RangeSpec;
  go_if_match : option string;
  go_if_none_match : option string;
}.
Record GetObjectResponse := mkGetObjectResponse {
  gor_head : HeadObjectResponse;
  gor_body : bytes;
  gor_immutable : bool;
  gor_cache_control : string;
  gor_content_range : option string;
}.
Record DeleteObjectRequest := mkDeleteObjectRequest {
  dq_tenant_id : TenantId;
  dq_bucket : string;
  dq_key : string;
  dq_idempotency_key : string;
}.
Record DeleteObjectResponse := mkDeleteObjectResponse {
  dor_bucket : string;
  dor_key : string;
  dor_tombstone : bool;
  dor_revision : Z;
  dor_record_cid : string;
  dor_event_seq : Z;
}.
Record ListObjectsRequest := mkListObjectsRequest {
  lo_tenant_id : TenantId;
  lo_bucket : string;
  lo_prefix : option string;
  lo_continuation_token : option string;
  lo_limit : option Z;
}.
Record ObjectListItem := mkObjectListItem {
  oli_key : string;
  oli_etag : string;
  oli_content_length : Z;
  oli_content_type : string;
  oli_last_modified_ms : Z;
  oli_server_visible_metadata : metadata_map;
}.
Record ListObjectsResponse := mkListObjectsResponse {
  lor_bucket : string;
  lor_items : list ObjectListItem;
  lor_next_continuation_token : option string;
  lor_is_truncated : bool;
}.
Record CopyObjectRequest := mkCopyObjectRequest {
  co_tenant_id : TenantId;
  co_source_bucket : string;
  co_source_key : string;
  co_destination_bucket : string;
  co_destination_key : string;
  co_idempotency_key : string;
}.
Record CopyObjectResponse := mkCopyObjectResponse {
  cor_bucket : string;
  cor_key : string;
  cor_object_cid : string;
  cor_revision : Z;
  cor_record_cid : string;
  cor_event_seq : Z;
}.
Record ManifestChunkBuildInput := mkManifestChunkBuildInput {
  mb_tenant_id : TenantId;
  mb_chunk_refs : list ChunkRef;
  mb_size_bytes : Z;
  mb_content_type : string;
  mb_encryption_profile_id : EncryptionProfileId;
  mb_key_policy_id : KeyPolicyId;
  mb_metadata_visibility : VisibilityMode;
  mb_content_encryption_suite : string;
  mb_key_wrapping_suite : string;
  mb_wrapped_object_keys : list WrappedObjectKeyRecord;
  mb_server_visible_metadata : metadata_map;
  mb_encrypted_client_metadata : metadata_map;
}.

(** ** Errors *)

Definition not_found (message : string) : ApiError :=
  mkApiError CatNotFound "object_not_found" message.
Definition map_object_error (error : ApiError) : ApiError :=
  if existsb (String.eqb (err_code error))
       ["path_not_bound"; "path_tombstoned"; "manifest_not_found"]
  then not_found "object not found" else error.
Definition manifest_missing : ApiError :=
  storage_error "manifest_missing_from_response" "manifest-only read did not include a manifest".
Definition unsupported_plaintext (message : string) : ApiError :=
  mkApiError CatUnsupported "unsupported_plaintext_mode" message.

Definition validate_ciphertext_manifest_input (request : PutObjectRequest) (ciphertext : bytes)
  : result ApiError unit :=
  if Nat.eqb (length ciphertext) 0 then
    Err (validation_error "unsupported_plaintext_mode" "ciphertext object body must be non-empty")
  else if negb (po_payload_plaintext request)
          && Nat.eqb (length (po_wrapped_object_keys request)) 0 then
    Err (unsupported_plaintext "ciphertext object uploads require wrapped object keys")
  else Ok tt.

Section objects.
Context `{DistDeps} {B : Backend} `{BackendListing B} (ds : DistributionService).

(** ** Manifests *)

Definition build_manifest_from_chunk_refs (input : ManifestChunkBuildInput)
  : ST (World B) ApiError Manifest :=
  created_at_ms ← now_ms;
  let manifest :=
    {| mf_version := 1; mf_tenant_id := mb_tenant_id input;
       mf_logical_size := mb_size_bytes input; mf_stored_size := mb_size_bytes input;
       mf_chunker := "fixed-1m"; mf_chunk_refs := mb_chunk_refs input;
       mf_content_type := mb_content_type input; mf_created_at_ms := created_at_ms;
       mf_encryption_descriptor :=
         {| ed_encryption_profile_id := mb_encryption_profile_id input;
            ed_key_policy_id := mb_key_policy_id input;
            ed_content_encryption_suite := mb_content_encryption_suite input;
            ed_key_wrapping_suite := mb_key_wrapping_suite input;
            ed_metadata_visibility := mb_metadata_visibility input;
            ed_wrapped_object_keys := mb_wrapped_object_keys input;
            ed_server_visible_metadata := mb_server_visible_metadata input;
            ed_encrypted_client_metadata := mb_encrypted_client_metadata input |} |} in
  _ ← lift_result (manifest_validate manifest);
  mret manifest.

(** What [put_object] derives from the payload. *)
Record PreparedPayload := mkPreparedPayload {
  pp_ciphertext : bytes;
  pp_server_visible_metadata : metadata_map;
  pp_wrapped_object_keys : list WrappedObjectKeyRecord;
  pp_content_encryption_suite : string;
  pp_key_wrapping_suite : string;
}.

(** [build_manifest], with the fields of its input taken from the request. *)
Definition build_manifest (request : PutObjectRequest) (prepared : PreparedPayload)
  : ST (World B) ApiError Manifest :=
  build_manifest_from_chunk_refs
    {| mb_tenant_id := po_tenant_id request;
       mb_chunk_refs := staged_chunk_ref <$> chunk_ciphertext (pp_ciphertext prepared);
       mb_size_bytes := len_u64 (pp_ciphertext prepared);
       mb_content_type := po_content_type request;
       mb_encryption_profile_id := po_encryption_profile_id request;
       mb_key_policy_id := po_key_policy_id request;
       mb_metadata_visibility := po_metadata_visibility request;
       mb_content_encryption_suite := pp_content_encryption_suite prepared;
       mb_key_wrapping_suite := pp_key_wrapping_suite prepared;
       mb_wrapped_object_keys := pp_wrapped_object_keys prepared;
       mb_server_visible_metadata := pp_server_visible_metadata prepared;
       mb_encrypted_client_metadata := po_encrypted_client_metadata request |}.

(** ** Bindings of keys *)

Definition resolve_key (auth : AuthContext) (tenant_id : TenantId) (namespace path : string)
  : ST (World B) ApiError ResolveResponse :=
  resolve_op (ds_alpha ds) auth
    {| rq_tenant_id := tenant_id; rq_namespace := namespace; rq_path := path;
       rq_at_revision := None; rq_if_revision := None |}.

(** [.ok().filter(|resolved| !resolved.tombstone)]. *)
Definition existing_binding (auth : AuthContext) (tenant_id : TenantId) (namespace path : string)
  : ST (World B) ApiError (option ResolveResponse) :=
  r ← attempt (resolve_key auth tenant_id namespace path);
  mret (match r with
        | Ok resolved => if rs_tombstone resolved then None else Some resolved
        | Err _ => None
        end).

Definition bind_record (tenant_id : TenantId) (namespace path : string) (target_cid : string)
  (if_revision : option Z) (metadata : metadata_map) (issued_at_ms : Z)
  : NamespaceMutationRecord :=
  {| nm_version := 1; nm_tenant_id := tenant_id; nm_namespace := namespace; nm_path := path;
     nm_kind := KindBind; nm_target_cid := Some target_cid; nm_if_revision := if_revision;
     nm_ttl_ms := None; nm_metadata := metadata; nm_issued_at_ms := issued_at_ms |}.

Definition default_storage_class (storage_class : string) : string :=
  if str_is_empty (trim storage_class) then DEFAULT_STORAGE_CLASS else storage_class.

(** ** Writing objects *)

(** The trusted-edge branch of [put_object]: the service encrypts the payload
    under a fresh key and wraps that key for the edge. *)
Definition encrypt_trusted_edge (request : PutObjectRequest) (payload : bytes)
  : ST (World B) ApiError PreparedPayload :=
  let failed message := λ error, crypto_error_to_api error message in
  object_key ← map_error (failed "") (zoom w_draws set_draws generate_object_data_key);
  encrypted ← map_error (failed "failed to encrypt trusted-edge plaintext payload")
                (zoom w_draws set_draws (encrypt_client_chunk object_key payload));
  wrapped_object_keys ←
    (if existsb (λ entry, String.eqb (wk_recipient_key_id entry) TRUSTED_EDGE_RECIPIENT_KEY_ID)
          (po_wrapped_object_keys request)
     then mret (po_wrapped_object_keys request)
     else
       wrapped ← map_error (failed "failed to wrap trusted-edge object data key")
         (zoom w_draws set_draws
            (kms_wrap (ds_store_kms ds) (po_tenant_id request) TRUSTED_EDGE_RECIPIENT_KEY_ID
               object_key));
       mret (po_wrapped_object_keys request ++ [wrapped]));
  mret {| pp_ciphertext := ecc_ciphertext encrypted;
          pp_server_visible_metadata :=
            <["hsp-trusted-edge-nonce" := ecc_nonce_b64 encrypted]>
              (po_server_visible_metadata request);
          pp_wrapped_object_keys := wrapped_object_keys;
          pp_content_encryption_suite :=
            if str_is_empty (trim (po_content_encryption_suite request))
            then "XChaCha20-Poly1305" else po_content_encryption_suite request;
          pp_key_wrapping_suite :=
            if str_is_empty (trim (po_key_wrapping_suite request))
            then "HPKE/X25519" else po_key_wrapping_suite request |}.

Definition prepare_payload (request : PutObjectRequest) (payload : bytes)
  : ST (World B) ApiError PreparedPayload :=
  if po_payload_plaintext request then encrypt_trusted_edge request payload
  else mret {| pp_ciphertext := payload;
               pp_server_visible_metadata := po_server_visible_metadata request;
               pp_wrapped_object_keys := po_wrapped_object_keys request;
               pp_content_encryption_suite := po_content_encryption_suite request;
               pp_key_wrapping_suite := po_key_wrapping_suite request |}.

(** The loop over [chunk_ciphertext]. *)
Fixpoint put_chunks (auth : AuthContext) (tenant_id : TenantId) (session_id : string)
  (chunks : list StagedChunk) : ST (World B) ApiError unit :=
  match chunks with
  | [] => mret tt
  | chunk :: rest =>
      _ ← put_chunk (ds_alpha ds) auth
            {| pc_tenant_id := tenant_id; pc_session_id := session_id;
               pc_chunk_index := sc_chunk_index chunk; pc_chunk_cid := sc_cid chunk;
               pc_chunk_offset := sc_offset chunk; pc_chunk_length := sc_stored_len chunk;
               pc_content_encoding := sc_content_encoding chunk |} (sc_bytes chunk);
      put_chunks auth tenant_id session_id rest
  end.

Definition put_object (auth : AuthContext) (request : PutObjectRequest) (payload : bytes)
  : ST (World B) ApiError PutObjectResponse :=
  let tenant_id := po_tenant_id request in
  _ ← lift_result (validate_access_profile ds (po_access_profile request)
                     (po_payload_plaintext request));
  bucket ← require_bucket ds tenant_id (po_bucket request);
  key ← lift_result (canonical_object_key_name (po_key request));
  _ ← lift_result (ensure_bucket_mutation_scope_for auth tenant_id (Some (bk_bucket bucket))
                     (Some key));
  prepared ← prepare_payload request payload;
  _ ← lift_result (validate_ciphertext_manifest_input request (pp_ciphertext prepared));
  existing ← existing_binding auth tenant_id (bk_namespace bucket) key;
  _ ← match existing with
      | Some _ => ensure_object_mutation_unlocked ds tenant_id (bk_bucket bucket) key false auth
      | None => mret tt
      end;
  let existing_revision := rs_revision <$> existing in
  manifest ← build_manifest request prepared;
  let cid := manifest_cid manifest in
  issued_at_ms ← now_ms;
  signed_record_b64 ← lift_result (sign_namespace_record ds
    (bind_record tenant_id (bk_namespace bucket) key cid existing_revision
       (pp_server_visible_metadata prepared) issued_at_ms));
  init ← put_init (ds_alpha ds) auth
    {| pi_tenant_id := tenant_id; pi_manifest := manifest;
       pi_idempotency_key := po_idempotency_key request;
       pi_encryption_profile_id := po_encryption_profile_id request;
       pi_key_policy_id := po_key_policy_id request;
       pi_metadata_visibility := po_metadata_visibility request;
       pi_storage_class := default_storage_class (po_storage_class request);
       pi_atomic_bind := Some
         {| ab_namespace := bk_namespace bucket; ab_path := key;
            ab_if_revision := existing_revision;
            ab_metadata := pp_server_visible_metadata prepared; ab_ttl_ms := None;
            ab_signed_record_b64 := signed_record_b64 |} |};
  _ ← put_chunks auth tenant_id (pr_session_id init) (chunk_ciphertext (pp_ciphertext prepared));
  committed ← put_commit (ds_alpha ds) auth
    {| cm_tenant_id := tenant_id; cm_session_id := pr_session_id init; cm_manifest_cid := cid;
       cm_idempotency_key := po_idempotency_key request |};
  mret {| por_bucket := bk_bucket bucket; por_key := key;
          por_object_cid := cmr_object_cid committed; por_manifest_cid := cid;
          por_etag := cmr_object_cid committed; por_event_seq := cmr_event_seq committed |}.

(** ** Reading objects *)

(** The [HeadObjectResponse] literals of [head_object] and [get_object]. *)
Definition head_object_response (meta : HeadResponse) (manifest : Manifest) (bucket key : string)
  : HeadObjectResponse :=
  {| ho_exists := hr_exists meta; ho_deleted := hr_deleted meta; ho_cid := hr_cid meta;
     ho_bucket := bucket; ho_key := key; ho_object_cid := hr_object_cid meta;
     ho_manifest_cid := hr_manifest_cid meta; ho_integrity_hash := hr_integrity_hash meta;
     ho_etag := hr_object_cid meta; ho_size_bytes := hr_size_bytes meta;
     ho_ciphertext_size_bytes := hr_ciphertext_size_bytes meta;
     ho_content_length := hr_stored_size meta; ho_content_type := hr_content_type meta;
     ho_last_modified_ms := mf_created_at_ms manifest;
     ho_encryption_profile_id := hr_encryption_profile_id meta;
     ho_key_policy_id := hr_key_policy_id meta;
     ho_server_visible_metadata := hr_server_visible_metadata meta;
     ho_encrypted_client_metadata_redacted := hr_encrypted_client_metadata_redacted meta;
     ho_metadata_visibility := hr_metadata_visibility meta |}.

Definition get_manifest_only (auth : AuthContext) (tenant_id : TenantId) (selector : ObjectSelector)
  : ST (World B) ApiError GetResponse :=
  get (ds_alpha ds) auth
    {| gq_tenant_id := tenant_id; gq_selector := selector;
       gq_preference := Some PrefManifestOnly; gq_range := None |}.

Definition head_object (auth : AuthContext) (request : HeadObjectRequest)
  : ST (World B) ApiError HeadObjectResponse :=
  let tenant_id := hor_tenant_id request in
  bucket ← require_bucket ds tenant_id (hor_bucket request);
  key ← lift_result (canonical_object_key_name (hor_key request));
  _ ← ensure_bucket_read_scope_for ds auth tenant_id (bk_bucket bucket) (Some key);
  manifest_only ← map_error map_object_error
    (get_manifest_only auth tenant_id (selector_of_namespace (bk_namespace bucket) key));
  manifest ← lift_result (ok_or (gm_manifest (gr_meta manifest_only)) manifest_missing);
  mret (head_object_response (gm_head (gr_meta manifest_only)) manifest (bk_bucket bucket) key).

(** The branch of [get_object] for a request by CID: the binding, if one is given,
    must be to that CID. *)
Definition get_object_by_cid (auth : AuthContext) (request : GetObjectRequest) (cid : string)
  : ST (World B) ApiError (HeadObjectResponse * ObjectSelector * bool) :=
  let tenant_id := go_tenant_id request in
  binding ←
    match go_bucket request, go_key request with
    | Some bucket_name, Some key =>
        bucket ← require_bucket ds tenant_id bucket_name;
        key ← lift_result (canonical_object_key_name key);
        _ ← ensure_bucket_read_scope_for ds auth tenant_id (bk_bucket bucket) (Some key);
        resolved ← map_error map_object_error
                     (resolve_key auth tenant_id (bk_namespace bucket) key);
        if negb (bool_decide (rs_target_cid resolved = Some cid))
           && negb (bool_decide (rs_manifest_cid resolved = Some cid)) then
          throw (mkApiError CatPolicy "cid_binding_mismatch"
                   "requested CID is not bound to the scoped bucket/key")
        else mret (Some (bucket, key))
    | None, None =>
        _ ← lift_result (ensure_unscoped_cid_read_scope auth tenant_id);
        mret None
    | _, _ =>
        throw (validation_error "missing_cid_binding"
                 "CID reads must provide both bucket and key when a binding is supplied")
    end;
  let selector :=
    match binding with
    | Some (bucket, key) => selector_of_namespace (bk_namespace bucket) key
    | None => selector_of_cid cid
    end in
  manifest_only ← get_manifest_only auth tenant_id selector;
  manifest ← lift_result (ok_or (gm_manifest (gr_meta manifest_only)) manifest_missing);
  mret (head_object_response (gm_head (gr_meta manifest_only)) manifest
          (match binding with Some (bucket, _) => bk_bucket bucket | None => "" end)
          (match binding with Some (_, key) => key | None => cid end),
        selector, true).

Definition get_object_by_key (auth : AuthContext) (request : GetObjectRequest)
  : ST (World B) ApiError (HeadObjectResponse * ObjectSelector * bool) :=
  let tenant_id := go_tenant_id request in
  bucket_name ← lift_result (ok_or (go_bucket request)
    (validation_error "missing_bucket" "bucket is required when cid is not provided"));
  key ← lift_result (ok_or (go_key request)
    (validation_error "missing_object_key" "object key is required when cid is not provided"));
  head ← head_object auth (mkHeadObjectRequest tenant_id bucket_name key);
  bucket ← require_bucket ds tenant_id bucket_name;
  key ← lift_result (canonical_object_key_name key);
  mret (head, selector_of_namespace (bk_namespace bucket) key, false).

Definition precondition_failed : ApiError :=
  mkApiError CatConflict "precondition_failed"
    "If-Match does not match the current ciphertext object identity".
Definition not_modified : ApiError :=
  mkApiError CatConflict "not_modified"
    "If-None-Match matches the current ciphertext object identity".

(** The conditional headers. *)
Definition check_preconditions (request : GetObjectRequest) (etag : string)
  : result ApiError unit :=
  if from_option (λ if_match, negb (String.eqb if_match etag)) false (go_if_match request)
  then Err precondition_failed
  else if from_option (λ if_none_match, String.eqb if_none_match etag) false
            (go_if_none_match request)
  then Err not_modified
  else Ok tt.

(** The trusted-edge branch of [get_object]: unwrap the object key, decrypt. *)
Definition decrypt_trusted_edge (tenant_id : TenantId) (manifest : Manifest) (body : bytes)
  : result ApiError bytes :=
  let descriptor := mf_encryption_descriptor manifest in
  nonce_b64 ← ok_or (ed_server_visible_metadata descriptor !! "hsp-trusted-edge-nonce")
    (unsupported_plaintext "trusted-edge nonce metadata is missing for this object");
  wrapped_key ← ok_or
    (List.find (λ entry, String.eqb (wk_recipient_key_id entry) TRUSTED_EDGE_RECIPIENT_KEY_ID)
       (ed_wrapped_object_keys descriptor))
    (unsupported_plaintext "trusted-edge wrapped object key is missing");
  object_key ← map_err (λ error, crypto_error_to_api error
                                   "failed to unwrap trusted-edge object key")
    (kms_unwrap (ds_store_kms ds) tenant_id wrapped_key);
  map_err (λ error, crypto_error_to_api error "failed to decrypt trusted-edge object payload")
    (decrypt_client_chunk object_key nonce_b64 body).

Definition set_content_length (head : HeadObjectResponse) (content_length : Z)
  : HeadObjectResponse :=
  {| ho_exists := ho_exists head; ho_deleted := ho_deleted head; ho_cid := ho_cid head;
     ho_bucket := ho_bucket head; ho_key := ho_key head; ho_object_cid := ho_object_cid head;
     ho_manifest_cid := ho_manifest_cid head; ho_integrity_hash := ho_integrity_hash head;
     ho_etag := ho_etag head; ho_size_bytes := ho_size_bytes head;
     ho_ciphertext_size_bytes := ho_ciphertext_size_bytes head;
     ho_content_length := content_length; ho_content_type := ho_content_type head;
     ho_last_modified_ms := ho_last_modified_ms head;
     ho_encryption_profile_id := ho_encryption_profile_id head;
     ho_key_policy_id := ho_key_policy_id head;
     ho_server_visible_metadata := ho_server_visible_metadata head;
     ho_encrypted_client_metadata_redacted := ho_encrypted_client_metadata_redacted head;
     ho_metadata_visibility := ho_metadata_visibility head |}.

Definition get_object (auth : AuthContext) (request : GetObjectRequest)
  : ST (World B) ApiError GetObjectResponse :=
  let tenant_id := go_tenant_id request in
  _ ← lift_result (validate_access_profile ds (go_access_profile request)
                     (go_prefer_plaintext request));
  _ ← lift_result (ensure_tenant_matches auth tenant_id);
  '(head, selector, immutable) ←
    match go_cid request with
    | Some cid => get_object_by_cid auth request cid
    | None => get_object_by_key auth request
    end;
  _ ← lift_result (check_preconditions request (ho_etag head));
  response ← get (ds_alpha ds) auth
    {| gq_tenant_id := tenant_id; gq_selector := selector;
       gq_preference := Some PrefChunkStream; gq_range := go_range request |};
  let body := List.concat (gc_bytes <$> gr_chunks response) in
  if negb (go_prefer_plaintext request) then
    mret {| gor_head := head; gor_body := body; gor_immutable := immutable;
            gor_cache_control :=
              if (immutable : bool)
              then "public, max-age=" +:+ dec (dc_immutable_cid_ttl_sec (ds_config ds))
                   +:+ ", immutable"
              else "private, max-age=" +:+ dec (dc_namespace_ttl_sec (ds_config ds));
            gor_content_range :=
              (λ range, "bytes " +:+ dec (range_start range) +:+ "-" +:+ dec (range_end range)
                        +:+ "/" +:+ dec (ho_content_length head)) <$> go_range request |}
  else
  match go_range request with
  | Some _ =>
      throw (mkApiError CatUnsupported "unsupported_preference"
               "trusted-edge plaintext mode does not support range reads")
  | None =>
      manifest ←
        match gm_manifest (gr_meta response) with
        | Some manifest => mret manifest
        | None =>
            manifest_only ← get_manifest_only auth tenant_id selector;
            lift_result (ok_or (gm_manifest (gr_meta manifest_only)) manifest_missing)
        end;
      plaintext ← lift_result (decrypt_trusted_edge tenant_id manifest body);
      mret {| gor_head := set_content_length head (len_u64 plaintext); gor_body := plaintext;
              gor_immutable := immutable; gor_cache_control := "private, no-store";
              gor_content_range := None |}
  end.

(** ** Deleting, listing, copying *)

Definition delete_object (auth : AuthContext) (request : DeleteObjectRequest)
  : ST (World B) ApiError DeleteObjectResponse :=
  let tenant_id := dq_tenant_id request in
  bucket ← require_bucket ds tenant_id (dq_bucket request);
  key ← lift_result (canonical_object_key_name (dq_key request));
  _ ← lift_result (ensure_bucket_mutation_scope_for auth tenant_id (Some (bk_bucket bucket))
                     (Some key));
  resolved ← map_error map_object_error (resolve_key auth tenant_id (bk_namespace bucket) key);
  if rs_tombstone resolved then throw (not_found "object is already tombstoned")
  else
  _ ← ensure_object_mutation_unlocked ds tenant_id (dq_bucket request) key true auth;
  issued_at_ms ← now_ms;
  signed_record_b64 ← lift_result (sign_namespace_record ds
    {| nm_version := 1; nm_tenant_id := tenant_id; nm_namespace := bk_namespace bucket;
       nm_path := key; nm_kind := KindUnbind; nm_target_cid := None;
       nm_if_revision := Some (rs_revision resolved); nm_ttl_ms := None; nm_metadata := ∅;
       nm_issued_at_ms := issued_at_ms |});
  unbound ← unbind (ds_alpha ds) auth
    {| ur_tenant_id := tenant_id; ur_namespace := bk_namespace bucket; ur_path := key;
       ur_if_revision := rs_revision resolved; ur_hard_delete := false;
       ur_idempotency_key := dq_idempotency_key request;
       ur_signed_record_b64 := signed_record_b64 |};
  mret {| dor_bucket := dq_bucket request; dor_key := key; dor_tombstone := us_tombstone unbound;
          dor_revision := us_revision unbound; dor_record_cid := us_record_cid unbound;
          dor_event_seq := us_event_seq unbound |}.

Fixpoint list_heads (auth : AuthContext) (tenant_id : TenantId) (bucket : string)
  (items : list ListItem) : ST (World B) ApiError (list ObjectListItem) :=
  match items with
  | [] => mret []
  | item :: rest =>
      head ← head_object auth (mkHeadObjectRequest tenant_id bucket (li_path item));
      tail ← list_heads auth tenant_id bucket rest;
      mret ({| oli_key := li_path item; oli_etag := ho_etag head;
               oli_content_length := ho_content_length head;
               oli_content_type := ho_content_type head;
               oli_last_modified_ms := ho_last_modified_ms head;
               oli_server_visible_metadata := ho_server_visible_metadata head |} :: tail)
  end.

Definition list_objects (auth : AuthContext) (request : ListObjectsRequest)
  : ST (World B) ApiError ListObjectsResponse :=
  let tenant_id := lo_tenant_id request in
  bucket ← require_bucket ds tenant_id (lo_bucket request);
  prefix ← lift_result
    (match lo_prefix request with
     | Some prefix => Some <$> canonical_object_key_name prefix
     | None => Ok None
     end);
  _ ← ensure_bucket_read_scope_for ds auth tenant_id (bk_bucket bucket) prefix;
  listed ← list_op (ds_alpha ds) auth
    {| lq_tenant_id := tenant_id; lq_namespace := bk_namespace bucket; lq_prefix := prefix;
       lq_cursor := lo_continuation_token request; lq_limit := lo_limit request;
       lq_recursive := true; lq_include_tombstones := false |};
  items ← list_heads auth tenant_id (lo_bucket request) (ls_items listed);
  mret {| lor_bucket := lo_bucket request; lor_items := items;
          lor_next_continuation_token := ls_next_cursor listed;
          lor_is_truncated := ls_truncated listed |}.

Definition copy_object (auth : AuthContext) (request : CopyObjectRequest)
  : ST (World B) ApiError CopyObjectResponse :=
  let tenant_id := co_tenant_id request in
  source_bucket ← require_bucket ds tenant_id (co_source_bucket request);
  destination_bucket ← require_bucket ds tenant_id (co_destination_bucket request);
  source_key ← lift_result (canonical_object_key_name (co_source_key request));
  destination_key ← lift_result (canonical_object_key_name (co_destination_key request));
  _ ← ensure_bucket_read_scope_for ds auth tenant_id (bk_bucket source_bucket) (Some source_key);
  _ ← lift_result (ensure_bucket_mutation_scope_for auth tenant_id
                     (Some (bk_bucket destination_bucket)) (Some destination_key));
  source ← map_error map_object_error
             (resolve_key auth tenant_id (bk_namespace source_bucket) source_key);
  if rs_tombstone source then throw (not_found "source object is tombstoned")
  else
  existing ← existing_binding auth tenant_id (bk_namespace destination_bucket) destination_key;
  let target_revision := rs_revision <$> existing in
  _ ← ensure_object_mutation_unlocked ds tenant_id (bk_bucket destination_bucket)
        destination_key false auth;
  target_cid ← lift_result (ok_or (rs_target_cid source)
                 (not_found "source object does not resolve to a target CID"));
  issued_at_ms ← now_ms;
  signed_record_b64 ← lift_result (sign_namespace_record ds
    (bind_record tenant_id (bk_namespace destination_bucket) destination_key target_cid
       target_revision ∅ issued_at_ms));
  response ← bind (ds_alpha ds) auth
    {| br_tenant_id := tenant_id; br_namespace := bk_namespace destination_bucket;
       br_path := destination_key; br_target_cid := target_cid;
       br_if_revision := target_revision;
       br_if_absent := bool_decide (target_revision = None); br_metadata := ∅;
       br_ttl_ms := None; br_idempotency_key := co_idempotency_key request;
       br_signed_record_b64 := signed_record_b64 |};
  mret {| cor_bucket := co_destination_bucket request; cor_key := destination_key;
          cor_object_cid := target_cid; cor_revision := bs_revision response;
          cor_record_cid := bs_record_cid response; cor_event_seq := bs_event_seq response |}.

(** ** Replication *)

(** The loop over the listed objects: copied, failed, last error. *)
Fixpoint replicate_items (auth : AuthContext) (tenant_id : TenantId) (config : ReplicationConfig)
  (items : list ObjectListItem) (acc : Z * Z * option string)
  : ST (World B) ApiError (Z * Z * option string) :=
  match items with
  | [] => mret acc
  | object :: rest =>
      let '(copied_objects, failed_objects, last_error) := acc in
      now ← now_ms;
      let idempotency_key := "replication-" +:+ cid_from_bytes (as_bytes
        (rc_source_bucket config +:+ ":" +:+ rc_destination_bucket config +:+ ":" +:+
         oli_key object +:+ ":" +:+ dec now)) in
      r ← attempt (copy_object auth
        {| co_tenant_id := tenant_id; co_source_bucket := rc_source_bucket config;
           co_source_key := oli_key object;
           co_destination_bucket := rc_destination_bucket config;
           co_destination_key := oli_key object; co_idempotency_key := idempotency_key |});
      replicate_items auth tenant_id config rest
        (match r with
         | Err error => (copied_objects, u64_sat_add failed_objects 1, Some (err_code error))
         | Ok _ => (u64_sat_add copied_objects 1, failed_objects, last_error)
         end)
  end.

Definition run_replication_once (auth : AuthContext) (tenant_id : TenantId)
  (source_bucket : string) : ST (World B) ApiError ReplicationStatus :=
  source_bucket ← lift_result (canonical_bucket_name source_bucket);
  _ ← lift_result (ensure_bucket_mutation_scope_for auth tenant_id (Some source_bucket) None);
  config ← get_replication_config ds auth tenant_id source_bucket;
  '(copied_objects, failed_objects, last_error) ←
    (if rc_enabled config then
       listed ← list_objects auth
         {| lo_tenant_id := tenant_id; lo_bucket := rc_source_bucket config;
            lo_prefix := rc_prefix config; lo_continuation_token := None;
            lo_limit := Some 10000 |};
       replicate_items auth tenant_id config (lor_items listed) (0, 0, None)
     else mret (0, 0, Some "replication_disabled"));
  last_run_ms ← now_ms;
  let status :=
    {| rst_tenant_id := tenant_id; rst_source_bucket := rc_source_bucket config;
       rst_destination_bucket := rc_destination_bucket config;
       rst_copied_objects := copied_objects; rst_failed_objects := failed_objects;
       rst_last_run_ms := last_run_ms; rst_last_error := last_error |} in
  _ ← dist_write_encrypted_json ds tenant_id REPLICATION_STORE
        (replication_status_store_key source_bucket) status;
  mret status.
End objects.
