(* ===== verification/Multipart.v ===== *)
(** * hsp-distribution: multipart uploads

    Models [create_multipart_upload], [upload_part], [complete_multipart_upload]
    and [abort_multipart_upload] of [crates/hsp-distribution/src/lib.rs].
    Completion reads the parts twice: once to build the manifest, once to upload
    the chunks the manifest names; both passes use the loops of [Chunker.v]. *)

From Stdlib Require Import ZArith Lia Ascii String Bool.
From stdpp Require Import base option list strings gmap numbers sorting.
From S2P Require Import Prelude RustStr Path Core Cbor Auth Crypto Store ServiceState Access Namespaces Objects Chunker Distribution Buckets DistObjects.

Record CreateMultipartUploadRequest := mkCreateMultipartUploadRequest {
  cmu_tenant_id : TenantId;
  cmu_bucket : string;
  cmu_key : string;
  cmu_access_profile : AccessProfile;
  cmu_payload_plaintext : bool;
  cmu_content_type : string;
  cmu_encryption_profile_id : EncryptionProfileId;
  cmu_key_policy_id : KeyPolicyId;
  cmu_metadata_visibility : VisibilityMode;
  cmu_content_encryption_suite : string;
  cmu_key_wrapping_suite : string;
  cmu_wrapped_object_keys : list WrappedObjectKeyRecord;
  cmu_server_visible_metadata : metadata_map;
  cmu_encrypted_client_metadata : metadata_map;
  cmu_storage_class : string;
  cmu_idempotency_key : string;
}.
Record CreateMultipartUploadResponse := mkCreateMultipartUploadResponse {
  cmur_bucket : string;
  cmur_key : string;
  cmur_upload_id : string;
}.
Record UploadPartRequest := mkUploadPartRequest {
  upq_tenant_id : TenantId;
  upq_upload_id : string;
  upq_part_number : Z;
}.
Record UploadPartResponse := mkUploadPartResponse {
  upr_upload_id : string;
  upr_part_number : Z;
  upr_etag : string;
  upr_length : Z;
}.
Record CompletedMultipartPart := mkCompletedMultipartPart {
  cp_part_number : Z;
  cp_etag : string;
}.
Record CompleteMultipartUploadRequest := mkCompleteMultipartUploadRequest {
  cq_tenant_id : TenantId;
  cq_upload_id : string;
  cq_parts : list CompletedMultipartPart;
}.
Record AbortMultipartUploadRequest := mkAbortMultipartUploadRequest {
  aq_tenant_id : TenantId;
  aq_upload_id : string;
}.

Definition multipart_conflict (message : string) : ApiError :=
  mkApiError CatConflict "multipart_conflict" message.
Definition multipart_not_found (message : string) : ApiError :=
  mkApiError CatNotFound "multipart_not_found" message.

(** [BTreeSet<u32>] built from numbers: ascending, without repetition. *)
Definition btree_set (l : list Z) : list Z := merge_sort Z.le (remove_dups l).

Definition part_meta_key (part_key : string) : string := "part-meta-" +:+ part_key.

Section multipart.
Context `{DistDeps} {B : Backend} `{BackendListing B} (ds : DistributionService).

Definition create_multipart_upload (auth : AuthContext) (request : CreateMultipartUploadRequest)
  : ST (World B) ApiError CreateMultipartUploadResponse :=
  let tenant_id := cmu_tenant_id request in
  _ ← lift_result (validate_access_profile ds (cmu_access_profile request)
                     (cmu_payload_plaintext request));
  bucket ← require_bucket ds tenant_id (cmu_bucket request);
  key ← lift_result (canonical_object_key_name (cmu_key request));
  _ ← lift_result (ensure_bucket_mutation_scope_for auth tenant_id (Some (bk_bucket bucket))
                     (Some key));
  if negb (cmu_payload_plaintext request)
     && Nat.eqb (length (cmu_wrapped_object_keys request)) 0 then
    throw (unsupported_plaintext "ciphertext object uploads require wrapped object keys")
  else
  now ← now_ms;
  let upload_id := "multipart-" +:+ cid_from_bytes (as_bytes
    (bk_bucket bucket +:+ ":" +:+ key +:+ ":" +:+ dec now)) in
  initiated_at_ms ← now_ms;
  _ ← dist_write_encrypted_json ds tenant_id MULTIPART_SESSIONS_STORE upload_id
    {| ms_upload_id := upload_id; ms_tenant_id := tenant_id; ms_bucket := bk_bucket bucket;
       ms_key := key; ms_access_profile := cmu_access_profile request;
       ms_payload_plaintext := cmu_payload_plaintext request;
       ms_content_type := cmu_content_type request;
       ms_encryption_profile_id := cmu_encryption_profile_id request;
       ms_key_policy_id := cmu_key_policy_id request;
       ms_metadata_visibility := cmu_metadata_visibility request;
       ms_content_encryption_suite := cmu_content_encryption_suite request;
       ms_key_wrapping_suite := cmu_key_wrapping_suite request;
       ms_wrapped_object_keys := cmu_wrapped_object_keys request;
       ms_server_visible_metadata := cmu_server_visible_metadata request;
       ms_encrypted_client_metadata := cmu_encrypted_client_metadata request;
       ms_storage_class := default_storage_class (cmu_storage_class request);
       ms_initiated_at_ms := initiated_at_ms;
       ms_idempotency_key := cmu_idempotency_key request; ms_completed := false |};
  mret {| cmur_bucket := bk_bucket bucket; cmur_key := cmu_key request;
          cmur_upload_id := upload_id |}.

Definition multipart_session (tenant_id : TenantId) (upload_id : string)
  : ST (World B) ApiError MultipartSessionRecord :=
  o ← dist_read_encrypted_json ds tenant_id MULTIPART_SESSIONS_STORE upload_id;
  lift_result (ok_or o (multipart_not_found "multipart upload session not found")).

Definition upload_part (auth : AuthContext) (request : UploadPartRequest)
  (ciphertext_part : bytes) : ST (World B) ApiError UploadPartResponse :=
  let tenant_id := upq_tenant_id request in
  let upload_id := upq_upload_id request in
  _ ← lift_result (ensure_tenant_matches auth tenant_id);
  session ← multipart_session tenant_id upload_id;
  _ ← lift_result (ensure_bucket_mutation_scope_for auth tenant_id (Some (ms_bucket session))
                     (Some (ms_key session)));
  if ms_completed session then throw (multipart_conflict "multipart upload is already completed")
  else
  let etag := cid_from_bytes ciphertext_part in
  let part_key := multipart_part_store_key upload_id (upq_part_number request) in
  _ ← dist_write_encrypted_bytes ds tenant_id MULTIPART_PARTS_STORE part_key ciphertext_part;
  created_at_ms ← now_ms;
  _ ← dist_write_encrypted_json ds tenant_id MULTIPART_SESSIONS_STORE (part_meta_key part_key)
    {| mpp_upload_id := upload_id; mpp_part_number := upq_part_number request; mpp_etag := etag;
       mpp_length := len_u64 ciphertext_part; mpp_created_at_ms := created_at_ms |};
  mret {| upr_upload_id := upload_id; upr_part_number := upq_part_number request;
          upr_etag := etag; upr_length := len_u64 ciphertext_part |}.

Definition multipart_parts (tenant_id : TenantId) (upload_id : string)
  : ST (World B) ApiError (list MultipartPartRecord) :=
  parts ← list_encrypted_json ds tenant_id MULTIPART_SESSIONS_STORE;
  mret (List.filter (λ part, String.eqb (mpp_upload_id part) upload_id) parts).

Definition multipart_part_ciphertext (tenant_id : TenantId) (upload_id : string)
  (part : CompletedMultipartPart) : ST (World B) ApiError bytes :=
  let part_key := multipart_part_store_key upload_id (cp_part_number part) in
  o ← dist_read_encrypted_json (T:=MultipartPartRecord) ds tenant_id MULTIPART_SESSIONS_STORE
        (part_meta_key part_key);
  meta ← lift_result (ok_or o (multipart_not_found "multipart part metadata not found"));
  if negb (String.eqb (mpp_upload_id meta) upload_id)
     || negb (mpp_part_number meta =? cp_part_number part) then
    throw (multipart_conflict
             "multipart part metadata does not match the requested upload session")
  else if negb (String.eqb (mpp_etag meta) (cp_etag part)) then
    throw (multipart_conflict "multipart part ETag does not match stored ciphertext part")
  else
  o ← dist_read_encrypted_bytes ds tenant_id MULTIPART_PARTS_STORE part_key;
  b ← lift_result (ok_or o (multipart_not_found "multipart part ciphertext not found"));
  if negb (mpp_length meta =? len_u64 b) || negb (String.eqb (cid_from_bytes b) (cp_etag part))
  then throw (multipart_conflict "multipart part ciphertext does not match stored metadata")
  else mret b.

Fixpoint cleanup_parts (tenant_id : TenantId) (upload_id : string) (part_numbers : list Z)
  : ST (World B) ApiError unit :=
  match part_numbers with
  | [] => mret tt
  | part_number :: rest =>
      let part_key := multipart_part_store_key upload_id part_number in
      _ ← dist_delete_store_key tenant_id MULTIPART_PARTS_STORE part_key;
      _ ← dist_delete_store_key tenant_id MULTIPART_SESSIONS_STORE (part_meta_key part_key);
      cleanup_parts tenant_id upload_id rest
  end.
Definition cleanup_multipart (tenant_id : TenantId) (upload_id : string) (part_numbers : list Z)
  : ST (World B) ApiError unit :=
  _ ← cleanup_parts tenant_id upload_id part_numbers;
  dist_delete_store_key tenant_id MULTIPART_SESSIONS_STORE upload_id.

(** ** Completion *)

(** The first pass: the order of the part numbers is checked as the parts are read. *)
Fixpoint collect_listed_parts (tenant_id : TenantId) (upload_id : string)
  (parts : list CompletedMultipartPart) (previous_part_number : option Z)
  (pending_chunk : bytes) (c : ChunkRefCursor) : ST (World B) ApiError ChunkRefCursor :=
  match parts with
  | [] => flush_fixed_chunk_ref pending_chunk c
  | part :: rest =>
      if from_option (λ previous, cp_part_number part <=? previous) false previous_part_number
      then throw (mkApiError CatConflict "invalid_part_order"
             "complete multipart parts must be listed in strictly ascending part order")
      else
      b ← multipart_part_ciphertext tenant_id upload_id part;
      '(pending_chunk, c) ← collect_fixed_chunk_refs b pending_chunk c;
      collect_listed_parts tenant_id upload_id rest (Some (cp_part_number part)) pending_chunk c
  end.

Definition put_fixed_chunk (auth : AuthContext) (tenant_id : TenantId) (session_id : string)
  (chunk : bytes) (c : Z * Z) : ST (World B) ApiError (Z * Z) :=
  let chunk_ref := fixed_chunk_ref c.1 c.2 chunk in
  _ ← put_chunk (ds_alpha ds) auth
        {| pc_tenant_id := tenant_id; pc_session_id := session_id;
           pc_chunk_index := cr_chunk_index chunk_ref; pc_chunk_cid := cr_cid chunk_ref;
           pc_chunk_offset := cr_offset chunk_ref; pc_chunk_length := cr_stored_len chunk_ref;
           pc_content_encoding := cr_content_encoding chunk_ref |} chunk;
  lift_result (advance_fixed_chunk_cursor chunk c.1 c.2).

Definition upload_fixed_chunks (auth : AuthContext) (tenant_id : TenantId) (session_id : string)
  (b pending_chunk : bytes) (c : Z * Z) : ST (World B) ApiError (bytes * (Z * Z)) :=
  run_loop (fill_loop FIXED_CHUNK_SIZE (put_fixed_chunk auth tenant_id session_id) (length b)
              b pending_chunk c).

Definition flush_fixed_chunk_upload (auth : AuthContext) (tenant_id : TenantId)
  (session_id : string) (pending_chunk : bytes) (c : Z * Z) : ST (World B) ApiError (Z * Z) :=
  flush_pending (put_fixed_chunk auth tenant_id session_id) pending_chunk c.

(** The second pass. *)
Fixpoint upload_listed_parts (auth : AuthContext) (tenant_id : TenantId)
  (upload_id session_id : string) (parts : list CompletedMultipartPart)
  (pending_chunk : bytes) (c : Z * Z) : ST (World B) ApiError (Z * Z) :=
  match parts with
  | [] => flush_fixed_chunk_upload auth tenant_id session_id pending_chunk c
  | part :: rest =>
      b ← multipart_part_ciphertext tenant_id upload_id part;
      '(pending_chunk, c) ← upload_fixed_chunks auth tenant_id session_id b pending_chunk c;
      upload_listed_parts auth tenant_id upload_id session_id rest pending_chunk c
  end.

(** The manifest of a completed upload. *)
Definition multipart_manifest (tenant_id : TenantId) (session : MultipartSessionRecord)
  (c : ChunkRefCursor) : ST (World B) ApiError Manifest :=
  build_manifest_from_chunk_refs
    {| mb_tenant_id := tenant_id; mb_chunk_refs := cc_chunk_refs c;
       mb_size_bytes := cc_next_chunk_offset c; mb_content_type := ms_content_type session;
       mb_encryption_profile_id := ms_encryption_profile_id session;
       mb_key_policy_id := ms_key_policy_id session;
       mb_metadata_visibility := ms_metadata_visibility session;
       mb_content_encryption_suite := ms_content_encryption_suite session;
       mb_key_wrapping_suite := ms_key_wrapping_suite session;
       mb_wrapped_object_keys := ms_wrapped_object_keys session;
       mb_server_visible_metadata := ms_server_visible_metadata session;
       mb_encrypted_client_metadata := ms_encrypted_client_metadata session |}.

Definition mark_completed (session : MultipartSessionRecord) : MultipartSessionRecord :=
  {| ms_upload_id := ms_upload_id session; ms_tenant_id := ms_tenant_id session;
     ms_bucket := ms_bucket session; ms_key := ms_key session;
     ms_access_profile := ms_access_profile session;
     ms_payload_plaintext := ms_payload_plaintext session;
     ms_content_type := ms_content_type session;
     ms_encryption_profile_id := ms_encryption_profile_id session;
     ms_key_policy_id := ms_key_policy_id session;
     ms_metadata_visibility := ms_metadata_visibility session;
     ms_content_encryption_suite := ms_content_encryption_suite session;
     ms_key_wrapping_suite := ms_key_wrapping_suite session;
     ms_wrapped_object_keys := ms_wrapped_object_keys session;
     ms_server_visible_metadata := ms_server_visible_metadata session;
     ms_encrypted_client_metadata := ms_encrypted_client_metadata session;
     ms_storage_class := ms_storage_class session;
     ms_initiated_at_ms := ms_initiated_at_ms session;
     ms_idempotency_key := ms_idempotency_key session; ms_completed := true |}.

Definition check_completion (session : MultipartSessionRecord)
  (parts : list CompletedMultipartPart) : result ApiError unit :=
  if ms_completed session then Err (multipart_conflict "multipart upload is already completed")
  else if Nat.eqb (length parts) 0 then
    Err (validation_error "multipart_not_found"
           "complete multipart requires at least one uploaded part")
  else if ms_payload_plaintext session then
    Err (unsupported_plaintext
           "multipart trusted-edge plaintext uploads require streaming encryption support")
  else Ok tt.

Definition complete_multipart_upload (auth : AuthContext)
  (request : CompleteMultipartUploadRequest) : ST (World B) ApiError PutObjectResponse :=
  let tenant_id := cq_tenant_id request in
  let upload_id := cq_upload_id request in
  _ ← lift_result (ensure_tenant_matches auth tenant_id);
  session ← multipart_session tenant_id upload_id;
  _ ← lift_result (ensure_bucket_mutation_scope_for auth tenant_id (Some (ms_bucket session))
                     (Some (ms_key session)));
  _ ← lift_result (check_completion session (cq_parts request));
  c ← collect_listed_parts tenant_id upload_id (cq_parts request) None []
        (mkChunkRefCursor [] 0 0);
  if Nat.eqb (length (cc_chunk_refs c)) 0 then
    throw (validation_error "zero_sized_manifest" "complete multipart produced an empty object")
  else
  bucket ← require_bucket ds tenant_id (ms_bucket session);
  existing ← existing_binding ds auth tenant_id (bk_namespace bucket) (ms_key session);
  _ ← match existing with
      | Some _ => ensure_object_mutation_unlocked ds tenant_id (bk_bucket bucket)
                    (ms_key session) false auth
      | None => mret tt
      end;
  let existing_revision := rs_revision <$> existing in
  manifest ← multipart_manifest tenant_id session c;
  let cid := manifest_cid manifest in
  issued_at_ms ← now_ms;
  signed_record_b64 ← lift_result (sign_namespace_record ds
    (bind_record tenant_id (bk_namespace bucket) (ms_key session) cid existing_revision
       (ms_server_visible_metadata session) issued_at_ms));
  init ← put_init (ds_alpha ds) auth
    {| pi_tenant_id := tenant_id; pi_manifest := manifest;
       pi_idempotency_key := "complete-init-" +:+ ms_idempotency_key session;
       pi_encryption_profile_id := ms_encryption_profile_id session;
       pi_key_policy_id := ms_key_policy_id session;
       pi_metadata_visibility := ms_metadata_visibility session;
       pi_storage_class := ms_storage_class session;
       pi_atomic_bind := Some
         {| ab_namespace := bk_namespace bucket; ab_path := ms_key session;
            ab_if_revision := existing_revision;
            ab_metadata := ms_server_visible_metadata session; ab_ttl_ms := None;
            ab_signed_record_b64 := signed_record_b64 |} |};
  _ ← upload_listed_parts auth tenant_id upload_id (pr_session_id init) (cq_parts request) []
        (0, 0);
  committed ← put_commit (ds_alpha ds) auth
    {| cm_tenant_id := tenant_id; cm_session_id := pr_session_id init; cm_manifest_cid := cid;
       cm_idempotency_key := "complete-" +:+ ms_idempotency_key session |};
  _ ← dist_write_encrypted_json ds tenant_id MULTIPART_SESSIONS_STORE upload_id
        (mark_completed session);
  _ ← cleanup_multipart tenant_id upload_id (btree_set (cp_part_number <$> cq_parts request));
  mret {| por_bucket := bk_bucket bucket; por_key := ms_key session;
          por_object_cid := cmr_object_cid committed; por_manifest_cid := cid;
          por_etag := cmr_object_cid committed; por_event_seq := cmr_event_seq committed |}.

Definition abort_multipart_upload (auth : AuthContext) (request : AbortMultipartUploadRequest)
  : ST (World B) ApiError unit :=
  let tenant_id := aq_tenant_id request in
  let upload_id := aq_upload_id request in
  _ ← lift_result (ensure_tenant_matches auth tenant_id);
  session ← multipart_session tenant_id upload_id;
  _ ← lift_result (ensure_bucket_mutation_scope_for auth tenant_id (Some (ms_bucket session))
                     (Some (ms_key session)));
  parts ← multipart_parts tenant_id upload_id;
  _ ← cleanup_multipart tenant_id upload_id (btree_set (mpp_part_number <$> parts));
  dist_delete_store_key tenant_id MULTIPART_SESSIONS_STORE upload_id.
End multipart.
