(* ===== verification/SigV4.v ===== *)
(** * hsp-distribution: authentication of HTTP requests

    Models the authentication of [crates/hsp-distribution/src/lib.rs]: AWS
    Signature Version 4 in the header and in presigned URLs, capability tokens
    with a request proof, and edge tokens.  A [HeaderMap] is the list of its
    entries in insertion order, with lower-case names and values as bytes. *)

From Stdlib Require Import ZArith Lia Ascii String Bool.
From stdpp Require Import base option list strings gmap numbers sorting.
From S2P Require Import Prelude RustStr Path Core Cbor Auth Crypto Store ServiceState Chunker AmzDate Distribution.

(** ** Strings *)

(** [s.split(pattern)] for a non-empty pattern. *)
Fixpoint split_str_fuel (fuel : nat) (pattern s cur : string) : list string :=
  match fuel with
  | O => [cur +:+ s]
  | S f =>
      match strip_prefix pattern s with
      | Some rest => cur :: split_str_fuel f pattern rest ""
      | None =>
          match s with
          | EmptyString => [cur]
          | String c s' => split_str_fuel f pattern s' (cur +:+ String c "")
          end
      end
  end.
Definition split_str (pattern s : string) : list string :=
  split_str_fuel (S (String.length s)) pattern s "".

(** [s.contains(pattern)]. *)
Fixpoint str_contains (pattern s : string) : bool :=
  starts_with pattern s || match s with EmptyString => false | String _ s' => str_contains pattern s' end.

(** [s.split_once(c)] and [s.rsplit_once(c)]. *)
Fixpoint split_once (c : ascii) (s : string) : option (string * string) :=
  match s with
  | EmptyString => None
  | String x s' =>
      if Ascii.eqb x c then Some ("", s')
      else '(a, b) ← split_once c s'; Some (String x a, b)
  end.
Fixpoint rsplit_once (c : ascii) (s : string) : option (string * string) :=
  match s with
  | EmptyString => None
  | String x s' =>
      match rsplit_once c s' with
      | Some (a, b) => Some (String x a, b)
      | None => if Ascii.eqb x c then Some ("", s') else None
      end
  end.

(** [s.split_whitespace()]. *)
Fixpoint whitespace_words (fuel : nat) (b cur : bytes) : list string :=
  let flush := match cur with [] => [] | _ => [of_bytes cur] end in
  match fuel with
  | O => flush
  | S f =>
      match strip_any white_space_utf8 b with
      | Some rest => flush ++ whitespace_words f rest []
      | None =>
          match b with
          | [] => flush
          | c :: b' => whitespace_words f b' (cur ++ [c])
          end
      end
  end.
Definition split_whitespace (s : string) : list string :=
  whitespace_words (S (String.length s)) (as_bytes s) [].
Definition normalize_header_value (value : string) : string := join " " (split_whitespace value).

(** ** Headers *)

Definition HeaderMap : Type := list (string * bytes).
Definition header_get_all (headers : HeaderMap) (name : string) : list bytes :=
  snd <$> List.filter (λ h, String.eqb h.1 (to_ascii_lowercase name)) headers.
Definition header_get (headers : HeaderMap) (name : string) : option bytes :=
  match header_get_all headers name with v :: _ => Some v | [] => None end.
(** [HeaderValue::to_str]: visible ASCII and tabs. *)
Definition header_to_str (value : bytes) : option string :=
  if forallb (λ c, in_range 32 126 c || in_range 9 9 c) value then Some (of_bytes value) else None.

Record HttpRequestBinding := mkHttpRequestBinding {
  hb_method : string;
  hb_raw_path : string;
  hb_raw_query : string;
  hb_headers : HeaderMap;
  hb_body : bytes;
}.

Definition required_header (headers : HeaderMap) (name : string) : result ApiError string :=
  ok_or (v ← header_get headers name; header_to_str v)
    (auth_error "missing_required_header" ("required header `" +:+ name +:+ "` is missing")).

(** ** Parsing *)

Definition sigv4_error (message : string) : ApiError := auth_error "invalid_sigv4" message.
Definition presign_error (message : string) : ApiError := auth_error "invalid_presign" message.

Record ParsedSigV4Authorization := mkParsedSigV4Authorization {
  ps_access_key_id : string;
  ps_date : string;
  ps_region : string;
  ps_service : string;
  ps_credential_scope : string;
  ps_signed_headers : list string;
  ps_signature : string;
}.

Definition split_signed_headers (input : string) : list string :=
  to_ascii_lowercase <$> List.filter (λ value, negb (str_is_empty value)) (split_on ";"%char input).

Definition parse_sigv4_credential (credential : string)
  : result ApiError (string * string * string * string) :=
  match split_on slash credential with
  | [access_key_id; date; region; service; terminator] =>
      if String.eqb terminator "aws4_request" then Ok (access_key_id, date, region, service)
      else Err (sigv4_error "credential scope is malformed")
  | _ => Err (sigv4_error "credential scope is malformed")
  end.

(** The loop over the parts of the header: the last occurrence of each wins. *)
Fixpoint authorization_parts (parts : list string)
  (acc : option string * option (list string) * option string)
  : option string * option (list string) * option string :=
  match parts with
  | [] => acc
  | part :: rest =>
      let '(credential, signed_headers, signature) := acc in
      authorization_parts rest
        (match strip_prefix "Credential=" part with
         | Some value => (Some value, signed_headers, signature)
         | None =>
             match strip_prefix "SignedHeaders=" part with
             | Some value => (credential, Some (split_signed_headers value), signature)
             | None =>
                 match strip_prefix "Signature=" part with
                 | Some value => (credential, signed_headers, Some value)
                 | None => acc
                 end
             end
         end)
  end.

Definition credential_scope (date region service : string) : string :=
  date +:+ "/" +:+ region +:+ "/" +:+ service +:+ "/aws4_request".

Definition parse_sigv4_authorization (value : string) : result ApiError ParsedSigV4Authorization :=
  raw ← ok_or (strip_prefix "AWS4-HMAC-SHA256 " value)
    (sigv4_error "authorization header is not AWS4-HMAC-SHA256");
  let '(credential, signed_headers, signature) :=
    authorization_parts (split_str ", " raw) (None, None, None) in
  credential ← ok_or credential (sigv4_error "authorization header is missing Credential");
  '(access_key_id, date, region, service) ← parse_sigv4_credential credential;
  signed_headers ← ok_or signed_headers
    (sigv4_error "authorization header is missing SignedHeaders");
  signature ← ok_or signature (sigv4_error "authorization header is missing Signature");
  Ok {| ps_access_key_id := access_key_id; ps_date := date; ps_region := region;
        ps_service := service; ps_credential_scope := credential_scope date region service;
        ps_signed_headers := signed_headers; ps_signature := signature |}.

Fixpoint insert_pairs (error_code : string) (pairs : list string) (acc : gmap string string)
  : result ApiError (gmap string string) :=
  match pairs with
  | [] => Ok acc
  | segment :: rest =>
      let '(key, value) := default (segment, "") (split_once "=" segment) in
      if bool_decide (is_Some (acc !! key)) then
        Err (auth_error error_code
               ("duplicate query parameter `" +:+ key +:+ "` is not allowed"))
      else insert_pairs error_code rest (<[key := value]> acc)
  end.
Definition parse_unique_query_pairs (input error_code : string)
  : result ApiError (gmap string string) :=
  insert_pairs error_code
    (List.filter (λ segment, negb (str_is_empty segment)) (split_on "&"%char input)) ∅.

(** The pairs come in key order from the map, so the sort changes nothing. *)
Definition canonical_presign_query (params : gmap string string) : string :=
  join "&" ((λ '(key, value), key +:+ "=" +:+ value) <$>
            List.filter (λ '(key, _), negb (String.eqb key "X-Amz-Signature")) (btree_iter params)).

(** ** Canonical requests and signatures *)

Fixpoint windows_ascending (l : list string) : bool :=
  match l with
  | a :: ((b :: _) as rest) => negb (bool_decide (String.le b a)) && windows_ascending rest
  | _ => true
  end.

Definition validate_signed_headers (signed_headers : list string) : result ApiError unit :=
  if Nat.eqb (length signed_headers) 0 then
    Err (sigv4_error "signed headers list must not be empty")
  else if negb (existsb (λ header, String.eqb header "host") signed_headers) then
    Err (sigv4_error "signed headers must include host")
  else if negb (windows_ascending signed_headers) then
    Err (sigv4_error "signed headers must be lowercase, unique, and sorted")
  else if existsb (λ header, str_is_empty header
                             || negb (str_forallb (λ c, negb (in_range 65 90 c)) header))
            signed_headers then
    Err (sigv4_error "signed headers must be lowercase and non-empty")
  else Ok tt.

Definition required_single_signed_header (headers : HeaderMap) (name : string)
  : result ApiError string :=
  match header_get_all headers name with
  | [] => Err (sigv4_error ("missing signed header `" +:+ name +:+ "`"))
  | [value] => ok_or (header_to_str value)
                 (sigv4_error ("signed header `" +:+ name +:+ "` is not valid ASCII"))
  | _ => Err (sigv4_error ("duplicate signed header `" +:+ name +:+ "` is not allowed"))
  end.

Definition newline : string := String "010"%char "".

Fixpoint canonical_headers (headers : HeaderMap) (signed_headers : list string)
  : result ApiError string :=
  match signed_headers with
  | [] => Ok ""
  | header :: rest =>
      value ← required_single_signed_header headers header;
      tail ← canonical_headers headers rest;
      Ok (to_ascii_lowercase header +:+ ":" +:+ normalize_header_value value +:+ newline +:+ tail)
  end.

Definition canonical_sigv4_request (method raw_path raw_query : string) (headers : HeaderMap)
  (signed_headers : list string) (payload_hash : string) : result ApiError string :=
  _ ← validate_signed_headers signed_headers;
  canonical_headers ← canonical_headers headers signed_headers;
  Ok (method +:+ newline +:+ raw_path +:+ newline +:+ raw_query +:+ newline +:+
      canonical_headers +:+ newline +:+ join ";" signed_headers +:+ newline +:+ payload_hash).

Section signing.
Context `{DistDeps}.

Definition sigv4_string_to_sign (date credential_scope canonical_request : string) : string :=
  "AWS4-HMAC-SHA256" +:+ newline +:+ date +:+ newline +:+ credential_scope +:+ newline +:+
  hex_sha256 (as_bytes canonical_request).

(** [new_from_slice] accepts keys of any length, so this always succeeds. *)
Definition hmac_sha256 (key data : bytes) : result ApiError bytes := Ok (hmac_sha256_mac key data).

Definition sigv4_signature (secret_access_key date region service string_to_sign : string)
  : result ApiError string :=
  k_date ← hmac_sha256 (as_bytes ("AWS4" +:+ secret_access_key)) (as_bytes date);
  k_region ← hmac_sha256 k_date (as_bytes region);
  k_service ← hmac_sha256 k_region (as_bytes service);
  k_signing ← hmac_sha256 k_service (as_bytes "aws4_request");
  mac ← hmac_sha256 k_signing (as_bytes string_to_sign);
  Ok (hex_lower mac).
End signing.

(** ** Scopes *)

Definition scopes_for_http_method (method : string) : list CapabilityScope :=
  if String.eqb method "GET" || String.eqb method "HEAD" then [ScopeRead; ScopeList]
  else if String.eqb method "PUT" || String.eqb method "POST" || String.eqb method "DELETE" then
    [ScopeRead; ScopeWrite; ScopeBind; ScopeUnbind; ScopeList]
  else [ScopeRead].

Section authenticate.
Context `{DistDeps} `{!CborPayload CapabilityClaims} {B : Backend} `{BackendListing B}.
Context (ds : DistributionService).

Definition ensure_sigv4_time_window (issued_at_ms : Z) (error_code request_kind : string)
  : ST (World B) ApiError unit :=
  now ← now_ms;
  if u64_sat_add now MAX_SIGV4_CLOCK_SKEW_MS <? issued_at_ms then
    throw (auth_error error_code
      (request_kind +:+ " has a future X-Amz-Date outside the allowed clock skew"))
  else if MAX_SIGV4_CLOCK_SKEW_MS <? u64_sat_sub now issued_at_ms then
    throw (auth_error error_code
      (request_kind +:+ " is older than the allowed clock skew window"))
  else mret tt.

Definition sigv4_auth_context (record : SigV4AccessKeyRecord) (method signature : string)
  : ST (World B) ApiError AuthContext :=
  exp_now ← now_ms;
  nbf_now ← now_ms;
  mret {| claims :=
            {| iss := "sigv4"; sub := ak_access_key_id record; aud := "hsp-s3";
               exp := u64_sat_add exp_now 60000; nbf := Some (u64_sat_sub nbf_now 1000);
               jti := Some signature; ops := scopes_for_http_method method;
               cl_tenant_id := ak_tenant_id record;
               cl_namespace_prefix := ak_namespace_prefix record;
               cl_path_prefix := ak_path_prefix record;
               cl_max_object_size := ak_max_object_size record;
               cl_storage_classes :=
                 match ak_storage_classes record with
                 | [] => [DEFAULT_STORAGE_CLASS]
                 | classes => classes
                 end;
               cl_key_policy_id := Some (ak_key_policy_id record);
               cl_metadata_visibility := Some (ak_metadata_visibility record) |};
          channel_binding := Some (mkChannelBindingProof "sigv4" signature signature) |}.

(** ** Access keys *)

Fixpoint list_access_keys_of (tenants : list string)
  : ST (World B) ApiError (list SigV4AccessKeyRecord) :=
  match tenants with
  | [] => mret []
  | tenant :: rest =>
      let tenant_id := default tenant (decode_tenant_store_dir tenant) in
      records ← list_encrypted_json ds tenant_id DISTRIBUTION_METADATA_STORE;
      tail ← list_access_keys_of rest;
      mret (List.filter (λ record, negb (str_is_empty (ak_access_key_id record))) records ++ tail)
  end.

Definition list_all_access_keys : ST (World B) ApiError (list SigV4AccessKeyRecord) :=
  tenants ← on_store (b_list_child_dirs DISTRIBUTION_METADATA_STORE);
  records ← list_access_keys_of tenants;
  mret (List.filter (λ record, negb (str_is_empty (ak_access_key_id record))) records).

Definition sigv4_access_key (access_key_id : string) : ST (World B) ApiError SigV4AccessKeyRecord :=
  records ← list_all_access_keys;
  let matches := List.filter (λ record, String.eqb (ak_access_key_id record) access_key_id
                                        && ak_enabled record) records in
  lift_result (ok_or (match matches with record :: _ => Some record | [] => None end)
                 (sigv4_error "unknown SigV4 access key id")).

(** ** Signature Version 4 *)

Definition payload_hash_of (binding : HttpRequestBinding) : string :=
  default (hex_sha256 (hb_body binding))
    (v ← header_get (hb_headers binding) "x-amz-content-sha256"; header_to_str v).

Definition authenticate_header_sigv4 (binding : HttpRequestBinding)
  : ST (World B) ApiError AuthContext :=
  authorization ← lift_result (required_header (hb_headers binding) "authorization");
  parsed ← lift_result (parse_sigv4_authorization authorization);
  record ← sigv4_access_key (ps_access_key_id parsed);
  request_date ← lift_result (required_header (hb_headers binding) "x-amz-date");
  issued_at ← lift_result (parse_amz_date_with_code request_date "invalid_sigv4");
  _ ← ensure_sigv4_time_window issued_at "invalid_sigv4" "header-based SigV4 request";
  if negb (starts_with (ps_date parsed) request_date) then
    throw (sigv4_error "x-amz-date does not match credential scope date")
  else
  let payload_hash := payload_hash_of binding in
  if negb (String.eqb payload_hash "UNSIGNED-PAYLOAD")
     && negb (String.eqb payload_hash (hex_sha256 (hb_body binding))) then
    throw (sigv4_error "x-amz-content-sha256 does not match request body")
  else
  canonical ← lift_result (canonical_sigv4_request (hb_method binding) (hb_raw_path binding)
    (hb_raw_query binding) (hb_headers binding) (ps_signed_headers parsed) payload_hash);
  let string_to_sign := sigv4_string_to_sign request_date (ps_credential_scope parsed) canonical in
  expected ← lift_result (sigv4_signature (ak_secret_access_key record) (ps_date parsed)
    (ps_region parsed) (ps_service parsed) string_to_sign);
  if negb (String.eqb expected (ps_signature parsed)) then
    throw (sigv4_error "AWS Signature V4 verification failed")
  else sigv4_auth_context record (hb_method binding) (ps_signature parsed).

Definition authenticate_presigned_sigv4 (binding : HttpRequestBinding)
  : ST (World B) ApiError AuthContext :=
  params ← lift_result (parse_unique_query_pairs (hb_raw_query binding) "invalid_presign");
  let param name message := lift_result (ok_or (params !! name) (presign_error message)) in
  if negb (String.eqb (default "" (params !! "X-Amz-Algorithm")) "AWS4-HMAC-SHA256") then
    throw (presign_error "unsupported presign algorithm")
  else
  credential ← param "X-Amz-Credential" "presigned URL is missing X-Amz-Credential";
  signed_headers ← param "X-Amz-SignedHeaders" "presigned URL is missing X-Amz-SignedHeaders";
  signature ← param "X-Amz-Signature" "presigned URL is missing X-Amz-Signature";
  date ← param "X-Amz-Date" "presigned URL is missing X-Amz-Date";
  expires ← lift_result (ok_or (v ← params !! "X-Amz-Expires"; parse_u64 v)
              (presign_error "presigned URL has invalid X-Amz-Expires"));
  if MAX_PRESIGN_EXPIRES_SEC <? expires then
    throw (presign_error "presigned URL exceeds the maximum allowed expiry window")
  else
  issued_at ← lift_result (parse_amz_date_with_code date "invalid_presign");
  _ ← ensure_sigv4_time_window issued_at "invalid_presign" "presigned URL";
  now ← now_ms;
  if u64_sat_add issued_at (expires * 1000) <? now then
    throw (presign_error "presigned URL has expired")
  else
  '(access_key_id, date_scope, region, service) ← lift_result (parse_sigv4_credential credential);
  record ← sigv4_access_key access_key_id;
  canonical ← lift_result (canonical_sigv4_request (hb_method binding) (hb_raw_path binding)
    (canonical_presign_query params) (hb_headers binding) (split_signed_headers signed_headers)
    "UNSIGNED-PAYLOAD");
  let string_to_sign :=
    sigv4_string_to_sign date (credential_scope date_scope region service) canonical in
  expected ← lift_result (sigv4_signature (ak_secret_access_key record) date_scope region service
    string_to_sign);
  if negb (String.eqb expected signature) then
    throw (presign_error "presigned URL verification failed")
  else
  created_at_ms ← now_ms;
  let token_id := cid_from_bytes (as_bytes (hb_raw_query binding)) in
  _ ← dist_write_encrypted_json ds (ak_tenant_id record) PRESIGN_AUDIT_STORE token_id
    {| pa_token_id := token_id; pa_tenant_id := ak_tenant_id record;
       pa_method := hb_method binding; pa_bucket := None; pa_key := None; pa_cid := None;
       pa_expires_at_ms := u64_sat_add issued_at (expires * 1000);
       pa_created_at_ms := created_at_ms |};
  sigv4_auth_context record (hb_method binding) signature.

Definition authenticate_sigv4 (binding : HttpRequestBinding) : ST (World B) ApiError AuthContext :=
  if str_contains "X-Amz-Signature=" (hb_raw_query binding)
  then authenticate_presigned_sigv4 binding
  else authenticate_header_sigv4 binding.

(** ** Capability tokens *)

Definition authenticate_hsp_capability (binding : HttpRequestBinding)
  : result ApiError AuthContext :=
  token_b64 ← required_header (hb_headers binding) "x-hsp-capability";
  nonce ← required_header (hb_headers binding) "x-hsp-request-nonce";
  proof_b64 ← required_header (hb_headers binding) "x-hsp-request-proof";
  c ← verify_cose_sign1_token token_b64 (ds_issuer_registry ds);
  if negb (String.eqb (aud c) (dc_capability_audience (ds_config ds))) then
    Err (auth_error "invalid_token_audience"
           "capability token audience is not allowed for distribution surfaces")
  else
  let payload_hash := hex_sha256 (hb_body binding) in
  let expected := b64url_encode (sha256 (as_bytes
    (token_b64 +:+ newline +:+ hb_method binding +:+ newline +:+ hb_raw_path binding +:+ newline
     +:+ hb_raw_query binding +:+ newline +:+ payload_hash +:+ newline +:+ nonce))) in
  if negb (String.eqb proof_b64 expected) then
    Err (auth_error "invalid_request_binding"
           "request binding proof does not match the canonical request")
  else Ok {| claims := c;
             channel_binding := Some (mkChannelBindingProof "request-signature" proof_b64 nonce) |}.

(** ** Edge tokens *)

Definition validate_edge_signing_secret (secret : bytes) : result ApiError unit :=
  let forbidden_default :=
    existsb (λ literal, eq_ignore_ascii_case (of_bytes secret) literal)
      DEFAULT_EDGE_SIGNING_SECRET_LITERALS in
  if (len_u64 secret <? MIN_RUNTIME_SECRET_BYTES) || forbidden_default then
    Err (mkApiError CatPolicy "weak_edge_signing_secret"
           "edge signing secret must be configured explicitly and must not use a default value")
  else Ok tt.

Definition edge_signature (payload_b64 : string) : result ApiError string :=
  Ok (b64url_encode (hmac_sha256_mac (ds_edge_signing_secret ds) (as_bytes payload_b64))).

Definition mint_edge_token (c : EdgeTokenClaims) : result ApiError string :=
  payload ← map_err storage_serialize_error (edge_claims_to_vec c);
  let payload_b64 := b64url_encode payload in
  signature ← edge_signature payload_b64;
  Ok (payload_b64 +:+ "." +:+ signature).

Definition decode_edge_token (token : string) : ST (World B) ApiError EdgeTokenClaims :=
  '(payload_b64, signature) ← lift_result (ok_or (split_once "." token)
    (auth_error "edge_token_malformed" "edge token must contain payload and signature"));
  expected ← lift_result (edge_signature payload_b64);
  if negb (String.eqb expected signature) then
    throw (auth_error "invalid_edge_token" "edge token signature is invalid")
  else
  payload ← lift_result (ok_or (b64url_decode payload_b64)
    (auth_error "invalid_edge_token" "edge token payload is not valid base64url"));
  c ← lift_result (map_err storage_deserialize_error (edge_claims_from_slice payload));
  now ← now_ms;
  if et_exp c <? now then throw (auth_error "edge_token_expired" "edge token has expired")
  else mret c.

Definition ensure_edge_token_method (c : EdgeTokenClaims) (request_method : string)
  : result ApiError unit :=
  if eq_ignore_ascii_case (et_method c) request_method then Ok tt
  else Err (auth_error "invalid_edge_token_method"
              "edge token method does not match the request method").

Definition authenticate_edge_token (token request_method : string)
  : ST (World B) ApiError AuthContext :=
  c ← decode_edge_token token;
  _ ← lift_result (ensure_edge_token_method c request_method);
  now ← now_ms;
  mret {| claims :=
            {| iss := "hsp-cdn"; sub := "edge"; aud := "hsp-cdn"; exp := et_exp c;
               nbf := Some (u64_sat_sub now 1000);
               jti := Some (cid_from_bytes (as_bytes token)); ops := [ScopeRead];
               cl_tenant_id := et_tenant_id c; cl_namespace_prefix := et_bucket c;
               cl_path_prefix := et_key c; cl_max_object_size := None;
               cl_storage_classes := [DEFAULT_STORAGE_CLASS]; cl_key_policy_id := None;
               cl_metadata_visibility := None |};
          channel_binding := Some
            {| cb_binding_kind := "edge-token";
               cb_proof_b64 := from_option snd "" (rsplit_once "." token);
               cb_nonce := from_option fst "" (split_once "." token) |} |}.
End authenticate.
