(* ===== verification/DistFacts.v ===== *)
(** * hsp-distribution: laws of its store and frames of its operations

    [dist_stored] is the decrypted, parsed record a map holds under a tenant, kind
    and key of the distribution service.  [confined t kinds] is the frame of an
    operation that touches nothing but files in the directories of tenant [t] of
    these kinds, whatever it returns; it is weaker than the [keeps] of the service
    and holds of both services' operations. *)

From Stdlib Require Import ZArith Lia Ascii String Bool.
From stdpp Require Import base option list strings gmap numbers sorting.
From S2P Require Import Prelude RustStr Path Core Cbor CborFacts Auth Crypto Store ServiceState ServiceFacts Access Namespaces Objects Chunker Distribution Buckets DistObjects Multipart.

(** [serde_json] does not accept a document cut short: an envelope is a JSON
    object, whose last byte closes it. *)
Class EnvelopePrefixLaw `{Deps} : Prop :=
  envelope_prefix : ∀ (env : StoredEnvelope) b n,
    to_vec_pretty env = Ok b → (n < length b)%nat →
    is_ok (from_slice (take n b) : result string StoredEnvelope) = false.

(** ** Subsets of closed lists, by evaluation *)

Definition subsetb (a b : list string) : bool := forallb (λ x, bool_decide (x ∈ b)) a.
Lemma subsetb_sound a b : subsetb a b = true → a ⊆ b.
Proof.
  unfold subsetb. rewrite forallb_forall. intros Hall x Hx%list_elem_of_In.
  by apply Hall, bool_decide_eq_true in Hx.
Qed.
Ltac sub_kinds := apply subsetb_sound; vm_compute; reflexivity.

(** The successful end of a run, by evaluation. *)
Lemma run_ok {S E A} (m : ST S E A) w : is_ok (m w).1 = true → ∃ a w', m w = (Ok a, w').
Proof. destruct (m w) as [[a|e] w']; [by exists a, w'|done]. Qed.

Section directories.
Context `{DL : DepsLaws}.

(** ** Directories *)

Definition in_dir (t : TenantId) (k name : string) : Prop :=
  ∃ file, name = k +:+ "/" +:+ tenant_store_dir t +:+ "/" +:+ file.

Lemma dist_key_in_dir t k key : in_dir t k (dist_store_key t k key).
Proof. by eexists. Qed.
Lemma store_key_in_dir t k key : in_dir t k (store_key t k key).
Proof. by eexists. Qed.

(** A file is in the directory of one tenant and one kind. *)
Lemma in_dir_unique t k t' k' name :
  slash_free k = true → slash_free k' = true → in_dir t k name → in_dir t' k' name →
  t = t' ∧ k = k'.
Proof.
  unfold slash_free. intros Hk%negb_true_iff Hk'%negb_true_iff [f ->] [f' Heq]. revert Heq.
  change "/" with (String "/"%char ""). rewrite !str_app_cons, !str_app_nil_l.
  intros [-> Heq]%str_split_first; [|done..].
  apply str_split_first in Heq as [Hd _]; [|apply tenant_store_dir_no_slash..].
  apply (f_equal b64url_decode) in Hd. unfold tenant_store_dir in Hd.
  rewrite !b64url_decode_encode in Hd. injection Hd as Hd. split; [by apply (inj as_bytes)|done].
Qed.

End directories.

Section facts.
Context `{DDL : DistDepsLaws} {B : Backend} `{BL : BackendLaws B} `{L : BackendListing B}.
Context `{!BackendListingLaws B} (ds : DistributionService) `{KL : !KmsLaws (ds_store_kms ds)}.
Implicit Types w : World B.

(** ** Stored records *)

Definition dist_stored_bytes (f : gmap string bytes) (t : TenantId) (k key : string)
  : option bytes :=
  b ← f !! dist_store_key t k key; result_ok (dist_decrypt ds t k b).
Definition dist_stored {T} `{Json T} (f : gmap string bytes) (t : TenantId) (k key : string)
  : option T :=
  b ← dist_stored_bytes f t k key; result_ok (from_slice b).

Lemma dist_stored_bytes_ext f f' t k key :
  f' !! dist_store_key t k key = f !! dist_store_key t k key →
  dist_stored_bytes f' t k key = dist_stored_bytes f t k key.
Proof. unfold dist_stored_bytes. by intros ->. Qed.
Lemma dist_stored_ext {T} `{Json T} f f' t k key :
  f' !! dist_store_key t k key = f !! dist_store_key t k key →
  dist_stored (T:=T) f' t k key = dist_stored f t k key.
Proof. unfold dist_stored. intros Heq. by rewrite (dist_stored_bytes_ext f f'). Qed.

(** ** Reads and writes *)

Lemma dist_read_bytes_spec t k key w :
  files (dist_read_encrypted_bytes ds t k key w).2 = files w ∧
  ∀ o, (dist_read_encrypted_bytes ds t k key w).1 = Ok o →
       o = dist_stored_bytes (files w) t k key ∧
       (o = None → files w !! dist_store_key t k key = None).
Proof.
  unfold dist_read_encrypted_bytes. rewrite ST_bind_run, on_store_run.
  destruct (b_read_view (dist_store_key t k key) (w_store w)) as [Hv Hr].
  destruct (b_read B (dist_store_key t k key) (w_store w)) as [[o|e] s] eqn:Er; cbn in *; [|done].
  specialize (Hr o eq_refl). unfold dist_stored_bytes. fold (files w) in Hr. rewrite <-Hr.
  destruct o as [b|]; cbn; [|split; [done|]; intros ? [= <-]; done].
  rewrite ST_bind_run. unfold lift_result.
  destruct (dist_decrypt ds t k b) as [p|e]; cbn; [|done].
  split; [done|]. by intros ? [= <-].
Qed.

Lemma dist_read_json_spec {T} `{Json T} t k key w :
  files (dist_read_encrypted_json (T:=T) ds t k key w).2 = files w ∧
  ∀ o, (dist_read_encrypted_json (T:=T) ds t k key w).1 = Ok o →
       o = dist_stored (files w) t k key ∧
       (o = None → files w !! dist_store_key t k key = None).
Proof.
  unfold dist_read_encrypted_json, dist_stored. rewrite ST_bind_run.
  destruct (dist_read_bytes_spec t k key w) as [Hf Ho].
  destruct (dist_read_encrypted_bytes ds t k key w) as [[o|e] w1]; cbn in *; [|done].
  destruct (Ho o eq_refl) as [<- Hn]. destruct o as [b|]; cbn.
  - rewrite ST_bind_run. unfold lift_result. destruct (from_slice b); cbn; [|done].
    split; [done|]. by intros ? [= <-].
  - split; [done|]. intros ? [= <-]. auto.
Qed.

Lemma dist_encrypt_files t k b w : files (dist_encrypt ds t k b w).2 = files w.
Proof. unfold dist_encrypt, zoom. by destruct (kms_encrypt _ _ _ _ _). Qed.

(** A write either fails before the backend is called, or is the backend's write;
    after a success the value is stored. *)
Lemma dist_write_bytes_spec t k key b w :
  let r := dist_write_encrypted_bytes ds t k key b w in
  agree_off (dist_store_key t k key) (files w) (files r.2) ∧
  (r.1 = Ok tt → dist_stored_bytes (files r.2) t k key = Some b).
Proof.
  cbn zeta. unfold dist_write_encrypted_bytes, map_error. rewrite ST_bind_run, ST_bind_run.
  unfold attempt. pose proof (dist_encrypt_files t k b w) as Hf.
  destruct (dist_encrypt ds t k b w) as [[env|e] w1] eqn:Ee; cbn in Hf |- *;
    [|by rewrite Hf].
  rewrite <-Hf. unfold dist_write_envelope. rewrite ST_bind_run. unfold lift_result.
  destruct (to_vec_pretty env) as [x|e] eqn:Hx; cbn; [|done]. rewrite on_store_run. cbn.
  destruct (b_write_view (dist_store_key t k key) x (w_store w1)) as [Ha Hi].
  split; [done|]. intros Hok. rewrite files_set_store, (Hi Hok).
  unfold dist_stored_bytes. rewrite lookup_insert_eq. cbn. unfold dist_decrypt.
  rewrite (from_slice_to_vec _ _ Hx). cbn. unfold dist_encrypt, zoom in Ee.
  destruct (kms_encrypt (ds_store_kms ds) t k b (w_draws w)) as [r d] eqn:Henc.
  injection Ee as -> _. by rewrite (kms_decrypt_encrypt _ _ _ _ _ _ Henc).
Qed.

Lemma dist_write_json_spec {T} `{Json T} `{!JsonLaws T} t k key (v : T) w :
  let r := dist_write_encrypted_json ds t k key v w in
  agree_off (dist_store_key t k key) (files w) (files r.2) ∧
  (r.1 = Ok tt → dist_stored (files r.2) t k key = Some v).
Proof.
  cbn zeta. unfold dist_write_encrypted_json. rewrite ST_bind_run. unfold lift_result.
  destruct (to_vec_pretty v) as [b|e] eqn:Hb; cbn; [|done].
  destruct (dist_write_bytes_spec t k key b w) as [Ha Hs]. split; [done|].
  intros Hok. unfold dist_stored. rewrite (Hs Hok). cbn. by rewrite (from_slice_to_vec _ _ Hb).
Qed.

Lemma dist_delete_spec t k key w :
  let r := dist_delete_store_key t k key w in
  agree_off (dist_store_key t k key) (files w) (files r.2) ∧
  (r.1 = Ok tt → files r.2 = delete (dist_store_key t k key) (files w)).
Proof. cbn zeta. unfold dist_delete_store_key. rewrite on_store_run. apply b_delete_view. Qed.

(** Successful runs. *)
Lemma dist_read_json_ok {T} `{Json T} t k key w (o : option T) w' :
  dist_read_encrypted_json ds t k key w = (Ok o, w') →
  files w' = files w ∧ o = dist_stored (files w) t k key ∧
  (o = None → files w !! dist_store_key t k key = None).
Proof.
  intros Hr. destruct (dist_read_json_spec (T:=T) t k key w) as [Hf Ho]. rewrite Hr in Hf, Ho.
  by destruct (Ho o eq_refl).
Qed.
Lemma dist_read_bytes_ok t k key w o w' :
  dist_read_encrypted_bytes ds t k key w = (Ok o, w') →
  files w' = files w ∧ o = dist_stored_bytes (files w) t k key.
Proof.
  intros Hr. destruct (dist_read_bytes_spec t k key w) as [Hf Ho]. rewrite Hr in Hf, Ho.
  by destruct (Ho o eq_refl).
Qed.
Lemma dist_write_json_ok {T} `{Json T} `{!JsonLaws T} t k key (v : T) w u w' :
  dist_write_encrypted_json ds t k key v w = (Ok u, w') →
  agree_off (dist_store_key t k key) (files w) (files w') ∧
  dist_stored (files w') t k key = Some v.
Proof.
  intros Hr. destruct (dist_write_json_spec t k key v w) as [Ha Hs]. rewrite Hr in Ha, Hs.
  destruct u. auto.
Qed.

(** ** Listings *)

Lemma list_json_files {T} `{Json T} t k w :
  files (list_encrypted_json (T:=T) ds t k w).2 = files w.
Proof.
  unfold list_encrypted_json. cbn zeta. rewrite ST_bind_run, on_store_run.
  match goal with |- context [b_list_values ?p _] =>
    destruct (b_list_values_view p (w_store w)) as [Hv _];
    destruct (b_list_values p (w_store w)) as [[l|e] s] end; done.
Qed.

Lemma decrypt_items_sound {T} `{Json T} t k values (items : list T) v :
  decrypt_items ds t k values = Ok items → v ∈ items →
  ∃ b p, b ∈ values ∧ dist_decrypt ds t k b = Ok p ∧ from_slice p = Ok v.
Proof.
  revert items. induction values as [|b values IH]; intros items.
  - intros [= <-]. by intros ?%not_elem_of_nil.
  - cbn [decrypt_items]. intros (p & Hp & Hb)%result_bind_ok.
    apply result_bind_ok in Hb as (rest & Hrest & [= <-]). intros Hin.
    destruct (from_slice p) as [v'|e] eqn:Ev.
    + apply elem_of_cons in Hin as [->|Hin].
      * exists b, p. split_and!; [left|done|done].
      * destruct (IH rest Hrest Hin) as (b' & p' & ? & ?). exists b', p'. split; [by right|done].
    + destruct (IH rest Hrest Hin) as (b' & p' & ? & ?). exists b', p'. split; [by right|done].
Qed.

(** Everything listed is stored in the directory that was listed. *)
Lemma list_json_sound {T} `{Json T} t k w (items : list T) w' v :
  list_encrypted_json ds t k w = (Ok items, w') → v ∈ items →
  ∃ name b p, in_dir t k name ∧ files w !! name = Some b ∧
    dist_decrypt ds t k b = Ok p ∧ from_slice p = Ok v.
Proof.
  unfold list_encrypted_json. cbn zeta. rewrite ST_bind_run, on_store_run.
  set (prefix := k +:+ "/" +:+ dist_tenant_store_dir t +:+ "/").
  destruct (b_list_values_view prefix (w_store w)) as [_ Hl].
  destruct (b_list_values prefix (w_store w)) as [[l|e] s]; cbn in Hl |- *; [|done].
  destruct (Hl l eq_refl) as (names & _ & Hnames & Hall). unfold lift_result.
  intros [= Hd _] Hin. destruct (decrypt_items_sound _ _ _ _ _ Hd Hin) as (b & p & Hb & Hp & Hv).
  apply list_elem_of_lookup in Hb as [i Hi].
  destruct (Forall2_lookup_r _ _ _ _ _ Hall Hi) as (name & Hname & Hf).
  exists name, b, p. split_and!; [|done..].
  apply list_elem_of_lookup_2 in Hname. apply Hnames in Hname as [_ [f Hentry]].
  unfold dir_entry in Hentry. destruct (strip_prefix prefix name) as [r|] eqn:Es; [|done].
  apply strip_prefix_Some in Es. exists r. subst name prefix.
  by rewrite !str_app_assoc.
Qed.
End facts.

(** ** Frames *)

Section confined.
Context `{DL : DepsLaws} {B : Backend} `{BL : BackendLaws B}.
Implicit Types w : World B.

Definition confined (t : TenantId) (kinds : list string) (w w' : World B) : Prop :=
  ∀ name, (∀ k, k ∈ kinds → ¬ in_dir t k name) → files w' !! name = files w !! name.

#[global] Instance confined_preorder t kinds : PreOrder (confined t kinds).
Proof.
  split; [by intros w name|]. intros w1 w2 w3 H12 H23 name Hn. by rewrite H23, H12.
Qed.

Lemma confined_weaken t kinds kinds' w w' :
  kinds ⊆ kinds' → confined t kinds w w' → confined t kinds' w w'.
Proof. intros Hsub Hc name Hn. apply Hc. intros k Hin. by apply Hn, Hsub. Qed.
Lemma confined_same t kinds w w' : files w' = files w → confined t kinds w w'.
Proof. by intros Heq name _; rewrite Heq. Qed.

Lemma preserves_confined_weaken {E A} t kinds kinds' (m : ST (World B) E A) :
  kinds ⊆ kinds' → preserves (confined t kinds) m → preserves (confined t kinds') m.
Proof. intros Hsub Hm w. by eapply confined_weaken. Qed.
(** What keeps to the keys of the service keeps to its directories. *)
Lemma confined_keeps {E A} t t' kinds kinds' (m : ST (World B) E A) :
  preserves (keeps t' kinds) m → t' = t → kinds ⊆ kinds' → preserves (confined t kinds') m.
Proof.
  intros Hm -> Hsub w name Hn. apply Hm. intros k key Hin ->.
  eapply Hn; [by apply Hsub|]. apply store_key_in_dir.
Qed.
Lemma confined_files {E A} t kinds (m : ST (World B) E A) :
  (∀ w, files (m w).2 = files w) → preserves (confined t kinds) m.
Proof. intros Hm w. by apply confined_same. Qed.
Lemma confined_zoom_draws {E A} t kinds (m : ST nat E A) :
  preserves (confined t kinds) (zoom w_draws (set_draws (B:=B)) m).
Proof. apply confined_files. intros w. unfold zoom. by destruct (m (w_draws w)). Qed.
Lemma confined_now {E} t kinds : preserves (confined t kinds) (now_ms (E:=E) (B:=B)).
Proof. by apply confined_files. Qed.
Lemma confined_map_error {E F A} t kinds (f : E → F) (m : ST (World B) E A) :
  preserves (confined t kinds) m → preserves (confined t kinds) (map_error f m).
Proof.
  intros Hm. unfold map_error. apply preserves_bind; [apply _|by apply preserves_attempt|].
  intros r. apply preserves_lift, _.
Qed.

(** Files outside the directories are untouched. *)
Lemma confined_lookup t kinds w w' t' k name :
  confined t kinds w w' → Forall (λ x, slash_free x = true) kinds → slash_free k = true →
  in_dir t' k name → (k ∉ kinds ∨ t' ≠ t) → files w' !! name = files w !! name.
Proof.
  intros Hc Hfree Hk Hin Hne. apply Hc. intros k' Hk' Hin'.
  rewrite Forall_forall in Hfree.
  destruct (in_dir_unique _ _ _ _ _ Hk (Hfree k' Hk') Hin Hin') as [-> ->]. by destruct Hne.
Qed.
End confined.

Section primitives.
Context `{DDL : DistDepsLaws} {B : Backend} `{BL : BackendLaws B} `{L : BackendListing B}.
Context `{LL : !BackendListingLaws B} (ds : DistributionService) `{KL : !KmsLaws (ds_store_kms ds)}.
Context (t : TenantId) (kinds : list string).
Implicit Types w : World B.

Lemma confined_off {A} k key (m : ST (World B) ApiError A) :
  k ∈ kinds → (∀ w, agree_off (dist_store_key t k key) (files w) (files (m w).2)) →
  preserves (confined t kinds) m.
Proof.
  intros Hin Hm w name Hn. eapply agree_off_lookup; [apply Hm|].
  intros ->. eapply Hn; [done|]. apply dist_key_in_dir.
Qed.
Lemma confined_read_json {T} `{Json T} t' k key :
  preserves (confined t kinds) (dist_read_encrypted_json (T:=T) (B:=B) ds t' k key).
Proof using DDL BL. apply confined_files. intros w. apply dist_read_json_spec. Qed.
Lemma confined_read_bytes t' k key :
  preserves (confined t kinds) (dist_read_encrypted_bytes (B:=B) ds t' k key).
Proof using DDL BL. apply confined_files. intros w. apply dist_read_bytes_spec. Qed.
Lemma confined_list_json {T} `{Json T} t' k :
  preserves (confined t kinds) (list_encrypted_json (T:=T) (B:=B) ds t' k).
Proof using DDL BL LL. apply confined_files. intros w. apply list_json_files. Qed.
Lemma confined_write_json {T} `{Json T} `{!JsonLaws T} k key (v : T) :
  k ∈ kinds → preserves (confined t kinds) (dist_write_encrypted_json (B:=B) ds t k key v).
Proof using DDL BL KL.
  intros Hk. apply (confined_off k key); [done|]. intros w. apply dist_write_json_spec; apply _.
Qed.
Lemma confined_write_bytes k key b :
  k ∈ kinds → preserves (confined t kinds) (dist_write_encrypted_bytes (B:=B) ds t k key b).
Proof using DDL BL KL.
  intros Hk. apply (confined_off k key); [done|]. intros w. apply dist_write_bytes_spec; apply _.
Qed.
Lemma confined_delete k key :
  k ∈ kinds → preserves (confined t kinds) (dist_delete_store_key (B:=B) t k key).
Proof using DDL BL.
  intros Hk. apply (confined_off k key); [done|]. intros w. apply dist_delete_spec.
Qed.

(** The operations of the service. *)
Lemma confined_put_init auth request :
  pi_tenant_id request = t → upload_kinds ⊆ kinds →
  preserves (confined t kinds) (put_init (B:=B) (ds_alpha ds) auth request).
Proof using DDL BL. intros. by eapply confined_keeps; [apply frame_put_init|..]. Qed.
Lemma confined_put_chunk auth request chunk :
  pc_tenant_id request = t → upload_kinds ⊆ kinds →
  preserves (confined t kinds) (put_chunk (B:=B) (ds_alpha ds) auth request chunk).
Proof using DDL BL. intros. by eapply confined_keeps; [apply frame_put_chunk|..]. Qed.
Lemma confined_put_commit auth request :
  cm_tenant_id request = t → upload_kinds ⊆ kinds →
  preserves (confined t kinds) (put_commit (B:=B) (ds_alpha ds) auth request).
Proof using DDL BL. intros. by eapply confined_keeps; [apply frame_put_commit|..]. Qed.
Lemma confined_get auth request :
  gq_tenant_id request = t → access_kinds ⊆ kinds →
  preserves (confined t kinds) (get (B:=B) (ds_alpha ds) auth request).
Proof using DDL BL. intros. by eapply confined_keeps; [apply frame_get|..]. Qed.
Lemma confined_resolve auth request :
  rq_tenant_id request = t → access_kinds ⊆ kinds →
  preserves (confined t kinds) (resolve_op (B:=B) (ds_alpha ds) auth request).
Proof using DDL BL. intros. by eapply confined_keeps; [apply frame_resolve_op|..]. Qed.
Lemma confined_list auth request :
  lq_tenant_id request = t → access_kinds ⊆ kinds →
  preserves (confined t kinds) (list_op (B:=B) (ds_alpha ds) auth request).
Proof using DDL BL. intros. by eapply confined_keeps; [apply frame_list_op|..]. Qed.
Lemma confined_bind auth request :
  br_tenant_id request = t → namespace_kinds ⊆ kinds →
  preserves (confined t kinds) (bind (B:=B) (ds_alpha ds) auth request).
Proof using DDL BL.
  intros. eapply confined_keeps; [by apply (frame_bind_internal _ _ _ _ namespace_kinds)|..]; done.
Qed.
Lemma confined_unbind auth request :
  ur_tenant_id request = t → namespace_kinds ⊆ kinds →
  preserves (confined t kinds) (unbind (B:=B) (ds_alpha ds) auth request).
Proof using DDL BL. intros. by eapply confined_keeps; [apply frame_unbind_internal|..]. Qed.
End primitives.

(** [confine] proves [preserves (confined t kinds) m] along the structure of [m]. *)
Create HintDb hsp_confined.
#[export] Hint Resolve confined_now confined_read_json confined_read_bytes confined_list_json
  confined_write_json confined_write_bytes confined_delete confined_zoom_draws confined_put_init
  confined_put_chunk confined_put_commit confined_get confined_resolve confined_list
  confined_bind confined_unbind : hsp_confined.
#[export] Hint Extern 1 (_ ∈ _) => in_kinds : hsp_confined.
#[export] Hint Extern 1 (_ ⊆ _) => sub_kinds : hsp_confined.
#[export] Hint Extern 1 (_ = _) => reflexivity : hsp_confined.
Ltac confine_step :=
  lazymatch goal with
  | |- ∀ _, _ => intros ?
  | |- preserves _ (match ?x with _ => _ end) => destruct x
  | |- preserves _ (mret _) => apply preserves_ret, _
  | |- preserves _ (throw _) => apply preserves_throw, _
  | |- preserves _ (lift_result _) => apply preserves_lift, _
  | |- preserves _ (_ ≫= _) => apply preserves_bind; [apply _| |]
  | |- preserves _ (attempt _) => apply preserves_attempt
  | |- preserves _ (map_error _ _) => apply confined_map_error
  | |- preserves _ _ => solve [eauto 3 with hsp_confined nocore typeclass_instances]
  end.
Ltac confine := repeat (cbn zeta beta; confine_step).
