(* ===== verification/DistService.v ===== *)
(** * hsp-distribution: the whole interface, and its frames

    [DistCall] is the public interface of [DistributionService] for authenticated
    callers as data, [run_dist_call] its dispatch and [run_dist_calls] a sequence
    of calls on one world.  Each operation is confined to the directories of its
    tenant, and only two of them write object locks. *)

From Stdlib Require Import ZArith Lia Ascii String Bool.
From stdpp Require Import base option list strings gmap numbers sorting.
From S2P Require Import Prelude RustStr Path Core Cbor CborFacts Auth Crypto Store ServiceState ServiceFacts Access Namespaces Objects Service Chunker Distribution Buckets DistObjects Multipart DistFacts.

Inductive DistCall :=
| CallCreateBucket (tenant_id : TenantId) (bucket : string)
| CallListBuckets (tenant_id : TenantId)
| CallHeadBucket (tenant_id : TenantId) (bucket : string)
| CallDeleteBucket (tenant_id : TenantId) (bucket : string)
| CallPutBucketAcl (tenant_id : TenantId) (bucket : string) (acl : CannedAcl)
| CallGetBucketAcl (tenant_id : TenantId) (bucket : string)
| CallPutObjectAcl (tenant_id : TenantId) (bucket key : string) (acl : CannedAcl)
| CallGetObjectAcl (tenant_id : TenantId) (bucket key : string)
| CallPutLifecycle (config : LifecycleConfig)
| CallGetLifecycle (tenant_id : TenantId) (bucket : string)
| CallDeleteLifecycle (tenant_id : TenantId) (bucket : string)
| CallPutRetention (tenant_id : TenantId) (bucket key : string)
    (immutable_until_ms : option Z) (mode : option string)
| CallPutLegalHold (tenant_id : TenantId) (bucket key : string) (legal_hold : bool)
| CallGetObjectLock (tenant_id : TenantId) (bucket key : string)
| CallPutWebsite (config : WebsiteConfig)
| CallGetWebsite (tenant_id : TenantId) (bucket : string)
| CallDeleteWebsite (tenant_id : TenantId) (bucket : string)
| CallPutReplication (config : ReplicationConfig)
| CallGetReplication (tenant_id : TenantId) (source_bucket : string)
| CallGetReplicationStatus (tenant_id : TenantId) (source_bucket : string)
| CallDeleteReplication (tenant_id : TenantId) (source_bucket : string)
| CallRunReplication (tenant_id : TenantId) (source_bucket : string)
| CallPutObject (request : PutObjectRequest) (payload : bytes)
| CallHeadObject (request : HeadObjectRequest)
| CallGetObject (request : GetObjectRequest)
| CallDeleteObject (request : DeleteObjectRequest)
| CallListObjects (request : ListObjectsRequest)
| CallCopyObject (request : CopyObjectRequest)
| CallCreateMultipart (request : CreateMultipartUploadRequest)
| CallUploadPart (request : UploadPartRequest) (ciphertext_part : bytes)
| CallCompleteMultipart (request : CompleteMultipartUploadRequest)
| CallAbortMultipart (request : AbortMultipartUploadRequest).

Definition dist_call_tenant (c : DistCall) : TenantId :=
  match c with
  | CallCreateBucket t _ | CallListBuckets t | CallHeadBucket t _ | CallDeleteBucket t _
  | CallPutBucketAcl t _ _ | CallGetBucketAcl t _ | CallPutObjectAcl t _ _ _
  | CallGetObjectAcl t _ _ | CallGetLifecycle t _ | CallDeleteLifecycle t _
  | CallPutRetention t _ _ _ _ | CallPutLegalHold t _ _ _ | CallGetObjectLock t _ _
  | CallGetWebsite t _ | CallDeleteWebsite t _ | CallGetReplication t _
  | CallGetReplicationStatus t _ | CallDeleteReplication t _ | CallRunReplication t _ => t
  | CallPutLifecycle config => lc_tenant_id config
  | CallPutWebsite config => wc_tenant_id config
  | CallPutReplication config => rc_tenant_id config
  | CallPutObject request _ => po_tenant_id request
  | CallHeadObject request => hor_tenant_id request
  | CallGetObject request => go_tenant_id request
  | CallDeleteObject request => dq_tenant_id request
  | CallListObjects request => lo_tenant_id request
  | CallCopyObject request => co_tenant_id request
  | CallCreateMultipart request => cmu_tenant_id request
  | CallUploadPart request _ => upq_tenant_id request
  | CallCompleteMultipart request => cq_tenant_id request
  | CallAbortMultipart request => aq_tenant_id request
  end.

Section calls.
Context `{DistDeps} {B : Backend} `{BackendListing B} (ds : DistributionService).

Definition run_dist_call (auth : AuthContext) (c : DistCall) : ST (World B) ApiError unit :=
  match c with
  | CallCreateBucket t b => ignore (create_bucket ds auth t b)
  | CallListBuckets t => ignore (list_buckets ds auth t)
  | CallHeadBucket t b => ignore (head_bucket ds auth t b)
  | CallDeleteBucket t b => ignore (delete_bucket ds auth t b)
  | CallPutBucketAcl t b acl => ignore (put_bucket_acl ds auth t b acl)
  | CallGetBucketAcl t b => ignore (get_bucket_acl ds auth t b)
  | CallPutObjectAcl t b k acl => ignore (put_object_acl ds auth t b k acl)
  | CallGetObjectAcl t b k => ignore (get_object_acl ds auth t b k)
  | CallPutLifecycle config => ignore (put_lifecycle_config ds auth config)
  | CallGetLifecycle t b => ignore (get_lifecycle_config ds auth t b)
  | CallDeleteLifecycle t b => ignore (delete_lifecycle_config auth t b)
  | CallPutRetention t b k until mode => ignore (put_object_retention ds auth t b k until mode)
  | CallPutLegalHold t b k hold => ignore (put_object_legal_hold ds auth t b k hold)
  | CallGetObjectLock t b k => ignore (get_object_lock ds auth t b k)
  | CallPutWebsite config => ignore (put_website_config ds auth config)
  | CallGetWebsite t b => ignore (get_website_config ds auth t b)
  | CallDeleteWebsite t b => ignore (delete_website_config auth t b)
  | CallPutReplication config => ignore (put_replication_config ds auth config)
  | CallGetReplication t b => ignore (get_replication_config ds auth t b)
  | CallGetReplicationStatus t b => ignore (get_replication_status ds auth t b)
  | CallDeleteReplication t b => ignore (delete_replication_config auth t b)
  | CallRunReplication t b => ignore (run_replication_once ds auth t b)
  | CallPutObject request payload => ignore (put_object ds auth request payload)
  | CallHeadObject request => ignore (head_object ds auth request)
  | CallGetObject request => ignore (get_object ds auth request)
  | CallDeleteObject request => ignore (delete_object ds auth request)
  | CallListObjects request => ignore (list_objects ds auth request)
  | CallCopyObject request => ignore (copy_object ds auth request)
  | CallCreateMultipart request => ignore (create_multipart_upload ds auth request)
  | CallUploadPart request part => ignore (upload_part ds auth request part)
  | CallCompleteMultipart request => ignore (complete_multipart_upload ds auth request)
  | CallAbortMultipart request => ignore (abort_multipart_upload ds auth request)
  end.

(** A sequence of calls, whatever each of them returns. *)
Fixpoint run_dist_calls (calls : list (AuthContext * DistCall)) (w : World B) : World B :=
  match calls with
  | [] => w
  | (auth, c) :: rest => run_dist_calls rest (run_dist_call auth c w).2
  end.
End calls.

(** ** Frames *)

(** The kinds of both services, and all of them but object locks. *)
Definition nonlock_kinds : list string :=
  store_kinds ++ List.filter (λ k, negb (String.eqb k OBJECT_LOCK_STORE)) dist_store_kinds.
Definition all_kinds : list string := OBJECT_LOCK_STORE :: nonlock_kinds.

Definition is_lock_call (c : DistCall) : bool :=
  match c with CallPutRetention _ _ _ _ _ | CallPutLegalHold _ _ _ _ => true | _ => false end.

(** The calls that may write, the replay and event records of reads apart. *)
Definition is_mutating (c : DistCall) : bool :=
  match c with
  | CallListBuckets _ | CallHeadBucket _ _ | CallGetBucketAcl _ _ | CallGetObjectAcl _ _ _
  | CallGetLifecycle _ _ | CallGetObjectLock _ _ _ | CallGetWebsite _ _ | CallGetReplication _ _
  | CallGetReplicationStatus _ _ | CallHeadObject _ | CallGetObject _ | CallListObjects _ => false
  | _ => true
  end.

Section reading.
Context `{DDL : DistDepsLaws} {B : Backend} `{BL : BackendLaws B} `{L : BackendListing B}.
Context `{LL : !BackendListingLaws B} (ds : DistributionService).
Context (kinds : list string) (Hkinds : access_kinds ⊆ kinds).
Implicit Types w : World B.
Local Abbreviation stays t m := (preserves (confined (B:=B) t kinds) m).

(** Reading leaves at most replay and event records of the tenant. *)
Lemma confined_bucket_record t t' b : stays t (bucket_record ds t' b).
Proof using DDL BL. unfold bucket_record. confine. Qed.
#[local] Hint Resolve confined_bucket_record : hsp_confined.
Lemma confined_require_bucket t t' b : stays t (require_bucket ds t' b).
Proof using DDL BL. unfold require_bucket. confine. Qed.
Lemma confined_read_scope t auth t' b k : stays t (ensure_bucket_read_scope_for ds auth t' b k).
Proof using DDL BL. unfold ensure_bucket_read_scope_for. confine. Qed.
#[local] Hint Resolve confined_require_bucket confined_read_scope : hsp_confined.
Lemma confined_head_bucket t auth t' b : stays t (head_bucket ds auth t' b).
Proof using DDL BL. unfold head_bucket. confine. Qed.
Lemma confined_uploads t t' b : stays t (has_multipart_sessions ds t' b).
Proof using DDL BL LL. unfold has_multipart_sessions. confine. Qed.
Lemma confined_unlocked t t' b k d auth :
  stays t (ensure_object_mutation_unlocked ds t' b k d auth).
Proof using DDL BL. unfold ensure_object_mutation_unlocked. confine. Qed.
#[local] Hint Resolve confined_head_bucket confined_uploads confined_unlocked : hsp_confined.
Lemma confined_get_replication t auth t' b : stays t (get_replication_config ds auth t' b).
Proof using DDL BL. unfold get_replication_config. confine. Qed.
Lemma confined_resolve_key t auth ns p : stays t (resolve_key ds auth t ns p).
Proof using DDL BL Hkinds. unfold resolve_key. confine. Qed.
#[local] Hint Resolve confined_get_replication confined_resolve_key : hsp_confined.
Lemma confined_manifest_only t auth sel : stays t (get_manifest_only ds auth t sel).
Proof using DDL BL Hkinds. unfold get_manifest_only. confine. Qed.
#[local] Hint Resolve confined_manifest_only : hsp_confined.
Lemma confined_head_object t auth request :
  hor_tenant_id request = t → stays t (head_object ds auth request).
Proof using DDL BL Hkinds. intros <-. unfold head_object. confine. Qed.
#[local] Hint Resolve confined_head_object : hsp_confined.
Lemma confined_get_object auth request : stays (go_tenant_id request) (get_object ds auth request).
Proof using DDL BL Hkinds. unfold get_object, get_object_by_cid, get_object_by_key. confine. Qed.
Lemma confined_list_heads t auth b items : stays t (list_heads ds auth t b items).
Proof using DDL BL Hkinds. induction items; cbn [list_heads]; confine; done. Qed.
#[local] Hint Resolve confined_list_heads : hsp_confined.
Lemma confined_list_objects t auth request :
  lo_tenant_id request = t → stays t (list_objects ds auth request).
Proof using DDL BL Hkinds. intros <-. unfold list_objects. confine. Qed.
Lemma confined_session t t' u : stays t (multipart_session ds t' u).
Proof using DDL BL. unfold multipart_session. confine. Qed.
Lemma confined_part t t' u p : stays t (multipart_part_ciphertext ds t' u p).
Proof using DDL BL. unfold multipart_part_ciphertext. confine. Qed.

(** A call that only reads. *)
Lemma reading_call_frame auth c :
  is_mutating c = false → stays (dist_call_tenant c) (run_dist_call ds auth c).
Proof using DDL BL LL Hkinds.
  intros Hc. destruct c; try done; cbn [run_dist_call dist_call_tenant]; apply preserves_ignore;
    try apply _; try solve [eauto 3 using confined_get_object, confined_list_objects
      with hsp_confined nocore].
  - unfold list_buckets. confine.
  - unfold get_bucket_acl. confine.
  - unfold get_object_acl. confine.
  - unfold get_lifecycle_config. confine.
  - unfold get_object_lock. confine.
  - unfold get_website_config. confine.
  - unfold get_replication_status. confine.
Qed.
End reading.
#[export] Hint Resolve confined_bucket_record confined_require_bucket confined_read_scope
  confined_head_bucket confined_uploads confined_unlocked confined_get_replication
  confined_resolve_key confined_manifest_only confined_head_object confined_get_object
  confined_list_heads confined_list_objects confined_session confined_part : hsp_confined.

Section frames.
Context `{DDL : DistDepsLaws} {B : Backend} `{BL : BackendLaws B} `{L : BackendListing B}.
Context `{LL : !BackendListingLaws B} (ds : DistributionService) `{KL : !KmsLaws (ds_store_kms ds)}.
Implicit Types w : World B.
Local Abbreviation stays t m := (preserves (confined (B:=B) t nonlock_kinds) m).

Lemma confined_existing t auth ns p : stays t (existing_binding ds auth t ns p).
Proof using DDL BL. unfold existing_binding. confine. Qed.
Lemma confined_manifest t input : stays t (build_manifest_from_chunk_refs (B:=B) input).
Proof using DDL BL. unfold build_manifest_from_chunk_refs. confine. Qed.
#[local] Hint Resolve confined_existing confined_manifest : hsp_confined.
Lemma confined_prepare t request payload : stays t (prepare_payload ds request payload).
Proof using DDL BL. unfold prepare_payload, encrypt_trusted_edge. confine. Qed.
Lemma confined_put_chunks t auth session chunks : stays t (put_chunks ds auth t session chunks).
Proof using DDL BL. induction chunks; cbn [put_chunks]; confine; done. Qed.
#[local] Hint Resolve confined_prepare confined_put_chunks : hsp_confined.
Lemma confined_put_object auth request payload :
  stays (po_tenant_id request) (put_object ds auth request payload).
Proof using DDL BL. unfold put_object, build_manifest. confine. Qed.
Lemma confined_delete_object auth request :
  stays (dq_tenant_id request) (delete_object ds auth request).
Proof using DDL BL. unfold delete_object. confine. Qed.
Lemma confined_copy_object t auth request :
  co_tenant_id request = t → stays t (copy_object ds auth request).
Proof using DDL BL. intros <-. unfold copy_object. confine. Qed.
#[local] Hint Resolve confined_copy_object : hsp_confined.
Lemma confined_replicate t auth config items acc :
  stays t (replicate_items ds auth t config items acc).
Proof using DDL BL.
  revert acc. induction items; intros [[c f] e]; cbn [replicate_items]; confine; done.
Qed.
#[local] Hint Resolve confined_replicate : hsp_confined.
Lemma confined_fill t {C} (emit : bytes → C → ST (World B) ApiError C) fuel rem pending c :
  (∀ b c, stays t (emit b c)) → stays t (fill_loop FIXED_CHUNK_SIZE emit fuel rem pending c).
Proof using DDL.
  intros He. revert rem pending c. induction fuel; intros [|x rem] pending c;
    cbn [fill_loop]; confine; auto.
Qed.
Lemma confined_collect t t' u parts prev pending c :
  stays t (collect_listed_parts ds t' u parts prev pending c).
Proof using DDL BL.
  revert prev pending c. induction parts; intros; cbn [collect_listed_parts];
    unfold flush_fixed_chunk_ref, flush_pending, append_fixed_chunk_ref,
      collect_fixed_chunk_refs, run_loop; confine; try done.
  apply confined_fill. intros. unfold append_fixed_chunk_ref. confine.
Qed.
Lemma confined_put_fixed t auth s b c : stays t (put_fixed_chunk ds auth t s b c).
Proof using DDL BL. unfold put_fixed_chunk. confine. Qed.
#[local] Hint Resolve confined_collect confined_put_fixed : hsp_confined.
Lemma confined_upload t auth t' u s parts pending c :
  t' = t → stays t (upload_listed_parts ds auth t' u s parts pending c).
Proof using DDL BL.
  intros ->. revert pending c. induction parts; intros; cbn [upload_listed_parts];
    unfold flush_fixed_chunk_upload, flush_pending, upload_fixed_chunks, run_loop; confine; try done.
  apply confined_fill. intros. confine.
Qed.
Lemma confined_cleanup t t' u numbers : t' = t → stays t (cleanup_parts t' u numbers).
Proof using DDL BL. intros ->. induction numbers; cbn [cleanup_parts]; confine; done. Qed.
#[local] Hint Resolve confined_upload confined_cleanup : hsp_confined.

(** Every operation but the two on locks leaves the locks alone. *)
Lemma run_dist_call_frame auth c :
  is_lock_call c = false →
  stays (dist_call_tenant c) (run_dist_call ds auth c).
Proof using DDL BL LL KL.
  intros Hc. destruct (is_mutating c) eqn:Hm; [|by apply reading_call_frame; [sub_kinds|]].
  destruct c; try done; cbn [run_dist_call dist_call_tenant]; apply preserves_ignore;
    try apply _; try solve [eauto 3 using confined_put_object, confined_delete_object
      with hsp_confined nocore].
  - unfold create_bucket. confine.
  - unfold delete_bucket. confine.
  - unfold put_bucket_acl. confine.
  - unfold put_object_acl. confine.
  - unfold put_lifecycle_config. confine.
  - unfold delete_lifecycle_config. confine.
  - unfold put_website_config. confine.
  - unfold delete_website_config. confine.
  - unfold put_replication_config. confine.
  - unfold delete_replication_config. confine.
  - unfold run_replication_once. confine.
  - unfold create_multipart_upload. confine.
  - unfold upload_part. confine.
  - unfold complete_multipart_upload, multipart_manifest, cleanup_multipart. confine.
  - unfold abort_multipart_upload, multipart_parts, cleanup_multipart. confine.
Qed.
End frames.
