(* ===== verification/ConcreteDist.v ===== *)
(** * Concrete parameters of the distribution service for the witnesses

    Extends [ConcreteService.v] by the serialisation of the distribution records,
    a keyed hash for HMAC and a signer whose signature is the message, and shows
    that they satisfy [DistDepsLaws] and [EnvelopePrefixLaw].  It models nothing of
    the source. *)

From Stdlib Require Import ZArith Lia Ascii String Bool.
From stdpp Require Import base option list strings gmap numbers.
From S2P Require Import Prelude RustStr Path Core Cbor CborFacts Concrete Auth Crypto Store ServiceState ServiceFacts Namespaces Objects Service ConcreteService Chunker Distribution Buckets DistObjects Multipart DistFacts DistService.

Import Toy ToyKms ToyService.

(** ** Codecs *)

#[export] Instance codec_access_profile : Codec AccessProfile.
Proof.
  refine (codec_iso codec_Z
    (λ v, match v with PublicCiphertext => 0 | TrustedEdgeV1 => 1 end)
    (λ z, if z =? 0 then PublicCiphertext else TrustedEdgeV1) _).
  solve_iso.
Defined.
#[export] Instance codec_canned_acl : Codec CannedAcl.
Proof.
  refine (codec_iso codec_Z
    (λ v, match v with AclPrivate => 0 | AclPublicRead => 1 | AclAuthenticatedRead => 2 end)
    (λ z, if z =? 0 then AclPrivate else if z =? 1 then AclPublicRead
          else AclAuthenticatedRead) _).
  solve_iso.
Defined.
#[export] Instance codec_BucketRecord : Codec BucketRecord.
Proof.
  refine (codec_iso _
    (λ r, (bk_tenant_id r, bk_bucket r, bk_namespace r, bk_visibility_policy r,
           bk_namespace_cache_ttl_sec r, bk_immutable_cid_cache_ttl_sec r, bk_created_at_ms r))
    (λ '(x0, x1, x2, x3, x4, x5, x6),
       mkBucketRecord x0 x1 x2 x3 x4 x5 x6) _).
  solve_iso.
Defined.
#[export] Instance codec_DistributionMetadataRecord : Codec DistributionMetadataRecord.
Proof.
  refine (codec_iso _
    (λ r, (dm_tenant_id r, dm_bucket r, dm_edge_token_policy r, dm_presign_enabled r,
           dm_updated_at_ms r))
    (λ '(x0, x1, x2, x3, x4),
       mkDistributionMetadataRecord x0 x1 x2 x3 x4) _).
  solve_iso.
Defined.
#[export] Instance codec_BucketAclRecord : Codec BucketAclRecord.
Proof.
  refine (codec_iso _
    (λ r, (ba_tenant_id r, ba_bucket r, ba_acl r, ba_updated_at_ms r))
    (λ '(x0, x1, x2, x3),
       mkBucketAclRecord x0 x1 x2 x3) _).
  solve_iso.
Defined.
#[export] Instance codec_ObjectAclRecord : Codec ObjectAclRecord.
Proof.
  refine (codec_iso _
    (λ r, (oa_tenant_id r, oa_bucket r, oa_key r, oa_acl r, oa_updated_at_ms r))
    (λ '(x0, x1, x2, x3, x4),
       mkObjectAclRecord x0 x1 x2 x3 x4) _).
  solve_iso.
Defined.
#[export] Instance codec_LifecycleRule : Codec LifecycleRule.
Proof.
  refine (codec_iso _
    (λ r, (lcr_id r, lcr_prefix r, lcr_expire_after_days r, lcr_transition_after_days r,
           lcr_transition_storage_class r, lcr_enabled r))
    (λ '(x0, x1, x2, x3, x4, x5),
       mkLifecycleRule x0 x1 x2 x3 x4 x5) _).
  solve_iso.
Defined.
#[export] Instance codec_LifecycleConfig : Codec LifecycleConfig.
Proof.
  refine (codec_iso _
    (λ r, (lc_tenant_id r, lc_bucket r, lc_rules r, lc_updated_at_ms r))
    (λ '(x0, x1, x2, x3),
       mkLifecycleConfig x0 x1 x2 x3) _).
  solve_iso.
Defined.
#[export] Instance codec_ObjectLockRecord : Codec ObjectLockRecord.
Proof.
  refine (codec_iso _
    (λ r, (ol_tenant_id r, ol_bucket r, ol_key r, ol_immutable_until_ms r, ol_legal_hold r, ol_mode
           r, ol_updated_at_ms r))
    (λ '(x0, x1, x2, x3, x4, x5, x6),
       mkObjectLockRecord x0 x1 x2 x3 x4 x5 x6) _).
  solve_iso.
Defined.
#[export] Instance codec_WebsiteConfig : Codec WebsiteConfig.
Proof.
  refine (codec_iso _
    (λ r, (wc_tenant_id r, wc_bucket r, wc_enabled r, wc_index_document r, wc_error_document r,
           wc_access_profile r, wc_updated_at_ms r))
    (λ '(x0, x1, x2, x3, x4, x5, x6),
       mkWebsiteConfig x0 x1 x2 x3 x4 x5 x6) _).
  solve_iso.
Defined.
#[export] Instance codec_ReplicationConfig : Codec ReplicationConfig.
Proof.
  refine (codec_iso _
    (λ r, (rc_tenant_id r, rc_source_bucket r, rc_destination_bucket r, rc_prefix r, rc_enabled r,
           rc_updated_at_ms r))
    (λ '(x0, x1, x2, x3, x4, x5),
       mkReplicationConfig x0 x1 x2 x3 x4 x5) _).
  solve_iso.
Defined.
#[export] Instance codec_ReplicationStatus : Codec ReplicationStatus.
Proof.
  refine (codec_iso _
    (λ r, (rst_tenant_id r, rst_source_bucket r, rst_destination_bucket r, rst_copied_objects r,
           rst_failed_objects r, rst_last_run_ms r, rst_last_error r))
    (λ '(x0, x1, x2, x3, x4, x5, x6),
       mkReplicationStatus x0 x1 x2 x3 x4 x5 x6) _).
  solve_iso.
Defined.
#[export] Instance codec_SigV4AccessKeyRecord : Codec SigV4AccessKeyRecord.
Proof.
  refine (codec_iso _
    (λ r, (ak_access_key_id r, ak_secret_access_key r, ak_tenant_id r, ak_namespace_prefix r,
           ak_path_prefix r, ak_max_object_size r, ak_storage_classes r, ak_key_policy_id r,
           ak_metadata_visibility r, ak_enabled r))
    (λ '(x0, x1, x2, x3, x4, x5, x6, x7, x8, x9),
       mkSigV4AccessKeyRecord x0 x1 x2 x3 x4 x5 x6 x7 x8 x9) _).
  solve_iso.
Defined.
#[export] Instance codec_MultipartSessionRecord : Codec MultipartSessionRecord.
Proof.
  refine (codec_iso _
    (λ r, (ms_upload_id r, ms_tenant_id r, ms_bucket r, ms_key r, ms_access_profile r,
           ms_payload_plaintext r, ms_content_type r, ms_encryption_profile_id r, ms_key_policy_id
           r, ms_metadata_visibility r, ms_content_encryption_suite r, ms_key_wrapping_suite r,
           ms_wrapped_object_keys r, ms_server_visible_metadata r, ms_encrypted_client_metadata r,
           ms_storage_class r, ms_initiated_at_ms r, ms_idempotency_key r, ms_completed r))
    (λ '(x0, x1, x2, x3, x4, x5, x6, x7, x8, x9, x10, x11, x12, x13, x14, x15, x16, x17, x18),
       mkMultipartSessionRecord x0 x1 x2 x3 x4 x5 x6 x7 x8 x9 x10 x11 x12 x13 x14 x15 x16 x17 x18) _).
  solve_iso.
Defined.
#[export] Instance codec_MultipartPartRecord : Codec MultipartPartRecord.
Proof.
  refine (codec_iso _
    (λ r, (mpp_upload_id r, mpp_part_number r, mpp_etag r, mpp_length r, mpp_created_at_ms r))
    (λ '(x0, x1, x2, x3, x4),
       mkMultipartPartRecord x0 x1 x2 x3 x4) _).
  solve_iso.
Defined.
#[export] Instance codec_PresignAuditRecord : Codec PresignAuditRecord.
Proof.
  refine (codec_iso _
    (λ r, (pa_token_id r, pa_tenant_id r, pa_method r, pa_bucket r, pa_key r, pa_cid r,
           pa_expires_at_ms r, pa_created_at_ms r))
    (λ '(x0, x1, x2, x3, x4, x5, x6, x7),
       mkPresignAuditRecord x0 x1 x2 x3 x4 x5 x6 x7) _).
  solve_iso.
Defined.
#[export] Instance codec_EdgeTokenClaims : Codec EdgeTokenClaims.
Proof.
  refine (codec_iso _
    (λ r, (et_tenant_id r, et_bucket r, et_key r, et_cid r, et_access_profile r, et_method r,
           et_exp r))
    (λ '(x0, x1, x2, x3, x4, x5, x6),
       mkEdgeTokenClaims x0 x1 x2 x3 x4 x5 x6) _).
  solve_iso.
Defined.

(** ** Instances *)

#[local] Existing Instances codec_json codec_json_laws.

#[local] Instance concrete_dist_deps : DistDeps :=
  {| dist_deps := concrete_deps;
     edge_claims_to_vec := λ c, to_vec_pretty c;
     edge_claims_from_slice := λ b, from_slice b;
     hmac_sha256_mac := λ key data, fnv1a (key ++ data);
     record_to_cbor := λ r, to_vec_pretty r;
     cose_sign1_tbs := λ _ payload, payload;
     cose_sign1_to_vec := λ kid payload signature,
       if bool_decide (kid = as_bytes "key-1") && bool_decide (signature = payload)
       then Ok payload else Err "unsupported token";
     ed25519_sign := λ _ message, message;
     ed25519_verifying_key := λ key, key |}.

#[local] Instance concrete_dist_deps_laws : DistDepsLaws.
Proof.
  split; try apply _.
  - intros c b Hb. by apply (from_slice_to_vec c).
  - intros r b Hb. change (result_ok (from_slice b : result string NamespaceMutationRecord) = Some r).
    by rewrite (from_slice_to_vec r b Hb).
  - intros kid payload signature b Hb.
    change ((if bool_decide (kid = as_bytes "key-1") && bool_decide (signature = payload)
             then Ok payload else Err "unsupported token") = Ok b) in Hb.
    destruct (bool_decide_reflect (kid = as_bytes "key-1")) as [->|]; [|done].
    destruct (bool_decide_reflect (signature = payload)) as [->|]; [|done].
    injection Hb as <-. eexists. by split_and!.
  - intros key message. split; [done|]. cbn. by rewrite bool_decide_eq_true_2.
Qed.

(** ** A stream cut short has fewer fields *)

Lemma parse_cut_field s n cur l :
  (n < length (field_bytes s))%nat →
  parse_fields (take n (field_bytes s)) cur = Some l → l = [].
Proof.
  revert n cur. induction s as [|c s IH]; intros [|[|n]] cur; cbn [field_bytes take length];
    try (intros; lia); intros Hn.
  - by destruct cur; intros [= <-].
  - by destruct cur; intros [= <-].
  - done.
  - cbn [parse_fields]. apply IH. lia.
Qed.
Lemma parse_cut_stream l n l' :
  (n < length (stream_bytes l))%nat → parse_fields (take n (stream_bytes l)) [] = Some l' →
  (length l' < length l)%nat.
Proof.
  revert n l'. induction l as [|s l IH]; intros n l'; [cbn; lia|].
  unfold stream_bytes in *. cbn [map List.concat]. rewrite length_app. intros Hn.
  destruct (decide (n < length (field_bytes s))%nat) as [Hlt|Hge].
  - rewrite take_app_le by lia. intros ->%parse_cut_field; [cbn; lia|done].
  - rewrite take_app_ge by lia. rewrite parse_field.
    destruct (parse_fields (take _ _) []) as [rest|] eqn:E; [|done]. cbn. intros [= <-].
    apply IH in E; [cbn; lia|lia].
Qed.

#[local] Instance concrete_envelope_prefix : EnvelopePrefixLaw.
Proof.
  intros env b n [= <-] Hn. cbn -[parse_fields stream_bytes enc dec_opt].
  destruct (parse_fields (take n _) []) as [l|] eqn:E; [|done].
  apply parse_cut_stream in E; [|done]. cbn in E.
  do 7 (destruct l as [|? l]; [done|]). cbn in E. lia.
Qed.

Module ToyDist.
#[export] Existing Instances concrete_dist_deps concrete_dist_deps_laws concrete_envelope_prefix.
End ToyDist.

(** ** A service on the filesystem backend without faults *)

Definition disk : Backend := fs_backend no_faults.
#[export] Instance disk_listing : BackendListing disk :=
  fs_listing no_faults (λ _ l, l) (λ _ _, true) (λ _ _, []).
#[export] Instance disk_listing_laws : BackendListingLaws disk.
Proof. by apply fs_listing_laws. Qed.
#[export] Instance disk_torn_writes : BackendTornWrites disk.
Proof. apply fs_torn_writes. Qed.

Definition concrete_dist : DistributionService :=
  {| ds_config :=
       {| dc_alpha := mkAlphaConfig "localhost" "https://localhost/v1/" 443 "hsp-alpha-dev";
          dc_capability_audience := "hsp-distribution"; dc_immutable_cid_ttl_sec := 31536000;
          dc_namespace_ttl_sec := 30; dc_plaintext_profile_enabled := true; dc_aws_kms := None |};
     ds_alpha := concrete_service; ds_object_kms := sample_kms;
     ds_store_kms := local_provider sample_kms;
     ds_issuer_registry := mkIssuerRegistry [];
     ds_namespace_signing_key := replicate 32 "K"%char;
     ds_namespace_signing_key_id := "key-1";
     ds_edge_signing_secret := as_bytes "0123456789abcdef0123456789abcdef" |}.
#[export] Instance concrete_dist_kms_laws : KmsLaws (ds_store_kms concrete_dist).
Proof. apply local_provider_laws. Qed.

Definition disk_world : World disk := empty_world no_faults.

(** Callers with every scope of the data operations. *)
Definition dist_caller (tenant : TenantId) (id : string) (scopes : list CapabilityScope)
  : AuthContext :=
  mkAuthContext
    {| iss := "issuer"; sub := "subject"; aud := "hsp"; exp := 20000; nbf := None;
       jti := Some id; ops := scopes; cl_tenant_id := tenant;
       cl_namespace_prefix := None; cl_path_prefix := None; cl_max_object_size := None;
       cl_storage_classes := []; cl_key_policy_id := None; cl_metadata_visibility := None |}
    (Some (mkChannelBindingProof "tls-exporter" "ZmFrZQ" "nonce-1")).
Definition writer : AuthContext :=
  dist_caller "tenant-alpha" "w-1" [ScopeRead; ScopeList; ScopeWrite; ScopeBind; ScopeUnbind].
Definition repairer : AuthContext :=
  dist_caller "tenant-alpha" "r-1" [ScopeWrite; ScopeUnbind; AdminRepair].

(** A bucket with one key under legal hold and compliance retention. *)
Definition lock_calls : list (AuthContext * DistCall) :=
  [(writer, CallCreateBucket "tenant-alpha" "docs");
   (writer, CallPutLegalHold "tenant-alpha" "docs" "reports/q1" true);
   (writer, CallPutRetention "tenant-alpha" "docs" "reports/q1" (Some 90000)
      (Some "COMPLIANCE"))].
Definition locked_world : World disk :=
  run_dist_calls concrete_dist lock_calls disk_world.
