(* ===== verification/Locks.v ===== *)
(** * hsp-distribution: object locks

    Legal holds and retention across whole call sequences.  [locks_wf] is the
    invariant of the lock records: each is stored under the tenant, bucket and key
    it names.  [compliance_held] is what a compliance retention turns into: a
    record at least as strict, or a file that cannot be read, which blocks every
    later change as well.  A failed write may be torn, so the invariants need that
    a proper prefix of a stored envelope does not parse. *)

From Stdlib Require Import ZArith Lia Ascii String Bool.
From stdpp Require Import base option list strings gmap numbers sorting.
From S2P Require Import Prelude RustStr Path Core Cbor CborFacts Auth Crypto Store ServiceState ServiceFacts Access Namespaces Objects Service Chunker Distribution Buckets DistObjects Multipart DistFacts DistService ConcreteService ConcreteDist.

Lemma lock_kind_not_elsewhere : OBJECT_LOCK_STORE ∉ nonlock_kinds.
Proof. refine (bool_decide_eq_true_1 _ _). vm_compute. reflexivity. Qed.
Lemma nonlock_slash_free : Forall (λ k, slash_free k = true) nonlock_kinds.
Proof. repeat constructor. Qed.
Lemma all_kinds_slash_free : Forall (λ k, slash_free k = true) all_kinds.
Proof. repeat constructor. Qed.

Section locks.
Context `{DDL : DistDepsLaws} {B : Backend} `{BL : BackendLaws B} `{L : BackendListing B}.
Context `{LL : !BackendListingLaws B} `{TW : !BackendTornWrites B} `{EP : !EnvelopePrefixLaw}.
Context (ds : DistributionService) `{KL : !KmsLaws (ds_store_kms ds)}.
Implicit Types w : World B.

Definition lock_name (t : TenantId) (key : string) : string :=
  dist_store_key t OBJECT_LOCK_STORE key.
Definition lock_at (f : gmap string bytes) (t : TenantId) (key : string)
  : option ObjectLockRecord :=
  dist_stored ds f t OBJECT_LOCK_STORE key.
(** The record in the bytes of a lock file. *)
Definition lock_in (t : TenantId) (b : bytes) : option ObjectLockRecord :=
  p ← result_ok (dist_decrypt ds t OBJECT_LOCK_STORE b); result_ok (from_slice p).
(** A lock file that is there but cannot be read. *)
Definition lock_unreadable (f : gmap string bytes) (t : TenantId) (key : string) : Prop :=
  is_Some (f !! lock_name t key) ∧ lock_at f t key = None.

(** The lock record names the file it is in. *)
Definition lock_names (t : TenantId) (name : string) (r : ObjectLockRecord) : Prop :=
  ol_tenant_id r = t ∧ lock_name t (object_lock_store_key (ol_bucket r) (ol_key r)) = name.
Definition locks_wf (f : gmap string bytes) : Prop :=
  ∀ t key r, lock_at f t key = Some r → lock_names t (lock_name t key) r.

Lemma lock_at_ext f f' t key :
  f' !! lock_name t key = f !! lock_name t key → lock_at f' t key = lock_at f t key.
Proof. apply dist_stored_ext. Qed.
Lemma lock_at_name f t key key' :
  lock_name t key' = lock_name t key → lock_at f t key' = lock_at f t key.
Proof. unfold lock_at, dist_stored, dist_stored_bytes. unfold lock_name. by intros ->. Qed.
Lemma lock_name_tenant t key t' key' : lock_name t key = lock_name t' key' → t = t'.
Proof.
  intros Heq. eapply (in_dir_unique t OBJECT_LOCK_STORE t' OBJECT_LOCK_STORE (lock_name t key));
    [done|done|apply dist_key_in_dir|]. rewrite Heq. apply dist_key_in_dir.
Qed.

Lemma lock_at_in f t key : lock_at f t key = f !! lock_name t key ≫= lock_in t.
Proof.
  unfold lock_at, dist_stored, dist_stored_bytes. fold (lock_name t key). by destruct (f !! lock_name t key).
Qed.

(** A prefix of a written lock record is that record, or cannot be read. *)
Lemma lock_bytes t (r : ObjectLockRecord) p d env d' x n :
  to_vec_pretty r = Ok p → kms_encrypt (ds_store_kms ds) t OBJECT_LOCK_STORE p d = (Ok env, d') →
  to_vec_pretty env = Ok x → lock_in t (take n x) = None ∨ lock_in t (take n x) = Some r.
Proof.
  intros Hp Henc Hx. unfold lock_in, dist_decrypt.
  destruct (decide (n < length x)%nat) as [Hlt|Hge].
  - left. pose proof (envelope_prefix env x n Hx Hlt) as Hbad.
    by destruct (from_slice (take n x) : result string StoredEnvelope).
  - right. rewrite take_ge by lia. rewrite (from_slice_to_vec _ _ Hx). cbn.
    rewrite (kms_decrypt_encrypt _ _ _ _ _ _ Henc). cbn. by rewrite (from_slice_to_vec _ _ Hp).
Qed.

(** What a write of a lock record leaves behind, whatever it returns. *)
Lemma lock_write t key (r : ObjectLockRecord) w :
  let f' := files (dist_write_encrypted_json ds t OBJECT_LOCK_STORE key r w).2 in
  agree_off (lock_name t key) (files w) f' ∧
  (f' !! lock_name t key = files w !! lock_name t key ∨ lock_unreadable f' t key ∨
   lock_at f' t key = Some r).
Proof.
  cbn zeta. destruct (dist_write_json_spec ds t OBJECT_LOCK_STORE key r w) as [Ha Hok].
  split; [done|]. revert Ha Hok. unfold dist_write_encrypted_json. rewrite ST_bind_run.
  unfold lift_result. destruct (to_vec_pretty r) as [p|e] eqn:Hp; cbn; [|by auto].
  unfold dist_write_encrypted_bytes, map_error. rewrite ST_bind_run, ST_bind_run. unfold attempt.
  pose proof (dist_encrypt_files ds t OBJECT_LOCK_STORE p w) as Hf.
  destruct (dist_encrypt ds t OBJECT_LOCK_STORE p w) as [[env|e] w1] eqn:Ee; cbn in Hf |- *;
    [|by rewrite Hf; auto].
  rewrite <-Hf. unfold dist_write_envelope. rewrite ST_bind_run. unfold lift_result.
  destruct (to_vec_pretty env) as [x|e] eqn:Hx; cbn; [|by auto]. rewrite on_store_run. cbn.
  fold (lock_name t key). rewrite !files_set_store.
  pose proof (b_write_torn (lock_name t key) x (w_store w1)) as Htorn.
  destruct (b_write_view (lock_name t key) x (w_store w1)) as [_ Hi].
  destruct (b_write B (lock_name t key) x (w_store w1)) as [[[]|e] s] eqn:Ew; cbn in *.
  - intros _ Hst. right. right. by apply Hst.
  - intros _ _. destruct (Htorn e eq_refl) as [Hsame|[n Hn]]; [by left|]. right.
    unfold lock_unreadable. rewrite lock_at_in, Hn. unfold dist_encrypt, zoom in Ee.
    destruct (kms_encrypt (ds_store_kms ds) t OBJECT_LOCK_STORE p (w_draws w)) as [rr d] eqn:Henc.
    injection Ee as -> _. destruct (lock_bytes t r p _ env d x n Hp Henc Hx) as [Hl|Hl]; [left|by right].
    split; [eauto|exact Hl].
Qed.

(** ** The two operations on locks *)

(** The world after a read: the same files, a later clock reading. *)
Definition reads (w w' : World B) : Prop := files w' = files w ∧ (w_ticks w <= w_ticks w')%nat.

(** An operation that reads first: it stops without a change, or goes on. *)
Lemma bind_reads {E A A'} (m : ST (World B) E A) (f : A → ST (World B) E A') w :
  (∀ w, reads w (m w).2) →
  files ((m ≫= f) w).2 = files w ∨
  ∃ a w1, m w = (Ok a, w1) ∧ reads w w1 ∧ (m ≫= f) w = f a w1.
Proof.
  intros Hm. rewrite ST_bind_run. specialize (Hm w). destruct (m w) as [[a|e] w1]; cbn in *.
  - right. by exists a, w1.
  - left. apply Hm.
Qed.
Lemma lift_reads {E A} (r : result E A) w : reads w (lift_result r w).2.
Proof. by split. Qed.
Lemma now_reads w : reads w (now_ms (E:=ApiError) w).2.
Proof. split; [done|cbn; lia]. Qed.
Lemma read_json_reads {T} `{Json T} t k key w :
  reads w (dist_read_encrypted_json (T:=T) ds t k key w).2.
Proof.
  split; [apply dist_read_json_spec|]. unfold dist_read_encrypted_json, dist_read_encrypted_bytes.
  rewrite ST_bind_run, ST_bind_run, on_store_run.
  destruct (b_read _ _ _) as [[[b|]|e] s]; cbn; [|done..]. rewrite ST_bind_run. unfold lift_result.
  destruct (dist_decrypt ds t k b) as [x|e]; cbn; [|done]. rewrite ST_bind_run. unfold lift_result.
  by destruct (from_slice x).
Qed.
Lemma require_bucket_reads t b w : reads w (require_bucket ds t b w).2.
Proof.
  unfold require_bucket, bucket_record. rewrite ST_bind_run. unfold lift_result at 1.
  destruct (canonical_bucket_name b) as [a|e]; [|apply lift_reads]. rewrite ST_bind_run.
  pose proof (read_json_reads (T:=BucketRecord) t BUCKET_REGISTRY_STORE a w) as Hr.
  by destruct (dist_read_encrypted_json ds t BUCKET_REGISTRY_STORE a w) as [[]].
Qed.
Lemma retention_allowed_reads current until mode auth w :
  reads w (ensure_retention_update_allowed (B:=B) current until mode auth w).2.
Proof.
  unfold ensure_retention_update_allowed. destruct (ol_immutable_until_ms current); [|by split].
  rewrite ST_bind_run. cbn. repeat case_match; split; cbn; (done || lia).
Qed.

Definition is_compliance (mode : option string) : bool :=
  from_option (λ mode, eq_ignore_ascii_case mode "compliance") false mode.

(** The clock was before [U] at every reading between two worlds. *)
Definition clock_before (U : Z) (w w' : World B) : Prop :=
  ∀ i, (w_ticks w <= i < w_ticks w')%nat → clock i < U.

(** The check of a retention update, read as a condition on the new record. *)
Lemma retention_allowed_spec current until mode auth w w' u :
  ensure_retention_update_allowed (B:=B) current until mode auth w = (Ok u, w') →
  ∀ U, ol_immutable_until_ms current = Some U → is_compliance (ol_mode current) = true →
  clock_before U w w' →
  mode = ol_mode current ∧ ∃ U', until = Some U' ∧ U <= U'.
Proof.
  unfold ensure_retention_update_allowed. intros Hr U HU Hc Hclock. rewrite HU in Hr.
  assert (Hnow : clock (w_ticks w) < U).
  { apply Hclock. revert Hr. rewrite ST_bind_run. cbn. repeat case_match; intros [= _ <-]; cbn; lia. }
  rewrite ST_bind_run in Hr. cbn -[bool_decide] in Hr.
  destruct (Z.leb_spec U (clock (w_ticks w))) as [?|_]; [lia|].
  destruct (negb _ && negb _) eqn:Ek.
  - apply andb_true_iff in Ek as [Hs Hm]. apply negb_true_iff in Hs.
    rewrite negb_involutive in Hm. apply bool_decide_eq_true in Hm. split; [done|].
    destruct until as [U'|]; [|done]. exists U'. split; [done|]. lia.
  - unfold is_compliance in Hc. by rewrite Hc in Hr.
Qed.

(** [r'] is at least as strict as [r], where [r] is a compliance retention that was
    active between the two worlds. *)
Definition keeps_compliance (r r' : ObjectLockRecord) (w w' : World B) : Prop :=
  ∀ U, ol_immutable_until_ms r = Some U → is_compliance (ol_mode r) = true →
    clock_before U w w' →
    ol_mode r' = ol_mode r ∧ ∃ U', ol_immutable_until_ms r' = Some U' ∧ U <= U'.

(** A lock call changes nothing, or rewrites one lock file by a record that names
    it; the retention of the old record survives. *)
Definition lock_rewrite (t : TenantId) (w w' : World B) : Prop :=
  ∃ key r',
    agree_off (lock_name t key) (files w) (files w') ∧
    (files w' !! lock_name t key = files w !! lock_name t key ∨
     lock_unreadable (files w') t key ∨ lock_at (files w') t key = Some r') ∧
    lock_names t (lock_name t key) r' ∧
    (lock_at (files w) t key = None → files w !! lock_name t key = None) ∧
    ∀ r, lock_at (files w) t key = Some r → keeps_compliance r r' w w'.

Lemma dist_write_ticks t k key (r : ObjectLockRecord) w :
  w_ticks (dist_write_encrypted_json ds t k key r w).2 = w_ticks w.
Proof.
  unfold dist_write_encrypted_json, dist_write_encrypted_bytes, map_error.
  rewrite ST_bind_run. unfold lift_result. destruct (to_vec_pretty r); cbn; [|done].
  rewrite ST_bind_run, ST_bind_run. unfold attempt, dist_encrypt, zoom.
  destruct (kms_encrypt _ _ _ _ _) as [[env|e] d]; cbn; [|done].
  unfold dist_write_envelope. rewrite ST_bind_run. unfold lift_result.
  destruct (to_vec_pretty env); cbn; [|done]. by rewrite on_store_run.
Qed.

Lemma lock_write_rewrites t key (r' : ObjectLockRecord) w w1 :
  files w1 = files w → lock_names t (lock_name t key) r' →
  (lock_at (files w) t key = None → files w !! lock_name t key = None) →
  (∀ r w', lock_at (files w) t key = Some r → w_ticks w' = w_ticks w1 →
     keeps_compliance r r' w w') →
  lock_rewrite t w
    ((dist_write_encrypted_json ds t OBJECT_LOCK_STORE key r' ≫= λ _, mret r') w1).2.
Proof.
  intros Hf Hn Habs Hk. exists key, r'.
  pose proof (lock_write t key r' w1) as [Ha Hw]. rewrite Hf in Ha, Hw.
  pose proof (dist_write_ticks t OBJECT_LOCK_STORE key r' w1) as Ht.
  rewrite ST_bind_run. destruct (dist_write_encrypted_json _ _ _ _ _ _) as [[[]|e] w2]; cbn in *;
    split_and!; auto.
Qed.

Lemma default_lock_names f t bucket key o at_ms :
  locks_wf f → o = lock_at f t (object_lock_store_key bucket key) →
  lock_names t (lock_name t (object_lock_store_key bucket key))
    (default (no_lock t bucket key at_ms) o).
Proof. intros Hwf ->. destruct (lock_at _ _ _) eqn:E; [by apply (Hwf _ _ _ E)|done]. Qed.

Ltac reads := intros ?; first [apply lift_reads | apply require_bucket_reads
  | apply retention_allowed_reads | apply read_json_reads | apply now_reads].
Ltac step_read H :=
  match goal with
  | |- context [(?m ≫= ?f) ?w] =>
      let a := fresh "a" in let w1 := fresh "w" in let Hf := fresh "Hf" in
      let Ht := fresh "Ht" in
      destruct (bind_reads m f w) as [?|(a & w1 & H & [Hf Ht] & ->)];
        [reads|left; congruence|]
  end.

Lemma put_object_retention_rewrites auth t b k until mode w :
  locks_wf (files w) →
  let w' := (put_object_retention ds auth t b k until mode w).2 in
  files w' = files w ∨ lock_rewrite t w w'.
Proof.
  intros Hwf. cbn zeta. unfold put_object_retention.
  step_read Hb. step_read Hk. step_read Hs. step_read Hq. step_read Hr.
  apply dist_read_json_ok in Hr as (_ & Ho & Hn).
  match type of Ho with _ = dist_stored ds (files ?v) _ _ _ =>
    assert (Hv : files v = files w) by congruence; rewrite Hv in Ho, Hn end.
  step_read Hc. step_read Ha. step_read Hd.
  cbn zeta. right. apply lock_write_rewrites; [congruence| | |].
  - eapply (default_lock_names (files w) t a a0 a3); done.
  - intros Habs. apply Hn. by rewrite Ho.
  - change (a3 = lock_at (files w) t (object_lock_store_key a a0)) in Ho.
    intros r w' Hr Hw' U HU Hmode Hclock. rewrite Hr in Ho. subst a3.
    cbn [default ol_mode ol_immutable_until_ms] in *.
    eapply retention_allowed_spec in Ha; [done..|]. intros i Hi. apply Hclock. lia.
Qed.

Lemma put_object_legal_hold_rewrites auth t b k hold w :
  locks_wf (files w) →
  let w' := (put_object_legal_hold ds auth t b k hold w).2 in
  files w' = files w ∨ lock_rewrite t w w'.
Proof.
  intros Hwf. cbn zeta. unfold put_object_legal_hold.
  step_read Hb. step_read Hk. step_read Hs. step_read Hq. step_read Hr.
  apply dist_read_json_ok in Hr as (_ & Ho & Hn).
  match type of Ho with _ = dist_stored ds (files ?v) _ _ _ =>
    assert (Hv : files v = files w) by congruence; rewrite Hv in Ho, Hn end.
  step_read Hc. step_read Ha. step_read Hd. cbn zeta. right.
  pose proof (default_lock_names (files w) t a a0 a3 a4 Hwf Ho) as Hd'.
  change (a3 = lock_at (files w) t (object_lock_store_key a a0)) in Ho.
  set (r0 := default (no_lock t a a0 a4) a3) in *.
  destruct Hd' as [Ht' Hname]. cbn [ol_tenant_id ol_bucket ol_key]. rewrite Ht'.
  apply lock_write_rewrites; [congruence|done| |].
  - intros Habs. rewrite Hname. apply Hn. rewrite Ho. by rewrite <-(lock_at_name _ _ _ _ Hname).
  - intros r w' Hr _ U HU Hmode _. rewrite (lock_at_name _ _ _ _ Hname) in Hr. rewrite Hr in Ho.
    unfold r0. rewrite Ho. cbn. split; [done|]. exists U. split; [done|lia].
Qed.
(** ** Whole calls *)

Lemma lock_kind_in_dir t key : in_dir t OBJECT_LOCK_STORE (lock_name t key).
Proof. apply dist_key_in_dir. Qed.

Lemma ignore_files {A} (m : ST (World B) ApiError A) w : (ignore m w).2 = (m w).2.
Proof. unfold ignore. rewrite ST_bind_run. by destruct (m w) as [[]]. Qed.

(** A call leaves every lock file, or rewrites one as above. *)
Lemma lock_step auth c w :
  locks_wf (files w) →
  let w' := (run_dist_call ds auth c w).2 in
  (∀ t key, files w' !! lock_name t key = files w !! lock_name t key) ∨
  lock_rewrite (dist_call_tenant c) w w'.
Proof.
  intros Hwf. cbn zeta. destruct (is_lock_call c) eqn:Ec.
  - destruct c; try done; cbn [run_dist_call dist_call_tenant]; rewrite ignore_files.
    + destruct (put_object_retention_rewrites auth tenant_id bucket key immutable_until_ms mode w Hwf)
        as [->|?]; auto.
    + destruct (put_object_legal_hold_rewrites auth tenant_id bucket key legal_hold w Hwf)
        as [->|?]; auto.
  - left. intros t key.
    refine (confined_lookup (dist_call_tenant c) nonlock_kinds w _ t OBJECT_LOCK_STORE _
              (run_dist_call_frame ds auth c Ec w) nonlock_slash_free eq_refl
              (lock_kind_in_dir t key) (or_introl lock_kind_not_elsewhere)).
Qed.

Lemma locks_wf_same f f' :
  (∀ t key, f' !! lock_name t key = f !! lock_name t key) → locks_wf f → locks_wf f'.
Proof. intros Hsame Hwf t key r Hr. apply Hwf. rewrite <-Hr. symmetry. by apply lock_at_ext. Qed.

(** The case analysis of a rewrite at any lock file. *)
Lemma lock_rewrite_at t w w' t' key :
  lock_rewrite t w w' →
  files w' !! lock_name t' key = files w !! lock_name t' key ∨
  (is_Some (files w !! lock_name t' key) → is_Some (lock_at (files w) t' key)) ∧
  (lock_unreadable (files w') t' key ∨
   ∃ r', lock_at (files w') t' key = Some r' ∧ lock_names t' (lock_name t' key) r' ∧
     ∀ r, lock_at (files w) t' key = Some r → keeps_compliance r r' w w').
Proof.
  intros (key0 & r' & Hoff & Hcase & Hnames & Habs & Hk).
  destruct (decide (lock_name t' key = lock_name t key0)) as [Heq|Hne].
  - pose proof (lock_name_tenant _ _ _ _ Heq) as ->.
    unfold lock_unreadable. rewrite !(lock_at_name _ _ _ _ Heq), Heq.
    destruct Hcase as [Hs|Hcase]; [by left|]. right. split.
    + intros [b Hb]. destruct (lock_at (files w) t key0) eqn:E; [eauto|].
      by rewrite (Habs eq_refl) in Hb.
    + destruct Hcase as [?|?]; [by left|]. right. by exists r'.
  - left. by eapply agree_off_lookup.
Qed.

Lemma locks_wf_step auth c w :
  locks_wf (files w) → locks_wf (files (run_dist_call ds auth c w).2).
Proof.
  intros Hwf. destruct (lock_step auth c w Hwf) as [Hs|Hrw]; [by eapply locks_wf_same|].
  intros t key r Hr. destruct (lock_rewrite_at _ _ _ t key Hrw) as [Hs|[_ [[_ Hbad]|Hr']]].
  - apply Hwf. rewrite <-Hr. symmetry. by apply lock_at_ext.
  - by rewrite Hbad in Hr.
  - destruct Hr' as (r' & Hr' & Hn & _). rewrite Hr in Hr'. by injection Hr' as ->.
Qed.

(** What a compliance retention until [U] becomes. *)
Definition compliance_held (U : Z) (f : gmap string bytes) (t : TenantId) (key : string) : Prop :=
  lock_unreadable f t key ∨
  ∃ r U', lock_at f t key = Some r ∧ is_compliance (ol_mode r) = true ∧
    ol_immutable_until_ms r = Some U' ∧ U <= U'.

Lemma compliance_held_ext U f f' t key :
  f' !! lock_name t key = f !! lock_name t key →
  compliance_held U f t key → compliance_held U f' t key.
Proof. intros Hs. unfold compliance_held, lock_unreadable. by rewrite (lock_at_ext _ _ _ _ Hs), Hs. Qed.

Lemma compliance_held_step U auth c w t key :
  locks_wf (files w) → clock_before U w (run_dist_call ds auth c w).2 →
  compliance_held U (files w) t key →
  compliance_held U (files (run_dist_call ds auth c w).2) t key.
Proof.
  intros Hwf Hclock Hheld. destruct (lock_step auth c w Hwf) as [Hs|Hrw];
    [by eapply compliance_held_ext; eauto|].
  destruct (lock_rewrite_at _ _ _ t key Hrw) as [Hs|[Hread Hnew]];
    [by eapply compliance_held_ext; eauto|].
  destruct Hheld as [[Hsome Hnone]|(r & U' & Hr & Hmode & HU' & Hle)].
  - apply Hread in Hsome as [r Hr]. by rewrite Hnone in Hr.
  - destruct Hnew as [?|(r' & Hr' & _ & Hk)]; [by left|]. right.
    destruct (Hk r Hr U' HU' Hmode) as (Hm & U2 & HU2 & Hle2).
    { intros i Hi. specialize (Hclock i Hi). lia. }
    exists r', U2. split_and!; [done|by rewrite Hm|done|lia].
Qed.

(** Every clock reading of a sequence of calls was before [U]. *)
Fixpoint clock_before_calls (U : Z) (calls : list (AuthContext * DistCall)) (w : World B) : Prop :=
  match calls with
  | [] => True
  | (auth, c) :: rest =>
      let w' := (run_dist_call ds auth c w).2 in clock_before U w w' ∧ clock_before_calls U rest w'
  end.

(** A bound on the number of readings, for evaluation. *)
Fixpoint ticks_within (n : nat) (calls : list (AuthContext * DistCall)) (w : World B) : bool :=
  match calls with
  | [] => true
  | (auth, c) :: rest =>
      let w' := (run_dist_call ds auth c w).2 in Nat.leb (w_ticks w') n && ticks_within n rest w'
  end.
Lemma clock_before_bounded U n calls w :
  (∀ i, (i < n)%nat → clock i < U) → ticks_within n calls w = true → clock_before_calls U calls w.
Proof.
  intros Hn. revert w. induction calls as [|[auth c] calls IH]; intros w; [done|].
  cbn [ticks_within clock_before_calls]. cbn zeta.
  intros [Ht%Nat.leb_le Hrest]%andb_true_iff. split; [|by apply IH].
  intros i Hi. apply Hn. lia.
Qed.

Lemma locks_wf_calls calls w :
  locks_wf (files w) → locks_wf (files (run_dist_calls ds calls w)).
Proof.
  revert w. induction calls as [|[auth c] calls IH]; intros w Hwf; [done|].
  cbn [run_dist_calls]. by apply IH, locks_wf_step.
Qed.
Lemma locks_wf_empty : locks_wf ∅.
Proof.
  intros t key r. unfold lock_at, dist_stored, dist_stored_bytes. by rewrite lookup_empty.
Qed.

(** C32: the lock records stay well formed: after any sequence of calls, by any
    callers and whatever the calls return, every readable lock record is stored
    under the tenant, bucket and key it names, if that was so before; so the write
    of [put_object_legal_hold], which takes its key from the record, hits the file
    the record was read from. *)
Theorem lock_records_well_formed calls w :
  locks_wf (files w) → locks_wf (files (run_dist_calls ds calls w)).
Proof. apply locks_wf_calls. Qed.

(** An active compliance retention cannot be shortened, cleared or changed in
    mode: as long as the clock is before [U], no sequence of calls, with whatever
    credentials ([admin.repair] included), takes the lock record of an object under
    compliance retention until [U] to anything but a compliance retention until
    [U] or later, or, after a torn write, an unreadable file. *)
Theorem compliance_retention_never_shortened calls w t bucket key r U :
  locks_wf (files w) →
  lock_at (files w) t (object_lock_store_key bucket key) = Some r →
  is_compliance (ol_mode r) = true → ol_immutable_until_ms r = Some U →
  clock_before_calls U calls w →
  compliance_held U (files (run_dist_calls ds calls w)) t (object_lock_store_key bucket key).
Proof.
  intros Hwf Hr Hmode HU. assert (Hheld : compliance_held U (files w) t
    (object_lock_store_key bucket key)) by (right; exists r, U; split_and!; (done || lia)).
  clear r Hr Hmode HU. revert w Hwf Hheld.
  induction calls as [|[auth c] calls IH]; intros w Hwf Hheld; [done|].
  cbn [run_dist_calls clock_before_calls]. intros [Hc Hcs].
  apply IH; [by apply locks_wf_step|by apply compliance_held_step|done].
Qed.
End locks.

Import ToyService ToyDist.

(** Witness of C32: the calls that make a bucket with a locked key. *)
Lemma lock_records_well_formed_witness :
  locks_wf concrete_dist (files (run_dist_calls concrete_dist lock_calls disk_world)).
Proof. apply (lock_records_well_formed concrete_dist lock_calls disk_world), locks_wf_empty. Defined.

Definition lift_calls : list (AuthContext * DistCall) :=
  [(repairer, CallPutRetention "tenant-alpha" "docs" "reports/q1" (Some 2000) (Some "COMPLIANCE"));
   (writer, CallPutRetention "tenant-alpha" "docs" "reports/q1" (Some 95000) (Some "COMPLIANCE"))].

Lemma locked_world_wf : locks_wf concrete_dist (files locked_world).
Proof. unfold locked_world. apply (locks_wf_calls concrete_dist), locks_wf_empty. Qed.

(** An instance: two attempts of an administrator to lift a compliance retention. *)
Lemma compliance_retention_never_shortened_witness :
  compliance_held concrete_dist 90000 (files (run_dist_calls concrete_dist lift_calls locked_world))
    "tenant-alpha" (object_lock_store_key "docs" "reports/q1").
Proof.
  eapply (compliance_retention_never_shortened concrete_dist lift_calls locked_world
            "tenant-alpha" "docs" "reports/q1" _ 90000).
  - apply locked_world_wf.
  - vm_compute. reflexivity.
  - reflexivity.
  - reflexivity.
  - apply (clock_before_bounded concrete_dist 90000 40).
    + intros i Hi. cbn -[Z.add Z.lt]. lia.
    + vm_compute. reflexivity.
Defined.
