(* ===== verification/DistAccess.v ===== *)
(** * hsp-distribution: who may change what

    Every operation that writes checks the tenant and the scope of the caller
    before its first write, so without them it fails on an unchanged store; with
    the right tenant it is confined to that tenant's directories.  Edge tokens, the
    bearer tokens of the CDN, authenticate as callers with the read scope only. *)

From Stdlib Require Import ZArith Lia Ascii String Bool.
From stdpp Require Import base option list strings gmap numbers sorting.
From S2P Require Import Prelude RustStr Path Core Cbor CborFacts Auth Crypto Store ServiceState ServiceFacts Access Namespaces Objects Service Chunker Distribution Buckets DistObjects Multipart SigV4 DistFacts DistService ConcreteService ConcreteDist Locks.

(** What a caller needs to change anything for a tenant. *)
Definition may_mutate (auth : AuthContext) (t : TenantId) : bool :=
  String.eqb (cl_tenant_id (claims auth)) t && has_scope auth [ScopeWrite; ScopeBind; ScopeUnbind].

(** ** Failing runs *)

Definition fails_within {S E A} (R : S → S → Prop) (m : ST S E A) (w : S) : Prop :=
  (∃ e, (m w).1 = Err e) ∧ R w (m w).2.

Section fails.
Context {S E : Type} (R : S → S → Prop) `{!PreOrder R}.

Lemma fails_bind {A A'} (m : ST S E A) (f : A → ST S E A') w :
  preserves R m → (∀ a w1, m w = (Ok a, w1) → R w w1 → fails_within R (f a) w1) →
  fails_within R (m ≫= f) w.
Proof.
  intros Hm Hf. unfold fails_within. rewrite ST_bind_run. specialize (Hm w).
  destruct (m w) as [[a|e] w1]; cbn in *; [|split; [eauto|done]].
  destruct (Hf a w1 eq_refl Hm) as [He Hr]. split; [done|]. by etrans.
Qed.
(** A check that fails. *)
Lemma fails_lift {A A'} (r : result E A) (f : A → ST S E A') w e :
  r = Err e → fails_within R (lift_result r ≫= f) w.
Proof. intros ->. split; [by exists e|done]. Qed.
Lemma fails_throw {A} (e : E) w : fails_within R (throw e : ST S E A) w.
Proof. split; [by exists e|done]. Qed.
Lemma fails_ignore {A} (m : ST S E A) w : fails_within R m w → fails_within R (ignore m) w.
Proof.
  intros [[e He] HR]. unfold fails_within, ignore. rewrite ST_bind_run.
  destruct (m w) as [[]]; [done|]. split; [eauto|done].
Qed.
End fails.

(** The relation of operations that only read. *)
Definition same_files {B : Backend} `{BackendLaws B} (w w' : World B) : Prop := files w' = files w.
#[export] Instance same_files_preorder {B : Backend} `{BL : BackendLaws B} :
  PreOrder (same_files (B:=B)).
Proof. split; [done|]. unfold same_files. intros ??? H1 H2. congruence. Qed.

Section scopes.
Context `{DDL : DistDepsLaws} {B : Backend} `{BL : BackendLaws B} `{L : BackendListing B}.
Context `{LL : !BackendListingLaws B} (ds : DistributionService).
Implicit Types w : World B.

Lemma mutation_scope_denied auth t b k :
  may_mutate auth t = false → ∃ e, ensure_bucket_mutation_scope_for auth t b k = Err e.
Proof.
  unfold may_mutate, ensure_bucket_mutation_scope_for. destruct (String.eqb _ _); cbn; [|eauto].
  intros ->. eauto.
Qed.

Lemma same_read_json {T} `{Json T} t k key :
  preserves same_files (dist_read_encrypted_json (T:=T) (B:=B) ds t k key).
Proof using DDL BL. intros w. apply dist_read_json_spec. Qed.
Lemma same_require_bucket t b : preserves same_files (require_bucket (B:=B) ds t b).
Proof using DDL BL. intros w. apply require_bucket_reads. Qed.
Lemma same_read_scope auth t b k :
  preserves same_files (ensure_bucket_read_scope_for (B:=B) ds auth t b k).
Proof using DDL BL.
  unfold ensure_bucket_read_scope_for. repeat case_match; try apply preserves_throw, _;
    try apply preserves_lift, _; (apply preserves_bind; [apply _|apply same_read_json|intros ?]);
    case_match; try apply preserves_lift, _; try apply preserves_throw, _.
  apply preserves_bind; [apply _|apply same_read_json|intros ?].
  case_match; [apply preserves_lift, _|apply preserves_throw, _].
Qed.
Lemma same_session t u : preserves same_files (multipart_session (B:=B) ds t u).
Proof using DDL BL.
  unfold multipart_session. apply preserves_bind; [apply _|apply same_read_json|intros ?].
  apply preserves_lift, _.
Qed.

Lemma fails_scope {A} auth t b k (f : unit → ST (World B) ApiError A) w :
  may_mutate auth t = false →
  fails_within same_files (lift_result (ensure_bucket_mutation_scope_for auth t b k) ≫= f) w.
Proof.
  intros Hd. destruct (mutation_scope_denied auth t b k Hd) as [e He].
  by eapply fails_lift; [apply _|].
Qed.

(** [denied] steps through the reads of an operation up to the failing check. *)
Ltac denied :=
  repeat (cbn beta zeta; first
    [ by apply fails_scope
    | apply fails_bind;
      [ apply _
      | first [apply preserves_lift, _ | apply same_require_bucket | apply same_read_scope
              | apply same_session]
      | intros ? ? _ _ ] ]).

Lemma mutating_call_denied auth c w :
  is_mutating c = true → may_mutate auth (dist_call_tenant c) = false →
  fails_within same_files (run_dist_call ds auth c) w.
Proof using DDL BL.
  intros Hm Hd. destruct c; try done; cbn [run_dist_call dist_call_tenant] in *;
    apply fails_ignore.
  - unfold create_bucket. denied.
  - unfold delete_bucket. denied.
  - unfold put_bucket_acl. denied.
  - unfold put_object_acl. denied.
  - unfold put_lifecycle_config. denied.
  - unfold delete_lifecycle_config. denied.
  - unfold put_object_retention. denied.
  - unfold put_object_legal_hold. denied.
  - unfold put_website_config. denied.
  - unfold delete_website_config. denied.
  - unfold put_replication_config. denied.
  - unfold delete_replication_config. denied.
  - unfold run_replication_once. denied.
  - unfold put_object. denied.
  - unfold delete_object. denied.
  - unfold copy_object. denied.
  - unfold create_multipart_upload. denied.
  - unfold upload_part. denied.
  - unfold complete_multipart_upload. denied.
  - unfold abort_multipart_upload. denied.
Qed.

(** A caller of another tenant is stopped by the first check. *)
Lemma read_scope_foreign auth t b k w :
  cl_tenant_id (claims auth) ≠ t →
  fails_within same_files (ensure_bucket_read_scope_for (B:=B) ds auth t b k) w.
Proof.
  intros Hne. unfold ensure_bucket_read_scope_for.
  destruct (String.eqb_spec (cl_tenant_id (claims auth)) t); [done|]. apply fails_throw, _.
Qed.
Lemma fails_first {A A'} (m : ST (World B) ApiError A) (f : A → ST (World B) ApiError A') w :
  fails_within same_files m w → fails_within same_files (m ≫= f) w.
Proof.
  unfold fails_within. intros [[e He] Hs]. rewrite ST_bind_run.
  destruct (m w) as [[]]; [done|]. split; [eauto|done].
Qed.
Lemma tenant_foreign auth t :
  cl_tenant_id (claims auth) ≠ t → ensure_tenant_matches auth t = Err tenant_mismatch.
Proof.
  intros Hne. unfold ensure_tenant_matches. by destruct (String.eqb_spec (cl_tenant_id (claims auth)) t).
Qed.
Lemma optional_foreign auth t b k :
  cl_tenant_id (claims auth) ≠ t →
  ensure_bucket_read_scope_for_optional auth t b k = Err tenant_mismatch.
Proof.
  intros Hne. unfold ensure_bucket_read_scope_for_optional.
  by destruct (String.eqb_spec (cl_tenant_id (claims auth)) t).
Qed.

Ltac foreign :=
  repeat (cbn beta zeta; first
    [ apply fails_first; by apply read_scope_foreign
    | eapply fails_lift; [apply _|]; first [by apply tenant_foreign | by apply optional_foreign]
    | apply fails_bind;
      [ apply _ | first [apply preserves_lift, _ | apply same_require_bucket] | intros ? ? _ _ ] ]).

Lemma foreign_call_denied auth c w :
  cl_tenant_id (claims auth) ≠ dist_call_tenant c →
  fails_within same_files (run_dist_call ds auth c) w.
Proof using DDL BL.
  intros Hne. destruct (is_mutating c) eqn:Hm.
  { apply mutating_call_denied; [done|]. unfold may_mutate.
    by destruct (String.eqb_spec (cl_tenant_id (claims auth)) (dist_call_tenant c)). }
  destruct c; try done; cbn [run_dist_call dist_call_tenant] in *; apply fails_ignore.
  - unfold list_buckets, ensure_bucket_read_scope. foreign.
  - unfold head_bucket. foreign.
  - unfold get_bucket_acl. foreign.
  - unfold get_object_acl. foreign.
  - unfold get_lifecycle_config. foreign.
  - unfold get_object_lock. foreign.
  - unfold get_website_config. foreign.
  - unfold get_replication_config. foreign.
  - unfold get_replication_status. foreign.
  - unfold head_object. foreign.
  - unfold get_object. foreign.
  - unfold list_objects. foreign.
Qed.
End scopes.

Section isolation.
Context `{DDL : DistDepsLaws} {B : Backend} `{BL : BackendLaws B} `{L : BackendListing B}.
Context `{LL : !BackendListingLaws B} `{TW : !BackendTornWrites B} `{EP : !EnvelopePrefixLaw}.
Context (ds : DistributionService) `{KL : !KmsLaws (ds_store_kms ds)}.
Implicit Types w : World B.

(** Every call, those on locks included, is confined to its tenant. *)
Lemma run_dist_call_confined auth c w :
  locks_wf ds (files w) →
  confined (dist_call_tenant c) all_kinds w (run_dist_call ds auth c w).2.
Proof.
  intros Hwf. destruct (is_lock_call c) eqn:Ec.
  - assert (Hcase : files (run_dist_call ds auth c w).2 = files w ∨
                    lock_rewrite ds (dist_call_tenant c) w (run_dist_call ds auth c w).2).
    { destruct c; try done; cbn [run_dist_call dist_call_tenant]; rewrite ignore_files;
        [by apply put_object_retention_rewrites|by apply put_object_legal_hold_rewrites]. }
    destruct Hcase as [Hs|(key & r' & Hoff & _)]; [by apply confined_same|].
    intros name Hn. eapply agree_off_lookup; [done|]. intros ->.
    apply (Hn OBJECT_LOCK_STORE); [by left|apply lock_kind_in_dir].
  - eapply confined_weaken; [|by apply run_dist_call_frame]. sub_kinds.
Qed.

(** No call with another tenant's credentials touches the directories of a tenant. *)
Lemma run_dist_calls_isolated calls w t k name :
  locks_wf ds (files w) →
  Forall (λ call, cl_tenant_id (claims call.1) ≠ t) calls →
  slash_free k = true → in_dir t k name →
  files (run_dist_calls ds calls w) !! name = files w !! name.
Proof.
  intros Hwf Hcalls Hk Hin. revert w Hwf.
  induction Hcalls as [|[auth c] calls Hne _ IH]; intros w Hwf; [done|]. cbn in Hne.
  cbn [run_dist_calls]. rewrite IH; [|by apply locks_wf_step].
  destruct (decide (cl_tenant_id (claims auth) = dist_call_tenant c)) as [Heq|Hdiff].
  - eapply (confined_lookup _ all_kinds); [by apply run_dist_call_confined
      |apply all_kinds_slash_free|exact Hk|done|]. right. congruence.
  - destruct (foreign_call_denied ds auth c w Hdiff) as [_ Hs]. by rewrite Hs.
Qed.

(** C8: tenant isolation of the distribution service, by credential: whatever calls
    the holders of other tenants' credentials make, naming whatever tenant, in
    whatever order and with whatever outcome, every file in the directories of a
    tenant is left as it was: buckets, access lists, locks, uploads, and the
    objects, namespaces and events of the service below. *)
Theorem dist_tenant_isolation calls w t k name :
  locks_wf ds (files w) →
  Forall (λ call, cl_tenant_id (claims call.1) ≠ t) calls →
  slash_free k = true → in_dir t k name →
  files (run_dist_calls ds calls w) !! name = files w !! name.
Proof. apply run_dist_calls_isolated. Qed.
End isolation.

(** ** Legal holds *)

Section holds.
Context `{DDL : DistDepsLaws} {B : Backend} `{BL : BackendLaws B} `{L : BackendListing B}.
Context `{LL : !BackendListingLaws B} (ds : DistributionService).
Context (t : TenantId) (bucket key : string).
Implicit Types w : World B.

Definition under_legal_hold (f : gmap string bytes) : Prop :=
  ∃ r, lock_at ds f t (object_lock_store_key bucket key) = Some r ∧ ol_legal_hold r = true.

(** Reads do not lift the hold. *)
Lemma hold_kept w w' :
  confined t access_kinds w w' → under_legal_hold (files w) → under_legal_hold (files w').
Proof using DDL BL.
  intros Hc (r & Hr & Hh). exists r. split; [|done]. rewrite <-Hr. apply lock_at_ext.
  eapply (confined_lookup t access_kinds w w' t OBJECT_LOCK_STORE);
    [done|by repeat constructor|done|apply lock_kind_in_dir|].
  left. refine (bool_decide_eq_true_1 _ _). vm_compute. reflexivity.
Qed.

Lemma fails_confined {A} (m : ST (World B) ApiError A) kinds w :
  fails_within same_files m w → fails_within (confined t kinds) m w.
Proof. intros [He Hs]. split; [done|]. by apply confined_same. Qed.

Lemma held_blocks {A} auth d (f : unit → ST (World B) ApiError A) w :
  under_legal_hold (files w) →
  fails_within (confined t access_kinds)
    (ensure_object_mutation_unlocked ds t bucket key d auth ≫= f) w.
Proof using DDL BL.
  intros (r & Hr & Hh). apply fails_confined, fails_first. unfold ensure_object_mutation_unlocked.
  apply fails_bind; [apply _|apply same_read_json|].
  intros o w1 (_ & Ho & _)%dist_read_json_ok _. change (o = lock_at ds (files w)
    t (object_lock_store_key bucket key)) in Ho.
  rewrite Hr in Ho. subst o. rewrite Hh. apply fails_throw, _.
Qed.

(** [held_step] passes a read; [held] stops at the check of the lock. *)
Ltac held_step a Ha :=
  cbn beta zeta;
  apply fails_bind; [apply _|confine|];
  let w1 := fresh "w" in let HR := fresh in
  intros a w1 Ha HR;
  match goal with H : under_legal_hold _ |- _ => apply (hold_kept _ _ HR) in H end.

Lemma delete_blocked auth request w :
  dq_tenant_id request = t → dq_bucket request = bucket →
  canonical_object_key_name (dq_key request) = Ok key → under_legal_hold (files w) →
  fails_within (confined t access_kinds) (delete_object ds auth request) w.
Proof using DDL BL.
  intros Ht Hb Hkey Hheld. unfold delete_object. rewrite Ht, Hb, Hkey.
  held_step a Ha. held_step k Hk. injection Hk as <- _. held_step u Hu. held_step res Hres.
  case_match; [apply fails_throw, _|]. by apply held_blocks.
Qed.

(** The bucket record of a registry that names its buckets. *)
Lemma require_bucket_ok b w bk w' name :
  require_bucket ds t b w = (Ok bk, w') → canonical_bucket_name b = Ok name →
  dist_stored ds (files w) t BUCKET_REGISTRY_STORE name = Some bk.
Proof using DDL BL.
  unfold require_bucket, bucket_record. intros (a & w1 & Ha & H)%ST_bind_ok Hname.
  unfold lift_result in Ha. injection Ha as Ha <-. rewrite Hname in Ha. injection Ha as <-.
  apply ST_bind_ok in H as (o & w2 & (_ & Ho & _)%dist_read_json_ok & H).
  unfold lift_result in H. injection H as H _. rewrite <-Ho. by destruct o; cbn in H; simplify_eq.
Qed.

Lemma copy_blocked auth request w bk :
  co_tenant_id request = t → canonical_bucket_name (co_destination_bucket request) = Ok bucket →
  dist_stored ds (files w) t BUCKET_REGISTRY_STORE bucket = Some bk → bk_bucket bk = bucket →
  canonical_object_key_name (co_destination_key request) = Ok key → under_legal_hold (files w) →
  fails_within (confined t access_kinds) (copy_object ds auth request) w.
Proof using DDL BL.
  intros Ht Hb Hbk Hname Hkey Hheld. unfold copy_object, existing_binding. rewrite Ht, Hkey.
  held_step src Hsrc. held_step dst Hdst.
  assert (dst = bk) as ->.
  { apply (require_bucket_ok _ _ _ _ bucket) in Hdst; [|done].
    pose proof (require_bucket_reads ds t (co_source_bucket request) w) as [Hf _].
    rewrite Hsrc in Hf. cbn in Hf. rewrite Hf, Hbk in Hdst. by simplify_eq. }
  held_step sk Hsk. held_step k Hk. injection Hk as <- _. held_step u Hu. held_step u' Hu'.
  held_step res Hres. case_match; [apply fails_throw, _|]. held_step old Hold. rewrite Hname.
  by apply held_blocks.
Qed.

(** A legal hold blocks changes of the binding: while the lock record of a
    bucket and key has the legal hold, [delete_object] of that key and
    [copy_object] onto it fail for every caller, [admin.repair] included, and leave
    at most replay and event records, so the object stays bound as it was.  (The
    name in the request has to be the canonical bucket name.) *)
Theorem legal_hold_blocks_delete_and_copy auth w bk :
  under_legal_hold (files w) →
  dist_stored ds (files w) t BUCKET_REGISTRY_STORE bucket = Some bk → bk_bucket bk = bucket →
  (∀ request, dq_tenant_id request = t → dq_bucket request = bucket →
     canonical_object_key_name (dq_key request) = Ok key →
     fails_within (confined t access_kinds) (delete_object ds auth request) w) ∧
  (∀ request, co_tenant_id request = t →
     canonical_bucket_name (co_destination_bucket request) = Ok bucket →
     canonical_object_key_name (co_destination_key request) = Ok key →
     fails_within (confined t access_kinds) (copy_object ds auth request) w).
Proof using DDL BL.
  intros Hheld Hbk Hname. split; intros request Ht Hbucket Hkey.
  - by apply delete_blocked.
  - by eapply copy_blocked.
Qed.
End holds.

Import ToyService ToyDist.

(** Witness of C8: calls with credentials of another tenant, one of them naming the
    tenant, on the store of a locked bucket. *)
Lemma dist_tenant_isolation_witness :
  let stranger := dist_caller "tenant-beta" "s-1" [ScopeWrite; ScopeUnbind; AdminRepair] in
  let calls := [(stranger, CallCreateBucket "tenant-beta" "docs");
                (stranger, CallPutLegalHold "tenant-alpha" "docs" "reports/q1" false)] in
  let name := lock_name "tenant-alpha" (object_lock_store_key "docs" "reports/q1") in
  files (run_dist_calls concrete_dist calls locked_world) !! name = files locked_world !! name.
Proof.
  intros stranger calls name.
  apply (dist_tenant_isolation concrete_dist calls locked_world "tenant-alpha" OBJECT_LOCK_STORE).
  - apply locked_world_wf.
  - repeat constructor; cbn; congruence.
  - reflexivity.
  - apply lock_kind_in_dir.
Defined.

(** An administrator deletes the key under legal hold. *)
Lemma legal_hold_blocks_delete_and_copy_witness :
  fails_within (confined "tenant-alpha" access_kinds)
    (delete_object concrete_dist repairer
       (mkDeleteObjectRequest "tenant-alpha" "docs" "reports/q1" "idem-1")) locked_world.
Proof.
  assert (Hheld : under_legal_hold concrete_dist "tenant-alpha" "docs" "reports/q1"
    (files locked_world)) by (eexists; split; [vm_compute; reflexivity|reflexivity]).
  assert (Hbucket : ∃ bk, dist_stored concrete_dist (files locked_world) "tenant-alpha"
    BUCKET_REGISTRY_STORE "docs" = Some bk ∧ bk_bucket bk = "docs")
    by (eexists; split; [vm_compute; reflexivity|reflexivity]).
  destruct Hbucket as (bk & Hbk & Hname).
  destruct (legal_hold_blocks_delete_and_copy concrete_dist "tenant-alpha" "docs" "reports/q1"
    repairer locked_world bk Hheld Hbk Hname) as [Hdelete _].
  by apply Hdelete.
Defined.
