(* ===== verification/SigV4Props.v ===== *)
(** * Properties of the authentication of HTTP requests

    What an accepted Signature Version 4 request and an accepted edge token stand
    for: a stored, enabled access key whose secret signed exactly this request, in
    the time window; and a signature of the edge secret over exactly these
    claims. *)

From Stdlib Require Import ZArith Lia Ascii String Bool.
From stdpp Require Import base option list strings gmap numbers sorting.
From S2P Require Import Prelude RustStr Path Core Cbor CborFacts Auth Crypto Store ServiceState ServiceFacts Access Namespaces Objects Service Chunker AmzDate Distribution Buckets DistObjects Multipart SigV4 DistFacts DistService ConcreteService ConcreteDist Locks DistAccess.

(** ** Splitting at a separator *)

Lemma split_once_Some c s a b :
  split_once c s = Some (a, b) ↔ str_contains_char c a = false ∧ s = a +:+ String c b.
Proof.
  revert a b. induction s as [|x s IH]; intros a b; cbn [split_once].
  - split; [done|]. by intros [_ Heq]; destruct a.
  - destruct (Ascii.eqb_spec x c) as [->|Hne].
    + split.
      * by intros [= <- <-].
      * intros [Ha Heq]. destruct a as [|y a]; [by injection Heq as ->|].
        rewrite str_app_cons in Heq. injection Heq as -> _.
        rewrite str_contains_char_cons, Ascii.eqb_refl in Ha. done.
    + destruct a as [|y a].
      * split; [by destruct (split_once c s) as [[]|]|]. intros [_ [= ->]]. done.
      * rewrite str_contains_char_cons, str_app_cons, orb_false_iff. split.
        -- intros Heq. assert (x = y ∧ split_once c s = Some (a, b)) as [-> E]
             by (clear IH; destruct (split_once c s) as [[]|]; by simplify_eq/=).
           apply IH in E as [? ->]. split_and!; [by destruct (Ascii.eqb_spec y c)|done|done].
        -- intros [[_ Ha] [= -> ->]].
           by rewrite (proj2 (IH a b) (conj Ha eq_refl)).
Qed.

(** A pure step of a successful run. *)
Ltac ok_lift H x Hx :=
  apply ST_bind_ok in H as (x & ? & Hx & H); unfold lift_result in Hx; injection Hx as Hx <-.

Lemma lift_bind_ok {S E A A'} (r : result E A) a (f : A → ST S E A') w :
  r = Ok a → (lift_result r ≫= f) w = f a w.
Proof. by intros ->. Qed.

Section edge.
Context `{DDL : DistDepsLaws} {B : Backend} `{BL : BackendLaws B} `{L : BackendListing B}.
Context `{LL : !BackendListingLaws B} (ds : DistributionService).
Implicit Types w : World B.

Lemma b64url_no_dot b : str_contains_char "." (b64url_encode b) = false.
Proof using DDL. apply (str_contains_char_forallb b64url_char); [done|apply b64url_alphabet]. Qed.

(** The token whose payload segment is [payload_b64]. *)
Definition edge_token_of (payload_b64 : string) : string :=
  payload_b64 +:+ "." +:+
  b64url_encode (hmac_sha256_mac (ds_edge_signing_secret ds) (as_bytes payload_b64)).

Lemma decode_edge_token_ok token w c w' :
  decode_edge_token ds token w = (Ok c, w') →
  ∃ payload_b64 payload, token = edge_token_of payload_b64 ∧
    b64url_decode payload_b64 = Some payload ∧ edge_claims_from_slice payload = Ok c ∧
    clock (w_ticks w) <= et_exp c.
Proof.
  unfold decode_edge_token. intros H. ok_lift H ps Hs. destruct ps as [p sig].
  destruct (split_once _ token) as [[p' sig']|] eqn:E; [|done]. injection Hs as -> ->.
  apply split_once_Some in E as [_ Htok]. cbn beta iota in H.
  ok_lift H expected He. subst expected.
  destruct (String.eqb_spec
    (b64url_encode (hmac_sha256_mac (ds_edge_signing_secret ds) (as_bytes p))) sig) as [Hsig|];
    cbn [negb] in H; [|done].
  ok_lift H payload Hp. destruct (b64url_decode p) as [x|] eqn:Ex; [|done]. injection Hp as ->.
  ok_lift H c' Hc. destruct (edge_claims_from_slice payload) as [x|] eqn:Ec; [|done].
  injection Hc as ->. apply ST_bind_ok in H as (now & w4 & Hn & H). injection Hn as <- <-.
  destruct (Z.ltb_spec (et_exp c') (clock (w_ticks w))) as [|Hle]; [done|].
  apply ST_ret_ok in H as [<- <-]. exists p, payload. unfold edge_token_of.
  rewrite Hsig. by split_and!.
Qed.

(** Round trip of edge tokens: a minted token that has not expired decodes to
    the claims it was minted for. *)
Theorem edge_token_roundtrip c token w :
  mint_edge_token ds c = Ok token → clock (w_ticks w) <= et_exp c →
  (decode_edge_token ds token w).1 = Ok c.
Proof.
  unfold mint_edge_token. intros (payload & Hp & H)%result_bind_ok Hexp. cbn in H.
  injection H as <-. destruct (edge_claims_to_vec c) as [x|] eqn:Ec; [|done]. injection Hp as ->.
  unfold decode_edge_token.
  rewrite (proj2 (split_once_Some "." _ (b64url_encode payload)
    (b64url_encode (hmac_sha256_mac (ds_edge_signing_secret ds) (as_bytes (b64url_encode payload)))))).
  2:{ split; [apply b64url_no_dot|done]. }
  erewrite lift_bind_ok by done. cbn beta iota. erewrite lift_bind_ok by done.
  rewrite String.eqb_refl. cbn [negb].
  erewrite lift_bind_ok by (rewrite b64url_decode_encode; done).
  erewrite lift_bind_ok by (rewrite (edge_claims_inverse _ _ Ec); done).
  rewrite ST_bind_run. cbn -[Z.ltb].
  by destruct (Z.ltb_spec (et_exp c) (clock (w_ticks w))); [lia|].
Qed.

(** An accepted edge token carries an HMAC of the edge secret over its claims,
    has not expired, was minted for the method of the request, and makes its holder
    a read-only caller of the tenant it names: every call then leaves at most
    replay and event records, and every operation that changes anything fails
    without touching the store. *)
Theorem edge_token_read_only token request_method w auth w' :
  authenticate_edge_token ds token request_method w = (Ok auth, w') →
  (∃ payload_b64 payload c, token = edge_token_of payload_b64 ∧
     b64url_decode payload_b64 = Some payload ∧ edge_claims_from_slice payload = Ok c ∧
     clock (w_ticks w) <= et_exp c ∧ eq_ignore_ascii_case (et_method c) request_method = true ∧
     cl_tenant_id (claims auth) = et_tenant_id c) ∧
  (∀ call, preserves (confined (B:=B) (dist_call_tenant call) access_kinds)
             (run_dist_call ds auth call)) ∧
  (∀ call w1, is_mutating call = true → fails_within same_files (run_dist_call ds auth call) w1).
Proof.
  unfold authenticate_edge_token. intros (c & w1 & Hc & H)%ST_bind_ok.
  ok_lift H u Hu.
  apply ST_bind_ok in H as (now & w3 & Hn & H). apply ST_ret_ok in H as [<- <-].
  match goal with |- context [run_dist_call ds ?a] => set (auth := a) end.
  assert (Hdenied : ∀ call w1, is_mutating call = true →
    fails_within same_files (run_dist_call ds auth call) w1).
  { intros call w0 Hm. apply mutating_call_denied; [done|]. apply andb_false_r. }
  split; [|split; [|done]].
  - apply decode_edge_token_ok in Hc as (p & payload & Ht & Hp & Hc & Hexp).
    exists p, payload, c. split_and!; try done. unfold ensure_edge_token_method in Hu.
    by destruct (eq_ignore_ascii_case _ _).
  - intros call w0. destruct (is_mutating call) eqn:Hm; [|by apply reading_call_frame].
    destruct (Hdenied call w0 Hm) as [_ Hs]. by apply confined_same.
Qed.
End edge.

(** ** Access keys *)

Section sigv4.
Context `{DDL : DistDepsLaws} `{!CborPayload CapabilityClaims} {B : Backend} `{BL : BackendLaws B}.
Context `{L : BackendListing B} `{LL : !BackendListingLaws B} (ds : DistributionService).
Implicit Types w : World B.

(** An access key some tenant's directory holds. *)
Definition key_stored (f : gmap string bytes) (record : SigV4AccessKeyRecord) : Prop :=
  ∃ t name b p, in_dir t DISTRIBUTION_METADATA_STORE name ∧ f !! name = Some b ∧
    dist_decrypt ds t DISTRIBUTION_METADATA_STORE b = Ok p ∧ from_slice p = Ok record.

Lemma list_json_ticks {T} `{Json T} t k w :
  w_ticks (list_encrypted_json (T:=T) ds t k w).2 = w_ticks w.
Proof.
  unfold list_encrypted_json. cbn zeta. rewrite ST_bind_run, on_store_run.
  by destruct (b_list_values _ _) as [[l|e] s].
Qed.

Lemma access_keys_of_sound tenants w records w' record :
  list_access_keys_of ds tenants w = (Ok records, w') →
  files w' = files w ∧ w_ticks w' = w_ticks w ∧
  (record ∈ records → key_stored (files w) record).
Proof.
  revert w records. induction tenants as [|tenant tenants IH]; intros w records;
    cbn [list_access_keys_of].
  - intros [<- <-]%ST_ret_ok. split_and!; [done..|]. by intros ?%not_elem_of_nil.
  - intros (l & w1 & Hl & H)%ST_bind_ok. apply ST_bind_ok in H as (tail & w2 & Ht & H).
    apply ST_ret_ok in H as [<- <-].
    pose proof (list_json_files (T:=SigV4AccessKeyRecord) ds
      (default tenant (decode_tenant_store_dir tenant)) DISTRIBUTION_METADATA_STORE w) as Hf.
    pose proof (list_json_ticks (T:=SigV4AccessKeyRecord)
      (default tenant (decode_tenant_store_dir tenant)) DISTRIBUTION_METADATA_STORE w) as Hk.
    rewrite Hl in Hf, Hk. cbn in Hf, Hk. apply IH in Ht as (Hf' & Hk' & Hs).
    split_and!; [congruence..|]. intros [Hin|Hin]%elem_of_app.
    + apply list_elem_of_In, filter_In in Hin as [Hin _]. apply list_elem_of_In in Hin.
      destruct (list_json_sound ds _ _ _ _ _ _ Hl Hin) as (name & b & p & ?).
      by exists (default tenant (decode_tenant_store_dir tenant)), name, b, p.
    + rewrite <-Hf. by apply Hs.
Qed.

Lemma sigv4_access_key_sound id w record w' :
  sigv4_access_key ds id w = (Ok record, w') →
  files w' = files w ∧ w_ticks w' = w_ticks w ∧ key_stored (files w) record ∧
  ak_access_key_id record = id ∧ ak_enabled record = true.
Proof.
  unfold sigv4_access_key, list_all_access_keys. intros (l & w1 & Hl & H)%ST_bind_ok.
  apply ST_bind_ok in Hl as (tenants & w2 & Ht & Hl). rewrite on_store_run in Ht.
  destruct (b_list_child_dirs_view DISTRIBUTION_METADATA_STORE (w_store w)) as [Hv _].
  destruct (b_list_child_dirs _ _) as [[l0|e] s]; [|done]. injection Ht as -> <-.
  apply ST_bind_ok in Hl as (records & w3 & Hr & Hl). apply ST_ret_ok in Hl as [<- <-].
  apply (access_keys_of_sound _ _ _ _ record) in Hr as (Hf & Hk & Hs).
  unfold lift_result in H. injection H as H <-. rewrite files_set_store in Hf, Hs.
  cbn in Hv, Hk. fold (files w) in Hv. rewrite Hv in Hf, Hs.
  destruct (List.filter (λ r, String.eqb (ak_access_key_id r) id && ak_enabled r) _)
    as [|r rest] eqn:E; [done|].
  injection H as ->. assert (Hin : In record (record :: rest)) by by left.
  rewrite <-E in Hin. apply filter_In in Hin as [Hin [Hid He]%andb_true_iff].
  apply filter_In in Hin as [Hin _]. apply list_elem_of_In in Hin. apply String.eqb_eq in Hid.
  split_and!; try done. by apply Hs.
Qed.

Lemma time_window_ok issued code kind w u w' :
  ensure_sigv4_time_window (B:=B) issued code kind w = (Ok u, w') →
  w_ticks w' = S (w_ticks w) ∧ files w' = files w ∧
  clock (w_ticks w) - MAX_SIGV4_CLOCK_SKEW_MS <= issued <=
  clock (w_ticks w) + MAX_SIGV4_CLOCK_SKEW_MS.
Proof.
  unfold ensure_sigv4_time_window. rewrite ST_bind_run. cbn -[Z.ltb MAX_SIGV4_CLOCK_SKEW_MS].
  destruct (Z.ltb_spec (u64_sat_add (clock (w_ticks w)) MAX_SIGV4_CLOCK_SKEW_MS) issued) as [|H1];
    [done|].
  destruct (Z.ltb_spec MAX_SIGV4_CLOCK_SKEW_MS (u64_sat_sub (clock (w_ticks w)) issued)) as [|H2];
    [done|].
  intros [_ <-]%ST_ret_ok. unfold u64_sat_add, u64_sat_sub in *. split_and!; [done..|lia|lia].
Qed.

(** The caller a request with this key and method becomes. *)
Definition sigv4_caller (record : SigV4AccessKeyRecord) (method : string) (auth : AuthContext)
  : Prop :=
  cl_tenant_id (claims auth) = ak_tenant_id record ∧
  ops (claims auth) = scopes_for_http_method method ∧
  cl_namespace_prefix (claims auth) = ak_namespace_prefix record ∧
  cl_path_prefix (claims auth) = ak_path_prefix record.
Lemma sigv4_auth_context_ok record method signature w auth w' :
  sigv4_auth_context (B:=B) record method signature w = (Ok auth, w') →
  sigv4_caller record method auth.
Proof.
  unfold sigv4_auth_context. intros (a & w1 & _ & H)%ST_bind_ok.
  apply ST_bind_ok in H as (b & w2 & _ & H). apply ST_ret_ok in H as [<- _]. done.
Qed.

(** C11: a Signature Version 4 request accepted by its [Authorization] header was
    signed with the secret of a stored, enabled access key over the canonical form of exactly this request:
    its credential date is that of [X-Amz-Date], which is within five minutes of
    the clock, and its payload hash is that of the body unless the client chose
    [UNSIGNED-PAYLOAD]; the caller gets the tenant and the prefixes of the key and
    the scopes of the method. *)
Theorem sigv4_header_sound binding w auth w' :
  authenticate_header_sigv4 ds binding w = (Ok auth, w') →
  ∃ authorization parsed record date issued canonical,
    required_header (hb_headers binding) "authorization" = Ok authorization ∧
    parse_sigv4_authorization authorization = Ok parsed ∧
    key_stored (files w) record ∧ ak_enabled record = true ∧
    ak_access_key_id record = ps_access_key_id parsed ∧
    required_header (hb_headers binding) "x-amz-date" = Ok date ∧
    starts_with (ps_date parsed) date = true ∧
    parse_amz_date_with_code date "invalid_sigv4" = Ok issued ∧
    clock (w_ticks w) - MAX_SIGV4_CLOCK_SKEW_MS <= issued <=
      clock (w_ticks w) + MAX_SIGV4_CLOCK_SKEW_MS ∧
    payload_hash_of binding ∈ ["UNSIGNED-PAYLOAD"; hex_sha256 (hb_body binding)] ∧
    canonical_sigv4_request (hb_method binding) (hb_raw_path binding) (hb_raw_query binding)
      (hb_headers binding) (ps_signed_headers parsed) (payload_hash_of binding) = Ok canonical ∧
    sigv4_signature (ak_secret_access_key record) (ps_date parsed) (ps_region parsed)
      (ps_service parsed)
      (sigv4_string_to_sign date (ps_credential_scope parsed) canonical) =
      Ok (ps_signature parsed) ∧
    sigv4_caller record (hb_method binding) auth.
Proof.
  unfold authenticate_header_sigv4. intros H. ok_lift H authorization Ha. ok_lift H parsed Hp.
  apply ST_bind_ok in H as (record & w1 & Hr & H).
  apply sigv4_access_key_sound in Hr as (_ & Hticks & Hstored & Hid & Hen).
  ok_lift H date Hd. ok_lift H issued Hi.
  apply ST_bind_ok in H as (u & w2 & (_ & _ & Hwin)%time_window_ok & H). rewrite Hticks in Hwin.
  destruct (starts_with (ps_date parsed) date) eqn:Es; cbn [negb] in H; [|done]. cbv zeta in H.
  destruct (negb (String.eqb (payload_hash_of binding) "UNSIGNED-PAYLOAD") && _) eqn:Eh; [done|].
  ok_lift H canonical Hc. ok_lift H expected He.
  destruct (String.eqb_spec expected (ps_signature parsed)) as [->|]; cbn [negb] in H; [|done].
  apply sigv4_auth_context_ok in H.
  exists authorization, parsed, record, date, issued, canonical.
  split_and!; try done; try apply Hwin; [|exact (f_equal Ok He)].
  apply andb_false_iff in Eh as [Eh|Eh]; apply negb_false_iff, String.eqb_eq in Eh.
  - rewrite Eh. left.
  - rewrite Eh. right. left.
Qed.

(** C33: an accepted presigned URL is at most five minutes old, whatever expiry it
    was given: it was issued within five minutes of the clock, names an expiry of
    at most seven days that has not passed, and carries the signature of a stored,
    enabled key over the request and its parameters. *)
Theorem presigned_url_window binding w auth w' :
  authenticate_presigned_sigv4 ds binding w = (Ok auth, w') →
  ∃ params date expires issued record scope region service canonical signature,
    parse_unique_query_pairs (hb_raw_query binding) "invalid_presign" = Ok params ∧
    params !! "X-Amz-Date" = Some date ∧ params !! "X-Amz-Signature" = Some signature ∧
    (v ← params !! "X-Amz-Expires"; parse_u64 v) = Some expires ∧
    parse_amz_date_with_code date "invalid_presign" = Ok issued ∧
    expires <= MAX_PRESIGN_EXPIRES_SEC ∧
    clock (w_ticks w) - MAX_SIGV4_CLOCK_SKEW_MS <= issued <=
      clock (w_ticks w) + MAX_SIGV4_CLOCK_SKEW_MS ∧
    clock (S (w_ticks w)) <= u64_sat_add issued (expires * 1000) ∧
    key_stored (files w) record ∧ ak_enabled record = true ∧
    canonical_sigv4_request (hb_method binding) (hb_raw_path binding)
      (canonical_presign_query params) (hb_headers binding)
      (split_signed_headers (default "" (params !! "X-Amz-SignedHeaders")))
      "UNSIGNED-PAYLOAD" = Ok canonical ∧
    sigv4_signature (ak_secret_access_key record) scope region service
      (sigv4_string_to_sign date (credential_scope scope region service) canonical) =
      Ok signature ∧
    sigv4_caller record (hb_method binding) auth.
Proof.
  unfold authenticate_presigned_sigv4. intros H. ok_lift H params Hq. cbv zeta in H.
  destruct (negb _) in H; [done|].
  ok_lift H credential Hcred. ok_lift H headers Hh. ok_lift H signature Hs. ok_lift H date Hd.
  ok_lift H expires He.
  destruct (Z.ltb_spec MAX_PRESIGN_EXPIRES_SEC expires) as [|Hmax]; [done|].
  ok_lift H issued Hi.
  apply ST_bind_ok in H as (u & w2 & (Ht & Hf & Hwin)%time_window_ok & H).
  apply ST_bind_ok in H as (now & w3 & Hn & H). injection Hn as <- <-. rewrite Ht in H.
  destruct (Z.ltb_spec (u64_sat_add issued (expires * 1000)) (clock (S (w_ticks w)))) as [|Hle];
    [done|].
  ok_lift H parsed Hp. destruct parsed as [[[key scope] region] service].
  apply ST_bind_ok in H as (record & w4 & Hr & H).
  apply sigv4_access_key_sound in Hr as (_ & _ & Hstored & _ & Hen).
  ok_lift H canonical Hc. ok_lift H expected Hx.
  destruct (String.eqb_spec expected signature) as [->|]; cbn [negb] in H; [|done].
  apply ST_bind_ok in H as (created & w5 & _ & H). cbv zeta in H.
  apply ST_bind_ok in H as (u' & w6 & _ & H). apply sigv4_auth_context_ok in H.
  exists params, date, expires, issued, record, scope, region, service, canonical, signature.
  destruct (params !! "X-Amz-SignedHeaders") as [x|] eqn:Ex; cbn in Hh; [|done]. injection Hh as ->.
  destruct (params !! "X-Amz-Date"); cbn in Hd; [|done]. injection Hd as ->.
  destruct (params !! "X-Amz-Signature"); cbn in Hs; [|done]. injection Hs as ->.
  split_and!; try done; try apply Hwin.
  - destruct (_ ≫= _); cbn in He; [by injection He as ->|done].
  - by change (files (B:=B) _) with (files w2) in Hstored; rewrite <-Hf.
  - exact (f_equal Ok Hx).
Qed.
End sigv4.

(** ** What a signature covers *)

Definition no_newline (s : string) : Prop := str_contains_char "010" s = false.

(** Splitting at the last occurrence of a separator is unambiguous. *)
Lemma str_split_last c s s' t t' :
  str_contains_char c t = false → str_contains_char c t' = false →
  s +:+ String c t = s' +:+ String c t' → s = s' ∧ t = t'.
Proof.
  intros Ht Ht'. revert s'. induction s as [|x s IH]; intros [|y s'];
    rewrite ?str_app_cons, ?str_app_nil_l; intros [= Heq].
  - done.
  - subst. exfalso. rewrite str_contains_char_app, str_contains_char_cons, Ascii.eqb_refl in Ht.
    by rewrite orb_true_r in Ht.
  - subst. exfalso. rewrite str_contains_char_app, str_contains_char_cons, Ascii.eqb_refl in Ht'.
    by rewrite orb_true_r in Ht'.
  - subst. destruct (IH s') as [-> ->]; done.
Qed.

Lemma strip_any_forallb (p : ascii → bool) ps b r :
  strip_any ps b = Some r → forallb p b = true → forallb p r = true.
Proof.
  assert (Hone : ∀ q b r, strip_bytes q b = Some r → forallb p b = true → forallb p r = true).
  { intros q. induction q as [|z q IH]; cbn [strip_bytes]; [by intros b' r' [= ->]|].
    intros [|c b'] r'; [done|]. destruct (_ =? _); [|done].
    intros Hs. cbn. intros [_ Hb]%andb_true_iff. by eapply IH. }
  induction ps as [|q ps IH]; cbn [strip_any]; [done|].
  destruct (strip_bytes q b) as [r'|] eqn:E; [|done]. intros [= ->]. by eapply Hone.
Qed.

Lemma of_bytes_forallb (p : ascii → bool) b : str_forallb p (of_bytes b) = forallb p b.
Proof. induction b as [|c b IH]; [done|]. cbn. by rewrite <-IH. Qed.

Lemma words_forallb (p : ascii → bool) fuel b cur :
  forallb p b = true → forallb p cur = true →
  Forall (λ s, str_forallb p s = true) (whitespace_words fuel b cur).
Proof.
  assert (Hflush : ∀ cur, forallb p cur = true → Forall (λ s, str_forallb p s = true)
    (match cur with [] => [] | _ => [of_bytes cur] end)).
  { intros [|c l] Hl; repeat constructor. by rewrite of_bytes_forallb. }
  revert b cur. induction fuel as [|fuel IH]; intros b cur Hb Hcur; cbn [whitespace_words];
    [by apply Hflush|].
  destruct (strip_any white_space_utf8 b) as [r|] eqn:E.
  - apply Forall_app. split; [by apply Hflush|]. apply IH; [by eapply strip_any_forallb|done].
  - destruct b as [|c b]; [by apply Hflush|]. cbn in Hb. apply andb_true_iff in Hb as [Hc Hb].
    apply IH; [done|]. rewrite forallb_app. cbn. by rewrite Hcur, Hc.
Qed.

Lemma join_forallb (p : ascii → bool) sep l :
  str_forallb p sep = true → Forall (λ s, str_forallb p s = true) l →
  str_forallb p (join sep l) = true.
Proof.
  intros Hsep. induction 1 as [|s l Hs Hl IH]; [done|]. destruct l as [|s' l]; [done|].
  rewrite join_cons; [|done]. by rewrite !str_forallb_app, Hs, Hsep, IH.
Qed.

(** A header value that is valid ASCII stays on its line. *)
Lemma normalized_value_no_newline headers name value :
  required_single_signed_header headers name = Ok value →
  no_newline (normalize_header_value value).
Proof.
  unfold required_single_signed_header, header_to_str. intros Hv.
  destruct (header_get_all headers name) as [|b [|]]; [done| |done].
  set (q := λ c, in_range 32 126 c || in_range 9 9 c) in *.
  destruct (forallb q b) eqn:Eb; cbn in Hv; [|done]. injection Hv as <-.
  apply (str_contains_char_forallb q); [done|].
  apply join_forallb; [done|]. apply words_forallb; [|done]. by rewrite as_of_bytes.
Qed.

Lemma canonical_headers_inj headers headers' names block :
  canonical_headers headers names = Ok block → canonical_headers headers' names = Ok block →
  Forall (λ name, ∃ v v', required_single_signed_header headers name = Ok v ∧
    required_single_signed_header headers' name = Ok v' ∧
    normalize_header_value v = normalize_header_value v') names.
Proof.
  revert block. induction names as [|name names IH]; intros block; [by constructor|].
  cbn [canonical_headers]. intros (v & Hv & H)%result_bind_ok (v' & Hv' & H')%result_bind_ok.
  apply result_bind_ok in H as (tail & Ht & [= <-]).
  apply result_bind_ok in H' as (tail' & Ht' & [= Heq]).
  apply str_app_inj_len in Heq as [_ Heq]; [|done]. apply str_app_inj_len in Heq as [_ Heq]; [|done].
  apply str_split_first in Heq as [Hn Htail]; [|by eapply normalized_value_no_newline..].
  change (tail' = tail) in Htail. subst tail'. constructor; [by exists v, v'|by eapply IH].
Qed.

Lemma joined_names_line names :
  Forall (λ name, no_newline name ∧ str_contains_char ";" name = false) names →
  no_newline (join ";" names).
Proof.
  intros Hall. unfold no_newline, str_contains_char. apply negb_false_iff.
  apply join_forallb; [done|]. eapply Forall_impl; [done|]. intros name [Hn _].
  by apply negb_false_iff.
Qed.
Lemma signed_names_nonempty names u : validate_signed_headers names = Ok u → names ≠ [].
Proof. by destruct names. Qed.

(** C26: a Signature Version 4 signature covers the request: the canonical request
    determines the method, the path, the query, the list of signed headers, the
    value of each of them up to runs of white space, and the payload hash, for
    requests whose parts are single lines and whose header names have no
    semicolon, as HTTP has them. *)
Theorem canonical_request_covers m p q h names ph m' p' q' h' names' ph' canonical :
  canonical_sigv4_request m p q h names ph = Ok canonical →
  canonical_sigv4_request m' p' q' h' names' ph' = Ok canonical →
  Forall no_newline [m; p; q; ph; m'; p'; q'; ph'] →
  Forall (λ name, no_newline name ∧ str_contains_char ";" name = false) (names ++ names') →
  m = m' ∧ p = p' ∧ q = q' ∧ ph = ph' ∧ names = names' ∧
  Forall (λ name, ∃ v v', required_single_signed_header h name = Ok v ∧
    required_single_signed_header h' name = Ok v' ∧
    normalize_header_value v = normalize_header_value v') names.
Proof.
  unfold canonical_sigv4_request. intros (u & Hval & H)%result_bind_ok (u' & Hval' & H')%result_bind_ok.
  apply result_bind_ok in H as (block & Hb & [= <-]).
  apply result_bind_ok in H' as (block' & Hb' & [= Heq]).
  intros Hlines [Hn Hn']%Forall_app.
  repeat (apply Forall_cons in Hlines as [? Hlines]). symmetry in Heq.
  do 3 (apply str_split_first in Heq as [-> Heq]; [|done..]; rewrite ?str_app_nil_l in Heq).
  rewrite !str_app_assoc in Heq. rewrite <-!(str_app_assoc _ newline) in Heq.
  apply str_split_last in Heq as [Heq ->]; [|done..].
  apply str_split_last in Heq as [-> Hj]; [|by apply joined_names_line..].
  assert (names = names') as ->.
  { rewrite <-(split_on_join ";" names), <-(split_on_join ";" names'); [by rewrite Hj|..].
    - by eapply signed_names_nonempty.
    - eapply Forall_impl; [done|]. by intros ? [].
    - by eapply signed_names_nonempty.
    - eapply Forall_impl; [done|]. by intros ? []. }
  split_and!; try done. by eapply canonical_headers_inj.
Qed.

(** ** Witnesses *)

Import ToyService ToyDist.

Definition sample_claims : EdgeTokenClaims :=
  mkEdgeTokenClaims "tenant-alpha" (Some "docs") (Some "reports/q1") None PublicCiphertext "GET" 9000.
Definition sample_edge_token : string := Eval vm_compute in
  default "" (result_ok (mint_edge_token concrete_dist sample_claims)).

(** A signed request for a stored key. *)
Definition sample_key : SigV4AccessKeyRecord :=
  {| ak_access_key_id := "AK"; ak_secret_access_key := "secret"; ak_tenant_id := "tenant-alpha";
     ak_namespace_prefix := None; ak_path_prefix := None; ak_max_object_size := None;
     ak_storage_classes := []; ak_key_policy_id := "kp"; ak_metadata_visibility := EncryptedOnly;
     ak_enabled := true |}.
Definition key_world : World disk :=
  (register_sigv4_access_key concrete_dist sample_key disk_world).2.
Definition sample_headers (signature : string) : HeaderMap :=
  [("host", as_bytes "s3.local"); ("x-amz-date", as_bytes "19700101T000001Z");
   ("x-amz-content-sha256", as_bytes "UNSIGNED-PAYLOAD");
   ("authorization", as_bytes ("AWS4-HMAC-SHA256 Credential=AK/19700101/us-east-1/s3/aws4_request, "
      +:+ "SignedHeaders=host;x-amz-date, Signature=" +:+ signature))].
Definition sign_sample (canonical : result ApiError string) : string :=
  default "" (result_ok (c ← canonical;
    sigv4_signature "secret" "19700101" "us-east-1" "s3"
      (sigv4_string_to_sign "19700101T000001Z" (credential_scope "19700101" "us-east-1" "s3") c))).
Definition sample_binding : HttpRequestBinding := Eval vm_compute in
  mkHttpRequestBinding "GET" "/docs/reports/q1" ""
    (sample_headers (sign_sample (canonical_sigv4_request "GET" "/docs/reports/q1" ""
       (sample_headers "") ["host"; "x-amz-date"] "UNSIGNED-PAYLOAD"))) [].

(** Witness of C11. *)
Lemma sigv4_header_sound_witness :
  ∃ auth record, (authenticate_header_sigv4 concrete_dist sample_binding key_world).1 = Ok auth ∧
    key_stored concrete_dist (files key_world) record ∧ sigv4_caller record "GET" auth.
Proof.
  destruct (run_ok (authenticate_header_sigv4 concrete_dist sample_binding) key_world)
    as (auth & w' & E); [vm_compute; reflexivity|].
  destruct (sigv4_header_sound concrete_dist sample_binding key_world auth w' E)
    as (a & p & record & d & i & c & H).
  exists auth, record. rewrite E. split_and!; [done|apply H|apply H].
Defined.

(** A presigned URL for the same key. *)
Definition presign_query : string :=
  "X-Amz-Algorithm=AWS4-HMAC-SHA256&X-Amz-Credential=AK/19700101/us-east-1/s3/aws4_request" +:+
  "&X-Amz-Date=19700101T000001Z&X-Amz-Expires=604800&X-Amz-SignedHeaders=host".
Definition presigned_binding : HttpRequestBinding := Eval vm_compute in
  mkHttpRequestBinding "GET" "/docs/reports/q1"
    (presign_query +:+ "&X-Amz-Signature=" +:+
     sign_sample (canonical_sigv4_request "GET" "/docs/reports/q1" presign_query
       [("host", as_bytes "s3.local")] ["host"] "UNSIGNED-PAYLOAD"))
    [("host", as_bytes "s3.local")] [].

(** Witness of C33. *)
Lemma presigned_url_window_witness :
  ∃ auth issued,
    (authenticate_presigned_sigv4 concrete_dist presigned_binding key_world).1 = Ok auth ∧
    clock (w_ticks key_world) - MAX_SIGV4_CLOCK_SKEW_MS <= issued.
Proof.
  destruct (run_ok (authenticate_presigned_sigv4 concrete_dist presigned_binding) key_world)
    as (auth & w' & E); [vm_compute; reflexivity|].
  destruct (presigned_url_window concrete_dist presigned_binding key_world auth w' E)
    as (params & date & expires & issued & record & scope & region & service & canonical &
        signature & _ & _ & _ & _ & _ & _ & [Hwindow _] & _).
  exists auth, issued. rewrite E. split; [reflexivity|exact Hwindow].
Defined.

(** Two requests that differ in the white space of a header. *)
Definition two_blanks : HeaderMap := [("host", as_bytes "s3.local"); ("x-note", as_bytes "a  b")].
Definition one_blank : HeaderMap := [("host", as_bytes "s3.local"); ("x-note", as_bytes "a b ")].
Definition sample_canonical : string := Eval vm_compute in
  default "" (result_ok
    (canonical_sigv4_request "GET" "/docs" "list" two_blanks ["host"; "x-note"] "UNSIGNED-PAYLOAD")).

(** Witness of C26. *)
Lemma canonical_request_covers_witness :
  Forall (λ name, ∃ v v', required_single_signed_header two_blanks name = Ok v ∧
    required_single_signed_header one_blank name = Ok v' ∧
    normalize_header_value v = normalize_header_value v') ["host"; "x-note"].
Proof.
  apply (canonical_request_covers "GET" "/docs" "list" two_blanks ["host"; "x-note"]
    "UNSIGNED-PAYLOAD" "GET" "/docs" "list" one_blank ["host"; "x-note"] "UNSIGNED-PAYLOAD"
    sample_canonical).
  - vm_compute. reflexivity.
  - vm_compute. reflexivity.
  - repeat constructor.
  - repeat constructor.
Defined.
