(* ===== verification/MultipartProps.v ===== *)
(** * Properties of multipart uploads

    The first pass of a completion reads the listed parts and computes the chunk
    references of the manifest; it assembles exactly the object that a single
    upload of the concatenated parts would have. *)

From Stdlib Require Import ZArith Lia Ascii String Bool.
From stdpp Require Import base option list strings gmap numbers sorting.
From S2P Require Import Prelude RustStr Path Core Cbor CborFacts Auth Crypto Store ServiceState ServiceFacts Access Namespaces Objects Service Chunker Distribution Buckets DistObjects Multipart DistFacts DistService ConcreteService ConcreteDist Locks.

Section multipart.
Context `{DDL : DistDepsLaws} {B : Backend} `{BL : BackendLaws B} `{L : BackendListing B}.
Context (ds : DistributionService).
Implicit Types w : World B.

(** The bytes a listed part stands for: stored under its number, with the
    announced digest. *)
Definition part_body (f : gmap string bytes) (t : TenantId) (upload_id : string)
  (part : CompletedMultipartPart) (b : bytes) : Prop :=
  dist_stored_bytes ds f t MULTIPART_PARTS_STORE
    (multipart_part_store_key upload_id (cp_part_number part)) = Some b ∧
  cid_from_bytes b = cp_etag part.

Lemma part_ciphertext_ok t u part w b w' :
  multipart_part_ciphertext ds t u part w = (Ok b, w') →
  files w' = files w ∧ part_body (files w) t u part b.
Proof.
  unfold multipart_part_ciphertext. cbn zeta.
  intros (o & w1 & (Hf & _ & _)%dist_read_json_ok & H)%ST_bind_ok.
  apply ST_bind_ok in H as (meta & w2 & Hm & H). unfold lift_result in Hm. injection Hm as _ <-.
  destruct (negb _ || negb _); [done|]. destruct (negb _); [done|].
  apply ST_bind_ok in H as (o' & w3 & (Hf' & Ho')%dist_read_bytes_ok & H).
  apply ST_bind_ok in H as (b' & w4 & Hb & H). unfold lift_result in Hb. injection Hb as Hb <-.
  destruct (negb (mpp_length meta =? len_u64 b') || _) eqn:E; [done|].
  apply ST_ret_ok in H as [<- <-]. apply orb_false_iff in E as [_ E].
  apply negb_false_iff, String.eqb_eq in E. split; [congruence|]. split; [|done].
  rewrite <-Hf, <-Ho'. by destruct o'; cbn in Hb; simplify_eq.
Qed.

(** Strictly ascending, from a lower bound on. *)
Fixpoint ascending_from (previous : option Z) (numbers : list Z) : Prop :=
  match numbers with
  | [] => True
  | n :: rest => from_option (λ p, p < n) True previous ∧ ascending_from (Some n) rest
  end.

(** Collecting chunk references does not depend on the state. *)
Lemma fill_append_pure {S} fuel rem pending c (s : S) :
  fill_loop FIXED_CHUNK_SIZE append_fixed_chunk_ref fuel rem pending c s =
  ((fill_loop FIXED_CHUNK_SIZE append_fixed_chunk_ref fuel rem pending c tt).1, s).
Proof.
  revert rem pending c. induction fuel as [|fuel IH]; intros [|x rem] pending c;
    cbn [fill_loop]; [done..|]. cbn zeta. destruct (_ =? _); [|apply IH].
  rewrite !ST_bind_run. unfold append_fixed_chunk_ref at 1 3. rewrite !ST_bind_run.
  unfold lift_result. destruct (advance_fixed_chunk_cursor _ _ _) as [[i o]|e]; [|done]. apply IH.
Qed.
Lemma collect_pure {S} b pending c (s : S) :
  collect_fixed_chunk_refs b pending c s = ((collect_fixed_chunk_refs b pending c tt).1, s).
Proof.
  unfold collect_fixed_chunk_refs, run_loop. rewrite !ST_bind_run, fill_append_pure.
  by destruct (fill_loop _ _ _ _ _ _ _) as [[[]|] []].
Qed.

(** The pass over the listed parts is the pass over their bodies. *)
Lemma collect_listed_ok t u parts prev pending c w c' w' :
  collect_listed_parts ds t u parts prev pending c w = (Ok c', w') →
  files w' = files w ∧ ascending_from prev (cp_part_number <$> parts) ∧
  ∃ bodies, Forall2 (part_body (files w) t u) parts bodies ∧
    (collect_parts bodies pending c tt).1 = Ok c'.
Proof.
  revert prev pending c w. induction parts as [|part parts IH]; intros prev pending c w;
    cbn [collect_listed_parts].
  - unfold flush_fixed_chunk_ref, flush_pending. intros H. split; [|split; [done|]].
    + destruct pending; [by apply ST_ret_ok in H as [_ <-]|].
      unfold append_fixed_chunk_ref in H. rewrite ST_bind_run in H. unfold lift_result in H.
      destruct (advance_fixed_chunk_cursor _ _ _) as [[i o]|]; [|done].
      by apply ST_ret_ok in H as [_ <-].
    + exists []. split; [done|]. cbn [collect_parts]. unfold flush_fixed_chunk_ref, flush_pending.
      destruct pending; [by apply ST_ret_ok in H as [-> _]|].
      unfold append_fixed_chunk_ref in *. rewrite ST_bind_run in *. unfold lift_result in *.
      destruct (advance_fixed_chunk_cursor _ _ _) as [[i o]|]; [|done].
      by apply ST_ret_ok in H as [<- _].
  - destruct (from_option _ _ _) eqn:Eo; [done|]. intros (b & w1 & [Hf Hb]%part_ciphertext_ok & H)%ST_bind_ok.
    apply ST_bind_ok in H as ([p2 c2] & w2 & Hc & H). rewrite collect_pure in Hc.
    injection Hc as Hc <-. apply IH in H as (Hf' & Hasc & bodies & Hbodies & Hcol).
    split; [congruence|]. split.
    + split; [|done]. destruct prev as [q|]; cbn in *; [lia|done].
    + exists (b :: bodies). split; [constructor; [done|by rewrite <-Hf]|].
      cbn [collect_parts]. rewrite ST_bind_run, collect_pure, Hc. done.
Qed.

(** C29: the manifest of a completed multipart upload is the manifest of a single
    upload: the first pass reads the listed parts, whose numbers are strictly
    ascending and whose bytes have the announced digests, and computes exactly the
    chunk references and the size that [chunk_ciphertext] gives for their
    concatenation; it writes nothing. *)
Theorem multipart_assembles_parts t upload_id parts w c w' :
  collect_listed_parts ds t upload_id parts None [] (mkChunkRefCursor [] 0 0) w = (Ok c, w') →
  files w' = files w ∧ ascending_from None (cp_part_number <$> parts) ∧
  ∃ bodies, Forall2 (part_body (files w) t upload_id) parts bodies ∧
    cc_chunk_refs c = staged_chunk_ref <$> chunk_ciphertext (List.concat bodies) ∧
    cc_next_chunk_offset c = len_u64 (List.concat bodies).
Proof.
  intros (Hf & Hasc & bodies & Hbodies & Hcol)%collect_listed_ok. split_and!; [done..|].
  exists bodies. split; [done|]. rewrite collect_parts_whole in Hcol.
  destruct (_ <=? _); [|done]. by injection Hcol as <-.
Qed.
End multipart.

Import ToyService ToyDist.

(** Witness: two parts of one upload. *)
Definition multipart_request : CreateMultipartUploadRequest :=
  {| cmu_tenant_id := "tenant-alpha"; cmu_bucket := "docs"; cmu_key := "reports/q2";
     cmu_access_profile := PublicCiphertext; cmu_payload_plaintext := false;
     cmu_content_type := "text/plain"; cmu_encryption_profile_id := "ep";
     cmu_key_policy_id := "kp"; cmu_metadata_visibility := EncryptedOnly;
     cmu_content_encryption_suite := "suite"; cmu_key_wrapping_suite := "wrap";
     cmu_wrapped_object_keys := [mkWrappedObjectKeyRecord "r" "s" "k" 1 None];
     cmu_server_visible_metadata := ∅; cmu_encrypted_client_metadata := ∅;
     cmu_storage_class := ""; cmu_idempotency_key := "idem-m" |}.
Definition parts_run : ST (World disk) ApiError (string * list CompletedMultipartPart) :=
  _ ← create_bucket concrete_dist writer "tenant-alpha" "docs";
  created ← create_multipart_upload concrete_dist writer multipart_request;
  let u := cmur_upload_id created in
  one ← upload_part concrete_dist writer (mkUploadPartRequest "tenant-alpha" u 1) (as_bytes "Hello, ");
  two ← upload_part concrete_dist writer (mkUploadPartRequest "tenant-alpha" u 2) (as_bytes "world");
  mret (u, [mkCompletedMultipartPart 1 (upr_etag one); mkCompletedMultipartPart 2 (upr_etag two)]).
Definition parts_world : World disk := (parts_run disk_world).2.
Definition sample_upload : string * list CompletedMultipartPart := Eval vm_compute in
  default ("", []) (result_ok (parts_run disk_world).1).

(** Witness of C29. *)
Lemma multipart_assembles_parts_witness :
  ∃ bodies c, Forall2 (part_body concrete_dist (files parts_world) "tenant-alpha" sample_upload.1)
      sample_upload.2 bodies ∧
    cc_chunk_refs c = staged_chunk_ref <$> chunk_ciphertext (List.concat bodies).
Proof.
  destruct (run_ok (collect_listed_parts concrete_dist "tenant-alpha" sample_upload.1
    sample_upload.2 None [] (mkChunkRefCursor [] 0 0)) parts_world) as (c & w' & E);
    [vm_compute; reflexivity|].
  destruct (multipart_assembles_parts concrete_dist "tenant-alpha" sample_upload.1 sample_upload.2
    parts_world c w' E) as (_ & _ & bodies & Hbodies & Hrefs & _).
  exists bodies, c. split; [exact Hbodies|exact Hrefs].
Defined.
