(* ===== verification/DistProps.v ===== *)
(** * Properties of the distribution service across its components

    The distribution service signs the namespace records it hands to the service
    below, encrypts plaintext uploads for the trusted edge, and keeps a registry of
    buckets.  The theorems here compose these with the parts that check, decrypt
    and read. *)

From Stdlib Require Import ZArith Lia Ascii String Bool.
From stdpp Require Import base option list strings gmap numbers sorting.
From S2P Require Import Prelude RustStr Path Core Cbor CborFacts Concrete Auth Crypto Store ServiceState ServiceFacts Access Namespaces Objects Service Chunker Distribution Buckets DistObjects Multipart DistFacts DistService ConcreteService ConcreteDist Locks DistAccess.

(** ** Signed namespace records *)

Section signing.
Context `{DDL : DistDepsLaws} (ds : DistributionService).

(** The registry of the service below trusts the signing key of [ds]. *)
Definition registers_signer (registry : IssuerRegistry) : Prop :=
  ∃ issuer, resolve_key_id registry (as_bytes (ds_namespace_signing_key_id ds)) = Some issuer ∧
    algorithm issuer = "Ed25519" ∧
    b64url_decode (public_key_b64 issuer) =
      Some (ed25519_verifying_key (ds_namespace_signing_key ds)) ∧
    length (ed25519_verifying_key (ds_namespace_signing_key ds)) = 32%nat ∧
    ed25519_key_valid (ed25519_verifying_key (ds_namespace_signing_key ds)) = true.

(** The records that the distribution service signs are accepted below:
    verification under a registry that holds its key returns exactly the record
    that was signed. *)
Theorem signed_record_roundtrip record signed registry :
  sign_namespace_record ds record = Ok signed → ds_namespace_signing_key_id ds ≠ "" →
  registers_signer registry →
  verify_signed_namespace_record signed registry = Ok record.
Proof.
  unfold sign_namespace_record. intros (payload & Hp & H)%result_bind_ok Hid
    (issuer & Hissuer & Halg & Hkey & Hlen & Hvalid).
  apply result_bind_ok in H as (token & Ht & [= <-]).
  destruct (record_to_cbor record) as [x|] eqn:Er; [|done]. injection Hp as ->.
  destruct (cose_sign1_to_vec _ _ _) as [x|] eqn:Ec; [|done]. injection Ht as ->.
  destruct (cose_sign1_inverse _ _ _ _ Ec) as (cose & Hslice & Hpay & Hkid & Hsig & Htbs).
  destruct (ed25519_signed (ds_namespace_signing_key ds)
    (cose_sign1_tbs (as_bytes (ds_namespace_signing_key_id ds)) payload)) as [Hform Hverify].
  unfold verify_signed_namespace_record, verify_cose_sign1_payload.
  rewrite b64url_decode_encode. cbn [ok_or]. rewrite ok_bind, Hslice. cbn [ok_or].
  rewrite ok_bind, Hpay. cbn [ok_or]. rewrite ok_bind, (record_cbor_inverse _ _ Er).
  cbn [ok_or]. rewrite ok_bind. cbn [payload_iss mutation_issuer].
  rewrite Hkid, bool_decide_eq_false_2 by by intros ?%(f_equal of_bytes); rewrite of_as_bytes in *.
  cbn [negb]. rewrite Hissuer. cbn [ok_or]. rewrite ok_bind, Halg. cbn [String.eqb negb].
  cbn [payload_aud mutation_issuer]. rewrite andb_false_r, Hkey. cbn [ok_or].
  by rewrite ok_bind, Hlen, Hvalid, Hsig, Htbs, Hform, Hverify.
Qed.
End signing.

(** ** Plaintext uploads through the trusted edge *)

Section trusted_edge.
Context `{DDL : DistDepsLaws} {B : Backend} (ds : DistributionService).
Context `{KL : !KmsLaws (ds_store_kms ds)}.
Implicit Types w : World B.

Definition names_trusted_edge (entry : WrappedObjectKeyRecord) : bool :=
  String.eqb (wk_recipient_key_id entry) TRUSTED_EDGE_RECIPIENT_KEY_ID.

Lemma find_appended (f : WrappedObjectKeyRecord → bool) l x :
  existsb f l = false → f x = true → List.find f (l ++ [x]) = Some x.
Proof.
  induction l as [|y l IH]; cbn; [by intros _ ->|]. intros [Hy Hl]%orb_false_iff Hx.
  rewrite Hy. auto.
Qed.

Lemma map_error_zoom_ok {E F A} (f : E → F) (m : ST nat E A) w a w' :
  map_error f (zoom w_draws (set_draws (B:=B)) m) w = (Ok a, w') →
  ∃ d, m (w_draws w) = (Ok a, d).
Proof.
  unfold map_error. rewrite ST_bind_run. unfold attempt, zoom.
  destruct (m (w_draws w)) as [[x|e] d]; cbn; [|done]. intros [= -> _]. by exists d.
Qed.

(** C39: plaintext uploads through the trusted edge come back: what [put_object]
    encrypts under a fresh key, whose wrapping it adds to the keys of the request,
    [get_object] unwraps and decrypts to the payload, from any manifest that carries
    the metadata and the keys of the upload.  The request must not bring an entry
    for the trusted edge of its own: the fresh key would not be wrapped then. *)
Theorem trusted_edge_roundtrip request payload manifest w prepared w' :
  existsb names_trusted_edge (po_wrapped_object_keys request) = false →
  encrypt_trusted_edge ds request payload w = (Ok prepared, w') →
  ed_server_visible_metadata (mf_encryption_descriptor manifest) =
    pp_server_visible_metadata prepared →
  ed_wrapped_object_keys (mf_encryption_descriptor manifest) = pp_wrapped_object_keys prepared →
  decrypt_trusted_edge ds (po_tenant_id request) manifest (pp_ciphertext prepared) = Ok payload.
Proof.
  intros Hnone H Hmeta Hkeys. unfold encrypt_trusted_edge in H.
  apply ST_bind_ok in H as (key & w1 & Hkey & H). apply map_error_zoom_ok in Hkey as [d1 Hkey].
  assert (Hlen : length key = 32%nat).
  { unfold generate_object_data_key in Hkey. rewrite fill_bytes_run in Hkey.
    injection Hkey as <- _. apply os_rng_length. }
  apply ST_bind_ok in H as (chunk & w2 & Hchunk & H).
  apply map_error_zoom_ok in Hchunk as [d2 Hchunk].
  apply ST_bind_ok in H as (keys & w3 & Hwrap & H).
  change (existsb _ _) with (existsb names_trusted_edge (po_wrapped_object_keys request)) in Hwrap.
  rewrite Hnone in Hwrap. apply ST_bind_ok in Hwrap as (wrapped & w4 & Hwrap & Hr).
  apply map_error_zoom_ok in Hwrap as [d3 Hwrap]. apply ST_ret_ok in Hr as [<- _].
  apply ST_ret_ok in H as [<- _].
  cbn [pp_server_visible_metadata pp_wrapped_object_keys pp_ciphertext] in *.
  unfold decrypt_trusted_edge. cbn zeta. rewrite Hmeta, Hkeys, lookup_insert_eq. cbn [ok_or].
  rewrite ok_bind.
  change (List.find _ ?l) with (List.find names_trusted_edge l).
  rewrite find_appended; [|done|].
  2:{ apply String.eqb_eq. by eapply kms_wrap_recipient. }
  cbn [ok_or]. rewrite ok_bind, (kms_unwrap_wrap _ _ _ _ _ _ Hlen Hwrap). cbn [map_err].
  by rewrite ok_bind, (client_chunk_inverse _ _ _ _ _ Hchunk).
Qed.
End trusted_edge.

(** ** The bucket registry *)

Section registry.
Context `{DDL : DistDepsLaws} {B : Backend} `{BL : BackendLaws B} `{L : BackendListing B}.
Context `{LL : !BackendListingLaws B} (ds : DistributionService) `{KL : !KmsLaws (ds_store_kms ds)}.
Implicit Types w : World B.

(** The registry of a tenant as a partial map from bucket names, and a change of
    it at one name. *)
Definition registry (f : gmap string bytes) (t : TenantId) (name : string) : option BucketRecord :=
  dist_stored ds f t BUCKET_REGISTRY_STORE name.
Definition registry_key (t : TenantId) (name : string) : string :=
  dist_store_key t BUCKET_REGISTRY_STORE name.
Definition registry_update (f f' : gmap string bytes) (t : TenantId) (name : string)
  (o : option BucketRecord) : Prop :=
  registry f' t name = o ∧
  ∀ t' name', registry_key t' name' ≠ registry_key t name →
    registry f' t' name' = registry f t' name'.

Lemma run_frame {E A} (R : World B → World B → Prop) (m : ST (World B) E A) w r w' :
  m w = (r, w') → preserves R m → R w w'.
Proof. intros Hm HR. specialize (HR w). by rewrite Hm in HR. Qed.

Lemma registry_ext f f' t name :
  f' !! registry_key t name = f !! registry_key t name → registry f' t name = registry f t name.
Proof. apply dist_stored_ext. Qed.

(** What leaves the registry directories alone. *)
Lemma registry_kept t kinds w w' t' name :
  confined t kinds w w' → Forall (λ k, slash_free k = true) kinds →
  BUCKET_REGISTRY_STORE ∉ kinds → registry (files w') t' name = registry (files w) t' name.
Proof using DDL BL.
  intros Hc Hfree Hk. apply registry_ext.
  eapply (confined_lookup t kinds w w' t' BUCKET_REGISTRY_STORE); [done|done|done| |by left].
  apply dist_key_in_dir.
Qed.
Lemma other_kind_kept t k key w w' t' name :
  agree_off (dist_store_key t k key) (files w) (files w') → slash_free k = true →
  k ≠ BUCKET_REGISTRY_STORE → registry (files w') t' name = registry (files w) t' name.
Proof using DDL.
  intros Hoff Hfree Hk. apply registry_ext. eapply agree_off_lookup; [done|]. intros Heq.
  apply Hk. eapply (in_dir_unique t k t' BUCKET_REGISTRY_STORE (dist_store_key t k key));
    [done|done|apply dist_key_in_dir|]. rewrite <-Heq. apply dist_key_in_dir.
Qed.

Lemma create_bucket_registers auth t bucket w r w' :
  create_bucket ds auth t bucket w = (Ok r, w') →
  ∃ name, canonical_bucket_name bucket = Ok name ∧ registry (files w) t name = None ∧
    bk_tenant_id r = t ∧ bk_bucket r = name ∧ bk_namespace r = name ∧
    registry_update (files w) (files w') t name (Some r).
Proof.
  unfold create_bucket. intros (name & w0 & Hn & H)%ST_bind_ok. unfold lift_result in Hn.
  injection Hn as Hn <-. apply ST_bind_ok in H as (u & w1 & Hu & H).
  unfold lift_result in Hu. injection Hu as _ <-.
  apply ST_bind_ok in H as (o & w2 & (Hf & Ho & _)%dist_read_json_ok & H).
  destruct o as [x|]; [done|]. apply ST_bind_ok in H as (at_ms & w3 & Hnow & H).
  injection Hnow as <- <-. cbn zeta in H.
  apply ST_bind_ok in H as (u2 & w4 & [Hoff Hst]%dist_write_json_ok & H).
  apply ST_bind_ok in H as (at2 & w5 & Hnow & H). injection Hnow as <- <-.
  apply ST_bind_ok in H as (u3 & w6 & [Hoff2 _]%dist_write_json_ok & H).
  apply ST_ret_ok in H as [<- <-]. exists name. split_and!; [done|by symmetry|done..|].
  assert (Hkeep : ∀ t' name', registry (files w6) t' name' = registry (files w4) t' name').
  { intros t' name'. eapply other_kind_kept; [exact Hoff2|done|done]. }
  split; [by rewrite Hkeep|]. intros t' name' Hne. rewrite Hkeep. apply registry_ext.
  rewrite <-Hf. by eapply (agree_off_lookup (registry_key t name)).
  all: apply _.
Qed.

Lemma head_bucket_reads auth t bucket w r w' :
  head_bucket ds auth t bucket w = (Ok r, w') →
  ∃ name, canonical_bucket_name bucket = Ok name ∧ registry (files w) t name = Some r ∧
    files w' = files w.
Proof using DDL BL.
  unfold head_bucket. intros (name & w0 & Hn & H)%ST_bind_ok. unfold lift_result in Hn.
  injection Hn as Hn <-. apply ST_bind_ok in H as (u & w1 & Hu & H).
  pose proof (same_read_scope ds auth t name None w) as Hs. rewrite Hu in Hs. cbn in Hs.
  apply ST_bind_ok in H as (o & w2 & (Hf & Ho & _)%dist_read_json_ok & H).
  unfold lift_result in H. injection H as H <-. exists name.
  rewrite Hs in Ho, Hf. split_and!; [done| |done].
  unfold registry. rewrite <-Ho. by destruct o; cbn in H; simplify_eq.
Qed.

Lemma delete_bucket_unregisters auth t bucket w u w' :
  delete_bucket ds auth t bucket w = (Ok u, w') →
  ∃ name, canonical_bucket_name bucket = Ok name ∧
    registry_update (files w) (files w') t name None.
Proof using DDL BL LL.
  unfold delete_bucket. intros (name & w0 & Hn & H)%ST_bind_ok. unfold lift_result in Hn.
  injection Hn as Hn <-. exists name. split; [done|].
  apply ST_bind_ok in H as (u1 & w1 & Hu & H). unfold lift_result in Hu. injection Hu as _ <-.
  apply ST_bind_ok in H as (r & w2 & (_ & _ & _ & Hf2)%head_bucket_reads & H).
  apply ST_bind_ok in H as (objects & w3 & Hl & H).
  assert (Hc3 : confined t access_kinds w2 w3) by (eapply run_frame; [apply Hl|confine]).
  destruct (negb _); [done|]. apply ST_bind_ok in H as (uploads & w4 & Hm & H).
  assert (Hc4 : confined t access_kinds w3 w4) by (eapply run_frame; [apply Hm|confine]).
  destruct uploads; [done|].
  apply ST_bind_ok in H as (u5 & w5 & Hd & H).
  destruct (dist_delete_spec t BUCKET_REGISTRY_STORE name w4) as [Hoff Hdel].
  rewrite Hd in Hoff, Hdel. cbn in Hoff, Hdel. destruct u5.
  destruct (dist_delete_spec t DISTRIBUTION_METADATA_STORE ("bucket-meta-" +:+ name) w5)
    as [Hoff' _]. rewrite H in Hoff'. cbn in Hoff'.
  assert (Hlast : ∀ t' name', registry (files w') t' name' = registry (files w5) t' name')
    by (intros t' name'; eapply other_kind_kept; [exact Hoff'|done|done]).
  assert (Hacc : Forall (λ k, slash_free k = true) access_kinds ∧
                 BUCKET_REGISTRY_STORE ∉ access_kinds).
  { split; [by repeat constructor|]. refine (bool_decide_eq_true_1 _ _). reflexivity. }
  split; [rewrite Hlast; unfold registry, dist_stored, dist_stored_bytes;
          by rewrite (Hdel eq_refl), lookup_delete_eq|].
  intros t' name' Hne. rewrite Hlast.
  rewrite (registry_ext (files w4)) by (by eapply (agree_off_lookup (registry_key t name))).
  rewrite (registry_kept _ _ _ _ t' name' Hc4) by apply Hacc.
  rewrite (registry_kept _ _ _ _ t' name' Hc3) by apply Hacc. by rewrite Hf2.
Qed.

#[local] Instance bucket_summary_le_total : Total bucket_summary_le.
Proof. intros a b. apply (total String.le). Qed.

Lemma list_buckets_sound auth t w l w' :
  list_buckets ds auth t w = (Ok l, w') →
  Sorted bucket_summary_le l ∧
  ∀ s, s ∈ l → ∃ r name b p, s = bucket_summary r ∧ in_dir t BUCKET_REGISTRY_STORE name ∧
    files w !! name = Some b ∧ dist_decrypt ds t BUCKET_REGISTRY_STORE b = Ok p ∧
    from_slice p = Ok r.
Proof.
  unfold list_buckets. intros (u & w0 & Hu & H)%ST_bind_ok. unfold lift_result in Hu.
  injection Hu as _ <-. apply ST_bind_ok in H as (records & w1 & Hl & H).
  apply ST_ret_ok in H as [<- <-]. split; [apply Sorted_merge_sort; apply _|].
  intros s. rewrite merge_sort_Permutation, list_elem_of_fmap. intros (r & -> & Hin).
  destruct (list_json_sound ds _ _ _ _ _ _ Hl Hin) as (name & b & p & ?). by exists r, name, b, p.
Qed.

(** The bucket registry is a map: a successful [create_bucket] takes a name
    that was free and binds it to the returned record, which carries the tenant and
    the canonical name; [head_bucket] returns what the name is bound to and changes
    nothing; [delete_bucket] frees the name; no other name is affected; and
    [list_buckets] lists, in name order, records of the tenant's registry only. *)
Theorem bucket_registry_refines_map auth t bucket w :
  (∀ r w', create_bucket ds auth t bucket w = (Ok r, w') →
     ∃ name, canonical_bucket_name bucket = Ok name ∧ registry (files w) t name = None ∧
       bk_tenant_id r = t ∧ bk_bucket r = name ∧ bk_namespace r = name ∧
       registry_update (files w) (files w') t name (Some r)) ∧
  (∀ r w', head_bucket ds auth t bucket w = (Ok r, w') →
     ∃ name, canonical_bucket_name bucket = Ok name ∧ registry (files w) t name = Some r ∧
       files w' = files w) ∧
  (∀ u w', delete_bucket ds auth t bucket w = (Ok u, w') →
     ∃ name, canonical_bucket_name bucket = Ok name ∧
       registry_update (files w) (files w') t name None) ∧
  (∀ l w', list_buckets ds auth t w = (Ok l, w') →
     Sorted bucket_summary_le l ∧
     ∀ s, s ∈ l → ∃ r name b p, s = bucket_summary r ∧ in_dir t BUCKET_REGISTRY_STORE name ∧
       files w !! name = Some b ∧ dist_decrypt ds t BUCKET_REGISTRY_STORE b = Ok p ∧
       from_slice p = Ok r).
Proof.
  split_and!.
  - apply create_bucket_registers.
  - apply head_bucket_reads.
  - apply delete_bucket_unregisters.
  - apply list_buckets_sound.
Qed.
End registry.

(** ** Witnesses *)

Import ToyService ToyDist.

Definition plain_request : PutObjectRequest :=
  {| po_tenant_id := "tenant-alpha"; po_bucket := "docs"; po_key := "reports/q3";
     po_access_profile := TrustedEdgeV1; po_payload_plaintext := true;
     po_content_type := "text/plain"; po_encryption_profile_id := "ep"; po_key_policy_id := "kp";
     po_metadata_visibility := EncryptedOnly; po_content_encryption_suite := "";
     po_key_wrapping_suite := "";
     po_wrapped_object_keys := [mkWrappedObjectKeyRecord "someone" "s" "k" 1 None];
     po_server_visible_metadata := ∅; po_encrypted_client_metadata := ∅; po_storage_class := "";
     po_idempotency_key := "idem-p" |}.
Definition manifest_of (prepared : PreparedPayload) : Manifest :=
  let d := mf_encryption_descriptor sample_manifest in
  mkManifest 1 "tenant-alpha" 5 5 "fixed-1m" [] "text/plain" 0
    (mkEncryptionDescriptor (ed_encryption_profile_id d) (ed_key_policy_id d)
       (ed_content_encryption_suite d) (ed_key_wrapping_suite d) (ed_metadata_visibility d)
       (pp_wrapped_object_keys prepared) (pp_server_visible_metadata prepared) ∅).

(** Witness of C39: a payload for the trusted edge, with a key of someone else as well. *)
Lemma trusted_edge_roundtrip_witness :
  ∃ prepared,
    decrypt_trusted_edge concrete_dist "tenant-alpha" (manifest_of prepared)
      (pp_ciphertext prepared) = Ok (as_bytes "hello").
Proof.
  destruct (run_ok (encrypt_trusted_edge concrete_dist plain_request (as_bytes "hello")) disk_world)
    as (prepared & w' & E); [vm_compute; reflexivity|].
  exists prepared.
  apply (trusted_edge_roundtrip concrete_dist plain_request (as_bytes "hello")
           (manifest_of prepared) disk_world prepared w').
  - reflexivity.
  - exact E.
  - reflexivity.
  - reflexivity.
Defined.

(** [delete_object] checks the lock under the bucket name as the request spells it,
    not under the canonical name it deletes from: with a percent-encoded spelling of
    the same bucket the check does not find the legal hold. *)
Example legal_hold_missed_by_spelling :
  canonical_bucket_name "d%6Fcs" = Ok "docs" ∧
  is_ok (ensure_object_mutation_unlocked concrete_dist "tenant-alpha" "docs" "reports/q1" true
           writer locked_world).1 = false ∧
  is_ok (ensure_object_mutation_unlocked concrete_dist "tenant-alpha" "d%6Fcs" "reports/q1" true
           writer locked_world).1 = true.
Proof. split_and!; vm_compute; reflexivity. Qed.
