(* ===== verification/UrlStr.v ===== *)
(** * Strings of routes

    What the HTTP servers use of [str] to take paths, hosts and queries apart:
    suffixes, repeated trimming, splitting at a pattern, and small integers. *)

From Stdlib Require Import ZArith Lia Ascii String Bool.
From stdpp Require Import base option list strings gmap numbers pretty.
From S2P Require Import Prelude RustStr Path Core Auth Store AmzDate SigV4.

(** [s.trim_matches(c)] *)
Fixpoint trim_start_char (c : ascii) (s : string) : string :=
  match s with
  | EmptyString => ""
  | String x s' => if Ascii.eqb x c then trim_start_char c s' else s
  end.
Definition str_rev (s : string) : string := of_bytes (rev (as_bytes s)).
Definition trim_end_char (c : ascii) (s : string) : string :=
  str_rev (trim_start_char c (str_rev s)).

Definition ends_with (suffix s : string) : bool := starts_with (str_rev suffix) (str_rev s).
(** [s.trim_end_matches(suffix)]: an empty suffix trims nothing. *)
Fixpoint trim_prefixes (fuel : nat) (p s : string) : string :=
  match fuel with
  | O => s
  | S f => match strip_prefix p s with Some s' => trim_prefixes f p s' | None => s end
  end.
Definition trim_end_str (suffix s : string) : string :=
  if str_is_empty suffix then s
  else str_rev (trim_prefixes (String.length s) (str_rev suffix) (str_rev s)).
(** [u32::from_str] *)
Definition parse_u32 (s : string) : option Z :=
  n ← parse_u64 s; if n <=? 2 ^ 32 - 1 then Some n else None.
(** [s.trim_start_matches(prefix)] *)
Definition trim_start_str (prefix s : string) : string :=
  if str_is_empty prefix then s else trim_prefixes (String.length s) prefix s.
(** [s.split_once(pattern)]: at the first occurrence. *)
Fixpoint split_once_str (pattern s : string) : option (string * string) :=
  match strip_prefix pattern s with
  | Some rest => Some ("", rest)
  | None =>
      match s with
      | EmptyString => None
      | String c s' => '(a, b) ← split_once_str pattern s'; Some (String c a, b)
      end
  end.

(** ** Strings from the end *)

Lemma str_rev_app a b : str_rev (a +:+ b) = str_rev b +:+ str_rev a.
Proof.
  apply (inj as_bytes). unfold str_rev. by rewrite !as_bytes_app, !as_of_bytes, rev_app_distr.
Qed.
Lemma str_rev_involutive s : str_rev (str_rev s) = s.
Proof. unfold str_rev. by rewrite as_of_bytes, rev_involutive, of_as_bytes. Qed.
Lemma str_rev_length s : String.length (str_rev s) = String.length s.
Proof. unfold str_rev. by rewrite <-!length_as_bytes, as_of_bytes, length_rev. Qed.

Lemma ends_with_app suffix s : ends_with suffix (s +:+ suffix) = true.
Proof. unfold ends_with. rewrite str_rev_app. apply starts_with_spec. eauto. Qed.

Lemma trim_prefixes_none fuel p s : starts_with p s = false → trim_prefixes fuel p s = s.
Proof.
  intros Hs. destruct fuel as [|f]; [done|]. cbn. destruct (strip_prefix p s) as [s'|] eqn:E; [|done].
  apply strip_prefix_Some in E. assert (starts_with p s = true) by (apply starts_with_spec; eauto).
  congruence.
Qed.
(** One occurrence of a suffix is removed, and what precedes it stays. *)
Lemma trim_end_str_once suffix s :
  suffix ≠ "" → ends_with suffix s = false → trim_end_str suffix (s +:+ suffix) = s.
Proof.
  intros Hne Hs. unfold trim_end_str. destruct suffix as [|c suffix]; [done|].
  cbn [str_is_empty]. rewrite str_rev_app. set (p := str_rev (String c suffix)).
  rewrite str_app_length. cbn [String.length]. rewrite Nat.add_succ_r. cbn [trim_prefixes].
  rewrite (proj2 (strip_prefix_Some p _ (str_rev s)) eq_refl).
  rewrite trim_prefixes_none by exact Hs. apply str_rev_involutive.
Qed.
Lemma starts_with_char c x s : starts_with (String c "") (String x s) = Ascii.eqb x c.
Proof.
  unfold starts_with. cbn. destruct (ascii_dec c x) as [->|Hne].
  - rewrite Ascii.eqb_refl. by destruct s.
  - symmetry. apply Ascii.eqb_neq. congruence.
Qed.
Lemma trim_start_char_none c s : starts_with (String c "") s = false → trim_start_char c s = s.
Proof.
  destruct s as [|x s]; [done|]. rewrite starts_with_char. cbn. by intros ->.
Qed.
Lemma trim_end_char_once c s :
  ends_with (String c "") s = false → trim_end_char c (s +:+ String c "") = s.
Proof.
  intros Hs. unfold trim_end_char. rewrite str_rev_app. cbn -[trim_start_char].
  change (str_rev (String c "")) with (String c ""). rewrite str_app_cons, str_app_nil_l.
  cbn [trim_start_char]. rewrite Ascii.eqb_refl, trim_start_char_none by exact Hs.
  apply str_rev_involutive.
Qed.

Lemma split_once_app c a b :
  str_contains_char c a = false → split_once c (a +:+ String c b) = Some (a, b).
Proof.
  induction a as [|x a IH]; rewrite ?str_app_nil_l, ?str_app_cons; cbn [split_once].
  - by rewrite Ascii.eqb_refl.
  - rewrite str_contains_char_cons. intros [-> Ha]%orb_false_iff. by rewrite IH.
Qed.

(** ** Repeated trimming, patterns *)

Lemma trim_start_str_once p s :
  p ≠ "" → starts_with p s = false → trim_start_str p (p +:+ s) = s.
Proof.
  intros Hp Hs. unfold trim_start_str. destruct p as [|c p]; [done|].
  cbn [str_is_empty]. rewrite str_app_length. cbn [String.length Nat.add trim_prefixes].
  rewrite (proj2 (strip_prefix_Some (String c p) _ s) eq_refl). by apply trim_prefixes_none.
Qed.

Lemma starts_with_app p s : starts_with p (p +:+ s) = true.
Proof. apply starts_with_spec. eauto. Qed.

Lemma str_contains_mid p a b : str_contains p (a +:+ p +:+ b) = true.
Proof.
  induction a as [|c a IH].
  - rewrite str_app_nil_l. pose proof (starts_with_app p b) as Hs.
    destruct (p +:+ b); cbn [str_contains]; by rewrite Hs.
  - rewrite str_app_cons. cbn [str_contains]. by rewrite IH, orb_true_r.
Qed.

(** A pattern that starts with a character the text before it does not have. *)
Lemma starts_with_first c p x s : starts_with (String c p) (String x s) = Ascii.eqb x c && starts_with p s.
Proof.
  unfold starts_with. cbn. destruct (ascii_dec c x) as [->|Hne].
  - by rewrite Ascii.eqb_refl.
  - destruct (Ascii.eqb_spec x c); [congruence|done].
Qed.
Lemma strip_prefix_first c p x s :
  Ascii.eqb x c = false → strip_prefix (String c p) (String x s) = None.
Proof. intros Hx. cbn. rewrite Ascii.eqb_sym in Hx. by rewrite Hx. Qed.

Lemma split_once_str_first c p a b :
  str_contains_char c a = false →
  split_once_str (String c p) (a +:+ String c p +:+ b) = Some (a, b).
Proof.
  induction a as [|x a IH].
  - intros _. rewrite str_app_nil_l. pose proof (proj2 (strip_prefix_Some (String c p) _ b) eq_refl) as Hs.
    destruct (String c p +:+ b) as [|y t] eqn:He; [done|]. cbn [split_once_str]. by rewrite Hs.
  - rewrite str_contains_char_cons. intros [Hx Ha]%orb_false_iff. rewrite str_app_cons.
    cbn [split_once_str]. rewrite strip_prefix_first by done. by rewrite IH.
Qed.

Lemma split_str_fuel_first fuel c p a b cur :
  str_contains_char c a = false → (String.length a < fuel)%nat →
  split_str_fuel fuel (String c p) (a +:+ String c p +:+ b) cur
  = (cur +:+ a) :: split_str_fuel (fuel - String.length a - 1) (String c p) b "".
Proof.
  revert fuel cur. induction a as [|x a IH]; intros [|fuel] cur; try (cbn; lia).
  - intros _ _. rewrite str_app_nil_l, str_app_nil_r. cbn [split_str_fuel].
    rewrite (proj2 (strip_prefix_Some (String c p) _ b) eq_refl). cbn. by rewrite Nat.sub_0_r.
  - rewrite str_contains_char_cons. intros [Hx Ha]%orb_false_iff Hf. rewrite str_app_cons.
    cbn [split_str_fuel]. rewrite strip_prefix_first by done. cbn [String.length] in *.
    rewrite IH by (done || lia). cbn [Nat.sub]. f_equal. by rewrite <-str_app_assoc.
Qed.
Lemma split_str_fuel_atom fuel c p a cur :
  str_contains_char c a = false → (String.length a < fuel)%nat →
  split_str_fuel fuel (String c p) a cur = [cur +:+ a].
Proof.
  revert fuel cur. induction a as [|x a IH]; intros [|fuel] cur; try (cbn; lia).
  - intros _ _. cbn. by rewrite str_app_nil_r.
  - rewrite str_contains_char_cons. intros [Hx Ha]%orb_false_iff Hf.
    cbn [split_str_fuel]. rewrite strip_prefix_first by done. cbn [String.length] in *.
    rewrite IH by (done || lia). by rewrite <-str_app_assoc.
Qed.
Lemma split_str_pair c p a b :
  str_contains_char c a = false → str_contains_char c b = false →
  split_str (String c p) (a +:+ String c p +:+ b) = [a; b].
Proof.
  intros Ha Hb. unfold split_str. rewrite split_str_fuel_first by (done || rewrite str_app_length; lia).
  rewrite !str_app_length. rewrite split_str_fuel_atom by (done || cbn; lia). by rewrite !str_app_nil_l.
Qed.

(** ** Numbers *)

Lemma pretty_char_digit (x : N) : (x < 10)%N → pretty_N_char x = digit (Z.of_N x).
Proof.
  intros Hx. assert (x ∈ [0;1;2;3;4;5;6;7;8;9])%N as Hin.
  { rewrite !elem_of_cons. lia. }
  repeat (apply elem_of_cons in Hin as [->|Hin]; [reflexivity|]). by apply elem_of_nil in Hin.
Qed.

Lemma digits_value_pretty (x : N) s :
  Z.of_N x <= u64_max → digits_value (pretty_N_go x s) 0 = digits_value s (Z.of_N x).
Proof.
  revert s. induction (N.lt_wf_0 x) as [x _ IH]; intros s Hx.
  destruct (decide (x = 0)%N) as [->|Hne]; [by rewrite pretty_N_go_0|].
  rewrite pretty_N_go_step, IH by (try apply N.div_lt; try rewrite N2Z.inj_div; try lia;
    Z.to_euclidean_division_equations; lia).
  pose proof (N.mod_lt x 10 ltac:(done)). rewrite pretty_char_digit by done.
  rewrite N2Z.inj_div, N2Z.inj_mod. change (Z.of_N 10) with 10.
  rewrite digits_value_digit; [f_equal|..]; Z.to_euclidean_division_equations; lia.
Qed.
Lemma pretty_digits (p : ascii → bool) (x : N) s :
  (∀ d, 0 <= d < 10 → p (digit d) = true) →
  str_forallb p (pretty_N_go x s) = str_forallb p s.
Proof.
  intros Hp. revert s. induction (N.lt_wf_0 x) as [x _ IH]; intros s.
  destruct (decide (x = 0)%N) as [->|Hne]; [by rewrite pretty_N_go_0|].
  rewrite pretty_N_go_step, IH by (try apply N.div_lt; lia).
  pose proof (N.mod_lt x 10 ltac:(done)). rewrite pretty_char_digit by done.
  cbn. rewrite Hp; [done|]. split; [apply N2Z.is_nonneg|]. by apply (N2Z.inj_lt _ 10).
Qed.
Lemma dec_digits (p : ascii → bool) n :
  (∀ d, 0 <= d < 10 → p (digit d) = true) → str_forallb p (dec n) = true.
Proof.
  intros Hp. unfold dec, pretty, pretty_N. case_decide.
  { cbn. assert (p "0"%char = true) as -> by exact (Hp 0 ltac:(lia)). done. }
  by rewrite pretty_digits.
Qed.
Lemma parse_u64_digits s :
  s ≠ "" → str_forallb (in_range 48 57) s = true → parse_u64 s = digits_value s 0.
Proof.
  destruct s as [|c s]; [done|]. intros _ [Hc _]%andb_true_iff.
  by destruct c as [[] [] [] [] [] [] [] []].
Qed.
Lemma parse_u64_dec n : u64_range n → parse_u64 (dec n) = Some n.
Proof.
  intros Hn. assert (digits_value (dec n) 0 = Some n) as Hv.
  { unfold dec, pretty, pretty_N. case_decide as Hz.
    - unfold u64_range in Hn. assert (n = 0) as -> by lia. reflexivity.
    - unfold u64_range in Hn. rewrite digits_value_pretty by (unfold u64_max; lia).
      cbn. f_equal. lia. }
  rewrite parse_u64_digits; [done| |].
  - intros He. rewrite He in Hv. injection Hv as <-. discriminate.
  - apply dec_digits. intros d Hd. unfold in_range, digit. rewrite byte_val_of_small by lia.
    rewrite !(proj2 (Z.leb_le _ _)) by lia. done.
Qed.
Lemma parse_u32_dec n : u32_range n → parse_u32 (dec n) = Some n.
Proof.
  intros Hn. unfold parse_u32. rewrite parse_u64_dec by (unfold u32_range, u64_range in *; lia).
  cbn. by rewrite (proj2 (Z.leb_le _ _)) by (unfold u32_range in Hn; lia).
Qed.
Lemma dec_slash_free n : str_contains_char slash (dec n) = false.
Proof.
  apply (str_contains_char_forallb (in_range 48 57)); [done|]. apply dec_digits.
  intros d Hd. unfold in_range, digit. rewrite byte_val_of_small by lia.
  by rewrite !(proj2 (Z.leb_le _ _)) by lia.
Qed.
