(* ===== verification/Http.v ===== *)
(** * HTTP requests and responses of the edge servers

    What [gateway/hsp-cdn/src/lib.rs] and [server/hsp-s3/src/lib.rs] use of the
    [http] and [axum] crates: a request with its headers and body, the response
    builder (whose header values may be refused), and the JSON bodies.  The
    crates themselves are parameters. *)

From Stdlib Require Import ZArith Lia Ascii String Bool.
From stdpp Require Import base option list strings gmap numbers sorting.
From S2P Require Import Prelude RustStr Core Cbor Auth ServiceState AmzDate SigV4.

Record Request := mkRequest {
  rq_method : string;
  rq_path : string;
  rq_query : option string;
  rq_headers : HeaderMap;
  rq_body : bytes;
}.
Record Response := mkResponse {
  rs_status : Z;
  rs_headers : HeaderMap;
  rs_body : bytes;
}.

(** The code and the message of an [ApiError]; the category is the status. *)
Record ErrorBody := mkErrorBody { eb_code : string; eb_message : string }.
Definition error_body_of (error : ApiError) : ErrorBody :=
  mkErrorBody (err_code error) (err_message error).

Class HttpDeps := {
  (** [HeaderValue::try_from] on a string, with the text of its error. *)
  header_value : string → result string bytes;
  (** [axum::body::to_bytes] with a limit, with the text of its error. *)
  to_bytes : bytes → Z → result string bytes;
  (** [serde_json::to_vec] of the two values the CDN serves. *)
  error_body_to_vec : ErrorBody → result string bytes;
  logs_to_vec : list StructuredLogRecord → result string bytes;
}.
(** [to_bytes] returns the whole body or fails. *)
Class HttpDepsLaws `{HttpDeps} : Prop :=
  to_bytes_whole : ∀ body limit b, to_bytes body limit = Ok b → b = body ∧ len_u64 body <= limit.

Definition StatusOk : Z := 200.
Definition StatusPartialContent : Z := 206.
Definition StatusBadRequest : Z := 400.
Definition StatusForbidden : Z := 403.
Definition StatusNotFound : Z := 404.
Definition StatusConflict : Z := 409.
Definition StatusInternalServerError : Z := 500.

Definition status_for_category (category : ApiErrorCategory) : Z :=
  match category with
  | CatAuth | CatPolicy => StatusForbidden
  | CatReplay | CatConflict => StatusConflict
  | CatValidation | CatUnsupported => StatusBadRequest
  | CatNotFound => StatusNotFound
  | CatStorage => StatusInternalServerError
  end.

(** What a handler answers: a panic ([panic_error]) ends its task without a response,
    any other error becomes a response of its own. *)
Definition is_panic (error : ApiError) : bool := String.eqb (err_code error) "panic".
Definition answer (render : ApiError → Response) (r : result ApiError Response)
  : option Response :=
  match r with
  | Ok response => Some response
  | Err error => if is_panic error then None else Some (render error)
  end.

Section builder.
Context `{HttpDeps}.

Definition http_error (error : string) : ApiError := mkApiError CatStorage "http_build_failed" error.

(** [Response::builder().header(..).body(..)]: the first refused value is the error. *)
Fixpoint build_headers (headers : list (string * string)) : result string HeaderMap :=
  match headers with
  | [] => Ok []
  | (name, value) :: rest =>
      value ← header_value value;
      rest ← build_headers rest;
      Ok ((name, value) :: rest)
  end.
Definition build_response (status : Z) (headers : list (string * string)) (body : bytes)
  : result ApiError Response :=
  map_err http_error (headers ← build_headers headers; Ok (mkResponse status headers body)).

Definition text_response (status : Z) (content_type body : string) : result ApiError Response :=
  build_response status [("content-type", content_type)] (as_bytes body).

(** [json_response], with the value already given to [serde_json::to_vec]. *)
Definition json_response (status : Z) (value : result string bytes) : result ApiError Response :=
  body ← map_err (mkApiError CatStorage "json_serialize_failed") value;
  build_response status [("content-type", "application/json")] body.
End builder.

(** [bool::to_string] and the quotes of an entity tag. *)
Definition bool_to_string (b : bool) : string := if b then "true" else "false".
Definition double_quoted (s : string) : string := String "034"%char s +:+ String "034"%char "".

(** [query_pairs]: a repeated key keeps its last value. *)
Definition query_pairs (query : string) : gmap string string :=
  foldl (λ acc segment,
           let '(key, value) := default (segment, "") (split_once "=" segment) in
           <[key := value]> acc) ∅
    (List.filter (λ segment, negb (str_is_empty segment)) (split_on "&"%char query)).

Definition require_scope (auth : AuthContext) (scope : CapabilityScope) : result ApiError unit :=
  if bool_decide (scope ∈ ops (claims auth)) then Ok tt
  else Err (mkApiError CatPolicy "missing_required_scope"
              (scope_as_str scope +:+ " scope is required")).

Definition invalid_range : ApiError :=
  mkApiError CatValidation "invalid_range" "Range header is invalid".

(** ** Facts *)

Lemma status_for_category_error c : 400 <= status_for_category c.
Proof. by destruct c. Qed.

Lemma answer_ok render r response :
  (∀ error, 400 <= rs_status (render error)) → answer render r = Some response →
  rs_status response < 400 → r = Ok response.
Proof.
  intros Hr. destruct r as [x|e]; cbn; [by intros [= ->]|]. destruct (is_panic e); [done|].
  intros [= <-] Hs. specialize (Hr e). lia.
Qed.

Lemma build_headers_names `{HttpDeps} l headers :
  build_headers l = Ok headers → fst <$> headers = fst <$> l.
Proof.
  revert headers. induction l as [|[n v] l IH]; cbn; [by intros ? [= <-]|].
  intros h (v'&_&H1)%result_bind_ok. apply result_bind_ok in H1 as (r&Hr&[= <-]).
  cbn. by rewrite (IH _ Hr).
Qed.

Lemma build_response_ok `{HttpDeps} status l body resp :
  build_response status l body = Ok resp →
  rs_status resp = status ∧ rs_body resp = body ∧ build_headers l = Ok (rs_headers resp).
Proof.
  unfold build_response. destruct (build_headers l) as [h|e]; cbn; [|done]. by intros [= <-].
Qed.
