(* ===== verification/S3Xml.v ===== *)
(** * hsp-s3: the XML bodies

    The documents of [server/hsp-s3/src/lib.rs] as records, and their conversions
    to and from the records of the distribution service.  [quick_xml] is a
    parameter. *)

From Stdlib Require Import ZArith Lia Ascii String Bool.
From stdpp Require Import base option list strings gmap numbers.
From S2P Require Import Prelude RustStr Core Cbor Distribution DistObjects Multipart SigV4 UrlStr Http.

(** [quick_xml::se::to_string] and [quick_xml::de::from_str] at one type. *)
Class XmlWrite (T : Type) := { to_xml_string : T → result string string }.
Class XmlRead (T : Type) := { from_xml_str : string → result string T }.

Definition trim_etag (value : string) : string :=
  trim_end_char "034"%char (trim_start_char "034"%char (trim value)).

(** ** Documents *)

Record ErrorXml := mkErrorXml { ex_code : string; ex_message : string }.
Record ListAllMyBucketsResult := mkListAllMyBucketsResult { lab_names : list string }.
Record ListBucketContentsXml := mkListBucketContentsXml {
  lbc_key : string;
  lbc_etag : string;
  lbc_size : Z;
}.
Record ListBucketResult := mkListBucketResult {
  lbr_name : string;
  lbr_is_truncated : bool;
  lbr_next_continuation_token : option string;
  lbr_contents : list ListBucketContentsXml;
}.
Record DeleteObjectsXml := mkDeleteObjectsXml { dx_objects : list string }.
Record DeleteResultXml := mkDeleteResultXml { drx_deleted : list string }.
Record CopyObjectResultXml := mkCopyObjectResultXml { cox_etag : string }.
Record InitiateMultipartUploadResultXml := mkInitiateMultipartUploadResultXml {
  imx_bucket : string;
  imx_key : string;
  imx_upload_id : string;
}.
Record CompleteMultipartUploadXml := mkCompleteMultipartUploadXml { cmx_parts : list (Z * string) }.
Record CompleteMultipartUploadResultXml := mkCompleteMultipartUploadResultXml {
  crx_bucket : string;
  crx_key : string;
  crx_etag : string;
}.
Record AccessControlPolicyXml := mkAccessControlPolicyXml { acx_canned_acl : string }.
Record LifecycleRuleXml := mkLifecycleRuleXml {
  lrx_id : option string;
  lrx_prefix : option string;
  lrx_status : string;
  lrx_expiration_days : option Z;
  lrx_transition_days : option Z;
  lrx_transition_storage_class : option string;
}.
Record LifecycleConfigurationXml := mkLifecycleConfigurationXml {
  lcx_rules : list LifecycleRuleXml;
}.
Record ObjectRetentionXml := mkObjectRetentionXml {
  orx_mode : option string;
  orx_retain_until_ms : option Z;
}.
Record LegalHoldXml := mkLegalHoldXml { lhx_status : string }.
Record WebsiteConfigurationXml := mkWebsiteConfigurationXml {
  wx_enabled : bool;
  wx_index_document : string;
  wx_error_document : string;
  wx_access_profile : string;
}.
Record ReplicationConfigurationXml := mkReplicationConfigurationXml {
  rx_destination_bucket : string;
  rx_prefix : option string;
  rx_enabled : bool;
}.
Record ReplicationStatusXml := mkReplicationStatusXml {
  rsx_source_bucket : string;
  rsx_destination_bucket : string;
  rsx_copied_objects : Z;
  rsx_failed_objects : Z;
  rsx_last_run_ms : Z;
  rsx_last_error : option string;
}.

Class XmlDeps := {
  xml_error_doc :: XmlWrite ErrorXml;
  xml_buckets :: XmlWrite ListAllMyBucketsResult;
  xml_listing :: XmlWrite ListBucketResult;
  xml_delete :: XmlRead DeleteObjectsXml;
  xml_deleted :: XmlWrite DeleteResultXml;
  xml_copied :: XmlWrite CopyObjectResultXml;
  xml_initiated :: XmlWrite InitiateMultipartUploadResultXml;
  xml_complete :: XmlRead CompleteMultipartUploadXml;
  xml_completed :: XmlWrite CompleteMultipartUploadResultXml;
  xml_acl :: XmlWrite AccessControlPolicyXml;
  xml_acl_read :: XmlRead AccessControlPolicyXml;
  xml_lifecycle :: XmlWrite LifecycleConfigurationXml;
  xml_lifecycle_read :: XmlRead LifecycleConfigurationXml;
  xml_retention :: XmlWrite ObjectRetentionXml;
  xml_retention_read :: XmlRead ObjectRetentionXml;
  xml_hold :: XmlWrite LegalHoldXml;
  xml_hold_read :: XmlRead LegalHoldXml;
  xml_website :: XmlWrite WebsiteConfigurationXml;
  xml_website_read :: XmlRead WebsiteConfigurationXml;
  xml_replication :: XmlWrite ReplicationConfigurationXml;
  xml_replication_read :: XmlRead ReplicationConfigurationXml;
  xml_replication_status :: XmlWrite ReplicationStatusXml;
}.

(** ** Conversions *)

Definition error_xml (error : ApiError) : ErrorXml := mkErrorXml (err_code error) (err_message error).
Definition buckets_xml (value : list BucketSummary) : ListAllMyBucketsResult :=
  mkListAllMyBucketsResult (bsm_bucket <$> value).
Definition listing_xml (value : ListObjectsResponse) : ListBucketResult :=
  {| lbr_name := lor_bucket value; lbr_is_truncated := lor_is_truncated value;
     lbr_next_continuation_token := lor_next_continuation_token value;
     lbr_contents :=
       (λ item, mkListBucketContentsXml (oli_key item) (double_quoted (oli_etag item))
                  (oli_content_length item)) <$> lor_items value |}.
Definition copied_xml (value : CopyObjectResponse) : CopyObjectResultXml :=
  mkCopyObjectResultXml (double_quoted (cor_object_cid value)).
Definition initiated_xml (value : CreateMultipartUploadResponse)
  : InitiateMultipartUploadResultXml :=
  mkInitiateMultipartUploadResultXml (cmur_bucket value) (cmur_key value) (cmur_upload_id value).
Definition completed_part (part : Z * string) : CompletedMultipartPart :=
  mkCompletedMultipartPart part.1 (trim_etag part.2).
Definition completed_xml (value : PutObjectResponse) : CompleteMultipartUploadResultXml :=
  mkCompleteMultipartUploadResultXml (por_bucket value) (por_key value)
    (double_quoted (por_etag value)).
Definition acl_xml (value : CannedAcl) : AccessControlPolicyXml :=
  mkAccessControlPolicyXml (canned_acl_as_str value).

Definition lifecycle_config_from_xml `{Hashing} (tenant_id : TenantId) (bucket : string)
  (value : LifecycleConfigurationXml) : LifecycleConfig :=
  {| lc_tenant_id := tenant_id; lc_bucket := bucket;
     lc_rules :=
       (λ rule, {| lcr_id := default (cid_from_bytes (as_bytes bucket)) (lrx_id rule);
                   lcr_prefix := lrx_prefix rule;
                   lcr_expire_after_days := lrx_expiration_days rule;
                   lcr_transition_after_days := lrx_transition_days rule;
                   lcr_transition_storage_class := lrx_transition_storage_class rule;
                   lcr_enabled := eq_ignore_ascii_case (lrx_status rule) "enabled" |})
       <$> lcx_rules value;
     lc_updated_at_ms := 0 |}.
Definition lifecycle_xml (value : LifecycleConfig) : LifecycleConfigurationXml :=
  mkLifecycleConfigurationXml
    ((λ rule, {| lrx_id := Some (lcr_id rule); lrx_prefix := lcr_prefix rule;
                 lrx_status := if lcr_enabled rule then "Enabled" else "Disabled";
                 lrx_expiration_days := lcr_expire_after_days rule;
                 lrx_transition_days := lcr_transition_after_days rule;
                 lrx_transition_storage_class := lcr_transition_storage_class rule |})
     <$> lc_rules value).

Definition retention_xml (value : ObjectLockRecord) : ObjectRetentionXml :=
  mkObjectRetentionXml (ol_mode value) (ol_immutable_until_ms value).
Definition legal_hold_xml (value : bool) : LegalHoldXml :=
  mkLegalHoldXml (if value then "ON" else "OFF").
(** [legal_hold.status.eq_ignore_ascii_case("on")] *)
Definition legal_hold_of (value : LegalHoldXml) : bool :=
  eq_ignore_ascii_case (lhx_status value) "on".

Definition website_config_from_xml (tenant_id : TenantId) (bucket : string)
  (value : WebsiteConfigurationXml) : WebsiteConfig :=
  {| wc_tenant_id := tenant_id; wc_bucket := bucket; wc_enabled := wx_enabled value;
     wc_index_document := wx_index_document value; wc_error_document := wx_error_document value;
     wc_access_profile :=
       if String.eqb (wx_access_profile value) "trusted-edge-v1" then TrustedEdgeV1
       else PublicCiphertext;
     wc_updated_at_ms := 0 |}.
Definition website_xml (value : WebsiteConfig) : WebsiteConfigurationXml :=
  mkWebsiteConfigurationXml (wc_enabled value) (wc_index_document value)
    (wc_error_document value) (access_profile_as_str (wc_access_profile value)).

Definition replication_config_from_xml (tenant_id : TenantId) (source_bucket : string)
  (value : ReplicationConfigurationXml) : ReplicationConfig :=
  {| rc_tenant_id := tenant_id; rc_source_bucket := source_bucket;
     rc_destination_bucket := rx_destination_bucket value; rc_prefix := rx_prefix value;
     rc_enabled := rx_enabled value; rc_updated_at_ms := 0 |}.
Definition replication_xml (value : ReplicationConfig) : ReplicationConfigurationXml :=
  mkReplicationConfigurationXml (rc_destination_bucket value) (rc_prefix value) (rc_enabled value).
Definition replication_status_xml (value : ReplicationStatus) : ReplicationStatusXml :=
  {| rsx_source_bucket := rst_source_bucket value;
     rsx_destination_bucket := rst_destination_bucket value;
     rsx_copied_objects := rst_copied_objects value;
     rsx_failed_objects := rst_failed_objects value; rsx_last_run_ms := rst_last_run_ms value;
     rsx_last_error := rst_last_error value |}.
