(* ===== verification/ConcreteHttp.v ===== *)
(** * Concrete parameters of the HTTP servers

    Functions with the documented behaviour of [http], [axum], [serde_json] and
    [quick_xml] at the types the servers use, so that the theorems can be applied to
    concrete requests. *)

From Stdlib Require Import ZArith Lia Ascii String Bool.
From stdpp Require Import base option list strings gmap numbers.
From S2P Require Import Prelude RustStr Core Cbor Auth ServiceState Distribution DistObjects SigV4 Http S3Xml.

(** A header value is visible ASCII or tabs. *)
Definition toy_header_value (s : string) : result string bytes :=
  if str_forallb (λ c, in_range 32 126 c || in_range 9 9 c) s then Ok (as_bytes s)
  else Err "failed to parse header value".
Definition concrete_http : HttpDeps :=
  {| header_value := toy_header_value;
     to_bytes := λ b limit, if len_u64 b <=? limit then Ok b else Err "length limit exceeded";
     error_body_to_vec := λ e, Ok (as_bytes (eb_code e));
     logs_to_vec := λ _, Ok [] |}.
Lemma concrete_http_laws : HttpDepsLaws (H := concrete_http).
Proof.
  intros body limit b. cbn. destruct (Z.leb_spec (len_u64 body) limit); [|done]. by intros [= <-].
Qed.

(** Lists of keys are written with commas; other documents are opaque. *)
Definition unread {T} : XmlRead T := {| from_xml_str := λ _, Err "unexpected document" |}.
Definition unwritten {T} (text : string) : XmlWrite T := {| to_xml_string := λ _, Ok text |}.
Definition concrete_xml : XmlDeps :=
  {| xml_error_doc := {| to_xml_string := λ e, Ok (ex_code e) |};
     xml_buckets := {| to_xml_string := λ d, Ok (join "," (lab_names d)) |};
     xml_listing := {| to_xml_string := λ d, Ok (join "," (lbc_key <$> lbr_contents d)) |};
     xml_delete := {| from_xml_str := λ s, Ok (mkDeleteObjectsXml (split_on ","%char s)) |};
     xml_deleted := {| to_xml_string := λ d, Ok (join "," (drx_deleted d)) |};
     xml_copied := {| to_xml_string := λ d, Ok (cox_etag d) |};
     xml_initiated := {| to_xml_string := λ d, Ok (imx_upload_id d) |};
     xml_complete := unread;
     xml_completed := {| to_xml_string := λ d, Ok (crx_etag d) |};
     xml_acl := {| to_xml_string := λ d, Ok (acx_canned_acl d) |};
     xml_acl_read := {| from_xml_str := λ s, Ok (mkAccessControlPolicyXml s) |};
     xml_lifecycle := unwritten "lifecycle"; xml_lifecycle_read := unread;
     xml_retention := unwritten "retention"; xml_retention_read := unread;
     xml_hold := {| to_xml_string := λ d, Ok (lhx_status d) |};
     xml_hold_read := {| from_xml_str := λ s, Ok (mkLegalHoldXml s) |};
     xml_website := unwritten "website"; xml_website_read := unread;
     xml_replication := unwritten "replication"; xml_replication_read := unread;
     xml_replication_status := unwritten "status" |}.

(** No capability tokens. *)
Definition no_capabilities : CborPayload CapabilityClaims := {| payload_from_cbor := λ _, None |}.

Module ToyHttp.
#[export] Existing Instances concrete_http concrete_http_laws concrete_xml no_capabilities.
End ToyHttp.
