(* ===== verification/Cdn.v ===== *)
(** * hsp-cdn: the edge cache

    Models [gateway/hsp-cdn/src/lib.rs]: a request is authenticated by an edge
    token, a capability or a SigV4 signature, dispatched to an object by CID or by
    bucket and key, and answered from the cache or from the distribution service;
    a worker reads the events of the tenants whose bindings are cached and drops
    the entries they invalidate.  The cache and the world of the service are one
    state, [CdnState]; the router of [axum] only hands the paths [/cid/..] and
    [/b/../..] to [handle_request]. *)

From Stdlib Require Import ZArith Lia Ascii String Bool.
From stdpp Require Import base option list strings gmap numbers sorting.
From S2P Require Import Prelude RustStr Path Core Cbor Auth Crypto Store ServiceState Observability Subscribe Chunker AmzDate Distribution Buckets DistObjects SigV4 Http.

Definition MAX_CDN_REQUEST_BODY_BYTES : Z := 0.

Record CachedObject := mkCachedObject {
  co_body : bytes;
  co_content_type : string;
  co_etag : string;
  co_cache_control : string;
  co_content_length : Z;
  co_expires_at_ms : Z;
}.

(** The fields of [CdnState] that never change. *)
Record Cdn := mkCdn {
  cd_service : DistributionService;
  cd_immutable_cid_ttl_sec : Z;
  cd_namespace_ttl_sec : Z;
}.
Record CdnState (B : Backend) := mkCdnState {
  cs_world : World B;
  cs_cache : gmap string CachedObject;
}.
Arguments mkCdnState {B}.
Arguments cs_world {B}.
Arguments cs_cache {B}.

Definition set_world {B} (w : World B) (s : CdnState B) : CdnState B := mkCdnState w (cs_cache s).
Definition set_cache {B} (cache : gmap string CachedObject) (s : CdnState B) : CdnState B :=
  mkCdnState (cs_world s) cache.

(** ** Keys of the cache *)

Definition cache_mode_suffix (plaintext : bool) : string :=
  if plaintext then "plaintext" else "ciphertext".
Definition cid_cache_key (tenant_id : TenantId) (cid : string) (plaintext : bool) : string :=
  "cid:" +:+ tenant_id +:+ ":" +:+ cache_mode_suffix plaintext +:+ ":" +:+ cid.
Definition namespace_cache_key (tenant_id : TenantId) (bucket key : string) (plaintext : bool)
  : string :=
  "ns:" +:+ tenant_id +:+ ":" +:+ cache_mode_suffix plaintext +:+ ":" +:+ bucket +:+ "/" +:+ key.

(** ** Requests and responses *)

Definition parse_range (headers : HeaderMap) : result ApiError (option RangeSpec) :=
  match (v ← header_get headers "range"; header_to_str v) with
  | None => Ok None
  | Some header =>
      raw ← ok_or (strip_prefix "bytes=" header) invalid_range;
      '(start, end_) ← ok_or (split_once "-" raw) invalid_range;
      start ← ok_or (parse_u64 start) invalid_range;
      end_ ← ok_or (parse_u64 end_) invalid_range;
      Ok (Some (mkRangeSpec start end_))
  end.

Definition is_cacheable (response : GetObjectResponse) : bool :=
  negb (existsb (λ directive, eq_ignore_ascii_case (trim directive) "no-store")
          (split_on ","%char (gor_cache_control response))).

Section responses.
Context `{HttpDeps}.

Definition api_error_response (error : ApiError) : Response :=
  {| rs_status := status_for_category (err_category error);
     rs_headers := [("content-type", as_bytes "application/json")];
     rs_body := match error_body_to_vec (error_body_of error) with
                | Ok body => body
                | Err _ => as_bytes "{}"
                end |}.
Definition body_unless_head (method : string) (body : bytes) : bytes :=
  if String.eqb method "HEAD" then [] else body.

Definition cached_response (method : string) (entry : CachedObject) (cache_status : string)
  : result ApiError Response :=
  build_response StatusOk
    [("etag", double_quoted (co_etag entry));
     ("content-type", co_content_type entry);
     ("content-length", dec (co_content_length entry));
     ("cache-control", co_cache_control entry);
     ("x-hsp-cache-status", cache_status)]
    (body_unless_head method (co_body entry)).

Definition origin_response (method : string) (response : GetObjectResponse)
  (cache_status : string) : result ApiError Response :=
  let head := gor_head response in
  build_response
    (match gor_content_range response with Some _ => StatusPartialContent | None => StatusOk end)
    ([("etag", double_quoted (ho_etag head));
      ("content-type", ho_content_type head);
      ("content-length", dec (len_u64 (gor_body response)));
      ("cache-control", gor_cache_control response);
      ("x-hsp-cache-status", cache_status);
      ("x-hsp-exists", bool_to_string (ho_exists head));
      ("x-hsp-deleted", bool_to_string (ho_deleted head));
      ("x-hsp-cid", ho_cid head);
      ("x-hsp-object-cid", ho_object_cid head);
      ("x-hsp-manifest-cid", ho_manifest_cid head);
      ("x-hsp-integrity-hash", ho_integrity_hash head);
      ("x-hsp-size-bytes", dec (ho_size_bytes head));
      ("x-hsp-ciphertext-size-bytes", dec (ho_ciphertext_size_bytes head));
      ("x-hsp-created-at-ms", dec (ho_last_modified_ms head));
      ("x-hsp-encryption-profile-id", ho_encryption_profile_id head);
      ("x-hsp-key-policy-id", ho_key_policy_id head);
      ("x-hsp-metadata-visibility", visibility_as_str (ho_metadata_visibility head));
      ("x-hsp-encrypted-client-metadata-redacted",
       bool_to_string (ho_encrypted_client_metadata_redacted head))]
     ++ match gor_content_range response with
        | Some content_range => [("content-range", content_range)]
        | None => []
        end)
    (body_unless_head method (gor_body response)).
End responses.

(** ** Serving *)

Section serving.
Context `{DistDeps} `{!CborPayload CapabilityClaims} {B : Backend} `{BackendListing B}.
Context `{HttpDeps} (cdn : Cdn).

Definition on_world {A} (m : ST (World B) ApiError A) : ST (CdnState B) ApiError A :=
  zoom cs_world set_world m.

(** The token of the request: its header, else the query. *)
Definition request_edge_token (headers : HeaderMap) (query : string) : option string :=
  match (v ← header_get headers "x-hsp-edge-token"; header_to_str v) with
  | Some token => Some token
  | None => query_pairs query !! "token"
  end.

Definition authenticate_request (method path query : string) (headers : HeaderMap) (body : bytes)
  : ST (World B) ApiError AuthContext :=
  let binding := mkHttpRequestBinding method path query headers body in
  match request_edge_token headers query with
  | Some token => authenticate_edge_token (cd_service cdn) token method
  | None =>
      if bool_decide (is_Some (header_get headers "x-hsp-capability")) then
        lift_result (authenticate_hsp_capability (cd_service cdn) binding)
      else if bool_decide (is_Some (header_get headers "authorization"))
              || str_contains "X-Amz-Signature=" query then
        authenticate_sigv4 (cd_service cdn) binding
      else throw (auth_error "missing_auth"
                    "CDN requests require edge token, HSP capability auth, or SigV4 auth")
  end.

Definition edge_claims (headers : HeaderMap) (query : string)
  : ST (World B) ApiError EdgeTokenClaims :=
  token ← lift_result (ok_or (request_edge_token headers query)
                         (auth_error "missing_edge_token" "edge token is missing"));
  decode_edge_token (cd_service cdn) token.

(** The first critical section of [serve_cached_object]. *)
Definition cache_lookup (cache : gmap string CachedObject) (cache_key : string) (now : Z)
  : option CachedObject :=
  entry ← cache !! cache_key;
  if now <=? co_expires_at_ms entry then Some entry else None.
(** The entry its second critical section inserts; [ttl * 1_000] wraps. *)
Definition cache_entry (immutable : bool) (now : Z) (fresh : GetObjectResponse)
  : option CachedObject :=
  let ttl := if immutable then cd_immutable_cid_ttl_sec cdn else cd_namespace_ttl_sec cdn in
  if bool_decide (gor_content_range fresh = None) && is_cacheable fresh then
    Some {| co_body := gor_body fresh; co_content_type := ho_content_type (gor_head fresh);
            co_etag := ho_etag (gor_head fresh); co_cache_control := gor_cache_control fresh;
            co_content_length := ho_content_length (gor_head fresh);
            co_expires_at_ms := u64_sat_add now (ttl * 1000 mod 2 ^ 64) |}
  else None.

Definition serve_cached_object (method cache_key : string) (immutable allow_cache_hit : bool)
  (fetch : ST (World B) ApiError GetObjectResponse) : ST (CdnState B) ApiError Response :=
  now ← on_world now_ms;
  hit ← (if allow_cache_hit then gets (λ s, cache_lookup (cs_cache s) cache_key now)
         else mret None);
  match hit with
  | Some entry => lift_result (cached_response method entry "HIT")
  | None =>
      fresh ← on_world fetch;
      response ← lift_result (origin_response method fresh "MISS");
      _ ← match cache_entry immutable now fresh with
          | Some entry => modify (λ s, set_cache (<[cache_key := entry]> (cs_cache s)) s)
          | None => mret tt
          end;
      mret response
  end.

(** [prefer_plaintext] of both routes. *)
Definition prefer_plaintext (edge_claims : option EdgeTokenClaims) (query : string) : bool :=
  from_option (λ c, bool_decide (et_access_profile c = TrustedEdgeV1)) false edge_claims
  && bool_decide (query_pairs query !! "mode" = Some "plaintext").

(** The object request of both routes. *)
Definition object_request (auth : AuthContext) (edge_claims : option EdgeTokenClaims)
  (bucket key cid : option string) (plaintext : bool) (range : option RangeSpec)
  : GetObjectRequest :=
  {| go_tenant_id := cl_tenant_id (claims auth); go_bucket := bucket; go_key := key;
     go_cid := cid;
     go_access_profile := from_option et_access_profile PublicCiphertext edge_claims;
     go_prefer_plaintext := plaintext; go_range := range; go_if_match := None;
     go_if_none_match := None |}.

Definition invalid_edge_token_scope (message : string) : ApiError :=
  auth_error "invalid_edge_token_scope" message.

Definition dispatch_cid (auth : AuthContext) (edge_claims : option EdgeTokenClaims)
  (method : string) (headers : HeaderMap) (cid query : string)
  : ST (CdnState B) ApiError Response :=
  if from_option (λ c, negb (bool_decide (et_cid c = Some cid))) false edge_claims then
    throw (invalid_edge_token_scope "edge token is not scoped to the requested CID")
  else
  let cid_binding :=
    c ← edge_claims; bucket ← et_bucket c; key ← et_key c; Some (bucket, key) in
  let plaintext := prefer_plaintext edge_claims query in
  range ← lift_result (parse_range headers);
  serve_cached_object method (cid_cache_key (cl_tenant_id (claims auth)) cid plaintext)
    true (bool_decide (range = None))
    (get_object (cd_service cdn) auth
       (object_request auth edge_claims (fst <$> cid_binding) (snd <$> cid_binding) (Some cid)
          plaintext range)).

(** [option.map(f).transpose()?] *)
Definition transpose {E A C} (f : A → result E C) (o : option A) : result E (option C) :=
  match o with None => Ok None | Some a => Some <$> f a end.

Definition dispatch_bucket (auth : AuthContext) (edge_claims : option EdgeTokenClaims)
  (method : string) (headers : HeaderMap) (raw query : string)
  : ST (CdnState B) ApiError Response :=
  '(raw_bucket, raw_key) ← lift_result (ok_or (split_once "/" raw)
    (mkApiError CatValidation "invalid_bucket_path" "bucket route must use /b/{bucket}/{key}"));
  bucket ← lift_result (canonical_bucket_name raw_bucket);
  key ← lift_result (canonical_object_key_name raw_key);
  _ ← lift_result
    (match edge_claims with
     | None => Ok tt
     | Some c =>
         claims_bucket ← transpose canonical_bucket_name (et_bucket c);
         claims_key ← transpose canonical_object_key_name (et_key c);
         if negb (bool_decide (claims_bucket = Some bucket))
            || negb (bool_decide (claims_key = Some key)) then
           Err (invalid_edge_token_scope
                  "edge token is not scoped to the requested bucket/key")
         else Ok tt
     end);
  let plaintext := prefer_plaintext edge_claims query in
  range ← lift_result (parse_range headers);
  serve_cached_object method
    (namespace_cache_key (cl_tenant_id (claims auth)) bucket key plaintext) false false
    (get_object (cd_service cdn) auth
       (object_request auth edge_claims (Some bucket) (Some key) None plaintext range)).

Definition dispatch_request (auth : AuthContext) (edge_claims : option EdgeTokenClaims)
  (method : string) (headers : HeaderMap) (path query : string)
  : ST (CdnState B) ApiError Response :=
  match strip_prefix "/cid/" path with
  | Some cid => dispatch_cid auth edge_claims method headers cid query
  | None =>
      match strip_prefix "/b/" path with
      | Some raw => dispatch_bucket auth edge_claims method headers raw query
      | None => throw (mkApiError CatNotFound "route_not_found" "CDN route not found")
      end
  end.

(** The two observability routes of [handle_request]. *)
Definition observability (scope : CapabilityScope) (render : World B → result ApiError Response)
  (method path query : string) (headers : HeaderMap) (body : bytes)
  : ST (CdnState B) ApiError Response :=
  auth ← on_world (authenticate_request method path query headers body);
  _ ← lift_result (require_scope auth scope);
  r ← gets (λ s, render (cs_world s));
  lift_result r.

Definition handle (request : Request) : ST (CdnState B) ApiError Response :=
  let method := rq_method request in
  let path := rq_path request in
  let query := default "" (rq_query request) in
  let headers := rq_headers request in
  if negb (String.eqb method "GET") && negb (String.eqb method "HEAD") then
    throw (mkApiError CatUnsupported "method_not_allowed" "CDN only supports GET and HEAD")
  else
  body ← lift_result (map_err (mkApiError CatValidation "invalid_body")
                        (to_bytes (rq_body request) MAX_CDN_REQUEST_BODY_BYTES));
  if String.eqb method "GET" && String.eqb path "/metrics" then
    observability AdminMetricsRead
      (λ w, text_response StatusOk "text/plain; version=0.0.4" (prometheus_metrics w))
      method path query headers body
  else if String.eqb method "GET" && String.eqb path "/v1/observability/logs" then
    observability AdminAuditRead (λ w, json_response StatusOk (logs_to_vec (structured_logs w)))
      method path query headers body
  else
  auth ← on_world (authenticate_request method path query headers body);
  claims ← attempt (on_world (edge_claims headers query));
  dispatch_request auth (result_ok claims) method headers path query.

Definition handle_request (request : Request) (s : CdnState B)
  : option Response * CdnState B :=
  let '(r, s') := handle request s in (answer api_error_response r, s').

(** ** The invalidation worker *)

Definition tenant_of_cache_key (key : string) : option TenantId :=
  raw ← strip_prefix "ns:" key; '(tenant, _) ← split_once ":" raw; Some tenant.
Definition tenant_ids_from_cache (cache : gmap string CachedObject) : list TenantId :=
  fst <$> btree_iter
    (foldl (λ tenants key, match tenant_of_cache_key key with
                           | Some tenant => <[tenant := tt]> tenants
                           | None => tenants
                           end) (∅ : gmap string unit) (fst <$> btree_iter cache)).

Definition apply_event_invalidation (tenant_id : TenantId) (event : EventRecord)
  (cache : gmap string CachedObject) : gmap string CachedObject :=
  match ev_event_type event with
  | NamespaceBound | NamespaceUnbound | NamespaceTombstoned | ObjectCommitted =>
      match ev_namespace event, ev_path event with
      | Some namespace, Some path =>
          delete (namespace_cache_key tenant_id namespace path true)
            (delete (namespace_cache_key tenant_id namespace path false) cache)
      | _, _ => cache
      end
  | _ => cache
  end.

(** The loop over the envelopes, with the lock held. *)
Definition apply_envelopes (tenant_id : TenantId) (envelopes : list SubscribeEnvelope)
  (cache : gmap string CachedObject) : gmap string CachedObject :=
  foldl (λ cache envelope,
           match se_kind envelope, se_event envelope with
           | EnvEvent, Some event => apply_event_invalidation tenant_id event cache
           | _, _ => cache
           end) cache envelopes.

Definition internal_subscribe_auth (tenant_id : TenantId) : ST (World B) ApiError AuthContext :=
  exp_now ← now_ms;
  nbf_now ← now_ms;
  mret {| claims :=
            {| iss := "hsp-cdn"; sub := "cache-invalidator"; aud := "hsp-cdn";
               exp := u64_sat_add exp_now 30000; nbf := Some (u64_sat_sub nbf_now 1000);
               jti := None; ops := [ScopeRead; ScopeSubscribe]; cl_tenant_id := tenant_id;
               cl_namespace_prefix := None; cl_path_prefix := None; cl_max_object_size := None;
               cl_storage_classes := ["hot"]; cl_key_policy_id := None;
               cl_metadata_visibility := None |};
          channel_binding := None |}.

Definition Cursors : Type := gmap string string.
Definition worker_subscribe (tenant_id : TenantId) (cursors : Cursors) : SubscribeRequest :=
  {| sq_tenant_id := tenant_id; sq_filters := [mkSubscribeFilter None None None None None];
     sq_cursor := cursors !! tenant_id;
     sq_from_seq := match cursors !! tenant_id with Some _ => None | None => Some 0 end;
     sq_heartbeat_ms := Some 50; sq_batch_max := Some 128 |}.

Definition WorkerState : Type := CdnState B * Cursors.
Definition on_cdn {A} (m : ST (CdnState B) ApiError A) : ST WorkerState ApiError A :=
  zoom fst (λ s w, (s, snd w)) m.

Definition poll_cache_invalidation_events (tenant_id : TenantId) : ST WorkerState ApiError unit :=
  cursors ← gets snd;
  auth ← on_cdn (on_world (internal_subscribe_auth tenant_id));
  let subscribe := worker_subscribe tenant_id cursors in
  let alpha := ds_alpha (cd_service cdn) in
  cursor ← on_cdn (on_world (subscribe_start alpha auth subscribe));
  '(envelopes, next_cursor) ← on_cdn (on_world (subscribe_poll alpha auth subscribe cursor));
  _ ← modify (λ w, (fst w, <[tenant_id := event_cursor_encode next_cursor]> (snd w)));
  on_cdn (modify (λ s, set_cache (apply_envelopes tenant_id envelopes (cs_cache s)) s)).

(** One tenant of a round of [spawn_cache_invalidation_worker]. *)
Definition worker_tenant (tenant_id : TenantId) (w : WorkerState) : WorkerState :=
  let '(r, w') := poll_cache_invalidation_events tenant_id w in
  match r with
  | Err error =>
      if String.eqb (err_code error) "cursor_expired" || String.eqb (err_code error) "invalid_cursor"
      then (fst w', delete tenant_id (snd w'))
      else w'
  | Ok _ => w'
  end.
(** One round of its loop. *)
Definition worker_round (w : WorkerState) : WorkerState :=
  foldl (λ w tenant, worker_tenant tenant w) w (tenant_ids_from_cache (cs_cache (fst w))).
End serving.
