(* ===== verification/CdnProps.v ===== *)
(** * hsp-cdn: what the cache serves

    The server as a step relation: requests in flight fetch objects and store
    them in the cache later, the worker drops entries in between, and anything
    else moves the world of the service.  [handle_request] and [worker_round]
    are shown to be sequences of these steps, so what holds of every run of
    steps holds of every interleaving of the handlers. *)

From Stdlib Require Import ZArith Lia Ascii String Bool.
From stdpp Require Import base option list strings gmap numbers sorting relations.
From S2P Require Import Prelude RustStr Path Core Cbor CborFacts Auth Crypto Store ServiceState ServiceFacts Observability Access NamespaceSpec Subscribe EventProps ObjectProps Chunker AmzDate Distribution Buckets DistObjects SigV4 Concrete ConcreteService ConcreteDist Http S3Xml ConcreteHttp Cdn.

(** ** Keys *)

Lemma mode_suffix_app_inj (a b : bool) s t :
  cache_mode_suffix a +:+ String ":" s = cache_mode_suffix b +:+ String ":" t → a = b ∧ s = t.
Proof. destruct a, b; cbn; intros [=]; auto. Qed.

Definition colon_free (t : TenantId) : Prop := str_contains_char ":" t = false.

(** Keys of tenants without a colon determine what they are for. *)
Lemma cid_cache_key_inj t cid m t' cid' m' :
  colon_free t → colon_free t' →
  cid_cache_key t cid m = cid_cache_key t' cid' m' → t = t' ∧ cid = cid' ∧ m = m'.
Proof.
  intros Ht Ht' H. unfold cid_cache_key in H. cbn in H. injection H as H.
  apply str_split_first in H as [-> H]; [|done..].
  by apply mode_suffix_app_inj in H as [-> ->].
Qed.

(** A colon in a tenant id lets two tenants share a key. *)
Lemma cid_cache_key_collision t u cid :
  cid_cache_key t (u +:+ ":ciphertext:" +:+ cid) false
  = cid_cache_key (t +:+ ":ciphertext:" +:+ u) cid false.
Proof. unfold cid_cache_key. cbn [cache_mode_suffix]. rewrite <-!str_app_assoc. done. Qed.

Lemma cid_ns_keys_differ t cid m t' b k m' : cid_cache_key t cid m ≠ namespace_cache_key t' b k m'.
Proof. done. Qed.

Section cdn.
Context `{DD : DistDeps} `{CP : !CborPayload CapabilityClaims} {B : Backend} `{LB : BackendListing B}.
Context `{HD : HttpDeps} (cdn : Cdn).
Abbreviation ds := (cd_service cdn).

(** A response that may be cached is a whole ciphertext object. *)
Lemma get_object_cacheable auth request (w : World B) fresh w' :
  get_object ds auth request w = (Ok fresh, w') →
  gor_content_range fresh = None → is_cacheable fresh = true →
  go_prefer_plaintext request = false ∧ go_range request = None.
Proof.
  unfold get_object. cbn zeta. intros G Hr Hc.
  apply ST_bind_ok in G as (?&?&_&G). apply ST_bind_ok in G as (?&?&_&G).
  apply ST_bind_ok in G as ([[head sel] imm]&?&_&G).
  apply ST_bind_ok in G as (?&?&_&G). apply ST_bind_ok in G as (resp&?&_&G).
  destruct (go_prefer_plaintext request); cbn [negb] in G.
  - destruct (go_range request); [done|].
    apply ST_bind_ok in G as (?&?&_&G). apply ST_bind_ok in G as (?&?&_&G).
    apply ST_ret_ok in G as [<- _]. done.
  - apply ST_ret_ok in G as [<- _]. cbn in Hr. by destruct (go_range request).
Qed.

(** ** Steps *)

(** The state, the entries that requests in flight will store, and the callers
    who have authenticated so far. *)
Record CdnRun := mkCdnRun {
  run_state : CdnState B;
  run_pending : list (string * CachedObject);
  run_callers : list AuthContext;
}.
Abbreviation run_world run := (cs_world (run_state run)).

Inductive cdn_step : CdnRun → CdnRun → Prop :=
| step_world s pending callers w' :
    cdn_step (mkCdnRun s pending callers) (mkCdnRun (set_world w' s) pending callers)
| step_authenticate s pending callers method path query headers body auth w' :
    authenticate_request cdn method path query headers body (cs_world s) = (Ok auth, w') →
    cdn_step (mkCdnRun s pending callers) (mkCdnRun (set_world w' s) pending (auth :: callers))
| step_fetch_cid s pending callers auth ec bucket key cid plaintext range now fresh w' entry :
    auth ∈ callers → colon_free (cl_tenant_id (claims auth)) →
    get_object ds auth (object_request auth ec bucket key (Some cid) plaintext range)
      (cs_world s) = (Ok fresh, w') →
    cache_entry cdn true now fresh = Some entry →
    cdn_step (mkCdnRun s pending callers)
      (mkCdnRun (set_world w' s)
         ((cid_cache_key (cl_tenant_id (claims auth)) cid plaintext, entry) :: pending) callers)
| step_fetch_key s pending callers auth ec bucket key plaintext range now fresh w' entry :
    auth ∈ callers → colon_free (cl_tenant_id (claims auth)) →
    get_object ds auth (object_request auth ec (Some bucket) (Some key) None plaintext range)
      (cs_world s) = (Ok fresh, w') →
    cache_entry cdn false now fresh = Some entry →
    cdn_step (mkCdnRun s pending callers)
      (mkCdnRun (set_world w' s)
         ((namespace_cache_key (cl_tenant_id (claims auth)) bucket key plaintext, entry)
          :: pending) callers)
| step_store s before key entry after callers :
    cdn_step (mkCdnRun s (before ++ (key, entry) :: after) callers)
      (mkCdnRun (set_cache (<[key := entry]> (cs_cache s)) s) (before ++ after) callers)
| step_cancel s before p after callers :
    cdn_step (mkCdnRun s (before ++ p :: after) callers) (mkCdnRun s (before ++ after) callers)
| step_invalidate s pending callers tenant_id envelopes :
    cdn_step (mkCdnRun s pending callers)
      (mkCdnRun (set_cache (apply_envelopes tenant_id envelopes (cs_cache s)) s) pending callers).

(** [cdn_trace past run]: the server started with an empty cache, went through the
    states [past], the latest first, and is in the state [run]. *)
Inductive cdn_trace : list CdnRun → CdnRun → Prop :=
| trace_start w : cdn_trace [] (mkCdnRun (mkCdnState w ∅) [] [])
| trace_step past run run' :
    cdn_trace past run → cdn_step run run' → cdn_trace (run :: past) run'.

Lemma trace_extend past run run' :
  cdn_trace past run → rtc cdn_step run run' → ∃ later, cdn_trace (later ++ past) run'.
Proof.
  intros Ht Hs. revert past Ht. induction Hs as [run|run run1 run' Hstep _ IH]; intros past Ht.
  - by exists [].
  - destruct (IH (run :: past)) as [later Hl]; [by econstructor|].
    exists (later ++ [run]). by rewrite <-app_assoc.
Qed.

(** ** Provenance of an entry *)

(** A request presented [auth] at a moment of the run, and was accepted. *)
Definition authenticated (past : list CdnRun) (auth : AuthContext) : Prop :=
  ∃ run method path query headers body w',
    run ∈ past ∧
    authenticate_request cdn method path query headers body (run_world run) = (Ok auth, w').

(** [entry] was made from what the service answered, at a moment of the run, a
    caller of tenant [t] who had authenticated and asked for the whole ciphertext of
    the object named by [names]. *)
Record fetched (past : list CdnRun) (immutable : bool) (t : TenantId)
  (names : GetObjectRequest → Prop)
  (entry : CachedObject) (auth : AuthContext) (request : GetObjectRequest)
  (fresh : GetObjectResponse) : Prop := mkFetched {
  fe_tenant : cl_tenant_id (claims auth) = t;
  fe_request_tenant : go_tenant_id request = t;
  fe_names : names request;
  fe_ciphertext : go_prefer_plaintext request = false;
  fe_whole : go_range request = None;
  fe_caller : authenticated past auth;
  fe_answer : ∃ run w', run ∈ past ∧ get_object ds auth request (run_world run) = (Ok fresh, w');
  fe_entry : ∃ now, cache_entry cdn immutable now fresh = Some entry;
}.
Definition names_cid (cid : string) (request : GetObjectRequest) : Prop :=
  go_cid request = Some cid.
Definition names_key (bucket key : string) (request : GetObjectRequest) : Prop :=
  go_cid request = None ∧ go_bucket request = Some bucket ∧ go_key request = Some key.

Inductive origin (past : list CdnRun) : string → CachedObject → Prop :=
| origin_cid t cid entry auth request fresh :
    colon_free t → fetched past true t (names_cid cid) entry auth request fresh →
    origin past (cid_cache_key t cid false) entry
| origin_key t bucket key entry auth request fresh :
    colon_free t → fetched past false t (names_key bucket key) entry auth request fresh →
    origin past (namespace_cache_key t bucket key false) entry.

Lemma authenticated_cons past run auth : authenticated past auth → authenticated (run :: past) auth.
Proof.
  intros (r&m&p&q&h&b&w&Hin&Ha). exists r, m, p, q, h, b, w. split; [by right|done].
Qed.
Lemma fetched_cons past run im t names entry auth request fresh :
  fetched past im t names entry auth request fresh →
  fetched (run :: past) im t names entry auth request fresh.
Proof.
  intros [? ? ? ? ? Ha (r&w&Hin&Hg) ?]. split; [done..|by apply authenticated_cons| |done].
  exists r, w. split; [by right|done].
Qed.
Lemma origin_cons past run key entry : origin past key entry → origin (run :: past) key entry.
Proof. intros []; econstructor; eauto using fetched_cons. Qed.

(** ** The invariant *)

Record run_origins (past : list CdnRun) (run : CdnRun) : Prop := mkRunOrigins {
  ro_cache : map_Forall (origin past) (cs_cache (run_state run));
  ro_pending : Forall (λ p, origin past p.1 p.2) (run_pending run);
  ro_callers : Forall (authenticated past) (run_callers run);
}.
Lemma run_origins_cons past run run' :
  run_origins past run → run_origins (run' :: past) run.
Proof.
  intros [Hc Hp Ha]. split.
  - intros k e Hk. apply origin_cons. by apply Hc.
  - eapply Forall_impl; [exact Hp|]. intros p. apply origin_cons.
  - eapply Forall_impl; [exact Ha|]. intros a. apply authenticated_cons.
Qed.

Lemma cache_entry_ok immutable now fresh entry :
  cache_entry cdn immutable now fresh = Some entry →
  gor_content_range fresh = None ∧ is_cacheable fresh = true.
Proof.
  unfold cache_entry. destruct (bool_decide_reflect (gor_content_range fresh = None)); [|done].
  by destruct (is_cacheable fresh).
Qed.

(** Both kinds of fetch. *)
Lemma fetch_origin past run immutable auth request fresh w' now entry names :
  run ∈ past → authenticated past auth →
  get_object ds auth request (run_world run) = (Ok fresh, w') →
  cache_entry cdn immutable now fresh = Some entry →
  go_tenant_id request = cl_tenant_id (claims auth) → names request →
  go_prefer_plaintext request = false ∧
  fetched past immutable (cl_tenant_id (claims auth)) names entry auth request fresh.
Proof.
  intros Hin Ha Hg He Ht Hn. destruct (cache_entry_ok _ _ _ _ He) as [Hr Hc].
  destruct (get_object_cacheable _ _ _ _ _ Hg Hr Hc). split; [done|]. by split; eauto.
Qed.

Lemma apply_event_subset t ev cache : apply_event_invalidation t ev cache ⊆ cache.
Proof.
  unfold apply_event_invalidation.
  destruct (ev_event_type ev), (ev_namespace ev), (ev_path ev); try done;
    etrans; apply delete_subseteq.
Qed.
Lemma apply_envelopes_subset t envelopes cache : apply_envelopes t envelopes cache ⊆ cache.
Proof.
  unfold apply_envelopes. revert cache. induction envelopes as [|x l IH]; intros cache; cbn; [done|].
  etrans; [apply IH|]. destruct (se_kind x), (se_event x); try done. apply apply_event_subset.
Qed.

Lemma cdn_step_origins past run run' :
  cdn_step run run' → run_origins past run → run_origins (run :: past) run'.
Proof.
  intros Hstep [Hc Hp Ha]%(run_origins_cons _ _ run).
  destruct Hstep as [| s pending callers method path query headers body auth w' Hauth
    | s pending callers auth ec bucket key cid plaintext range now fresh w' entry Hin Hk Hg He
    | s pending callers auth ec bucket key plaintext range now fresh w' entry Hin Hk Hg He
    | s before key entry after callers | |]; cbn in *.
  - done.
  - split; [done..|]. constructor; [|done].
    do 7 eexists. split; [by left|exact Hauth].
  - rewrite Forall_forall in Ha. split; [done| |by rewrite Forall_forall]. constructor; [|done]. cbn.
    edestruct (fetch_origin (mkCdnRun s pending callers :: past) (mkCdnRun s pending callers) true)
      with (names := names_cid cid) as [Hm Hf]; [by left|by apply Ha|exact Hg|exact He|done..|].
    cbn in Hm. subst. by eapply origin_cid.
  - rewrite Forall_forall in Ha. split; [done| |by rewrite Forall_forall]. constructor; [|done]. cbn.
    edestruct (fetch_origin (mkCdnRun s pending callers :: past) (mkCdnRun s pending callers) false)
      with (names := names_key bucket key) as [Hm Hf]; [by left|by apply Ha|exact Hg|exact He|done..|].
    cbn in Hm. subst. by eapply origin_key.
  - apply Forall_app in Hp as [H1 [H2 H3]%Forall_cons]. split; [|by apply Forall_app|done].
    by apply map_Forall_insert_2.
  - apply Forall_app in Hp as [H1 [H2 H3]%Forall_cons]. split; [done|by apply Forall_app|done].
  - split; [|done..]. intros k e Hk. apply Hc.
    exact (lookup_weaken _ _ _ _ Hk (apply_envelopes_subset _ _ _)).
Qed.

Lemma trace_origins past run : cdn_trace past run → run_origins past run.
Proof.
  induction 1 as [w|past run run' _ IH Hstep]; [|by eapply cdn_step_origins].
  split; [apply map_Forall_empty|constructor..].
Qed.

(** ** The handlers are sequences of steps *)

(** From [s] to [s'] in steps, the callers [known] among those authenticated. *)
Definition steps (known : list AuthContext) (s s' : CdnState B) : Prop :=
  ∀ pending callers, known ⊆ callers →
  ∃ callers', callers ⊆ callers' ∧
    rtc cdn_step (mkCdnRun s pending callers) (mkCdnRun s' pending callers').
#[local] Instance steps_preorder known : PreOrder (steps known).
Proof.
  split; [intros s pending callers _; by exists callers|].
  intros s1 s2 s3 H1 H2 pending callers Hk. destruct (H1 pending callers Hk) as (c1&Hc1&Hs1).
  destruct (H2 pending c1) as (c2&Hc2&Hs2); [by etrans|].
  exists c2. split; by etrans.
Qed.
Lemma steps_once known s s' :
  (∀ pending callers, known ⊆ callers →
     cdn_step (mkCdnRun s pending callers) (mkCdnRun s' pending callers)) → steps known s s'.
Proof. intros H pending callers Hk. exists callers. split; [done|]. by apply rtc_once, H. Qed.

Lemma steps_world {A} known (m : ST (World B) ApiError A) : preserves (steps known) (on_world m).
Proof.
  intros s. unfold on_world, zoom. destruct (m (cs_world s)) as [r w']. cbn.
  apply steps_once. constructor.
Qed.
#[local] Hint Resolve steps_world preserves_gets : hsp_frame.

(** A request that misses: fetch, then store. *)
Lemma steps_serve known method key immutable allow fetch :
  (∀ s now fresh w' entry pending callers, known ⊆ callers →
     fetch (cs_world s) = (Ok fresh, w') → cache_entry cdn immutable now fresh = Some entry →
     cdn_step (mkCdnRun s pending callers)
       (mkCdnRun (set_world w' s) ((key, entry) :: pending) callers)) →
  preserves (steps known) (serve_cached_object cdn method key immutable allow fetch).
Proof.
  intros Hfetch. unfold serve_cached_object. apply preserves_bind; [apply _|by frame|].
  intros now. apply preserves_bind; [apply _|by frame|].
  intros [entry|]; [by frame|]. intros s. rewrite ST_bind_run.
  unfold on_world at 1, zoom. destruct (fetch (cs_world s)) as [[fresh|e] w'] eqn:Hf; cbn;
    [|apply steps_once; constructor].
  rewrite ST_bind_run. unfold lift_result. destruct (origin_response method fresh "MISS");
    cbn; [|apply steps_once; constructor].
  destruct (cache_entry cdn immutable now fresh) as [entry|] eqn:He; cbn;
    [|apply steps_once; constructor].
  intros pending callers Hk. exists callers. split; [done|].
  eapply rtc_l; [by eapply Hfetch|]. apply rtc_once.
  apply (step_store (set_world w' s) [] key entry pending).
Qed.

Lemma steps_dispatch auth ec method headers path query :
  colon_free (cl_tenant_id (claims auth)) →
  preserves (steps [auth]) (dispatch_request cdn auth ec method headers path query).
Proof.
  intros Hk. unfold dispatch_request. destruct (strip_prefix "/cid/" path) as [cid|].
  { unfold dispatch_cid. destruct (from_option _ _ _); [by frame|]. cbn zeta.
    apply preserves_bind; [apply _|by frame|]. intros range. apply steps_serve.
    intros * Hin ??. eapply step_fetch_cid; [apply Hin; by left|done..]. }
  destruct (strip_prefix "/b/" path) as [raw|]; [|by frame]. unfold dispatch_bucket.
  apply preserves_bind; [apply _|by frame|]. intros [b k].
  do 4 (apply preserves_bind; [apply _|by frame|]; intros ?). apply steps_serve.
  intros * Hin ??. eapply step_fetch_key; [apply Hin; by left|done..].
Qed.

(** Whoever the request authenticates belongs to a tenant without a colon. *)
Definition colon_free_caller (request : Request) : Prop :=
  ∀ body (w w' : World B) auth,
    authenticate_request cdn (rq_method request) (rq_path request) (default "" (rq_query request))
      (rq_headers request) body w = (Ok auth, w') → colon_free (cl_tenant_id (claims auth)).

(** An accepted request is known to the steps that follow. *)
Lemma steps_authenticate method path query headers body (s : CdnState B) auth w1 s' :
  authenticate_request cdn method path query headers body (cs_world s) = (Ok auth, w1) →
  steps [auth] (set_world w1 s) s' → steps [] s s'.
Proof.
  intros Ha Hs pending callers _. destruct (Hs pending (auth :: callers)) as (c&Hc&Hr); [set_solver|].
  exists c. split; [set_solver|]. eapply rtc_l; [by eapply step_authenticate|exact Hr].
Qed.

Lemma steps_handle request :
  colon_free_caller request → preserves (steps []) (handle cdn request).
Proof.
  intros Hk. unfold handle. cbn zeta. destruct (negb _ && negb _); [by frame|].
  apply preserves_bind; [apply _|by frame|]. intros body.
  assert (∀ scope render, preserves (steps []) (observability cdn scope render (rq_method request)
    (rq_path request) (default "" (rq_query request)) (rq_headers request) body)) as Hobs.
  { intros. unfold observability. repeat (apply preserves_bind; [apply _|by frame|]; intros).
    by frame. }
  destruct (_ && _); [apply Hobs|]. destruct (_ && _); [apply Hobs|].
  intros s. rewrite ST_bind_run. unfold on_world at 1, zoom.
  destruct (authenticate_request _ _ _ _ _ _ (cs_world s)) as [[auth|e] w1] eqn:Ha; cbn;
    [|apply steps_once; constructor].
  eapply steps_authenticate; [exact Ha|].
  match goal with |- steps _ ?s (?m ?s).2 => change (steps [auth] s (m s).2) end.
  apply preserves_bind; [apply _|apply preserves_attempt, steps_world|].
  intros c. apply steps_dispatch. by eapply Hk.
Qed.

Definition worker_steps (w w' : WorkerState (B:=B)) : Prop := steps [] (fst w) (fst w').
#[local] Instance worker_steps_preorder : PreOrder worker_steps.
Proof.
  split; [intros w; apply steps_preorder|]. intros w1 w2 w3 H1 H2.
  unfold worker_steps in *. by etrans.
Qed.

Lemma worker_steps_world {A} (m : ST (World B) ApiError A) :
  preserves worker_steps (on_cdn (on_world m)).
Proof.
  intros w. unfold on_cdn, zoom. pose proof (steps_world [] m (fst w)) as Hs.
  by destruct (on_world m (fst w)).
Qed.
#[local] Hint Resolve worker_steps_world : hsp_frame.

Lemma worker_steps_poll tenant_id :
  preserves worker_steps (poll_cache_invalidation_events cdn tenant_id).
Proof.
  unfold poll_cache_invalidation_events. frame.
  - intros w. change (steps [] (fst w) (fst w)). reflexivity.
  - intros w. unfold on_cdn, zoom. cbn. apply steps_once. constructor.
Qed.
Lemma worker_steps_tenant tenant_id w : worker_steps w (worker_tenant cdn tenant_id w).
Proof.
  unfold worker_tenant. pose proof (worker_steps_poll tenant_id w) as Hs.
  destruct (poll_cache_invalidation_events cdn tenant_id w) as [[|e] w']; [done|].
  by destruct (_ || _).
Qed.
Lemma worker_steps_round w : worker_steps w (worker_round cdn w).
Proof.
  unfold worker_round. generalize (tenant_ids_from_cache (cs_cache (fst w))). intros l.
  revert w. induction l as [|t l IH]; intros w; cbn; [reflexivity|].
  etrans; [apply worker_steps_tenant|apply IH].
Qed.

(** ** What a request is answered with *)

Lemma serve_ok method key immutable allow fetch (s : CdnState B) resp s' :
  serve_cached_object cdn method key immutable allow fetch s = (Ok resp, s') →
  (∃ entry, cs_cache s !! key = Some entry ∧ cached_response method entry "HIT" = Ok resp) ∨
  (∃ fresh w, w_store w = w_store (cs_world s) ∧ fetch w = (Ok fresh, cs_world s') ∧
     origin_response method fresh "MISS" = Ok resp).
Proof.
  unfold serve_cached_object. intros H.
  apply ST_bind_ok in H as (now&s1&Hn&H). injection Hn as _ <-.
  apply ST_bind_ok in H as (hit&s2&Hh&H).
  destruct hit as [entry|].
  - left. exists entry. destruct allow; [|done]. injection Hh as Hh <-. cbn in Hh.
    unfold cache_lookup in Hh. destruct (cs_cache s !! key); [|done]. cbn in Hh.
    destruct (_ <=? _); [|done]. injection Hh as ->. injection H as -> <-. done.
  - right. assert (w_store (cs_world s2) = w_store (cs_world s)) as Hst.
    { destruct allow; [injection Hh as _ <-|apply ST_ret_ok in Hh as [_ <-]]; done. }
    apply ST_bind_ok in H as (fresh&s3&Hf&H). apply ST_bind_ok in H as (r&s4&Hr&H).
    apply ST_bind_ok in H as (u&s5&Hu&H). apply ST_ret_ok in H as [-> ->].
    unfold on_world, zoom in Hf. destruct (fetch (cs_world s2)) as [r' w'] eqn:E.
    injection Hf as -> <-. injection Hr as Hr <-. exists fresh, (cs_world s2).
    split_and!; [done| |done]. rewrite E. f_equal.
    destruct (cache_entry _ _ _ _); by injection Hu as _ <-.
Qed.

Lemma cached_response_body method entry status resp :
  cached_response method entry status = Ok resp →
  rs_body resp = body_unless_head method (co_body entry).
Proof. by intros (_&Hb&_)%build_response_ok. Qed.
Lemma origin_response_body method fresh status resp :
  origin_response method fresh status = Ok resp →
  rs_body resp = body_unless_head method (gor_body fresh).
Proof. by intros (_&Hb&_)%build_response_ok. Qed.
Lemma cache_entry_body immutable now fresh entry :
  cache_entry cdn immutable now fresh = Some entry → co_body entry = gor_body fresh.
Proof. unfold cache_entry. destruct (_ && _); [|done]. by intros [= <-]. Qed.

(** The service, asked by [auth] in the world [w] for the object [cid] of the tenant
    [t], answers [body] and leaves the world [w']. *)
Definition answers (t : TenantId) (cid : string) (auth : AuthContext) (w w' : World B)
  (body : bytes) : Prop :=
  ∃ request fresh,
    cl_tenant_id (claims auth) = t ∧ go_tenant_id request = t ∧ go_cid request = Some cid ∧
    get_object ds auth request w = (Ok fresh, w') ∧ gor_body fresh = body.

Lemma cached_cid_answered past run t cid m entry :
  cdn_trace past run → colon_free t → cs_cache (run_state run) !! cid_cache_key t cid m = Some entry →
  ∃ earlier auth w', earlier ∈ past ∧ authenticated past auth ∧
    answers t cid auth (run_world earlier) w' (co_body entry).
Proof.
  intros [Hc _ _]%trace_origins Ht He. apply Hc in He.
  remember (cid_cache_key t cid m) as k eqn:Hk.
  destruct He as [t' cid' entry auth request fresh Ht' [? ? ? ? ? Ha (r&w'&Hin&Hg) [now Hn]]|]; [|done].
  apply cid_cache_key_inj in Hk as (<- & <- & <-); [|done..].
  exists r, auth, w'. split_and!; [done..|].
  exists request, fresh. by rewrite (cache_entry_body _ _ _ _ Hn).
Qed.

Lemma dispatch_cid_answered past run auth ec method headers cid query (s s' : CdnState B) resp :
  cdn_trace past run → cs_cache s = cs_cache (run_state run) →
  colon_free (cl_tenant_id (claims auth)) →
  dispatch_cid cdn auth ec method headers cid query s = (Ok resp, s') →
  ∃ body, rs_body resp = body_unless_head method body ∧
    ((∃ earlier auth0 w', earlier ∈ past ∧ authenticated past auth0 ∧
        answers (cl_tenant_id (claims auth)) cid auth0 (run_world earlier) w' body) ∨
     (∃ w, w_store w = w_store (cs_world s) ∧
        answers (cl_tenant_id (claims auth)) cid auth w (cs_world s') body)).
Proof.
  intros Htrace Hs Ht. unfold dispatch_cid. destruct (from_option _ _ _); [done|]. cbn zeta.
  intros (range&s1&Hr&H)%ST_bind_ok. injection Hr as _ <-.
  apply serve_ok in H as [(entry&He&Hresp)|(fresh&w&Hw&Hg&Hresp)].
  - rewrite Hs in He. eapply cached_cid_answered in He; [|done..].
    exists (co_body entry). split; [by eapply cached_response_body|by left].
  - exists (gor_body fresh). split; [by eapply origin_response_body|]. right. exists w. split; [done|].
    eexists _, fresh. split_and!; [done|..|exact Hg|done]; done.
Qed.

Lemma error_response_status error : 400 <= rs_status (api_error_response error).
Proof. apply status_for_category_error. Qed.

Section served.
Context `{HL : !HttpDepsLaws}.

(** Reading the token only looks at the clock. *)
Lemma edge_claims_store headers query (w : World B) r w' :
  edge_claims cdn headers query w = (r, w') → w_store w' = w_store w.
Proof.
  assert (preserves (λ a b : World B, w_store b = w_store a) (edge_claims cdn headers query)) as Hp.
  { assert (PreOrder (λ a b : World B, w_store b = w_store a)) by (split; congruence).
    unfold edge_claims, decode_edge_token. frame. all: by intros ?. }
  intros H. specialize (Hp w). by rewrite H in Hp.
Qed.

(** A successful answer on the CID route: the caller authenticated with an empty
    body, and the rest is [dispatch_cid] in a state with the same cache. *)
Lemma handle_cid_ok request (s s' : CdnState B) cid resp :
  rq_path request = "/cid/" +:+ cid → handle_request cdn request s = (Some resp, s') →
  rs_status resp < 400 →
  ∃ auth w1 ec s1,
    authenticate_request cdn (rq_method request) (rq_path request)
      (default "" (rq_query request)) (rq_headers request) [] (cs_world s) = (Ok auth, w1) ∧
    cs_cache s1 = cs_cache s ∧ w_store (cs_world s1) = w_store w1 ∧
    dispatch_cid cdn auth ec (rq_method request) (rq_headers request) cid
      (default "" (rq_query request)) s1 = (Ok resp, s').
Proof.
  intros Hpath. unfold handle_request. destruct (handle cdn request s) as [r s2] eqn:E.
  intros [= Hr ->] Hst. apply answer_ok in Hr as ->; [|apply error_response_status|done].
  unfold handle in E. cbn zeta in E. rewrite Hpath in E |- *. destruct (negb _ && negb _); [done|].
  apply ST_bind_ok in E as (body&s1&Hb&E). injection Hb as Hb <-.
  destruct (to_bytes _ _) as [b|] eqn:Ht; [|done]. injection Hb as ->.
  apply to_bytes_whole in Ht as [-> Hlen].
  assert (rq_body request = []) as Hnil.
  { apply nil_length_inv. unfold len_u64, MAX_CDN_REQUEST_BODY_BYTES in Hlen. lia. }
  rewrite Hnil in E. cbn [String.eqb append Ascii.eqb Bool.eqb] in E. rewrite !andb_false_r in E.
  apply ST_bind_ok in E as (auth&s1&Ha&E). apply ST_bind_ok in E as (c&s3&Hc&E).
  unfold on_world, zoom in Ha. destruct (authenticate_request _ _ _ _ _ _ _) as [r w1] eqn:Hauth.
  injection Ha as -> <-. unfold attempt, on_world, zoom in Hc.
  destruct (edge_claims _ _ _ _) as [rc w2] eqn:Hedge. injection Hc as <- <-.
  exists auth, w1, (result_ok rc), (set_world w2 (set_world w1 s)). split_and!; [done..| |done].
  by apply edge_claims_store in Hedge.
Qed.

(** C12: the edge serves a tenant its own objects only.  The server has gone through
    the states [past] of some run, in which requests, worker rounds and other
    processes interleaved in any way, and now answers a request on the CID route with
    success.  Then the caller authenticated just now, and the body is what the service
    answered about this CID for the caller's tenant: either at an earlier moment of
    this very run, asked by a caller of the same tenant who had authenticated in it,
    or now, asked by this caller over the store as authentication left it.  The run
    goes on from the state after the answer.  Tenant ids must be free of colons, the
    separator of the cache keys. *)
Theorem cdn_serves_own_objects request past run s' cid resp :
  cdn_trace past run → colon_free_caller request → rq_path request = "/cid/" +:+ cid →
  handle_request cdn request (run_state run) = (Some resp, s') → rs_status resp < 400 →
  (∃ auth w1 body,
     authenticate_request cdn (rq_method request) (rq_path request)
       (default "" (rq_query request)) (rq_headers request) [] (run_world run) = (Ok auth, w1) ∧
     rs_body resp = body_unless_head (rq_method request) body ∧
     ((∃ earlier auth0 w', earlier ∈ past ∧ authenticated past auth0 ∧
         answers (cl_tenant_id (claims auth)) cid auth0 (run_world earlier) w' body) ∨
      (∃ w, w_store w = w_store w1 ∧
         answers (cl_tenant_id (claims auth)) cid auth w (cs_world s') body))) ∧
  (∃ later callers, cdn_trace (later ++ past) (mkCdnRun s' (run_pending run) callers)).
Proof.
  intros Htrace Hfree Hpath Hh Hst. split.
  - destruct (handle_cid_ok _ _ _ _ _ Hpath Hh Hst) as (auth&w1&ec&s1&Ha&Hs&Hw&Hd).
    eapply dispatch_cid_answered in Hd as (body&Hb&Hans); [|done|exact Hs|by eapply Hfree].
    rewrite Hw in Hans. by exists auth, w1, body.
  - destruct (steps_handle request Hfree (run_state run) (run_pending run) (run_callers run))
      as (callers&_&Hsteps); [set_solver|].
    unfold handle_request in Hh. destruct (handle cdn request (run_state run)) as [r s2].
    injection Hh as _ <-. destruct run as [s p c]; cbn in *.
    destruct (trace_extend _ _ _ Htrace Hsteps) as [later Hl]. eauto.
Qed.
End served.

End cdn.

(** ** The invalidation worker *)

Section worker.
Context `{DDL : DistDepsLaws} {B : Backend} `{BL : BackendLaws B} (cdn : Cdn).
Abbreviation alpha := (ds_alpha (cd_service cdn)).

(** A subscription that starts is inside the window of the log it found. *)
Lemma subscribe_start_window auth request (w : World B) c w' st :
  subscribe_start alpha auth request w = (Ok c, w') →
  stored alpha (files w) (sq_tenant_id request) "events" "sequence" = Some st →
  u64_sat_sub (next_seq st) 3600 <= ec_next_seq c.
Proof.
  unfold subscribe_start. destruct (existsb _ _); [done|].
  intros (u&w1&Ha&H)%ST_bind_ok Hst. apply ST_bind_ok in H as (n&w2&Hn&H).
  apply ST_bind_ok in H as (from&w3&Hl&H). apply ST_bind_ok in H as (u2&w4&Hw&H).
  apply ST_ret_ok in H as [<- _]. injection Hl as _ <-.
  assert (files w2 = files w) as Hf.
  { transitivity (files w1); [by apply next_read_event_seq_files in Hn|].
    case_bool_decide; [|by apply authorize_filters_files in Ha].
    apply ST_bind_ok in Ha as (d&w5&Ha&Hr). apply ST_ret_ok in Hr as [_ <-].
    by apply authorize_read_files in Ha. }
  unfold ensure_event_cursor_within_window in Hw. apply ST_bind_ok in Hw as (m&w5&Hm&Hw).
  unfold next_read_event_seq in Hm. apply ST_bind_ok in Hm as (o&w6&Ho&Hm).
  apply read_json_ok in Ho as (_&->&_). apply ST_ret_ok in Hm as [<- _].
  rewrite Hf, Hst in Hw. destruct (from <? _) eqn:E; [done|]. by apply Z.ltb_ge in E.
Qed.

Lemma on_cdn_world_run {A} (m : ST (World B) ApiError A) s cursors r w' :
  m (cs_world s) = (r, w') → on_cdn (on_world m) (s, cursors) = (r, (set_world w' s, cursors)).
Proof. intros Hm. unfold on_cdn, on_world, zoom. cbn. by rewrite Hm. Qed.

(** The worker's subscription does not start on a long log. *)
Lemma worker_subscribe_fails t cursors auth (w : World B) st c w' :
  cursors !! t = None → stored alpha (files w) t "events" "sequence" = Some st →
  3600 < next_seq st →
  subscribe_start alpha auth (worker_subscribe t cursors) w = (Ok c, w') → False.
Proof.
  intros Hc Hst Hn Hs. pose proof (subscribe_start_window _ _ _ _ _ _ Hs Hst) as Hwin.
  assert (ec_next_seq c = 0) as Hz; [|rewrite Hz in Hwin; unfold u64_sat_sub in Hwin; lia].
  unfold subscribe_start in Hs. destruct (existsb _ _); [done|].
  apply ST_bind_ok in Hs as (?&?&_&Hs). apply ST_bind_ok in Hs as (?&?&_&Hs).
  apply ST_bind_ok in Hs as (from&?&Hl&Hs). apply ST_bind_ok in Hs as (?&?&_&Hs).
  unfold worker_subscribe in Hl. cbn in Hl. rewrite Hc in Hl.
  injection Hl as <- _. by apply ST_ret_ok in Hs as [<- _].
Qed.

(** C34: the worker does not recover a tenant whose log has outgrown the window.
    Without a cursor it asks for the events from number 0, which is outside the
    window of 3600 once the log is longer; the poll fails, nothing is invalidated
    and the worker still has no cursor for the tenant, so the next round fails the
    same way. *)
Theorem cdn_worker_stalls t (s : CdnState B) cursors st :
  cursors !! t = None →
  stored alpha (files (cs_world s)) t "events" "sequence" = Some st → 3600 < next_seq st →
  is_ok (poll_cache_invalidation_events cdn t (s, cursors)).1 = false ∧
  cs_cache (worker_tenant cdn t (s, cursors)).1 = cs_cache s ∧
  (worker_tenant cdn t (s, cursors)).2 = cursors.
Proof.
  intros Hc Hst Hn. unfold worker_tenant.
  assert (∃ e w', poll_cache_invalidation_events cdn t (s, cursors)
                  = (Err e, (set_world w' s, cursors))) as (e&w'&->).
  { destruct (internal_subscribe_auth t (cs_world s)) as [[auth|e] w1] eqn:Ha; [|done].
    assert (files w1 = files (cs_world s)) as Hf by (injection Ha as _ <-; done).
    destruct (subscribe_start alpha auth (worker_subscribe t cursors) w1) as [[c|e] w2] eqn:Hs.
    { rewrite <-Hf in Hst. by edestruct worker_subscribe_fails. }
    exists e, w2. unfold poll_cache_invalidation_events. rewrite ST_bind_run. cbn [gets fst snd].
    rewrite ST_bind_run, (on_cdn_world_run _ _ _ _ _ Ha). cbn zeta.
    by rewrite ST_bind_run, (on_cdn_world_run _ (set_world w1 s) _ _ _ Hs). }
  cbn [fst snd is_ok]. split; [done|]. destruct (_ || _); [|done].
  split; [done|]. by apply delete_id.
Qed.
End worker.

(** ** Two observations *)

Section observations.
Context `{DD : DistDeps} `{CP : !CborPayload CapabilityClaims} {B : Backend} `{LB : BackendListing B}.
Context `{HD : HttpDeps} (cdn : Cdn).

(** What a hit does not check.  A fresh entry under the key of the request is
    served to whoever authenticated for the tenant, whatever scopes and prefixes the
    caller has, without asking the service; and when another tenant and CID have the
    same key, as tenants with a colon in their id can, it is the other tenant's
    object. *)
Theorem cdn_hit_unchecked auth method headers cid query t' cid' (s : CdnState B) entry :
  cid_cache_key t' cid' false = cid_cache_key (cl_tenant_id (claims auth)) cid false →
  cs_cache s !! cid_cache_key t' cid' false = Some entry →
  clock (w_ticks (cs_world s)) <= co_expires_at_ms entry → header_get headers "range" = None →
  (dispatch_request cdn auth None method headers ("/cid/" +:+ cid) query s).1
  = cached_response method entry "HIT".
Proof.
  intros Hk Hl Hexp Hr. unfold dispatch_request.
  rewrite (proj2 (strip_prefix_Some "/cid/" _ cid) eq_refl).
  unfold dispatch_cid, parse_range. rewrite Hr. cbn [from_option]. cbn zeta.
  rewrite ST_bind_run. cbn -[serve_cached_object cid_cache_key get_object]. change (prefer_plaintext None query) with false.
  rewrite <-Hk. unfold serve_cached_object, cache_lookup.
  rewrite ST_bind_run. unfold on_world, zoom. cbn [now_ms]. rewrite ST_bind_run. unfold gets.
  change (cs_cache (set_world _ s)) with (cs_cache s). rewrite Hl. cbn -[cached_response].
  by rewrite (proj2 (Z.leb_le _ _)).
Qed.
End observations.

(** ** Witnesses *)

Import ToyService ToyDist ToyHttp.

Definition sample_cdn : Cdn := mkCdn concrete_dist 60 30.
Definition edge_token : string := Eval vm_compute in
  default "" (result_ok (mint_edge_token concrete_dist
    (mkEdgeTokenClaims "tenant-alpha" None None (Some "sha256-object") PublicCiphertext "GET" 9000))).
Definition edge_request : Request :=
  mkRequest "GET" "/cid/sha256-object" (Some ("token=" +:+ edge_token)) [] [].
Definition cold_state : CdnState disk := mkCdnState stored_world ∅.
Definition first_answer : option Response * CdnState disk := handle_request sample_cdn edge_request cold_state.
Definition second_answer : option Response * CdnState disk :=
  handle_request sample_cdn edge_request first_answer.2.

Lemma edge_request_caller : colon_free_caller (B := disk) sample_cdn edge_request.
Proof.
  intros body w w' auth. unfold authenticate_request.
  assert (request_edge_token (rq_headers edge_request) (default "" (rq_query edge_request))
          = Some edge_token) as -> by (vm_compute; reflexivity).
  unfold authenticate_edge_token. intros (c&w1&Hc&H)%ST_bind_ok.
  apply ST_bind_ok in H as (u&w2&_&H). apply ST_bind_ok in H as (now&w3&_&H).
  apply ST_ret_ok in H as [<- _]. cbn [claims cl_tenant_id].
  unfold decode_edge_token in Hc. apply ST_bind_ok in Hc as ([p sig]&w4&Hp&Hc).
  apply pair_equal_spec in Hp as [Hp <-]. vm_compute in Hp. injection Hp as <- <-.
  apply ST_bind_ok in Hc as (e&w5&He&Hc). destruct (negb _); [done|].
  apply ST_bind_ok in Hc as (payload&w6&Hpay&Hc). apply pair_equal_spec in Hpay as [Hpay <-].
  vm_compute in Hpay. injection Hpay as <-.
  apply ST_bind_ok in Hc as (c'&w7&Hc'&Hc). apply pair_equal_spec in Hc' as [Hc' <-]. vm_compute in Hc'.
  injection Hc' as <-. apply ST_bind_ok in Hc as (now'&w8&_&Hc).
  destruct (_ <? _); [done|]. by apply ST_ret_ok in Hc as [<- _].
Qed.
Lemma first_answer_trace :
  ∃ past callers, cdn_trace sample_cdn past (mkCdnRun first_answer.2 [] callers).
Proof.
  destruct (steps_handle sample_cdn _ edge_request_caller cold_state [] []) as (callers&_&Hs); [done|].
  destruct (trace_extend sample_cdn [] _ _ (trace_start sample_cdn stored_world) Hs) as [past Hp].
  exists (past ++ []), callers. unfold first_answer, handle_request.
  destruct (handle sample_cdn edge_request cold_state). exact Hp.
Qed.

(** Witness of C12: the second request of the same object is a hit. *)
Lemma cdn_serves_own_objects_witness :
  ∃ resp s' past run, second_answer = (Some resp, s') ∧ cdn_trace sample_cdn past run ∧
  header_get (rs_headers resp) "x-hsp-cache-status" = Some (as_bytes "HIT") ∧
  (∃ auth w1 body,
     authenticate_request sample_cdn "GET" "/cid/sha256-object" ("token=" +:+ edge_token) [] []
       (cs_world first_answer.2) = (Ok auth, w1) ∧
     rs_body resp = body_unless_head "GET" body ∧
     ((∃ earlier auth0 w', earlier ∈ past ∧ authenticated sample_cdn past auth0 ∧
         answers sample_cdn (cl_tenant_id (claims auth)) "sha256-object" auth0
           (cs_world (run_state earlier)) w' body) ∨
      (∃ w, w_store w = w_store w1 ∧
         answers (B := disk) sample_cdn (cl_tenant_id (claims auth)) "sha256-object" auth w
           (cs_world s') body))) ∧
  (∃ later callers, cdn_trace sample_cdn (later ++ past) (mkCdnRun s' [] callers)).
Proof.
  assert (from_option (λ resp, bool_decide (header_get (rs_headers resp) "x-hsp-cache-status"
            = Some (as_bytes "HIT")) && (rs_status resp <? 400)) false second_answer.1 = true)
    as Hhit by (vm_compute; reflexivity).
  destruct second_answer as [[resp|] s'] eqn:E; [|discriminate Hhit].
  apply andb_true_iff in Hhit as [Hhit Hstatus].
  destruct first_answer_trace as (past&callers&Htrace).
  exists resp, s', past, (mkCdnRun first_answer.2 [] callers). split; [reflexivity|].
  split; [exact Htrace|]. split; [exact (bool_decide_eq_true_1 _ Hhit)|].
  apply (cdn_serves_own_objects sample_cdn edge_request past (mkCdnRun first_answer.2 [] callers)
           s' "sha256-object" resp).
  - exact Htrace.
  - exact edge_request_caller.
  - reflexivity.
  - exact E.
  - exact (proj1 (Z.ltb_lt _ _) Hstatus).
Defined.


Definition long_log_world : World disk :=
  (write_encrypted_json concrete_service "tenant-alpha" "events" "sequence"
     (mkSequenceState 5000) disk_world).2.

(** Witness of C34: a tenant with 4999 events. *)
Lemma cdn_worker_stalls_witness :
  is_ok (poll_cache_invalidation_events sample_cdn "tenant-alpha"
           (mkCdnState long_log_world ∅, ∅)).1 = false ∧
  cs_cache (worker_tenant sample_cdn "tenant-alpha" (mkCdnState long_log_world ∅, ∅)).1 = ∅ ∧
  (worker_tenant sample_cdn "tenant-alpha" (mkCdnState long_log_world ∅, ∅)).2 = ∅.
Proof.
  assert (stored concrete_service (files long_log_world) "tenant-alpha" "events" "sequence"
          = Some (mkSequenceState 5000)) as Hst by (vm_compute; reflexivity).
  exact (cdn_worker_stalls sample_cdn "tenant-alpha" (mkCdnState long_log_world ∅) ∅
           (mkSequenceState 5000) eq_refl Hst eq_refl).
Defined.

Definition foreign_entry : CachedObject :=
  mkCachedObject (as_bytes "other tenant") "text/plain" "etag" "public" 12 5000.

