(* ===== verification/S3.v ===== *)
(** * hsp-s3: the S3 surface

    Models [server/hsp-s3/src/lib.rs]: a request is routed by host or path to a
    bucket and a key, authenticated by a capability or a SigV4 signature, and
    dispatched by method, route and sub-resource to one operation of the
    distribution service (the bulk delete to several), whose answer is rendered as
    XML or as headers.  The arms of the [match] of [dispatch_request] are kept in
    order in three groups, by whether bucket and key are present. *)

From Stdlib Require Import ZArith Lia Ascii String Bool.
From stdpp Require Import base option list strings gmap numbers sorting.
From S2P Require Import Prelude RustStr Path Core Cbor Auth Crypto Store ServiceState Observability Chunker AmzDate Distribution Buckets DistObjects Multipart SigV4 UrlStr Http S3Xml.

Definition MAX_S3_REQUEST_BODY_BYTES : Z := 128 * 1024 * 1024.
Definition StatusNoContent : Z := 204.

(** The fields of [S3State]. *)
Record S3State := mkS3State {
  ss_service : DistributionService;
  ss_virtual_host_suffix : option string;
}.

(** ** Routing *)

Record ResolvedRoute := mkResolvedRoute { rr_bucket : option string; rr_key : option string }.

Definition non_empty (s : string) : option string := if str_is_empty s then None else Some s.
Definition header_str (headers : HeaderMap) (name : string) : option string :=
  v ← header_get headers name; header_to_str v.
Definition contains_header (headers : HeaderMap) (name : string) : bool :=
  bool_decide (is_Some (header_get headers name)).

Definition resolve_path (path : string) : ResolvedRoute :=
  let path := trim_start_char slash path in
  if str_is_empty path then mkResolvedRoute None None
  else match split_once slash path with
       | Some (bucket, key) => mkResolvedRoute (Some bucket) (non_empty key)
       | None => mkResolvedRoute (Some path) None
       end.
Definition resolve_bucket_and_key (headers : HeaderMap) (path : string)
  (virtual_host_suffix : option string) : ResolvedRoute :=
  match virtual_host_suffix, header_str headers "host" with
  | Some suffix, Some host =>
      if ends_with suffix host then
        mkResolvedRoute (Some (trim_end_char "." (trim_end_str suffix host)))
          (non_empty (trim_start_char slash path))
      else resolve_path path
  | _, _ => resolve_path path
  end.

(** ** Headers *)

Definition required_header_s3 (headers : HeaderMap) (name : string) : result ApiError string :=
  ok_or (header_str headers name)
    (mkApiError CatValidation "missing_required_header"
       ("required header `" +:+ name +:+ "` is missing")).

Definition parse_visibility_mode (value : string) : result ApiError VisibilityMode :=
  if String.eqb value "server_visible" then Ok ServerVisible
  else if String.eqb value "encrypted_only" then Ok EncryptedOnly
  else if String.eqb value "split" then Ok Split
  else Err (mkApiError CatValidation "invalid_metadata_visibility"
    "x-hsp-metadata-visibility must be server_visible, encrypted_only, or split").

Definition parse_range (headers : HeaderMap) : result ApiError (option RangeSpec) :=
  match header_str headers "range" with
  | None => Ok None
  | Some header =>
      raw ← ok_or (strip_prefix "bytes=" header)
        (mkApiError CatValidation "invalid_range" "Range header must use bytes=start-end syntax");
      '(start, end_) ← ok_or (split_once "-" raw)
        (mkApiError CatValidation "invalid_range" "Range header must include start and end");
      start ← ok_or (parse_u64 start) invalid_range;
      end_ ← ok_or (parse_u64 end_) invalid_range;
      Ok (Some (mkRangeSpec start end_))
  end.

Definition parse_access_profile (headers : HeaderMap) : result ApiError AccessProfile :=
  let value := default "public-ciphertext" (header_str headers "x-hsp-access-profile") in
  if String.eqb value "public-ciphertext" then Ok PublicCiphertext
  else if String.eqb value "trusted-edge-v1" then Ok TrustedEdgeV1
  else Err (mkApiError CatValidation "invalid_access_profile"
    "x-hsp-access-profile must be public-ciphertext or trusted-edge-v1").

Definition parse_payload_plaintext (headers : HeaderMap) : bool :=
  from_option (λ value, eq_ignore_ascii_case value "plaintext") false
    (header_str headers "x-hsp-payload-mode").

Definition canned_acl_from_str (value : string) : result ApiError CannedAcl :=
  if String.eqb value "private" then Ok AclPrivate
  else if String.eqb value "public-read" then Ok AclPublicRead
  else if String.eqb value "authenticated-read" then Ok AclAuthenticatedRead
  else Err (mkApiError CatValidation "acl_denied"
    "supported canned ACL values are private, public-read, authenticated-read").

Definition parse_wrapped_object_key (headers : HeaderMap)
  : result ApiError WrappedObjectKeyRecord :=
  recipient_key_id ← required_header_s3 headers "x-hsp-recipient-key-id";
  wrapping_suite ← required_header_s3 headers "x-hsp-key-wrapping-suite";
  wrapped_key_b64 ← required_header_s3 headers "x-hsp-wrapped-object-key";
  Ok {| wk_recipient_key_id := recipient_key_id; wk_wrapping_suite := wrapping_suite;
        wk_wrapped_key_b64 := wrapped_key_b64;
        wk_key_version :=
          default 1 (value ← header_str headers "x-hsp-wrapped-object-key-version";
                     parse_u32 value);
        wk_encapsulated_key_b64 := header_str headers "x-hsp-encapsulated-key" |}.
Definition parse_wrapped_object_keys (headers : HeaderMap) (payload_plaintext : bool)
  : result ApiError (list WrappedObjectKeyRecord) :=
  if contains_header headers "x-hsp-recipient-key-id"
     && contains_header headers "x-hsp-wrapped-object-key" then
    key ← parse_wrapped_object_key headers; Ok [key]
  else if payload_plaintext then Ok []
  else Err (mkApiError CatValidation "missing_required_header"
              "ciphertext mode requires wrapped object key headers").

Definition server_visible_metadata (headers : HeaderMap) : metadata_map :=
  foldl (λ acc h, match strip_prefix "x-amz-meta-" h.1 with
                  | Some suffix => <[suffix := default "" (header_to_str h.2)]> acc
                  | None => acc
                  end) ∅ headers.

Definition parse_put_object_request (auth : AuthContext) (bucket key : string)
  (headers : HeaderMap) : result ApiError PutObjectRequest :=
  let payload_plaintext := parse_payload_plaintext headers in
  access_profile ← parse_access_profile headers;
  encryption_profile_id ← required_header_s3 headers "x-hsp-encryption-profile-id";
  key_policy_id ← required_header_s3 headers "x-hsp-key-policy-id";
  visibility ← required_header_s3 headers "x-hsp-metadata-visibility";
  metadata_visibility ← parse_visibility_mode visibility;
  wrapped_object_keys ← parse_wrapped_object_keys headers payload_plaintext;
  Ok {| po_tenant_id := cl_tenant_id (claims auth); po_bucket := bucket; po_key := key;
        po_access_profile := access_profile; po_payload_plaintext := payload_plaintext;
        po_content_type := default "application/octet-stream" (header_str headers "content-type");
        po_encryption_profile_id := encryption_profile_id; po_key_policy_id := key_policy_id;
        po_metadata_visibility := metadata_visibility;
        po_content_encryption_suite :=
          default "XChaCha20-Poly1305" (header_str headers "x-hsp-content-encryption-suite");
        po_key_wrapping_suite :=
          default "HPKE/X25519" (header_str headers "x-hsp-key-wrapping-suite");
        po_wrapped_object_keys := wrapped_object_keys;
        po_server_visible_metadata := server_visible_metadata headers;
        po_encrypted_client_metadata := ∅;
        po_storage_class := default "hot" (header_str headers "x-hsp-storage-class");
        po_idempotency_key := default "put-object" (header_str headers "x-hsp-idempotency-key") |}.

Definition parse_create_multipart_request (auth : AuthContext) (bucket key : string)
  (headers : HeaderMap) : result ApiError CreateMultipartUploadRequest :=
  let payload_plaintext := parse_payload_plaintext headers in
  access_profile ← parse_access_profile headers;
  encryption_profile_id ← required_header_s3 headers "x-hsp-encryption-profile-id";
  key_policy_id ← required_header_s3 headers "x-hsp-key-policy-id";
  visibility ← required_header_s3 headers "x-hsp-metadata-visibility";
  metadata_visibility ← parse_visibility_mode visibility;
  wrapped_object_keys ← parse_wrapped_object_keys headers payload_plaintext;
  Ok {| cmu_tenant_id := cl_tenant_id (claims auth); cmu_bucket := bucket; cmu_key := key;
        cmu_access_profile := access_profile; cmu_payload_plaintext := payload_plaintext;
        cmu_content_type := default "application/octet-stream" (header_str headers "content-type");
        cmu_encryption_profile_id := encryption_profile_id; cmu_key_policy_id := key_policy_id;
        cmu_metadata_visibility := metadata_visibility;
        cmu_content_encryption_suite :=
          default "XChaCha20-Poly1305" (header_str headers "x-hsp-content-encryption-suite");
        cmu_key_wrapping_suite :=
          default "HPKE/X25519" (header_str headers "x-hsp-key-wrapping-suite");
        cmu_wrapped_object_keys := wrapped_object_keys;
        cmu_server_visible_metadata := server_visible_metadata headers;
        cmu_encrypted_client_metadata := ∅;
        cmu_storage_class := default "hot" (header_str headers "x-hsp-storage-class");
        cmu_idempotency_key := default "multipart" (header_str headers "x-hsp-idempotency-key") |}.

(** ** Responses *)

Definition xml_error (error : string) : ApiError := mkApiError CatValidation "invalid_xml" error.

Section responses.
Context `{HttpDeps} `{XmlDeps}.

(** [std::str::from_utf8(body).unwrap_or_default()], parsed. *)
Definition read_xml {T} `{XmlRead T} (body : bytes) : result ApiError T :=
  map_err xml_error (from_xml_str (default "" (from_utf8 body))).

Definition parse_canned_acl (headers : HeaderMap) (body : bytes) : result ApiError CannedAcl :=
  match header_str headers "x-amz-acl" with
  | Some value => canned_acl_from_str value
  | None =>
      match body with
      | [] => Ok AclPrivate
      | _ => parsed ← read_xml body; canned_acl_from_str (acx_canned_acl parsed)
      end
  end.

Definition empty_response (status : Z) : result ApiError Response := build_response status [] [].
Definition xml_response {T} `{XmlWrite T} (status : Z) (value : T) : result ApiError Response :=
  xml ← map_err xml_error (to_xml_string value);
  build_response status [("content-type", "application/xml")] (as_bytes xml).

Definition api_error_response (error : ApiError) : Response :=
  {| rs_status := status_for_category (err_category error);
     rs_headers := [("content-type", as_bytes "application/xml")];
     rs_body := as_bytes
       match to_xml_string (error_xml error) with
       | Ok body => body
       | Err _ =>
           "<Error><Code>internal_error</Code><Message>failed to serialize error</Message></Error>"
       end |}.

(** [headers_mut().insert(name, value.parse().expect(..))] on a response without these
    names: a value that is no header value panics. *)
Fixpoint insert_headers (response : Response) (headers : list (string * string))
  : result ApiError Response :=
  match headers with
  | [] => Ok response
  | (name, value) :: rest =>
      match header_value value with
      | Ok value =>
          insert_headers (mkResponse (rs_status response) (rs_headers response ++ [(name, value)])
                            (rs_body response)) rest
      | Err _ => Err (panic_error name)
      end
  end.

Definition head_response (head : HeadObjectResponse) : result ApiError Response :=
  response ← empty_response StatusOk;
  insert_headers response
    [("etag", double_quoted (ho_etag head));
     ("x-hsp-exists", bool_to_string (ho_exists head));
     ("x-hsp-deleted", bool_to_string (ho_deleted head));
     ("x-hsp-cid", ho_cid head);
     ("x-hsp-object-cid", ho_object_cid head);
     ("x-hsp-manifest-cid", ho_manifest_cid head);
     ("x-hsp-integrity-hash", ho_integrity_hash head);
     ("x-hsp-size-bytes", dec (ho_size_bytes head));
     ("x-hsp-ciphertext-size-bytes", dec (ho_ciphertext_size_bytes head));
     ("content-length", dec (ho_content_length head));
     ("content-type", ho_content_type head);
     ("last-modified", dec (ho_last_modified_ms head));
     ("x-hsp-created-at-ms", dec (ho_last_modified_ms head));
     ("x-hsp-encryption-profile-id", ho_encryption_profile_id head);
     ("x-hsp-key-policy-id", ho_key_policy_id head);
     ("x-hsp-metadata-visibility", visibility_as_str (ho_metadata_visibility head));
     ("x-hsp-encrypted-client-metadata-redacted",
      bool_to_string (ho_encrypted_client_metadata_redacted head))].

Definition get_response (get : GetObjectResponse) : result ApiError Response :=
  response ← build_response
    (match gor_content_range get with Some _ => StatusPartialContent | None => StatusOk end) []
    (gor_body get);
  insert_headers response
    ([("etag", double_quoted (ho_etag (gor_head get)));
      ("content-length", dec (ho_content_length (gor_head get)));
      ("content-type", ho_content_type (gor_head get));
      ("cache-control", gor_cache_control get)]
     ++ match gor_content_range get with
        | Some content_range => [("content-range", content_range)]
        | None => []
        end).

Definition etag_response (etag : string) : result ApiError Response :=
  response ← empty_response StatusOk; insert_headers response [("etag", double_quoted etag)].
End responses.

(** ** Dispatch *)

Section dispatch.
Context `{DistDeps} `{!CborPayload CapabilityClaims} {B : Backend} `{BackendListing B}.
Context `{HttpDeps} `{XmlDeps} (s3 : S3State).
Abbreviation service := (ss_service s3).
Implicit Types auth : AuthContext.

Definition authenticate_request (method path query : string) (headers : HeaderMap) (body : bytes)
  : ST (World B) ApiError AuthContext :=
  let binding := mkHttpRequestBinding method path query headers body in
  if contains_header headers "x-hsp-capability" then
    lift_result (authenticate_hsp_capability service binding)
  else if contains_header headers "authorization" || str_contains "X-Amz-Signature=" query then
    authenticate_sigv4 service binding
  else throw (auth_error "missing_auth"
                "request must use HSP capability auth, SigV4, or presigned URL auth").

Definition route_not_found : ApiError := mkApiError CatNotFound "route_not_found" "S3 route not found".
Definition has_param (params : gmap string string) (name : string) : bool :=
  bool_decide (is_Some (params !! name)).
(** Run an operation and render what it returns. *)
Definition rendered {A} (m : ST (World B) ApiError A) (render : A → result ApiError Response)
  : ST (World B) ApiError Response := a ← m; lift_result (render a).

Definition object_delete (auth : AuthContext) (bucket key : string) : DeleteObjectRequest :=
  {| dq_tenant_id := cl_tenant_id (claims auth); dq_bucket := bucket; dq_key := key;
     dq_idempotency_key := "delete-" +:+ cid_from_bytes (as_bytes key) |}.
(** The loop of the bulk delete, which drops every result. *)
Fixpoint delete_all (auth : AuthContext) (bucket : string) (keys : list string)
  : ST (World B) ApiError unit :=
  match keys with
  | [] => mret tt
  | key :: rest =>
      _ ← attempt (delete_object service auth (object_delete auth bucket key));
      delete_all auth bucket rest
  end.

(** The arms without a bucket. *)
Definition dispatch_root (auth : AuthContext) (method : string) : ST (World B) ApiError Response :=
  if String.eqb method "GET" then
    rendered (list_buckets service auth (cl_tenant_id (claims auth)))
      (λ buckets, xml_response StatusOk (buckets_xml buckets))
  else throw route_not_found.

(** The arms with a bucket and no key. *)
Definition dispatch_bucket (auth : AuthContext) (method : string) (headers : HeaderMap)
  (params : gmap string string) (bucket : string) (body : bytes)
  : ST (World B) ApiError Response :=
  let tenant_id := cl_tenant_id (claims auth) in
  let GET := String.eqb method "GET" in
  let PUT := String.eqb method "PUT" in
  let POST := String.eqb method "POST" in
  let HEAD := String.eqb method "HEAD" in
  let DELETE := String.eqb method "DELETE" in
  let has := has_param params in
  if GET && has "acl" then
    rendered (get_bucket_acl service auth tenant_id bucket)
      (λ acl, xml_response StatusOk (acl_xml (ba_acl acl)))
  else if PUT && has "acl" then
    acl ← lift_result (parse_canned_acl headers body);
    rendered (put_bucket_acl service auth tenant_id bucket acl) (λ _, empty_response StatusOk)
  else if GET && has "lifecycle" then
    rendered (get_lifecycle_config service auth tenant_id bucket)
      (λ lifecycle, xml_response StatusOk (lifecycle_xml lifecycle))
  else if PUT && has "lifecycle" then
    parsed ← lift_result (read_xml body);
    rendered (put_lifecycle_config service auth (lifecycle_config_from_xml tenant_id bucket parsed))
      (λ _, empty_response StatusOk)
  else if DELETE && has "lifecycle" then
    rendered (delete_lifecycle_config auth tenant_id bucket) (λ _, empty_response StatusNoContent)
  else if GET && has "website" then
    rendered (get_website_config service auth tenant_id bucket)
      (λ website, xml_response StatusOk (website_xml website))
  else if PUT && has "website" then
    parsed ← lift_result (read_xml body);
    rendered (put_website_config service auth (website_config_from_xml tenant_id bucket parsed))
      (λ _, empty_response StatusOk)
  else if DELETE && has "website" then
    rendered (delete_website_config auth tenant_id bucket) (λ _, empty_response StatusNoContent)
  else if GET && has "replication-status" then
    rendered (get_replication_status service auth tenant_id bucket)
      (λ status, xml_response StatusOk (replication_status_xml status))
  else if POST && has "replication-run" then
    rendered (run_replication_once service auth tenant_id bucket)
      (λ status, xml_response StatusOk (replication_status_xml status))
  else if GET && has "replication" then
    rendered (get_replication_config service auth tenant_id bucket)
      (λ config, xml_response StatusOk (replication_xml config))
  else if PUT && has "replication" then
    parsed ← lift_result (read_xml body);
    rendered (put_replication_config service auth
                (replication_config_from_xml tenant_id bucket parsed))
      (λ _, empty_response StatusOk)
  else if DELETE && has "replication" then
    rendered (delete_replication_config auth tenant_id bucket)
      (λ _, empty_response StatusNoContent)
  else if PUT then
    rendered (create_bucket service auth tenant_id bucket) (λ _, empty_response StatusOk)
  else if HEAD then
    rendered (head_bucket service auth tenant_id bucket) (λ _, empty_response StatusOk)
  else if DELETE then
    rendered (delete_bucket service auth tenant_id bucket) (λ _, empty_response StatusNoContent)
  else if GET && bool_decide (params !! "list-type" = Some "2") then
    rendered
      (list_objects service auth
         {| lo_tenant_id := tenant_id; lo_bucket := bucket; lo_prefix := params !! "prefix";
            lo_continuation_token := params !! "continuation-token";
            lo_limit := value ← params !! "max-keys"; parse_u32 value |})
      (λ listed, xml_response StatusOk (listing_xml listed))
  else if POST && has "delete" then
    delete ← lift_result (read_xml body);
    _ ← delete_all auth bucket (dx_objects delete);
    lift_result (xml_response StatusOk (mkDeleteResultXml (dx_objects delete)))
  else throw route_not_found.

(** The request of the copy arm. *)
Definition copy_request (auth : AuthContext) (headers : HeaderMap) (bucket key : string)
  : result ApiError CopyObjectRequest :=
  let source := trim_start_char slash (default "" (header_str headers "x-amz-copy-source")) in
  '(source_bucket, source_key) ← ok_or (split_once slash source)
    (mkApiError CatValidation "invalid_copy_source"
       "x-amz-copy-source must use /bucket/key syntax");
  Ok {| co_tenant_id := cl_tenant_id (claims auth); co_source_bucket := source_bucket;
        co_source_key := source_key; co_destination_bucket := bucket; co_destination_key := key;
        co_idempotency_key := "copy-" +:+ cid_from_bytes (as_bytes source) |}.

(** The request of the plain [GET] arm. *)
Definition get_request (auth : AuthContext) (headers : HeaderMap) (params : gmap string string)
  (bucket key : string) : result ApiError GetObjectRequest :=
  access_profile ← parse_access_profile headers;
  range ← parse_range headers;
  Ok {| go_tenant_id := cl_tenant_id (claims auth); go_bucket := Some bucket; go_key := Some key;
        go_cid := None; go_access_profile := access_profile;
        go_prefer_plaintext :=
          from_option (λ value, eq_ignore_ascii_case value "true") false
            (header_str headers "x-hsp-prefer-plaintext")
          || bool_decide (params !! "mode" = Some "plaintext");
        go_range := range; go_if_match := trim_etag <$> header_str headers "if-match";
        go_if_none_match := trim_etag <$> header_str headers "if-none-match" |}.

(** The arms with a bucket and a key. *)
Definition dispatch_object (auth : AuthContext) (method : string) (headers : HeaderMap)
  (params : gmap string string) (bucket key : string) (body : bytes)
  : ST (World B) ApiError Response :=
  let tenant_id := cl_tenant_id (claims auth) in
  let GET := String.eqb method "GET" in
  let PUT := String.eqb method "PUT" in
  let POST := String.eqb method "POST" in
  let HEAD := String.eqb method "HEAD" in
  let DELETE := String.eqb method "DELETE" in
  let has := has_param params in
  let upload_id := default "" (params !! "uploadId") in
  if GET && has "acl" then
    rendered (get_object_acl service auth tenant_id bucket key)
      (λ acl, xml_response StatusOk (acl_xml (oa_acl acl)))
  else if PUT && has "acl" then
    acl ← lift_result (parse_canned_acl headers body);
    rendered (put_object_acl service auth tenant_id bucket key acl) (λ _, empty_response StatusOk)
  else if GET && has "retention" then
    rendered (get_object_lock service auth tenant_id bucket key)
      (λ lock, xml_response StatusOk (retention_xml lock))
  else if PUT && has "retention" then
    retention ← lift_result (read_xml body);
    rendered (put_object_retention service auth tenant_id bucket key
                (orx_retain_until_ms retention) (orx_mode retention))
      (λ _, empty_response StatusOk)
  else if GET && has "legal-hold" then
    rendered (get_object_lock service auth tenant_id bucket key)
      (λ lock, xml_response StatusOk (legal_hold_xml (ol_legal_hold lock)))
  else if PUT && has "legal-hold" then
    legal_hold ← lift_result (read_xml body);
    rendered (put_object_legal_hold service auth tenant_id bucket key (legal_hold_of legal_hold))
      (λ _, empty_response StatusOk)
  else if PUT && contains_header headers "x-amz-copy-source" then
    request ← lift_result (copy_request auth headers bucket key);
    rendered (copy_object service auth request)
      (λ copied, xml_response StatusOk (copied_xml copied))
  else if POST && has "uploads" then
    request ← lift_result (parse_create_multipart_request auth bucket key headers);
    rendered (create_multipart_upload service auth request)
      (λ created, xml_response StatusOk (initiated_xml created))
  else if PUT && (has "uploadId" && has "partNumber") then
    part_number ← lift_result (ok_or (value ← params !! "partNumber"; parse_u32 value)
      (mkApiError CatValidation "invalid_part_number"
         "partNumber must be present for UploadPart"));
    rendered (upload_part service auth (mkUploadPartRequest tenant_id upload_id part_number) body)
      (λ uploaded, etag_response (upr_etag uploaded))
  else if POST && has "uploadId" then
    completed ← lift_result (read_xml body);
    rendered
      (complete_multipart_upload service auth
         (mkCompleteMultipartUploadRequest tenant_id upload_id
            (completed_part <$> cmx_parts completed)))
      (λ response, xml_response StatusOk (completed_xml response))
  else if DELETE && has "uploadId" then
    rendered
      (abort_multipart_upload service auth (mkAbortMultipartUploadRequest tenant_id upload_id))
      (λ _, empty_response StatusNoContent)
  else if PUT then
    request ← lift_result (parse_put_object_request auth bucket key headers);
    rendered (put_object service auth request body) (λ response, etag_response (por_etag response))
  else if HEAD then
    rendered (head_object service auth (mkHeadObjectRequest tenant_id bucket key)) head_response
  else if GET then
    request ← lift_result (get_request auth headers params bucket key);
    rendered (get_object service auth request) get_response
  else if DELETE then
    rendered (delete_object service auth (object_delete auth bucket key))
      (λ _, empty_response StatusNoContent)
  else throw route_not_found.

Definition dispatch_request (auth : AuthContext) (method : string) (headers : HeaderMap)
  (query : string) (route : ResolvedRoute) (body : bytes) : ST (World B) ApiError Response :=
  let params := query_pairs query in
  match rr_bucket route, rr_key route with
  | None, None => dispatch_root auth method
  | Some bucket, None => dispatch_bucket auth method headers params bucket body
  | Some bucket, Some key => dispatch_object auth method headers params bucket key body
  | None, Some _ => throw route_not_found
  end.

(** The two observability routes of [handle_request]. *)
Definition observability (scope : CapabilityScope) (render : World B → result ApiError Response)
  (method path query : string) (headers : HeaderMap) (body : bytes)
  : ST (World B) ApiError Response :=
  auth ← authenticate_request method path query headers body;
  _ ← lift_result (require_scope auth scope);
  r ← gets render;
  lift_result r.

Definition handle (request : Request) : ST (World B) ApiError Response :=
  let method := rq_method request in
  let path := rq_path request in
  let query := default "" (rq_query request) in
  let headers := rq_headers request in
  body ← lift_result (map_err (mkApiError CatValidation "invalid_body")
                        (to_bytes (rq_body request) MAX_S3_REQUEST_BODY_BYTES));
  if String.eqb method "GET" && String.eqb path "/metrics" then
    observability AdminMetricsRead
      (λ w, text_response StatusOk "text/plain; version=0.0.4" (prometheus_metrics w))
      method path query headers body
  else if String.eqb method "GET" && String.eqb path "/v1/observability/logs" then
    observability AdminAuditRead (λ w, json_response StatusOk (logs_to_vec (structured_logs w)))
      method path query headers body
  else
  let route := resolve_bucket_and_key headers path (ss_virtual_host_suffix s3) in
  auth ← authenticate_request method path query headers body;
  dispatch_request auth method headers query route body.

Definition handle_request (request : Request) (w : World B) : option Response * World B :=
  let '(r, w') := handle request w in (answer api_error_response r, w').
End dispatch.
