(* ===== verification/S3Props.v ===== *)
(** * hsp-s3: requests as calls of the distribution service

    Every S3 request is a sequence of calls of the distribution service with the
    caller's credentials, naming the caller's tenant, and a [GET] or [HEAD] only
    makes reading calls; so the isolation of tenants carries over from the service
    to the HTTP surface.  Also: path-style and virtual-host-style requests route
    alike, the XML documents carry the configurations they render, and the bulk
    delete reports every key as deleted. *)

From Stdlib Require Import ZArith Lia Ascii String Bool.
From stdpp Require Import base option list strings gmap numbers sorting.
From S2P Require Import Prelude RustStr Path Core Cbor CborFacts Auth Crypto Concrete Store ServiceState Observability ServiceFacts Access ConcreteService Service ObjectProps Chunker AmzDate Distribution Buckets DistObjects Multipart SigV4 DistFacts DistService ConcreteDist Locks DistAccess SigV4Props UrlStr Http S3Xml ConcreteHttp S3.

Create HintDb s3.

Section calls.
Context `{DD : DistDeps} `{CP : !CborPayload CapabilityClaims} {B : Backend} `{LB : BackendListing B}.
Context `{HD : HttpDeps} `{XD : XmlDeps} (s3 : S3State).
Abbreviation service := (ss_service s3).

Definition safe_method (method : string) : bool :=
  String.eqb method "GET" || String.eqb method "HEAD".

(** [m] has the effect of a sequence of calls of [auth] on its own tenant, reading
    calls if [safe]. *)
Definition calls_only {A} (auth : AuthContext) (safe : bool) (m : ST (World B) ApiError A) : Prop :=
  ∀ w, ∃ calls,
    (m w).2 = run_dist_calls service (pair auth <$> calls) w ∧
    Forall (λ c, dist_call_tenant c = cl_tenant_id (claims auth) ∧
                 (safe = true → is_mutating c = false)) calls.

Lemma calls_throw {A} auth safe e : calls_only auth safe (throw e : ST _ _ A).
Proof. intros w. by exists []. Qed.
Lemma calls_pure {A} auth safe (r : result ApiError A) : calls_only auth safe (lift_result r).
Proof. intros w. by exists []. Qed.
Lemma calls_lift {A A'} auth safe (r : result ApiError A) (f : A → ST (World B) ApiError A') :
  (∀ a, r = Ok a → calls_only auth safe (f a)) → calls_only auth safe (lift_result r ≫= f).
Proof.
  intros Hf w. rewrite ST_bind_run. unfold lift_result. destruct r as [a|e]; [by apply Hf|].
  by exists [].
Qed.
(** One call, rendered. *)
Lemma calls_rendered c {A} auth safe (m : ST (World B) ApiError A) render :
  run_dist_call service auth c = ignore m →
  dist_call_tenant c = cl_tenant_id (claims auth) → (safe = true → is_mutating c = false) →
  calls_only auth safe (rendered m render).
Proof.
  intros Hc Ht Hs w. exists [c]. split; [|by repeat constructor]. cbn. rewrite Hc.
  unfold rendered, ignore. rewrite !ST_bind_run. by destruct (m w) as [[a|e] w'].
Qed.

Lemma calls_delete_all auth bucket keys : calls_only auth false (delete_all s3 auth bucket keys).
Proof.
  induction keys as [|key keys IH]; intros w; cbn [delete_all]; [by exists []|].
  rewrite ST_bind_run. unfold attempt.
  destruct (delete_object service auth (object_delete auth bucket key) w) as [r w1] eqn:E.
  destruct (IH w1) as (calls & Hw & Hall).
  exists (CallDeleteObject (object_delete auth bucket key) :: calls). split; [|by constructor].
  cbn. unfold ignore. rewrite ST_bind_run, E. by destruct r.
Qed.
Lemma calls_bind_ret {A A'} auth safe (m : ST (World B) ApiError A) (r : A → result ApiError A') :
  calls_only auth safe m → calls_only auth safe (a ← m; lift_result (r a)).
Proof.
  intros Hm w. destruct (Hm w) as (calls&Hw&Hall). exists calls. split; [|done].
  rewrite ST_bind_run, <-Hw. by destruct (m w) as [[a|e] w'].
Qed.

(** The requests read from headers name the caller's tenant. *)
Lemma put_request_tenant auth bucket key headers r :
  parse_put_object_request auth bucket key headers = Ok r →
  po_tenant_id r = cl_tenant_id (claims auth).
Proof. unfold parse_put_object_request. by repeat (intros (?&_&H)%result_bind_ok; revert H); intros [= <-]. Qed.
Lemma multipart_request_tenant auth bucket key headers r :
  parse_create_multipart_request auth bucket key headers = Ok r →
  cmu_tenant_id r = cl_tenant_id (claims auth).
Proof.
  unfold parse_create_multipart_request.
  by repeat (intros (?&_&H)%result_bind_ok; revert H); intros [= <-].
Qed.
Lemma get_request_tenant auth headers params bucket key r :
  get_request auth headers params bucket key = Ok r → go_tenant_id r = cl_tenant_id (claims auth).
Proof. unfold get_request. by repeat (intros (?&_&H)%result_bind_ok; revert H); intros [= <-]. Qed.
Lemma copy_request_tenant auth headers bucket key r :
  copy_request auth headers bucket key = Ok r → co_tenant_id r = cl_tenant_id (claims auth).
Proof.
  unfold copy_request. intros ([sb sk]&_&H)%result_bind_ok. by injection H as <-.
Qed.
#[local] Hint Resolve put_request_tenant multipart_request_tenant get_request_tenant
  copy_request_tenant : s3.

(** One arm of the dispatch. *)
Ltac arm c := eapply (calls_rendered c); [reflexivity|reflexivity|try discriminate; reflexivity].
Ltac arms :=
  repeat lazymatch goal with
  | |- calls_only _ _ (if ?b then _ else _) => destruct b
  | |- calls_only _ _ (throw _) => apply calls_throw
  | |- calls_only _ _ (lift_result _ ≫= _) => apply calls_lift; intros ? ?Hparsed
  | |- calls_only _ _ (rendered ?m _) =>
      lazymatch m with
      | list_buckets _ _ ?t => arm (CallListBuckets t)
      | create_bucket _ _ ?t ?b => arm (CallCreateBucket t b)
      | head_bucket _ _ ?t ?b => arm (CallHeadBucket t b)
      | delete_bucket _ _ ?t ?b => arm (CallDeleteBucket t b)
      | put_bucket_acl _ _ ?t ?b ?a => arm (CallPutBucketAcl t b a)
      | get_bucket_acl _ _ ?t ?b => arm (CallGetBucketAcl t b)
      | put_object_acl _ _ ?t ?b ?k ?a => arm (CallPutObjectAcl t b k a)
      | get_object_acl _ _ ?t ?b ?k => arm (CallGetObjectAcl t b k)
      | put_lifecycle_config _ _ ?c => arm (CallPutLifecycle c)
      | get_lifecycle_config _ _ ?t ?b => arm (CallGetLifecycle t b)
      | delete_lifecycle_config _ ?t ?b => arm (CallDeleteLifecycle t b)
      | put_object_retention _ _ ?t ?b ?k ?u ?m => arm (CallPutRetention t b k u m)
      | put_object_legal_hold _ _ ?t ?b ?k ?h => arm (CallPutLegalHold t b k h)
      | get_object_lock _ _ ?t ?b ?k => arm (CallGetObjectLock t b k)
      | put_website_config _ _ ?c => arm (CallPutWebsite c)
      | get_website_config _ _ ?t ?b => arm (CallGetWebsite t b)
      | delete_website_config _ ?t ?b => arm (CallDeleteWebsite t b)
      | put_replication_config _ _ ?c => arm (CallPutReplication c)
      | get_replication_config _ _ ?t ?b => arm (CallGetReplication t b)
      | get_replication_status _ _ ?t ?b => arm (CallGetReplicationStatus t b)
      | delete_replication_config _ ?t ?b => arm (CallDeleteReplication t b)
      | run_replication_once _ _ ?t ?b => arm (CallRunReplication t b)
      | put_object _ _ ?r ?p =>
          apply (calls_rendered (CallPutObject r p)); [reflexivity|cbn; by eauto 2 with s3|done]
      | get_object _ _ ?r =>
          apply (calls_rendered (CallGetObject r)); [reflexivity|cbn; by eauto 2 with s3|done]
      | copy_object _ _ ?r =>
          apply (calls_rendered (CallCopyObject r)); [reflexivity|cbn; by eauto 2 with s3|done]
      | create_multipart_upload _ _ ?r =>
          apply (calls_rendered (CallCreateMultipart r)); [reflexivity|cbn; by eauto 2 with s3|done]
      | head_object _ _ ?r => arm (CallHeadObject r)
      | delete_object _ _ ?r => arm (CallDeleteObject r)
      | list_objects _ _ ?r => arm (CallListObjects r)
      | upload_part _ _ ?r ?p => arm (CallUploadPart r p)
      | complete_multipart_upload _ _ ?r => arm (CallCompleteMultipart r)
      | abort_multipart_upload _ _ ?r => arm (CallAbortMultipart r)
      end
  end.

(** The methods of the dispatch, and any other. *)
Lemma method_cases (method : string) :
  method = "GET" ∨ method = "HEAD" ∨ method = "PUT" ∨ method = "POST" ∨ method = "DELETE" ∨
  (String.eqb method "GET" = false ∧ String.eqb method "HEAD" = false ∧
   String.eqb method "PUT" = false ∧ String.eqb method "POST" = false ∧
   String.eqb method "DELETE" = false).
Proof.
  destruct (String.eqb_spec method "GET"); [auto|]. destruct (String.eqb_spec method "HEAD"); [auto|].
  destruct (String.eqb_spec method "PUT"); [auto|]. destruct (String.eqb_spec method "POST"); [auto|].
  destruct (String.eqb_spec method "DELETE"); auto 10.
Qed.

Lemma calls_root auth method : calls_only auth (safe_method method) (dispatch_root s3 auth method).
Proof. unfold dispatch_root. arms. Qed.

Lemma calls_bucket auth method headers params bucket body :
  calls_only auth (safe_method method) (dispatch_bucket s3 auth method headers params bucket body).
Proof.
  unfold dispatch_bucket.
  destruct (method_cases method) as [->|[->|[->|[->|[->|(H1&H2&H3&H4&H5)]]]]];
    unfold safe_method; rewrite ?H1, ?H2, ?H3, ?H4, ?H5; cbn [String.eqb Ascii.eqb Bool.eqb andb orb].
  all: arms.
  apply calls_bind_ret, calls_delete_all.
Qed.

Lemma calls_object auth method headers params bucket key body :
  calls_only auth (safe_method method)
    (dispatch_object s3 auth method headers params bucket key body).
Proof.
  unfold dispatch_object.
  destruct (method_cases method) as [->|[->|[->|[->|[->|(H1&H2&H3&H4&H5)]]]]];
    unfold safe_method; rewrite ?H1, ?H2, ?H3, ?H4, ?H5; cbn [String.eqb Ascii.eqb Bool.eqb andb orb].
  all: arms.
Qed.

Lemma calls_dispatch auth method headers query route body :
  calls_only auth (safe_method method) (dispatch_request s3 auth method headers query route body).
Proof.
  unfold dispatch_request. destruct (rr_bucket route), (rr_key route).
  - apply calls_object.
  - apply calls_bucket.
  - apply calls_throw.
  - apply calls_root.
Qed.

(** The bulk delete reports every key as deleted.  Whatever happens to the keys
    of the request, whether they or the bucket exist, are under a legal hold or may be
    changed by the caller at all, the answer is the list of all of them. *)
Theorem s3_bulk_delete_reports_all auth headers query bucket body keys (w : World B) :
  is_Some (query_pairs query !! "delete") → read_xml body = Ok (mkDeleteObjectsXml keys) →
  query_pairs query !! "replication-run" = None →
  (dispatch_request s3 auth "POST" headers query (mkResolvedRoute (Some bucket) None) body w).1
  = xml_response StatusOk (mkDeleteResultXml keys).
Proof.
  intros Hd Hx Hr. cbn [dispatch_request rr_bucket rr_key]. unfold dispatch_bucket.
  cbn [String.eqb Ascii.eqb Bool.eqb andb]. unfold has_param. rewrite Hr.
  rewrite bool_decide_eq_false_2 by (by intros []). rewrite bool_decide_eq_true_2 by exact Hd.
  rewrite ST_bind_run, Hx. cbn [lift_result dx_objects].
  assert (∀ w : World B, ∃ w', delete_all s3 auth bucket keys w = (Ok tt, w')) as Hall.
  { clear. induction keys as [|key keys IH]; intros w; cbn [delete_all]; [by exists w|].
    rewrite ST_bind_run. unfold attempt. destruct (delete_object _ _ _ w) as [r w1]. apply IH. }
  destruct (Hall w) as [w' Hw]. by rewrite ST_bind_run, Hw.
Qed.
End calls.

(** ** Isolation *)

Section isolation.
Context `{DDL : DistDepsLaws} `{CP : !CborPayload CapabilityClaims} {B : Backend} `{BL : BackendLaws B}.
Context `{LB : BackendListing B} `{LL : !BackendListingLaws B} `{TW : !BackendTornWrites B}.
Context `{EP : !EnvelopePrefixLaw} `{HD : HttpDeps} `{HL : !HttpDepsLaws} `{XD : XmlDeps}.
Context (s3 : S3State) `{KL : !KmsLaws (ds_store_kms (ss_service s3))}.
Abbreviation service := (ss_service s3).

(** Authentication writes nothing but the audit records of presigned URLs. *)
Definition audit_only (w w' : World B) : Prop :=
  ∀ t k name, k ≠ PRESIGN_AUDIT_STORE → slash_free k = true → in_dir t k name →
    files w' !! name = files w !! name.
#[local] Instance audit_only_preorder : PreOrder audit_only.
Proof. split; [done|]. intros w1 w2 w3 H1 H2 t k name ???. rewrite (H2 t k), (H1 t k); done. Qed.

Lemma audit_same {A} (m : ST (World B) ApiError A) :
  (∀ w, files (m w).2 = files w) → preserves audit_only m.
Proof. intros Hm w t k name _ _ _. by rewrite Hm. Qed.
Lemma audit_now : preserves audit_only (now_ms (E:=ApiError) (B:=B)).
Proof. by apply audit_same. Qed.
Lemma audit_list {T} `{Json T} t k : preserves audit_only (list_encrypted_json (T:=T) service t k).
Proof. apply audit_same. intros w. apply list_json_files. Qed.
Lemma audit_dirs p : preserves audit_only (on_store (B:=B) (b_list_child_dirs p)).
Proof.
  apply audit_same. intros w. rewrite on_store_run.
  destruct (b_list_child_dirs_view p (w_store w)) as [Hv _].
  by destruct (b_list_child_dirs p (w_store w)).
Qed.
Lemma audit_write t key (r : PresignAuditRecord) :
  preserves audit_only (dist_write_encrypted_json service t PRESIGN_AUDIT_STORE key r).
Proof.
  intros w t' k name Hne Hk Hin. destruct (dist_write_json_spec service t PRESIGN_AUDIT_STORE key r w)
    as [Hoff _]. eapply agree_off_lookup; [done|]. intros ->.
  apply Hne. eapply (in_dir_unique t' k t PRESIGN_AUDIT_STORE); [done|done|exact Hin|].
  apply dist_key_in_dir.
Qed.
#[local] Hint Resolve audit_now audit_list audit_dirs audit_write : hsp_frame.

Lemma audit_access_keys tenants :
  preserves audit_only (list_access_keys_of (B:=B) service tenants).
Proof. induction tenants; cbn [list_access_keys_of]; frame; done. Qed.
#[local] Hint Resolve audit_access_keys : hsp_frame.

Lemma audit_authenticate method path query headers body :
  preserves audit_only (authenticate_request (B:=B) s3 method path query headers body).
Proof.
  unfold authenticate_request, authenticate_sigv4, authenticate_presigned_sigv4,
    authenticate_header_sigv4, sigv4_access_key, list_all_access_keys, ensure_sigv4_time_window,
    sigv4_auth_context. frame.
Qed.

Lemma audit_only_locks w w' :
  audit_only w w' → locks_wf service (files w) → locks_wf service (files w').
Proof.
  intros Ha Hwf t key r Hr. apply Hwf. rewrite <-Hr. symmetry. apply lock_at_ext.
  eapply (Ha t OBJECT_LOCK_STORE); [done|done|apply lock_kind_in_dir].
Qed.

(** A request: what authentication does, then calls of the caller on its own tenant;
    or no call at all. *)
Lemma handle_effects request (w : World B) :
  audit_only w (handle s3 request w).2 ∨
  ∃ auth w1 calls,
    authenticate_request s3 (rq_method request) (rq_path request) (default "" (rq_query request))
      (rq_headers request) (rq_body request) w = (Ok auth, w1) ∧ audit_only w w1 ∧
    (handle s3 request w).2 = run_dist_calls service (pair auth <$> calls) w1 ∧
    Forall (λ c, dist_call_tenant c = cl_tenant_id (claims auth) ∧
                 (safe_method (rq_method request) = true → is_mutating c = false)) calls.
Proof.
  unfold handle. rewrite ST_bind_run. unfold lift_result.
  destruct (to_bytes _ _) as [b|e] eqn:Hb; cbn [map_err]; [|by left].
  apply to_bytes_whole in Hb as [-> _].
  assert (∀ scope render, audit_only w (observability s3 scope render (rq_method request)
    (rq_path request) (default "" (rq_query request)) (rq_headers request) (rq_body request) w).2)
    as Hobs.
  { intros. unfold observability. apply preserves_bind; [apply _|apply audit_authenticate|].
    intros. frame. }
  destruct (_ && _); [left; apply Hobs|]. destruct (_ && _); [left; apply Hobs|].
  pose proof (audit_authenticate (rq_method request) (rq_path request)
    (default "" (rq_query request)) (rq_headers request) (rq_body request) w) as Ha.
  rewrite ST_bind_run.
  destruct (authenticate_request _ _ _ _ _ _ w) as [[auth|e] w1] eqn:E; [|by left].
  right. edestruct (calls_dispatch s3 auth) as (calls & Hw & Hall). by exists auth, w1, calls.
Qed.

(** Reading calls write replay and event records only. *)
Lemma reading_calls_keep calls (w : World B) t k name :
  Forall (λ c : AuthContext * DistCall, is_mutating c.2 = false) calls →
  k ∉ access_kinds → slash_free k = true → in_dir t k name →
  files (run_dist_calls service calls w) !! name = files w !! name.
Proof.
  intros Hall Hk Hs Hin. revert w. induction Hall as [|[auth c] calls Hc _ IH]; intros w; [done|].
  cbn. rewrite IH. eapply (confined_lookup _ access_kinds); [by apply reading_call_frame
    |by repeat constructor|done|done|by left].
Qed.

(** C13: tenant isolation at the S3 surface.  Whatever request arrives, if it does
    not authenticate as tenant [t] then no file in a directory of [t] changes, the
    audit records of presigned URLs apart; and the lock records stay well formed, so
    the same holds of the next request. *)
Theorem s3_tenant_isolation request (w : World B) t k name :
  locks_wf service (files w) →
  (∀ auth w1, authenticate_request s3 (rq_method request) (rq_path request)
     (default "" (rq_query request)) (rq_headers request) (rq_body request) w = (Ok auth, w1) →
     cl_tenant_id (claims auth) ≠ t) →
  slash_free k = true → k ≠ PRESIGN_AUDIT_STORE → in_dir t k name →
  files (handle_request s3 request w).2 !! name = files w !! name ∧
  locks_wf service (files (handle_request s3 request w).2).
Proof.
  intros Hwf Hother Hk Hne Hin. unfold handle_request.
  pose proof (handle_effects request w) as Heff. destruct (handle s3 request w) as [r w']. cbn in *.
  destruct Heff as [Ha|(auth & w1 & calls & Hauth & Ha & -> & _)].
  - split; [by eapply Ha|by eapply audit_only_locks].
  - pose proof (audit_only_locks _ _ Ha Hwf) as Hwf1. split; [|by apply locks_wf_calls].
    rewrite <-(Ha t k name) by done.
    apply (run_dist_calls_isolated service _ w1 t k name Hwf1); [|exact Hk|exact Hin].
    apply Forall_fmap, Forall_true. intros c. exact (Hother _ _ Hauth).
Qed.

(** C14: the S3 surface adds no operation of its own.  Authentication changes no file
    in the tenants' directories but audit records of presigned URLs, and what a request does after it is a
    sequence of calls of the distribution service with the credentials of the caller
    it authenticated, all naming the caller's tenant; there are no calls when
    authentication fails.  For [GET] and [HEAD] they are reading calls, so that no
    file changes in any tenant's directories, except audit records of presigned URLs,
    replay records and the event log. *)
Theorem s3_request_refines_calls request (w : World B) :
  (audit_only w (handle_request s3 request w).2 ∨
   ∃ auth w1 calls,
     authenticate_request s3 (rq_method request) (rq_path request) (default "" (rq_query request))
       (rq_headers request) (rq_body request) w = (Ok auth, w1) ∧ audit_only w w1 ∧
     (handle_request s3 request w).2 = run_dist_calls service (pair auth <$> calls) w1 ∧
     Forall (λ c, dist_call_tenant c = cl_tenant_id (claims auth) ∧
                  (safe_method (rq_method request) = true → is_mutating c = false)) calls) ∧
  (∀ t k name, safe_method (rq_method request) = true →
     k ∉ PRESIGN_AUDIT_STORE :: access_kinds → slash_free k = true → in_dir t k name →
     files (handle_request s3 request w).2 !! name = files w !! name).
Proof.
  assert ((handle_request s3 request w).2 = (handle s3 request w).2) as ->
    by (unfold handle_request; by destruct (handle s3 request w)).
  pose proof (handle_effects request w) as Heff. split; [exact Heff|].
  intros t k name Hsafe [Hne Hk]%not_elem_of_cons Hs Hin.
  destruct Heff as [Ha|(auth & w1 & calls & _ & Ha & -> & Hall)]; [by eapply Ha|].
  rewrite <-(Ha t k name) by done. eapply reading_calls_keep; [|done..].
  apply Forall_fmap. eapply Forall_impl; [exact Hall|]. intros c [_ Hc]. by apply Hc.
Qed.
End isolation.

(** ** Observations *)

Section observations.
Context `{DD : DistDeps} `{CP : !CborPayload CapabilityClaims} {B : Backend} `{LB : BackendListing B}.
Context `{HD : HttpDeps} `{XD : XmlDeps} (s3 : S3State).

(** Sub-resources the server does not know are ignored: [DELETE /bucket/key?tagging] deletes
    the object and [DELETE /bucket?policy] the bucket. *)
Theorem s3_unknown_subresource_ignored auth headers params bucket key body :
  has_param params "uploadId" = false →
  dispatch_object (B:=B) s3 auth "DELETE" headers params bucket key body
  = dispatch_object s3 auth "DELETE" headers ∅ bucket key body ∧
  (Forall (λ name, has_param params name = false) ["lifecycle"; "website"; "replication"] →
   dispatch_bucket (B:=B) s3 auth "DELETE" headers params bucket body
   = dispatch_bucket s3 auth "DELETE" headers ∅ bucket body).
Proof.
  intros Hu. split.
  - unfold dispatch_object. cbn [String.eqb Ascii.eqb Bool.eqb andb]. by rewrite Hu.
  - intros Hall. repeat (apply Forall_cons in Hall as [?Hp Hall]).
    unfold dispatch_bucket. cbn [String.eqb Ascii.eqb Bool.eqb andb]. by rewrite Hp, Hp0, Hp1.
Qed.
End observations.

(** ** Witnesses *)

Import ToyService ToyDist ToyHttp.

Definition sample_s3 : S3State := mkS3State concrete_dist None.
(** [PUT /docs] signed with the key of tenant-alpha. *)
Definition create_request : Request := Eval vm_compute in
  mkRequest "PUT" "/docs" None
    (sample_headers (sign_sample (canonical_sigv4_request "PUT" "/docs" ""
       (sample_headers "") ["host"; "x-amz-date"] "UNSIGNED-PAYLOAD"))) [].

Lemma key_world_locks : locks_wf concrete_dist (files key_world).
Proof.
  intros t key r Hr. exfalso.
  assert (lock_at concrete_dist ∅ t key = None) as Hnone
    by (unfold lock_at, dist_stored, dist_stored_bytes; by rewrite lookup_empty).
  rewrite (lock_at_ext _ ∅) in Hr; [congruence|].
  pose proof (dist_write_json_spec concrete_dist "tenant-alpha" DISTRIBUTION_METADATA_STORE
    "access-key-AK" sample_key disk_world) as [Hoff _].
  transitivity (files disk_world !! lock_name t key); [|reflexivity].
  eapply (agree_off_lookup _ (lock_name t key)); [exact Hoff|]. intros Heq.
  destruct (in_dir_unique t OBJECT_LOCK_STORE "tenant-alpha" DISTRIBUTION_METADATA_STORE
    (lock_name t key)) as [_ Hk]; [reflexivity|reflexivity|exact (lock_kind_in_dir (DD := concrete_dist_deps) t key)| |discriminate Hk].
  rewrite Heq. apply dist_key_in_dir.
Qed.

(** Witness of C13: tenant-alpha creates a bucket; the registry of tenant-beta is not touched. *)
Lemma s3_tenant_isolation_witness :
  rs_status <$> (handle_request sample_s3 create_request key_world).1 = Some 200 ∧
  files (handle_request sample_s3 create_request key_world).2
    !! dist_store_key "tenant-beta" BUCKET_REGISTRY_STORE "docs"
  = files key_world !! dist_store_key "tenant-beta" BUCKET_REGISTRY_STORE "docs" ∧
  locks_wf concrete_dist (files (handle_request sample_s3 create_request key_world).2).
Proof.
  split; [vm_compute; reflexivity|].
  apply (s3_tenant_isolation sample_s3 create_request key_world "tenant-beta" BUCKET_REGISTRY_STORE).
  - exact key_world_locks.
  - assert (from_option (λ auth, String.eqb (cl_tenant_id (claims auth)) "tenant-alpha") false
      (result_ok (authenticate_request sample_s3 (rq_method create_request)
         (rq_path create_request) (default "" (rq_query create_request))
         (rq_headers create_request) (rq_body create_request) key_world).1) = true) as Ha
      by (vm_compute; reflexivity).
    intros auth w1 E. rewrite E in Ha. apply String.eqb_eq in Ha. cbn in Ha. rewrite Ha. discriminate.
  - reflexivity.
  - discriminate.
  - apply dist_key_in_dir.
Defined.

(** [HEAD /docs], signed. *)
Definition head_request : Request := Eval vm_compute in
  mkRequest "HEAD" "/docs" None
    (sample_headers (sign_sample (canonical_sigv4_request "HEAD" "/docs" ""
       (sample_headers "") ["host"; "x-amz-date"] "UNSIGNED-PAYLOAD"))) [].
Definition bucket_world : World disk := (handle_request sample_s3 create_request key_world).2.

(** Witness of C14: looking at a bucket leaves the bucket registry as it is. *)
Lemma s3_request_refines_calls_witness :
  rs_status <$> (handle_request sample_s3 head_request bucket_world).1 = Some 200 ∧
  files (handle_request sample_s3 head_request bucket_world).2
    !! dist_store_key "tenant-alpha" BUCKET_REGISTRY_STORE "docs"
  = files bucket_world !! dist_store_key "tenant-alpha" BUCKET_REGISTRY_STORE "docs".
Proof.
  split; [vm_compute; reflexivity|].
  apply (proj2 (s3_request_refines_calls sample_s3 head_request bucket_world)
           "tenant-alpha" BUCKET_REGISTRY_STORE).
  - reflexivity.
  - refine (bool_decide_eq_true_1 _ _). reflexivity.
  - reflexivity.
  - apply dist_key_in_dir.
Defined.

(** The length of a partial answer: four bytes are sent with the length of the whole object. *)
Example s3_partial_content_length :
  (λ resp, (rs_status resp, header_get (rs_headers resp) "content-length", rs_body resp)) <$>
    (get ← (get_object concrete_dist (dist_caller "tenant-alpha" "j1" [ScopeRead])
              (mkGetObjectRequest "tenant-alpha" None None (Some "sha256-object") PublicCiphertext
                 false (Some (mkRangeSpec 4 7)) None None) stored_world).1;
     get_response get)
  = Ok (206, Some (as_bytes "11"), as_bytes "o wo").
Proof. vm_compute. reflexivity. Qed.


(** * hsp-s3: routing and documents

    A request in the virtual-host style routes like the same request in the path
    style, and the XML document of a configuration reads back as the configuration. *)

(** ** Routes *)

(** What a bucket name must be for the two styles to agree on it. *)
Definition routable (suffix bucket : string) : bool :=
  negb (str_is_empty bucket) && negb (str_contains_char slash bucket)
  && negb (ends_with "." bucket) && negb (ends_with suffix (bucket +:+ ".")).

Lemma resolve_path_style bucket key :
  str_is_empty bucket = false → str_contains_char slash bucket = false →
  resolve_path ("/" +:+ bucket +:+ "/" +:+ key) = mkResolvedRoute (Some bucket) (non_empty key).
Proof.
  intros Hne Hb. unfold resolve_path. change "/" with (String slash "").
  rewrite !str_app_cons, !str_app_nil_l. cbn [trim_start_char]. rewrite Ascii.eqb_refl.
  rewrite trim_start_char_none.
  - rewrite split_once_app by done. destruct bucket; [done|]. by rewrite str_app_cons.
  - destruct bucket as [|x bucket]; [done|]. rewrite str_app_cons, starts_with_char.
    rewrite str_contains_char_cons in Hb. by apply orb_false_iff in Hb as [Hx _].
Qed.

(** The two request styles of S3 name the same object.  With the suffix
    configured, the host [bucket.suffix] and the path [/key] route like the path
    [/bucket/key], for every key that does not start with a slash and every bucket
    without slashes that does not run into the suffix. *)
Theorem s3_styles_equivalent headers headers' suffix bucket key :
  suffix ≠ "" → routable suffix bucket = true → starts_with "/" key = false →
  header_str headers "host" = Some (bucket +:+ "." +:+ suffix) →
  resolve_bucket_and_key headers ("/" +:+ key) (Some suffix)
  = resolve_bucket_and_key headers' ("/" +:+ bucket +:+ "/" +:+ key) None.
Proof.
  unfold routable. intros Hsuf [[[Hne Hs]%andb_true_iff Hdot]%andb_true_iff Hrun]%andb_true_iff Hk Hh.
  apply negb_true_iff in Hne, Hs, Hdot, Hrun. unfold resolve_bucket_and_key at 1.
  rewrite Hh, str_app_assoc, ends_with_app, trim_end_str_once by done.
  change "." with (String "." "") at 1. rewrite trim_end_char_once by done.
  unfold resolve_bucket_and_key. rewrite resolve_path_style by done.
  change ("/" +:+ key) with (String slash key). cbn [trim_start_char]. rewrite Ascii.eqb_refl.
  by rewrite trim_start_char_none.
Qed.

(** An instance. *)
Lemma s3_styles_equivalent_witness :
  resolve_bucket_and_key [("host", as_bytes "docs.s3.local")] "/reports//q1" (Some "s3.local")
  = resolve_bucket_and_key [] "/docs/reports//q1" None.
Proof.
  apply (s3_styles_equivalent [("host", as_bytes "docs.s3.local")] [] "s3.local" "docs"
           "reports//q1"); [discriminate|reflexivity..].
Defined.

(** ** Documents *)

(** The documents lose nothing.  Reading the document of a lifecycle, website or
    replication configuration gives the configuration back, but for the time of its
    last change, which the service sets; likewise legal holds. *)
Theorem s3_documents_roundtrip `{Hashing} :
  (∀ config, lifecycle_config_from_xml (lc_tenant_id config) (lc_bucket config)
     (lifecycle_xml config)
     = mkLifecycleConfig (lc_tenant_id config) (lc_bucket config) (lc_rules config) 0) ∧
  (∀ config, website_config_from_xml (wc_tenant_id config) (wc_bucket config) (website_xml config)
     = mkWebsiteConfig (wc_tenant_id config) (wc_bucket config) (wc_enabled config)
         (wc_index_document config) (wc_error_document config) (wc_access_profile config) 0) ∧
  (∀ config, replication_config_from_xml (rc_tenant_id config) (rc_source_bucket config)
     (replication_xml config)
     = mkReplicationConfig (rc_tenant_id config) (rc_source_bucket config)
         (rc_destination_bucket config) (rc_prefix config) (rc_enabled config) 0) ∧
  (∀ hold, legal_hold_of (legal_hold_xml hold) = hold).
Proof.
  split_and!.
  - intros [t b rules u]. unfold lifecycle_config_from_xml, lifecycle_xml. cbn. f_equal.
    induction rules as [|[id p e tr cl en] rules IH]; [done|]. rewrite !fmap_cons. cbn in *.
    rewrite IH. f_equal. f_equal. by destruct en.
  - intros [t b en i e p u]. unfold website_config_from_xml, website_xml. cbn. by destruct p.
  - by intros [].
  - by intros [].
Qed.
