(* ===== verification/Front.v ===== *)
(** * What the native server and the gateway share

    [server/hspd/src/lib.rs] and [gateway/hsp-gw/src/lib.rs] put two protocols in
    front of one [AlphaService].  This file holds what both use: the exporter of a
    TLS connection, the JSON form of requests and responses, and the steps a task
    of a server makes on the world it shares with the other tasks, the caller both
    verify, and the feed of a subscription.  The crates
    behind them are parameters. *)

From Stdlib Require Import ZArith Lia Ascii String Bool.
From stdpp Require Import base option list strings gmap numbers sorting.
From S2P Require Import Prelude RustStr Path Core Cbor Auth Crypto Store ServiceState ServiceFacts Access Namespaces Objects Subscribe EventProps Service.

(** ** Connections *)

(** [Connection::export_keying_material] of quinn with a buffer of 32 bytes, a label
    and a context. *)
Record Connection := mkConnection {
  export_keying_material : bytes → bytes → option bytes;
}.
Definition tls_exporter_label : bytes := as_bytes "EXPORTER-HSP-Channel-Binding-v1".

(** ** JSON *)

(** [serde_json::to_vec] and [serde_json::from_slice] at a type, with the text of
    their errors. *)
Class JsonWrite (T : Type) := { to_vec : T → result string bytes }.
Class JsonRead (T : Type) := { from_json : bytes → result string T }.

Class FrontDeps := {
  fd_info :: JsonWrite InfoResponse;
  fd_head :: JsonWrite HeadResponse;
  fd_get_meta :: JsonWrite GetResponseMeta;
  fd_resolve :: JsonWrite ResolveResponse;
  fd_bind :: JsonWrite BindResponse;
  fd_unbind :: JsonWrite UnbindResponse;
  fd_list :: JsonWrite ListResponse;
  fd_put_init :: JsonWrite PutInitResponse;
  fd_put_chunk :: JsonWrite PutChunkResponse;
  fd_put_commit :: JsonWrite PutCommitResponse;
  fd_read_put_init :: JsonRead PutInitRequest;
  fd_read_put_commit :: JsonRead PutCommitRequest;
  fd_read_bind :: JsonRead BindRequest;
  fd_read_unbind :: JsonRead UnbindRequest;
}.

(** ** Tasks

    A task interleaves calls of the service with pauses in which the other tasks
    of the server run. *)
Inductive TaskStep :=
| Calls (auth : AuthContext) (call : ServiceCall)
| Pauses (round : nat).

Section tasks.
Context `{Deps} {B : Backend} (sv : AlphaService) (others : nat → World B → World B).

Fixpoint run_steps (steps : list TaskStep) (w : World B) : World B :=
  match steps with
  | [] => w
  | Calls auth c :: rest => run_steps rest (run_call sv auth c w).2
  | Pauses n :: rest => run_steps rest (others n w)
  end.

Lemma run_steps_app l l' w : run_steps (l ++ l') w = run_steps l' (run_steps l w).
Proof. revert w. induction l as [|[auth c|n] l IH]; intros w; cbn; auto. Qed.
End tasks.

Lemma ignore_state {S E A} (m : ST S E A) (x : S) : (m x).2 = (ignore m x).2.
Proof. unfold ignore. rewrite ST_bind_run. by destruct (m x) as [[]]. Qed.

(** The operation a call is an instance of. *)
Definition call_operation (c : ServiceCall) : OperationName :=
  match c with
  | CallPutInit _ => OpPutInit
  | CallPutChunk _ _ => OpPutChunk
  | CallPutCommit _ => OpPutCommit
  | CallHead _ => OpHead
  | CallGet _ => OpGet
  | CallResolve _ => OpResolve
  | CallBind _ => OpBind
  | CallUnbind _ => OpUnbind
  | CallList _ => OpList
  | CallSubscribeStart _ | CallSubscribePoll _ _ => OpSubscribe
  end.

(** ** A verified caller

    What both servers establish before they call the service: the capability is
    signed by a registered issuer, and the caller proved that it holds the other end
    of this very TLS connection. *)
Record VerifiedCaller `{Base64Url, Cose} `{!CborPayload CapabilityClaims} (connection : Connection)
  (registry : IssuerRegistry) (token_b64 : string) (binding : ChannelBindingProof)
  (auth : AuthContext) : Prop := {
  vc_claims : verify_cose_sign1_token token_b64 registry = Ok (claims auth);
  vc_binding : channel_binding auth = Some binding;
  vc_kind : cb_binding_kind binding = "tls-exporter";
  vc_proof : ∃ material,
    export_keying_material connection tls_exporter_label (as_bytes (cb_nonce binding))
      = Some material ∧ cb_proof_b64 binding = b64url_encode material;
}.

Lemma verify_tls_exporter_binding_ok `{Base64Url} material binding :
  verify_tls_exporter_binding material binding = Ok tt ↔
  cb_binding_kind binding = "tls-exporter" ∧ cb_proof_b64 binding = b64url_encode material.
Proof.
  unfold verify_tls_exporter_binding.
  destruct (String.eqb_spec (cb_binding_kind binding) "tls-exporter"); cbn; [|naive_solver].
  destruct (String.eqb_spec (cb_proof_b64 binding) (b64url_encode material)); cbn; naive_solver.
Qed.

(** ** Feeds

    A subscription polls while the log of its tenant grows: [logs n] is the log at
    poll [n], and [final] extends all of them. *)
Record feed `{Deps} {B : Backend} `{!BackendLaws B} (sv : AlphaService) (t : TenantId)
  (others : nat → World B → World B) (logs : nat → event_log) (final : event_log) : Prop := {
  fe_grow : ∀ n w, log_refines sv (files w) t (logs n) →
    log_refines sv (files (others n w)) t (logs (S n));
  fe_prefix : ∀ n, logs n `prefix_of` final;
  fe_size : Z.of_nat (length final) + 2 < 2 ^ 64;
}.

(** The matching events ahead of a position. *)
Definition ahead (request : SubscribeRequest) (log : event_log) (next : Z) : list EventRecord :=
  matching_events (sq_filters request) (events_from next log).

Lemma events_from_app next log ext :
  next <= Z.of_nat (length log) + 1 →
  events_from next (log ++ ext) = events_from next log ++ omap id ext.
Proof.
  intros Hn. unfold events_from. rewrite drop_app_le by lia. by rewrite omap_app.
Qed.

Section feed.
Context `{DL : DepsLaws} {B : Backend} `{BL : BackendLaws B} (sv : AlphaService).
Context (t : TenantId) (others : nat → World B → World B) (logs : nat → event_log) (final : event_log).
Context (Hfeed : feed sv t others logs final).

(** A delivered event is an entry of the log, so the cursor stays within it. *)
Lemma advance_cursor_bound f log c filters batch :
  1 <= ec_next_seq c → Z.of_nat (length log) + 2 < 2 ^ 64 → log_refines sv f t log →
  let delivered := matching_events filters (take batch (events_from (ec_next_seq c) log)) in
  delivered ≠ [] →
  ec_next_seq (advance_cursor c t delivered) <= Z.of_nat (length log) + 1 ∧
  ec_next_seq c < ec_next_seq (advance_cursor c t delivered).
Proof.
  intros Hc Hmax Hlog delivered Hne. unfold advance_cursor. unfold delivered in *. clear delivered.
  destruct (last (matching_events _ _)) as [x|] eqn:Hlast; [|by apply last_None in Hlast]. cbn [ec_next_seq].
  apply filter_last_split in Hlast as (l1&l2&Hsplit&_).
  pose proof (take_drop batch (events_from (ec_next_seq c) log)) as Hall.
  rewrite Hsplit, <-(assoc_L (++)) in Hall. cbn in Hall. symmetry in Hall.
  apply omap_id_split in Hall as (k&Hk&_). rewrite lookup_drop in Hk.
  pose proof (lookup_lt_Some _ _ _ Hk). destruct (lr_event _ _ _ _ Hlog _ _ Hk) as [_ ->].
  rewrite u64_add_small; lia.
Qed.

(** The envelopes of a poll: its events, or one notice. *)
Definition envelopes_of (delivered : list EventRecord) (envs : list SubscribeEnvelope) : Prop :=
  match delivered with
  | [] => ∃ notice, envs = [mkSubscribeEnvelope EnvNotice None (Some notice)]
  | _ => envs = map (λ ev, mkSubscribeEnvelope EnvEvent (Some ev) None) delivered
  end.

(** One poll of a growing log. *)
Lemma feed_poll auth request n c w envs c' w' :
  sq_tenant_id request = t → 1 <= ec_next_seq c → log_refines sv (files w) t (logs n) →
  subscribe_poll sv auth request c w = (Ok (envs, c'), w') →
  log_refines sv (files w') t (logs n) ∧ 1 <= ec_next_seq c' ∧
  ∃ delivered, envelopes_of delivered envs ∧
    ahead request final (ec_next_seq c) = delivered ++ ahead request final (ec_next_seq c') ∧
    (delivered = [] → c' = mkEventCursor t (ec_next_seq c) ∧
       matching_events (sq_filters request) (take (Z.to_nat (default 64 (sq_batch_max request)))
         (events_from (ec_next_seq c) (logs n))) = []).
Proof.
  intros Ht Hc Hlog Hp. rewrite <-Ht in Hlog.
  destruct (subscribe_poll_ok sv _ _ _ _ _ _ _ _ Hc Hlog Hp) as (Hf&Hc'&He). cbn zeta in *.
  rewrite Ht in *. set (delivered := matching_events _ _) in *.
  destruct (fe_prefix _ _ _ _ _ Hfeed n) as [ext Hext].
  pose proof (fe_size _ _ _ _ _ Hfeed) as Hmax. rewrite Hext, length_app in Hmax.
  destruct (advance_cursor_split sv (files w) t (logs n) c (sq_filters request)
    (Z.to_nat (default 64 (sq_batch_max request))) Hc ltac:(lia) Hlog) as [Hsplit Hle].
  fold delivered in Hsplit, Hle. rewrite <-Hc' in Hsplit, Hle.
  split; [by rewrite Hf|]. split; [lia|]. exists delivered. split_and!.
  - unfold envelopes_of. destruct delivered as [|e l]; [by eexists|done].
  - unfold ahead. destruct (decide (delivered = [])) as [Hd|Hd].
    + rewrite Hd in Hc' |- *. by subst c'.
    + destruct (advance_cursor_bound (files w) (logs n) c (sq_filters request) _ Hc ltac:(lia) Hlog Hd)
        as [Hb _]. fold delivered in Hb. rewrite <-Hc' in Hb.
      rewrite Hext, !events_from_app, !matching_events_app by lia. by rewrite Hsplit, (assoc_L (++)).
  - intros Hd. split; [|done]. rewrite Hd in Hc'. by subst c'.
Qed.
End feed.

(** ** Isolation of tenants *)

Section isolation.
Context `{DL : DepsLaws} {B : Backend} `{BL : BackendLaws B} (sv : AlphaService).

(** Calls made with capabilities of other tenants leave a tenant its files, except
    for its event log, which receives the refusals. *)
Lemma run_call_other_tenant auth c w t k key :
  cl_tenant_id (claims auth) ≠ t → slash_free k = true → k ≠ "events" →
  files (run_call (B:=B) sv auth c w).2 !! store_key t k key = files w !! store_key t k key.
Proof.
  intros Hne Hk Hev. destruct (decide (call_tenant c = t)) as [<-|Hc].
  - destruct (run_call_foreign sv auth c Hne w) as [_ Hkeep]. apply Hkeep.
    intros k' key' Hk'%list_elem_of_singleton Heq. subst k'.
    by apply store_key_inj in Heq as (->&_&_).
  - eapply keeps_other_tenant; [apply run_call_frame|apply store_kinds_slash_free|done|done].
Qed.

Lemma run_steps_other_tenant others steps w t k key :
  (∀ a c, Calls a c ∈ steps → cl_tenant_id (claims a) ≠ t) →
  (∀ n v, files (others n v) !! store_key t k key = files v !! store_key t k key) →
  slash_free k = true → k ≠ "events" →
  files (run_steps (B:=B) sv others steps w) !! store_key t k key = files w !! store_key t k key.
Proof.
  intros Hs Ho Hk Hev. revert w Hs. induction steps as [|[a c|n] steps IH]; intros w Hs; cbn; [done|..].
  - rewrite IH by (intros ?? ?; by eapply Hs, list_elem_of_further).
    apply run_call_other_tenant; [|done..]. apply (Hs a c), list_elem_of_here.
  - rewrite IH by (intros ?? ?; by eapply Hs, list_elem_of_further). apply Ho.
Qed.
End isolation.
