(* ===== verification/Native.v ===== *)
(** * hspd: the native server

    Models the request path of [server/hspd/src/lib.rs]: the SETTINGS frame of a
    new connection, and the task of a bidirectional stream, from the AUTH and
    REQ_HEADER frames and the body to the operation of the service and the frames
    of the reply.  The state of a task is its two streams and the world of the
    service.  A task whose stream or subscription has not ended when the fuel is
    used up is [Running]. *)

From Stdlib Require Import ZArith Lia Ascii String Bool.
From stdpp Require Import base option list strings gmap numbers.
From S2P Require Import Prelude RustStr Path Core Cbor Auth Crypto Store ServiceState Access Namespaces Objects Subscribe Service Wire Front.

Definition NATIVE_JSON_BODY_LIMIT_BYTES : Z := 8 * 1024 * 1024.

(** The fields of [NativeState]. *)
Record NativeState := mkNativeState {
  nv_service : AlphaService;
  nv_issuer_registry : IssuerRegistry;
}.

Definition native_runtime_kms `{Hashing} (seed : bytes) : result ApiError LocalDevKms :=
  seed ← map_err (λ error, crypto_error_to_api error
           "HSP_KMS_SEED must be configured for native beta runtime KMS")
           (validate_runtime_secret_bytes "HSP_KMS_SEED" seed DEFAULT_KMS_SEED_LITERALS);
  map_err (λ error, crypto_error_to_api error "failed to initialize native KMS") (from_seed seed).

(** JSON the native protocol adds: request bodies, and the values of frame headers,
    [serde_json::Value]s of type [V]. *)
Class NativeDeps (V : Type) := {
  nd_read_head :: JsonRead HeadRequest;
  nd_read_get :: JsonRead GetRequest;
  nd_read_resolve :: JsonRead ResolveRequest;
  nd_read_list :: JsonRead ListRequest;
  nd_read_subscribe :: JsonRead SubscribeRequest;
  get_meta_to_value : GetResponseMeta → result string V;
  value_string : string → V;
  put_chunk_from_params : gmap string V → result string PutChunkRequest;
}.

(** The streams of a task and the world it shares. *)
Record Session (R : Reader) (W : Writer) (B : Backend) := mkSession {
  ns_recv : rstate R;
  ns_send : wstate W;
  ns_world : World B;
}.
Arguments mkSession {R W B}.
Arguments ns_recv {R W B}.
Arguments ns_send {R W B}.
Arguments ns_world {R W B}.

Inductive Progress := Finished | Running.

Definition api_to_wire (error : ApiError) : WireCodecError :=
  InvalidFrame (err_code error +:+ ": " +:+ err_message error).
Definition required_auth (auth : option AuthContext) (operation : string)
  : result WireCodecError AuthContext :=
  ok_or auth (api_to_wire (mkApiError CatAuth "missing_auth_frame"
                             (operation +:+ " requires AUTH frame"))).

Definition verify_auth_frame `{Base64Url, Cose} `{!CborPayload CapabilityClaims}
  (connection : Connection) (issuer_registry : IssuerRegistry) (auth_frame : AuthFrame)
  : result ApiError AuthContext :=
  claims ← verify_cose_sign1_token (af_token_b64 auth_frame) issuer_registry;
  exported_key_material ←
    ok_or (export_keying_material connection tls_exporter_label
             (as_bytes (cb_nonce (af_channel_binding auth_frame))))
      (mkApiError CatAuth "invalid_channel_binding" "failed to export TLS keying material");
  _ ← verify_tls_exporter_binding exported_key_material (af_channel_binding auth_frame);
  Ok (mkAuthContext claims (Some (af_channel_binding auth_frame))).

Definition native_body_limit {V} (header : ReqHeader V) : Z :=
  match rh_operation _ header with
  | OpInfo => 0
  | OpPutChunk => max_chunk_size (info_limits info)
  | _ => NATIVE_JSON_BODY_LIMIT_BYTES
  end.

Definition res_header {V} (status_code : Z) (payload_mode : PayloadMode)
  (payload_length : option Z) (meta : gmap string V) : ResHeader V :=
  mkResHeader 1 status_code None (Some payload_mode) payload_length meta ∅.

(** ** Reading the body *)

Section body.
Context {V : Type} `{WireDeps V} (R : Reader).

(** The loop of [read_body] with the bytes read so far; [None] is a loop that is
    still running.  [body.len()] is at most the limit, so the saturating sum is
    exact. *)
Fixpoint read_body (fuel : nat) (max_body_bytes : Z) (body : bytes)
  : ST (rstate R) WireCodecError (option bytes) :=
  match fuel with
  | O => mret None
  | S fuel' =>
      frame ← read_frame (V:=V) R;
      match frame with
      | FrData b =>
          if max_body_bytes <? u64_sat_add (len_u64 body) (len_u64 b)
          then throw (InvalidFrame "request body exceeds operation limit")
          else read_body fuel' max_body_bytes (body ++ b)
      | FrEnd => mret (Some body)
      | frame =>
          throw (InvalidFrame ("unexpected frame " +:+ frame_type_debug (frame_type frame)
                               +:+ " while reading body"))
      end
  end.
End body.

(** ** Replies *)

Section replies.
Context {V : Type} `{WireDeps V} (W : Writer).
Abbreviation Send := (ST (wstate W) WireCodecError).

Definition write_json_response `{NativeDeps V} {T} `{JsonWrite T} (status_code : Z) (value : T)
  : Send unit :=
  body ← lift_result (map_err InvalidFrame (to_vec value));
  _ ← write_frame (V:=V) W (FrResHeader (res_header status_code PmJson (Some (len_u64 body)) ∅));
  _ ← write_frame (V:=V) W (FrData body);
  write_frame (V:=V) W FrEnd.

Fixpoint write_chunks (chunks : list GetChunk) : Send unit :=
  match chunks with
  | [] => mret tt
  | chunk :: rest => _ ← write_frame (V:=V) W (FrData (gc_bytes chunk)); write_chunks rest
  end.
Definition write_chunk_stream_response `{NativeDeps V} (status_code : Z) (meta : GetResponseMeta)
  (chunks : list GetChunk) : Send unit :=
  value ← lift_result (map_err InvalidFrame (get_meta_to_value meta));
  _ ← write_frame W (FrResHeader (res_header status_code PmChunkStream None {[ "get_meta" := value ]}));
  _ ← write_chunks chunks;
  write_frame (V:=V) W FrEnd.

Definition write_subscription_header `{NativeDeps V} `{Base64Url} (cursor : EventCursor) : Send unit :=
  write_frame W (FrResHeader (res_header 200 PmNone None
                   {[ "cursor" := value_string (event_cursor_encode cursor) ]})).

Definition write_error (error : ApiError) : Send unit :=
  write_frame (V:=V) W (FrError (mkWireErrorFrame (err_category error) (err_code error)
                                   (err_message error))).

(** The frames of the envelopes of one poll; the result says if there was an event. *)
Fixpoint write_envelopes (envelopes : list SubscribeEnvelope) (emitted_event : bool) : Send bool :=
  match envelopes with
  | [] => mret emitted_event
  | envelope :: rest =>
      match se_kind envelope with
      | EnvEvent =>
          match se_event envelope with
          | Some event => _ ← write_frame (V:=V) W (FrEvent event); write_envelopes rest true
          | None => write_envelopes rest emitted_event
          end
      | EnvNotice =>
          match se_notice envelope with
          | Some notice =>
              _ ← write_frame (V:=V) W (FrNotice notice); write_envelopes rest emitted_event
          | None => write_envelopes rest emitted_event
          end
      end
  end.
End replies.

(** ** The task of a stream *)

Section native.
Context {V : Type} `{WireDeps V} `{NativeDeps V} `{FrontDeps} `{Deps} `{!CborPayload CapabilityClaims}.
Context {B : Backend} (R : Reader) (W : Writer) (state : NativeState) (connection : Connection).
(** What the other tasks do while this one sends and sleeps after a poll. *)
Context (others : nat → World B → World B).
Abbreviation Task := (ST (Session R W B) WireCodecError).
Abbreviation sv := (nv_service state).

Definition on_recv {A} (m : ST (rstate R) WireCodecError A) : Task A :=
  zoom ns_recv (λ r s, mkSession r (ns_send s) (ns_world s)) m.
Definition on_send {A} (m : ST (wstate W) WireCodecError A) : Task A :=
  zoom ns_send (λ x s, mkSession (ns_recv s) x (ns_world s)) m.
Definition on_world {E A} (m : ST (World B) E A) : ST (Session R W B) E A :=
  zoom ns_world (λ w s, mkSession (ns_recv s) (ns_send s) w) m.

(** [match state.service.op(..) { Ok(response) => .., Err(error) => write_error }]. *)
Definition respond {A} (call : ST (World B) ApiError A) (render : A → ST (wstate W) WireCodecError unit)
  : Task Progress :=
  r ← on_world (attempt call);
  _ ← on_send (match r with
               | Ok response => render response
               | Err error => write_error (V:=V) W error
               end);
  mret Finished.
Definition decode_json {T} `{JsonRead T} (body : bytes) : result WireCodecError T :=
  map_err InvalidFrame (from_json body).
Definition decode_json_params (header : ReqHeader V) : result WireCodecError PutChunkRequest :=
  map_err InvalidFrame (put_chunk_from_params (rh_params _ header)).

Definition write_get_response (response : GetResponse) : ST (wstate W) WireCodecError unit :=
  if bool_decide (gm_preference (gr_meta response) = PrefManifestOnly)
  then write_json_response (V:=V) W 200 (gr_meta response)
  else write_chunk_stream_response (V:=V) W 200 (gr_meta response) (gr_chunks response).

(** The loop of a subscription after poll number [round], with the idle rounds
    counted so far. *)
Fixpoint subscription_loop (fuel round : nat) (auth : AuthContext) (request : SubscribeRequest)
  (cursor : EventCursor) (idle_rounds : Z) : Task Progress :=
  match fuel with
  | O => mret Running
  | S fuel' =>
      r ← on_world (attempt (subscribe_poll sv auth request cursor));
      match r with
      | Err error => _ ← on_send (write_error (V:=V) W error); mret Finished
      | Ok (envelopes, cursor) =>
          emitted_event ← on_send (write_envelopes (V:=V) W envelopes false);
          let idle_rounds := if (emitted_event : bool) then 0 else idle_rounds + 1 in
          if 20 <=? idle_rounds then
            _ ← on_send (write_frame (V:=V) W (FrGoAway (mkGoAwayFrame "subscribe_idle_timeout")));
            _ ← on_send (write_frame (V:=V) W FrEnd);
            mret Finished
          else
            _ ← on_world (modify (others round));
            subscription_loop fuel' (S round) auth request cursor idle_rounds
      end
  end.

(** The first frames of a stream: the verified caller, if any, and the header;
    [None] when the reply is already written. *)
Definition accept_request : Task (option (option AuthContext * ReqHeader V)) :=
  let refuse category code message :=
    _ ← on_send (write_error (V:=V) W (mkApiError category code message)); mret None in
  first_frame ← on_recv (read_frame R);
  match first_frame with
  | FrReqHeader header =>
      if bool_decide (rh_operation _ header = OpInfo) then mret (Some (None, header))
      else refuse CatAuth "missing_auth_frame" "AUTH frame is required before request header"
  | FrAuth auth_frame =>
      auth ← lift_result (map_err api_to_wire
               (verify_auth_frame connection (nv_issuer_registry state) auth_frame));
      next_frame ← on_recv (read_frame R);
      match next_frame with
      | FrReqHeader header => mret (Some (Some auth, header))
      | _ => refuse CatValidation "missing_req_header" "REQ_HEADER must follow AUTH"
      end
  | FrData _ =>
      refuse CatValidation "unexpected_data_frame" "DATA frame arrived before request header"
  | _ => refuse CatValidation "invalid_request_sequence" "unexpected frame order"
  end.

(** [match header.operation] *)
Definition serve_operation (fuel : nat) (auth : option AuthContext) (header : ReqHeader V)
  (body : bytes) : Task Progress :=
  match rh_operation _ header with
  | OpInfo => _ ← on_send (write_json_response (V:=V) W 200 info); mret Finished
  | OpHead =>
      auth ← lift_result (required_auth auth "HEAD");
      request ← lift_result (decode_json body);
      respond (head sv auth request) (write_json_response (V:=V) W 200)
  | OpGet =>
      auth ← lift_result (required_auth auth "GET");
      request ← lift_result (decode_json body);
      respond (get sv auth request) write_get_response
  | OpResolve =>
      auth ← lift_result (required_auth auth "RESOLVE");
      request ← lift_result (decode_json body);
      respond (resolve_op sv auth request) (write_json_response (V:=V) W 200)
  | OpBind =>
      auth ← lift_result (required_auth auth "BIND");
      request ← lift_result (decode_json body);
      respond (bind sv auth request) (write_json_response (V:=V) W 200)
  | OpUnbind =>
      auth ← lift_result (required_auth auth "UNBIND");
      request ← lift_result (decode_json body);
      respond (unbind sv auth request) (write_json_response (V:=V) W 200)
  | OpList =>
      auth ← lift_result (required_auth auth "LIST");
      request ← lift_result (decode_json body);
      respond (list_op sv auth request) (write_json_response (V:=V) W 200)
  | OpSubscribe =>
      auth ← lift_result (required_auth auth "SUBSCRIBE");
      request ← lift_result (decode_json body);
      r ← on_world (attempt (subscribe_start sv auth request));
      match r with
      | Ok cursor =>
          _ ← on_send (write_subscription_header (V:=V) W cursor);
          subscription_loop fuel 0 auth request cursor 0
      | Err error => _ ← on_send (write_error (V:=V) W error); mret Finished
      end
  | OpPutInit =>
      auth ← lift_result (required_auth auth "PUT_INIT");
      request ← lift_result (decode_json body);
      respond (put_init sv auth request) (write_json_response (V:=V) W 200)
  | OpPutChunk =>
      auth ← lift_result (required_auth auth "PUT_CHUNK");
      request ← lift_result (decode_json_params header);
      respond (put_chunk sv auth request body) (write_json_response (V:=V) W 200)
  | OpPutCommit =>
      auth ← lift_result (required_auth auth "PUT_COMMIT");
      request ← lift_result (decode_json body);
      respond (put_commit sv auth request) (write_json_response (V:=V) W 200)
  end.

Definition handle_request_stream (fuel : nat) : Task Progress :=
  accepted ← accept_request;
  match accepted with
  | None => mret Finished
  | Some (auth, header) =>
      o ← on_recv (read_body (V:=V) R fuel (native_body_limit header) []);
      match o with
      | None => mret Running
      | Some body => serve_operation fuel auth header body
      end
  end.

(** [send_settings] on the unidirectional stream of a new connection. *)
Definition send_settings : ST (wstate W) WireCodecError unit :=
  write_frame (V:=V) W (FrSettings (settings sv)).
End native.
