(* ===== verification/Gateway.v ===== *)
(** * hsp-gw: the HTTP/3 gateway

    Models the request path of [gateway/hsp-gw/src/lib.rs]: the headers that carry
    a capability and its channel binding, the routes, the bodies, the operation of
    the service behind each route, the responses and the event stream, and the loop
    that serves the requests of one connection one after the other.  The arms of
    the [match] of [route_request] are definitions of their own, and their guards are
    kept in order, grouped by method. *)

From Stdlib Require Import ZArith Lia Ascii String Bool.
From stdpp Require Import base option list strings gmap numbers.
From S2P Require Import Prelude RustStr Path Core Cbor Auth Crypto Store ServiceState Observability Access Namespaces Objects Subscribe Service AmzDate SigV4 UrlStr Http Front.

Definition GATEWAY_JSON_BODY_LIMIT_BYTES : Z := 8 * 1024 * 1024.
Definition StatusUnauthorized : Z := 401.

(** The fields of [GatewayState]. *)
Record GatewayState := mkGatewayState {
  gw_service : AlphaService;
  gw_issuer_registry : IssuerRegistry;
}.

Definition gateway_runtime_kms `{Hashing} (seed : bytes) : result ApiError LocalDevKms :=
  seed ← map_err (λ error, crypto_error_to_api error
           "HSP_KMS_SEED must be configured for gateway beta runtime KMS")
           (validate_runtime_secret_bytes "HSP_KMS_SEED" seed DEFAULT_KMS_SEED_LITERALS);
  map_err (λ error, crypto_error_to_api error "failed to initialize gateway KMS") (from_seed seed).

(** JSON the gateway adds.  The last two are the lines of a chunk stream, written
    with [serde_json::json!]. *)
Class GatewayDeps := {
  gd_bootstrap :: JsonWrite BootstrapDocument;
  gd_logs :: JsonWrite (list StructuredLogRecord);
  gd_envelope :: JsonWrite SubscribeEnvelope;
  gd_error :: JsonWrite ApiError;
  meta_line : GetResponseMeta → string;
  chunk_line : GetChunkDescriptor → string → string;
}.

(** An HTTP/3 request without its body. *)
Record H3Request := mkH3Request {
  h3_method : string;
  h3_path : string;
  h3_query : option string;
  h3_headers : HeaderMap;
}.
(** [(Response<()>, Option<Vec<Bytes>>)] *)
Record Reply := mkReply {
  gw_status : Z;
  gw_headers : HeaderMap;
  gw_body : option (list bytes);
}.

(** The request stream of [h3]. *)
Record H3Stream := mkH3Stream {
  hstate : Type;
  recv_data : ST hstate string (option bytes);
  send_response : Z → HeaderMap → ST hstate string unit;
  send_data : bytes → ST hstate string unit;
  finish : ST hstate string unit;
}.
(** The frames of a stream, as far as they were sent, and the data to come. *)
Inductive H3Sent := SentHead (status : Z) (headers : HeaderMap) | SentData (b : bytes) | SentEnd.
Class H3Laws (X : H3Stream) := {
  h3_sent : hstate X → list H3Sent;
  h3_coming : hstate X → list bytes;
  recv_data_some : ∀ s b s', recv_data X s = (Ok (Some b), s') →
    h3_coming s = b :: h3_coming s' ∧ h3_sent s' = h3_sent s;
  recv_data_none : ∀ s s', recv_data X s = (Ok None, s') →
    h3_coming s = [] ∧ h3_sent s' = h3_sent s;
  recv_data_err : ∀ s e s', recv_data X s = (Err e, s') → h3_sent s' = h3_sent s;
  send_response_ok : ∀ status headers s s', send_response X status headers s = (Ok tt, s') →
    h3_sent s' = h3_sent s ++ [SentHead status headers];
  send_data_ok : ∀ b s s', send_data X b s = (Ok tt, s') → h3_sent s' = h3_sent s ++ [SentData b];
  finish_ok : ∀ s s', finish X s = (Ok tt, s') → h3_sent s' = h3_sent s ++ [SentEnd];
}.

(** ** Errors *)

Definition invalid (code message : string) : ApiError := mkApiError CatValidation code message.
Definition invalid_range : ApiError := invalid "invalid_range" "invalid range".
Definition invalid_revision : ApiError := invalid "invalid_revision" "invalid revision".
Definition invalid_limit : ApiError := invalid "invalid_limit" "invalid limit".
Definition invalid_heartbeat : ApiError := invalid "invalid_heartbeat_ms" "invalid heartbeat".
Definition bad_json (error : string) : ApiError := invalid "invalid_json" error.
Definition http_body_error (error : string) : ApiError := invalid "gateway_body_read_failed" error.
Definition http_build_error (error : string) : ApiError :=
  invalid "gateway_response_build_failed" error.
Definition http3_error (error : string) : ApiError := invalid "gateway_stream_failed" error.
Definition route_not_found : ApiError :=
  mkApiError CatNotFound "route_not_found" "gateway route not found".

Definition status_for_error (error : ApiError) : Z :=
  match err_category error with
  | CatAuth => StatusUnauthorized
  | CatReplay | CatPolicy | CatValidation | CatUnsupported | CatConflict => StatusBadRequest
  | CatNotFound => StatusNotFound
  | CatStorage => StatusInternalServerError
  end.
Definition category_as_str (category : ApiErrorCategory) : string :=
  match category with
  | CatAuth => "auth"
  | CatReplay => "replay"
  | CatPolicy => "policy"
  | CatValidation => "validation"
  | CatUnsupported => "unsupported"
  | CatNotFound => "not_found"
  | CatConflict => "conflict"
  | CatStorage => "storage"
  end.

(** ** Queries, headers and routes *)

(** The first pair with the key counts; values are taken as they are. *)
Definition query_value (query key : string) : option string :=
  snd <$> List.find (λ pair, String.eqb pair.1 key) (omap (split_once "=") (split_on "&" query)).
Definition required_query (query key : string) : result ApiError string :=
  ok_or (query_value query key)
    (invalid ("missing_" +:+ key) (key +:+ " query parameter is required")).
Definition tenant_from_query (query : string) : result ApiError TenantId :=
  required_query query "tenant_id".
Definition required_header (headers : HeaderMap) (name : string) : result ApiError string :=
  ok_or (v ← header_get headers name; header_to_str v)
    (mkApiError CatAuth "missing_auth_header" (name +:+ " header is required")).

(** [.map(|value| value.parse().map_err(|_| error)).transpose()?] *)
Definition parsed_query (parse : string → option Z) (query key : string) (error : ApiError)
  : result ApiError (option Z) :=
  match query_value query key with
  | Some value => Some <$> ok_or (parse value) error
  | None => Ok None
  end.
(** [.map(|value| value == "true").unwrap_or(false)] *)
Definition flag_query (query key : string) : bool :=
  match query_value query key with Some value => String.eqb value "true" | None => false end.

Definition parse_preference (value : string) : option GetPreference :=
  if String.eqb value "chunk-stream" then Some PrefChunkStream
  else if String.eqb value "manifest-only" then Some PrefManifestOnly
  else if String.eqb value "raw" then Some PrefRaw
  else None.
Definition parse_event_type (value : string) : option EventType :=
  if String.eqb value "object.committed" then Some ObjectCommitted
  else if String.eqb value "namespace.bound" then Some NamespaceBound
  else if String.eqb value "namespace.unbound" then Some NamespaceUnbound
  else if String.eqb value "namespace.tombstoned" then Some NamespaceTombstoned
  else if String.eqb value "auth.denied" then Some AuthDenied
  else if String.eqb value "pin.accepted" then Some PinAccepted
  else None.

Definition NAMESPACES : string := "/v1/namespaces/".
Definition OBJECTS_NAMESPACE : string := "/v1/objects/namespace/".
Definition OBJECTS_CID : string := "/v1/objects/cid/".
Definition UPLOADS : string := "/v1/uploads/".

Definition split_namespace_operation (path marker : string) : result ApiError (string * string) :=
  ok_or (split_once_str marker (trim_start_str NAMESPACES path))
    (invalid "invalid_namespace_route" "invalid namespace route").
Definition split_namespace_object_route (path prefix : string) : result ApiError (string * string) :=
  ok_or (split_once "/" (trim_start_str prefix path))
    (invalid "invalid_namespace_route" "invalid namespace object route").

(** The range of a GET. *)
Definition range_from_query (query : string) : result ApiError (option RangeSpec) :=
  match query_value query "range_start", query_value query "range_end" with
  | Some start, Some end_ =>
      start ← ok_or (parse_u64 start) invalid_range;
      end_ ← ok_or (parse_u64 end_) invalid_range;
      Ok (Some (mkRangeSpec start end_))
  | _, _ => Ok None
  end.

(** The requests a URL names. *)
Definition get_request (query : string) (selector : ObjectSelector) : result ApiError GetRequest :=
  let prefer := value ← query_value query "prefer"; parse_preference value in
  range ← range_from_query query;
  tenant_id ← tenant_from_query query;
  Ok (mkGetRequest tenant_id selector prefer range).
Definition head_request (query : string) (selector : ObjectSelector) : result ApiError HeadRequest :=
  tenant_id ← tenant_from_query query;
  Ok (mkHeadRequest tenant_id selector).
Definition resolve_request (query namespace path : string) : result ApiError ResolveRequest :=
  tenant_id ← tenant_from_query query;
  at_revision ← parsed_query parse_u64 query "at_revision" invalid_revision;
  if_revision ← parsed_query parse_u64 query "if_revision" invalid_revision;
  Ok (mkResolveRequest tenant_id namespace path at_revision if_revision).
Definition list_request (query namespace : string) : result ApiError ListRequest :=
  tenant_id ← tenant_from_query query;
  limit ← parsed_query parse_u32 query "limit" invalid_limit;
  Ok {| lq_tenant_id := tenant_id; lq_namespace := namespace;
        lq_prefix := query_value query "prefix"; lq_cursor := query_value query "cursor";
        lq_limit := limit; lq_recursive := flag_query query "recursive";
        lq_include_tombstones := flag_query query "include_tombstones" |}.
Definition put_chunk_request (path query : string) : result ApiError PutChunkRequest :=
  match split_str "/chunks/" (trim_start_str UPLOADS path) with
  | [session_id; index] =>
      tenant_id ← tenant_from_query query;
      chunk_index ← ok_or (parse_u32 index) (invalid "invalid_chunk_index" "invalid chunk index");
      chunk_cid ← required_query query "chunk_cid";
      offset ← required_query query "chunk_offset";
      chunk_offset ← ok_or (parse_u64 offset)
        (invalid "invalid_chunk_offset" "invalid chunk offset");
      len ← required_query query "chunk_length";
      chunk_length ← ok_or (parse_u64 len) (invalid "invalid_chunk_length" "invalid chunk length");
      content_encoding ← required_query query "content_encoding";
      Ok (mkPutChunkRequest tenant_id session_id chunk_index chunk_cid chunk_offset chunk_length
            content_encoding)
  | _ => Err (invalid "invalid_chunk_path" "invalid upload chunk path")
  end.
Definition subscribe_request (query : string) : result ApiError SubscribeRequest :=
  tenant_id ← tenant_from_query query;
  from_seq ← parsed_query parse_u64 query "from_seq" invalid_revision;
  heartbeat_ms ← parsed_query parse_u64 query "heartbeat_ms" invalid_heartbeat;
  batch_max ← parsed_query parse_u32 query "batch_max" invalid_limit;
  Ok {| sq_tenant_id := tenant_id;
        sq_filters :=
          [ {| sf_namespace_prefix := query_value query "namespace_prefix";
               sf_path_exact := query_value query "path_exact";
               sf_object_cid := query_value query "object_cid";
               sf_event_type := value ← query_value query "event_type"; parse_event_type value;
               sf_tenant_scope := None |} ];
        sq_cursor := query_value query "cursor"; sq_from_seq := from_seq;
        sq_heartbeat_ms := heartbeat_ms; sq_batch_max := batch_max |}.

(** The fields of a body that the URL overrides. *)
Definition set_bind_target (r : BindRequest) (namespace path : string) : BindRequest :=
  {| br_tenant_id := br_tenant_id r; br_namespace := namespace; br_path := path;
     br_target_cid := br_target_cid r; br_if_revision := br_if_revision r;
     br_if_absent := br_if_absent r; br_metadata := br_metadata r; br_ttl_ms := br_ttl_ms r;
     br_idempotency_key := br_idempotency_key r; br_signed_record_b64 := br_signed_record_b64 r |}.
Definition set_unbind_target (r : UnbindRequest) (namespace path : string) : UnbindRequest :=
  {| ur_tenant_id := ur_tenant_id r; ur_namespace := namespace; ur_path := path;
     ur_if_revision := ur_if_revision r; ur_hard_delete := ur_hard_delete r;
     ur_idempotency_key := ur_idempotency_key r; ur_signed_record_b64 := ur_signed_record_b64 r |}.
Definition set_session_id (r : PutCommitRequest) (session_id : string) : PutCommitRequest :=
  {| cm_tenant_id := cm_tenant_id r; cm_session_id := session_id;
     cm_manifest_cid := cm_manifest_cid r; cm_idempotency_key := cm_idempotency_key r |}.

Definition verify_gateway_auth `{Base64Url, Cose} `{!CborPayload CapabilityClaims}
  (connection : Connection) (headers : HeaderMap) (issuer_registry : IssuerRegistry)
  : result ApiError AuthContext :=
  token_b64 ← required_header headers "x-hsp-capability";
  binding_kind ← required_header headers "x-hsp-channel-binding-kind";
  proof_b64 ← required_header headers "x-hsp-channel-binding-proof";
  nonce ← required_header headers "x-hsp-channel-binding-nonce";
  claims ← verify_cose_sign1_token token_b64 issuer_registry;
  let binding := mkChannelBindingProof binding_kind proof_b64 nonce in
  exported_key_material ←
    ok_or (export_keying_material connection tls_exporter_label (as_bytes (cb_nonce binding)))
      (mkApiError CatAuth "invalid_channel_binding" "failed to export TLS keying material");
  _ ← verify_tls_exporter_binding exported_key_material binding;
  Ok (mkAuthContext claims (Some binding)).

(** ** Responses *)

Section responses.
Context `{HttpDeps} `{GatewayDeps}.

Definition build_reply (status : Z) (headers : list (string * string)) (body : option (list bytes))
  : result ApiError Reply :=
  map_err http_build_error (headers ← build_headers headers; Ok (mkReply status headers body)).

Definition json_response {T} `{JsonWrite T} (status : Z) (value : T) : result ApiError Reply :=
  body ← map_err (invalid "json_encode_failed") (to_vec value);
  build_reply status [("content-type", "application/json")] (Some [body]).
Definition text_response (status : Z) (content_type body : string) : result ApiError Reply :=
  build_reply status [("content-type", content_type)] (Some [as_bytes body]).

Definition line (s : string) : bytes := as_bytes (s +:+ String line_feed "").
Definition chunk_stream_response `{Base64Url} (meta : GetResponseMeta) (chunks : list GetChunk)
  : result ApiError Reply :=
  build_reply StatusOk [("content-type", "application/x-hsp-chunk-stream+jsonl")]
    (Some (line (meta_line meta)
             :: ((λ chunk, line (chunk_line (gc_descriptor chunk) (b64url_encode (gc_bytes chunk))))
                   <$> chunks))).
Definition get_response `{Base64Url} `{FrontDeps} (response : GetResponse) : result ApiError Reply :=
  if bool_decide (gm_preference (gr_meta response) = PrefManifestOnly)
  then json_response StatusOk (gr_meta response)
  else chunk_stream_response (gr_meta response) (gr_chunks response).

Definition optional_header (name : string) (value : option string) : list (string * string) :=
  match value with Some value => [(name, value)] | None => [] end.
Definition head_response (head : HeadResponse) : result ApiError Reply :=
  build_reply StatusOk
    ([("x-hsp-object-cid", hr_object_cid head);
      ("x-hsp-exists", "true");
      ("x-hsp-deleted", "false");
      ("x-hsp-cid", hr_cid head);
      ("x-hsp-manifest-cid", hr_manifest_cid head);
      ("x-hsp-integrity-hash", hr_integrity_hash head);
      ("x-hsp-storage-class", hr_storage_class head);
      ("x-hsp-size-bytes", dec (hr_size_bytes head));
      ("x-hsp-ciphertext-size-bytes", dec (hr_ciphertext_size_bytes head));
      ("x-hsp-logical-size", dec (hr_logical_size head));
      ("x-hsp-stored-size", dec (hr_stored_size head));
      ("x-hsp-content-type", hr_content_type head);
      ("x-hsp-created-at-ms", dec (hr_created_at_ms head));
      ("x-hsp-encryption-profile-id", hr_encryption_profile_id head);
      ("x-hsp-key-policy-id", hr_key_policy_id head);
      ("x-hsp-metadata-visibility", visibility_as_str (hr_metadata_visibility head));
      ("x-hsp-encrypted-client-metadata-redacted",
       bool_to_string (hr_encrypted_client_metadata_redacted head))]
     ++ optional_header "x-hsp-resolved-namespace" (hr_resolved_namespace head)
     ++ optional_header "x-hsp-resolved-path" (hr_resolved_path head)
     ++ optional_header "x-hsp-resolved-revision" (dec <$> hr_resolved_revision head)
     ++ optional_header "x-hsp-resolved-record-cid" (hr_resolved_record_cid head)) None.

(** Its own failure ends the connection. *)
Definition error_response (error : ApiError) : result string Reply :=
  body ← to_vec error;
  headers ← build_headers [("content-type", "application/json");
                           ("x-hsp-error-code", err_code error);
                           ("x-hsp-error-category", category_as_str (err_category error))];
  Ok (mkReply (status_for_error error) headers (Some [body])).
End responses.

(** ** Requests *)

(** The stream of a request and the world of the service. *)
Record Exchange (X : H3Stream) (B : Backend) := mkExchange {
  ex_stream : hstate X;
  ex_world : World B;
}.
Arguments mkExchange {X B}.
Arguments ex_stream {X B}.
Arguments ex_world {X B}.

Section body.
Context (X : H3Stream).

(** The loop of [read_http_body]; [None] is a loop that is still running. *)
Fixpoint read_http_body (fuel : nat) (max_body_bytes : Z) (body : bytes)
  : ST (hstate X) string (option bytes) :=
  match fuel with
  | O => mret None
  | S fuel' =>
      o ← recv_data X;
      match o with
      | Some chunk =>
          if max_body_bytes <? u64_sat_add (len_u64 body) (len_u64 chunk)
          then throw "request body exceeds operation limit"
          else read_http_body fuel' max_body_bytes (body ++ chunk)
      | None => mret (Some body)
      end
  end.

Fixpoint send_all (l : list bytes) : ST (hstate X) string unit :=
  match l with
  | [] => mret tt
  | b :: rest => _ ← send_data X b; send_all rest
  end.
(** Head, body and end of a reply. *)
Definition send_reply (reply : Reply) : ST (hstate X) string unit :=
  _ ← send_response X (gw_status reply) (gw_headers reply);
  _ ← send_all (default [] (gw_body reply));
  finish X.
End body.

Section gateway.
Context `{HttpDeps} `{GatewayDeps} `{FrontDeps} `{Deps} `{!CborPayload CapabilityClaims}.
Context {B : Backend} (X : H3Stream) (state : GatewayState) (connection : Connection).
(** What the other tasks do while this one sends and sleeps after a poll. *)
Context (others : nat → World B → World B).
Abbreviation sv := (gw_service state).
Abbreviation Handler := (ST (Exchange X B) ApiError).

Definition on_stream {E A} (m : ST (hstate X) E A) : ST (Exchange X B) E A :=
  zoom ex_stream (λ x s, mkExchange x (ex_world s)) m.
Definition on_service {E A} (m : ST (World B) E A) : ST (Exchange X B) E A :=
  zoom ex_world (λ w s, mkExchange (ex_stream s) w) m.
Definition with_error {E F S A} (f : E → F) (m : ST S E A) : ST S F A :=
  λ s, let '(r, s') := m s in (map_err f r, s').

Definition authenticated (request : H3Request) : result ApiError AuthContext :=
  verify_gateway_auth connection (h3_headers request) (gw_issuer_registry state).
Definition query_of (request : H3Request) : string := default "" (h3_query request).

(** A handler that does not read the body ends. *)
Definition complete (m : Handler Reply) : Handler (option Reply) := reply ← m; mret (Some reply).
(** Read the body and go on with it; [None] when the body has not ended. *)
Definition with_body (fuel : nat) (max_body_bytes : Z) (next : bytes → Handler Reply)
  : Handler (option Reply) :=
  o ← on_stream (with_error http_body_error (read_http_body X fuel max_body_bytes []));
  match o with
  | Some body => complete (next body)
  | None => mret None
  end.
(** A call of the service and the JSON of its response. *)
Definition reply_json {A} `{JsonWrite A} (call : ST (World B) ApiError A) : Handler Reply :=
  response ← on_service call;
  lift_result (json_response StatusOk response).

(** The arms of [route_request]. *)
Definition get_metrics (request : H3Request) : Handler Reply :=
  auth ← lift_result (authenticated request);
  _ ← lift_result (require_scope auth AdminMetricsRead);
  metrics ← on_service (gets prometheus_metrics);
  lift_result (text_response StatusOk "text/plain; version=0.0.4" metrics).
Definition get_logs (request : H3Request) : Handler Reply :=
  auth ← lift_result (authenticated request);
  _ ← lift_result (require_scope auth AdminAuditRead);
  reply_json (gets structured_logs).
Definition start_upload (fuel : nat) (request : H3Request) : Handler (option Reply) :=
  auth ← lift_result (authenticated request);
  with_body fuel GATEWAY_JSON_BODY_LIMIT_BYTES (λ body,
    r ← lift_result (map_err bad_json (from_json body));
    reply_json (put_init sv auth r)).
Definition get_namespace_metadata (request : H3Request) : Handler Reply :=
  '(namespace, item) ← lift_result
    (split_namespace_object_route (trim_end_str "/metadata" (h3_path request)) OBJECTS_NAMESPACE);
  auth ← lift_result (authenticated request);
  r ← lift_result (head_request (query_of request) (selector_of_namespace namespace item));
  reply_json (head sv auth r).
Definition get_cid_metadata (request : H3Request) : Handler Reply :=
  let cid := trim_end_str "/metadata" (trim_start_str OBJECTS_CID (h3_path request)) in
  auth ← lift_result (authenticated request);
  r ← lift_result (head_request (query_of request) (selector_of_cid cid));
  reply_json (head sv auth r).
Definition get_namespace_object (request : H3Request) : Handler Reply :=
  '(namespace, item) ← lift_result
    (split_namespace_object_route (h3_path request) OBJECTS_NAMESPACE);
  auth ← lift_result (authenticated request);
  r ← lift_result (get_request (query_of request) (selector_of_namespace namespace item));
  response ← on_service (get sv auth r);
  lift_result (get_response response).
Definition head_namespace_object (request : H3Request) : Handler Reply :=
  '(namespace, item) ← lift_result
    (split_namespace_object_route (h3_path request) OBJECTS_NAMESPACE);
  auth ← lift_result (authenticated request);
  r ← lift_result (head_request (query_of request) (selector_of_namespace namespace item));
  response ← on_service (head sv auth r);
  lift_result (head_response response).
Definition get_cid_object (request : H3Request) : Handler Reply :=
  let cid := trim_start_str OBJECTS_CID (h3_path request) in
  auth ← lift_result (authenticated request);
  r ← lift_result (get_request (query_of request) (selector_of_cid cid));
  response ← on_service (get sv auth r);
  lift_result (get_response response).
Definition head_cid_object (request : H3Request) : Handler Reply :=
  let cid := trim_start_str OBJECTS_CID (h3_path request) in
  auth ← lift_result (authenticated request);
  r ← lift_result (head_request (query_of request) (selector_of_cid cid));
  response ← on_service (head sv auth r);
  lift_result (head_response response).
Definition put_upload_chunk (fuel : nat) (request : H3Request) : Handler (option Reply) :=
  auth ← lift_result (authenticated request);
  with_body fuel (max_chunk_size (info_limits info)) (λ body,
    r ← lift_result (put_chunk_request (h3_path request) (query_of request));
    reply_json (put_chunk sv auth r body)).
Definition commit_upload (fuel : nat) (request : H3Request) : Handler (option Reply) :=
  auth ← lift_result (authenticated request);
  with_body fuel GATEWAY_JSON_BODY_LIMIT_BYTES (λ body,
    commit ← lift_result (map_err bad_json (from_json body));
    let session_id := trim_end_str ":commit" (trim_start_str UPLOADS (h3_path request)) in
    reply_json (put_commit sv auth (set_session_id commit session_id))).
Definition get_resolve (request : H3Request) : Handler Reply :=
  '(namespace, item) ← lift_result (split_namespace_operation (h3_path request) "/resolve/");
  auth ← lift_result (authenticated request);
  r ← lift_result (resolve_request (query_of request) namespace item);
  reply_json (resolve_op sv auth r).
Definition put_bind (fuel : nat) (request : H3Request) : Handler (option Reply) :=
  '(namespace, item) ← lift_result (split_namespace_operation (h3_path request) "/bind/");
  auth ← lift_result (authenticated request);
  with_body fuel GATEWAY_JSON_BODY_LIMIT_BYTES (λ body,
    bind_request ← lift_result (map_err bad_json (from_json body));
    reply_json (bind sv auth (set_bind_target bind_request namespace item))).
Definition delete_bind (fuel : nat) (request : H3Request) : Handler (option Reply) :=
  '(namespace, item) ← lift_result (split_namespace_operation (h3_path request) "/bind/");
  auth ← lift_result (authenticated request);
  with_body fuel GATEWAY_JSON_BODY_LIMIT_BYTES (λ body,
    unbind_request ← lift_result (map_err bad_json (from_json body));
    reply_json (unbind sv auth (set_unbind_target unbind_request namespace item))).
Definition get_list (request : H3Request) : Handler Reply :=
  let namespace :=
    trim_end_char slash (trim_end_str "/list" (trim_start_str NAMESPACES (h3_path request))) in
  auth ← lift_result (authenticated request);
  r ← lift_result (list_request (query_of request) namespace);
  reply_json (list_op sv auth r).

(** The guards, in the order of the source for each method. *)
Definition route_get (request : H3Request) : Handler Reply :=
  let path := h3_path request in
  if String.eqb path "/.well-known/hsp" then
    lift_result (json_response StatusOk (bootstrap_document sv))
  else if String.eqb path "/v1/info" then lift_result (json_response StatusOk info)
  else if String.eqb path "/metrics" then get_metrics request
  else if String.eqb path "/v1/observability/logs" then get_logs request
  else if starts_with OBJECTS_NAMESPACE path && ends_with "/metadata" path then
    get_namespace_metadata request
  else if starts_with OBJECTS_CID path && ends_with "/metadata" path then get_cid_metadata request
  else if starts_with OBJECTS_NAMESPACE path then get_namespace_object request
  else if starts_with OBJECTS_CID path then get_cid_object request
  else if starts_with NAMESPACES path && str_contains "/resolve/" path then get_resolve request
  else if starts_with NAMESPACES path && ends_with "/list" path then get_list request
  else throw route_not_found.
Definition route_head (request : H3Request) : Handler Reply :=
  let path := h3_path request in
  if starts_with OBJECTS_NAMESPACE path then head_namespace_object request
  else if starts_with OBJECTS_CID path then head_cid_object request
  else throw route_not_found.
Definition route_post (fuel : nat) (request : H3Request) : Handler (option Reply) :=
  let path := h3_path request in
  if String.eqb path "/v1/uploads" then start_upload fuel request
  else if starts_with UPLOADS path && ends_with ":commit" path then commit_upload fuel request
  else throw route_not_found.
Definition route_put (fuel : nat) (request : H3Request) : Handler (option Reply) :=
  let path := h3_path request in
  if starts_with UPLOADS path && str_contains "/chunks/" path then put_upload_chunk fuel request
  else if starts_with NAMESPACES path && str_contains "/bind/" path then put_bind fuel request
  else throw route_not_found.
Definition route_delete (fuel : nat) (request : H3Request) : Handler (option Reply) :=
  let path := h3_path request in
  if starts_with NAMESPACES path && str_contains "/bind/" path then delete_bind fuel request
  else throw route_not_found.

(** [None] when the body of the request has not ended. *)
Definition route_request (fuel : nat) (request : H3Request) : Handler (option Reply) :=
  let method := h3_method request in
  if String.eqb method "GET" then complete (route_get request)
  else if String.eqb method "HEAD" then complete (route_head request)
  else if String.eqb method "POST" then route_post fuel request
  else if String.eqb method "PUT" then route_put fuel request
  else if String.eqb method "DELETE" then route_delete fuel request
  else throw route_not_found.

(** ** The event stream *)

(** The lines of the envelopes of one poll; the result says if there was an event. *)
Fixpoint send_envelopes (envelopes : list SubscribeEnvelope) (emitted_event : bool)
  : ST (hstate X) ApiError bool :=
  match envelopes with
  | [] => mret emitted_event
  | envelope :: rest =>
      let emitted_event :=
        match se_kind envelope with EnvEvent => true | EnvNotice => emitted_event end in
      l ← lift_result (map_err bad_json (to_vec envelope));
      _ ← with_error http3_error (send_data X (l ++ [line_feed]));
      send_envelopes rest emitted_event
  end.

(** [false]: still running. *)
Fixpoint subscribe_loop (fuel round : nat) (auth : AuthContext) (subscribe : SubscribeRequest)
  (cursor : EventCursor) (idle_rounds : Z) : Handler bool :=
  match fuel with
  | O => mret false
  | S fuel' =>
      '(envelopes, cursor) ← on_service (subscribe_poll sv auth subscribe cursor);
      emitted_event ← on_stream (send_envelopes envelopes false);
      let idle_rounds := if (emitted_event : bool) then 0 else idle_rounds + 1 in
      if 20 <=? idle_rounds then
        _ ← on_stream (with_error http3_error (finish X)); mret true
      else
        _ ← on_service (modify (others round));
        subscribe_loop fuel' (S round) auth subscribe cursor idle_rounds
  end.

Definition handle_gateway_subscribe (fuel : nat) (request : H3Request) : Handler bool :=
  auth ← lift_result (authenticated request);
  subscribe ← lift_result (subscribe_request (query_of request));
  cursor ← on_service (subscribe_start sv auth subscribe);
  headers ← lift_result (map_err http_build_error
              (build_headers [("content-type", "application/x-hsp-events+jsonl")]));
  _ ← on_stream (with_error http3_error (send_response X StatusOk headers));
  subscribe_loop fuel 0 auth subscribe cursor 0.

(** ** The requests of a connection *)

(** One turn of the loop of [handle_gateway_connection], for a resolved request:
    [Ok false] is a request that is still being served; an error ends the loop. *)
Definition serve_request (fuel : nat) (request : H3Request) : ST (Exchange X B) string bool :=
  if String.eqb (h3_method request) "GET" && String.eqb (h3_path request) "/v1/events" then
    r ← attempt (handle_gateway_subscribe fuel request);
    match r with
    | Ok done => mret done
    | Err error =>
        reply ← lift_result (error_response error);
        _ ← on_stream (send_reply X reply); mret true
    end
  else
    r ← attempt (route_request fuel request);
    match r with
    | Ok (Some reply) => _ ← on_stream (send_reply X reply); mret true
    | Ok None => mret false
    | Err error =>
        reply ← lift_result (error_response error);
        _ ← on_stream (send_reply X reply); mret true
    end.

(** The requests of a connection, each with its stream, in the order they are
    accepted; a request that does not resolve is skipped by the code and is not in
    the list.  The result has the streams of the requests that were begun. *)
Fixpoint handle_gateway_connection (fuel : nat) (requests : list (H3Request * hstate X))
  (w : World B) : list (hstate X) * World B :=
  match requests with
  | [] => ([], w)
  | (request, x) :: rest =>
      match serve_request fuel request (mkExchange x w) with
      | (Ok true, s) =>
          let '(streams, w') := handle_gateway_connection fuel rest (ex_world s) in
          (ex_stream s :: streams, w')
      | (_, s) => ([ex_stream s], ex_world s)
      end
  end.
End gateway.
