(* ===== verification/ConcreteFront.v ===== *)
(** * Concrete parameters of the two front ends

    JSON readers and writers, TLS exporters and HTTP/3 streams with the documented
    behaviour of the crates, for the witnesses.  They model nothing of the source. *)

From Stdlib Require Import ZArith Lia Ascii String Bool.
From stdpp Require Import base option list strings gmap numbers.
From S2P Require Import Prelude RustStr Path Core Cbor Concrete Auth Crypto Store ServiceState ConcreteService Service SigV4 Http ConcreteHttp Front Native Gateway.

Definition unwritten_json {T} : JsonWrite T := {| to_vec := λ _, Ok (as_bytes "{}") |}.
Definition unread_json {T} : JsonRead T := {| from_json := λ _, Err "expected value" |}.

Definition sample_head_request : HeadRequest :=
  mkHeadRequest "tenant-alpha" (selector_of_cid "sha256-object").

Definition concrete_front : FrontDeps :=
  {| fd_info := unwritten_json;
     fd_head := {| to_vec := λ r, Ok (as_bytes (hr_cid r)) |};
     fd_get_meta := {| to_vec := λ r, Ok (as_bytes (hr_cid (gm_head r))) |};
     fd_resolve := {| to_vec := λ r, Ok (as_bytes (rs_record_cid r)) |};
     fd_bind := {| to_vec := λ r, Ok (as_bytes (bs_record_cid r)) |};
     fd_unbind := {| to_vec := λ r, Ok (as_bytes (us_record_cid r)) |};
     fd_list := unwritten_json; fd_put_init := {| to_vec := λ r, Ok (as_bytes (pr_session_id r)) |};
     fd_put_chunk := unwritten_json;
     fd_put_commit := {| to_vec := λ r, Ok (as_bytes (cmr_object_cid r)) |};
     fd_read_put_init := unread_json; fd_read_put_commit := unread_json;
     fd_read_bind := unread_json; fd_read_unbind := unread_json |}.
(** The only body the native server is given in the witnesses is this request. *)
Definition concrete_native : NativeDeps string :=
  {| nd_read_head := {| from_json := λ _, Ok sample_head_request |};
     nd_read_get := unread_json; nd_read_resolve := unread_json; nd_read_list := unread_json;
     nd_read_subscribe := unread_json;
     get_meta_to_value := λ r, Ok (hr_cid (gm_head r)); value_string := λ s, s;
     put_chunk_from_params := λ _, Err "missing field" |}.
Definition concrete_gateway : GatewayDeps :=
  {| gd_bootstrap := unwritten_json; gd_logs := unwritten_json;
     gd_envelope := {| to_vec := λ e, Ok (as_bytes (match se_event e with
                                                    | Some event => dec (ev_seq event)
                                                    | None => "notice"
                                                    end)) |};
     gd_error := {| to_vec := λ e, Ok (as_bytes (err_code e)) |};
     meta_line := λ r, hr_cid (gm_head r); chunk_line := λ _ data, data |}.

(** Every capability names this tenant. *)
Definition capability_of (tenant : TenantId) : CborPayload CapabilityClaims :=
  {| payload_from_cbor := λ _, Some (claims (sample_token tenant "j1")) |}.

Lemma capability_tenant `{Base64Url, Cose} tenant token registry cl :
  verify_cose_sign1_token (CborPayload0 := capability_of tenant) token registry = Ok cl →
  cl_tenant_id cl = tenant.
Proof.
  unfold verify_cose_sign1_token, verify_cose_sign1_payload. intros (b&_&Hc)%result_bind_ok.
  apply result_bind_ok in Hc as (cose&_&Hc). apply result_bind_ok in Hc as (payload&_&Hc).
  apply result_bind_ok in Hc as (cl'&[= <-]&Hc). apply result_bind_ok in Hc as (issuer&_&Hc).
  apply guard_ok in Hc as [_ Hc]. apply guard_ok in Hc as [_ Hc].
  apply result_bind_ok in Hc as (key&_&Hc). do 4 apply guard_ok in Hc as [_ Hc].
  by injection Hc as <-.
Qed.

(** The exporter returns its context; the headers that go with it. *)
Definition sample_connection : Connection := mkConnection (λ _ context, Some context).
Definition sample_headers : HeaderMap :=
  [("x-hsp-capability", as_bytes (nibbles_encode (as_bytes "token")));
   ("x-hsp-channel-binding-kind", as_bytes "tls-exporter");
   ("x-hsp-channel-binding-proof", as_bytes (nibbles_encode (as_bytes "nonce-1")));
   ("x-hsp-channel-binding-nonce", as_bytes "nonce-1")].
Definition sample_registry : IssuerRegistry :=
  default (mkIssuerRegistry []) (sv_issuer_registry concrete_service).
Definition sample_gateway : GatewayState := mkGatewayState concrete_service sample_registry.
Definition sample_native : NativeState := mkNativeState concrete_service sample_registry.

(** A stream in memory: the data to come and what was sent. *)
Definition mem_h3 : H3Stream :=
  mkH3Stream (list bytes * list H3Sent)
    (λ s, match s.1 with [] => (Ok None, s) | b :: rest => (Ok (Some b), (rest, s.2)) end)
    (λ status headers s, (Ok tt, (s.1, s.2 ++ [SentHead status headers])))
    (λ b s, (Ok tt, (s.1, s.2 ++ [SentData b])))
    (λ s, (Ok tt, (s.1, s.2 ++ [SentEnd]))).
#[export] Instance mem_h3_laws : H3Laws mem_h3.
Proof.
  refine {| h3_sent := λ s : hstate mem_h3, s.2; h3_coming := λ s : hstate mem_h3, s.1 |}; cbn;
    intros; repeat case_match; by simplify_eq/=.
Defined.

Module ToyFront.
#[export] Existing Instances concrete_http concrete_front concrete_native concrete_gateway.
End ToyFront.
