(* ===== verification/NativeProps.v ===== *)
(** * Properties of the native server

    A stream task acts on the world only by calls of the service made for a caller
    it verified against the TLS connection, for the operation the header names; its
    body is bounded by the limit of the operation, and its subscription ends. *)

From Stdlib Require Import ZArith Lia Ascii String Bool.
From stdpp Require Import base option list strings gmap numbers sorting.
From S2P Require Import Prelude RustStr Path Core Cbor CborFacts Concrete Auth Crypto Store ServiceState ServiceFacts Access Namespaces Objects Subscribe ConcreteService EventProps Service Wire WireProps Front Native ConcreteFront.

(** ** The caller *)

Lemma verify_auth_frame_ok `{Base64Url, Cose} `{!CborPayload CapabilityClaims} connection registry f auth :
  verify_auth_frame connection registry f = Ok auth →
  VerifiedCaller connection registry (af_token_b64 f) (af_channel_binding f) auth.
Proof.
  unfold verify_auth_frame. intros (cl&Hcl&H1)%result_bind_ok.
  apply result_bind_ok in H1 as (m&Hm&H1). apply result_bind_ok in H1 as ([]&Hv&[= <-]).
  apply verify_tls_exporter_binding_ok in Hv as [Hk Hp].
  split; [done..|]. exists m. split; [|done].
  destruct (export_keying_material _ _ _); cbn in Hm; congruence.
Qed.

(** ** Calls *)

Section calls.
Context {V : Type} `{WD : WireDeps V} `{ND : NativeDeps V} `{FD : FrontDeps} `{DP : Deps} `{CP : !CborPayload CapabilityClaims}.
Context {B : Backend} (R : Reader) (W : Writer) (state : NativeState) (connection : Connection).
Context (others : nat → World B → World B).
Implicit Types (s : Session R W B) (steps : list TaskStep).
Abbreviation sv := (nv_service state).

(** [reaches s s' steps]: the world of [s'] is what the steps make of that of [s]. *)
Definition reaches s s' steps : Prop :=
  ns_world s' = run_steps sv others steps (ns_world s).

Lemma reaches_same s s' : ns_world s' = ns_world s → reaches s s' [].
Proof. done. Qed.
Lemma reaches_trans s s1 s' l l' : reaches s s1 l → reaches s1 s' l' → reaches s s' (l ++ l').
Proof. unfold reaches. intros H1 ->. by rewrite run_steps_app, <-H1. Qed.

Lemma on_recv_world {A} (m : ST (rstate R) WireCodecError A) s :
  ns_world (on_recv R W m s).2 = ns_world s.
Proof. unfold on_recv, zoom. by destruct (m (ns_recv s)). Qed.
Lemma on_send_world {A} (m : ST (wstate W) WireCodecError A) s :
  ns_world (on_send R W m s).2 = ns_world s.
Proof. unfold on_send, zoom. by destruct (m (ns_send s)). Qed.
Lemma on_world_attempt {A} (m : ST (World B) ApiError A) s :
  on_world R W (attempt m) s
  = (Ok (m (ns_world s)).1 : result WireCodecError _,
     mkSession (ns_recv s) (ns_send s) (m (ns_world s)).2).
Proof. unfold on_world, zoom, attempt. by destruct (m (ns_world s)). Qed.

(** What follows on the stream does not touch the world. *)
Lemma send_then_world {A A'} (m : ST (wstate W) WireCodecError A) (a : A') s :
  ns_world ((_ ← on_send R W m; mret a : ST (Session R W B) WireCodecError A') s).2 = ns_world s.
Proof.
  rewrite ST_bind_run. pose proof (on_send_world m s) as Hw.
  by destruct (on_send R W m s) as [[] ?].
Qed.

(** The steps of a served request: calls of this operation for this caller, and a
    single one if it changes the store. *)
Definition served (auth : option AuthContext) (op : OperationName) steps : Prop :=
  ∀ a c, Calls a c ∈ steps →
    auth = Some a ∧ call_operation c = op ∧ (is_mutation op = true → steps = [Calls a c]).

Lemma served_nil auth op : served auth op [].
Proof. by intros a c ?%elem_of_nil. Qed.
Lemma served_one a c : served (Some a) (call_operation c) [Calls a c].
Proof. by intros a' c' [= -> ->]%list_elem_of_singleton. Qed.
#[local] Hint Resolve served_nil served_one : core.

Lemma respond_reaches {A} (call : ST (World B) ApiError A) render a c s :
  (∀ w, (call w).2 = (run_call sv a c w).2) →
  reaches s (respond R W call render s).2 [Calls a c].
Proof.
  intros Hc. unfold respond. rewrite ST_bind_run, on_world_attempt. unfold reaches.
  rewrite send_then_world. cbn. by rewrite Hc.
Qed.

(** One operation with its two checks. *)
Lemma operation_served {Q A} (auth : option AuthContext) name (q : result WireCodecError Q)
  (call : AuthContext → Q → ST (World B) ApiError A) (c : Q → ServiceCall) op render s :
  (∀ r, call_operation (c r) = op) →
  (∀ a r w, (call a r w).2 = (run_call sv a (c r) w).2) →
  ∃ steps, served auth op steps ∧
    reaches s ((a ← lift_result (required_auth auth name);
                r ← lift_result q;
                respond R W (call a r) render) s).2 steps.
Proof.
  intros Hop Hc. destruct auth as [a|]; [|by exists []]. destruct q as [r|]; [|by exists []].
  exists [Calls a (c r)]. rewrite <-(Hop r). split; [done|]. by apply respond_reaches.
Qed.

Lemma subscription_loop_served fuel round a request cursor idle s :
  ∃ steps, served (Some a) OpSubscribe steps ∧
    reaches s (subscription_loop R W state others fuel round a request cursor idle s).2 steps.
Proof.
  revert round cursor idle s. induction fuel as [|fuel IH]; intros round cursor idle s.
  { by exists []. }
  cbn [subscription_loop]. rewrite ST_bind_run, on_world_attempt.
  set (s1 := mkSession _ _ _).
  assert (reaches s s1 [Calls a (CallSubscribePoll request cursor)]) as H1.
  { unfold reaches, s1. cbn. unfold ignore. rewrite ST_bind_run.
    by destruct (subscribe_poll sv a request cursor (ns_world s)) as [[]]. }
  destruct (subscribe_poll sv a request cursor (ns_world s)).1 as [[envs c']|e].
  2:{ exists [Calls a (CallSubscribePoll request cursor)]. split.
      { by intros a' c' [= -> ->]%list_elem_of_singleton. }
      unfold reaches. rewrite send_then_world. exact H1. }
  rewrite ST_bind_run. pose proof (on_send_world (write_envelopes W envs false) s1) as Hw.
  destruct (on_send R W (write_envelopes W envs false) s1) as [[emitted|e] s2]; cbn in Hw.
  2:{ exists [Calls a (CallSubscribePoll request cursor)]. split.
      { by intros a' c'' [= -> ->]%list_elem_of_singleton. }
      unfold reaches. cbn. by rewrite Hw. }
  cbn zeta. destruct (20 <=? _).
  - exists [Calls a (CallSubscribePoll request cursor)]. split.
    { by intros a' c'' [= -> ->]%list_elem_of_singleton. }
    unfold reaches. rewrite ST_bind_run.
    pose proof (on_send_world (write_frame W (FrGoAway (V:=V) (mkGoAwayFrame "subscribe_idle_timeout"))) s2) as Hw2.
    destruct (on_send R W _ s2) as [[u|e] s3]; cbn in Hw2; [rewrite send_then_world|cbn]; by rewrite Hw2, Hw.
  - rewrite ST_bind_run. cbn [on_world zoom modify].
    destruct (IH (S round) c' (if emitted then 0 else idle + 1)
      (mkSession (ns_recv s2) (ns_send s2) (others round (ns_world s2)))) as (l&Hl&Hr).
    exists ([Calls a (CallSubscribePoll request cursor); Pauses round] ++ l). split.
    + intros a' c'' [Hin|Hin]%elem_of_app; [|by destruct (Hl _ _ Hin) as (?&?&_)].
      apply elem_of_cons in Hin as [[= -> ->]|Hin]; [done|].
      by apply list_elem_of_singleton in Hin.
    + eapply reaches_trans; [|exact Hr]. unfold reaches in *. cbn in *. by rewrite Hw, H1.
Qed.

Lemma subscribe_served fuel auth body s :
  ∃ steps, served auth OpSubscribe steps ∧
    reaches s ((auth ← lift_result (required_auth auth "SUBSCRIBE");
                request ← lift_result (decode_json body);
                r ← on_world R W (attempt (subscribe_start sv auth request));
                match r with
                | Ok cursor =>
                    _ ← on_send R W (write_subscription_header (V:=V) W cursor);
                    subscription_loop R W state others fuel 0 auth request cursor 0
                | Err error => _ ← on_send R W (write_error (V:=V) W error); mret Finished
                end) s).2 steps.
Proof.
  destruct auth as [a|]; [|by exists []].
  destruct (decode_json body) as [request|e] eqn:Hd; [|by exists []].
  unfold required_auth. cbn [ok_or]. rewrite ST_bind_run. unfold lift_result at 1.
  rewrite ST_bind_run. unfold lift_result. rewrite ST_bind_run, on_world_attempt. set (s1 := mkSession _ _ _).
  assert (served (Some a) OpSubscribe [Calls a (CallSubscribeStart request)]) as Hone.
  { by intros a' c' [= -> ->]%list_elem_of_singleton. }
  assert (reaches s s1 [Calls a (CallSubscribeStart request)]) as H1.
  { unfold reaches, s1. cbn. apply ignore_state. }
  destruct (subscribe_start sv a request (ns_world s)).1 as [cursor|e].
  2:{ exists [Calls a (CallSubscribeStart request)]. split; [done|].
      unfold reaches. rewrite send_then_world. exact H1. }
  rewrite ST_bind_run. pose proof (on_send_world (write_subscription_header W cursor) s1) as Hw.
  destruct (on_send R W (write_subscription_header W cursor) s1) as [[u|e] s2]; cbn in Hw.
  2:{ exists [Calls a (CallSubscribeStart request)]. split; [done|]. unfold reaches. cbn. by rewrite Hw. }
  destruct (subscription_loop_served fuel 0 a request cursor 0 s2) as (l&Hl&Hr).
  exists ([Calls a (CallSubscribeStart request)] ++ l). split.
  - intros a' c' [Hin|Hin]%elem_of_app; [|by destruct (Hl _ _ Hin) as (?&?&_)].
    by apply list_elem_of_singleton in Hin as [= -> ->].
  - eapply reaches_trans; [|exact Hr]. unfold reaches in *. by rewrite Hw.
Qed.

Lemma serve_operation_served fuel auth header body s :
  ∃ steps, served auth (rh_operation _ header) steps ∧
    reaches s (serve_operation R W state others fuel auth header body s).2 steps.
Proof.
  unfold serve_operation. destruct (rh_operation _ header).
  - exists []. split; [done|]. unfold reaches. by rewrite send_then_world.
  - apply (operation_served _ _ _ _ CallHead); [done|]. intros. apply ignore_state.
  - apply (operation_served _ _ _ _ CallGet); [done|]. intros. apply ignore_state.
  - apply (operation_served _ _ _ _ CallResolve); [done|]. intros. apply ignore_state.
  - apply (operation_served _ _ _ _ CallBind); [done|]. intros. apply ignore_state.
  - apply (operation_served _ _ _ _ CallUnbind); [done|]. intros. apply ignore_state.
  - apply (operation_served _ _ _ _ CallList); [done|]. intros. apply ignore_state.
  - apply subscribe_served.
  - apply (operation_served _ _ _ _ CallPutInit); [done|]. intros. apply ignore_state.
  - apply (operation_served _ _ _ (λ a r, put_chunk sv a r body) (λ r, CallPutChunk r body));
      [done|]. intros. apply ignore_state.
  - apply (operation_served _ _ _ _ CallPutCommit); [done|]. intros. apply ignore_state.
Qed.

(** The first frames. *)
Lemma accept_request_world s : ns_world (accept_request R W state connection s).2 = ns_world s.
Proof.
  unfold accept_request. rewrite ST_bind_run. pose proof (on_recv_world (read_frame (V:=V) R) s) as Hw.
  destruct (on_recv R W (read_frame R) s) as [[f|e] s1]; cbn in Hw; [|done]. rewrite <-Hw.
  destruct f; try apply send_then_world.
  - case_bool_decide; [done|apply send_then_world].
  - rewrite ST_bind_run. unfold lift_result.
    destruct (map_err _ _) as [a|e]; [|done]. rewrite ST_bind_run.
    pose proof (on_recv_world (read_frame (V:=V) R) s1) as Hw1.
    destruct (on_recv R W (read_frame R) s1) as [[f|e] s2]; cbn in Hw1; [|done]. rewrite <-Hw1.
    destruct f; try apply send_then_world. done.
Qed.

Lemma on_recv_ok {A} (m : ST (rstate R) WireCodecError A) s a s' :
  on_recv R W m s = (Ok a, s') → m (ns_recv s) = (Ok a, ns_recv s').
Proof.
  unfold on_recv, zoom. destruct (m (ns_recv s)) as [r x]. intros [= -> <-]. done.
Qed.

Lemma refused_none {A} (m : ST (wstate W) WireCodecError unit) s (x : A) s' :
  (_ ← on_send R W m; mret None : ST (Session R W B) WireCodecError (option A)) s
  = (Ok (Some x), s') → False.
Proof. intros (u&s1&_&Hr)%ST_bind_ok. by apply ST_ret_ok in Hr as [? _]. Qed.

Lemma accept_request_ok s a header s' :
  accept_request R W state connection s = (Ok (Some (Some a, header)), s') →
  ∃ f r, read_frame R (ns_recv s) = (Ok (FrAuth f), r) ∧
    VerifiedCaller connection (nv_issuer_registry state) (af_token_b64 f) (af_channel_binding f) a ∧
    read_frame R r = (Ok (FrReqHeader header), ns_recv s').
Proof.
  unfold accept_request. intros (f&s1&Hf%on_recv_ok&H2)%ST_bind_ok.
  destruct f; try (by apply refused_none in H2).
  - case_bool_decide; [|by apply refused_none in H2]. by apply ST_ret_ok in H2 as [? _].
  - apply ST_bind_ok in H2 as (a'&s2&Ha&H2). unfold lift_result in Ha. injection Ha as Ha <-.
    apply ST_bind_ok in H2 as (f2&s2&Hf2%on_recv_ok&H2).
    destruct f2; try (by apply refused_none in H2). apply ST_ret_ok in H2 as [[= <- <-] <-].
    exists auth, (ns_recv s1). split_and!; [done| |done]. apply verify_auth_frame_ok.
    destruct (verify_auth_frame _ _ auth); cbn in Ha; congruence.
Qed.

(** The world after a stream: calls for the caller its first frame proves. *)
Lemma stream_calls fuel s :
  ∃ steps,
    ns_world (handle_request_stream R W state connection others fuel s).2
      = run_steps sv others steps (ns_world s) ∧
    ∀ a c, Calls a c ∈ steps → ∃ f header r r',
      read_frame R (ns_recv s) = (Ok (FrAuth f), r) ∧
      VerifiedCaller connection (nv_issuer_registry state) (af_token_b64 f) (af_channel_binding f) a ∧
      read_frame R r = (Ok (FrReqHeader header), r') ∧ call_operation c = rh_operation V header ∧
      (is_mutation (call_operation c) = true → steps = [Calls a c]).
Proof.
  unfold handle_request_stream. rewrite ST_bind_run. pose proof (accept_request_world s) as Hw.
  destruct (accept_request R W state connection s) as [[[[auth header]|]|e] s1] eqn:Ha; cbn in Hw;
    [|exists []; split; [exact Hw|by intros ?? ?%elem_of_nil]..].
  rewrite ST_bind_run.
  pose proof (on_recv_world (read_body (V:=V) R fuel (native_body_limit header) []) s1) as Hw1.
  destruct (on_recv R W (read_body R fuel _ []) s1) as [[[body|]|e] s2]; cbn in Hw1;
    [|exists []; split; [by rewrite <-Hw|by intros ?? ?%elem_of_nil]..].
  destruct (serve_operation_served fuel auth header body s2) as (steps&Hs&Hr).
  exists steps. unfold reaches in Hr. rewrite Hw1, Hw in Hr. split; [exact Hr|].
  intros a c (->&Hop&Hm)%Hs. apply accept_request_ok in Ha as (f&r&Hf&Hv&Hh).
  rewrite Hop. by eexists f, header, r, _.
Qed.

(** C16: what a stream can do.  Whatever bytes arrive on a stream, its task changes
    the world only by calls of the service (and by what the other tasks do while a
    subscription pauses): every call is made for a caller whose capability is signed
    by a registered issuer and whose proof is the exporter of this connection, both
    from the AUTH frame that opens the stream, it is a call of the operation the
    REQ_HEADER behind it names, and an operation that changes the store is called
    once. *)
Theorem native_refines_calls fuel s :
  ∃ steps,
    ns_world (handle_request_stream R W state connection others fuel s).2
      = run_steps sv others steps (ns_world s) ∧
    ∀ a c, Calls a c ∈ steps → ∃ f header r r',
      read_frame R (ns_recv s) = (Ok (FrAuth f), r) ∧
      VerifiedCaller connection (nv_issuer_registry state) (af_token_b64 f) (af_channel_binding f) a ∧
      read_frame R r = (Ok (FrReqHeader header), r') ∧ call_operation c = rh_operation V header ∧
      (is_mutation (call_operation c) = true → steps = [Calls a c]).
Proof. apply stream_calls. Qed.
End calls.

(** ** Bodies *)

Section bodies.
Context {V : Type} `{WD : WireDeps V} (R : Reader) `{RL : !ReaderLaws R}.

(** A frame takes at least its header off the stream. *)
Lemma read_frame_consumes r f r' :
  read_frame (V:=V) R r = (Ok f, r') → (length (coming r') + FRAME_HEADER_LEN <= length (coming r))%nat.
Proof.
  unfold read_frame. intros (header&r1&Hh%io_ok%read_exact_ok&Hf)%ST_bind_ok.
  destruct Hh as [Hl Hc]. rewrite Hc, length_app, Hl.
  apply ST_bind_ok in Hf as (ft&r2&Ht&Hf). unfold lift_result in Ht. injection Ht as _ <-.
  apply ST_bind_ok in Hf as (u&r2&Hu&Hf). unfold lift_result in Hu. injection Hu as _ <-.
  apply ST_bind_ok in Hf as (payload&r2&Hp&Hf). unfold lift_result in Hf. injection Hf as _ <-.
  destruct (0 <? _).
  - apply io_ok, read_exact_ok in Hp as [_ Hp]. rewrite Hp, length_app. lia.
  - apply ST_ret_ok in Hp as [_ <-]. lia.
Qed.

(** The body of a request ends when the stream does. *)
Lemma read_body_ends fuel limit body r :
  (length (coming r) < fuel)%nat → (read_body (V:=V) R fuel limit body r).1 ≠ Ok None.
Proof.
  revert body r. induction fuel as [|fuel IH]; intros body r Hf; [lia|]. cbn [read_body].
  rewrite ST_bind_run. destruct (read_frame R r) as [[f|e] r'] eqn:Hr; [|done].
  apply read_frame_consumes in Hr. unfold FRAME_HEADER_LEN in Hr.
  destruct f; try done. destruct (_ <? _); [done|]. apply IH. lia.
Qed.

(** The body is the data up to the END frame, and never longer than the limit. *)
Theorem read_body_bounded (header : ReqHeader V) fuel r body r' :
  read_body (V:=V) R fuel (native_body_limit header) [] r = (Ok (Some body), r') →
  len_u64 body <= native_body_limit header ∧
  ∃ chunks, body = concat chunks ∧
    read_frames (V:=V) R (S (length chunks)) r = (Ok ((FrData <$> chunks) ++ [FrEnd]), r').
Proof.
  assert (0 <= native_body_limit header < u64_max) as Hlimit.
  { unfold native_body_limit. by destruct (rh_operation V header). }
  revert Hlimit. generalize (native_body_limit header). intros limit Hlimit.
  assert (∀ acc r, len_u64 acc <= limit →
    read_body (V:=V) R fuel limit acc r = (Ok (Some body), r') →
    len_u64 body <= limit ∧ ∃ chunks, body = acc ++ concat chunks ∧
      read_frames (V:=V) R (S (length chunks)) r = (Ok ((FrData <$> chunks) ++ [FrEnd]), r')) as Hgen.
  { induction fuel as [|fuel IH]; intros acc x Hacc; cbn [read_body].
    { by intros [? _]%ST_ret_ok. }
    intros (f&x1&Hf&Hb)%ST_bind_ok. destruct f; try done.
    - destruct (Z.ltb_spec limit (u64_sat_add (len_u64 acc) (len_u64 b))) as [|Hle]; [done|].
      apply IH in Hb as (Hlen&chunks&->&Hr).
      + split; [done|]. exists (b :: chunks). split; [by rewrite <-(assoc_L (++))|].
        cbn [length]. change (read_frames (V:=V) R (S (S (length chunks)))) with
          (f ← read_frame (V:=V) R; rest ← read_frames R (S (length chunks)); mret (f :: rest)).
        by rewrite ST_bind_run, Hf, ST_bind_run, Hr.
      + unfold u64_sat_add, len_u64 in *. rewrite length_app. lia.
    - apply ST_ret_ok in Hb as [[= <-] <-]. split; [done|]. exists []. rewrite app_nil_r. split; [done|].
      cbn. by rewrite ST_bind_run, Hf. }
  intros Hb. apply Hgen in Hb; [done|]. apply Hlimit.
Qed.
End bodies.

(** ** Subscriptions *)

Section subscriptions.
Context {V : Type} `{WD : WireDeps V} `{ND : NativeDeps V} `{FD : FrontDeps} `{DL : DepsLaws}.
Context `{CP : !CborPayload CapabilityClaims} {B : Backend} `{BL : BackendLaws B}.
Context (R : Reader) (W : Writer) (state : NativeState).
Abbreviation sv := (nv_service state).

(** Writing a poll says whether it delivered an event. *)
Lemma write_events_emitted evs x b x' :
  write_envelopes (V:=V) W (map (λ ev, mkSubscribeEnvelope EnvEvent (Some ev) None) evs) true x
  = (Ok b, x') → b = true.
Proof.
  revert x. induction evs as [|ev evs IH]; intros x; cbn; [by intros [<- _]%ST_ret_ok|].
  intros (u&x1&_&Hw)%ST_bind_ok. by eapply IH.
Qed.
Lemma write_envelopes_emitted delivered envs x b x' :
  envelopes_of delivered envs → write_envelopes (V:=V) W envs false x = (Ok b, x') →
  b = negb (bool_decide (delivered = [])).
Proof.
  unfold envelopes_of. destruct delivered as [|ev evs].
  - intros [notice ->]. cbn. intros (u&x1&_&Hw)%ST_bind_ok. by apply ST_ret_ok in Hw as [<- _].
  - intros ->. cbn. intros (u&x1&_&Hw)%ST_bind_ok. by apply write_events_emitted in Hw.
Qed.

Lemma subscription_loop_ends t others logs final auth request fuel round c idle
  (s : Session R W B) :
  feed sv t others logs final → sq_tenant_id request = t → 1 <= ec_next_seq c →
  log_refines sv (files (ns_world s)) t (logs round) → 0 <= idle < 20 →
  20 * Z.of_nat (length (ahead request final (ec_next_seq c))) + (20 - idle) <= Z.of_nat fuel →
  (subscription_loop (V:=V) R W state others fuel round auth request c idle s).1 ≠ Ok Running.
Proof.
  intros Hfeed Ht. revert round c idle s.
  induction fuel as [|fuel IH]; intros round c idle s Hc Hlog Hidle Hfuel; [lia|].
  cbn [subscription_loop]. rewrite ST_bind_run, on_world_attempt.
  destruct (subscribe_poll sv auth request c (ns_world s)) as [[[envs c']|e] w1] eqn:Hp; cbn [fst snd].
  2:{ rewrite ST_bind_run. by destruct (on_send _ _ _ _) as [[] ?]. }
  destruct (feed_poll sv t others logs final Hfeed auth request round c _ _ _ _ Ht Hc Hlog Hp)
    as (Hlog1&Hc1&delivered&Hd&Hahead&Hsame).
  rewrite ST_bind_run. set (s1 := mkSession _ _ _).
  pose proof (on_send_world R W (write_envelopes (V:=V) W envs false) s1) as Hw.
  destruct (on_send R W (write_envelopes W envs false) s1) as [[b|e] s2] eqn:Hs; [|done]. cbn in Hw.
  assert (b = negb (bool_decide (delivered = []))) as ->.
  { unfold on_send, zoom in Hs. destruct (write_envelopes W envs false _) as [r x] eqn:Hx.
    injection Hs as -> <-. by eapply write_envelopes_emitted. }
  cbn zeta. destruct (Z.leb_spec 20 (if negb (bool_decide (delivered = [])) then 0 else idle + 1)).
  { rewrite ST_bind_run. destruct (on_send R W _ s2) as [[] s0]; [|done]. rewrite ST_bind_run.
    destruct (on_send R W _ s0) as [[] ?]; done. }
  rewrite ST_bind_run. cbn [on_world zoom modify].
  apply IH; cbn [ns_world].
  - done.
  - apply (fe_grow _ _ _ _ _ Hfeed). by rewrite Hw.
  - case_bool_decide; cbn in *; lia.
  - rewrite Hahead, length_app in Hfuel. case_bool_decide as Hn; cbn [negb] in *.
    + rewrite Hn in Hfuel. cbn in Hfuel. lia.
    + destruct delivered; [done|]. cbn [length] in Hfuel. lia.
Qed.

(** C20: a subscription ends.  Whatever the other tasks do, as long as the log of the
    tenant stays a prefix of one final log, the loop of a subscription runs for at
    most twenty rounds for each matching event still to come and twenty more: the
    task does not outlive an idle tenant. *)
Theorem native_subscription_terminates t others logs final auth request fuel c (s : Session R W B) :
  feed sv t others logs final → sq_tenant_id request = t → 1 <= ec_next_seq c →
  log_refines sv (files (ns_world s)) t (logs 0%nat) →
  20 * (Z.of_nat (length (ahead request final (ec_next_seq c))) + 1) <= Z.of_nat fuel →
  (subscription_loop (V:=V) R W state others fuel 0 auth request c 0 s).1 ≠ Ok Running.
Proof.
  intros Hfeed Ht Hc Hlog Hfuel. eapply subscription_loop_ends; [done..| |]; lia.
Qed.
End subscriptions.

(** ** Refusals *)

Section refusals.
Context {V : Type} `{WD : WireDeps V} `{ND : NativeDeps V} `{FD : FrontDeps} `{DP : Deps} `{CP : !CborPayload CapabilityClaims}.
Context {B : Backend} (R : Reader) (W : Writer) (state : NativeState) (connection : Connection).
Context (others : nat → World B → World B).

(** a failed AUTH frame is not answered.  When the capability or the channel
    binding of the first frame does not verify, the task ends with an error of its
    own and writes nothing: no ERROR frame tells the client the category or the code
    of the refusal. *)
Theorem native_auth_failure_unanswered fuel f error r (s : Session R W B) :
  read_frame (V:=V) R (ns_recv s) = (Ok (FrAuth f), r) →
  verify_auth_frame connection (nv_issuer_registry state) f = Err error →
  handle_request_stream (V:=V) R W state connection others fuel s
  = (Err (InvalidFrame (err_code error +:+ ": " +:+ err_message error)),
     mkSession r (ns_send s) (ns_world s)).
Proof.
  intros Hf Hv. unfold handle_request_stream, accept_request. rewrite !ST_bind_run.
  unfold on_recv, zoom. rewrite Hf, ST_bind_run. unfold lift_result. by rewrite Hv.
Qed.
End refusals.

Import ToyService ToyWire ToyFront.
#[local] Instance sample_capability : CborPayload CapabilityClaims := capability_of "tenant-alpha".

Definition log_session : Session mem_reader mem_writer (fs_backend no_faults) :=
  @mkSession mem_reader mem_writer _ [] [] second_append.2.

(** Witness of C20: a log that does not grow, with one matching event ahead. *)
Lemma native_subscription_terminates_witness :
  (subscription_loop (V:=string) mem_reader mem_writer sample_native (λ _ w, w) 40 0
     (sample_token "tenant-alpha" "j1") (sample_subscription 2) (mkEventCursor "tenant-alpha" 1) 0
     log_session).1 ≠ Ok Running.
Proof.
  apply (native_subscription_terminates (V:=string) mem_reader mem_writer sample_native "tenant-alpha"
           (λ _ w, w) (λ _, sample_log) sample_log).
  - split; [done|done|reflexivity].
  - reflexivity.
  - cbn. lia.
  - exact sample_log_refined.
  - vm_compute. congruence.
Defined.
