(* ===== verification/GatewayProps.v ===== *)
(** * Properties of the gateway

    Whatever a client sends, the gateway acts on the world only by calls of the
    service made for the caller its headers prove, by the method that fits the
    operation; the event stream carries the matching events of the log in order. *)

From Stdlib Require Import ZArith Lia Ascii String Bool.
From stdpp Require Import base option list strings gmap numbers sorting.
From S2P Require Import Prelude RustStr Path Core Cbor CborFacts Concrete Auth Crypto Store ServiceState Observability ServiceFacts Access Namespaces Objects Subscribe ConcreteService EventProps Service AmzDate SigV4 UrlStr Http Front Gateway ConcreteFront.

(** ** The caller *)

Definition auth_headers (headers : HeaderMap) (token_b64 : string) (binding : ChannelBindingProof)
  : Prop :=
  required_header headers "x-hsp-capability" = Ok token_b64 ∧
  required_header headers "x-hsp-channel-binding-kind" = Ok (cb_binding_kind binding) ∧
  required_header headers "x-hsp-channel-binding-proof" = Ok (cb_proof_b64 binding) ∧
  required_header headers "x-hsp-channel-binding-nonce" = Ok (cb_nonce binding).

Lemma verify_gateway_auth_ok `{Base64Url, Cose} `{!CborPayload CapabilityClaims}
  connection headers registry auth :
  verify_gateway_auth connection headers registry = Ok auth →
  ∃ token binding, auth_headers headers token binding ∧
    VerifiedCaller connection registry token binding auth.
Proof.
  unfold verify_gateway_auth. intros (token&Ht&Hr)%result_bind_ok.
  apply result_bind_ok in Hr as (kind&Hk&Hr). apply result_bind_ok in Hr as (proof&Hp&Hr).
  apply result_bind_ok in Hr as (nonce&Hn&Hr). apply result_bind_ok in Hr as (cl&Hc&Hr).
  apply result_bind_ok in Hr as (m&Hm&Hr). apply result_bind_ok in Hr as ([]&Hv&[= <-]).
  apply verify_tls_exporter_binding_ok in Hv as [Hvk Hvp].
  exists token, (mkChannelBindingProof kind proof nonce). split; [done|].
  split; [done..|]. exists m. split; [|done].
  destruct (export_keying_material _ _ _); cbn in Hm; congruence.
Qed.

(** ** Calls *)

(** The operations a method reaches. *)
Definition method_allows (method : string) (op : OperationName) : bool :=
  match op with
  | OpInfo => false
  | OpHead => String.eqb method "GET" || String.eqb method "HEAD"
  | OpGet | OpResolve | OpList | OpSubscribe => String.eqb method "GET"
  | OpPutInit | OpPutCommit => String.eqb method "POST"
  | OpPutChunk | OpBind => String.eqb method "PUT"
  | OpUnbind => String.eqb method "DELETE"
  end.

Section calls.
Context `{HD : HttpDeps} `{GD : GatewayDeps} `{FD : FrontDeps} `{DP : Deps} `{CP : !CborPayload CapabilityClaims}.
Context {B : Backend} (X : H3Stream) (state : GatewayState) (connection : Connection).
Context (others : nat → World B → World B).
Abbreviation sv := (gw_service state).

Lemma on_service_run {E A} (m : ST (World B) E A) (s : Exchange X B) :
  on_service X m s = ((m (ex_world s)).1, mkExchange (ex_stream s) (m (ex_world s)).2).
Proof. unfold on_service, zoom. by destruct (m (ex_world s)). Qed.
Lemma on_stream_world {E A} (m : ST (hstate X) E A) (s : Exchange X B) :
  ex_world (on_stream X m s).2 = ex_world s.
Proof. unfold on_stream, zoom. by destruct (m (ex_stream s)). Qed.

(** [one_call request m]: [m] leaves the world alone or makes one call for the
    caller the headers of the request prove. *)
Definition caller_of (request : H3Request) (a : AuthContext) : Prop :=
  ∃ token binding, auth_headers (h3_headers request) token binding ∧
    VerifiedCaller connection (gw_issuer_registry state) token binding a.
Definition one_call {E A} (request : H3Request) (m : ST (Exchange X B) E A) : Prop :=
  ∀ s, ex_world (m s).2 = ex_world s ∨
    ∃ a c, caller_of request a ∧ method_allows (h3_method request) (call_operation c) = true ∧
      ex_world (m s).2 = (run_call sv a c (ex_world s)).2.
Implicit Types request : H3Request.

Lemma one_call_throw {E A} request (e : E) : one_call (A:=A) request (throw e).
Proof. intros s. by left. Qed.
Lemma one_call_lift {E A} request (r : result E A) : one_call request (lift_result r).
Proof. intros s. by left. Qed.
Lemma one_call_bind {E A A'} request (r : result E A) (k : A → ST (Exchange X B) E A') :
  (∀ x, r = Ok x → one_call request (k x)) → one_call request (lift_result r ≫= k).
Proof.
  intros Hk s. rewrite ST_bind_run. unfold lift_result. destruct r as [x|e]; [by apply Hk|by left].
Qed.
Lemma one_call_auth {A'} request (k : AuthContext → ST (Exchange X B) ApiError A') :
  (∀ a, caller_of request a → one_call request (k a)) →
  one_call request (lift_result (authenticated state connection request) ≫= k).
Proof.
  intros Hk. apply one_call_bind. intros a Ha. by apply Hk, verify_gateway_auth_ok.
Qed.
Lemma one_call_service {A A'} request a c (call : ST (World B) ApiError A)
  (render : A → result ApiError A') :
  caller_of request a → method_allows (h3_method request) (call_operation c) = true →
  (∀ w, (call w).2 = (run_call sv a c w).2) →
  one_call request (response ← on_service X call; lift_result (render response)).
Proof.
  intros Ha Hm Hc s. right. exists a, c. split_and!; [done..|].
  rewrite ST_bind_run, on_service_run. rewrite <-Hc. by destruct (call (ex_world s)) as [[] ?].
Qed.
Lemma one_call_gets {A A'} request (f : World B → A) (render : A → result ApiError A') :
  one_call request (response ← on_service X (gets f); lift_result (render response)).
Proof. intros s. by left. Qed.
Lemma one_call_complete request (m : ST (Exchange X B) ApiError Reply) :
  one_call request m → one_call request (complete X m).
Proof.
  intros Hm s. unfold complete. rewrite ST_bind_run. specialize (Hm s).
  by destruct (m s) as [[] ?].
Qed.
Lemma one_call_stream {E A A'} request (m : ST (hstate X) E A) (k : A → ST (Exchange X B) E A') :
  (∀ x, one_call request (k x)) → one_call request (on_stream X m ≫= k).
Proof.
  intros Hk s. rewrite ST_bind_run. pose proof (on_stream_world m s) as Hw.
  destruct (on_stream X m s) as [[x|e] s1]; cbn in Hw; [|by left]. rewrite <-Hw. apply Hk.
Qed.
Lemma one_call_body request fuel limit next :
  (∀ body, one_call request (next body)) → one_call request (with_body (B:=B) X fuel limit next).
Proof.
  intros Hn. apply one_call_stream. intros [body|]; [by apply one_call_complete|].
  intros s. by left.
Qed.
End calls.

Ltac unfold_routes :=
  unfold route_get, route_head, route_post, route_put, route_delete, get_metrics, get_logs,
    start_upload, get_namespace_metadata, get_cid_metadata, get_namespace_object,
    head_namespace_object, get_cid_object, head_cid_object, put_upload_chunk, commit_upload,
    get_resolve, put_bind, delete_bind, get_list.

(** Walk through a route to its call. *)
Ltac one_call_step :=
  lazymatch goal with
  | |- one_call _ _ _ _ (if _ then _ else _) => case_match
  | |- one_call _ _ _ _ (throw _) => apply one_call_throw
  | |- one_call _ _ _ _ (lift_result (authenticated _ _ _) ≫= _) =>
      apply one_call_auth; intros ?a ?Ha
  | |- one_call _ _ _ _ (lift_result _ ≫= _) => apply one_call_bind; intros ? _
  | |- one_call _ _ _ _ (lift_result _) => apply one_call_lift
  | |- one_call _ _ _ _ (with_body _ _ _ _) => apply one_call_body; intros ?body
  | |- one_call _ _ _ _ (let '(_, _) := ?x in _) => destruct x
  end.
Ltac one_call_walk := repeat (cbn zeta; one_call_step).

Section routes.
Context `{HD : HttpDeps} `{GD : GatewayDeps} `{FD : FrontDeps} `{DP : Deps} `{CP : !CborPayload CapabilityClaims}.
Context {B : Backend} (X : H3Stream) (state : GatewayState) (connection : Connection).
Context (others : nat → World B → World B).
Abbreviation sv := (gw_service state).

(** The call a route ends with. *)
Ltac one_call_end Hm :=
  unfold reply_json;
  let done_with a c :=
    apply (one_call_service _ _ _ _ a c); [done|by rewrite Hm|intros; apply ignore_state] in
  lazymatch goal with
  | |- context [on_service _ (gets _)] => apply one_call_gets
  | |- context [on_service _ (head _ ?a ?r)] => done_with a (CallHead r)
  | |- context [on_service _ (get _ ?a ?r)] => done_with a (CallGet r)
  | |- context [on_service _ (resolve_op _ ?a ?r)] => done_with a (CallResolve r)
  | |- context [on_service _ (list_op _ ?a ?r)] => done_with a (CallList r)
  | |- context [on_service _ (bind _ ?a ?r)] => done_with a (CallBind r)
  | |- context [on_service _ (unbind _ ?a ?r)] => done_with a (CallUnbind r)
  | |- context [on_service _ (put_init _ ?a ?r)] => done_with a (CallPutInit r)
  | |- context [on_service _ (put_chunk _ ?a ?r ?b)] => done_with a (CallPutChunk r b)
  | |- context [on_service _ (put_commit _ ?a ?r)] => done_with a (CallPutCommit r)
  end.

Lemma route_get_one request :
  h3_method request = "GET" →
  one_call (B:=B) X state connection request (route_get X state connection request).
Proof. intros Hm. unfold_routes. one_call_walk; one_call_end Hm. Qed.
Lemma route_head_one request :
  h3_method request = "HEAD" →
  one_call (B:=B) X state connection request (route_head X state connection request).
Proof. intros Hm. unfold_routes. one_call_walk; one_call_end Hm. Qed.
Lemma route_post_one fuel request :
  h3_method request = "POST" →
  one_call (B:=B) X state connection request (route_post X state connection fuel request).
Proof. intros Hm. unfold_routes. one_call_walk; one_call_end Hm. Qed.
Lemma route_put_one fuel request :
  h3_method request = "PUT" →
  one_call (B:=B) X state connection request (route_put X state connection fuel request).
Proof. intros Hm. unfold_routes. one_call_walk; one_call_end Hm. Qed.
Lemma route_delete_one fuel request :
  h3_method request = "DELETE" →
  one_call (B:=B) X state connection request (route_delete X state connection fuel request).
Proof. intros Hm. unfold_routes. one_call_walk; one_call_end Hm. Qed.

Lemma route_request_one fuel request :
  one_call (B:=B) X state connection request (route_request X state connection fuel request).
Proof.
  unfold route_request. cbn zeta.
  destruct (String.eqb_spec (h3_method request) "GET"); [by apply one_call_complete, route_get_one|].
  destruct (String.eqb_spec (h3_method request) "HEAD"); [by apply one_call_complete, route_head_one|].
  destruct (String.eqb_spec (h3_method request) "POST"); [by apply route_post_one|].
  destruct (String.eqb_spec (h3_method request) "PUT"); [by apply route_put_one|].
  destruct (String.eqb_spec (h3_method request) "DELETE"); [by apply route_delete_one|].
  apply one_call_throw.
Qed.

(** ** Event streams *)

(** The steps of a request: calls its headers and method allow, and a single one if
    it changes the store. *)
Definition served request (steps : list TaskStep) : Prop :=
  ∀ a c, Calls a c ∈ steps →
    caller_of state connection request a ∧
    method_allows (h3_method request) (call_operation c) = true ∧
    (is_mutation (call_operation c) = true → steps = [Calls a c]).

Lemma subscribe_loop_steps fuel round a subscribe cursor idle (s : Exchange X B) :
  ∃ steps, (∀ a' c, Calls a' c ∈ steps → a' = a ∧ call_operation c = OpSubscribe) ∧
    ex_world (subscribe_loop X state others fuel round a subscribe cursor idle s).2
    = run_steps sv others steps (ex_world s).
Proof.
  revert round cursor idle s. induction fuel as [|fuel IH]; intros round cursor idle s.
  { exists []. split; [by intros ?? ?%elem_of_nil|done]. }
  assert (∀ a' c, Calls a' c ∈ [Calls a (CallSubscribePoll subscribe cursor)] →
                  a' = a ∧ call_operation c = OpSubscribe) as Hone.
  { by intros a' c [= -> ->]%list_elem_of_singleton. }
  cbn [subscribe_loop]. rewrite ST_bind_run, on_service_run.
  pose proof (ignore_state (subscribe_poll sv a subscribe cursor) (ex_world s)) as Hi.
  destruct (subscribe_poll sv a subscribe cursor (ex_world s)) as [[[envs c']|e] w1]; cbn [fst snd] in *.
  2:{ exists [Calls a (CallSubscribePoll subscribe cursor)]. by split. }
  rewrite ST_bind_run. set (s1 := mkExchange _ w1).
  pose proof (on_stream_world X (send_envelopes X envs false) s1) as Hw.
  destruct (on_stream X (send_envelopes X envs false) s1) as [[emitted|e] s2]; cbn in Hw.
  2:{ exists [Calls a (CallSubscribePoll subscribe cursor)]. split; [done|]. cbn. by rewrite Hw. }
  cbn zeta. destruct (20 <=? _).
  - exists [Calls a (CallSubscribePoll subscribe cursor)]. split; [done|]. rewrite ST_bind_run.
    pose proof (on_stream_world X (with_error http3_error (finish X)) s2) as Hw2.
    destruct (on_stream X _ s2) as [[u|e] s3]; cbn in Hw2 |- *; by rewrite Hw2, Hw.
  - rewrite ST_bind_run, on_service_run. cbn [fst snd modify].
    destruct (IH (S round) c' (if emitted then 0 else idle + 1)
      (mkExchange (ex_stream s2) (others round (ex_world s2)))) as (l&Hl&Hr).
    exists ([Calls a (CallSubscribePoll subscribe cursor); Pauses round] ++ l). split.
    + intros a' c [Hin|Hin]%elem_of_app; [|by apply Hl].
      apply elem_of_cons in Hin as [[= -> ->]|Hin]; [done|]. by apply list_elem_of_singleton in Hin.
    + etrans; [exact Hr|]. cbn. by rewrite Hw, Hi.
Qed.

Lemma caller_served request a steps :
  caller_of state connection request a → h3_method request = "GET" →
  (∀ a' c, Calls a' c ∈ steps → a' = a ∧ call_operation c = OpSubscribe) → served request steps.
Proof.
  intros Ha Hm Hs a' c Hin. destruct (Hs _ _ Hin) as [-> ->]. by rewrite Hm.
Qed.
Lemma gw_served_nil request : served request [].
Proof. by intros ?? ?%elem_of_nil. Qed.

Lemma handle_gateway_subscribe_served fuel request (s : Exchange X B) :
  h3_method request = "GET" →
  ∃ steps, served request steps ∧
    ex_world (handle_gateway_subscribe X state connection others fuel request s).2
    = run_steps sv others steps (ex_world s).
Proof.
  intros Hm. unfold handle_gateway_subscribe. rewrite ST_bind_run. unfold lift_result at 1.
  destruct (authenticated state connection request) as [a|e] eqn:Ha;
    [|exists []; split; [apply gw_served_nil|done]].
  apply verify_gateway_auth_ok in Ha. rewrite ST_bind_run. unfold lift_result at 1.
  destruct (subscribe_request _) as [subscribe|e]; [|exists []; split; [apply gw_served_nil|done]].
  set (start := [Calls a (CallSubscribeStart subscribe)]).
  assert (∀ a' c, Calls a' c ∈ start → a' = a ∧ call_operation c = OpSubscribe) as Hone.
  { by intros a' c [= -> ->]%list_elem_of_singleton. }
  rewrite ST_bind_run, on_service_run.
  pose proof (ignore_state (subscribe_start sv a subscribe) (ex_world s)) as Hi.
  destruct (subscribe_start sv a subscribe (ex_world s)) as [[cursor|e] w1]; cbn [fst snd] in *.
  2:{ exists start. split; [by eapply caller_served|done]. }
  rewrite ST_bind_run. unfold lift_result. destruct (map_err _ _) as [headers|e].
  2:{ exists start. split; [by eapply caller_served|done]. }
  rewrite ST_bind_run. set (s1 := mkExchange _ w1).
  pose proof (on_stream_world X (with_error http3_error (send_response X StatusOk headers)) s1) as Hw.
  destruct (on_stream X _ s1) as [[u|e] s2]; cbn in Hw.
  2:{ exists start. split; [by eapply caller_served|]. cbn. by rewrite Hw. }
  destruct (subscribe_loop_steps fuel 0 a subscribe cursor 0 s2) as (l&Hl&Hr).
  exists (start ++ l). split.
  - eapply caller_served; [done..|]. intros a' c [?|?]%elem_of_app; auto.
  - etrans; [exact Hr|]. cbn. by rewrite Hw, Hi.
Qed.

(** What follows a handler on the stream leaves the world alone. *)
Lemma gw_send_then_world {A} (m : ST (hstate X) string unit) (b : A) (s : Exchange X B) :
  ex_world ((_ ← on_stream X m; mret b : ST (Exchange X B) string A) s).2 = ex_world s.
Proof.
  rewrite ST_bind_run. pose proof (on_stream_world X m s) as Hw. by destruct (on_stream X m s) as [[] ?].
Qed.
Lemma answer_error_world error (s : Exchange X B) :
  ex_world ((reply ← lift_result (error_response error); _ ← on_stream X (send_reply X reply); mret true
             : ST (Exchange X B) string bool) s).2 = ex_world s.
Proof.
  rewrite ST_bind_run. unfold lift_result. destruct (error_response error); [apply gw_send_then_world|done].
Qed.

Lemma serve_request_served fuel request (s : Exchange X B) :
  ∃ steps, served request steps ∧
    ex_world (serve_request X state connection others fuel request s).2
    = run_steps sv others steps (ex_world s).
Proof.
  unfold serve_request. destruct (_ && _) eqn:Hp.
  - apply andb_true_iff in Hp as [Hm%String.eqb_eq _].
    destruct (handle_gateway_subscribe_served fuel request s Hm) as (steps&Hs&Hr).
    exists steps. split; [done|]. rewrite <-Hr, ST_bind_run. unfold attempt.
    destruct (handle_gateway_subscribe _ _ _ _ _ _ s) as [[b|e] s1]; [done|]. apply answer_error_world.
  - pose proof (route_request_one fuel request s) as Ho. rewrite ST_bind_run. unfold attempt.
    destruct (route_request X state connection fuel request s) as [r s1]; cbn [fst snd] in Ho.
    assert (∃ steps, served request steps ∧ ex_world s1 = run_steps sv others steps (ex_world s))
      as (steps&Hs&Hr).
    { destruct Ho as [Ho|(a&c&Ha&Hm&Ho)]; [exists []; by split; [apply gw_served_nil|]|].
      exists [Calls a c]. split; [|done]. by intros a' c' [= -> ->]%list_elem_of_singleton. }
    exists steps. split; [done|]. rewrite <-Hr.
    destruct r as [[reply|]|e]; [apply gw_send_then_world|done|apply answer_error_world].
Qed.

(** What a connection can do: the calls of its requests, each for the caller the
    headers of a request prove. *)
Theorem gateway_refines_calls fuel requests (w : World B) :
  ∃ steps,
    (handle_gateway_connection X state connection others fuel requests w).2
      = run_steps sv others steps w ∧
    ∀ a c, Calls a c ∈ steps → ∃ request x, (request, x) ∈ requests ∧
      caller_of state connection request a ∧
      method_allows (h3_method request) (call_operation c) = true.
Proof.
  revert w. induction requests as [|[request x] requests IH]; intros w; cbn [handle_gateway_connection].
  { exists []. split; [done|]. by intros ?? ?%elem_of_nil. }
  destruct (serve_request_served fuel request (mkExchange x w)) as (l&Hl&Hr).
  assert (∀ a c, Calls a c ∈ l → ∃ r y, (r, y) ∈ (request, x) :: requests ∧
    caller_of state connection r a ∧ method_allows (h3_method r) (call_operation c) = true) as Hl'.
  { intros a c (Ha&Hm&_)%Hl. exists request, x. by split; [apply list_elem_of_here|]. }
  destruct (serve_request _ _ _ _ _ _ _) as [[[]|e] s]; cbn [fst snd ex_world] in Hr;
    [|by exists l..].
  destruct (IH (ex_world s)) as (l2&Hw&Hl2).
  destruct (handle_gateway_connection _ _ _ _ _ requests _) as [streams w'] eqn:Hc. cbn [fst snd] in *.
  exists (l ++ l2). split; [by rewrite run_steps_app, <-Hr|].
  intros a c [?|(r&y&Hin&?)%Hl2]%elem_of_app; [by apply Hl'|]. exists r, y.
  by split; [apply list_elem_of_further|].
Qed.
End routes.

(** ** Isolation *)

Section isolation.
Context `{HD : HttpDeps} `{GD : GatewayDeps} `{FD : FrontDeps} `{DL : DepsLaws} `{CP : !CborPayload CapabilityClaims}.
Context {B : Backend} `{BL : BackendLaws B} (X : H3Stream) (state : GatewayState) (connection : Connection).

(** C15: isolation at the gateway.  Whatever requests a connection sends, if every
    capability that verifies on it is for another tenant, it changes no file of a
    tenant but those of its event log, which receives the refusals; other tasks may
    run in between as long as they do not touch the file either. *)
Theorem gateway_tenant_isolation others fuel requests (w : World B) t k key :
  (∀ request x a, (request, x) ∈ requests → caller_of state connection request a →
     cl_tenant_id (claims a) ≠ t) →
  (∀ n v, files (others n v) !! store_key t k key = files v !! store_key t k key) →
  slash_free k = true → k ≠ "events" →
  files (handle_gateway_connection X state connection others fuel requests w).2 !! store_key t k key
  = files w !! store_key t k key.
Proof.
  intros Hcallers Hothers Hk Hev.
  destruct (gateway_refines_calls X state connection others fuel requests w) as (steps&->&Hs).
  apply run_steps_other_tenant; [|done..].
  intros a c (request&x&Hin&Ha&_)%Hs. by eapply Hcallers.
Qed.
End isolation.

(** ** What a subscriber receives *)

Section events.
Context `{HD : HttpDeps} `{GD : GatewayDeps} `{FD : FrontDeps} `{DL : DepsLaws} `{CP : !CborPayload CapabilityClaims}.
Context {B : Backend} `{BL : BackendLaws B} (X : H3Stream) `{XL : !H3Laws X} (state : GatewayState).
Abbreviation sv := (gw_service state).

(** The line of an envelope on the stream. *)
Definition event_line (envelope : SubscribeEnvelope) (item : H3Sent) : Prop :=
  ∃ l, to_vec envelope = Ok l ∧ item = SentData (l ++ [line_feed]).
Definition is_event (envelope : SubscribeEnvelope) : bool :=
  match se_kind envelope with EnvEvent => true | EnvNotice => false end.

Lemma with_error_ok {S E F A} (f : E → F) (m : ST S E A) x a x' :
  with_error f m x = (Ok a, x') → m x = (Ok a, x').
Proof. unfold with_error. destruct (m x) as [[]]; cbn; congruence. Qed.
Lemma on_stream_ok {E A} (m : ST (hstate X) E A) (s : Exchange X B) a s' :
  on_stream X m s = (Ok a, s') → m (ex_stream s) = (Ok a, ex_stream s') ∧ ex_world s' = ex_world s.
Proof. unfold on_stream, zoom. destruct (m (ex_stream s)) as [r x]. by intros [= -> <-]. Qed.

Lemma send_envelopes_ok envs b x b' x' :
  send_envelopes X envs b x = (Ok b', x') →
  b' = b || existsb is_event envs ∧
  ∃ items, Forall2 event_line envs items ∧ h3_sent x' = h3_sent x ++ items.
Proof.
  revert b x. induction envs as [|e envs IH]; intros b x; cbn [send_envelopes].
  { intros [<- <-]%ST_ret_ok. cbn. rewrite orb_false_r. split; [done|].
    exists []. by rewrite app_nil_r. }
  intros (l&x1&Hl&Hs)%ST_bind_ok. unfold lift_result in Hl. injection Hl as Hl <-.
  apply ST_bind_ok in Hs as ([]&x1&Hd%with_error_ok%send_data_ok&Hs).
  apply IH in Hs as (->&items&Hi&Hsent). split.
  { unfold is_event. cbn. by destruct (se_kind e), b. }
  exists (SentData (l ++ [line_feed]) :: items). split.
  - constructor; [|done]. exists l. split; [|done]. destruct (to_vec e); cbn in Hl; congruence.
  - by rewrite Hsent, Hd, <-(assoc_L (++)).
Qed.

Lemma envelopes_of_events delivered envs :
  envelopes_of delivered envs →
  omap se_event envs = delivered ∧ existsb is_event envs = negb (bool_decide (delivered = [])).
Proof.
  unfold envelopes_of. destruct delivered as [|ev evs]; [by intros [notice ->]|]. intros ->.
  split; [|done]. generalize (ev :: evs). induction l as [|x l IH]; cbn; congruence.
Qed.

(** One round: what it sends, and where it leaves the loop. *)
Lemma subscribe_round others t logs final auth subscribe fuel round c idle (s : Exchange X B) ended s' :
  feed sv t others logs final → sq_tenant_id subscribe = t → 1 <= ec_next_seq c →
  log_refines sv (files (ex_world s)) t (logs round) →
  subscribe_loop X state others (S fuel) round auth subscribe c idle s = (Ok ended, s') →
  ∃ envs items c' s1, Forall2 event_line envs items ∧
    h3_sent (ex_stream s1) = h3_sent (ex_stream s) ++ items ∧
    ahead subscribe final (ec_next_seq c) = omap se_event envs ++ ahead subscribe final (ec_next_seq c') ∧
    1 <= ec_next_seq c' ∧ log_refines sv (files (ex_world s1)) t (logs round) ∧
    let idle' := if existsb is_event envs then 0 else idle + 1 in
    if 20 <=? idle'
    then ended = true ∧ h3_sent (ex_stream s') = h3_sent (ex_stream s1) ++ [SentEnd] ∧
         ex_world s' = ex_world s1 ∧
         (existsb is_event envs = false →
            matching_events (sq_filters subscribe) (take (Z.to_nat (default 64 (sq_batch_max subscribe)))
              (events_from (ec_next_seq c') (logs round))) = [])
    else subscribe_loop X state others fuel (S round) auth subscribe c' idle'
           (mkExchange (ex_stream s1) (others round (ex_world s1))) = (Ok ended, s').
Proof.
  intros Hfeed Ht Hc Hlog. cbn [subscribe_loop].
  intros ([envs c']&s0&Hp&Hs)%ST_bind_ok. rewrite on_service_run in Hp.
  destruct (subscribe_poll sv auth subscribe c (ex_world s)) as [r w1] eqn:Hpoll.
  cbn [fst snd] in Hp. injection Hp as -> <-.
  destruct (feed_poll sv t others logs final Hfeed _ _ _ _ _ _ _ _ Ht Hc Hlog Hpoll)
    as (Hlog1&Hc1&delivered&Hd&Hahead&Hsame).
  apply ST_bind_ok in Hs as (b&s1&He%on_stream_ok&Hs). cbn [ex_stream ex_world] in He.
  destruct He as [(->&items&Hi&Hsent)%send_envelopes_ok Hw].
  destruct (envelopes_of_events _ _ Hd) as [Hev Hex].
  exists envs, items, c', s1. rewrite Hev, Hw. split_and!; [done..|]. cbn zeta in *.
  rewrite orb_false_l in Hs. destruct (20 <=? _).
  - apply ST_bind_ok in Hs as ([]&s2&Hfin%on_stream_ok&Hs). apply ST_ret_ok in Hs as [<- <-].
    destruct Hfin as [Hfin%with_error_ok%finish_ok Hsame1]. split_and!; [done..|by rewrite Hsame1, Hw|].
    rewrite Hex. case_bool_decide as Hn; [|done]. intros _. destruct (Hsame Hn) as [-> Hnone]. exact Hnone.
  - by rewrite <-Hw.
Qed.

(** C19: the event stream.  The lines a subscription sends are the envelopes of its
    polls, and the events among them are the matching events of the log from the
    cursor on, in order, none missing and none twice, while the log grows.  When the
    stream ends, after twenty idle rounds, and the filter selects everything, then no
    event is left behind in the log as the store holds it at that moment, which is the
    log of one of the rounds of the loop. *)
Theorem gateway_events_in_order others t logs final auth subscribe fuel round c idle
  (s : Exchange X B) ended s' :
  feed sv t others logs final → sq_tenant_id subscribe = t → 1 <= ec_next_seq c → 0 <= idle →
  log_refines sv (files (ex_world s)) t (logs round) →
  subscribe_loop X state others fuel round auth subscribe c idle s = (Ok ended, s') →
  ∃ envs items next, Forall2 event_line envs items ∧
    h3_sent (ex_stream s') = h3_sent (ex_stream s) ++ items ++ (if ended then [SentEnd] else []) ∧
    ahead subscribe final (ec_next_seq c) = omap se_event envs ++ ahead subscribe final next ∧
    (ended = true → (∀ l, matching_events (sq_filters subscribe) l = l) →
     0 < default 64 (sq_batch_max subscribe) →
     ∃ n, (round <= n < round + fuel)%nat ∧ log_refines sv (files (ex_world s')) t (logs n) ∧
          events_from next (logs n) = []).
Proof.
  intros Hfeed Ht. revert round c idle s.
  induction fuel as [|fuel IH]; intros round c idle s Hc Hidle Hlog Hs.
  { apply ST_ret_ok in Hs as [<- <-]. exists [], [], (ec_next_seq c). by rewrite app_nil_r. }
  destruct (subscribe_round _ _ _ _ _ _ _ _ _ _ _ _ _ Hfeed Ht Hc Hlog Hs)
    as (envs&items&c'&s1&Hi&Hsent&Hahead&Hc1&Hlog1&Hnext). cbn zeta in Hnext.
  destruct (Z.leb_spec 20 (if existsb is_event envs then 0 else idle + 1)).
  - destruct Hnext as (->&Hfin&Hw&Hnone). exists envs, items, (ec_next_seq c'). split_and!; [done| |done|].
    { by rewrite Hfin, Hsent, (assoc_L (++)). }
    intros _ Hall Hb. exists round. split; [lia|]. rewrite Hw. split; [done|].
    destruct (existsb is_event envs); [lia|].
    specialize (Hnone eq_refl). rewrite Hall in Hnone.
    destruct (events_from _ _); [done|]. by destruct (Z.to_nat (default 64 (sq_batch_max subscribe))) eqn:?; [lia|].
  - apply IH in Hnext as (envs2&items2&next&Hi2&Hsent2&Hahead2&Hend).
    + exists (envs ++ envs2), (items ++ items2), next. split_and!.
      * by apply Forall2_app.
      * cbn [ex_stream] in Hsent2. by rewrite Hsent2, Hsent, !(assoc_L (++)).
      * by rewrite Hahead, Hahead2, omap_app, (assoc_L (++)).
      * intros He Hall Hb. destruct (Hend He Hall Hb) as (n&Hn&Hrest). exists n. split; [lia|done].
    + done.
    + destruct (existsb is_event envs); lia.
    + cbn [ex_world]. by apply (fe_grow _ _ _ _ _ Hfeed).
Qed.
End events.

Import ToyService ToyFront.
#[local] Instance beta_capability : CborPayload CapabilityClaims := capability_of "tenant-beta".

(** A capability of tenant-beta: a read of tenant-alpha, an upload and an unknown route. *)
Definition beta_requests : list (H3Request * hstate mem_h3) :=
  [(mkH3Request "GET" "/v1/objects/cid/sha256-object" (Some "tenant_id=tenant-alpha") sample_headers, ([], []));
   (mkH3Request "POST" "/v1/uploads" None sample_headers, ([as_bytes "{}"], []));
   (mkH3Request "PATCH" "/v1/uploads" None [], ([], []))].

(** Witness of C15: tenant-alpha's files, with a request that authenticates. *)
Lemma gateway_tenant_isolation_witness :
  is_ok (authenticated sample_gateway sample_connection
           (mkH3Request "POST" "/v1/uploads" None sample_headers)) = true ∧
  files (handle_gateway_connection mem_h3 sample_gateway sample_connection (λ _ w, w) 5 beta_requests
           sample_world).2 !! store_key "tenant-alpha" "manifests" "sha256-object"
  = files sample_world !! store_key "tenant-alpha" "manifests" "sha256-object".
Proof.
  split; [vm_compute; reflexivity|].
  apply (gateway_tenant_isolation mem_h3 sample_gateway sample_connection).
  - intros request x a _ (token&binding&_&[Hc _ _ _]).
    apply capability_tenant in Hc. rewrite Hc. discriminate.
  - done.
  - done.
  - done.
Defined.

(** A subscription to every event of a log that no longer grows. *)
Definition event_start : Exchange mem_h3 (fs_backend no_faults) :=
  @mkExchange mem_h3 (fs_backend no_faults) ([], []) second_append.2.
Definition all_events : SubscribeRequest := mkSubscribeRequest "tenant-alpha" [] None (Some 1) None (Some 2).
Definition event_stream : result ApiError bool * Exchange mem_h3 (fs_backend no_faults) :=
  subscribe_loop mem_h3 sample_gateway (λ _ w, w) 40 0 (sample_token "tenant-alpha" "j1")
    all_events (mkEventCursor "tenant-alpha" 1) 0 event_start.

(** Witness of C19: the stream delivers both events of the log and ends. *)
Lemma gateway_events_in_order_witness :
  event_stream.1 = Ok true ∧
  ∃ envs items next, Forall2 event_line envs items ∧
    h3_sent (ex_stream event_stream.2) = h3_sent (ex_stream event_start) ++ items ++ [SentEnd] ∧
    omap id sample_log = omap se_event envs ∧
    log_refines concrete_service (files (ex_world event_stream.2)) "tenant-alpha" sample_log ∧
    events_from next sample_log = [].
Proof.
  split; [vm_compute; reflexivity|].
  assert (∀ l, matching_events (sq_filters all_events) l = l) as Hall.
  { intros l. unfold matching_events. cbn. induction l as [|e l IH]; [done|]. cbn. by rewrite IH. }
  destruct (gateway_events_in_order mem_h3 sample_gateway (λ _ w, w) "tenant-alpha" (λ _, sample_log)
           sample_log (sample_token "tenant-alpha" "j1") all_events 40 0
           (mkEventCursor "tenant-alpha" 1) 0 event_start true
           event_stream.2) as (envs&items&next&Hi&Hsent&Hahead&Hend).
  - split; [done|done|reflexivity].
  - reflexivity.
  - cbn. lia.
  - done.
  - exact sample_log_refined.
  - apply run_pair. vm_compute. reflexivity.
  - destruct (Hend eq_refl Hall eq_refl) as (n&Hn&Hlog&Hnone).
    exists envs, items, next. split; [exact Hi|]. split; [exact Hsent|].
    split; [|exact (conj Hlog Hnone)].
    unfold ahead in Hahead. rewrite !Hall, Hnone, app_nil_r in Hahead. exact Hahead.
Defined.
