(* ===== verification/GatewayRoutes.v ===== *)
(** * The URLs of the gateway

    [call_url] writes the URL of a call the way the routes are documented, and the
    gateway performs exactly that call: routes and queries read back what they were
    built from.  The native server and the gateway then give the same answer to the
    same request. *)

From Stdlib Require Import ZArith Lia Ascii String Bool.
From stdpp Require Import base option list strings gmap numbers sorting.
From S2P Require Import Prelude RustStr Path Core Cbor CborFacts Concrete Auth Crypto Store ServiceState Observability ServiceFacts Access Namespaces Objects Subscribe ConcreteService Service Wire AmzDate SigV4 UrlStr Http Front Native Gateway ConcreteFront NativeProps GatewayProps.

(** ** Queries *)

Definition query_string (pairs : list (string * string)) : string :=
  join "&" ((λ pair, pair.1 +:+ "=" +:+ pair.2) <$> pairs).
Definition plain (c : ascii) (s : string) : bool := negb (str_contains_char c s).
Definition pair_ok (pair : string * string) : bool :=
  plain "=" pair.1 && plain "&" pair.1 && plain "&" pair.2.

Lemma query_pairs_read pairs :
  pairs ≠ [] → forallb pair_ok pairs = true →
  omap (split_once "=") (split_on "&" (query_string pairs)) = pairs.
Proof.
  intros Hne Hok. unfold query_string. rewrite split_on_join.
  - clear Hne. induction pairs as [|[k v] pairs IH]; [done|]. cbn in Hok |- *.
    apply andb_true_iff in Hok as [[[Hk _]%andb_true_iff _]%andb_true_iff Hok].
    apply negb_true_iff in Hk. cbn in Hk. rewrite str_app_cons, str_app_nil_l, split_once_app by done.
    f_equal. by apply IH.
  - by destruct pairs.
  - clear Hne. induction pairs as [|[k v] pairs IH]; [done|]. cbn in Hok |- *.
    apply andb_true_iff in Hok as [[[_ Hk]%andb_true_iff Hv]%andb_true_iff Hok].
    apply negb_true_iff in Hk, Hv. constructor; [|by apply IH].
    rewrite !str_contains_char_app. cbn in Hk, Hv. by rewrite Hk, Hv.
Qed.
Lemma query_value_read pairs key :
  pairs ≠ [] → forallb pair_ok pairs = true →
  query_value (query_string pairs) key = snd <$> List.find (λ pair, String.eqb pair.1 key) pairs.
Proof. intros Hne Hok. unfold query_value. by rewrite query_pairs_read. Qed.

(** An optional parameter. *)
Definition opt_pair (key : string) (value : option string) : list (string * string) :=
  match value with Some value => [(key, value)] | None => [] end.

(** ** The URL of a call *)

(** A path segment: not empty and without a slash. *)
Definition segment (s : string) : bool := negb (str_is_empty s) && plain slash s.
Definition u64_ok (n : Z) : bool := (0 <=? n) && (n <? 2 ^ 64).
Definition u32_ok (n : Z) : bool := (0 <=? n) && (n <? 2 ^ 32).
Definition opt_ok {A} (p : A → bool) (o : option A) : bool := match o with Some a => p a | None => true end.

Definition selector_path (selector : ObjectSelector) : option string :=
  match selector with
  | mkObjectSelector SelCid (Some cid) None None => Some (OBJECTS_CID +:+ cid)
  | mkObjectSelector SelNamespace None (Some namespace) (Some path) =>
      Some (OBJECTS_NAMESPACE +:+ namespace +:+ "/" +:+ path)
  | _ => None
  end.
Definition selector_addressable (selector : ObjectSelector) : bool :=
  match selector with
  | mkObjectSelector SelCid (Some cid) None None =>
      segment cid && negb (ends_with "/metadata" (OBJECTS_CID +:+ cid))
  | mkObjectSelector SelNamespace None (Some namespace) (Some path) =>
      segment namespace
      && negb (ends_with "/metadata" (OBJECTS_NAMESPACE +:+ namespace +:+ "/" +:+ path))
  | _ => false
  end.

Record Url := mkUrl { url_method : string; url_path : string; url_query : list (string * string) }.

Definition call_url (c : ServiceCall) : option Url :=
  match c with
  | CallHead r =>
      path ← selector_path (hq_selector r);
      Some (mkUrl "GET" (path +:+ "/metadata") [("tenant_id", hq_tenant_id r)])
  | CallGet r =>
      path ← selector_path (gq_selector r);
      Some (mkUrl "GET" path
              (("tenant_id", gq_tenant_id r)
                 :: opt_pair "prefer" (get_preference_as_str <$> gq_preference r)
                 ++ match gq_range r with
                    | Some range => [("range_start", dec (range_start range));
                                     ("range_end", dec (range_end range))]
                    | None => []
                    end))
  | CallResolve r =>
      Some (mkUrl "GET" (NAMESPACES +:+ rq_namespace r +:+ "/resolve/" +:+ Core.rq_path r)
              (("tenant_id", rq_tenant_id r)
                 :: opt_pair "at_revision" (dec <$> rq_at_revision r)
                 ++ opt_pair "if_revision" (dec <$> rq_if_revision r)))
  | CallBind r =>
      Some (mkUrl "PUT" (NAMESPACES +:+ br_namespace r +:+ "/bind/" +:+ br_path r) [])
  | CallUnbind r =>
      Some (mkUrl "DELETE" (NAMESPACES +:+ ur_namespace r +:+ "/bind/" +:+ ur_path r) [])
  | CallList r =>
      Some (mkUrl "GET" (NAMESPACES +:+ lq_namespace r +:+ "/list")
              (("tenant_id", lq_tenant_id r)
                 :: ("recursive", bool_to_string (lq_recursive r))
                 :: ("include_tombstones", bool_to_string (lq_include_tombstones r))
                 :: opt_pair "prefix" (lq_prefix r) ++ opt_pair "cursor" (lq_cursor r)
                 ++ opt_pair "limit" (dec <$> lq_limit r)))
  | CallPutInit _ => Some (mkUrl "POST" "/v1/uploads" [])
  | CallPutChunk r _ =>
      Some (mkUrl "PUT" (UPLOADS +:+ pc_session_id r +:+ "/chunks/" +:+ dec (pc_chunk_index r))
              [("tenant_id", pc_tenant_id r); ("chunk_cid", pc_chunk_cid r);
               ("chunk_offset", dec (pc_chunk_offset r)); ("chunk_length", dec (pc_chunk_length r));
               ("content_encoding", pc_content_encoding r)])
  | CallPutCommit r => Some (mkUrl "POST" (UPLOADS +:+ cm_session_id r +:+ ":commit") [])
  | CallSubscribeStart _ | CallSubscribePoll _ _ => None
  end.

(** What a call must be for its URL to name it. *)
Definition addressable (c : ServiceCall) : bool :=
  match c with
  | CallHead r => plain "&" (hq_tenant_id r) && selector_addressable (hq_selector r)
  | CallGet r =>
      plain "&" (gq_tenant_id r) && selector_addressable (gq_selector r)
      && opt_ok (λ range, u64_ok (range_start range) && u64_ok (range_end range)) (gq_range r)
  | CallResolve r =>
      plain "&" (rq_tenant_id r) && segment (rq_namespace r)
      && opt_ok u64_ok (rq_at_revision r) && opt_ok u64_ok (rq_if_revision r)
  | CallBind r => segment (br_namespace r)
  | CallUnbind r => segment (ur_namespace r)
  | CallList r =>
      plain "&" (lq_tenant_id r) && segment (lq_namespace r)
      && negb (String.eqb (lq_namespace r) "resolve")
      && opt_ok (plain "&") (lq_prefix r) && opt_ok (plain "&") (lq_cursor r)
      && opt_ok u32_ok (lq_limit r)
  | CallPutInit _ => true
  | CallPutChunk r _ =>
      plain "&" (pc_tenant_id r) && segment (pc_session_id r) && u32_ok (pc_chunk_index r)
      && plain "&" (pc_chunk_cid r) && u64_ok (pc_chunk_offset r) && u64_ok (pc_chunk_length r)
      && plain "&" (pc_content_encoding r)
  | CallPutCommit r => segment (cm_session_id r) && negb (ends_with ":commit" (cm_session_id r))
  | CallSubscribeStart _ | CallSubscribePoll _ _ => false
  end.

Definition url_request (url : Url) (headers : HeaderMap) : H3Request :=
  mkH3Request (url_method url) (url_path url)
    (match url_query url with [] => None | pairs => Some (query_string pairs) end) headers.

(** ** Reading routes *)

Lemma ends_with_spec suffix s : ends_with suffix s = true ↔ ∃ a, s = a +:+ suffix.
Proof.
  split; [|intros [a ->]; apply ends_with_app].
  unfold ends_with. intros [r Hr]%starts_with_spec. exists (str_rev r).
  by rewrite <-(str_rev_involutive s), Hr, str_rev_app, str_rev_involutive.
Qed.
Lemma ends_with_plain c suffix s : str_contains_char c s = false → ends_with (String c suffix) s = false.
Proof.
  intros Hs. apply not_true_iff_false. intros [a ->]%ends_with_spec.
  rewrite str_contains_char_app, str_contains_char_cons, Ascii.eqb_refl in Hs.
  by rewrite orb_true_r in Hs.
Qed.
Lemma segment_plain s : segment s = true → str_contains_char slash s = false.
Proof. unfold segment, plain. by intros [_ H%negb_true_iff]%andb_true_iff. Qed.
Lemma segment_start s p t : segment s = true → starts_with (String slash p) (s +:+ t) = false.
Proof.
  intros Hs. pose proof (segment_plain _ Hs) as Hp. destruct s as [|c s]; [done|].
  rewrite str_app_cons, starts_with_first. rewrite str_contains_char_cons in Hp.
  by apply orb_false_iff in Hp as [-> _].
Qed.
Lemma plain_dec n : plain "&" (dec n) = true.
Proof.
  unfold plain. apply negb_true_iff, (str_contains_char_forallb (in_range 48 57)); [done|].
  apply dec_digits. intros d Hd. unfold in_range, digit. rewrite byte_val_of_small by lia.
  by rewrite !(proj2 (Z.leb_le _ _)) by lia.
Qed.

Lemma split_namespace_operation_read namespace marker item :
  segment namespace = true →
  split_namespace_operation (NAMESPACES +:+ namespace +:+ String slash marker +:+ item)
    (String slash marker) = Ok (namespace, item).
Proof.
  intros Hs. unfold split_namespace_operation. rewrite trim_start_str_once; [|done|].
  - rewrite split_once_str_first by by apply segment_plain. done.
  - by apply segment_start.
Qed.
Lemma split_resolve_read namespace item :
  segment namespace = true →
  split_namespace_operation (NAMESPACES +:+ namespace +:+ "/resolve/" +:+ item) "/resolve/"
  = Ok (namespace, item).
Proof. apply (split_namespace_operation_read _ "resolve/"). Qed.
Lemma split_bind_read namespace item :
  segment namespace = true →
  split_namespace_operation (NAMESPACES +:+ namespace +:+ "/bind/" +:+ item) "/bind/"
  = Ok (namespace, item).
Proof. apply (split_namespace_operation_read _ "bind/"). Qed.
Lemma split_namespace_object_read namespace item :
  segment namespace = true →
  split_namespace_object_route (OBJECTS_NAMESPACE +:+ namespace +:+ "/" +:+ item) OBJECTS_NAMESPACE
  = Ok (namespace, item).
Proof.
  intros Hs. unfold split_namespace_object_route. rewrite trim_start_str_once; [|done|by apply segment_start].
  rewrite str_app_cons, str_app_nil_l, split_once_app by by apply segment_plain. done.
Qed.

Lemma parse_u64_ok n : u64_ok n = true → parse_u64 (dec n) = Some n.
Proof. unfold u64_ok. intros H. apply parse_u64_dec. unfold u64_range. lia. Qed.
Lemma parse_u32_ok n : u32_ok n = true → parse_u32 (dec n) = Some n.
Proof. unfold u32_ok. intros H. apply parse_u32_dec. unfold u32_range. lia. Qed.

(** The namespace [resolve] apart, the list route is not taken for a resolve. *)
Lemma str_contains_plain c p s t :
  str_contains_char c s = false → str_contains (String c p) (s +:+ t) = str_contains (String c p) t.
Proof.
  induction s as [|x s IH]; [done|]. rewrite str_contains_char_cons.
  intros [Hx Hs]%orb_false_iff. rewrite str_app_cons. cbn [str_contains].
  by rewrite starts_with_first, Hx, IH.
Qed.
Lemma list_not_resolve namespace :
  segment namespace = true → String.eqb namespace "resolve" = false →
  str_contains "/resolve/" (NAMESPACES +:+ namespace +:+ "/list") = false.
Proof.
  intros Hs Hne. apply segment_plain in Hs as Hp.
  change (starts_with "resolve/" (namespace +:+ "/list")
          || str_contains "/resolve/" (namespace +:+ "/list") = false).
  rewrite str_contains_plain by done. rewrite orb_false_r. apply not_true_iff_false.
  intros [r Hr]%starts_with_spec.
  apply (str_split_first slash namespace "resolve" "list" r) in Hr as [-> _]; done.
Qed.

(** ** Reading queries *)

Ltac read_query :=
  match goal with
  | |- context [query_value (query_string ?l) _] =>
      let Hq := fresh in
      assert (∀ key, query_value (query_string l) key
                     = snd <$> List.find (λ pair, String.eqb pair.1 key) l) as Hq
        by (intros ?; apply query_value_read; [done|cbn; rewrite ?plain_dec;
              repeat match goal with H : plain _ _ = true |- _ => rewrite H end; done]);
      rewrite !Hq; clear Hq
  end.

Lemma get_request_read t selector preference range :
  plain "&" t = true →
  opt_ok (λ range, u64_ok (range_start range) && u64_ok (range_end range)) range = true →
  get_request (query_string
    (("tenant_id", t) :: opt_pair "prefer" (get_preference_as_str <$> preference)
       ++ match range with
          | Some range => [("range_start", dec (range_start range)); ("range_end", dec (range_end range))]
          | None => []
          end)) selector = Ok (mkGetRequest t selector preference range).
Proof.
  intros Ht Hr. unfold get_request, range_from_query, tenant_from_query, required_query.
  destruct range as [[a b]|]; cbn in Hr; [apply andb_true_iff in Hr as [Ha Hb]|];
    destruct preference as [[]|]; read_query; cbn; by rewrite ?parse_u64_ok.
Qed.
Lemma resolve_request_read t namespace item at_revision if_revision :
  plain "&" t = true → opt_ok u64_ok at_revision = true → opt_ok u64_ok if_revision = true →
  resolve_request (query_string
    (("tenant_id", t) :: opt_pair "at_revision" (dec <$> at_revision)
       ++ opt_pair "if_revision" (dec <$> if_revision))) namespace item
  = Ok (mkResolveRequest t namespace item at_revision if_revision).
Proof.
  intros Ht Ha Hi. unfold resolve_request, tenant_from_query, required_query, parsed_query.
  destruct at_revision, if_revision; read_query; cbn in *; by rewrite ?parse_u64_ok.
Qed.
Lemma flag_read query key b :
  query_value query key = Some (bool_to_string b) → flag_query query key = b.
Proof. unfold flag_query. intros ->. by destruct b. Qed.
Lemma list_request_read t namespace prefix cursor limit recursive tombstones :
  plain "&" t = true → opt_ok (plain "&") prefix = true → opt_ok (plain "&") cursor = true →
  opt_ok u32_ok limit = true →
  list_request (query_string
    (("tenant_id", t) :: ("recursive", bool_to_string recursive)
       :: ("include_tombstones", bool_to_string tombstones)
       :: opt_pair "prefix" prefix ++ opt_pair "cursor" cursor ++ opt_pair "limit" (dec <$> limit)))
    namespace
  = Ok (mkListRequest t namespace prefix cursor limit recursive tombstones).
Proof.
  intros Ht Hp Hc Hl. assert (∀ b, plain "&" (bool_to_string b) = true) as Hb by by intros [].
  pose proof (Hb recursive). pose proof (Hb tombstones). clear Hb.
  unfold list_request, tenant_from_query, required_query, parsed_query, flag_query.
  destruct prefix, cursor, limit; cbn in Hp, Hc, Hl; read_query; cbn;
    rewrite ?parse_u32_ok by done; cbn; by destruct recursive, tombstones.
Qed.
Lemma put_chunk_request_read r :
  plain "&" (pc_tenant_id r) = true → segment (pc_session_id r) = true →
  u32_ok (pc_chunk_index r) = true → plain "&" (pc_chunk_cid r) = true →
  u64_ok (pc_chunk_offset r) = true → u64_ok (pc_chunk_length r) = true →
  plain "&" (pc_content_encoding r) = true →
  put_chunk_request (UPLOADS +:+ pc_session_id r +:+ "/chunks/" +:+ dec (pc_chunk_index r))
    (query_string [("tenant_id", pc_tenant_id r); ("chunk_cid", pc_chunk_cid r);
                   ("chunk_offset", dec (pc_chunk_offset r)); ("chunk_length", dec (pc_chunk_length r));
                   ("content_encoding", pc_content_encoding r)]) = Ok r.
Proof.
  intros Ht Hs Hi Hc Ho Hl He. unfold put_chunk_request.
  rewrite trim_start_str_once by (done || by apply segment_start).
  rewrite (split_str_pair slash "chunks/") by (first [by apply segment_plain|apply dec_slash_free]).
  unfold tenant_from_query, required_query. read_query. cbn.
  rewrite parse_u32_ok, !parse_u64_ok by done. by destruct r.
Qed.

(** ** Answers *)

(** What the service answers, before it is put on a wire: a JSON document, or the
    chunks of an object. *)
Inductive Answer :=
| Document (json : result string bytes)
| Chunks (meta : GetResponseMeta) (chunks : list GetChunk).

Section answers.
Context `{FD : FrontDeps} `{DP : Deps} {B : Backend} (sv : AlphaService).

Definition document {A} `{JsonWrite A} (m : ST (World B) ApiError A) : ST (World B) ApiError Answer :=
  response ← m; mret (Document (to_vec response)).
(** Subscriptions are not answered by one reply. *)
Definition call_answer (auth : AuthContext) (c : ServiceCall) : ST (World B) ApiError Answer :=
  match c with
  | CallPutInit r => document (put_init sv auth r)
  | CallPutChunk r b => document (put_chunk sv auth r b)
  | CallPutCommit r => document (put_commit sv auth r)
  | CallHead r => document (head sv auth r)
  | CallGet r =>
      response ← get sv auth r;
      mret (if bool_decide (gm_preference (gr_meta response) = PrefManifestOnly)
            then Document (to_vec (gr_meta response))
            else Chunks (gr_meta response) (gr_chunks response))
  | CallResolve r => document (resolve_op sv auth r)
  | CallBind r => document (bind sv auth r)
  | CallUnbind r => document (unbind sv auth r)
  | CallList r => document (list_op sv auth r)
  | CallSubscribeStart _ | CallSubscribePoll _ _ => throw route_not_found
  end.
End answers.

(** The answer as a reply of the gateway. *)
Definition gateway_reply `{HttpDeps} `{GatewayDeps} `{Base64Url} (r : result ApiError Answer)
  : result ApiError Reply :=
  answer ← r;
  match answer with
  | Document json =>
      body ← map_err (invalid "json_encode_failed") json;
      build_reply StatusOk [("content-type", "application/json")] (Some [body])
  | Chunks meta chunks => chunk_stream_response meta chunks
  end.
(** The answer as frames of the native server. *)
Definition native_reply {V} `{WireDeps V} `{NativeDeps V} (W : Writer) (r : result ApiError Answer)
  : ST (wstate W) WireCodecError unit :=
  match r with
  | Ok (Document json) =>
      body ← lift_result (map_err InvalidFrame json);
      _ ← write_frame (V:=V) W (FrResHeader (res_header 200 PmJson (Some (len_u64 body)) ∅));
      _ ← write_frame (V:=V) W (FrData body);
      write_frame (V:=V) W FrEnd
  | Ok (Chunks meta chunks) => write_chunk_stream_response (V:=V) W 200 meta chunks
  | Err error => write_error (V:=V) W error
  end.

(** The body a request brings for a call. *)
Definition body_limit (c : ServiceCall) : option Z :=
  match c with
  | CallPutInit _ | CallPutCommit _ | CallBind _ | CallUnbind _ => Some GATEWAY_JSON_BODY_LIMIT_BYTES
  | CallPutChunk _ _ => Some (max_chunk_size (info_limits info))
  | _ => None
  end.
Definition carries `{FrontDeps} (body : bytes) (c : ServiceCall) : Prop :=
  match c with
  | CallPutInit r => from_json body = Ok r
  | CallPutChunk _ b => body = b
  | CallPutCommit r => ∃ r', from_json body = Ok r' ∧ set_session_id r' (cm_session_id r) = r
  | CallBind r => ∃ r', from_json body = Ok r' ∧ set_bind_target r' (br_namespace r) (br_path r) = r
  | CallUnbind r =>
      ∃ r', from_json body = Ok r' ∧ set_unbind_target r' (ur_namespace r) (ur_path r) = r
  | _ => True
  end.
Definition body_read (X : H3Stream) (fuel : nat) (c : ServiceCall) (x : hstate X) (body : bytes)
  (x' : hstate X) : Prop :=
  match body_limit c with
  | Some limit => read_http_body X fuel limit [] x = (Ok (Some body), x')
  | None => x' = x
  end.

Section gateway.
Context `{HD : HttpDeps} `{GD : GatewayDeps} `{FD : FrontDeps} `{DP : Deps} `{CP : !CborPayload CapabilityClaims}.
Context {B : Backend} (X : H3Stream) (state : GatewayState) (connection : Connection).
Abbreviation sv := (gw_service state).
Implicit Types s : Exchange X B.

(** The reply to a call, and the world it leaves. *)
Definition answered (auth : AuthContext) (c : ServiceCall) (x : hstate X) (w : World B)
  : result ApiError (option Reply) * Exchange X B :=
  let '(r, w') := call_answer sv auth c w in (Some <$> gateway_reply r, mkExchange x w').

Lemma complete_document {A} `{JsonWrite A} (m : ST (World B) ApiError A) s :
  complete X (reply_json X m) s
  = let '(r, w') := document m (ex_world s) in
    (Some <$> gateway_reply r, mkExchange (ex_stream s) w').
Proof.
  unfold complete, reply_json, document. rewrite !ST_bind_run, on_service_run.
  destruct (m (ex_world s)) as [[a|e] w]; cbn; [|done]. unfold lift_result.
  by destruct (json_response StatusOk a) eqn:E; unfold json_response in E; rewrite E.
Qed.
Lemma complete_get auth r s :
  complete X (response ← on_service X (get sv auth r); lift_result (get_response response)) s
  = answered auth (CallGet r) (ex_stream s) (ex_world s).
Proof.
  unfold complete, answered. cbn [call_answer]. rewrite !ST_bind_run, on_service_run.
  destruct (get sv auth r (ex_world s)) as [[a|e] w]; cbn; [|done]. unfold get_response, lift_result.
  case_bool_decide; [by destruct (json_response StatusOk (gr_meta a)) eqn:E; unfold json_response in E; rewrite E|].
  by destruct (chunk_stream_response (gr_meta a) (gr_chunks a)).
Qed.
Lemma with_body_read fuel limit next s body x :
  read_http_body X fuel limit [] (ex_stream s) = (Ok (Some body), x) →
  with_body (B:=B) X fuel limit next s = complete X (next body) (mkExchange x (ex_world s)).
Proof.
  intros Hr. unfold with_body. rewrite ST_bind_run. unfold on_stream, zoom, with_error. by rewrite Hr.
Qed.

(** Take the routes whose guards evaluate. *)
Ltac take_route :=
  repeat match goal with
  | |- complete _ (if ?b then _ else _) _ = _ =>
      first [replace b with false by reflexivity | replace b with true by reflexivity]; cbv iota
  end.
Lemma starts_with_app2 p a b : starts_with p ((p +:+ a) +:+ b) = true.
Proof. rewrite <-str_app_assoc. apply starts_with_app. Qed.
Lemma lift_ok_bind {S E A A'} (a : A) (k : A → ST S E A') : lift_result (Ok a) ≫= k = k a.
Proof. done. Qed.

Lemma route_head_read auth r url headers s :
  addressable (CallHead r) = true → call_url (CallHead r) = Some url →
  authenticated state connection (url_request url headers) = Ok auth →
  complete X (route_get X state connection (url_request url headers)) s
  = answered auth (CallHead r) (ex_stream s) (ex_world s).
Proof.
  destruct r as [t selector]. cbn [addressable call_url hq_tenant_id hq_selector].
  intros [Ht Hs]%andb_true_iff Hurl Ha. unfold_routes. rewrite Ha. cbn zeta.
  assert (query_of (url_request url headers) = query_string [("tenant_id", t)]) as ->.
  { destruct (selector_path selector); cbn in Hurl; [|done]. by injection Hurl as <-. }
  assert (head_request (query_string [("tenant_id", t)]) selector = Ok (mkHeadRequest t selector)) as Hr.
  { unfold head_request, tenant_from_query, required_query. read_query. done. }
  destruct selector as [[] [cid|] [ns|] [path|]]; try done; cbn in Hs, Hurl;
    apply andb_true_iff in Hs as [Hseg Hend%negb_true_iff]; injection Hurl as <-;
    cbn [url_request h3_path url_path].
  - rewrite ends_with_app, starts_with_app2. take_route.
    rewrite <-str_app_assoc, trim_start_str_once by (done || by apply segment_start).
    rewrite trim_end_str_once by (done || by apply ends_with_plain, segment_plain).
    unfold selector_of_cid. rewrite Hr, !lift_ok_bind. apply complete_document.
  - rewrite ends_with_app, starts_with_app2. take_route.
    rewrite trim_end_str_once by done. rewrite split_namespace_object_read by done.
    unfold selector_of_namespace. rewrite lift_ok_bind. cbv beta iota.
    rewrite Hr, !lift_ok_bind. apply complete_document.
Qed.

Lemma route_get_read auth r url headers s :
  addressable (CallGet r) = true → call_url (CallGet r) = Some url →
  authenticated state connection (url_request url headers) = Ok auth →
  complete X (route_get X state connection (url_request url headers)) s
  = answered auth (CallGet r) (ex_stream s) (ex_world s).
Proof.
  destruct r as [t selector preference range].
  cbn [addressable call_url gq_tenant_id gq_selector gq_preference gq_range].
  intros [[Ht Hs]%andb_true_iff Hrange]%andb_true_iff Hurl Ha. unfold_routes. rewrite Ha. cbn zeta.
  pose proof (get_request_read t selector preference range Ht Hrange) as Hr.
  set (pairs := _ :: _) in Hr, Hurl.
  assert (query_of (url_request url headers) = query_string pairs) as ->.
  { destruct (selector_path selector); cbn in Hurl; [|done]. by injection Hurl as <-. }
  destruct selector as [[] [cid|] [ns|] [path|]]; try done; cbn in Hs, Hurl;
    apply andb_true_iff in Hs as [Hseg Hend%negb_true_iff]; injection Hurl as <-;
    cbn [url_request h3_path url_path].
  - rewrite Hend, starts_with_app. take_route.
    rewrite trim_start_str_once by (done || by rewrite <-(str_app_nil_r cid); apply segment_start).
    unfold selector_of_cid. rewrite Hr, !lift_ok_bind. apply complete_get.
  - rewrite Hend, starts_with_app. take_route.
    rewrite split_namespace_object_read by done.
    unfold selector_of_namespace. rewrite lift_ok_bind. cbv beta iota.
    rewrite Hr, !lift_ok_bind. apply complete_get.
Qed.

Lemma route_resolve_read auth r url headers s :
  addressable (CallResolve r) = true → call_url (CallResolve r) = Some url →
  authenticated state connection (url_request url headers) = Ok auth →
  complete X (route_get X state connection (url_request url headers)) s
  = answered auth (CallResolve r) (ex_stream s) (ex_world s).
Proof.
  destruct r as [t ns item at_rev if_rev].
  cbn [addressable call_url rq_tenant_id rq_namespace Core.rq_path rq_at_revision rq_if_revision].
  intros [[[Ht Hs]%andb_true_iff Hat]%andb_true_iff Hif]%andb_true_iff [= <-] Ha.
  unfold_routes. rewrite Ha. cbn zeta. cbn [url_request h3_path url_path].
  change (query_of _) with (query_string (("tenant_id", t) :: opt_pair "at_revision" (dec <$> at_rev)
                                            ++ opt_pair "if_revision" (dec <$> if_rev))).
  rewrite starts_with_app.
  replace (str_contains "/resolve/" (NAMESPACES +:+ ns +:+ "/resolve/" +:+ item)) with true
    by (rewrite (str_app_assoc NAMESPACES); symmetry; apply str_contains_mid).
  take_route. rewrite split_resolve_read, lift_ok_bind by done.
  cbv beta iota. rewrite resolve_request_read, !lift_ok_bind by done. apply complete_document.
Qed.

Lemma route_list_read auth r url headers s :
  addressable (CallList r) = true → call_url (CallList r) = Some url →
  authenticated state connection (url_request url headers) = Ok auth →
  complete X (route_get X state connection (url_request url headers)) s
  = answered auth (CallList r) (ex_stream s) (ex_world s).
Proof.
  destruct r as [t ns prefix cursor limit recursive tombstones].
  cbn [addressable call_url lq_tenant_id lq_namespace lq_prefix lq_cursor lq_limit lq_recursive lq_include_tombstones].
  intros [[[[[Ht Hs]%andb_true_iff Hne%negb_true_iff]%andb_true_iff Hp]%andb_true_iff Hc]%andb_true_iff
            Hl]%andb_true_iff [= <-] Ha.
  unfold_routes. rewrite Ha. cbn zeta. cbn [url_request h3_path url_path].
  pose proof (list_request_read t ns prefix cursor limit recursive tombstones Ht Hp Hc Hl) as Hr.
  match type of Hr with list_request ?q _ = _ => change (query_of _) with q end.
  rewrite starts_with_app, list_not_resolve by done.
  replace (ends_with "/list" (NAMESPACES +:+ ns +:+ "/list")) with true
    by (rewrite (str_app_assoc NAMESPACES); symmetry; apply ends_with_app).
  take_route. rewrite trim_start_str_once by (done || by apply segment_start).
  rewrite trim_end_str_once by (done || by apply ends_with_plain, segment_plain).
  replace (trim_end_char slash ns) with ns.
  - rewrite Hr, !lift_ok_bind. apply complete_document.
  - symmetry. unfold trim_end_char. rewrite trim_start_char_none; [apply str_rev_involutive|].
    apply (ends_with_plain slash ""). by apply segment_plain.
Qed.

(** The routes with a body. *)
Ltac take_body_route :=
  repeat match goal with
  | |- (if ?b then _ else _) _ = _ =>
      first [replace b with false by reflexivity | replace b with true by reflexivity]; cbv iota
  end.
Lemma contains_bind ns item : str_contains "/bind/" (NAMESPACES +:+ ns +:+ "/bind/" +:+ item) = true.
Proof. rewrite (str_app_assoc NAMESPACES). apply str_contains_mid. Qed.

Lemma route_bind_read fuel auth r headers s body x :
  segment (br_namespace r) = true →
  authenticated state connection (url_request (mkUrl "PUT"
    (NAMESPACES +:+ br_namespace r +:+ "/bind/" +:+ br_path r) []) headers) = Ok auth →
  body_read X fuel (CallBind r) (ex_stream s) body x → carries body (CallBind r) →
  route_put X state connection fuel (url_request (mkUrl "PUT"
    (NAMESPACES +:+ br_namespace r +:+ "/bind/" +:+ br_path r) []) headers) s
  = answered auth (CallBind r) x (ex_world s).
Proof.
  intros Hs Ha Hb (r'&Hj&Hr). unfold_routes. rewrite Ha. cbn zeta. cbn [url_request h3_path url_path].
  rewrite starts_with_app, contains_bind. take_body_route. rewrite split_bind_read, lift_ok_bind by done.
  cbv beta iota. rewrite lift_ok_bind. rewrite (with_body_read _ _ _ _ _ _ Hb), Hj. cbn [map_err].
  rewrite lift_ok_bind, Hr. exact (complete_document _ (mkExchange x (ex_world s))).
Qed.
Lemma route_unbind_read fuel auth r headers s body x :
  segment (ur_namespace r) = true →
  authenticated state connection (url_request (mkUrl "DELETE"
    (NAMESPACES +:+ ur_namespace r +:+ "/bind/" +:+ ur_path r) []) headers) = Ok auth →
  body_read X fuel (CallUnbind r) (ex_stream s) body x → carries body (CallUnbind r) →
  route_delete X state connection fuel (url_request (mkUrl "DELETE"
    (NAMESPACES +:+ ur_namespace r +:+ "/bind/" +:+ ur_path r) []) headers) s
  = answered auth (CallUnbind r) x (ex_world s).
Proof.
  intros Hs Ha Hb (r'&Hj&Hr). unfold_routes. rewrite Ha. cbn zeta. cbn [url_request h3_path url_path].
  rewrite starts_with_app, contains_bind. take_body_route. rewrite split_bind_read, lift_ok_bind by done.
  cbv beta iota. rewrite lift_ok_bind. rewrite (with_body_read _ _ _ _ _ _ Hb), Hj. cbn [map_err].
  rewrite lift_ok_bind, Hr. exact (complete_document _ (mkExchange x (ex_world s))).
Qed.
Lemma route_put_chunk_read fuel auth r b url headers s body x :
  addressable (CallPutChunk r b) = true → call_url (CallPutChunk r b) = Some url →
  authenticated state connection (url_request url headers) = Ok auth →
  body_read X fuel (CallPutChunk r b) (ex_stream s) body x → carries body (CallPutChunk r b) →
  route_put X state connection fuel (url_request url headers) s
  = answered auth (CallPutChunk r b) x (ex_world s).
Proof.
  cbn [addressable call_url carries].
  intros Hok [= <-] Ha Hb ->. unfold_routes. rewrite Ha. cbn zeta. cbn [url_request h3_path url_path].
  rewrite starts_with_app.
  replace (str_contains "/chunks/" _) with true
    by (rewrite (str_app_assoc UPLOADS); symmetry; apply str_contains_mid).
  take_body_route. rewrite lift_ok_bind, (with_body_read _ _ _ _ _ _ Hb).
  unfold query_of. cbn [h3_query default].
  repeat match type of Hok with _ && _ = true => apply andb_true_iff in Hok as [Hok ?] end.
  rewrite put_chunk_request_read, lift_ok_bind by done. exact (complete_document _ (mkExchange x (ex_world s))).
Qed.
Lemma route_put_commit_read fuel auth r headers s body x :
  addressable (CallPutCommit r) = true →
  authenticated state connection (url_request (mkUrl "POST"
    (UPLOADS +:+ cm_session_id r +:+ ":commit") []) headers) = Ok auth →
  body_read X fuel (CallPutCommit r) (ex_stream s) body x → carries body (CallPutCommit r) →
  route_post X state connection fuel (url_request (mkUrl "POST"
    (UPLOADS +:+ cm_session_id r +:+ ":commit") []) headers) s
  = answered auth (CallPutCommit r) x (ex_world s).
Proof.
  cbn [addressable]. intros [Hs Hend%negb_true_iff]%andb_true_iff Ha Hb (r'&Hj&Hr).
  unfold_routes. rewrite Ha. cbn zeta. cbn [url_request h3_path url_path].
  replace (ends_with ":commit" _) with true
    by (rewrite (str_app_assoc UPLOADS); symmetry; apply ends_with_app).
  rewrite starts_with_app. take_body_route. rewrite lift_ok_bind, (with_body_read _ _ _ _ _ _ Hb), Hj.
  cbn [map_err]. rewrite lift_ok_bind. cbn zeta.
  rewrite trim_start_str_once by (done || by apply segment_start).
  rewrite trim_end_str_once, Hr by done. exact (complete_document _ (mkExchange x (ex_world s))).
Qed.
Lemma route_put_init_read fuel auth r headers s body x :
  authenticated state connection (url_request (mkUrl "POST" "/v1/uploads" []) headers) = Ok auth →
  body_read X fuel (CallPutInit r) (ex_stream s) body x → carries body (CallPutInit r) →
  route_post X state connection fuel (url_request (mkUrl "POST" "/v1/uploads" []) headers) s
  = answered auth (CallPutInit r) x (ex_world s).
Proof.
  intros Ha Hb Hj. cbn [carries] in Hj. unfold_routes. rewrite Ha. cbn zeta.
  cbn [url_request h3_path url_path]. take_body_route.
  rewrite lift_ok_bind, (with_body_read _ _ _ _ _ _ Hb), Hj.
  cbn [map_err]. rewrite lift_ok_bind. exact (complete_document _ (mkExchange x (ex_world s))).
Qed.

Lemma route_request_read fuel c url headers auth body x s :
  addressable c = true → call_url c = Some url →
  authenticated state connection (url_request url headers) = Ok auth →
  body_read X fuel c (ex_stream s) body x → carries body c →
  route_request X state connection fuel (url_request url headers) s = answered auth c x (ex_world s).
Proof.
  intros Hok Hurl Ha Hb Hc. unfold route_request. destruct c; try discriminate Hok.
  - injection Hurl as <-. cbn [url_request h3_method url_method String.eqb]. by eapply route_put_init_read.
  - injection Hurl as <-. by eapply route_put_chunk_read.
  - injection Hurl as <-. by eapply route_put_commit_read.
  - assert (h3_method (url_request url headers) = "GET") as ->
      by (cbn in Hurl; destruct (selector_path _); [by injection Hurl as <-|done]).
    cbn in Hb. subst x. by apply route_head_read.
  - assert (h3_method (url_request url headers) = "GET") as ->
      by (cbn in Hurl; destruct (selector_path _); [by injection Hurl as <-|done]).
    cbn in Hb. subst x. by apply route_get_read.
  - injection Hurl as <-. cbn in Hb. subst x. by apply route_resolve_read.
  - injection Hurl as <-. by eapply route_bind_read.
  - injection Hurl as <-. by eapply route_unbind_read.
  - injection Hurl as <-. cbn in Hb. subst x. by apply route_list_read.
Qed.

(** C18: a URL names its call.  For every call whose namespace, session and object
    names fit into a path and whose query values have no ampersand, the gateway, given
    the URL the routes document for it and a body that carries the rest, authenticates
    the caller, performs exactly that call and renders its answer: nothing is lost or
    changed between the URL and the service. *)
Theorem gateway_url_roundtrip fuel c url headers auth body x s :
  addressable c = true → call_url c = Some url →
  authenticated state connection (url_request url headers) = Ok auth →
  body_read X fuel c (ex_stream s) body x → carries body c →
  route_request X state connection fuel (url_request url headers) s
  = let '(r, w) := call_answer sv auth c (ex_world s) in (Some <$> gateway_reply r, mkExchange x w).
Proof. apply route_request_read. Qed.

(** Some objects have no URL.  A GET for an object whose path ends in a
    [metadata] segment is answered with the metadata of the object in front of it:
    the object itself cannot be fetched through the gateway. *)
Theorem gateway_metadata_shadowed fuel t namespace item query headers auth s :
  segment namespace = true →
  ends_with "/metadata" (OBJECTS_NAMESPACE +:+ namespace +:+ "/" +:+ item) = false →
  query = Some (query_string [("tenant_id", t)]) → plain "&" t = true →
  let request := mkH3Request "GET"
    (OBJECTS_NAMESPACE +:+ namespace +:+ "/" +:+ item +:+ "/metadata") query headers in
  authenticated state connection request = Ok auth →
  route_request X state connection fuel request s
  = answered auth (CallHead (mkHeadRequest t (selector_of_namespace namespace item)))
      (ex_stream s) (ex_world s).
Proof.
  intros Hs Hend -> Ht request Ha.
  assert (request = url_request (mkUrl "GET"
    ((OBJECTS_NAMESPACE +:+ namespace +:+ "/" +:+ item) +:+ "/metadata") [("tenant_id", t)]) headers) as Hreq.
  { unfold request, url_request. cbn [url_method url_path url_query]. f_equal.
    by rewrite !str_app_assoc. }
  rewrite Hreq in *. apply route_request_read with (body := []); [|done..].
  cbn [addressable hq_tenant_id hq_selector selector_of_namespace selector_addressable].
  by rewrite Ht, Hs, Hend.
Qed.
End gateway.

(** ** Two front ends, one service *)

Section native.
Context {V : Type} `{WD : WireDeps V} `{ND : NativeDeps V} `{FD : FrontDeps} `{DP : Deps} `{CP : !CborPayload CapabilityClaims}.
Context {B : Backend} (R : Reader) (W : Writer) (state : NativeState) (others : nat → World B → World B).
Abbreviation sv := (nv_service state).

(** A native request for a call: the operation of the header, and its body. *)
Definition native_request (header : ReqHeader V) (body : bytes) (c : ServiceCall) : Prop :=
  rh_operation V header = call_operation c ∧
  match c with
  | CallPutInit r => from_json body = Ok r
  | CallPutChunk r b => put_chunk_from_params (rh_params V header) = Ok r ∧ body = b
  | CallPutCommit r => from_json body = Ok r
  | CallHead r => from_json body = Ok r
  | CallGet r => from_json body = Ok r
  | CallResolve r => from_json body = Ok r
  | CallBind r => from_json body = Ok r
  | CallUnbind r => from_json body = Ok r
  | CallList r => from_json body = Ok r
  | CallSubscribeStart _ | CallSubscribePoll _ _ => False
  end.

Lemma respond_document {A} `{JsonWrite A} (m : ST (World B) ApiError A) (s : Session R W B) :
  respond R W m (write_json_response (V:=V) W 200) s
  = let '(r, w) := document m (ns_world s) in
    (_ ← on_send R W (native_reply (V:=V) W r); mret Finished) (mkSession (ns_recv s) (ns_send s) w).
Proof.
  unfold respond, document. rewrite ST_bind_run, on_world_attempt. rewrite (ST_bind_run m).
  by destruct (m (ns_world s)) as [[a|e] w].
Qed.
Lemma respond_get auth r (s : Session R W B) :
  respond R W (get sv auth r) (write_get_response (V:=V) W) s
  = let '(a, w) := call_answer sv auth (CallGet r) (ns_world s) in
    (_ ← on_send R W (native_reply (V:=V) W a); mret Finished) (mkSession (ns_recv s) (ns_send s) w).
Proof.
  unfold respond. rewrite ST_bind_run, on_world_attempt. cbn [call_answer]. rewrite (ST_bind_run (get _ _ _)).
  destruct (get sv auth r (ns_world s)) as [[a|e] w]; [|done]. cbn [fst snd]. unfold write_get_response.
  by case_bool_decide.
Qed.

Lemma serve_operation_answers fuel auth header body c (s : Session R W B) :
  native_request header body c →
  serve_operation R W state others fuel (Some auth) header body s
  = let '(r, w) := call_answer sv auth c (ns_world s) in
    (_ ← on_send R W (native_reply (V:=V) W r); mret Finished) (mkSession (ns_recv s) (ns_send s) w).
Proof.
  intros [Hop Hc]. unfold serve_operation, decode_json, decode_json_params, required_auth.
  rewrite Hop. destruct c; cbn [call_operation]; try done; cbn in Hc.
  2:{ destruct Hc as [-> ->]. cbn [ok_or map_err]. rewrite !lift_ok_bind. apply respond_document. }
  all: rewrite Hc; cbn [ok_or map_err]; rewrite !lift_ok_bind;
    first [apply respond_document|apply respond_get].
Qed.
End native.

(** The headers of the gateway and the AUTH frame verify the same callers, with the
    same errors. *)
Theorem same_verification `{Base64Url, Cose} `{!CborPayload CapabilityClaims} connection headers registry f :
  auth_headers headers (af_token_b64 f) (af_channel_binding f) →
  verify_gateway_auth connection headers registry = verify_auth_frame connection registry f.
Proof.
  intros (Ht&Hk&Hp&Hn). unfold verify_gateway_auth, verify_auth_frame. rewrite Ht, Hk, Hp, Hn.
  cbn. by destruct f as [token [kind proof nonce]].
Qed.

Section agree.
Context {V : Type} `{WD : WireDeps V} `{ND : NativeDeps V} `{HD : HttpDeps} `{GD : GatewayDeps} `{FD : FrontDeps}.
Context `{DP : Deps} `{CP : !CborPayload CapabilityClaims} {B : Backend} (sv : AlphaService).
Context (R : Reader) (W : Writer) (X : H3Stream) (registry : IssuerRegistry) (connection : Connection).
Context (others : nat → World B → World B).

(** C17: one service behind two protocols.  The same call, sent to the native server as
    frames and to the gateway as a URL by a caller both have verified, has the same
    effect on the same world and the same answer: the JSON document or the chunks, or
    the error, are the same values, put into frames by one and into a response by the
    other. *)
Theorem front_ends_agree fuel c url headers auth header nbody gbody x (s : Session R W B) (e : Exchange X B) :
  addressable c = true → call_url c = Some url → native_request header nbody c →
  authenticated (mkGatewayState sv registry) connection (url_request url headers) = Ok auth →
  body_read X fuel c (ex_stream e) gbody x → carries gbody c → ns_world s = ex_world e →
  ∃ answer w',
    serve_operation R W (mkNativeState sv registry) others fuel (Some auth) header nbody s
      = (_ ← on_send R W (native_reply (V:=V) W answer); mret Finished)
          (mkSession (ns_recv s) (ns_send s) w') ∧
    route_request X (mkGatewayState sv registry) connection fuel (url_request url headers) e
      = (Some <$> gateway_reply answer, mkExchange x w').
Proof.
  intros Hok Hurl Hn Ha Hb Hc Hw.
  destruct (call_answer sv auth c (ex_world e)) as [answer w'] eqn:Hcall. exists answer, w'. split.
  - rewrite (serve_operation_answers _ _ _ _ _ _ _ _ c) by done. cbn [nv_service]. by rewrite Hw, Hcall.
  - rewrite (route_request_read X _ connection fuel c url headers auth gbody x e) by done.
    unfold answered. cbn [gw_service]. by rewrite Hcall.
Qed.
End agree.

Import ToyService ToyWire ToyFront.
#[local] Instance alpha_capability : CborPayload CapabilityClaims := capability_of "tenant-alpha".

(** The head of an object by its content id. *)
Definition sample_head : ServiceCall := CallHead sample_head_request.
Definition sample_url : Url :=
  mkUrl "GET" "/v1/objects/cid/sha256-object/metadata" [("tenant_id", "tenant-alpha")].
Definition sample_auth : AuthContext :=
  mkAuthContext (claims (sample_token "tenant-alpha" "j1"))
    (Some (mkChannelBindingProof "tls-exporter" (nibbles_encode (as_bytes "nonce-1")) "nonce-1")).
Definition head_exchange : Exchange mem_h3 (fs_backend no_faults) :=
  @mkExchange mem_h3 (fs_backend no_faults) ([], []) sample_world.

(** Witness of C18: the metadata route. *)
Lemma gateway_url_roundtrip_witness :
  route_request mem_h3 sample_gateway sample_connection 0 (url_request sample_url sample_headers) head_exchange
  = let '(r, w) := call_answer concrete_service sample_auth sample_head (ex_world head_exchange) in
    (Some <$> gateway_reply r, @mkExchange mem_h3 _ ([], []) w).
Proof.
  apply (gateway_url_roundtrip mem_h3 sample_gateway sample_connection 0 sample_head sample_url
           sample_headers sample_auth [] ([], []) head_exchange).
  - reflexivity.
  - reflexivity.
  - vm_compute. reflexivity.
  - reflexivity.
  - exact I.
Defined.

Definition head_header : ReqHeader string := mkReqHeader 1 OpHead None (Some PmJson) None ∅ ∅.
Definition head_session : Session mem_reader mem_writer (fs_backend no_faults) :=
  @mkSession mem_reader mem_writer _ [] [] sample_world.

(** Witness of C17: the same head through both servers. *)
Lemma front_ends_agree_witness :
  ∃ answer w',
    serve_operation mem_reader mem_writer sample_native (λ _ w, w) 0 (Some sample_auth) head_header
      (as_bytes "{}") head_session
      = (_ ← on_send mem_reader mem_writer (native_reply (V:=string) mem_writer answer); mret Finished)
          (mkSession (ns_recv head_session) (ns_send head_session) w') ∧
    route_request mem_h3 sample_gateway sample_connection 0 (url_request sample_url sample_headers)
      head_exchange
      = (Some <$> gateway_reply answer, @mkExchange mem_h3 _ ([], []) w').
Proof.
  apply (front_ends_agree (V:=string) concrete_service mem_reader mem_writer mem_h3 sample_registry
           sample_connection (λ _ w, w) 0 sample_head sample_url sample_headers sample_auth head_header
           (as_bytes "{}") [] ([], []) head_session head_exchange).
  - reflexivity.
  - reflexivity.
  - split; reflexivity.
  - vm_compute. reflexivity.
  - reflexivity.
  - exact I.
  - reflexivity.
Defined.
