(* ===== verification/Server.v ===== *)
(** * The native server and the gateway: tasks and connections

    Models the tasks of [server/hspd/src/lib.rs] ([spawn_native_beta_server],
    [handle_connection], [shutdown]) and of [gateway/hsp-gw/src/lib.rs]
    ([spawn_gateway_beta_server], [handle_gateway_connection], [shutdown]).  A task is where its code
    awaits the transport; [native_resume] and [gateway_resume] run it from there, with
    what the transport answered, to its next await, and say which tasks there are then.
    A server is the list of its tasks with the world they share; a schedule says which
    task is resumed next and with what, so that a theorem for every schedule is one for
    every behaviour of the clients, the transport and the executor.

    A stream of the native server and a request of the gateway are served in one turn,
    except that other tasks run in the pauses of a subscription ([others]); all other
    requests make at most one call of the service, so this is the interleaving of calls;
    [Interleaving.v] splits the calls further.  The limits on concurrent streams and the
    effect of [Endpoint::close] on connections belong to the transport. *)

From Stdlib Require Import ZArith Lia Ascii String Bool.
From stdpp Require Import base option list strings gmap numbers.
From S2P Require Import Prelude RustStr Path Core Cbor Concrete Auth Crypto Store ServiceState ServiceFacts Access Namespaces Objects Subscribe ConcreteService EventProps Service AmzDate SigV4 UrlStr Http Wire WireProps Front Native Gateway ConcreteFront NativeProps GatewayProps.

(** ** Schedules *)

Section schedule.
Context {Task Wakeup State : Type}.
(** What a task does when it is woken: the tasks that replace it and the state; [None]
    if it does not await that. *)
Context (resume : Task → Wakeup → State → option (list Task * State)).

Definition turn (s : list Task * State) (turn : nat * Wakeup) : list Task * State :=
  let '(tasks, state) := s in
  let '(i, wakeup) := turn in
  match (task ← tasks !! i; resume task wakeup state) with
  | Some (continues, state') => (delete i tasks ++ continues, state')
  | None => s
  end.
Definition serve (schedule : list (nat * Wakeup)) (s : list Task * State) : list Task * State :=
  foldl turn s schedule.

(** An invariant of the tasks and the state that every resumption keeps. *)
Lemma serve_invariant (P : Task → State → Prop) (Q : State → Prop) schedule tasks state :
  (∀ task wakeup x continues x', resume task wakeup x = Some (continues, x') → P task x → Q x →
     Q x' ∧ Forall (λ task', P task' x') continues ∧ ∀ task', P task' x → P task' x') →
  Forall (λ task, P task state) tasks → Q state →
  Forall (λ task, P task (serve schedule (tasks, state)).2) (serve schedule (tasks, state)).1 ∧
  Q (serve schedule (tasks, state)).2.
Proof.
  intros Hresume. revert tasks state.
  induction schedule as [|[i wakeup] schedule IH]; intros tasks state Hp Hq; [done|].
  change (serve ((i, wakeup) :: schedule) (tasks, state)) with (serve schedule (turn (tasks, state) (i, wakeup))).
  cbn [turn]. destruct (tasks !! i) as [task|] eqn:Hi; cbn; [|by apply IH].
  destruct (resume task wakeup state) as [[continues state']|] eqn:Hr; [|by apply IH].
  destruct (Hresume _ _ _ _ _ Hr) as (Hq'&Hnew&Hmono); [exact (Forall_lookup_1 _ _ _ _ Hp Hi)|done|].
  apply IH; [|done]. apply Forall_app. split; [|done].
  apply Forall_delete. revert Hp. by apply Forall_impl.
Qed.
End schedule.

(** ** The native server *)

Section native_server.
Context {V : Type} `{WD : WireDeps V} `{ND : NativeDeps V} `{FD : FrontDeps} `{DP : Deps} `{CP : !CborPayload CapabilityClaims}.
Context {B : Backend} (R : Reader) (W : Writer) (state : NativeState) (others : nat → World B → World B).
Abbreviation sv := (nv_service state).

Inductive NativeTask :=
| AcceptLoop                             (** [accept_endpoint.accept().await] *)
| Handshake                              (** [connecting.await] *)
| SendSettings (connection : Connection) (** [connection.open_uni().await] *)
| StreamLoop (connection : Connection)   (** [connection.accept_bi().await] *)
| RequestStream (connection : Connection) (send : wstate W) (recv : rstate R).
Inductive NativeWakeup :=
| Incoming (more : bool)
| Connected (connection : option Connection)
| UniOpened (stream : option (wstate W))
| BiAccepted (streams : option (wstate W * rstate R))
| StreamRuns (fuel : nat).

(** The SETTINGS streams that were written, the latest first, and the world. *)
Record NativeServer := mkNativeServer {
  srv_settings : list (Connection * wstate W);
  srv_world : World B;
}.

(** A turn of the loop of [handle_connection]: an accepted stream gets a task of its own. *)
Definition handle_connection (connection : Connection) (accepted : option (wstate W * rstate R))
  : list NativeTask :=
  match accepted with
  | None => []
  | Some (send, recv) => [StreamLoop connection; RequestStream connection send recv]
  end.

Definition native_resume (task : NativeTask) (wakeup : NativeWakeup) (s : NativeServer)
  : option (list NativeTask * NativeServer) :=
  match task, wakeup with
  | AcceptLoop, Incoming more => Some (if more then [AcceptLoop; Handshake] else [], s)
  | Handshake, Connected connection => Some (SendSettings <$> option_list connection, s)
  | SendSettings connection, UniOpened None => Some ([], s)
  | SendSettings connection, UniOpened (Some stream) =>
      let '(r, stream') := send_settings (V := V) W state stream in
      let s' := mkNativeServer ((connection, stream') :: srv_settings s) (srv_world s) in
      Some (if is_ok r then [StreamLoop connection] else [], s')
  | StreamLoop connection, BiAccepted accepted => Some (handle_connection connection accepted, s)
  | RequestStream connection send recv, StreamRuns fuel =>
      let '(_, session) :=
        handle_request_stream (V := V) R W state connection others fuel (mkSession recv send (srv_world s)) in
      Some ([], mkNativeServer (srv_settings s) (ns_world session))
  | _, _ => None
  end.

(** The server when [spawn_native_beta_server] returns. *)
Definition native_started (w : World B) : list NativeTask * NativeServer :=
  ([AcceptLoop], mkNativeServer [] w).
Definition native_run (schedule : list (nat * NativeWakeup)) (w : World B)
  : list NativeTask * NativeServer :=
  serve native_resume schedule (native_started w).
(** [shutdown]: of the tasks, the accept loop is aborted. *)
Definition shutdown (s : list NativeTask * NativeServer) : list NativeTask * NativeServer :=
  (List.filter (λ task, match task with AcceptLoop => false | _ => true end) s.1, s.2).

(** ** What is served *)

(** A SETTINGS frame was written completely on the connection. *)
Definition was_greeted (s : NativeServer) (connection : Connection) : Prop :=
  ∃ stream stream', (connection, stream') ∈ srv_settings s ∧
    send_settings (V := V) W state stream = (Ok tt, stream').
Definition task_greeted (task : NativeTask) (s : NativeServer) : Prop :=
  match task with
  | StreamLoop connection | RequestStream connection _ _ => was_greeted s connection
  | _ => True
  end.
(** The effect so far is that of calls for callers verified on greeted connections. *)
Definition verified_calls (w : World B) (s : NativeServer) : Prop :=
  ∃ steps, srv_world s = run_steps sv others steps w ∧
    ∀ auth call, Calls auth call ∈ steps → ∃ connection token_b64 binding,
      was_greeted s connection ∧
      VerifiedCaller connection (nv_issuer_registry state) token_b64 binding auth.

Lemma native_resume_keeps w task wakeup s continues s' :
  native_resume task wakeup s = Some (continues, s') → task_greeted task s → verified_calls w s →
  verified_calls w s' ∧ Forall (λ task', task_greeted task' s') continues ∧
  ∀ task', task_greeted task' s → task_greeted task' s'.
Proof.
  intros Hr Hg Hq. destruct task, wakeup; cbn in Hr; simplify_eq.
  - split_and!; [done| |done]. destruct more; by repeat constructor.
  - split_and!; [done| |done]. destruct connection; by repeat constructor.
  - destruct stream as [stream|]; simplify_eq; [|by split_and!; [|constructor|]].
    destruct (send_settings W state stream) as [r stream'] eqn:Hs. simplify_eq.
    assert (∀ c, was_greeted s c → was_greeted (mkNativeServer ((connection, stream') :: srv_settings s) (srv_world s)) c)
      as Hmono by (intros c (g&g'&Hin&Hgg); exists g, g'; split; [by right|done]).
    split_and!.
    + destruct Hq as (steps&Hw&Hcalls). exists steps. split; [done|].
      intros auth call Hin. destruct (Hcalls _ _ Hin) as (c&tok&b&Hc&Hv). exists c, tok, b. auto.
    + destruct r as [[]|e]; repeat constructor. exists stream, stream'. split; [by left|done].
    + intros task'. destruct task'; cbn; auto.
  - split_and!; [done| |done]. by destruct streams as [[send recv]|]; repeat constructor.
  - destruct (handle_request_stream R W state connection others fuel (mkSession recv send (srv_world s)))
      as [r session] eqn:Hrun. simplify_eq.
    split_and!; [|by constructor|by intros []].
    destruct (stream_calls (V := V) R W state connection others fuel (mkSession recv send (srv_world s)))
      as (steps&Hw&Hcalls). rewrite Hrun in Hw. cbn in Hw.
    destruct Hq as (before&Hbefore&Hcalled). exists (before ++ steps). cbn. split.
    + by rewrite Hw, Hbefore, run_steps_app.
    + intros auth call [Hin|Hin]%elem_of_app; [by destruct (Hcalled _ _ Hin) as (c&tok&b&?&?); exists c, tok, b|].
      destruct (Hcalls _ _ Hin) as (f&h&r0&r1&_&Hv&_). by eexists connection, _, _.
Qed.

Lemma native_run_verified schedule w : verified_calls w (native_run schedule w).2.
Proof.
  eapply (serve_invariant native_resume task_greeted (verified_calls w)); [by apply native_resume_keeps|by repeat constructor|].
  exists []. split; [done|]. by intros ?? ?%elem_of_nil.
Qed.

(** After a shutdown no connection is accepted, whatever the transport answers; the
    streams that run are not stopped. *)
Theorem shutdown_stops_accepting schedule s :
  (AcceptLoop ∉ (serve native_resume schedule (shutdown s)).1) ∧
  ∀ connection send recv, RequestStream connection send recv ∈ s.1 →
    RequestStream connection send recv ∈ (shutdown s).1.
Proof.
  split.
  - destruct (serve_invariant native_resume (λ task _, task ≠ AcceptLoop) (λ _, True) schedule
      (shutdown s).1 (shutdown s).2) as [Hall _]; [| |done|].
    + intros task wakeup x continues x' Hr Hne _. split_and!; [done| |done].
      destruct task, wakeup; cbn in Hr; simplify_eq; repeat case_match; simplify_eq;
        first [by repeat constructor | by destruct connection; repeat constructor
              | by destruct streams as [[]|]; repeat constructor].
    + apply Forall_forall. intros task Hin%filter_In ->. by destruct Hin.
    + rewrite Forall_forall in Hall. intros Hin%list_elem_of_In. by apply (Hall AcceptLoop).
  - intros connection send recv Hin. apply list_elem_of_In, filter_In.
    split; [by apply list_elem_of_In|done].
Qed.
End native_server.

Section native_isolation.
Context {V : Type} `{WD : WireDeps V} `{ND : NativeDeps V} `{FD : FrontDeps} `{DL : DepsLaws}.
Context `{CP : !CborPayload CapabilityClaims} {B : Backend} `{BL : BackendLaws B}.
Context (R : Reader) (W : Writer) (state : NativeState) (others : nat → World B → World B).

(** C36: what the native server does over its whole life.  From its start on, whatever
    the clients send, the transport answers and the executor schedules: all the server
    has done to the store are calls of the service, each for a caller whose capability
    verified on a connection that had been sent the whole SETTINGS frame before.  So a
    tenant for whom no capability verifies on such a connection keeps all its files but
    those of its event log, which receives the refusals, as long as what runs while a
    subscription pauses keeps them too. *)
Theorem native_server_isolation schedule (w : World B) :
  let s := (native_run (V := V) R W state others schedule w).2 in
  (∃ steps, srv_world W s = run_steps (nv_service state) others steps w ∧
     ∀ auth call, Calls auth call ∈ steps → ∃ connection token_b64 binding,
       was_greeted (V := V) W state s connection ∧
       VerifiedCaller connection (nv_issuer_registry state) token_b64 binding auth) ∧
  ∀ t k key,
    (∀ connection token_b64 binding auth, was_greeted (V := V) W state s connection →
       VerifiedCaller connection (nv_issuer_registry state) token_b64 binding auth →
       cl_tenant_id (claims auth) ≠ t) →
    (∀ n v, files (others n v) !! store_key t k key = files v !! store_key t k key) →
    slash_free k = true → k ≠ "events" →
    files (srv_world W s) !! store_key t k key = files w !! store_key t k key.
Proof.
  intros s. destruct (native_run_verified (V := V) R W state others schedule w) as (steps&Hw&Hcalls).
  split; [by exists steps|]. intros t k key Hnone Hothers Hk Hev. subst s. rewrite Hw.
  apply run_steps_other_tenant; [|done..]. intros a c Hin.
  destruct (Hcalls _ _ Hin) as (connection&token&binding&Hg&Hv). by eapply Hnone.
Qed.
End native_isolation.

(** ** The gateway *)

Section gateway_server.
Context `{HD : HttpDeps} `{GD : GatewayDeps} `{FD : FrontDeps} `{DP : Deps} `{CP : !CborPayload CapabilityClaims}.
Context {B : Backend} (X : H3Stream) (state : GatewayState) (others : nat → World B → World B).

Inductive GatewayTask :=
| GwAcceptLoop                            (** [accept_endpoint.accept().await] *)
| GwHandshake                             (** [connecting.await] *)
| GwStart (connection : Connection)       (** [H3Connection::new(h3_conn).await] *)
| GwRequestLoop (connection : Connection)  (** [h3.accept().await] and [resolve_request().await] *).
Inductive H3Accepted :=
| NoMoreRequests
| Unresolved
| Resolved (request : H3Request) (stream : hstate X).
Inductive GatewayWakeup :=
| GwIncoming (more : bool)
| GwConnected (connection : option Connection)
| GwStarted (ok : bool)
| GwAccepted (accepted : H3Accepted) (fuel : nat).

Definition gateway_resume (task : GatewayTask) (wakeup : GatewayWakeup) (w : World B)
  : option (list GatewayTask * World B) :=
  match task, wakeup with
  | GwAcceptLoop, GwIncoming more => Some (if more then [GwAcceptLoop; GwHandshake] else [], w)
  | GwHandshake, GwConnected connection => Some (GwStart <$> option_list connection, w)
  | GwStart connection, GwStarted ok => Some (if ok then [GwRequestLoop connection] else [], w)
  | GwRequestLoop connection, GwAccepted NoMoreRequests _ => Some ([], w)
  | GwRequestLoop connection, GwAccepted Unresolved _ => Some ([GwRequestLoop connection], w)
  | GwRequestLoop connection, GwAccepted (Resolved request x) fuel =>
      match serve_request X state connection others fuel request (mkExchange x w) with
      | (Ok true, s) => Some ([GwRequestLoop connection], ex_world s)
      | (_, s) => Some ([], ex_world s)
      end
  | _, _ => None
  end.
Definition gateway_run (schedule : list (nat * GatewayWakeup)) (w : World B)
  : list GatewayTask * World B :=
  serve gateway_resume schedule ([GwAcceptLoop], w).
(** [shutdown]: of the tasks, the accept loop is aborted. *)
Definition gateway_shutdown (s : list GatewayTask * World B) : list GatewayTask * World B :=
  (List.filter (λ task, match task with GwAcceptLoop => false | _ => true end) s.1, s.2).

(** Over its whole life the gateway only makes calls of the service for callers verified
    on the connection of their request, and with a method that allows the operation. *)
Theorem gateway_server_calls schedule (w : World B) :
  ∃ steps, (gateway_run schedule w).2 = run_steps (gw_service state) others steps w ∧
    ∀ auth call, Calls auth call ∈ steps → ∃ connection request,
      caller_of state connection request auth ∧
      method_allows (h3_method request) (call_operation call) = true.
Proof.
  unfold gateway_run.
  edestruct (serve_invariant gateway_resume (λ _ _, True) (λ w', ∃ steps,
    w' = run_steps (gw_service state) others steps w ∧
    ∀ auth call, Calls auth call ∈ steps → ∃ connection request,
      caller_of state connection request auth ∧
      method_allows (h3_method request) (call_operation call) = true)) as [_ Hq];
    [|by repeat constructor| |exact Hq].
  - intros task wakeup v continues v' Hr _ Hq. split; [|split; [by apply Forall_true|done]].
    destruct task, wakeup; cbn in Hr; simplify_eq; try done.
    destruct accepted as [| |request x]; simplify_eq; try done.
    assert (v' = ex_world (serve_request X state connection others fuel request (mkExchange x v)).2) as ->
      by (destruct (serve_request _ _ _ _ _ _ _) as [[[]|] s1]; by simplify_eq/=).
    destruct (serve_request_served X state connection others fuel request (mkExchange x v)) as (more&Hs&->).
    destruct Hq as (steps&->&Hcalls). exists (steps ++ more). split; [by rewrite run_steps_app|].
    intros auth call [Hin|Hin]%elem_of_app; [by apply Hcalls|].
    destruct (Hs _ _ Hin) as (Ha&Hm&_). by exists connection, request.
  - exists []. split; [done|]. by intros ?? ?%elem_of_nil.
Qed.
End gateway_server.

(** ** Witness *)

Import ToyService ToyWire ToyFront.
#[local] Instance beta_capability : CborPayload CapabilityClaims := capability_of "tenant-beta".

(** A client of tenant-beta connects, receives the settings and asks for an object of
    tenant-alpha: the request is refused, after its capability was verified. *)
Definition beta_stream : bytes := Eval vm_compute in
  (write_frames (V := string) mem_writer
     [FrAuth (mkAuthFrame (nibbles_encode (as_bytes "token"))
        (mkChannelBindingProof "tls-exporter" (nibbles_encode (as_bytes "nonce-1")) "nonce-1"));
      FrReqHeader (mkReqHeader 1 OpHead None (Some PmJson) None ∅ ∅); FrData (as_bytes "{}"); FrEnd] []).2.
Definition beta_schedule : list (nat * NativeWakeup mem_reader mem_writer) :=
  [(0%nat, Incoming mem_reader mem_writer true);
   (1%nat, Connected mem_reader mem_writer (Some sample_connection));
   (1%nat, UniOpened mem_reader mem_writer (Some ([] : wstate mem_writer)));
   (1%nat, BiAccepted mem_reader mem_writer (Some ([] : wstate mem_writer, beta_stream : rstate mem_reader)));
   (2%nat, StreamRuns mem_reader mem_writer 5)].
Definition beta_run : list (NativeTask mem_reader mem_writer) * NativeServer mem_writer :=
  native_run (V := string) mem_reader mem_writer sample_native (λ _ w, w) beta_schedule sample_world.

(** Witness of C36: the stream was served and only the loops are left; tenant-alpha's
    event log has the refusal, and its manifest is untouched. *)
Lemma native_server_isolation_witness :
  length beta_run.1 = 2%nat ∧ length (srv_settings mem_writer beta_run.2) = 1%nat ∧
  bool_decide (is_Some (files (srv_world mem_writer beta_run.2)
    !! store_key "tenant-alpha" "events" "sequence")) = true ∧
  files (srv_world mem_writer beta_run.2) !! store_key "tenant-alpha" "manifests" "sha256-object"
  = files sample_world !! store_key "tenant-alpha" "manifests" "sha256-object".
Proof.
  split; [vm_compute; reflexivity|]. split; [vm_compute; reflexivity|]. split; [vm_compute; reflexivity|].
  apply (proj2 (native_server_isolation (V := string) mem_reader mem_writer sample_native (λ _ w, w)
           beta_schedule sample_world)).
  - intros connection token binding auth _ [Hc _ _ _].
    apply capability_tenant in Hc. rewrite Hc. discriminate.
  - reflexivity.
  - reflexivity.
  - discriminate.
Defined.
