(* ===== verification/S3Client.v ===== *)
(** * hsp-service, store.rs: the client of an S3 backing store

    The S3 half of [crates/hsp-service/src/store.rs]: the configuration and its
    redacted form, the constructor of [S3ObjectStore] with the trust anchors of its
    agent, the signed request, the operations on one object, the listing over pages
    of XML, and the names of objects below the configured prefix.

    The HTTP agent with the service behind it, the certificate store, files, the
    environment and the conversion of the clock to a date are parameters.  An
    exchange of the agent is one step of the state [remote] of the service.  A
    response body is a reader: bytes, then possibly an error. *)

From Stdlib Require Import ZArith Lia Ascii String Bool.
From stdpp Require Import base option list strings gmap numbers sorting.
From S2P Require Import Prelude RustStr Path Core Cbor Store AmzDate Distribution SigV4 UrlStr.

(** ** Strings *)

(** [s.trim_matches('/')] *)
Definition trim_slashes (s : string) : string := trim_end_char slash (trim_start_char slash s).

(** [s.replace(pattern, replacement)] for a pattern that is not empty. *)
Definition str_replace (pattern replacement s : string) : string :=
  join replacement (split_str pattern s).

(** [String::from_utf8_lossy]: a maximal part of a well-formed sequence that is not
    continued becomes U+FFFD, as does a byte that starts none. *)
Definition replacement_character : bytes := [byte_of 239; byte_of 191; byte_of 189].
Definition utf8_continuations (b0 : ascii) : option (list (Z * Z)) :=
  let c lo hi := in_range lo hi b0 in
  if c 0 127 then Some []
  else if c 194 223 then Some [(128, 191)]
  else if c 224 224 then Some [(160, 191); (128, 191)]
  else if c 237 237 then Some [(128, 159); (128, 191)]
  else if c 225 239 then Some [(128, 191); (128, 191)]
  else if c 240 240 then Some [(144, 191); (128, 191); (128, 191)]
  else if c 241 243 then Some [(128, 191); (128, 191); (128, 191)]
  else if c 244 244 then Some [(128, 143); (128, 191); (128, 191)]
  else None.
(** [part] is what was read of the current sequence, [todo] what continues it. *)
Fixpoint utf8_lossy (part : bytes) (todo : list (Z * Z)) (b : bytes) : bytes :=
  match b with
  | [] => match todo with [] => part | _ => replacement_character end
  | x :: rest =>
      let restart :=
        match utf8_continuations x with
        | None => replacement_character ++ utf8_lossy [] [] rest
        | Some todo' => utf8_lossy [x] todo' rest
        end in
      match todo with
      | [] => part ++ restart
      | (lo, hi) :: todo' =>
          if in_range lo hi x then utf8_lossy (part ++ [x]) todo' rest
          else replacement_character ++ restart
      end
  end.
Definition from_utf8_lossy (b : bytes) : string := of_bytes (utf8_lossy [] [] b).

(** [s.lines()]: without line ends, and without an empty last line. *)
Definition strip_cr (line : string) : string :=
  match str_rev line with
  | String "013"%char rest => str_rev rest
  | _ => line
  end.
Fixpoint complete_lines (parts : list string) : list string :=
  match parts with
  | [] => []
  | [unterminated] => if str_is_empty unterminated then [] else [unterminated]
  | line :: rest => strip_cr line :: complete_lines rest
  end.
Definition str_lines (s : string) : list string := complete_lines (split_on "010"%char s).

(** ** Configuration *)

Record S3StorageBackendConfig := mkS3StorageBackendConfig {
  sc_endpoint_url : string;
  sc_bucket : string;
  sc_region : string;
  sc_prefix : string;
  sc_access_key : string;
  sc_secret_key : string;
  sc_ca_cert_path : option string;
}.
Inductive StorageBackendConfig :=
| FilesystemConfig
| S3Config (config : S3StorageBackendConfig).

Definition first_non_empty (value fallback : string) : string :=
  if str_is_empty (trim value) then fallback else trim value.
Definition redact_nonempty (value : string) : string :=
  if str_is_empty (trim value) then "" else "<redacted>".
Definition storage_status_error (code : string) (status : Z) (detail : string) : ApiError :=
  storage_error code
    (if str_is_empty (trim detail) then "S3 returned status " +:+ dec status
     else "S3 returned status " +:+ dec status +:+ ": " +:+ trim detail).

(** [fmt::Debug] of strings and paths, whose escapes depend on Unicode tables. *)
Class DebugText := { debug_str : string → string }.

Section debug.
Context `{DebugText}.

Definition debug_option_path (path : option string) : string :=
  match path with None => "None" | Some p => "Some(" +:+ debug_str p +:+ ")" end.
(** [debug_struct] with its fields, and [finish] or [finish_non_exhaustive]. *)
Definition debug_struct (name : string) (fields : list (string * string)) (exhaustive : bool)
  : string :=
  name +:+ " { " +:+ join ", " (((λ f, f.1 +:+ ": " +:+ f.2) <$> fields) ++
                                (if exhaustive then [] else [".."])) +:+ " }".
Definition s3_config_debug (c : S3StorageBackendConfig) : string :=
  debug_struct "S3StorageBackendConfig"
    [("endpoint_url", debug_str (sc_endpoint_url c)); ("bucket", debug_str (sc_bucket c));
     ("region", debug_str (sc_region c)); ("prefix", debug_str (sc_prefix c));
     ("access_key", debug_str (redact_nonempty (sc_access_key c)));
     ("secret_key", debug_str (redact_nonempty (sc_secret_key c)));
     ("ca_cert_path", debug_option_path (sc_ca_cert_path c))] true.
Definition storage_config_debug (config : StorageBackendConfig) : string :=
  match config with
  | FilesystemConfig => "Filesystem"
  | S3Config c => "S3(" +:+ s3_config_debug c +:+ ")"
  end.

(** The variables of the environment that are set to valid Unicode. *)
Definition env_optional_path (env : string → option string) (name : string) : option string :=
  value ← env name; if str_is_empty (trim value) then None else Some (trim value).
Definition env_required (env : string → option string) (name : string) : result ApiError string :=
  ok_or (value ← env name; if str_is_empty (trim value) then None else Some (trim value))
    (config_error (name +:+ " is required")).
Definition env_either (env : string → option string) (name other : string)
  : result ApiError string :=
  ok_or (match env name with Some value => Some value | None => env other end)
    (config_error (name +:+ " or " +:+ other +:+ " is required")).

Definition storage_backend_config_from_env (env : string → option string)
  : result ApiError StorageBackendConfig :=
  let value := to_ascii_lowercase (trim (default "filesystem" (env "HSP_STORAGE_BACKEND"))) in
  if bool_decide (value ∈ [""; "filesystem"; "fs"]) then Ok FilesystemConfig
  else if String.eqb value "s3" then
    endpoint_url ← env_required env "HSP_BACKING_S3_ENDPOINT";
    bucket ← env_required env "HSP_BACKING_S3_BUCKET";
    let region := default "us-east-1" (env "HSP_BACKING_S3_REGION") in
    let prefix := default "" (env "HSP_BACKING_S3_PREFIX") in
    access_key ← env_either env "HSP_BACKING_S3_ACCESS_KEY" "AWS_ACCESS_KEY_ID";
    secret_key ← env_either env "HSP_BACKING_S3_SECRET_KEY" "AWS_SECRET_ACCESS_KEY";
    Ok (S3Config (mkS3StorageBackendConfig endpoint_url bucket region prefix access_key secret_key
                    (env_optional_path env "HSP_BACKING_S3_CA_CERT_PATH")))
  else Err (config_error ("unsupported HSP_STORAGE_BACKEND " +:+ debug_str value +:+
                          "; use filesystem or s3")).
End debug.

Definition endpoint_host (endpoint_url : string) : result ApiError string :=
  without_scheme ← ok_or
    (match strip_prefix "https://" endpoint_url with
     | Some rest => Some rest
     | None => strip_prefix "http://" endpoint_url
     end) (config_error "HSP_BACKING_S3_ENDPOINT must start with http:// or https://");
  let host := trim (default "" (head (split_on slash without_scheme))) in
  if str_is_empty host then Err (config_error "HSP_BACKING_S3_ENDPOINT host is empty")
  else Ok host.

Definition normalize_store_prefix (prefix : string) : string :=
  let trimmed := trim_slashes (trim prefix) in
  if str_is_empty trimmed then "" else trimmed +:+ "/".

(** ** Encodings of the signed request *)

(** [format!("{byte:02X}")] *)
Definition hex_digit_upper (n : Z) : ascii := if n <? 10 then byte_of (48 + n) else byte_of (55 + n).
Definition percent_byte (c : ascii) : string :=
  String percent (String (hex_digit_upper (byte_val c / 16))
                     (String (hex_digit_upper (byte_val c mod 16)) "")).
Definition unreserved (c : ascii) : bool :=
  is_ascii_alphanumeric c || bool_decide (c ∈ ["-"; "_"; "."; "~"]%char).
Fixpoint percent_encode (value : string) (encode_slash : bool) : string :=
  match value with
  | EmptyString => ""
  | String c rest =>
      (if unreserved c || (negb encode_slash && Ascii.eqb c slash) then String c ""
       else percent_byte c) +:+ percent_encode rest encode_slash
  end.
Definition percent_encode_path_segment (value : string) : string := percent_encode value false.
Definition percent_encode_query (value : string) : string := percent_encode value true.

Definition non_empty_segments (key : string) : list string :=
  List.filter (λ segment, negb (str_is_empty segment)) (split_on slash key).
Definition encode_s3_key_path (key : string) : string :=
  join "/" (percent_encode_path_segment <$> non_empty_segments (trim_slashes key)).

(** [Ord] of a pair of strings. *)
Definition pair_le (a b : string * string) : Prop :=
  a.1 ≠ b.1 ∧ String.le a.1 b.1 ∨ a.1 = b.1 ∧ String.le a.2 b.2.
#[global] Instance pair_le_dec : RelDecision pair_le.
Proof. intros a b. unfold pair_le. apply _. Defined.
Definition canonical_query_string (query : list (string * string)) : string :=
  join "&" ((λ p, p.1 +:+ "=" +:+ p.2) <$>
    merge_sort pair_le
      ((λ p, (percent_encode_query p.1, percent_encode_query p.2)) <$> query)).

(** ** XML *)

Definition xml_unescape (value : string) : string :=
  str_replace "&amp;" "&"
    (str_replace "&apos;" (String "039"%char "")
      (str_replace "&quot;" (String "034"%char "")
        (str_replace "&gt;" ">" (str_replace "&lt;" "<" value)))).

(** Each round consumes a pair of tags, so as many rounds as bytes suffice. *)
Fixpoint xml_values_from (fuel : nat) (open close rest : string) : list string :=
  match fuel with
  | O => []
  | S f =>
      match split_once_str open rest with
      | None => []
      | Some (_, after) =>
          match split_once_str close after with
          | None => []
          | Some (value, rest') => xml_unescape value :: xml_values_from f open close rest'
          end
      end
  end.
Definition xml_values (body tag : string) : list string :=
  xml_values_from (S (String.length body)) ("<" +:+ tag +:+ ">") ("</" +:+ tag +:+ ">") body.

(** ** The agent *)

Record HttpExchange := mkHttpExchange {
  hx_method : string;
  hx_url : string;
  hx_headers : list (string * string);
  hx_body : option bytes;
}.
(** A response body as its reader yields it. *)
Record BodyReader := mkBodyReader {
  rd_bytes : bytes;
  rd_error : option string;
}.
(** [Result<ureq::Response, ureq::Error>] *)
Inductive AgentResult :=
| AgentResponse (body : BodyReader)
| AgentStatus (status : Z) (body : BodyReader)
| AgentTransport (error : string).

Class S3ClientDeps := {
  s3_hmac_sha256 : bytes → bytes → bytes;
  read_file : string → result string bytes;
  base64_standard_decode : bytes → result string bytes;
  agent : Type;
  default_agent : agent;
  (** [RootCertStore::add_parsable_certificates]: how many are usable. *)
  usable_certificates : list bytes → nat;
  agent_with_roots : list bytes → agent;
  (** [OffsetDateTime::from] of milliseconds since the epoch, as year, month, day,
      hour, minute and second. *)
  utc_fields : Z → Z * Z * Z * (Z * Z * Z);
  remote : Type;
  agent_send : agent → HttpExchange → remote → AgentResult * remote;
}.

Definition pem_begin : string := "-----BEGIN CERTIFICATE-----".
Definition pem_end : string := "-----END CERTIFICATE-----".

Section certificates.
Context `{S3ClientDeps}.

Definition pem_body (body : string) : string :=
  join "" (List.filter (λ line, negb (str_is_empty line)) (trim <$> str_lines body)).
(** Each round consumes a pair of markers. *)
Fixpoint pem_blocks (fuel : nat) (rest : string) : result string (list bytes) :=
  match fuel with
  | O => Ok []
  | S f =>
      match split_once_str pem_begin rest with
      | None => Ok []
      | Some (_, after_begin) =>
          match split_once_str pem_end after_begin with
          | None => Err "certificate block is missing END marker"
          | Some (body, rest') =>
              der ← map_err (λ error, "certificate base64 decode failed: " +:+ error)
                      (base64_standard_decode (as_bytes (pem_body body)));
              certs ← pem_blocks f rest';
              Ok (der :: certs)
          end
      end
  end.
Definition parse_pem_certificates (pem : bytes) : result string (list bytes) :=
  text ← ok_or (from_utf8 pem) "CA bundle is not valid UTF-8 PEM";
  pem_blocks (S (String.length text)) text.

Definition build_s3_agent (ca_cert_path : option string) : result ApiError agent :=
  match ca_cert_path with
  | None => Ok default_agent
  | Some path =>
      pem ← map_err (λ error, storage_error "s3_ca_read_failed"
                                ("failed to read " +:+ path +:+ ": " +:+ error)) (read_file path);
      certs ← map_err (λ error, storage_error "s3_ca_parse_failed"
                                  ("failed to parse " +:+ path +:+ ": " +:+ error))
                (parse_pem_certificates pem);
      if bool_decide (certs = []) then
        Err (storage_error "s3_ca_parse_failed" (path +:+ " does not contain PEM certificates"))
      else if Nat.eqb (usable_certificates certs) 0 then
        Err (storage_error "s3_ca_parse_failed"
               (path +:+ " does not contain usable CA certificates"))
      else Ok (agent_with_roots certs)
  end.

(** ** The store *)

Record S3ObjectStore := mkS3ObjectStore {
  st_config : S3StorageBackendConfig;
  st_endpoint_url : string;
  st_endpoint_host : string;
  st_agent : agent;
}.

Definition s3_object_store_new (config : S3StorageBackendConfig) : result ApiError S3ObjectStore :=
  let endpoint_url := trim_end_char slash (trim (sc_endpoint_url config)) in
  if str_is_empty endpoint_url then Err (config_error "HSP_BACKING_S3_ENDPOINT is required")
  else if str_is_empty (trim (sc_bucket config)) then
    Err (config_error "HSP_BACKING_S3_BUCKET is required")
  else if str_is_empty (trim (sc_access_key config)) then
    Err (config_error "HSP_BACKING_S3_ACCESS_KEY or AWS_ACCESS_KEY_ID is required")
  else if str_is_empty (trim (sc_secret_key config)) then
    Err (config_error "HSP_BACKING_S3_SECRET_KEY or AWS_SECRET_ACCESS_KEY is required")
  else
    host ← endpoint_host endpoint_url;
    agent ← build_s3_agent (sc_ca_cert_path config);
    Ok (mkS3ObjectStore
          (mkS3StorageBackendConfig endpoint_url (trim (sc_bucket config))
             (first_non_empty (sc_region config) "us-east-1")
             (normalize_store_prefix (sc_prefix config)) (trim (sc_access_key config))
             (trim (sc_secret_key config)) (sc_ca_cert_path config))
          endpoint_url host agent).

Definition s3_object_store_debug `{DebugText} (store : S3ObjectStore) : string :=
  debug_struct "S3ObjectStore"
    [("config", s3_config_debug (st_config store));
     ("endpoint_url", debug_str (st_endpoint_url store));
     ("endpoint_host", debug_str (st_endpoint_host store))] false.

(** [StoreBackend]: the kind the configuration selects. *)
Inductive StoreBackendKind :=
| FilesystemKind (root_dir : string)
| S3Kind (store : S3ObjectStore).
Definition from_config (root_dir : string) (config : StorageBackendConfig)
  : result ApiError StoreBackendKind :=
  match config with
  | FilesystemConfig => Ok (FilesystemKind root_dir)
  | S3Config c => store ← s3_object_store_new c; Ok (S3Kind store)
  end.

(** ** Names of objects *)

Definition backend_key (store : S3ObjectStore) (key : string) : string :=
  let trimmed := trim_slashes key in
  let prefix := trim_slashes (sc_prefix (st_config store)) in
  if str_is_empty prefix then trimmed
  else if str_is_empty trimmed then prefix
  else prefix +:+ "/" +:+ trimmed.
Definition strip_backend_prefix (store : S3ObjectStore) (key : string) : string :=
  let prefix := trim_slashes (sc_prefix (st_config store)) in
  if str_is_empty prefix then trim_start_char slash key
  else trim_start_char slash
         (default key (strip_prefix prefix (trim_start_char slash key))).
End certificates.

(** ** The signed request *)

Inductive S3Response :=
| S3Ok (body : bytes)
| S3Status (status : Z) (body : string).

(** The state of a store: the service behind the agent, and how often the clock was
    read. *)
Record S3StoreState `{S3ClientDeps} := mkS3StoreState {
  s3_remote : remote;
  s3_ticks : nat;
}.

(** [reader.take(limit).read_to_end()] *)
Definition read_to_end (limit : Z) (reader : BodyReader) : result string bytes :=
  if limit <=? Z.of_nat (length (rd_bytes reader)) then Ok (take (Z.to_nat limit) (rd_bytes reader))
  else match rd_error reader with
       | Some error => Err error
       | None => Ok (rd_bytes reader)
       end.
Definition MAX_S3_BACKEND_RESPONSE_BYTES : Z := 128 * 1024 * 1024.
Definition read_response_bytes (response : BodyReader) : result ApiError bytes :=
  b ← map_err (storage_error "s3_read_failed")
        (read_to_end (u64_sat_add MAX_S3_BACKEND_RESPONSE_BYTES 1) response);
  if MAX_S3_BACKEND_RESPONSE_BYTES <? Z.of_nat (length b) then
    Err (storage_error "s3_response_too_large"
           "S3 backend response exceeds the configured read limit")
  else Ok b.
Definition read_success_response (response : BodyReader) : result ApiError S3Response :=
  b ← read_response_bytes response; Ok (S3Ok b).
Definition read_response_body (response : BodyReader) : string :=
  match read_response_bytes response with Ok b => from_utf8_lossy b | Err _ => "" end.

Definition header_name_le (a b : string * string) : Prop := String.le a.1 b.1.
#[global] Instance header_name_le_dec : RelDecision header_name_le.
Proof. intros a b. unfold header_name_le. apply _. Defined.

Section requests.
Context `{Hashing} `{S3ClientDeps} (clock : nat → Z) (store : S3ObjectStore).

Definition amz_timestamp : ST S3StoreState ApiError string := λ s,
  let '(year, month, day, (hour, minute, second)) := utc_fields (clock (s3_ticks s)) in
  (Ok (fmt_pad 4 year +:+ fmt_pad 2 month +:+ fmt_pad 2 day +:+ "T" +:+
       fmt_pad 2 hour +:+ fmt_pad 2 minute +:+ fmt_pad 2 second +:+ "Z"),
   mkS3StoreState _ (s3_remote s) (S (s3_ticks s))).

Definition signing_key (secret_key date region : string) : bytes :=
  let date_key := s3_hmac_sha256 (as_bytes ("AWS4" +:+ secret_key)) (as_bytes date) in
  let region_key := s3_hmac_sha256 date_key (as_bytes region) in
  let service_key := s3_hmac_sha256 region_key (as_bytes "s3") in
  s3_hmac_sha256 service_key (as_bytes "aws4_request").

Definition canonical_uri (key : string) : string :=
  let encoded_key := encode_s3_key_path key in
  let bucket := percent_encode_path_segment (sc_bucket (st_config store)) in
  if str_is_empty encoded_key then "/" +:+ bucket +:+ "/"
  else "/" +:+ bucket +:+ "/" +:+ encoded_key.

Definition request_url (key : string) (query : list (string * string)) : string :=
  let canonical_query := canonical_query_string query in
  if str_is_empty canonical_query then st_endpoint_url store +:+ canonical_uri key
  else st_endpoint_url store +:+ canonical_uri key +:+ "?" +:+ canonical_query.

(** The headers the signature covers, in the order it lists them. *)
Definition covered_headers (payload_hash timestamp : string)
  (extra_headers : list (string * string)) : list (string * string) :=
  merge_sort header_name_le
    ([("host", st_endpoint_host store); ("x-amz-content-sha256", payload_hash);
      ("x-amz-date", timestamp)] ++ extra_headers).

Definition client_canonical_request (method key : string) (query headers : list (string * string))
  (payload_hash : string) : string :=
  let signed_headers := join ";" (headers.*1) in
  let canonical_headers := join ""
    ((λ h, to_ascii_lowercase h.1 +:+ ":" +:+ trim h.2 +:+ newline) <$> headers) in
  method +:+ newline +:+ canonical_uri key +:+ newline +:+ canonical_query_string query +:+
  newline +:+ canonical_headers +:+ newline +:+ signed_headers +:+ newline +:+ payload_hash.

Definition client_scope (date : string) : string :=
  date +:+ "/" +:+ sc_region (st_config store) +:+ "/s3/aws4_request".
Definition client_signature (timestamp date canonical_request : string) : string :=
  let string_to_sign :=
    "AWS4-HMAC-SHA256" +:+ newline +:+ timestamp +:+ newline +:+ client_scope date +:+ newline +:+
    hex_lower (sha256 (as_bytes canonical_request)) in
  hex_lower (s3_hmac_sha256
    (signing_key (sc_secret_key (st_config store)) date (sc_region (st_config store)))
    (as_bytes string_to_sign)).

(** The exchange for a request made at [timestamp], whose first bytes are [date]. *)
Definition signed_exchange (timestamp date method key : string) (query : list (string * string))
  (body : option bytes) (extra_headers : list (string * string)) : HttpExchange :=
  let payload_hash := hex_lower (sha256 (default [] body)) in
  let headers := covered_headers payload_hash timestamp extra_headers in
  let signature := client_signature timestamp date
    (client_canonical_request method key query headers payload_hash) in
  let authorization :=
    "AWS4-HMAC-SHA256 Credential=" +:+ sc_access_key (st_config store) +:+ "/" +:+
    client_scope date +:+ ", SignedHeaders=" +:+ join ";" (headers.*1) +:+
    ", Signature=" +:+ signature in
  mkHttpExchange method (request_url key query)
    ([("Authorization", authorization); ("Host", st_endpoint_host store);
      ("x-amz-content-sha256", payload_hash); ("x-amz-date", timestamp)] ++ extra_headers) body.

Definition send (exchange : HttpExchange) : ST S3StoreState ApiError S3Response := λ s,
  let '(outcome, r) := agent_send (st_agent store) exchange (s3_remote s) in
  (match outcome with
   | AgentResponse response => read_success_response response
   | AgentStatus status response => Ok (S3Status status (read_response_body response))
   | AgentTransport error => Err (storage_error "s3_transport_failed" error)
   end, mkS3StoreState _ r (s3_ticks s)).

Definition request (method key : string) (query : list (string * string)) (body : option bytes)
  (extra_headers : list (string * string)) : ST S3StoreState ApiError S3Response :=
  timestamp ← amz_timestamp;
  date ← lift_result (ok_or (str_slice 0 8 timestamp) (panic_error "timestamp slice"));
  send (signed_exchange timestamp date method key query body extra_headers).

Definition request_status (method key : string) (query : list (string * string))
  (body : option bytes) (extra_headers : list (string * string)) : ST S3StoreState ApiError Z :=
  response ← request method key query body extra_headers;
  mret (match response with S3Ok _ => 200 | S3Status status _ => status end).

(** ** Operations *)

Definition success_status (status : Z) : bool := (200 <=? status) && (status <? 300).

Definition head_bucket : ST S3StoreState ApiError unit :=
  status ← request_status "HEAD" "" [] None [];
  if success_status status then mret tt
  else throw (storage_status_error "s3_head_bucket_failed" status "").

Definition head_object (key : string) : ST S3StoreState ApiError bool :=
  status ← request_status "HEAD" (backend_key store key) [] None [];
  if success_status status then mret true
  else if status =? 404 then mret false
  else throw (storage_status_error "s3_head_object_failed" status key).

Definition get_object (key : string) : ST S3StoreState ApiError (option bytes) :=
  response ← request "GET" (backend_key store key) [] None [];
  match response with
  | S3Ok b => mret (Some b)
  | S3Status status body =>
      if status =? 404 then mret None
      else throw (storage_status_error "s3_get_object_failed" status (first_non_empty body key))
  end.

Definition put_object (key : string) (b : bytes) (only_if_absent : bool)
  : ST S3StoreState ApiError bool :=
  let extra_headers := if only_if_absent then [("if-none-match", "*")] else [] in
  response ← request "PUT" (backend_key store key) [] (Some b) extra_headers;
  match response with
  | S3Ok _ => mret true
  | S3Status status body =>
      if ((status =? 409) || (status =? 412)) && only_if_absent then mret false
      else throw (storage_status_error "s3_put_object_failed" status (first_non_empty body key))
  end.

Definition delete_object (key : string) : ST S3StoreState ApiError unit :=
  response ← request "DELETE" (backend_key store key) [] None [];
  match response with
  | S3Ok _ => mret tt
  | S3Status status body =>
      if status =? 404 then mret tt
      else throw (storage_status_error "s3_delete_object_failed" status (first_non_empty body key))
  end.

Definition list_query (prefix : string) (token : option string) : list (string * string) :=
  [("list-type", "2"); ("prefix", prefix); ("max-keys", "1000")] ++
  match token with Some t => [("continuation-token", t)] | None => [] end.

(** One page: its keys, and the token of the next page if there is one. *)
Definition list_page_of (body : string) : list string * option string :=
  (strip_backend_prefix store <$> xml_values body "Key",
   if match head (xml_values body "IsTruncated") with
      | Some value => eq_ignore_ascii_case value "true" | None => false end
   then head (xml_values body "NextContinuationToken") else None).

(** [fuel] pages at most; [None]: the loop is still running. *)
Fixpoint list_pages (fuel : nat) (prefix : string) (token : option string)
  : ST S3StoreState ApiError (option (list string)) :=
  match fuel with
  | O => mret None
  | S f =>
      response ← request "GET" "" (list_query prefix token) None [];
      match response with
      | S3Status status body =>
          throw (storage_status_error "s3_list_objects_failed" status (first_non_empty body prefix))
      | S3Ok b =>
          let '(keys, next) := list_page_of (from_utf8_lossy b) in
          match next with
          | None => mret (Some keys)
          | Some _ =>
              more ← list_pages f prefix next;
              mret (match more with Some rest => Some (keys ++ rest) | None => None end)
          end
      end
  end.
Definition list_keys (fuel : nat) (prefix : string) : ST S3StoreState ApiError (option (list string)) :=
  list_pages fuel (backend_key store prefix) None.

(** ** The arms of [StoreBackend] *)

Definition s3_ready (s : S3StoreState) : bool * S3StoreState :=
  let '(r, s') := head_bucket s in (match r with Ok _ => true | Err _ => false end, s').
Definition s3_ensure_store_roots : ST S3StoreState ApiError unit := head_bucket.
Definition s3_exists (key : string) (s : S3StoreState) : bool * S3StoreState :=
  let '(r, s') := head_object key s in (match r with Ok b => b | Err _ => false end, s').
Definition s3_read (key : string) : ST S3StoreState ApiError (option bytes) := get_object key.
Definition s3_write (key : string) (b : bytes) : ST S3StoreState ApiError unit :=
  _ ← put_object key b false; mret tt.
Definition s3_create (key : string) (b : bytes) : ST S3StoreState ApiError bool := put_object key b true.
Definition s3_delete (key : string) : ST S3StoreState ApiError unit := delete_object key.

Fixpoint get_objects (keys : list string) : ST S3StoreState ApiError (list bytes) :=
  match keys with
  | [] => mret []
  | key :: rest =>
      o ← get_object key;
      values ← get_objects rest;
      mret (match o with Some b => b :: values | None => values end)
  end.
Definition s3_list_values (fuel : nat) (prefix : string)
  : ST S3StoreState ApiError (option (list bytes)) :=
  keys ← list_keys fuel prefix;
  match keys with
  | None => mret None
  | Some keys => values ← get_objects keys; mret (Some values)
  end.

(** The name below the prefix a key starts with. *)
Definition child_of (normalized_prefix key : string) : option string :=
  rest ← strip_prefix normalized_prefix key;
  child ← head (split_on slash rest);
  if str_is_empty child then None else Some child.
(** A [BTreeSet] yields its elements in order. *)
Definition s3_list_child_dirs (fuel : nat) (prefix : string)
  : ST S3StoreState ApiError (option (list string)) :=
  let normalized_prefix := normalize_store_prefix prefix in
  keys ← list_keys fuel normalized_prefix;
  mret (match keys with
        | None => None
        | Some keys => Some (merge_sort String.le
                               (remove_dups (omap (child_of normalized_prefix) keys)))
        end).

Definition s3_backend : Backend :=
  mkBackend S3StoreState s3_exists s3_read s3_write s3_create s3_delete.
End requests.
