(* ===== verification/S3Remote.v ===== *)
(** * The service behind the S3 backing store

    What the client of [S3Client.v] relies on, as documented by the S3 interface:
    requests name an object by the decoded path of their URL, [PutObject] with
    [If-None-Match: *] creates, [DeleteObject] deletes, and [ListObjectsV2] pages
    through the keys with a prefix.  [S3Service] states it about the parameter
    [agent_send] for one endpoint and bucket; it says nothing of requests that fail
    in transport, whose effect may or may not have taken place.

    The second half is about the client: the URL of a request decodes to the bucket,
    the key and the query it was made for, and on the keys of the service the names
    of objects are distinct. *)

From Stdlib Require Import ZArith Lia Ascii String Bool.
From stdpp Require Import base option list strings gmap numbers sorting.
From S2P Require Import Prelude RustStr Path Core Cbor Store AmzDate Distribution SigV4 UrlStr S3Client.

(** ** Requests as the service reads them *)

(** Percent decoding of RFC 3986. *)
Fixpoint uri_decode (s : string) : option string :=
  match s with
  | EmptyString => Some ""
  | String c rest =>
      if Ascii.eqb c percent then
        match rest with
        | String high (String low rest') =>
            h ← result_ok (decode_hex high);
            l ← result_ok (decode_hex low);
            decoded ← uri_decode rest';
            Some (String (byte_of (h * 16 + l)) decoded)
        | _ => None
        end
      else decoded ← uri_decode rest; Some (String c decoded)
  end.

Record S3Target := mkS3Target {
  tg_bucket : string;
  tg_key : string;
  tg_query : list (string * string);
}.
Definition query_pair (pair : string) : option (string * string) :=
  '(name, value) ← split_once "="%char pair;
  n ← uri_decode name; v ← uri_decode value; Some (n, v).
Definition s3_target (endpoint url : string) : option S3Target :=
  rest ← strip_prefix (endpoint +:+ "/") url;
  let '(path, query) := default (rest, "") (split_once "?"%char rest) in
  '(bucket, key) ← split_once slash path;
  bucket ← uri_decode bucket;
  key ← uri_decode key;
  pairs ← (if str_is_empty query then Some [] else mapM query_pair (split_on "&"%char query));
  Some (mkS3Target bucket key pairs).

(** ** The documents of a listing

    An XML document as its tokens; markup is what stands between angle brackets. *)
Inductive XmlToken :=
| XTag (markup : string)
| XText (text : string).
Fixpoint xml_escape (s : string) : string :=
  match s with
  | EmptyString => ""
  | String c rest =>
      (if Ascii.eqb c "&"%char then "&amp;"
       else if Ascii.eqb c "<"%char then "&lt;"
       else if Ascii.eqb c ">"%char then "&gt;"
       else String c "") +:+ xml_escape rest
  end.
Definition render_token (t : XmlToken) : string :=
  match t with
  | XTag markup => "<" +:+ markup +:+ ">"
  | XText text => xml_escape text
  end.
Fixpoint render_xml (tokens : list XmlToken) : string :=
  match tokens with [] => "" | t :: rest => render_token t +:+ render_xml rest end.
(** [tokens] is a document in which the elements of this name hold text only, and
    these are their texts. *)
Inductive leaf_values (tag : string) : list XmlToken → list string → Prop :=
| leaf_nil : leaf_values tag [] []
| leaf_text text tokens vs :
    leaf_values tag tokens vs → leaf_values tag (XText text :: tokens) vs
| leaf_markup markup tokens vs :
    markup ≠ tag → str_contains_char "<" markup = false → str_contains_char ">" markup = false →
    leaf_values tag tokens vs → leaf_values tag (XTag markup :: tokens) vs
| leaf_value text tokens vs :
    leaf_values tag tokens vs →
    leaf_values tag (XTag tag :: XText text :: XTag ("/" +:+ tag) :: tokens) (text :: vs).

(** ** The service *)

(** The keys with a prefix, in the order of their bytes. *)
Definition keys_with (prefix : string) (objects : gmap string bytes) : list string :=
  filter (λ key, starts_with prefix key = true) ((btree_iter objects).*1).

Section service.
Context `{S3ClientDeps} (ag : agent) (endpoint bucket : string).

Definition addressed (ex : HttpExchange) (key : string) (query : list (string * string)) : Prop :=
  s3_target endpoint (hx_url ex) = Some (mkS3Target bucket key query).
Definition create_only (ex : HttpExchange) : Prop := ("if-none-match", "*") ∈ hx_headers ex.
(** The object was stored, and where only creation was asked for it was not there. *)
Definition stored_object (ex : HttpExchange) (key : string) (b : bytes)
  (m m' : gmap string bytes) : Prop :=
  m' = <[key := b]> m ∧ (create_only ex → m !! key = None).

Class S3Service := {
  objects : remote → gmap string bytes;
  (** The position of a page in the listing its token continues. *)
  list_position : gmap string bytes → string → option string → nat;

  svc_status : ∀ ex r status rd r',
    agent_send ag ex r = (AgentStatus status rd, r') → 400 <= status;
  svc_head : ∀ ex key r outcome r',
    agent_send ag ex r = (outcome, r') → hx_method ex = "HEAD" → addressed ex key [] →
    objects r' = objects r ∧
    match outcome with AgentResponse _ => key ≠ "" → is_Some (objects r !! key) | _ => True end;
  svc_get : ∀ ex key r outcome r',
    agent_send ag ex r = (outcome, r') → hx_method ex = "GET" → addressed ex key [] → key ≠ "" →
    objects r' = objects r ∧
    match outcome with
    | AgentResponse rd => rd_error rd = None → objects r !! key = Some (rd_bytes rd)
    | AgentStatus status _ => status = 404 → objects r !! key = None
    | AgentTransport _ => True
    end;
  (** A creation that is refused, because the object is there or because another
      request for it is under way, stores nothing. *)
  svc_put : ∀ ex key b r outcome r',
    agent_send ag ex r = (outcome, r') → hx_method ex = "PUT" → hx_body ex = Some b →
    addressed ex key [] → key ≠ "" →
    match outcome with
    | AgentResponse _ => stored_object ex key b (objects r) (objects r')
    | AgentStatus status _ =>
        (objects r' = objects r ∨ stored_object ex key b (objects r) (objects r')) ∧
        (status = 409 ∨ status = 412 → create_only ex → objects r' = objects r)
    | AgentTransport _ => objects r' = objects r ∨ stored_object ex key b (objects r) (objects r')
    end;
  svc_delete : ∀ ex key r outcome r',
    agent_send ag ex r = (outcome, r') → hx_method ex = "DELETE" → addressed ex key [] → key ≠ "" →
    match outcome with
    | AgentResponse _ => objects r' = delete key (objects r)
    | AgentStatus status _ =>
        (objects r' = objects r ∨ objects r' = delete key (objects r)) ∧
        (status = 404 → objects r !! key = None ∧ objects r' = objects r)
    | AgentTransport _ => objects r' = objects r ∨ objects r' = delete key (objects r)
    end;
  svc_list : ∀ ex prefix token query r outcome r',
    agent_send ag ex r = (outcome, r') → hx_method ex = "GET" → addressed ex "" query →
    query ≡ₚ list_query prefix token →
    objects r' = objects r ∧
    match outcome with
    | AgentResponse rd => rd_error rd = None →
        ∃ tokens keys truncated next,
          rd_bytes rd = as_bytes (render_xml tokens) ∧ utf8_valid (rd_bytes rd) = true ∧
          leaf_values "Key" tokens keys ∧
          leaf_values "IsTruncated" tokens [if truncated : bool then "true" else "false"] ∧
          leaf_values "NextContinuationToken" tokens (if truncated then [next] else []) ∧
          let all := keys_with prefix (objects r) in
          let position := list_position (objects r) prefix token in
          keys = take (length keys) (drop position all) ∧
          if truncated
          then keys ≠ [] ∧ list_position (objects r) prefix (Some next) = (position + length keys)%nat
          else (length all <= position + length keys)%nat
    | _ => True
    end;
  svc_list_first : ∀ m prefix, list_position m prefix None = 0%nat;
}.
End service.

(** ** Percent encoding *)

Lemma hex_digit_upper_decode n :
  0 <= n < 16 → decode_hex (hex_digit_upper n) = Ok n ∧ Ascii.eqb (hex_digit_upper n) percent = false.
Proof.
  intros Hn. assert (Hall : Forall (λ n, decode_hex (hex_digit_upper n) = Ok n ∧
    Ascii.eqb (hex_digit_upper n) percent = false) (Z.of_nat <$> seq 0 16)).
  { repeat constructor. }
  rewrite Forall_forall in Hall. apply Hall. apply list_elem_of_fmap.
  exists (Z.to_nat n). split; [lia|]. apply elem_of_seq. lia.
Qed.

Lemma uri_decode_byte c rest :
  uri_decode (percent_byte c +:+ rest) = (decoded ← uri_decode rest; Some (String c decoded)).
Proof.
  pose proof (byte_val_range c) as Hc. unfold percent_byte.
  destruct (hex_digit_upper_decode (byte_val c / 16)) as [H1 _];
    [split; [apply Z.div_pos; lia|apply Z.div_lt_upper_bound; lia]|].
  destruct (hex_digit_upper_decode (byte_val c mod 16)) as [H2 _]; [apply Z.mod_pos_bound; lia|].
  rewrite !str_app_cons, str_app_nil_l. cbn [uri_decode]. rewrite H1, H2. cbn.
  rewrite (Z.mul_comm _ 16), <-Z_div_mod_eq_full by lia. by rewrite byte_of_val.
Qed.

Lemma uri_decode_char c rest :
  Ascii.eqb c percent = false →
  uri_decode (String c rest) = (decoded ← uri_decode rest; Some (String c decoded)).
Proof. intros Hc. cbn. by rewrite Hc. Qed.

Lemma unreserved_not_percent c : unreserved c = true → Ascii.eqb c percent = false.
Proof. destruct (Ascii.eqb_spec c percent) as [->|]; [vm_compute; congruence|done]. Qed.

Lemma uri_decode_encoded v es rest :
  uri_decode (percent_encode v es +:+ rest) = (decoded ← uri_decode rest; Some (v +:+ decoded)).
Proof.
  induction v as [|c v IH]; cbn [percent_encode].
  - rewrite str_app_nil_l. by destruct (uri_decode rest).
  - rewrite <-str_app_assoc.
    assert (Hstep : uri_decode ((if unreserved c || (negb es && Ascii.eqb c slash)
        then String c "" else percent_byte c) +:+ (percent_encode v es +:+ rest))
      = (decoded ← uri_decode (percent_encode v es +:+ rest); Some (String c decoded))).
    { destruct (unreserved c) eqn:Hu; [|destruct (negb es && Ascii.eqb c slash) eqn:Hs]; cbn [orb].
      - by apply uri_decode_char, unreserved_not_percent.
      - apply uri_decode_char. apply andb_true_iff in Hs as [_ ->%Ascii.eqb_eq]. done.
      - apply uri_decode_byte. }
    rewrite Hstep, IH. by destruct (uri_decode rest).
Qed.
Lemma uri_decode_encode v es : uri_decode (percent_encode v es) = Some v.
Proof.
  rewrite <-(str_app_nil_r (percent_encode v es)), uri_decode_encoded. cbn.
  by rewrite str_app_nil_r.
Qed.

Lemma hex_digit_upper_unreserved n : 0 <= n < 16 → unreserved (hex_digit_upper n) = true.
Proof.
  intros Hn. assert (Hall : Forall (λ n, unreserved (hex_digit_upper n) = true) (Z.of_nat <$> seq 0 16))
    by repeat constructor.
  rewrite Forall_forall in Hall. apply Hall. apply list_elem_of_fmap.
  exists (Z.to_nat n). split; [lia|]. apply elem_of_seq. lia.
Qed.

(** The characters of an encoded string. *)
Lemma percent_encode_forallb (p : ascii → bool) v es :
  (∀ c, unreserved c = true → p c = true) → p percent = true → (es = false → p slash = true) →
  str_forallb p (percent_encode v es) = true.
Proof.
  intros Hu Hp Hs. induction v as [|c v IH]; [done|]. cbn [percent_encode].
  rewrite str_forallb_app, IH, andb_true_r.
  destruct (unreserved c) eqn:Huc; [|destruct (negb es && Ascii.eqb c slash) eqn:Hsl]; cbn [orb].
  - cbn. by rewrite Hu.
  - apply andb_true_iff in Hsl as [He%negb_true_iff ->%Ascii.eqb_eq]. cbn. by rewrite Hs.
  - pose proof (byte_val_range c). unfold percent_byte. cbn [str_forallb].
    rewrite Hp, !Hu; [done|apply hex_digit_upper_unreserved..].
    + apply Z.mod_pos_bound; lia.
    + split; [apply Z.div_pos; lia|apply Z.div_lt_upper_bound; lia].
Qed.
Lemma percent_encode_avoids x v es :
  unreserved x = false → x ≠ percent → (es = false → x ≠ slash) →
  str_contains_char x (percent_encode v es) = false.
Proof.
  intros Hu Hp Hs. apply (str_contains_char_forallb (λ c, negb (Ascii.eqb c x))).
  - by rewrite Ascii.eqb_refl.
  - apply percent_encode_forallb.
    + intros c Hc. destruct (Ascii.eqb_spec c x); [congruence|done].
    + by destruct (Ascii.eqb_spec percent x).
    + intros He. specialize (Hs He). by destruct (Ascii.eqb_spec slash x).
Qed.

(** ** The target of a request *)

Lemma query_pair_encoded name value :
  query_pair (percent_encode_query name +:+ "=" +:+ percent_encode_query value) = Some (name, value).
Proof.
  unfold query_pair. change "=" with (String "="%char ""). rewrite str_app_cons, str_app_nil_l.
  rewrite split_once_app by (by apply percent_encode_avoids). cbn.
  unfold percent_encode_query. by rewrite !uri_decode_encode.
Qed.

Lemma query_pairs_encoded query :
  ∃ decoded, decoded ≡ₚ query ∧
    mapM query_pair ((λ p, p.1 +:+ "=" +:+ p.2) <$> merge_sort pair_le
      ((λ p, (percent_encode_query p.1, percent_encode_query p.2)) <$> query)) = Some decoded.
Proof.
  set (enc := λ p : string * string, (percent_encode_query p.1, percent_encode_query p.2)).
  destruct (Permutation_map_inv enc (l1 := merge_sort pair_le (enc <$> query)) query)
    as (decoded&Heq&Hperm); [apply merge_sort_Permutation|].
  exists decoded. split; [done|].
  rewrite Heq. change (map enc decoded) with (enc <$> decoded).
  rewrite <-list_fmap_compose. apply mapM_fmap_Some. intros [name value]. apply query_pair_encoded.
Qed.

Lemma percent_encode_slash_free v es :
  str_contains_char slash v = false → str_contains_char slash (percent_encode v es) = false.
Proof.
  induction v as [|c v IH]; [done|]. rewrite str_contains_char_cons, orb_false_iff. intros [Hc Hv].
  cbn [percent_encode]. rewrite str_contains_char_app, (IH Hv), orb_false_r, Hc, andb_false_r, orb_false_r.
  destruct (unreserved c) eqn:Hu; [by rewrite str_contains_char_cons, Hc|].
  pose proof (percent_encode_avoids slash (String c "") true) as Ha.
  cbn [percent_encode] in Ha. rewrite Hu, str_app_nil_r in Ha. by apply Ha.
Qed.

Lemma split_once_None c s : str_contains_char c s = false → split_once c s = None.
Proof.
  induction s as [|x s IH]; [done|]. rewrite str_contains_char_cons, orb_false_iff.
  intros [Hx Hs]. cbn. by rewrite Hx, (IH Hs).
Qed.

(** The name of the object a key is sent to. *)
Definition object_name (key : string) : string := join "/" (non_empty_segments (trim_slashes key)).

Lemma encoded_key_avoids x key :
  unreserved x = false → x ≠ percent → x ≠ slash →
  str_contains_char x (encode_s3_key_path key) = false.
Proof.
  intros Hu Hp Hs. unfold encode_s3_key_path. induction (non_empty_segments _) as [|seg l IH]; [done|].
  destruct l as [|seg' l]; [by apply percent_encode_avoids|].
  rewrite fmap_cons, join_cons by done. set (rest := join "/" _) in *.
  - rewrite !str_contains_char_app, IH. unfold percent_encode_path_segment.
    rewrite (percent_encode_avoids x seg false) by done.
    change "/" with (String slash ""). rewrite str_contains_char_cons.
    by destruct (Ascii.eqb_spec slash x).
Qed.

Lemma uri_decode_key key : uri_decode (encode_s3_key_path key) = Some (object_name key).
Proof.
  unfold encode_s3_key_path, object_name. induction (non_empty_segments _) as [|seg l IH]; [done|].
  destruct l as [|seg' l]; [apply uri_decode_encode|].
  rewrite fmap_cons, !join_cons by done. change ("/" +:+ ?s) with (String slash s).
  unfold percent_encode_path_segment at 1.
  rewrite uri_decode_encoded, uri_decode_char, IH by done. done.
Qed.

Lemma canonical_query_empty query :
  str_is_empty (canonical_query_string query) = bool_decide (query = []).
Proof.
  unfold canonical_query_string. destruct query as [|[name value] query]; [done|].
  rewrite bool_decide_eq_false_2 by done.
  match goal with |- context [merge_sort pair_le ?l] =>
    pose proof (merge_sort_Permutation pair_le l) as Hp; destruct (merge_sort pair_le l) as [|[n v] rest] end.
  { apply Permutation_nil_cons in Hp. done. }
  rewrite fmap_cons. by destruct n, rest.
Qed.

Lemma canonical_query_split query :
  query ≠ [] → split_on "&"%char (canonical_query_string query) =
    (λ p, p.1 +:+ "=" +:+ p.2) <$> merge_sort pair_le
      ((λ p, (percent_encode_query p.1, percent_encode_query p.2)) <$> query).
Proof.
  intros Hq. apply split_on_join.
  - rewrite <-length_zero_iff_nil, length_fmap, merge_sort_Permutation, length_fmap.
    by rewrite length_zero_iff_nil.
  - apply Forall_fmap. rewrite merge_sort_Permutation, Forall_fmap. apply Forall_true.
    intros [name value]. cbn. unfold percent_encode_query.
    by rewrite !str_contains_char_app, !percent_encode_avoids.
Qed.

Section target.
Context `{S3ClientDeps} (store : S3ObjectStore).
Hypothesis bucket_slash_free : str_contains_char slash (sc_bucket (st_config store)) = false.

Lemma canonical_uri_eq key :
  canonical_uri store key =
  "/" +:+ percent_encode_path_segment (sc_bucket (st_config store)) +:+ "/" +:+ encode_s3_key_path key.
Proof.
  unfold canonical_uri. destruct (encode_s3_key_path key) eqn:E; [|done]. done.
Qed.

(** The service reads a request as what the client made it for. *)
Lemma s3_target_request key query :
  ∃ decoded, decoded ≡ₚ query ∧
    s3_target (st_endpoint_url store) (request_url store key query)
    = Some (mkS3Target (sc_bucket (st_config store)) (object_name key) decoded).
Proof.
  destruct (query_pairs_encoded query) as (decoded&Hperm&Hpairs).
  exists decoded. split; [done|].
  set (bucket := percent_encode_path_segment (sc_bucket (st_config store))).
  assert (Hb : ∀ x, unreserved x = false → x ≠ percent → str_contains_char x bucket = false).
  { intros x Hu Hp. destruct (decide (x = slash)) as [->|Hs].
    - by apply percent_encode_slash_free.
    - by apply percent_encode_avoids. }
  set (path := bucket +:+ String slash (encode_s3_key_path key)).
  assert (Hpath : str_contains_char "?" path = false).
  { subst path. rewrite str_contains_char_app, str_contains_char_cons, Hb by done.
    by rewrite encoded_key_avoids. }
  assert (Hsplit : split_once slash path = Some (bucket, encode_s3_key_path key))
    by (apply split_once_app; by apply Hb).
  assert (Hurl : ∃ query_part, request_url store key query
      = st_endpoint_url store +:+ "/" +:+ (path +:+ query_part) ∧
      default (path +:+ query_part, "") (split_once "?"%char (path +:+ query_part))
      = (path, canonical_query_string query)).
  { unfold request_url. rewrite canonical_uri_eq, canonical_query_empty. fold bucket.
    case_bool_decide as Hq; [subst query; exists ""|exists (String "?" (canonical_query_string query))].
    - rewrite str_app_nil_r, split_once_None by done. done.
    - rewrite split_once_app by done. split; [|done].
      subst path. by rewrite <-!str_app_assoc. }
  destruct Hurl as (query_part&->&Hq). unfold s3_target.
  rewrite str_app_assoc, (proj2 (strip_prefix_Some _ _ _) eq_refl). cbn [mbind option_bind].
  rewrite Hq, Hsplit. cbn [mbind option_bind]. unfold bucket, percent_encode_path_segment.
  rewrite uri_decode_encode, uri_decode_key. cbn [mbind option_bind].
  rewrite canonical_query_empty. case_bool_decide as Hnil.
  - subst query. by apply Permutation_nil_r in Hperm as ->.
  - rewrite canonical_query_split, Hpairs by done. done.
Qed.
End target.

(** ** Names on the keys of the service

    The store keys of the service have a kind, a tenant directory and a file; only
    the directory may be empty. *)
Definition is_store_key (key : string) : bool :=
  match split_on slash key with
  | [kind; _; file] => negb (str_is_empty kind) && negb (str_is_empty file)
  | _ => false
  end.

Lemma split_on_sep c a b : split_on c (a +:+ String c b) = split_on c a ++ split_on c b.
Proof.
  induction a as [|x a IH]; [rewrite str_app_nil_l; cbn [split_on]; by rewrite Ascii.eqb_refl|].
  rewrite str_app_cons. cbn [split_on]. rewrite IH. destruct (Ascii.eqb x c); [done|].
  pose proof (split_on_not_nil c a). by destruct (split_on c a).
Qed.
Lemma segments_app a b :
  non_empty_segments (a +:+ String slash b) = non_empty_segments a ++ non_empty_segments b.
Proof. unfold non_empty_segments. by rewrite split_on_sep, List.filter_app. Qed.

Lemma trim_start_char_segments s :
  non_empty_segments (trim_start_char slash s) = non_empty_segments s.
Proof.
  induction s as [|x s IH]; [done|]. cbn [trim_start_char].
  destruct (Ascii.eqb_spec x slash) as [->|]; [|done]. rewrite IH. symmetry. exact (segments_app "" s).
Qed.
Lemma trim_start_char_rest c s : ∃ n, s = of_bytes (replicate n c) +:+ trim_start_char c s.
Proof.
  induction s as [|x s [n Hn]]; [by exists 0%nat|]. cbn [trim_start_char].
  destruct (Ascii.eqb_spec x c) as [->|]; [exists (S n)|exists 0%nat]; [|done].
  unfold of_bytes in *. cbn [replicate string_of_list_ascii]. by rewrite str_app_cons, <-Hn.
Qed.
Lemma slashes_segments n : non_empty_segments (of_bytes (replicate n slash)) = [].
Proof. induction n as [|n IH]; [done|]. exact (eq_trans (segments_app "" _) IH). Qed.
Lemma trim_end_char_segments s :
  non_empty_segments (trim_end_char slash s) = non_empty_segments s.
Proof.
  unfold trim_end_char. destruct (trim_start_char_rest slash (str_rev s)) as [n Hn].
  rewrite <-(str_rev_involutive s) at 2. rewrite Hn at 2. rewrite str_rev_app.
  assert (Hr : str_rev (of_bytes (replicate n slash)) = of_bytes (replicate n slash)).
  { unfold str_rev. rewrite as_of_bytes, rev_alt. f_equal. exact (reverse_replicate n slash). }
  rewrite Hr. destruct n as [|n]; [by rewrite str_app_nil_r|].
  change (of_bytes (replicate (S n) slash)) with (String slash (of_bytes (replicate n slash))).
  rewrite segments_app, slashes_segments. by rewrite app_nil_r.
Qed.
Lemma trim_slashes_segments s : non_empty_segments (trim_slashes s) = non_empty_segments s.
Proof. unfold trim_slashes. by rewrite trim_end_char_segments, trim_start_char_segments. Qed.

Lemma segments_wf s :
  Forall (λ x, str_contains_char slash x = false ∧ x ≠ "") (non_empty_segments s).
Proof.
  unfold non_empty_segments. pose proof (split_on_no_sep slash s) as Hs.
  induction Hs as [|x l Hx _ IH]; [done|]. cbn. by destruct x; [|constructor].
Qed.
Lemma segments_join l :
  Forall (λ x, str_contains_char slash x = false ∧ x ≠ "") l →
  non_empty_segments (join "/" l) = l.
Proof.
  intros Hl. unfold non_empty_segments. destruct (decide (l = [])) as [->|Hne]; [done|].
  change "/" with (String slash ""). rewrite split_on_join; [|done|].
  - clear Hne. induction Hl as [|x l [_ Hx] _ IH]; [done|]. cbn. destruct x; [done|]. cbn. by f_equal.
  - eapply Forall_impl; [exact Hl|]. by intros x [].
Qed.
Lemma join_segments_inj l l' :
  Forall (λ x, str_contains_char slash x = false ∧ x ≠ "") l →
  Forall (λ x, str_contains_char slash x = false ∧ x ≠ "") l' →
  join "/" l = join "/" l' → l = l'.
Proof. intros Hl Hl' Heq. by rewrite <-(segments_join l), <-(segments_join l'), Heq. Qed.

Section names.
Context `{S3ClientDeps} (store : S3ObjectStore).

Definition prefix_segments : list string := non_empty_segments (sc_prefix (st_config store)).
(** The name in the bucket of the object a key of the store names. *)
Definition remote_name (key : string) : string := object_name (backend_key store key).

Lemma remote_name_eq key : remote_name key = join "/" (prefix_segments ++ non_empty_segments key).
Proof.
  unfold remote_name, object_name, prefix_segments. f_equal. rewrite trim_slashes_segments.
  rewrite <-(trim_slashes_segments key), <-(trim_slashes_segments (sc_prefix _)).
  unfold backend_key. generalize (trim_slashes key) as k, (trim_slashes (sc_prefix (st_config store))) as p.
  intros k p. destruct p as [|c p]; [done|]. destruct k as [|c' k]; [by rewrite app_nil_r|].
  cbn [str_is_empty]. apply segments_app.
Qed.

Lemma store_key_shape key :
  is_store_key key = true ↔ ∃ kind dir file, key = kind +:+ "/" +:+ dir +:+ "/" +:+ file ∧
    str_contains_char slash kind = false ∧ str_contains_char slash dir = false ∧
    str_contains_char slash file = false ∧ kind ≠ "" ∧ file ≠ "".
Proof.
  unfold is_store_key. split.
  - pose proof (join_split_on slash key) as Hj. pose proof (split_on_no_sep slash key) as Hs.
    destruct (split_on slash key) as [|kind [|dir [|file []]]]; try done.
    rewrite !Forall_cons in Hs. destruct Hs as (?&?&?&_). intros [? ?]%andb_true_iff.
    exists kind, dir, file. split_and!; [by rewrite <-Hj|done..|by intros ->|by intros ->].
  - intros (kind&dir&file&->&Hk&Hd&Hf&Hne&Hne').
    repeat change ("/" +:+ ?s) with (String slash s).
    rewrite !split_on_app, split_on_atom by done. by destruct kind, file.
Qed.

Lemma segments_of_parts kind dir file :
  str_contains_char slash kind = false → str_contains_char slash dir = false →
  str_contains_char slash file = false → kind ≠ "" → file ≠ "" →
  non_empty_segments (kind +:+ "/" +:+ dir +:+ "/" +:+ file)
  = if str_is_empty dir then [kind; file] else [kind; dir; file].
Proof.
  intros Hk Hd Hf Hne Hne'. repeat change ("/" +:+ ?s) with (String slash s). unfold non_empty_segments.
  rewrite !split_on_app, split_on_atom by done. by destruct kind, dir, file.
Qed.

Lemma remote_name_inj key key' :
  is_store_key key = true → is_store_key key' = true →
  remote_name key = remote_name key' → key = key'.
Proof.
  rewrite !remote_name_eq.
  intros (k&d&f&->&?&?&?&?&?)%store_key_shape (k'&d'&f'&->&?&?&?&?&?)%store_key_shape Heq.
  apply join_segments_inj in Heq; [|by apply Forall_app; split; apply segments_wf..].
  apply app_inv_head in Heq. rewrite !segments_of_parts in Heq by done.
  destruct d, d'; cbn in Heq; congruence.
Qed.
Lemma remote_name_not_empty key : is_store_key key = true → remote_name key ≠ "".
Proof.
  intros (k&d&f&->&?&?&?&?&?)%store_key_shape. rewrite remote_name_eq, segments_of_parts by done.
  intros Heq. apply (join_segments_inj _ []) in Heq; [|apply Forall_app; split|done].
  - destruct prefix_segments, d; done.
  - apply segments_wf.
  - by destruct d; repeat constructor.
Qed.
End names.
