(* ===== verification/S3Laws.v ===== *)
(** * The S3 backing store keeps the promises of the backend

    On the keys of the service ([is_store_key]) the operations of the S3 store are
    those of a key-value map, whatever fails ([S3Client.v] over any [S3Service]).
    Other keys may name the same object ("a/b/c" and "/a/b/c/"), so the S3 store
    satisfies [BackendLaws] only behind a guard: [guarded] is a backend that refuses
    the keys a predicate excludes. *)

From Stdlib Require Import ZArith Lia Ascii String Bool.
From stdpp Require Import base option list strings gmap numbers sorting fin_maps fin_map_dom.
From S2P Require Import Prelude RustStr Path Core Cbor Store AmzDate Distribution SigV4 UrlStr S3Client S3Remote.

(** ** Guarded backends *)

Section guarded.
Context (allowed : string → bool) (B : Backend).

Definition refused : ApiError := storage_error "key_refused" "not a key of the store".
Definition guarded : Backend := {|
  bstate := bstate B;
  b_exists := λ key s, if allowed key then b_exists B key s else (false, s);
  b_read := λ key s, if allowed key then b_read B key s else (Err refused, s);
  b_write := λ key b s, if allowed key then b_write B key b s else (Err refused, s);
  b_create := λ key b s, if allowed key then b_create B key b s else (Err refused, s);
  b_delete := λ key s, if allowed key then b_delete B key s else (Err refused, s);
|}.
End guarded.

Section laws.
Context `{Hashing} `{S3ClientDeps} (clock : nat → Z) (store : S3ObjectStore).
Context `{SV : !S3Service (st_agent store) (st_endpoint_url store) (sc_bucket (st_config store))}.
Hypothesis bucket_slash_free : str_contains_char slash (sc_bucket (st_config store)) = false.
Implicit Types s : S3StoreState.

Definition bucket_objects s : gmap string bytes := objects _ _ _ (s3_remote s).

(** A request reads the clock, and then is one exchange for its target. *)
Lemma request_cases m key query body extra s :
  ∃ s1, bucket_objects s1 = bucket_objects s ∧
    ((∃ e, request clock store m key query body extra s = (Err e, s1)) ∨
     ∃ ts date, request clock store m key query body extra s
       = send store (signed_exchange store ts date m key query body extra) s1).
Proof.
  unfold request. rewrite ST_bind_run. unfold amz_timestamp.
  destruct (utc_fields _) as [[[? ?] ?] [[? ?] ?]]. exists (mkS3StoreState _ (s3_remote s) (S (s3_ticks s))). split; [done|].
  rewrite ST_bind_run. unfold lift_result, ok_or.
  destruct (str_slice _ _ _) as [date|].
  - right. by eexists _, date.
  - left. by eexists.
Qed.

Lemma signed_exchange_addressed ts date m key body extra :
  addressed (st_endpoint_url store) (sc_bucket (st_config store))
    (signed_exchange store ts date m key [] body extra) (object_name key) [].
Proof.
  destruct (s3_target_request store bucket_slash_free key []) as (d&Hd&Ht).
  by apply Permutation_nil_r in Hd as ->.
Qed.

Lemma not_create_only ts date m key query body :
  ¬ create_only (signed_exchange store ts date m key query body []).
Proof. unfold create_only. cbn. set_solver. Qed.

Lemma read_response_ok rd b : read_response_bytes rd = Ok b → rd_error rd = None ∧ b = rd_bytes rd.
Proof.
  assert (Hmax : u64_sat_add MAX_S3_BACKEND_RESPONSE_BYTES 1 = MAX_S3_BACKEND_RESPONSE_BYTES + 1
    ∧ 0 <= MAX_S3_BACKEND_RESPONSE_BYTES) by done.
  unfold read_response_bytes, read_to_end. revert Hmax.
  generalize MAX_S3_BACKEND_RESPONSE_BYTES as max. intros max [-> Hpos].
  destruct (Z.leb_spec (max + 1) (Z.of_nat (length (rd_bytes rd)))) as [Hle|Hlt].
  - cbn [map_err mbind result_bind]. rewrite length_take, Nat.min_l by lia.
    by destruct (Z.ltb_spec max (Z.of_nat (Z.to_nat (max + 1)))); [|lia].
  - destruct (rd_error rd); cbn; [done|]. by destruct (_ <? _); [|intros [= <-]].
Qed.

(** What [request] makes of the outcome of an exchange. *)
Definition reply_of (outcome : AgentResult) : result ApiError S3Response :=
  match outcome with
  | AgentResponse response => read_success_response response
  | AgentStatus status response => Ok (S3Status status (read_response_body response))
  | AgentTransport error => Err (storage_error "s3_transport_failed" error)
  end.

(** The exchange of a request for an object. *)
Record exchanged (m key : string) (body : option bytes) (extra : list (string * string))
  (outcome : AgentResult) (before after : gmap string bytes) (ex : HttpExchange)
  (r r' : remote) : Prop := {
  ex_sent : agent_send (st_agent store) ex r = (outcome, r');
  ex_before : objects _ _ _ r = before;
  ex_after : objects _ _ _ r' = after;
  ex_method : hx_method ex = m;
  ex_body : hx_body ex = body;
  ex_address : addressed (st_endpoint_url store) (sc_bucket (st_config store)) ex
                 (remote_name store key) [];
  ex_create : create_only ex ↔ ("if-none-match", "*") ∈ extra;
}.

Lemma request_outcome m key body extra s :
  let '(r, s') := request clock store m (backend_key store key) [] body extra s in
  (∃ e, r = Err e ∧ bucket_objects s' = bucket_objects s) ∨
  ∃ outcome ex r0 r1, r = reply_of outcome ∧
    exchanged m key body extra outcome (bucket_objects s) (bucket_objects s') ex r0 r1.
Proof.
  destruct (request_cases m (backend_key store key) [] body extra s) as (s1&<-&[[e ->]|(ts&date&->)]).
  - left. eauto.
  - unfold send. destruct (agent_send _ _ _) as [outcome r'] eqn:Hsend. right.
    eexists outcome, _, _, _. split; [done|]. split; [exact Hsend|done..| |].
    + apply signed_exchange_addressed.
    + unfold create_only. cbn. set_solver.
Qed.

Ltac on_exchange key Hout :=
  rewrite ST_bind_run;
  match goal with |- context [request clock store ?m (backend_key store key) [] ?b ?x ?s] =>
    pose proof (request_outcome m key b x s) as Hout;
    destruct (request clock store m (backend_key store key) [] b x s) as [r s'];
    destruct Hout as [(e&->&Hout)|(outcome&ex&r0&r1&->&[Hsent Hbef Haft Hm Hb Ha Hc])]
  end.

Lemma get_object_view key s :
  remote_name store key ≠ "" →
  bucket_objects (get_object clock store key s).2 = bucket_objects s ∧
  ∀ o, (get_object clock store key s).1 = Ok o → o = bucket_objects s !! remote_name store key.
Proof.
  intros Hne. unfold get_object. on_exchange key Hout; [done|].
  destruct (svc_get _ _ _ _ _ _ _ _ Hsent Hm Ha) as [Hsame Hres]; [done|].
  rewrite Hbef, Haft in *.
  destruct outcome as [rd|status rd|error]; cbn [reply_of].
  - unfold read_success_response. destruct (read_response_bytes rd) eqn:Hrd; cbn; [|done].
    apply read_response_ok in Hrd as [Herr ->]. split; [done|]. intros o [= <-]. by rewrite Hres.
  - destruct (Z.eqb_spec status 404) as [->|]; cbn; [|done]. split; [done|].
    intros o [= <-]. by rewrite Hres.
  - done.
Qed.

Lemma head_object_view key s :
  is_store_key key = true →
  bucket_objects (head_object clock store key s).2 = bucket_objects s ∧
  ((head_object clock store key s).1 = Ok true →
     is_Some (bucket_objects s !! remote_name store key)).
Proof.
  intros Hk. unfold head_object, request_status. rewrite ST_bind_run. on_exchange key Hout; [done|].
  destruct (svc_head _ _ _ _ _ _ _ _ Hsent Hm Ha) as [Hsame Hres]. rewrite Hbef, Haft in *.
  pose proof (remote_name_not_empty store key Hk) as Hne.
  destruct outcome as [rd|status rd|error]; cbn [reply_of]; [| |done].
  - unfold read_success_response. destruct (read_response_bytes rd); cbn; [|done]. auto.
  - pose proof (svc_status (st_agent store) (st_endpoint_url store) (sc_bucket (st_config store))
      _ _ _ _ _ Hsent) as Hst. cbn. unfold success_status.
    destruct (Z.ltb_spec status 300); [lia|]. rewrite andb_false_r. by destruct (status =? 404).
Qed.

Lemma delete_object_view key s :
  is_store_key key = true →
  let s' := (delete_object clock store key s).2 in
  (bucket_objects s' = bucket_objects s ∨
   bucket_objects s' = delete (remote_name store key) (bucket_objects s)) ∧
  ((delete_object clock store key s).1 = Ok tt →
   bucket_objects s' = delete (remote_name store key) (bucket_objects s)).
Proof.
  intros Hk. unfold delete_object. on_exchange key Hout; [by split; [left|]|].
  pose proof (svc_delete _ _ _ _ _ _ _ _ Hsent Hm Ha (remote_name_not_empty store key Hk)) as Hres.
  rewrite Hbef, Haft in Hres.
  destruct outcome as [rd|status rd|error]; cbn [reply_of].
  - unfold read_success_response. destruct (read_response_bytes rd); cbn; (split; [by right|done]).
  - destruct Hres as [Hany H404]. destruct (Z.eqb_spec status 404) as [->|]; cbn; [|done].
    destruct H404 as [Habs Hsame]; [done|]. split; [by left|]. intros _.
    by rewrite Hsame, delete_id.
  - done.
Qed.

Definition headers_of (only_if_absent : bool) : list (string * string) :=
  if only_if_absent then [("if-none-match", "*")] else [].
Lemma put_object_view key b absent s :
  is_store_key key = true →
  let '(r, s') := put_object clock store key b absent s in
  let m := bucket_objects s in let name := remote_name store key in
  let stored := bucket_objects s' = <[name := b]> m ∧ (absent = true → m !! name = None) in
  (bucket_objects s' = m ∨ stored) ∧ (r = Ok true → stored) ∧
  (r = Ok false → absent = true ∧ bucket_objects s' = m).
Proof.
  intros Hk. unfold put_object. change (if absent then _ else _) with (headers_of absent).
  on_exchange key Hout; [by split; [left|]|].
  pose proof (svc_put _ _ _ _ _ _ _ _ _ Hsent Hm Hb Ha (remote_name_not_empty store key Hk)) as Hres.
  rewrite Hbef, Haft in Hres.
  assert (Hcreate : create_only ex ↔ absent = true).
  { rewrite Hc. clear. unfold headers_of. destruct absent; set_solver. }
  unfold stored_object in Hres.
  destruct outcome as [rd|status rd|error]; rewrite Hcreate in Hres; cbn [reply_of].
  - unfold read_success_response.
    destruct (read_response_bytes rd); cbn; (split_and!; [by right|done|done]).
  - destruct (((status =? 409) || (status =? 412)) && absent) eqn:Hcond; cbn.
    + apply andb_true_iff in Hcond as [Hst ->]. split_and!; [apply Hres|done|]. intros _.
      split; [done|]. apply Hres; [|done]. apply orb_true_iff in Hst as [->%Z.eqb_eq| ->%Z.eqb_eq]; auto.
    + by split_and!; [apply Hres| |].
  - by split_and!.
Qed.

(** ** The map the store represents *)

Definition candidate_key (name : string) : option string :=
  match drop (length (prefix_segments store)) (split_on slash name) with
  | [kind; file] => Some (kind +:+ "/" +:+ "" +:+ "/" +:+ file)
  | [kind; dir; file] => Some (kind +:+ "/" +:+ dir +:+ "/" +:+ file)
  | _ => None
  end.
(** The key an object is named by. *)
Definition store_key_of (name : string) : option string :=
  key ← candidate_key name;
  if is_store_key key && String.eqb (remote_name store key) name then Some key else None.
Definition store_view (m : gmap string bytes) : gmap string bytes :=
  set_to_map (λ key, (key, default [] (m !! remote_name store key)))
    (set_omap (D:=gset string) store_key_of (dom m)).

Lemma store_key_of_name key : is_store_key key = true → store_key_of (remote_name store key) = Some key.
Proof.
  intros Hk. unfold store_key_of.
  assert (Hcand : candidate_key (remote_name store key) = Some key).
  { unfold candidate_key. rewrite remote_name_eq. apply store_key_shape in Hk as (k&d&f&->&?&?&?&?&?).
    rewrite segments_of_parts by done. change "/" with (String slash "") at 1.
    rewrite split_on_join.
    - rewrite drop_app_length. by destruct d.
    - by destruct (prefix_segments store), d.
    - apply Forall_app. split.
      + eapply Forall_impl; [apply segments_wf|]. by intros x [].
      + by destruct d; repeat constructor. }
  rewrite Hcand. cbn. by rewrite Hk, String.eqb_refl.
Qed.
Lemma store_key_of_Some name key :
  store_key_of name = Some key → is_store_key key = true ∧ remote_name store key = name.
Proof.
  unfold store_key_of. destruct (candidate_key name) as [k|]; [|done]. cbn.
  destruct (is_store_key k) eqn:Hk; [|done]. cbn.
  by destruct (String.eqb_spec (remote_name store k) name); [intros [= <-]|].
Qed.

Lemma store_view_lookup m key :
  store_view m !! key = if is_store_key key then m !! remote_name store key else None.
Proof.
  apply option_eq. intros b. unfold store_view. rewrite lookup_set_to_map by (by intros k k' _ _).
  split.
  - intros (k&(name&[c Hc]%elem_of_dom&Hk)%elem_of_set_omap&Heq). apply pair_equal_spec in Heq as [-> <-].
    apply store_key_of_Some in Hk as [-> <-]. by rewrite Hc.
  - destruct (is_store_key key) eqn:Hk; [|done]. intros Hb. exists key. rewrite Hb.
    split; [|done]. apply elem_of_set_omap. exists (remote_name store key).
    split; [by apply elem_of_dom; eauto|]. by apply store_key_of_name.
Qed.

Lemma store_view_insert m key b :
  is_store_key key = true → store_view (<[remote_name store key := b]> m) = <[key := b]> (store_view m).
Proof.
  intros Hk. apply map_eq. intros k. rewrite store_view_lookup.
  destruct (decide (k = key)) as [->|Hne]; [by rewrite Hk, !lookup_insert_eq|].
  rewrite (lookup_insert_ne (store_view m)), store_view_lookup by done.
  destruct (is_store_key k) eqn:Hk'; [|done]. apply lookup_insert_ne.
  intros Heq. apply Hne. symmetry. by eapply remote_name_inj.
Qed.
Lemma store_view_delete m key :
  is_store_key key = true → store_view (delete (remote_name store key) m) = delete key (store_view m).
Proof.
  intros Hk. apply map_eq. intros k. rewrite store_view_lookup.
  destruct (decide (k = key)) as [->|Hne]; [by rewrite Hk, !lookup_delete_eq|].
  rewrite (lookup_delete_ne (store_view m)), store_view_lookup by done.
  destruct (is_store_key k) eqn:Hk'; [|done]. apply lookup_delete_ne.
  intros Heq. apply Hne. symmetry. by eapply remote_name_inj.
Qed.
Lemma store_view_key m key :
  is_store_key key = true → store_view m !! key = m !! remote_name store key.
Proof. intros Hk. by rewrite store_view_lookup, Hk. Qed.

Abbreviation guarded_s3 := (guarded is_store_key (s3_backend clock store)).
Definition s3_view (s : bstate guarded_s3) : gmap string bytes := store_view (bucket_objects s).

Lemma s3_exists_view k s :
  s3_view (b_exists guarded_s3 k s).2 = s3_view s ∧
  ((b_exists guarded_s3 k s).1 = true → is_Some (s3_view s !! k)).
Proof.
  cbn. destruct (is_store_key k) eqn:Hk; [|done]. unfold s3_exists.
  destruct (head_object_view k s Hk) as [Hsame Hsome].
  destruct (head_object clock store k s) as [[b|e] s']; cbn in *; unfold s3_view; rewrite Hsame;
    (split; [done|]); [|done].
  intros ->. rewrite store_view_key by done. by apply Hsome.
Qed.
Lemma s3_read_view k s :
  s3_view (b_read guarded_s3 k s).2 = s3_view s ∧
  (∀ o, (b_read guarded_s3 k s).1 = Ok o → o = s3_view s !! k).
Proof.
  cbn. destruct (is_store_key k) eqn:Hk; [|done]. unfold s3_read, s3_view.
  destruct (get_object_view k s) as [-> Hres]; [by apply remote_name_not_empty|]. by rewrite store_view_key.
Qed.
Lemma s3_write_view k b s :
  agree_off k (s3_view s) (s3_view (b_write guarded_s3 k b s).2) ∧
  ((b_write guarded_s3 k b s).1 = Ok tt → s3_view (b_write guarded_s3 k b s).2 = <[k := b]> (s3_view s)).
Proof.
  cbn. destruct (is_store_key k) eqn:Hk; [|done]. unfold s3_write. rewrite ST_bind_run.
  pose proof (put_object_view k b false s Hk) as Hput.
  destruct (put_object clock store k b false s) as [r s']. destruct Hput as (Hany&Htrue&Hfalse).
  unfold s3_view. destruct r as [[]|e]; cbn.
  - destruct (Htrue eq_refl) as [-> _]. rewrite store_view_insert by done.
    split; [apply agree_off_insert|done].
  - destruct (Hfalse eq_refl) as [[=] _].
  - split; [|done]. destruct Hany as [-> |[-> _]]; [done|].
    rewrite store_view_insert by done. apply agree_off_insert.
Qed.
Lemma s3_create_view k b s :
  agree_off k (s3_view s) (s3_view (b_create guarded_s3 k b s).2) ∧
  (is_Some (s3_view s !! k) → s3_view (b_create guarded_s3 k b s).2 = s3_view s) ∧
  ((b_create guarded_s3 k b s).1 = Ok true →
     s3_view s !! k = None ∧ s3_view (b_create guarded_s3 k b s).2 = <[k := b]> (s3_view s)) ∧
  ((b_create guarded_s3 k b s).1 = Ok false → s3_view (b_create guarded_s3 k b s).2 = s3_view s).
Proof.
  cbn. destruct (is_store_key k) eqn:Hk; [|done]. unfold s3_create.
  pose proof (put_object_view k b true s Hk) as Hput.
  destruct (put_object clock store k b true s) as [r s']. destruct Hput as (Hany&Htrue&Hfalse).
  unfold s3_view. rewrite store_view_key by done. cbn. split_and!.
  - destruct Hany as [-> |[-> _]]; [done|]. rewrite store_view_insert by done. apply agree_off_insert.
  - intros [c Hc]. destruct Hany as [-> |[-> Habs]]; [done|]. rewrite Habs in Hc by done. done.
  - intros ->. destruct (Htrue eq_refl) as [-> Habs]. by rewrite store_view_insert, Habs.
  - intros ->. destruct (Hfalse eq_refl) as (_&->). done.
Qed.
Lemma s3_delete_view k s :
  agree_off k (s3_view s) (s3_view (b_delete guarded_s3 k s).2) ∧
  ((b_delete guarded_s3 k s).1 = Ok tt → s3_view (b_delete guarded_s3 k s).2 = delete k (s3_view s)).
Proof.
  cbn. destruct (is_store_key k) eqn:Hk; [|done]. unfold s3_delete, s3_view.
  destruct (delete_object_view k s Hk) as [Hany Hok]. split.
  - destruct Hany as [-> | ->]; [done|]. rewrite store_view_delete by done. apply agree_off_delete.
  - intros Hr. by rewrite (Hok Hr), store_view_delete.
Qed.

(** Behind the guard the S3 store keeps the promises of the interface. *)
Definition s3_backend_laws : BackendLaws guarded_s3 :=
  {| b_view := s3_view;
     b_exists_view := s3_exists_view;
     b_read_view := s3_read_view;
     b_write_view := s3_write_view;
     b_create_view := s3_create_view;
     b_delete_view := s3_delete_view |}.
End laws.


(** * Listing an S3 backing store

    The scanner [xml_values] finds the texts of the elements of a document, the loop
    over the pages of a listing ends and returns every key with the prefix, and what
    [list_values] makes of them.  The prefix is matched as a string: the listing of a
    directory includes every directory whose name extends it. *)

(** ** Replacing *)

Lemma split_str_fuel_cur f p s cur :
  split_str_fuel f p s cur =
  match split_str_fuel f p s "" with h :: t => (cur +:+ h) :: t | [] => [] end.
Proof.
  revert s cur. induction f as [|f IH]; intros s cur; [done|]. cbn [split_str_fuel].
  destruct (strip_prefix p s) as [rest|]; [by rewrite str_app_nil_r|].
  destruct s as [|c s]; [by rewrite str_app_nil_r|].
  rewrite (IH s (cur +:+ String c "")), (IH s ("" +:+ String c "")).
  destruct (split_str_fuel f p s ""); [done|]. by rewrite str_app_nil_l, <-str_app_assoc.
Qed.
Lemma strip_prefix_shorter c p s rest :
  strip_prefix (String c p) s = Some rest → (String.length rest < String.length s)%nat.
Proof. intros ->%strip_prefix_Some. rewrite str_app_length. cbn. lia. Qed.
Lemma split_str_fuel_enough f f' c p s cur :
  (String.length s < f)%nat → (String.length s < f')%nat →
  split_str_fuel f (String c p) s cur = split_str_fuel f' (String c p) s cur.
Proof.
  revert f' s cur. induction f as [|f IH]; intros [|f'] s cur Hf Hf'; try lia.
  cbn [split_str_fuel]. destruct (strip_prefix (String c p) s) as [rest|] eqn:Hs.
  - apply strip_prefix_shorter in Hs. f_equal. apply IH; lia.
  - destruct s as [|x s]; [done|]. cbn in Hf, Hf'. apply IH; lia.
Qed.

Section replace.
Context (c : ascii) (p r : string).
Abbreviation replace := (str_replace (String c p) r).

Lemma join_first cur h t : join r ((cur +:+ h) :: t) = cur +:+ join r (h :: t).
Proof. destruct t; [done|]. cbn. by rewrite <-str_app_assoc. Qed.
Lemma split_str_not_nil f q s cur : split_str_fuel f q s cur ≠ [].
Proof.
  revert s cur. induction f as [|f IH]; intros s cur; [done|]. cbn.
  destruct (strip_prefix q s); [done|]. by destruct s.
Qed.
Lemma split_str_match f s cur :
  split_str_fuel (S f) (String c p) (String c p +:+ s) cur
  = cur :: split_str_fuel f (String c p) s "".
Proof. cbn [split_str_fuel]. by rewrite (proj2 (strip_prefix_Some (String c p) _ s) eq_refl). Qed.
Lemma split_str_char f x s cur :
  strip_prefix (String c p) (String x s) = None →
  split_str_fuel (S f) (String c p) (String x s) cur
  = split_str_fuel f (String c p) s (cur +:+ String x "").
Proof. intros Hs. cbn [split_str_fuel]. by rewrite Hs. Qed.

Lemma replace_empty : replace "" = "".
Proof. done. Qed.
Lemma replace_match s : replace (String c p +:+ s) = r +:+ replace s.
Proof.
  unfold str_replace, split_str. rewrite split_str_match.
  rewrite (split_str_fuel_enough _ (S (String.length s))) by (rewrite ?str_app_length; cbn; lia).
  pose proof (split_str_not_nil (S (String.length s)) (String c p) s "") as Hne.
  by destruct (split_str_fuel _ _ _ _) as [|h t].
Qed.
Lemma replace_char x s :
  strip_prefix (String c p) (String x s) = None → replace (String x s) = String x (replace s).
Proof.
  intros Hs. unfold str_replace, split_str. rewrite split_str_char by done.
  change (String.length (String x s)) with (S (String.length s)).
  rewrite str_app_nil_l, split_str_fuel_cur.
  pose proof (split_str_not_nil (S (String.length s)) (String c p) s "") as Hne.
  destruct (split_str_fuel (S (String.length s)) _ s "") as [|h t]; [done|].
  by rewrite join_first.
Qed.
End replace.

(** ** Unescaping *)

(** The escapes that are left after the first passes of [xml_unescape]. *)
Definition escape_with (amp lt gt : string) (c : ascii) : string :=
  if Ascii.eqb c "&"%char then amp else if Ascii.eqb c "<"%char then lt
  else if Ascii.eqb c ">"%char then gt else String c "".
Fixpoint escape_all (amp lt gt s : string) : string :=
  match s with
  | EmptyString => ""
  | String c rest => escape_with amp lt gt c +:+ escape_all amp lt gt rest
  end.
Lemma xml_escape_all s : xml_escape s = escape_all "&amp;" "&lt;" "&gt;" s.
Proof. induction s as [|c s IH]; [done|]. cbn. by rewrite IH. Qed.

(** One pass replaces the escape of one character and keeps the others. *)
Ltac pass :=
  intros s; induction s as [|c s IH]; [done|]; cbn [escape_all]; unfold escape_with;
  destruct (Ascii.eqb_spec c "&"%char) as [->|Hamp]; [|
  destruct (Ascii.eqb_spec c "<"%char) as [->|Hlt]; [|
  destruct (Ascii.eqb_spec c ">"%char) as [->|Hgt]]];
  repeat first [rewrite replace_match | rewrite str_app_cons, replace_char by
    (first [done | apply strip_prefix_first; by destruct (Ascii.eqb_spec c "&"%char)])
    | rewrite str_app_nil_l ]; by rewrite ?IH.

Lemma pass_lt : ∀ s, str_replace "&lt;" "<" (escape_all "&amp;" "&lt;" "&gt;" s)
  = escape_all "&amp;" "<" "&gt;" s.
Proof. pass. Qed.
Lemma pass_gt : ∀ s, str_replace "&gt;" ">" (escape_all "&amp;" "<" "&gt;" s)
  = escape_all "&amp;" "<" ">" s.
Proof. pass. Qed.
Lemma pass_quot : ∀ s, str_replace "&quot;" (String "034"%char "") (escape_all "&amp;" "<" ">" s)
  = escape_all "&amp;" "<" ">" s.
Proof. pass. Qed.
Lemma pass_apos : ∀ s, str_replace "&apos;" (String "039"%char "") (escape_all "&amp;" "<" ">" s)
  = escape_all "&amp;" "<" ">" s.
Proof. pass. Qed.
Lemma pass_amp : ∀ s, str_replace "&amp;" "&" (escape_all "&amp;" "<" ">" s) = escape_all "&" "<" ">" s.
Proof. pass. Qed.
Lemma escape_none s : escape_all "&" "<" ">" s = s.
Proof.
  induction s as [|c s IH]; [done|]. cbn [escape_all]. rewrite IH. unfold escape_with.
  destruct (Ascii.eqb_spec c "&"%char) as [->|]; [done|].
  destruct (Ascii.eqb_spec c "<"%char) as [->|]; [done|].
  by destruct (Ascii.eqb_spec c ">"%char) as [->|].
Qed.
(** The five passes of [xml_unescape] undo the escapes in one go: the ampersands come
    last, so what they uncover is not replaced again. *)
Lemma xml_unescape_escape s : xml_unescape (xml_escape s) = s.
Proof.
  unfold xml_unescape. rewrite xml_escape_all.
  by rewrite pass_lt, pass_gt, pass_quot, pass_apos, pass_amp, escape_none.
Qed.
Lemma xml_escape_no_markup s : str_contains_char "<" (xml_escape s) = false.
Proof.
  induction s as [|c s IH]; [done|]. cbn [xml_escape]. rewrite str_contains_char_app, IH, orb_false_r.
  destruct (Ascii.eqb_spec c "&"%char) as [->|]; [done|].
  destruct (Ascii.eqb_spec c "<"%char) as [->|Hne]; [done|].
  destruct (Ascii.eqb_spec c ">"%char) as [->|]; [done|].
  rewrite str_contains_char_cons. by destruct (Ascii.eqb_spec c "<"%char).
Qed.

(** ** Scanning a document *)

Lemma split_once_str_skip c p a s :
  str_contains_char c a = false →
  split_once_str (String c p) (a +:+ s)
  = '(x, y) ← split_once_str (String c p) s; Some (a +:+ x, y).
Proof.
  induction a as [|x a IH].
  - intros _. rewrite str_app_nil_l. by destruct (split_once_str _ s) as [[]|].
  - rewrite str_contains_char_cons. intros [Hx Ha]%orb_false_iff. rewrite str_app_cons.
    cbn [split_once_str]. rewrite strip_prefix_first by done. rewrite IH by done.
    by destruct (split_once_str _ s) as [[]|].
Qed.

Section scan.
Context (tag : string) (tag_plain : str_contains_char ">" tag = false).
Abbreviation open := (String "<" (tag +:+ ">")).
Abbreviation close := (String "<" (String "/" (tag +:+ ">"))).
Abbreviation scan f := (xml_values_from f open close).

Lemma values_skip f a s : str_contains_char "<" a = false → scan f (a +:+ s) = scan f s.
Proof.
  intros Ha. destruct f as [|f]; [done|]. cbn [xml_values_from].
  rewrite (split_once_str_skip _ _ a s Ha). by destruct (split_once_str _ s) as [[]|].
Qed.
Lemma values_skip_tag f markup s :
  markup ≠ tag → str_contains_char "<" markup = false → str_contains_char ">" markup = false →
  scan f (render_token (XTag markup) +:+ s) = scan f s.
Proof.
  intros Hne Hlt Hgt. rewrite <-(values_skip f (markup +:+ ">") s)
    by (by rewrite str_contains_char_app, Hlt).
  destruct f as [|f]; [done|]. cbn [xml_values_from render_token].
  change ("<" +:+ markup +:+ ">") with (String "<" (markup +:+ ">")). rewrite str_app_cons.
  assert (Hs : strip_prefix open (String "<" ((markup +:+ ">") +:+ s)) = None).
  { destruct (strip_prefix open _) as [r|] eqn:Hs; [|done].
    apply strip_prefix_Some in Hs. rewrite str_app_cons in Hs. injection Hs as Hs.
    rewrite <-!str_app_assoc in Hs. repeat change (">" +:+ ?x) with (String ">" x) in Hs.
    by apply str_split_first in Hs as [? _]. }
  cbn [split_once_str]. rewrite Hs. by destruct (split_once_str _ _) as [[]|].
Qed.
Lemma values_found f text s :
  scan (S f) (open +:+ xml_escape text +:+ close +:+ s) = text :: scan f s.
Proof.
  pose proof (split_once_str_first "<" (tag +:+ ">") "" (xml_escape text +:+ close +:+ s) eq_refl) as Ho.
  rewrite str_app_nil_l in Ho. cbn [xml_values_from]. rewrite Ho.
  rewrite split_once_str_first by apply xml_escape_no_markup. by rewrite xml_unescape_escape.
Qed.

Lemma values_of_document tokens vs :
  leaf_values tag tokens vs →
  ∀ f, (String.length (render_xml tokens) < f)%nat → scan f (render_xml tokens) = vs.
Proof.
  induction 1 as [|text tokens vs _ IH|markup tokens vs Hne Hlt Hgt _ IH|text tokens vs _ IH];
    intros f Hf; cbn [render_xml] in *; rewrite ?str_app_length in Hf.
  - by destruct f.
  - rewrite values_skip by apply xml_escape_no_markup. apply IH. lia.
  - rewrite values_skip_tag by done. apply IH. lia.
  - destruct f as [|f]; [lia|].
    transitivity (scan (S f) (open +:+ xml_escape text +:+ close +:+ render_xml tokens)).
    { by f_equal; rewrite <-?str_app_assoc. }
    rewrite values_found. f_equal. apply IH.
    change (String.length (render_token (XTag tag))) with (S (String.length (tag +:+ ">"))) in Hf. lia.
Qed.
End scan.

(** [xml_values] finds the texts of the elements of a name, unescaped. *)
Lemma xml_values_document tag tokens vs :
  str_contains_char ">" tag = false → leaf_values tag tokens vs →
  xml_values (render_xml tokens) tag = vs.
Proof. intros Htag Hv. apply values_of_document; [done..|lia]. Qed.

(** ** Text of a body *)

Lemma lossy_ascii part b0 rest :
  in_range 0 127 b0 = true → utf8_lossy part [] (b0 :: rest) = part ++ utf8_lossy [b0] [] rest.
Proof. intros Hb. cbn. unfold utf8_continuations. by rewrite Hb. Qed.
Lemma lossy_step part lo hi todo b rest :
  in_range lo hi b = true →
  utf8_lossy part ((lo, hi) :: todo) (b :: rest) = utf8_lossy (part ++ [b]) todo rest.
Proof. intros Hb. cbn. by rewrite Hb. Qed.
Lemma lossy_part part b : utf8_lossy part [] b = part ++ utf8_lossy [] [] b.
Proof. destruct b; cbn; [by rewrite app_nil_r|done]. Qed.

Lemma lossy_valid b : utf8_valid b = true → utf8_lossy [] [] b = b.
Proof.
  remember (length b) as n eqn:Hn. assert (Hle : (length b <= n)%nat) by lia. clear Hn. revert b Hle.
  induction n as [|n IH]; intros [|b0 r0] Hle; cbn [length] in *; [done|lia|done|].
  cbn [utf8_valid utf8_lossy app]. unfold utf8_continuations.
  destruct (in_range 0 127 b0) eqn:E0.
  { intros Hv. rewrite lossy_part. cbn. f_equal. apply IH; [lia|done]. }
  destruct r0 as [|b1 r1]; [done|]. cbn [length] in *.
  destruct (in_range 194 223 b0) eqn:E1.
  { intros [H1 Hv]%andb_true_iff. rewrite lossy_step by done. rewrite lossy_part. cbn.
    do 2 f_equal. apply IH; [lia|done]. }
  destruct r1 as [|b2 r2]; [done|]. cbn [length] in *.
  destruct (in_range 224 224 b0) eqn:E2; [|destruct (in_range 237 237 b0) eqn:E3;
    [|destruct (in_range 225 239 b0) eqn:E4]].
  1-3: intros [[H1 H2]%andb_true_iff Hv]%andb_true_iff; rewrite !lossy_step by done;
    rewrite lossy_part; cbn; do 3 f_equal; apply IH; [lia|done].
  destruct r2 as [|b3 r3]; [done|]. cbn [length] in *.
  intros [[[H1 H2]%andb_true_iff H3]%andb_true_iff Hv]%andb_true_iff.
  destruct (in_range 240 240 b0) eqn:E5; [|destruct (in_range 241 243 b0) eqn:E6;
    [|apply andb_true_iff in H1 as [E7 H1]; rewrite E7]];
  rewrite !lossy_step by done; rewrite lossy_part; cbn; do 4 f_equal; (apply IH; [lia|done]).
Qed.
Lemma from_utf8_lossy_valid s : utf8_valid (as_bytes s) = true → from_utf8_lossy (as_bytes s) = s.
Proof. intros Hv. unfold from_utf8_lossy. by rewrite lossy_valid, of_as_bytes. Qed.

(** ** Pages *)

Section pages.
Context `{Hashing} `{S3ClientDeps} (clock : nat → Z) (store : S3ObjectStore).
Context `{SV : !S3Service (st_agent store) (st_endpoint_url store) (sc_bucket (st_config store))}.
Hypothesis bucket_slash_free : str_contains_char slash (sc_bucket (st_config store)) = false.
Implicit Types s : S3StoreState.
Abbreviation names prefix s := (keys_with prefix (bucket_objects store s)).
Abbreviation position prefix token s :=
  (list_position _ _ _ (bucket_objects store s) prefix token).

(** What one page of a listing says. *)
Lemma page_outcome prefix token s :
  let '(r, s') := request clock store "GET" "" (list_query prefix token) None [] s in
  bucket_objects store s' = bucket_objects store s ∧
  ∀ b, r = Ok (S3Ok b) →
    ∃ keys next, list_page_of store (from_utf8_lossy b) = (strip_backend_prefix store <$> keys, next) ∧
      let rest := drop (position prefix token s) (names prefix s) in
      match next with
      | None => keys = rest
      | Some t => keys ≠ [] ∧ rest = keys ++ drop (position prefix (Some t) s) (names prefix s)
      end.
Proof.
  destruct (request_cases clock store "GET" "" (list_query prefix token) None [] s)
    as (s1&Hs1&[[e ->]|(ts&date&->)]); [done|].
  unfold send. destruct (agent_send _ _ _) as [outcome r'] eqn:Hsend.
  destruct (s3_target_request store bucket_slash_free "" (list_query prefix token)) as (q&Hq&Ht).
  destruct (svc_list _ _ _ _ prefix token q _ _ _ Hsend eq_refl Ht Hq) as [Hsame Hpage].
  change (objects _ _ _ (s3_remote s1)) with (bucket_objects store s1) in *. rewrite Hs1 in *.
  split; [done|]. intros b Hb. destruct outcome as [rd|status rd|error]; [|done..].
  unfold read_success_response in Hb. destruct (read_response_bytes rd) as [b'|] eqn:Hrd; [|done].
  apply read_response_ok in Hrd as [Herr ->]. injection Hb as <-.
  destruct (Hpage Herr) as (tokens&keys&truncated&next&Hbody&Hutf&Hk&Htr&Hn&Hkeys&Hend).
  rewrite Hbody in *. rewrite from_utf8_lossy_valid by done. unfold list_page_of.
  rewrite (xml_values_document "Key" tokens keys),
    (xml_values_document "IsTruncated" tokens _ eq_refl Htr),
    (xml_values_document "NextContinuationToken" tokens _ eq_refl Hn) by done.
  exists keys, (if truncated then Some next else None).
  split; [by destruct truncated|]. destruct truncated; cbn zeta.
  - destruct Hend as [Hne ->]. split; [done|]. rewrite <-drop_drop, Hkeys at 1.
    by rewrite take_drop.
  - rewrite Hkeys, take_ge; [done|]. rewrite length_drop. lia.
Qed.

(** The loop over the pages ends and collects every name. *)
Lemma list_pages_spec fuel prefix token s :
  (length (drop (position prefix token s) (names prefix s)) < fuel)%nat →
  let '(r, s') := list_pages clock store fuel prefix token s in
  bucket_objects store s' = bucket_objects store s ∧
  ∀ o, r = Ok o → o = Some (strip_backend_prefix store <$>
                            drop (position prefix token s) (names prefix s)).
Proof.
  revert token s. induction fuel as [|fuel IH]; intros token s Hfuel; [lia|].
  cbn [list_pages]. rewrite ST_bind_run. pose proof (page_outcome prefix token s) as Hpage.
  destruct (request _ _ _ _ _ _ _ s) as [[[b|status body]|e] s1]; destruct Hpage as [Hs1 Hpage]; [|done..].
  destruct (Hpage b eq_refl) as (keys&next&->&Hnext). destruct next as [t|].
  - destruct Hnext as [Hne Hrest]. rewrite ST_bind_run.
    specialize (IH (Some t) s1). rewrite Hs1 in IH.
    destruct (list_pages _ _ _ _ _ s1) as [[more|e] s2].
    + destruct IH as [Hs2 Hmore].
      { rewrite Hrest, length_app in Hfuel. destruct keys; [done|]. cbn in Hfuel. lia. }
      cbn. rewrite Hs2. split; [done|]. intros o [= <-]. rewrite (Hmore more) by done.
      by rewrite Hrest, fmap_app.
    + destruct IH as [Hs2 _]; [|by rewrite Hs2].
      rewrite Hrest, length_app in Hfuel. destruct keys; [done|]. cbn in Hfuel. lia.
  - cbn. split; [done|]. intros o [= <-]. by rewrite Hnext.
Qed.
End pages.

(** ** Names and keys *)

Lemma str_contains_rev c s : str_contains_char c (str_rev s) = str_contains_char c s.
Proof.
  induction s as [|x s IH]; [done|]. change (String x s) with (String x "" +:+ s) at 1.
  rewrite str_rev_app, str_contains_char_app, IH, str_contains_char_cons.
  change (str_rev (String x "")) with (String x ""). rewrite str_contains_char_cons.
  by rewrite orb_false_r, orb_comm.
Qed.
Lemma ends_with_char_no c s x :
  x ≠ "" → str_contains_char c x = false → ends_with (String c "") (s +:+ x) = false.
Proof.
  intros Hne Hx. unfold ends_with. rewrite str_rev_app. rewrite <-str_contains_rev in Hx.
  assert (Hr : str_rev x ≠ "") by (intros Hr; apply Hne; by rewrite <-(str_rev_involutive x), Hr).
  destruct (str_rev x) as [|y r]; [done|]. rewrite str_app_cons.
  rewrite str_contains_char_cons, orb_false_iff in Hx. change (str_rev (String c "")) with (String c "").
  rewrite starts_with_char. by destruct Hx.
Qed.
Lemma segment_no_slash x s :
  x ≠ "" → str_contains_char slash x = false → starts_with (String slash "") (x +:+ s) = false.
Proof.
  intros Hne Hx. destruct x as [|y x]; [done|]. rewrite str_app_cons, starts_with_char.
  rewrite str_contains_char_cons, orb_false_iff in Hx. by destruct Hx.
Qed.

Section values.
Context `{Hashing} `{S3ClientDeps} (clock : nat → Z) (store : S3ObjectStore).
Context `{SV : !S3Service (st_agent store) (st_endpoint_url store) (sc_bucket (st_config store))}.
Hypothesis bucket_slash_free : str_contains_char slash (sc_bucket (st_config store)) = false.
Implicit Types s : S3StoreState.

(** The configured prefix has no empty segments. *)
Definition prefix_clean : Prop :=
  trim_slashes (sc_prefix (st_config store)) = join "/" (prefix_segments store).
(** The bucket holds objects of this store only. *)
Definition own_names (m : gmap string bytes) : Prop :=
  ∀ name, is_Some (m !! name) → ∃ key, is_store_key key = true ∧ name = remote_name store key.

Lemma join_first_segment l t :
  l ≠ [] → Forall (λ x, str_contains_char slash x = false ∧ x ≠ "") l →
  starts_with (String slash "") (join "/" l +:+ t) = false.
Proof.
  intros Hne Hl. inversion Hl as [|x l' [Hx Hx'] _]; subst; [done|].
  destruct l'; [by apply segment_no_slash|].
  rewrite join_cons, <-str_app_assoc by done. by apply segment_no_slash.
Qed.

(** Listing a name and asking for the key it was listed as comes back to the name. *)
Lemma listed_name key :
  prefix_clean → is_store_key key = true →
  remote_name store (strip_backend_prefix store (remote_name store key)) = remote_name store key.
Proof.
  intros Hclean Hk. rewrite !remote_name_eq. f_equal. f_equal.
  assert (Hl : non_empty_segments key ≠ []).
  { apply store_key_shape in Hk as (k&d&f&->&?&?&?&?&?). rewrite segments_of_parts by done.
    by destruct d. }
  pose proof (segments_wf key) as Hwf. revert Hl Hwf. generalize (non_empty_segments key) as l.
  intros l Hl Hwf. unfold strip_backend_prefix. rewrite Hclean.
  pose proof (segments_wf (sc_prefix (st_config store))) as HP. fold (prefix_segments store) in HP.
  trans (non_empty_segments (join "/" l)); [f_equal|by apply segments_join].
  destruct (prefix_segments store) as [|p P] eqn:EP.
  - change (join "/" []) with "". rewrite app_nil_l. cbn [str_is_empty].
    rewrite <-(str_app_nil_r (join "/" l)). by apply trim_start_char_none, join_first_segment.
  - rewrite join_app by done. destruct (str_is_empty (join "/" (p :: P))) eqn:Ee.
    { apply Forall_inv in HP as [_ Hp]. destruct p; [done|]. by destruct P. }
    rewrite (trim_start_char_none slash (join "/" (p :: P) +:+ "/" +:+ join "/" l))
      by (by apply join_first_segment).
    rewrite (proj2 (strip_prefix_Some _ _ ("/" +:+ join "/" l)) eq_refl).
    trans (trim_start_char slash (join "/" l)); [done|]. rewrite <-(str_app_nil_r (join "/" l)).
    by apply trim_start_char_none, join_first_segment.
Qed.

Lemma get_objects_spec keys s :
  Forall (λ key, remote_name store key ≠ "") keys →
  let '(r, s') := get_objects clock store keys s in
  bucket_objects store s' = bucket_objects store s ∧
  ∀ values, r = Ok values →
    values = omap (λ key, bucket_objects store s !! remote_name store key) keys.
Proof.
  intros Hkeys. revert s. induction Hkeys as [|key keys Hne _ IH]; intros s; cbn [get_objects].
  { split; [done|]. by intros values [= <-]. }
  rewrite ST_bind_run. destruct (get_object_view clock store bucket_slash_free key s Hne) as [Hs Hget].
  destruct (get_object clock store key s) as [[o|e] s1]; cbn in Hs, Hget; [|by rewrite Hs].
  rewrite ST_bind_run. specialize (IH s1). rewrite Hs in IH.
  destruct (get_objects clock store keys s1) as [[values|e] s2]; cbn; destruct IH as [Hs2 Hv];
    rewrite Hs2; (split; [done|]); [|done].
  intros vs [= <-]. rewrite (Hv values eq_refl), <-(Hget o eq_refl). by destruct o.
Qed.

Lemma keys_with_elem prefix m name :
  name ∈ keys_with prefix m ↔ starts_with prefix name = true ∧ is_Some (m !! name).
Proof.
  unfold keys_with, btree_iter. rewrite list_elem_of_filter, list_elem_of_fmap. split.
  - intros [Hp [[n b] [-> Hin]]]. rewrite merge_sort_Permutation in Hin.
    apply elem_of_map_to_list in Hin. eauto.
  - intros [Hp [b Hb]]. split; [done|]. exists (name, b). split; [done|].
    by rewrite merge_sort_Permutation, elem_of_map_to_list.
Qed.

(** What [list_values] returns: every object whose name starts with the prefix. *)
Lemma s3_list_values_spec fuel prefix s :
  prefix_clean → own_names (bucket_objects store s) →
  let names := keys_with (backend_key store prefix) (bucket_objects store s) in
  (length names < fuel)%nat →
  let '(r, s') := s3_list_values clock store fuel prefix s in
  bucket_objects store s' = bucket_objects store s ∧
  ∀ o, r = Ok o → o = Some (omap (λ name, bucket_objects store s !! name) names).
Proof.
  intros Hclean Hown names Hfuel. unfold s3_list_values, list_keys. rewrite ST_bind_run.
  pose proof (list_pages_spec clock store bucket_slash_free fuel (backend_key store prefix) None s) as Hp.
  rewrite svc_list_first, drop_0 in Hp. fold names in Hp. specialize (Hp Hfuel).
  destruct (list_pages _ _ _ _ _ s) as [[keys|e] s1]; destruct Hp as [Hs1 Hkeys]; [|done].
  rewrite (Hkeys keys eq_refl). rewrite ST_bind_run.
  assert (Hnames : ∀ name, name ∈ names →
    remote_name store (strip_backend_prefix store name) = name ∧ name ≠ "").
  { intros name [_ Hin]%keys_with_elem. destruct (Hown name Hin) as (key&Hk&->).
    split; [by apply listed_name|by apply remote_name_not_empty]. }
  pose proof (get_objects_spec (strip_backend_prefix store <$> names) s1) as Hget.
  destruct (get_objects clock store _ s1) as [[values|e] s2]; destruct Hget as [Hs2 Hv];
    try (apply Forall_fmap, Forall_forall; intros name Hin; cbn; by destruct (Hnames name Hin) as [-> ?]);
    cbn; rewrite Hs2; (split; [done|]); [|done].
  intros o [= <-]. f_equal. rewrite (Hv values eq_refl), Hs1. clear -Hnames.
  induction names as [|name names IH]; [done|]. cbn.
  destruct (Hnames name) as [-> _]; [apply list_elem_of_here|].
  rewrite IH; [done|]. intros n Hn. apply Hnames. by apply list_elem_of_further.
Qed.
End values.
