(* ===== verification/ServiceRel.v ===== *)
(** * The service is parametric in its store

    The service reaches its store only by the five operations of [Backend], on keys
    of its own form.  [ServiceRel] says when a relation between methods over two
    backends is preserved by everything the service is built from: the monad, the
    clock, the random draws, the caches, and the store calls it makes, each on the
    kinds of record it is made on.  Every method of the service is then related to
    itself ([service_parametric]).  [BackendSim.v] and [Interleaving.v] instantiate
    the relation. *)

From Stdlib Require Import ZArith Lia Ascii String Bool.
From stdpp Require Import base option list strings gmap numbers.
From S2P Require Import Prelude RustStr Path Core Cbor CborFacts Auth Crypto Store ServiceState ServiceFacts Access Namespaces Objects Subscribe Service.

(** ** Replies *)

Inductive ServiceReply :=
| ReplyPutInit (response : PutInitResponse)
| ReplyPutChunk (response : PutChunkResponse)
| ReplyPutCommit (response : PutCommitResponse)
| ReplyHead (response : HeadResponse)
| ReplyGet (response : GetResponse)
| ReplyResolve (response : ResolveResponse)
| ReplyBind (response : BindResponse)
| ReplyUnbind (response : UnbindResponse)
| ReplyList (response : ListResponse)
| ReplySubscribeStart (cursor : EventCursor)
| ReplySubscribePoll (events : list SubscribeEnvelope) (cursor : EventCursor).

Section replies.
Context `{Deps} {B : Backend} (sv : AlphaService).

Definition answer (auth : AuthContext) (c : ServiceCall) : ST (World B) ApiError ServiceReply :=
  match c with
  | CallPutInit r => x ← put_init sv auth r; mret (ReplyPutInit x)
  | CallPutChunk r b => x ← put_chunk sv auth r b; mret (ReplyPutChunk x)
  | CallPutCommit r => x ← put_commit sv auth r; mret (ReplyPutCommit x)
  | CallHead r => x ← head sv auth r; mret (ReplyHead x)
  | CallGet r => x ← get sv auth r; mret (ReplyGet x)
  | CallResolve r => x ← resolve_op sv auth r; mret (ReplyResolve x)
  | CallBind r => x ← bind sv auth r; mret (ReplyBind x)
  | CallUnbind r => x ← unbind sv auth r; mret (ReplyUnbind x)
  | CallList r => x ← list_op sv auth r; mret (ReplyList x)
  | CallSubscribeStart r => x ← subscribe_start sv auth r; mret (ReplySubscribeStart x)
  | CallSubscribePoll r cursor =>
      x ← subscribe_poll sv auth r cursor; mret (ReplySubscribePoll x.1 x.2)
  end.

Fixpoint answers (calls : list (AuthContext * ServiceCall)) (w : World B)
  : list (result ApiError ServiceReply) * World B :=
  match calls with
  | [] => ([], w)
  | (auth, c) :: rest =>
      let '(r, w1) := answer auth c w in
      let '(rs, w2) := answers rest w1 in (r :: rs, w2)
  end.

Lemma answer_run auth c w : (answer auth c w).2 = (run_call sv auth c w).2.
Proof.
  destruct c; cbn [answer run_call]; unfold ignore; rewrite !ST_bind_run;
    match goal with |- context [match ?m w with _ => _ end] => destruct (m w) as [[] ?] end; done.
Qed.
Lemma answers_run calls w : (answers calls w).2 = run_calls sv calls w.
Proof.
  revert w. induction calls as [|[auth c] calls IH]; intros w; [done|]. cbn [answers run_calls].
  rewrite <-answer_run. destruct (answer auth c w) as [r w1]. cbn [snd].
  rewrite <-IH. by destruct (answers calls w1).
Qed.
End replies.

(** ** Kinds of records *)

(** What the service reads, writes, creates and deletes.  Replay records are created
    and read only. *)
Definition read_kinds : list string :=
  ["sessions"; "idempotency"; "chunks"; "manifests"; "replay"; "events"; "namespace-current";
   "namespace-journal"; "namespace-revisions"].
Definition written_kinds : list string :=
  ["sessions"; "idempotency"; "chunks"; "manifests"; "events"; "audit"; "namespace-current";
   "namespace-journal"; "namespace-revisions"].
Definition created_kinds : list string := ["replay"].
Definition deleted_kinds : list string := ["manifests"].
Definition one_of (kinds : list string) (k : string) : bool := existsb (String.eqb k) kinds.

(** ** Relations the service preserves *)

Class ServiceRel `{Deps} (B1 B2 : Backend)
  (rel : ∀ E A : Type, ST (World B1) E A → ST (World B2) E A → Prop) := {
  rel_ret : ∀ E A (a : A), rel E A (mret a) (mret a);
  rel_throw : ∀ E A (e : E), rel E A (throw e) (throw e);
  rel_lift : ∀ E A (r : result E A), rel E A (lift_result r) (lift_result r);
  rel_bind : ∀ E A A' (m1 : ST (World B1) E A) m2 (f1 : A → ST (World B1) E A') f2,
    rel E A m1 m2 → (∀ a, rel E A' (f1 a) (f2 a)) → rel E A' (m1 ≫= f1) (m2 ≫= f2);
  rel_attempt : ∀ E F A (m1 : ST (World B1) E A) m2,
    rel E A m1 m2 → rel F (result E A) (attempt m1) (attempt m2);
  rel_draws : ∀ E A (m : ST nat E A),
    rel E A (zoom w_draws set_draws m) (zoom w_draws set_draws m);
  rel_replay : ∀ E A (m : ST (gmap string string) E A),
    rel E A (zoom w_replay set_replay m) (zoom w_replay set_replay m);
  rel_now : ∀ E, rel E Z now_ms now_ms;
  rel_observation : ∀ E o, rel E unit (record_observation o) (record_observation o);
  rel_read : ∀ t k key, one_of read_kinds k = true →
    rel ApiError _ (on_store (b_read B1 (store_key t k key))) (on_store (b_read B2 (store_key t k key)));
  rel_write : ∀ t k key b, one_of written_kinds k = true →
    rel ApiError _ (on_store (b_write B1 (store_key t k key) b))
      (on_store (b_write B2 (store_key t k key) b));
  rel_create : ∀ t k key b, one_of created_kinds k = true →
    rel ApiError _ (on_store (b_create B1 (store_key t k key) b))
      (on_store (b_create B2 (store_key t k key) b));
  rel_delete : ∀ t k key, one_of deleted_kinds k = true →
    rel ApiError _ (on_store (b_delete B1 (store_key t k key)))
      (on_store (b_delete B2 (store_key t k key)));
  rel_chunk_exists : ∀ t cid, rel ApiError bool (chunk_exists t cid) (chunk_exists t cid);
}.

(** ** Methods of the service *)

Create HintDb hsp_sim.
#[export] Hint Extern 1 (one_of _ _ = true) => reflexivity : hsp_sim.
Ltac sim_step :=
  lazymatch goal with
  | |- ∀ _, _ => intros ?
  | |- _ (match ?x with _ => _ end) _ => destruct x
  | |- _ (_ ≫= _) (_ ≫= _) => apply rel_bind
  | |- _ (attempt _) (attempt _) => apply rel_attempt
  | |- _ _ _ => solve [eauto 3 with hsp_sim nocore]
  end.
Ltac sim := repeat (cbn zeta beta; sim_step).

Section methods.
Context `{DD : Deps} {B1 B2 : Backend} {rel : ∀ E A : Type, ST (World B1) E A → ST (World B2) E A → Prop}
  `{SR : !ServiceRel B1 B2 rel} (sv : AlphaService).

Lemma sim_ret E A (a : A) : rel E A (mret a) (mret a).
Proof. apply rel_ret. Qed.
Lemma sim_throw E A (e : E) : rel E A (throw e) (throw e).
Proof. apply rel_throw. Qed.
Lemma sim_lift E A (r : result E A) : rel E A (lift_result r) (lift_result r).
Proof. apply rel_lift. Qed.
Lemma sim_draws E A (m : ST nat E A) : rel E A (zoom w_draws set_draws m) (zoom w_draws set_draws m).
Proof. apply rel_draws. Qed.
Lemma sim_replay E A (m : ST (gmap string string) E A) :
  rel E A (zoom w_replay set_replay m) (zoom w_replay set_replay m).
Proof. apply rel_replay. Qed.
Lemma sim_now E : rel E Z now_ms now_ms.
Proof. apply rel_now. Qed.
Lemma sim_observation E o : rel E unit (record_observation o) (record_observation o).
Proof. apply rel_observation. Qed.
Lemma sim_chunk_exists t cid : rel ApiError bool (chunk_exists t cid) (chunk_exists t cid).
Proof. apply rel_chunk_exists. Qed.
#[local] Hint Resolve sim_ret sim_throw sim_lift sim_draws sim_replay sim_now sim_observation
  sim_chunk_exists : hsp_sim.

Lemma sim_elapsed {E} start : rel E _ (elapsed_ms start) (elapsed_ms start).
Proof. unfold elapsed_ms. sim. Qed.
#[local] Hint Resolve sim_elapsed : hsp_sim.

Lemma sim_write_bytes t k key b :
  one_of written_kinds k = true →
  rel ApiError _ (write_encrypted_bytes sv t k key b) (write_encrypted_bytes sv t k key b).
Proof.
  intros Hk. unfold write_encrypted_bytes, encrypt_payload, write_envelope. sim.
  by apply rel_write.
Qed.
#[local] Hint Resolve sim_write_bytes : hsp_sim.
Lemma sim_write_json {T} `{Json T} t k key (v : T) :
  one_of written_kinds k = true →
  rel ApiError _ (write_encrypted_json sv t k key v) (write_encrypted_json sv t k key v).
Proof. intros Hk. unfold write_encrypted_json. sim. Qed.
Lemma sim_create_json {T} `{Json T} t k key (v : T) :
  one_of created_kinds k = true →
  rel ApiError _ (create_encrypted_json sv t k key v) (create_encrypted_json sv t k key v).
Proof.
  intros Hk. unfold create_encrypted_json, encrypt_payload, create_envelope. sim.
  by apply rel_create.
Qed.
Lemma sim_read_bytes t k key :
  one_of read_kinds k = true →
  rel ApiError _ (read_encrypted_bytes sv t k key) (read_encrypted_bytes sv t k key).
Proof.
  intros Hk. unfold read_encrypted_bytes. apply rel_bind; [|sim]. by apply rel_read.
Qed.
#[local] Hint Resolve sim_read_bytes : hsp_sim.
Lemma sim_read_json {T} `{Json T} t k key :
  one_of read_kinds k = true →
  rel ApiError _ (read_encrypted_json (T:=T) sv t k key) (read_encrypted_json sv t k key).
Proof. intros Hk. unfold read_encrypted_json. sim. Qed.
Lemma sim_delete_key t k key :
  one_of deleted_kinds k = true →
  rel ApiError _ (delete_store_key t k key) (delete_store_key t k key).
Proof.
  intros Hk. by apply rel_delete.
Qed.
#[local] Hint Resolve sim_write_json sim_create_json sim_read_json sim_delete_key : hsp_sim.

Lemma sim_manifest_record t cid :
  rel ApiError _ (manifest_record sv t cid) (manifest_record sv t cid).
Proof. unfold manifest_record. sim. Qed.
Lemma sim_append_event t ev :
  rel ApiError _ (append_event sv t ev) (append_event sv t ev).
Proof. unfold append_event, next_event_seq. sim. Qed.
Lemma sim_next_read_event_seq t :
  rel ApiError _ (next_read_event_seq sv t) (next_read_event_seq sv t).
Proof. unfold next_read_event_seq. sim. Qed.
Lemma sim_write_audit t seq op subject :
  rel ApiError _ (write_audit sv t seq op subject) (write_audit sv t seq op subject).
Proof. unfold write_audit. sim. Qed.
#[local] Hint Resolve sim_manifest_record sim_append_event sim_next_read_event_seq
  sim_write_audit : hsp_sim.

Lemma sim_denied meta reason :
  rel ApiError _ (authorization_denied_api_error sv meta reason)
    (authorization_denied_api_error sv meta reason).
Proof. unfold authorization_denied_api_error. sim. Qed.
#[local] Hint Resolve sim_denied : hsp_sim.
Lemma sim_authorize auth meta :
  rel ApiError _ (authorize_request sv auth meta) (authorize_request sv auth meta).
Proof. unfold authorize_request, observe_durable_replay. sim. Qed.
#[local] Hint Resolve sim_authorize : hsp_sim.

Lemma sim_current_state t ns :
  rel ApiError _ (namespace_current_state sv t ns) (namespace_current_state sv t ns).
Proof. unfold namespace_current_state. sim. Qed.
Lemma sim_journal t ns :
  rel ApiError _ (namespace_journal sv t ns) (namespace_journal sv t ns).
Proof. unfold namespace_journal. sim. Qed.
#[local] Hint Resolve sim_current_state sim_journal : hsp_sim.
Lemma sim_next_revision t ns :
  rel ApiError _ (next_namespace_revision sv t ns) (next_namespace_revision sv t ns).
Proof. unfold next_namespace_revision. sim. Qed.
Lemma sim_snapshot t ns at_revision :
  rel ApiError _ (namespace_snapshot_at sv t ns at_revision)
    (namespace_snapshot_at sv t ns at_revision).
Proof. unfold namespace_snapshot_at. sim. Qed.
#[local] Hint Resolve sim_next_revision sim_snapshot : hsp_sim.
Lemma sim_apply_bind request ns path record :
  rel ApiError _ (apply_bind sv request ns path record) (apply_bind sv request ns path record).
Proof. unfold apply_bind, write_namespace_current_state, append_namespace_journal. sim. Qed.
#[local] Hint Resolve sim_apply_bind : hsp_sim.
Lemma sim_bind_internal auth request persist :
  rel ApiError _ (bind_internal sv auth request persist)
    (bind_internal sv auth request persist).
Proof. unfold bind_internal. sim. Qed.
#[local] Hint Resolve sim_bind_internal : hsp_sim.
Lemma sim_apply_unbind request ns path record :
  rel ApiError _ (apply_unbind sv request ns path record) (apply_unbind sv request ns path record).
Proof. unfold apply_unbind, write_namespace_current_state, append_namespace_journal. sim. Qed.
#[local] Hint Resolve sim_apply_unbind : hsp_sim.
Lemma sim_unbind_internal auth request persist :
  rel ApiError _ (unbind_internal sv auth request persist)
    (unbind_internal sv auth request persist).
Proof. unfold unbind_internal. sim. Qed.
Lemma sim_list auth request :
  rel ApiError _ (list_op sv auth request) (list_op sv auth request).
Proof. unfold list_op. sim. Qed.
#[local] Hint Resolve sim_unbind_internal sim_list : hsp_sim.

Lemma sim_missing_chunks t refs :
  rel ApiError _ (missing_chunks t refs) (missing_chunks t refs).
Proof. induction refs as [|chunk refs IH]; cbn [missing_chunks]; sim; try apply IH. Qed.
Lemma sim_require_chunks t refs :
  rel ApiError _ (require_chunks t refs) (require_chunks t refs).
Proof. induction refs as [|chunk refs IH]; cbn [require_chunks]; sim; try apply IH. Qed.
Lemma sim_get_chunks t from until refs :
  rel ApiError _ (get_chunks sv t from until refs) (get_chunks sv t from until refs).
Proof. induction refs as [|chunk refs IH]; cbn [get_chunks]; sim; try apply IH. Qed.
#[local] Hint Resolve sim_missing_chunks sim_require_chunks sim_get_chunks : hsp_sim.
Lemma sim_put_init auth request :
  rel ApiError _ (put_init sv auth request) (put_init sv auth request).
Proof. unfold put_init. sim. Qed.
Lemma sim_put_chunk auth request b :
  rel ApiError _ (put_chunk sv auth request b) (put_chunk sv auth request b).
Proof. unfold put_chunk. sim. Qed.
Lemma sim_apply_commit auth request session :
  rel ApiError _ (apply_commit sv auth request session) (apply_commit sv auth request session).
Proof. unfold apply_commit, commit_atomic_bind. sim. Qed.
#[local] Hint Resolve sim_apply_commit : hsp_sim.
Lemma sim_put_commit auth request :
  rel ApiError _ (put_commit sv auth request) (put_commit sv auth request).
Proof. unfold put_commit. sim. Qed.
Lemma sim_resolution t selector :
  rel ApiError _ (selector_resolution sv t selector) (selector_resolution sv t selector).
Proof. unfold selector_resolution, resolve_snapshot. sim. Qed.
#[local] Hint Resolve sim_put_init sim_put_chunk sim_put_commit sim_resolution : hsp_sim.
Lemma sim_head auth request :
  rel ApiError _ (head sv auth request) (head sv auth request).
Proof. unfold head. sim. Qed.
Lemma sim_get auth request :
  rel ApiError _ (get sv auth request) (get sv auth request).
Proof. unfold get. sim. Qed.
Lemma sim_resolve auth request :
  rel ApiError _ (resolve_op sv auth request) (resolve_op sv auth request).
Proof. unfold resolve_op. sim. Qed.
#[local] Hint Resolve sim_head sim_get sim_resolve : hsp_sim.

Lemma sim_authorize_filters auth t i filters :
  rel ApiError _ (authorize_filters sv auth t i filters)
    (authorize_filters sv auth t i filters).
Proof.
  revert i. induction filters as [|f filters IH]; intros i; cbn [authorize_filters]; sim; apply IH.
Qed.
#[local] Hint Resolve sim_authorize_filters : hsp_sim.
Lemma sim_subscribe_start auth request :
  rel ApiError _ (subscribe_start sv auth request) (subscribe_start sv auth request).
Proof. unfold subscribe_start, ensure_event_cursor_within_window. sim. Qed.
#[local] Hint Resolve sim_subscribe_start : hsp_sim.
Lemma sim_read_events t seq count room :
  rel ApiError _ (read_events sv t seq count room) (read_events sv t seq count room).
Proof.
  revert seq room. induction count as [|count IH]; intros seq room; cbn [read_events]; sim;
    try apply IH.
Qed.
#[local] Hint Resolve sim_read_events : hsp_sim.
Lemma sim_subscribe_poll auth request cursor :
  rel ApiError _ (subscribe_poll sv auth request cursor)
    (subscribe_poll sv auth request cursor).
Proof. unfold subscribe_poll, read_event_records_after. sim. Qed.
#[local] Hint Resolve sim_subscribe_poll : hsp_sim.

Lemma service_parametric auth c :
  rel ApiError _ (answer sv auth c) (answer sv auth c).
Proof. destruct c; cbn [answer]; unfold bind, unbind; sim. Qed.
End methods.
