(* ===== verification/DistRel.v ===== *)
(** * The distribution service is parametric in its store

    What [ServiceRel.v] does for [AlphaService], for [DistributionService]: [DistRel]
    adds to a relation the store calls the distribution service makes on its own
    kinds of records, and every method is related to itself ([dist_parametric]).  The
    kinds a relation lets the service write are a parameter, so that a relation may
    leave the object locks out; then it holds of every call but the two on locks. *)

From Stdlib Require Import ZArith Lia Ascii String Bool.
From stdpp Require Import base option list strings gmap numbers sorting.
From S2P Require Import Prelude RustStr Path Core Cbor CborFacts Auth Crypto Store ServiceState ServiceFacts Access Namespaces Objects Subscribe Service Chunker Distribution Buckets DistObjects Multipart DistFacts DistService ServiceRel.

(** ** Replies *)

Inductive DistReply :=
| ReplyDone
| ReplyBucket (record : BucketRecord)
| ReplyBuckets (buckets : list BucketSummary)
| ReplyBucketAcl (record : BucketAclRecord)
| ReplyObjectAcl (record : ObjectAclRecord)
| ReplyLifecycle (config : LifecycleConfig)
| ReplyLock (record : ObjectLockRecord)
| ReplyWebsite (config : WebsiteConfig)
| ReplyReplication (config : ReplicationConfig)
| ReplyReplicationStatus (status : ReplicationStatus)
| ReplyPutObject (response : PutObjectResponse)
| ReplyHeadObject (response : HeadObjectResponse)
| ReplyGetObject (response : GetObjectResponse)
| ReplyDeleteObject (response : DeleteObjectResponse)
| ReplyListObjects (response : ListObjectsResponse)
| ReplyCopyObject (response : CopyObjectResponse)
| ReplyCreateMultipart (response : CreateMultipartUploadResponse)
| ReplyUploadPart (response : UploadPartResponse).

Section replies.
Context `{DistDeps} {B : Backend} `{BackendListing B} (ds : DistributionService).

Definition dist_answer (auth : AuthContext) (c : DistCall) : ST (World B) ApiError DistReply :=
  match c with
  | CallCreateBucket t b => x ← create_bucket ds auth t b; mret (ReplyBucket x)
  | CallListBuckets t => x ← list_buckets ds auth t; mret (ReplyBuckets x)
  | CallHeadBucket t b => x ← head_bucket ds auth t b; mret (ReplyBucket x)
  | CallDeleteBucket t b => _ ← delete_bucket ds auth t b; mret ReplyDone
  | CallPutBucketAcl t b acl => x ← put_bucket_acl ds auth t b acl; mret (ReplyBucketAcl x)
  | CallGetBucketAcl t b => x ← get_bucket_acl ds auth t b; mret (ReplyBucketAcl x)
  | CallPutObjectAcl t b k acl => x ← put_object_acl ds auth t b k acl; mret (ReplyObjectAcl x)
  | CallGetObjectAcl t b k => x ← get_object_acl ds auth t b k; mret (ReplyObjectAcl x)
  | CallPutLifecycle config => x ← put_lifecycle_config ds auth config; mret (ReplyLifecycle x)
  | CallGetLifecycle t b => x ← get_lifecycle_config ds auth t b; mret (ReplyLifecycle x)
  | CallDeleteLifecycle t b => _ ← delete_lifecycle_config auth t b; mret ReplyDone
  | CallPutRetention t b k until mode =>
      x ← put_object_retention ds auth t b k until mode; mret (ReplyLock x)
  | CallPutLegalHold t b k hold => x ← put_object_legal_hold ds auth t b k hold; mret (ReplyLock x)
  | CallGetObjectLock t b k => x ← get_object_lock ds auth t b k; mret (ReplyLock x)
  | CallPutWebsite config => x ← put_website_config ds auth config; mret (ReplyWebsite x)
  | CallGetWebsite t b => x ← get_website_config ds auth t b; mret (ReplyWebsite x)
  | CallDeleteWebsite t b => _ ← delete_website_config auth t b; mret ReplyDone
  | CallPutReplication config => x ← put_replication_config ds auth config; mret (ReplyReplication x)
  | CallGetReplication t b => x ← get_replication_config ds auth t b; mret (ReplyReplication x)
  | CallGetReplicationStatus t b =>
      x ← get_replication_status ds auth t b; mret (ReplyReplicationStatus x)
  | CallDeleteReplication t b => _ ← delete_replication_config auth t b; mret ReplyDone
  | CallRunReplication t b => x ← run_replication_once ds auth t b; mret (ReplyReplicationStatus x)
  | CallPutObject request payload => x ← put_object ds auth request payload; mret (ReplyPutObject x)
  | CallHeadObject request => x ← head_object ds auth request; mret (ReplyHeadObject x)
  | CallGetObject request => x ← get_object ds auth request; mret (ReplyGetObject x)
  | CallDeleteObject request => x ← delete_object ds auth request; mret (ReplyDeleteObject x)
  | CallListObjects request => x ← list_objects ds auth request; mret (ReplyListObjects x)
  | CallCopyObject request => x ← copy_object ds auth request; mret (ReplyCopyObject x)
  | CallCreateMultipart request =>
      x ← create_multipart_upload ds auth request; mret (ReplyCreateMultipart x)
  | CallUploadPart request part => x ← upload_part ds auth request part; mret (ReplyUploadPart x)
  | CallCompleteMultipart request =>
      x ← complete_multipart_upload ds auth request; mret (ReplyPutObject x)
  | CallAbortMultipart request => _ ← abort_multipart_upload ds auth request; mret ReplyDone
  end.

(** A call leaves the world [run_dist_call] leaves. *)
Lemma dist_answer_run auth c w : (dist_answer auth c w).2 = (run_dist_call ds auth c w).2.
Proof.
  destruct c; cbn [dist_answer run_dist_call]; unfold ignore; rewrite !ST_bind_run;
    match goal with |- context [match ?m w with _ => _ end] => destruct (m w) as [[] ?] end; done.
Qed.
End replies.

(** ** Relations *)

(** The kinds of records the distribution service writes, apart from object locks,
    and those it deletes. *)
Definition dist_written_kinds : list string :=
  List.filter (λ k, negb (String.eqb k OBJECT_LOCK_STORE)) dist_store_kinds.
Definition dist_deleted_kinds : list string :=
  [BUCKET_REGISTRY_STORE; DISTRIBUTION_METADATA_STORE; MULTIPART_SESSIONS_STORE;
   MULTIPART_PARTS_STORE; LIFECYCLE_STORE; WEBSITE_STORE; REPLICATION_STORE].

Class DistRel `{DD : DistDeps} (B1 B2 : Backend) `{L1 : BackendListing B1} `{L2 : BackendListing B2}
  (wkinds : list string) (rel : ∀ E A : Type, ST (World B1) E A → ST (World B2) E A → Prop) := {
  dr_service :: ServiceRel B1 B2 rel;
  rel_dist_read : ∀ t k key, one_of dist_store_kinds k = true →
    rel ApiError _ (on_store (b_read B1 (dist_store_key t k key)))
      (on_store (b_read B2 (dist_store_key t k key)));
  rel_dist_write : ∀ t k key b, one_of wkinds k = true →
    rel ApiError _ (on_store (b_write B1 (dist_store_key t k key) b))
      (on_store (b_write B2 (dist_store_key t k key) b));
  rel_dist_delete : ∀ t k key, one_of dist_deleted_kinds k = true →
    rel ApiError _ (on_store (b_delete B1 (dist_store_key t k key)))
      (on_store (b_delete B2 (dist_store_key t k key)));
  rel_list_values : ∀ prefix,
    rel ApiError _ (on_store (b_list_values (B := B1) prefix)) (on_store (b_list_values (B := B2) prefix));
}.

Lemma one_of_sub kinds kinds' k :
  forallb (one_of kinds') kinds = true → one_of kinds k = true → one_of kinds' k = true.
Proof.
  intros Hall (k'&Hin&->%String.eqb_eq)%existsb_exists. rewrite forallb_forall in Hall. by apply Hall.
Qed.

Section methods.
Context `{DD : DistDeps} {B1 B2 : Backend} `{L1 : BackendListing B1} `{L2 : BackendListing B2}.
Context {wkinds : list string} {rel : ∀ E A : Type, ST (World B1) E A → ST (World B2) E A → Prop}.
Context `{DR : !DistRel B1 B2 wkinds rel} (ds : DistributionService).
Context (Hwritten : forallb (one_of wkinds) dist_written_kinds = true).

#[local] Hint Extern 1 (rel _ _ _ _) => first
  [ apply sim_ret | apply sim_throw | apply sim_lift | apply sim_draws | apply sim_now
  | apply sim_put_init | apply sim_put_chunk | apply sim_put_commit | apply sim_get
  | apply sim_resolve | apply sim_list | apply sim_bind_internal | apply sim_unbind_internal
  | apply rel_list_values ] : hsp_sim.
#[local] Hint Extern 1 (one_of wkinds _ = true) =>
  apply (one_of_sub _ _ _ Hwritten); reflexivity : hsp_sim.

(** *** The encrypted store *)

Lemma sim_map_error {E F A} (f : E → F) (m1 : ST (World B1) E A) m2 :
  rel E A m1 m2 → rel F A (map_error f m1) (map_error f m2).
Proof. intros Hm. unfold map_error. apply rel_bind; [by apply rel_attempt|sim]. Qed.
Lemma sim_dist_write_bytes t k key b :
  one_of wkinds k = true →
  rel ApiError _ (dist_write_encrypted_bytes ds t k key b) (dist_write_encrypted_bytes ds t k key b).
Proof.
  intros Hk. unfold dist_write_encrypted_bytes, dist_write_envelope, dist_encrypt.
  apply rel_bind; [apply sim_map_error; sim|]. sim. by apply rel_dist_write.
Qed.
#[local] Hint Resolve sim_dist_write_bytes : hsp_sim.
Lemma sim_dist_write_json {T} `{Json T} t k key (v : T) :
  one_of wkinds k = true →
  rel ApiError _ (dist_write_encrypted_json ds t k key v) (dist_write_encrypted_json ds t k key v).
Proof. intros Hk. unfold dist_write_encrypted_json. sim. Qed.
Lemma sim_dist_read_bytes t k key :
  one_of dist_store_kinds k = true →
  rel ApiError _ (dist_read_encrypted_bytes ds t k key) (dist_read_encrypted_bytes ds t k key).
Proof. intros Hk. unfold dist_read_encrypted_bytes. apply rel_bind; [by apply rel_dist_read|sim]. Qed.
#[local] Hint Resolve sim_dist_write_json sim_dist_read_bytes : hsp_sim.
Lemma sim_dist_read_json {T} `{Json T} t k key :
  one_of dist_store_kinds k = true →
  rel ApiError _ (dist_read_encrypted_json (T := T) ds t k key) (dist_read_encrypted_json ds t k key).
Proof. intros Hk. unfold dist_read_encrypted_json. sim. Qed.
Lemma sim_list_json {T} `{Json T} t k :
  rel ApiError _ (list_encrypted_json (T := T) ds t k) (list_encrypted_json ds t k).
Proof. unfold list_encrypted_json. sim. Qed.
Lemma sim_dist_delete t k key :
  one_of dist_deleted_kinds k = true →
  rel ApiError _ (dist_delete_store_key t k key) (dist_delete_store_key t k key).
Proof. intros Hk. by apply rel_dist_delete. Qed.
#[local] Hint Resolve sim_dist_read_json sim_list_json sim_dist_delete : hsp_sim.
Lemma sim_require_bucket t b : rel ApiError _ (require_bucket ds t b) (require_bucket ds t b).
Proof. unfold require_bucket, bucket_record. sim. Qed.
Lemma sim_read_scope auth t b k :
  rel ApiError _ (ensure_bucket_read_scope_for ds auth t b k) (ensure_bucket_read_scope_for ds auth t b k).
Proof. unfold ensure_bucket_read_scope_for. sim. Qed.
#[local] Hint Resolve sim_require_bucket sim_read_scope : hsp_sim.
Lemma sim_unlocked t b k d auth :
  rel ApiError _ (ensure_object_mutation_unlocked ds t b k d auth)
    (ensure_object_mutation_unlocked ds t b k d auth).
Proof. unfold ensure_object_mutation_unlocked. sim. Qed.
Lemma sim_resolve_key auth t ns p :
  rel ApiError _ (resolve_key ds auth t ns p) (resolve_key ds auth t ns p).
Proof. unfold resolve_key. sim. Qed.
Lemma sim_manifest_only auth t sel :
  rel ApiError _ (get_manifest_only ds auth t sel) (get_manifest_only ds auth t sel).
Proof. unfold get_manifest_only. sim. Qed.
#[local] Hint Resolve sim_unlocked sim_resolve_key sim_manifest_only : hsp_sim.
Lemma sim_existing auth t ns p :
  rel ApiError _ (existing_binding ds auth t ns p) (existing_binding ds auth t ns p).
Proof. unfold existing_binding. sim. Qed.
#[local] Hint Resolve sim_existing : hsp_sim.
#[local] Hint Extern 2 (rel _ _ (map_error _ _) _) => apply sim_map_error : hsp_sim.

(** *** Buckets *)

Lemma sim_head_bucket auth t b : rel ApiError _ (head_bucket ds auth t b) (head_bucket ds auth t b).
Proof. unfold head_bucket, bucket_record. sim. Qed.
#[local] Hint Resolve sim_head_bucket : hsp_sim.
Lemma sim_get_replication auth t b :
  rel ApiError _ (get_replication_config ds auth t b) (get_replication_config ds auth t b).
Proof. unfold get_replication_config. sim. Qed.
#[local] Hint Resolve sim_get_replication : hsp_sim.
Lemma sim_retention_allowed current until mode auth :
  rel ApiError _ (ensure_retention_update_allowed current until mode auth)
    (ensure_retention_update_allowed current until mode auth).
Proof. unfold ensure_retention_update_allowed. sim. Qed.
#[local] Hint Resolve sim_retention_allowed : hsp_sim.

(** *** Objects *)

Lemma sim_prepare request payload :
  rel ApiError _ (prepare_payload ds request payload) (prepare_payload ds request payload).
Proof. unfold prepare_payload, encrypt_trusted_edge. sim. Qed.
Lemma sim_manifest input :
  rel ApiError _ (build_manifest_from_chunk_refs input) (build_manifest_from_chunk_refs input).
Proof. unfold build_manifest_from_chunk_refs. sim. Qed.
Lemma sim_put_chunks auth t session chunks :
  rel ApiError _ (put_chunks ds auth t session chunks) (put_chunks ds auth t session chunks).
Proof. induction chunks as [|chunk chunks IH]; cbn [put_chunks]; sim; apply IH. Qed.
#[local] Hint Resolve sim_prepare sim_manifest sim_put_chunks : hsp_sim.
Lemma sim_put_object auth request payload :
  rel ApiError _ (put_object ds auth request payload) (put_object ds auth request payload).
Proof. unfold put_object, build_manifest. sim. Qed.
Lemma sim_head_object auth request :
  rel ApiError _ (head_object ds auth request) (head_object ds auth request).
Proof. unfold head_object. sim. Qed.
#[local] Hint Resolve sim_put_object sim_head_object : hsp_sim.
Lemma sim_get_object auth request :
  rel ApiError _ (get_object ds auth request) (get_object ds auth request).
Proof. unfold get_object, get_object_by_cid, get_object_by_key. sim. Qed.
Lemma sim_delete_object auth request :
  rel ApiError _ (delete_object ds auth request) (delete_object ds auth request).
Proof. unfold delete_object, unbind. sim. Qed.
Lemma sim_list_heads auth t b items :
  rel ApiError _ (list_heads ds auth t b items) (list_heads ds auth t b items).
Proof. induction items as [|item items IH]; cbn [list_heads]; sim; apply IH. Qed.
#[local] Hint Resolve sim_get_object sim_delete_object sim_list_heads : hsp_sim.
Lemma sim_list_objects auth request :
  rel ApiError _ (list_objects ds auth request) (list_objects ds auth request).
Proof. unfold list_objects. sim. Qed.
Lemma sim_copy_object auth request :
  rel ApiError _ (copy_object ds auth request) (copy_object ds auth request).
Proof. unfold copy_object, bind. sim. Qed.
#[local] Hint Resolve sim_list_objects sim_copy_object : hsp_sim.
Lemma sim_replicate auth t config items acc :
  rel ApiError _ (replicate_items ds auth t config items acc) (replicate_items ds auth t config items acc).
Proof.
  revert acc. induction items as [|item items IH]; intros [[c f] e]; cbn [replicate_items]; sim; apply IH.
Qed.
#[local] Hint Resolve sim_replicate : hsp_sim.

(** *** Multipart uploads *)

Lemma sim_session t u : rel ApiError _ (multipart_session ds t u) (multipart_session ds t u).
Proof. unfold multipart_session. sim. Qed.
Lemma sim_part t u p :
  rel ApiError _ (multipart_part_ciphertext ds t u p) (multipart_part_ciphertext ds t u p).
Proof. unfold multipart_part_ciphertext. sim. Qed.
#[local] Hint Resolve sim_session sim_part : hsp_sim.
Lemma sim_fill {C} (emit1 : bytes → C → ST (World B1) ApiError C) emit2 fuel rem pending c :
  (∀ b c, rel ApiError _ (emit1 b c) (emit2 b c)) →
  rel ApiError _ (run_loop (fill_loop FIXED_CHUNK_SIZE emit1 fuel rem pending c))
    (run_loop (fill_loop FIXED_CHUNK_SIZE emit2 fuel rem pending c)).
Proof.
  intros He. unfold run_loop. apply rel_bind; [|sim]. revert rem pending c.
  induction fuel as [|fuel IH]; intros [|x rem] pending c; cbn [fill_loop]; sim; auto.
Qed.
Lemma sim_flush {C} (emit1 : bytes → C → ST (World B1) ApiError C) emit2 pending c :
  (∀ b c, rel ApiError _ (emit1 b c) (emit2 b c)) →
  rel ApiError _ (flush_pending emit1 pending c) (flush_pending emit2 pending c).
Proof. intros He. unfold flush_pending. destruct pending; [sim|apply He]. Qed.
Lemma sim_append_ref b c : rel ApiError _ (append_fixed_chunk_ref b c) (append_fixed_chunk_ref b c).
Proof. unfold append_fixed_chunk_ref. sim. Qed.
Lemma sim_put_fixed auth t s b c :
  rel ApiError _ (put_fixed_chunk ds auth t s b c) (put_fixed_chunk ds auth t s b c).
Proof. unfold put_fixed_chunk. sim. Qed.
Lemma sim_collect t u parts prev pending c :
  rel ApiError _ (collect_listed_parts ds t u parts prev pending c)
    (collect_listed_parts ds t u parts prev pending c).
Proof.
  revert prev pending c. induction parts as [|p parts IH]; intros prev pending c; cbn [collect_listed_parts].
  - apply sim_flush, sim_append_ref.
  - destruct (from_option _ _ _); [sim|]. apply rel_bind; [sim|]. intros b.
    apply rel_bind; [apply sim_fill, sim_append_ref|]. intros []. apply IH.
Qed.
Lemma sim_upload auth t u s parts pending c :
  rel ApiError _ (upload_listed_parts ds auth t u s parts pending c)
    (upload_listed_parts ds auth t u s parts pending c).
Proof.
  revert pending c. induction parts as [|p parts IH]; intros pending c; cbn [upload_listed_parts].
  - apply sim_flush, sim_put_fixed.
  - apply rel_bind; [sim|]. intros b. apply rel_bind; [apply sim_fill, sim_put_fixed|]. intros []. apply IH.
Qed.
Lemma sim_cleanup t u numbers :
  rel ApiError _ (cleanup_parts t u numbers) (cleanup_parts t u numbers).
Proof. induction numbers as [|n numbers IH]; cbn [cleanup_parts]; sim; apply IH. Qed.
#[local] Hint Resolve sim_collect sim_upload sim_cleanup : hsp_sim.

(** *** Whole calls *)

Lemma dist_parametric auth c :
  (is_lock_call c = true → one_of wkinds OBJECT_LOCK_STORE = true) →
  rel ApiError _ (dist_answer ds auth c) (dist_answer ds auth c).
Proof.
  intros Hlock. destruct c; cbn [dist_answer];
    unfold create_bucket, list_buckets, delete_bucket, has_multipart_sessions, put_bucket_acl,
      get_bucket_acl, put_object_acl, get_object_acl, put_lifecycle_config, get_lifecycle_config,
      delete_lifecycle_config, put_object_retention, put_object_legal_hold, get_object_lock,
      put_website_config, get_website_config, delete_website_config, put_replication_config,
      get_replication_status, delete_replication_config, run_replication_once,
      create_multipart_upload, upload_part, complete_multipart_upload, multipart_manifest,
      abort_multipart_upload, cleanup_multipart, multipart_parts, bucket_record; sim;
    apply sim_dist_write_json, Hlock; reflexivity.
Qed.
End methods.
