(* ===== verification/BackendSim.v ===== *)
(** * The service over different backends

    [BackendSim] relates two backends that answer alike on the keys of the service;
    [sims] is the relation it induces on methods of the service: equal results from
    related worlds, and related worlds after.  The service preserves it, so it gives
    the same answers over both backends ([service_sim]). *)

From Stdlib Require Import ZArith Lia Ascii String Bool.
From stdpp Require Import base option list strings gmap numbers sorting.
From S2P Require Import Prelude RustStr Path Core Cbor CborFacts Auth Crypto Store ServiceState ServiceFacts Access Namespaces Objects Subscribe Service ServiceRel UrlStr S3Client S3Remote.

(** ** Keys *)

Definition kind_ok (k : string) : bool := slash_free k && negb (str_is_empty k).

Lemma store_file_no_slash `{DepsLaws} key : str_contains_char slash (store_file_name key) = false.
Proof. unfold store_file_name. rewrite str_contains_char_app, orb_false_r. apply cid_no_slash. Qed.
Lemma service_key_is_store_key `{DepsLaws} t k key :
  kind_ok k = true → is_store_key (store_key t k key) = true.
Proof.
  intros [Hk Hne]%andb_true_iff. apply store_key_shape.
  exists k, (tenant_store_dir t), (store_file_name key).
  by split_and!; [|apply negb_true_iff in Hk|apply tenant_store_dir_no_slash|apply store_file_no_slash
    |intros ->|].
Qed.

(** ** Simulation *)

(** Two backends that answer alike on the keys of the service. *)
Class BackendSim (B1 B2 : Backend) := {
  state_rel : bstate B1 → bstate B2 → Prop;
  sim_exists : ∀ key s1 s2, is_store_key key = true → state_rel s1 s2 →
    (b_exists B1 key s1).1 = (b_exists B2 key s2).1 ∧
    state_rel (b_exists B1 key s1).2 (b_exists B2 key s2).2;
  sim_read : ∀ key s1 s2, is_store_key key = true → state_rel s1 s2 →
    (b_read B1 key s1).1 = (b_read B2 key s2).1 ∧
    state_rel (b_read B1 key s1).2 (b_read B2 key s2).2;
  sim_write : ∀ key b s1 s2, is_store_key key = true → state_rel s1 s2 →
    (b_write B1 key b s1).1 = (b_write B2 key b s2).1 ∧
    state_rel (b_write B1 key b s1).2 (b_write B2 key b s2).2;
  sim_create : ∀ key b s1 s2, is_store_key key = true → state_rel s1 s2 →
    (b_create B1 key b s1).1 = (b_create B2 key b s2).1 ∧
    state_rel (b_create B1 key b s1).2 (b_create B2 key b s2).2;
  sim_delete : ∀ key s1 s2, is_store_key key = true → state_rel s1 s2 →
    (b_delete B1 key s1).1 = (b_delete B2 key s2).1 ∧
    state_rel (b_delete B1 key s1).2 (b_delete B2 key s2).2;
}.

Section worlds.
Context {B1 B2 : Backend} `{!BackendSim B1 B2}.

(** Worlds that differ in their stores only. *)
Record world_rel (w1 : World B1) (w2 : World B2) : Prop := {
  wr_store : state_rel (w_store w1) (w_store w2);
  wr_draws : w_draws w1 = w_draws w2;
  wr_ticks : w_ticks w1 = w_ticks w2;
  wr_replay : w_replay w1 = w_replay w2;
  wr_metrics : w_metrics w1 = w_metrics w2;
  wr_logs : w_logs w1 = w_logs w2;
}.
Definition sims {E A} (m1 : ST (World B1) E A) (m2 : ST (World B2) E A) : Prop :=
  ∀ w1 w2, world_rel w1 w2 → (m1 w1).1 = (m2 w2).1 ∧ world_rel (m1 w1).2 (m2 w2).2.

Lemma sims_ret {E A} (a : A) : sims (E:=E) (mret a) (mret a).
Proof. by intros w1 w2. Qed.
Lemma sims_throw {E A} (e : E) : sims (A:=A) (throw e) (throw e).
Proof. by intros w1 w2. Qed.
Lemma sims_lift {E A} (r : result E A) : sims (lift_result r) (lift_result r).
Proof. by intros w1 w2. Qed.
Lemma sims_bind {E A A'} (m1 : ST (World B1) E A) m2 (f1 : A → ST (World B1) E A') f2 :
  sims m1 m2 → (∀ a, sims (f1 a) (f2 a)) → sims (m1 ≫= f1) (m2 ≫= f2).
Proof.
  intros Hm Hf w1 w2 Hw. rewrite !ST_bind_run. destruct (Hm w1 w2 Hw) as [Hr Hw'].
  destruct (m1 w1) as [r1 w1'], (m2 w2) as [r2 w2']. cbn in *. subst r2.
  destruct r1 as [a|e]; [by apply Hf|done].
Qed.
Lemma sims_attempt {E F A} (m1 : ST (World B1) E A) m2 :
  sims m1 m2 → sims (E:=F) (attempt m1) (attempt m2).
Proof.
  intros Hm w1 w2 Hw. destruct (Hm w1 w2 Hw) as [Hr Hw']. unfold attempt.
  destruct (m1 w1), (m2 w2). cbn in *. by subst.
Qed.

(** Components other than the store are equal. *)
Lemma sims_draws {E A} (m : ST nat E A) : sims (zoom w_draws set_draws m) (zoom w_draws set_draws m).
Proof.
  intros w1 w2 []. unfold zoom. rewrite wr_draws0. destruct (m (w_draws w2)). cbn.
  split; [done|]. by split.
Qed.
Lemma sims_replay {E A} (m : ST (gmap string string) E A) :
  sims (zoom w_replay set_replay m) (zoom w_replay set_replay m).
Proof.
  intros w1 w2 []. unfold zoom. rewrite wr_replay0. destruct (m (w_replay w2)). cbn.
  split; [done|]. by split.
Qed.
Lemma sims_on_store {A} (m1 : ST (bstate B1) ApiError A) (m2 : ST (bstate B2) ApiError A) :
  (∀ s1 s2, state_rel s1 s2 → (m1 s1).1 = (m2 s2).1 ∧ state_rel (m1 s1).2 (m2 s2).2) →
  sims (on_store m1) (on_store m2).
Proof.
  intros Hm w1 w2 []. destruct (Hm _ _ wr_store0) as [Hr Hs]. unfold on_store, zoom.
  destruct (m1 (w_store w1)), (m2 (w_store w2)). cbn in *. split; [done|]. by split.
Qed.

Lemma sims_now `{Deps} {E} : sims (E:=E) now_ms now_ms.
Proof. intros w1 w2 []. unfold now_ms. cbn. rewrite wr_ticks0. split; [done|]. by split. Qed.
Lemma sims_observation `{Deps} {E} o : sims (E:=E) (record_observation o) (record_observation o).
Proof.
  intros w1 w2 []. unfold record_observation. rewrite !ST_bind_run. cbn.
  rewrite wr_ticks0, wr_metrics0, wr_logs0. split; [done|]. by split.
Qed.
End worlds.

(** ** The service *)

Section methods.
Context `{DL : DepsLaws} {B1 B2 : Backend} `{!BackendSim B1 B2} (sv : AlphaService).

Lemma one_of_kind_ok kinds k : forallb kind_ok kinds = true → one_of kinds k = true → kind_ok k = true.
Proof.
  intros Hall (k'&Hin&->%String.eqb_eq)%existsb_exists. rewrite forallb_forall in Hall. by apply Hall.
Qed.
Lemma kind_key kinds t k key :
  forallb kind_ok kinds = true → one_of kinds k = true → is_store_key (store_key t k key) = true.
Proof. intros Hall Hk. by apply service_key_is_store_key, (one_of_kind_ok kinds). Qed.

#[export] Instance sims_service : ServiceRel B1 B2 (λ E A, sims).
Proof.
  split; intros.
  - apply sims_ret.
  - apply sims_throw.
  - apply sims_lift.
  - by apply sims_bind.
  - by apply sims_attempt.
  - apply sims_draws.
  - apply sims_replay.
  - apply sims_now.
  - apply sims_observation.
  - apply sims_on_store. intros s1 s2. by apply sim_read, (kind_key read_kinds).
  - apply sims_on_store. intros s1 s2. by apply sim_write, (kind_key written_kinds).
  - apply sims_on_store. intros s1 s2. by apply sim_create, (kind_key created_kinds).
  - apply sims_on_store. intros s1 s2. by apply sim_delete, (kind_key deleted_kinds).
  - intros w1 w2 []. unfold chunk_exists.
    destruct (sim_exists (store_key t "chunks" cid) _ _
      (service_key_is_store_key t "chunks" cid eq_refl) wr_store0) as [Hr Hs].
    destruct (b_exists B1 _ _), (b_exists B2 _ _). cbn in *. subst. split; [done|]. by split.
Qed.

Lemma service_sim auth c :
  sims (B1:=B1) (B2:=B2) (answer sv auth c) (answer sv auth c).
Proof. apply (service_parametric (rel := λ E A, sims)). Qed.

(** Any sequence of calls gets the same replies over related backends. *)
Lemma answers_sim calls w1 w2 :
  world_rel (B1:=B1) (B2:=B2) w1 w2 →
  (answers sv calls w1).1 = (answers sv calls w2).1 ∧
  world_rel (answers sv calls w1).2 (answers sv calls w2).2.
Proof.
  revert w1 w2. induction calls as [|[auth c] calls IH]; intros w1 w2 Hw; [done|].
  cbn [answers]. destruct (service_sim auth c w1 w2 Hw) as [Hr Hw'].
  destruct (answer sv auth c w1) as [r1 w1'], (answer sv auth c w2) as [r2 w2']. cbn in *. subst.
  destruct (IH w1' w2' Hw') as [Hrs Hw''].
  destruct (answers sv calls w1'), (answers sv calls w2'). cbn in *. by subst.
Qed.
End methods.
