(* ===== verification/ConcreteS3.v ===== *)
(** * A small S3 service

    An agent with a bucket in memory that satisfies [S3Service]: it reads the target
    of a request from its URL, answers [HEAD], [GET], [PUT] and [DELETE], and lists
    two keys per page.  The witnesses run the store on it. *)

From Stdlib Require Import ZArith Lia Ascii String Bool.
From stdpp Require Import base option list strings gmap numbers sorting.
From S2P Require Import Prelude RustStr Path Core Cbor Concrete Store AmzDate Distribution SigV4 UrlStr S3Client S3Remote.

Definition toy_endpoint : string := "https://s3.local".
Definition toy_bucket : string := "hsp".
Definition page_size : nat := 2.

Definition wire_query_value (name : string) (query : list (string * string)) : option string :=
  snd <$> find (λ p, String.eqb p.1 name) query.
Definition body_of (b : bytes) : BodyReader := mkBodyReader b None.

(** A token is the position it stands for. *)
Definition toy_position (token : option string) : nat :=
  match token with Some t => Z.to_nat (default 0 (parse_u64 t)) | None => 0 end.
Definition key_tokens (key : string) : list XmlToken :=
  [XTag "Contents"; XTag "Key"; XText key; XTag "/Key"; XTag "/Contents"].
Definition page_tokens (keys : list string) (next : option string) : list XmlToken :=
  [XTag "ListBucketResult"] ++ List.concat (key_tokens <$> keys) ++
  [XTag "IsTruncated"; XText (match next with Some _ => "true" | None => "false" end); XTag "/IsTruncated"] ++
  match next with
  | Some t => [XTag "NextContinuationToken"; XText t; XTag "/NextContinuationToken"]
  | None => []
  end ++ [XTag "/ListBucketResult"].
Definition toy_next (all : list string) (position : nat) : option string :=
  let next := (position + length (take page_size (drop position all)))%nat in
  if bool_decide (next < length all)%nat then Some (dec (Z.of_nat next)) else None.
Definition toy_page (all : list string) (position : nat) : list XmlToken :=
  page_tokens (take page_size (drop position all)) (toy_next all position).
Definition toy_list (m : gmap string bytes) (query : list (string * string)) : AgentResult :=
  let prefix := match wire_query_value "prefix" query with Some p => p | None => "" end in
  let all := keys_with prefix m in
  let body := as_bytes (render_xml
                (toy_page all (toy_position (wire_query_value "continuation-token" query)))) in
  if utf8_valid body && bool_decide (Z.of_nat (length all) < 2 ^ 64)
  then AgentResponse (body_of body) else AgentTransport "listing failed".

Definition toy_send (ex : HttpExchange) (m : gmap string bytes) : AgentResult * gmap string bytes :=
  match s3_target toy_endpoint (hx_url ex) with
  | Some (mkS3Target bucket key query) =>
      if negb (String.eqb bucket toy_bucket) then (AgentStatus 404 (body_of []), m)
      else if String.eqb (hx_method ex) "HEAD" then
        (if str_is_empty key || bool_decide (is_Some (m !! key)) then AgentResponse (body_of [])
         else AgentStatus 404 (body_of []), m)
      else if String.eqb (hx_method ex) "GET" then
        (if str_is_empty key then toy_list m query
         else match m !! key with
              | Some b => AgentResponse (body_of b)
              | None => AgentStatus 404 (body_of [])
              end, m)
      else if String.eqb (hx_method ex) "PUT" then
        match hx_body ex with
        | Some b =>
            if bool_decide (("if-none-match", "*") ∈ hx_headers ex) && bool_decide (is_Some (m !! key))
            then (AgentStatus 412 (body_of []), m)
            else (AgentResponse (body_of []), <[key := b]> m)
        | None => (AgentStatus 400 (body_of []), m)
        end
      else if String.eqb (hx_method ex) "DELETE" then (AgentResponse (body_of []), delete key m)
      else (AgentStatus 405 (body_of []), m)
  | None => (AgentStatus 400 (body_of []), m)
  end.

Definition toy_utc (ms : Z) : Z * Z * Z * (Z * Z * Z) :=
  let seconds := ms / 1000 in
  (civil_from_days (seconds / 86400), (seconds mod 86400 / 3600, seconds mod 3600 / 60, seconds mod 60)).

#[local] Instance toy_s3 : S3ClientDeps := {|
  s3_hmac_sha256 := λ key data, fnv1a (key ++ data);
  read_file := λ path, if String.eqb path "/ca.pem" then
      Ok (as_bytes (pem_begin +:+ newline +:+ "AAAA" +:+ newline +:+ pem_end)) else Err "no such file";
  base64_standard_decode := λ b, Ok b;
  agent := unit;
  default_agent := tt;
  usable_certificates := length;
  agent_with_roots := λ _, tt;
  utc_fields := toy_utc;
  remote := gmap string bytes;
  agent_send := λ _, toy_send;
|}.

(** ** The service satisfies its interface *)

Lemma query_value_elem name value query :
  NoDup query.*1 → (name, value) ∈ query → wire_query_value name query = Some value.
Proof.
  unfold wire_query_value. induction query as [|[n v] query IH]; [by intros _ ?%not_elem_of_nil|].
  cbn [fmap list_fmap fst]. intros [Hn Hnd]%NoDup_cons [[= -> ->]|Hin]%elem_of_cons; cbn.
  - by rewrite String.eqb_refl.
  - destruct (String.eqb_spec n name) as [->|]; [|by apply IH].
    exfalso. apply Hn. apply list_elem_of_fmap. by exists (name, value).
Qed.
Lemma query_value_absent name query : name ∉ query.*1 → wire_query_value name query = None.
Proof.
  unfold wire_query_value. induction query as [|[n v] query IH]; [done|].
  cbn. intros [Hne Hn]%not_elem_of_cons. destruct (String.eqb_spec n name); [done|]. by apply IH.
Qed.
Lemma list_query_values prefix token query :
  query ≡ₚ list_query prefix token →
  wire_query_value "prefix" query = Some prefix ∧ wire_query_value "continuation-token" query = token.
Proof.
  intros Hq. assert (Hnd : NoDup query.*1).
  { rewrite Hq. destruct token; apply (bool_decide_eq_true_1 (NoDup _)); by vm_compute. }
  split; [apply query_value_elem; [done|]; rewrite Hq; cbn; set_solver|].
  destruct token as [t|].
  - apply query_value_elem; [done|]. rewrite Hq. cbn. set_solver.
  - apply query_value_absent. rewrite Hq. by apply (bool_decide_eq_true_1 (_ ∉ _)); vm_compute.
Qed.

Lemma leaf_app tag a b va vb :
  leaf_values tag a va → leaf_values tag b vb → leaf_values tag (a ++ b) (va ++ vb).
Proof. induction 1; cbn; eauto using leaf_values. Qed.
Lemma leaf_keys keys : leaf_values "Key" (List.concat (key_tokens <$> keys)) keys.
Proof.
  induction keys as [|key keys IH]; [constructor|]. cbn.
  apply leaf_markup; [done..|]. apply leaf_value. by apply leaf_markup.
Qed.
Lemma leaf_keys_other tag keys :
  tag ∈ ["IsTruncated"; "NextContinuationToken"] →
  leaf_values tag (List.concat (key_tokens <$> keys)) [].
Proof.
  intros Htag. induction keys as [|key keys IH]; [constructor|]. cbn.
  assert (Hne : tag ∉ ["Contents"; "Key"; "/Key"; "/Contents"]) by set_solver.
  repeat first [apply leaf_markup; [set_solver|done|done|] | apply leaf_text | done].
Qed.
Ltac leaves := repeat first [apply leaf_value | apply leaf_markup; [done..|] | apply leaf_text | apply leaf_nil].

Lemma page_keys keys next : leaf_values "Key" (page_tokens keys next) keys.
Proof.
  rewrite <-(app_nil_r keys) at 2. rewrite <-(app_nil_l (keys ++ [])).
  apply leaf_app; [leaves|]. apply leaf_app; [apply leaf_keys|]. destruct next; leaves.
Qed.
Lemma page_truncated keys next :
  leaf_values "IsTruncated" (page_tokens keys next) [match next with Some _ => "true" | None => "false" end].
Proof.
  apply (leaf_app _ _ _ []); [leaves|]. apply (leaf_app _ _ _ []); [apply leaf_keys_other; set_solver|].
  destruct next; leaves.
Qed.
Lemma page_next keys next :
  leaf_values "NextContinuationToken" (page_tokens keys next)
    (match next with Some t => [t] | None => [] end).
Proof.
  apply (leaf_app _ _ _ []); [leaves|]. apply (leaf_app _ _ _ []); [apply leaf_keys_other; set_solver|].
  destruct next; leaves.
Qed.

Ltac toy_target Hsend Ha :=
  unfold addressed in Ha; cbn in Hsend; unfold toy_send in Hsend; rewrite Ha in Hsend;
  cbn [negb String.eqb] in Hsend; rewrite ?String.eqb_refl in Hsend; cbn [negb] in Hsend.
Lemma key_not_empty key : key ≠ "" → str_is_empty key = false.
Proof. by destruct key. Qed.

Lemma toy_list_page m prefix token query rd :
  query ≡ₚ list_query prefix token → toy_list m query = AgentResponse rd →
  ∃ tokens keys truncated next,
    rd_bytes rd = as_bytes (render_xml tokens) ∧ utf8_valid (rd_bytes rd) = true ∧
    leaf_values "Key" tokens keys ∧
    leaf_values "IsTruncated" tokens [if truncated : bool then "true" else "false"] ∧
    leaf_values "NextContinuationToken" tokens (if truncated then [next] else []) ∧
    keys = take (length keys) (drop (toy_position token) (keys_with prefix m)) ∧
    if truncated then keys ≠ [] ∧ toy_position (Some next) = (toy_position token + length keys)%nat
    else (length (keys_with prefix m) <= toy_position token + length keys)%nat.
Proof.
  intros Hq. destruct (list_query_values prefix token query Hq) as [Hp Ht].
  unfold toy_list. rewrite Hp, Ht. generalize (keys_with prefix m) as all. intros all.
  destruct (utf8_valid _ && _) eqn:Hu; [|done]. intros Hrd.
  apply (f_equal (λ r, match r with AgentResponse rd => rd_bytes rd | _ => [] end)) in Hrd.
  change (rd_bytes (body_of ?b)) with b in Hrd. cbv beta iota in Hrd. rewrite <-Hrd.
  apply andb_true_iff in Hu as [Hu Hlen%bool_decide_eq_true].
  clear Hrd Hp Ht Hq. unfold toy_page, toy_next in *.
  set (keys := take page_size (drop (toy_position token) all)) in *.
  assert (Hkeys : keys = take (length keys) (drop (toy_position token) all)).
  { subst keys. generalize (drop (toy_position token) all) as l. intros l. rewrite length_take.
    destruct (Nat.min_spec page_size (length l)) as [[_ ->]|[Hle ->]]; [done|].
    by rewrite !take_ge. }
  set (next := (toy_position token + length keys)%nat) in *.
  set (token' := if bool_decide (next < length all)%nat then Some (dec (Z.of_nat next)) else None) in *.
  pose proof (page_truncated keys token') as Htr. pose proof (page_next keys token') as Hn.
  exists (page_tokens keys token'), keys, (bool_decide (next < length all)%nat), (dec (Z.of_nat next)).
  split; [done|]. split; [done|]. split; [apply page_keys|].
  subst token'. case_bool_decide as Hnext; (split; [done|]; split; [done|]; split; [done|]); [|subst next; lia].
  split.
  - intros Hnil. assert (Hd : length (drop (toy_position token) all) = 0%nat).
    { apply (f_equal length) in Hnil. subst keys. rewrite length_take in Hnil.
      unfold page_size in Hnil. cbn [length] in Hnil. lia. }
    subst next. rewrite Hnil in Hnext. rewrite length_drop in Hd. cbn in Hnext. lia.
  - unfold toy_position at 1. rewrite parse_u64_dec by (unfold u64_range; lia).
    cbn [default]. unfold id. subst next. lia.
Qed.

#[local] Instance toy_service : S3Service tt toy_endpoint toy_bucket.
Proof.
  refine {| objects := (λ m, m : gmap string bytes) : remote → _;
            list_position := λ m prefix token, toy_position token |}.
  - intros ex r status rd r' Hsend. cbn in Hsend. unfold toy_send in Hsend.
    repeat case_match; simplify_eq; try lia.
    unfold toy_list in *. by case_match.
  - intros ex key r outcome r' Hsend Hm Ha. toy_target Hsend Ha. rewrite Hm in Hsend. cbn in Hsend.
    injection Hsend as <- <-. split; [done|].
    match goal with |- context [if ?b then _ else _] => destruct b eqn:Hk end; [|done].
    intros Hne. rewrite (key_not_empty key Hne) in Hk. by apply bool_decide_eq_true in Hk.
  - intros ex key r outcome r' Hsend Hm Ha Hne. toy_target Hsend Ha. rewrite Hm in Hsend. cbn in Hsend.
    rewrite (key_not_empty key Hne) in Hsend. injection Hsend as <- <-. split; [done|].
    match goal with |- context [match ?o with Some _ => _ | None => _ end] => by destruct o end.
  - intros ex key b r outcome r' Hsend Hm Hb Ha Hne. toy_target Hsend Ha. rewrite Hm, Hb in Hsend.
    cbn in Hsend. destruct (bool_decide (_ ∈ _) && _) eqn:Hc; injection Hsend as <- <-.
    + apply andb_true_iff in Hc as [_ Hc%bool_decide_eq_true]. split; [by left|]. done.
    + split; [done|]. intros Hcreate. unfold create_only in Hcreate.
      rewrite bool_decide_eq_true_2 in Hc by done. cbn in Hc. apply bool_decide_eq_false in Hc.
      by apply eq_None_not_Some.
  - intros ex key r outcome r' Hsend Hm Ha Hne. toy_target Hsend Ha. rewrite Hm in Hsend. cbn in Hsend.
    by injection Hsend as <- <-.
  - intros ex prefix token query r outcome r' Hsend Hm Ha Hq. toy_target Hsend Ha.
    rewrite Hm in Hsend. cbn -[toy_list] in Hsend. injection Hsend as Hout <-. split; [done|].
    destruct outcome as [rd|status rd|error]; [|done..]. intros _.
    by apply (toy_list_page r prefix token query rd).
  - done.
Defined.

(** A store on the service, as the constructor makes it. *)
Definition toy_store_config : S3StorageBackendConfig :=
  mkS3StorageBackendConfig "https://s3.local/" "hsp" "us-east-1" "media/" "AK" "secret" None.
Definition toy_store : S3ObjectStore :=
  mkS3ObjectStore
    (mkS3StorageBackendConfig "https://s3.local" "hsp" "us-east-1" "media/" "AK" "secret" None)
    "https://s3.local" "s3.local" tt.
Lemma toy_store_new : s3_object_store_new toy_store_config = Ok toy_store.
Proof. reflexivity. Qed.

Module ToyS3.
#[export] Existing Instances toy_s3 toy_service.
End ToyS3.
