(* ===== verification/S3BackendProps.v ===== *)
(** * Properties of the S3 backing store

    The service over the S3 store is the service over a backend that keeps the
    promises of [BackendLaws], so what is proved of it there holds here: tenants stay
    apart in the bucket.  Listings return everything below a prefix and end.  Where
    the S3 store differs from the filesystem is stated as it is: directories are
    matched as strings, a conflict counts as existence, large objects are written but
    not read. *)

From Stdlib Require Import ZArith Lia Ascii String Bool.
From stdpp Require Import base option list strings gmap numbers sorting.
From S2P Require Import Prelude RustStr Path Core Cbor CborFacts Concrete Auth Crypto Store ServiceState ServiceFacts Access Namespaces Objects Subscribe ConcreteService Service AmzDate Distribution SigV4 UrlStr S3Client S3Remote S3Laws ServiceRel BackendSim ConcreteS3.

(** ** Behind the guard *)

#[export] Instance guard_sim (B : Backend) : BackendSim B (guarded is_store_key B).
Proof.
  refine {| state_rel := (λ s1 s2, s1 = s2) : bstate B → bstate (guarded is_store_key B) → Prop |};
    intros key; intros; subst; cbn;
    match goal with H : is_store_key key = true |- _ => rewrite H end; done.
Defined.

Definition guard_world {B} (w : World B) : World (guarded is_store_key B) :=
  @mkWorld (guarded is_store_key B) (w_store w) (w_draws w) (w_ticks w) (w_replay w) (w_metrics w)
    (w_logs w).
Lemma guard_world_rel {B} (w1 : World B) w2 :
  world_rel (B2 := guarded is_store_key B) w1 w2 ↔ guard_world w1 = w2.
Proof.
  split.
  - intros [Hs Hd Ht Hr Hm Hl]. destruct w1, w2. cbn in *. by subst.
  - intros <-. by split.
Qed.

Section service.
Context `{DL : DepsLaws} (sv : AlphaService) `{S3ClientDeps} (now : nat → Z) (store : S3ObjectStore).
Context `{SV : !S3Service (st_agent store) (st_endpoint_url store) (sc_bucket (st_config store))}.
Hypothesis bucket_slash_free : str_contains_char slash (sc_bucket (st_config store)) = false.
Abbreviation s3 := (s3_backend now store).

(** C21: the service runs on S3 as on any backend.  The service answers single requests
    as [S3Service] says, and only this store writes to the bucket; of a conditional PUT
    that is answered with 409 or 412 it is only assumed that nothing was stored, not
    that the object was there.  Then every sequence of calls gets, over the S3 store, the replies it gets over a backend that satisfies the laws
    every theorem about the service is proved from, and leaves the same bucket; the
    map of that backend is the content of the bucket under the names of the keys. *)
Theorem service_over_s3 calls (w : World s3) :
  ∃ L : BackendLaws (guarded is_store_key s3),
    (∀ s key, is_store_key key = true →
       b_view (BackendLaws := L) s !! key = bucket_objects store s !! remote_name store key) ∧
    (answers sv calls w).1 = (answers sv calls (guard_world w)).1 ∧
    guard_world (answers sv calls w).2 = (answers sv calls (guard_world w)).2.
Proof.
  exists (s3_backend_laws now store bucket_slash_free). split.
  - intros s key Hk. by apply store_view_key.
  - destruct (answers_sim (B2 := guarded is_store_key s3) sv calls w (guard_world w)) as [Hr Hw];
      [by apply guard_world_rel|]. split; [done|]. by apply guard_world_rel.
Qed.

(** Calls of other tenants leave every object of a tenant as it is. *)
Theorem s3_bucket_isolation calls (w : World s3) t k key :
  Forall (λ ac, call_tenant ac.2 ≠ t) calls → kind_ok k = true →
  let name := remote_name store (store_key t k key) in
  bucket_objects store (w_store (run_calls sv calls w)) !! name =
  bucket_objects store (w_store w) !! name.
Proof.
  intros Hcalls Hk name. revert w. induction Hcalls as [|[auth c] calls Hc _ IH]; intros w; [done|].
  cbn [run_calls]. rewrite IH. clear IH. cbn in Hc.
  pose (L := s3_backend_laws now store bucket_slash_free).
  pose proof (run_call_frame (BL := L) sv auth c (guard_world w)) as Hkeep.
  destruct (service_sim (B2 := guarded is_store_key s3) sv auth c w (guard_world w)) as [_ Hrel];
    [by apply guard_world_rel|]. rewrite !answer_run in Hrel. apply guard_world_rel in Hrel.
  rewrite <-Hrel in Hkeep. pose proof Hk as [Hks _]%andb_true_iff.
  eapply keeps_other_tenant with (t' := t) (k := k) (key := key) in Hkeep;
    [|apply store_kinds_slash_free|done|done].
  cbn in Hkeep. unfold s3_view in Hkeep.
  by rewrite !store_view_key in Hkeep by (by apply service_key_is_store_key).
Qed.
End service.

(** ** Listings *)

Section listings.
Context `{DL : DepsLaws} `{S3ClientDeps} (now : nat → Z) (store : S3ObjectStore).
Context `{SV : !S3Service (st_agent store) (st_endpoint_url store) (sc_bucket (st_config store))}.
Hypothesis bucket_slash_free : str_contains_char slash (sc_bucket (st_config store)) = false.


Lemma backend_key_directory kind dir :
  prefix_clean store → str_contains_char slash kind = false → str_contains_char slash dir = false →
  kind ≠ "" → dir ≠ "" →
  backend_key store (kind +:+ "/" +:+ dir +:+ "/") = join "/" (prefix_segments store ++ [kind; dir]).
Proof.
  intros Hclean Hk Hd Hne Hne'. unfold backend_key. unfold prefix_clean in Hclean. rewrite !Hclean.
  assert (Htrim : trim_slashes (kind +:+ "/" +:+ dir +:+ "/") = kind +:+ "/" +:+ dir).
  { unfold trim_slashes. rewrite trim_start_char_none by (by apply segment_no_slash).
    rewrite (str_app_assoc "/" dir "/"), (str_app_assoc kind ("/" +:+ dir) "/").
    apply trim_end_char_once. rewrite str_app_assoc. by apply ends_with_char_no. }
  rewrite Htrim. destruct (prefix_segments store) as [|p P] eqn:EP; [done|].
  destruct (str_is_empty (join "/" (p :: P))) eqn:Ee.
  { pose proof (segments_wf (sc_prefix (st_config store))) as HP. fold (prefix_segments store) in HP.
    rewrite EP in HP. apply Forall_inv in HP as [_ Hp]. destruct p; [done|]. by destruct P. }
  rewrite join_app by done. destruct kind; [done|]. done.
Qed.

Lemma join_extend l a rest x y :
  join "/" (l ++ [a; x +:+ rest; y]) = join "/" (l ++ [a; x]) +:+ rest +:+ "/" +:+ y.
Proof.
  induction l as [|s l IH].
  - cbn. by rewrite <-!str_app_assoc.
  - rewrite <-!app_comm_cons, !join_cons, IH by (by destruct l). by rewrite <-!str_app_assoc.
Qed.

(** On S3 the listing of a tenant's records includes those of tenants whose
    directory name extends its own.  The prefix is sent without its final slash, so if
    the directory of [t'] starts with that of [t] (the encoding of the tenant id, so
    "abc" and "abcdef"), every record of [t'] of that kind is among the values that
    listing the records of [t] returns. *)
Theorem s3_listing_crosses_tenants fuel t t' rest k key b s values s' :
  prefix_clean store → own_names store (bucket_objects store s) → kind_ok k = true →
  tenant_store_dir t ≠ "" →
  tenant_store_dir t' = tenant_store_dir t +:+ rest →
  bucket_objects store s !! remote_name store (store_key t' k key) = Some b →
  (length (keys_with (backend_key store (k +:+ "/" +:+ tenant_store_dir t +:+ "/"))
             (bucket_objects store s)) < fuel)%nat →
  s3_list_values now store fuel (k +:+ "/" +:+ tenant_store_dir t +:+ "/") s = (Ok (Some values), s') →
  b ∈ values.
Proof.
  intros Hclean Hown Hk Hne Hdir Hb Hfuel Hlist.
  pose proof (s3_list_values_spec now store bucket_slash_free fuel _ s Hclean Hown Hfuel) as Hspec.
  rewrite Hlist in Hspec. destruct Hspec as [_ Hv]. specialize (Hv _ eq_refl). injection Hv as ->.
  apply list_elem_of_omap. exists (remote_name store (store_key t' k key)). split; [|done].
  apply keys_with_elem. split; [|by eauto]. pose proof Hk as [Hks Hkne]%andb_true_iff.
  apply negb_true_iff in Hks.
  assert (Hdir' : tenant_store_dir t' ≠ "") by (rewrite Hdir; by destruct (tenant_store_dir t)).
  rewrite backend_key_directory by (done || apply tenant_store_dir_no_slash || by intros ->).
  unfold store_key. rewrite remote_name_eq, segments_of_parts;
    [|done|apply tenant_store_dir_no_slash|apply store_file_no_slash|by intros ->|done].
  destruct (tenant_store_dir t') as [|c d] eqn:Et'; [done|]. cbn [str_is_empty].
  apply starts_with_spec. exists (rest +:+ "/" +:+ store_file_name key).
  rewrite Hdir. apply join_extend.
Qed.
End listings.

(** ** Where the S3 store differs *)

Section differences.
Context `{Hashing} `{S3ClientDeps} (now : nat → Z) (store : S3ObjectStore).
Context `{SV : !S3Service (st_agent store) (st_endpoint_url store) (sc_bucket (st_config store))}.
Hypothesis bucket_slash_free : str_contains_char slash (sc_bucket (st_config store)) = false.

(** A record over 128 MiB can be written and not read back: every read of it fails. *)
Theorem s3_oversized_unreadable key b s :
  is_store_key key = true → bucket_objects store s !! remote_name store key = Some b →
  MAX_S3_BACKEND_RESPONSE_BYTES < Z.of_nat (length b) →
  ∃ e s', s3_read now store key s = (Err e, s').
Proof.
  intros Hk Hb Hlen. unfold s3_read.
  destruct (get_object_view now store bucket_slash_free key s) as [_ Hres];
    [by apply remote_name_not_empty|].
  destruct (get_object now store key s) as [[o|e] s'] eqn:Hget; [|eauto].
  exfalso. specialize (Hres o eq_refl). cbn in Hres. rewrite Hb in Hres. subst o.
  unfold get_object in Hget. apply ST_bind_ok in Hget as ([body|status body]&s1&Hreq&Hret).
  - apply ST_ret_ok in Hret as [[= ->] ->].
    pose proof (request_outcome now store bucket_slash_free "GET" key None [] s) as Hout.
    rewrite Hreq in Hout. destruct Hout as [(e&He&_)|(outcome&ex&r0&r1&Hr&_)]; [done|].
    destruct outcome as [rd|status rd|error]; [|done..]. cbn [reply_of] in Hr.
    unfold read_success_response in Hr. destruct (read_response_bytes rd) as [x|] eqn:Hrd; [|done].
    injection Hr as ->. unfold read_response_bytes in Hrd.
    apply result_bind_ok in Hrd as (y&_&Hy).
    destruct (Z.ltb_spec MAX_S3_BACKEND_RESPONSE_BYTES (Z.of_nat (length y))); [done|].
    injection Hy as ->. lia.
  - destruct (status =? 404); [by apply ST_ret_ok in Hret as [? _]|done].
Qed.

(** A conflict with a concurrent request counts as existence: [create] answers that
    the key exists when the service answered 409, whether it does or not. *)
Theorem s3_create_conflict_is_existence ts date key b rd r r' t :
  agent_send (st_agent store)
    (signed_exchange store ts date "PUT" (backend_key store key) [] (Some b) [("if-none-match", "*")]) r
    = (AgentStatus 409 rd, r') →
  amz_timestamp now (mkS3StoreState _ r t) = (Ok ts, mkS3StoreState _ r (S t)) → str_slice 0 8 ts = Some date →
  s3_create now store key b (mkS3StoreState _ r t) = (Ok false, mkS3StoreState _ r' (S t)).
Proof.
  intros Hsend Hts Hdate. unfold s3_create, put_object, request. cbn zeta.
  rewrite !ST_bind_run, Hts, ST_bind_run, Hdate. cbn [ok_or lift_result].
  unfold send. cbn [s3_remote]. by rewrite Hsend.
Qed.
End differences.

(** ** Configuration *)

(** The debug text of a configuration does not depend on its credentials. *)
Theorem s3_debug_hides_credentials `{DebugText} c access secret :
  trim (sc_access_key c) ≠ "" → trim (sc_secret_key c) ≠ "" → trim access ≠ "" → trim secret ≠ "" →
  s3_config_debug (mkS3StorageBackendConfig (sc_endpoint_url c) (sc_bucket c) (sc_region c)
    (sc_prefix c) access secret (sc_ca_cert_path c)) = s3_config_debug c.
Proof.
  assert (Hredact : ∀ s, trim s ≠ "" → redact_nonempty s = "<redacted>")
    by (intros s Hs; unfold redact_nonempty; by destruct (trim s)).
  intros H1 H2 H3 H4. unfold s3_config_debug. cbn [sc_access_key sc_secret_key].
  by rewrite !Hredact.
Qed.

(** What the constructor checks and normalises. *)
Theorem s3_store_well_formed `{S3ClientDeps} config store :
  s3_object_store_new config = Ok store →
  st_endpoint_url store = trim_end_char slash (trim (sc_endpoint_url config)) ∧
  st_endpoint_url store ≠ "" ∧ st_endpoint_host store ≠ "" ∧ sc_bucket (st_config store) ≠ "" ∧
  sc_access_key (st_config store) ≠ "" ∧ sc_secret_key (st_config store) ≠ "" ∧
  sc_prefix (st_config store) = normalize_store_prefix (sc_prefix config) ∧
  (starts_with "https://" (st_endpoint_url store) = true ∨
   starts_with "http://" (st_endpoint_url store) = true).
Proof.
  assert (Hne : ∀ s, str_is_empty s = false → s ≠ "") by (by intros []).
  unfold s3_object_store_new. destruct (str_is_empty _) eqn:E1; [done|].
  destruct (str_is_empty (trim (sc_bucket config))) eqn:E2; [done|].
  destruct (str_is_empty (trim (sc_access_key config))) eqn:E3; [done|].
  destruct (str_is_empty (trim (sc_secret_key config))) eqn:E4; [done|].
  intros (host&Hhost&H1)%result_bind_ok. apply result_bind_ok in H1 as (ag&_&[= <-]). cbn.
  unfold endpoint_host in Hhost. apply result_bind_ok in Hhost as (rest&Hrest&Hh).
  destruct (str_is_empty (trim _)) eqn:E5 in Hh; [done|]. injection Hh as <-.
  split_and!; try done; try (by apply Hne).
  destruct (strip_prefix "https://" _) as [x|] eqn:Es.
  - left. apply strip_prefix_Some in Es. apply starts_with_spec. eauto.
  - right. destruct (strip_prefix "http://" _) as [x|] eqn:Eh; [|done].
    apply strip_prefix_Some in Eh. apply starts_with_spec. eauto.
Qed.

(** ** Witnesses *)

Import ToyService ToyS3.

Example backend_key_normalized :
  backend_key toy_store "/objects/tenant/key/" = "media/objects/tenant/key" ∧
  strip_backend_prefix toy_store "/media/objects/tenant/key" = "objects/tenant/key".
Proof. by vm_compute. Qed.
Example encodings :
  encode_s3_key_path "a b/plus+slash%" = "a%20b/plus%2Bslash%25" ∧
  percent_encode_query "a b/plus+slash%" = "a%20b%2Fplus%2Bslash%25" ∧
  canonical_query_string [("prefix", "media/a b"); ("list-type", "2")]
    = "list-type=2&prefix=media%2Fa%20b".
Proof. by vm_compute. Qed.
Example listing_unescaped :
  xml_values "<R><Contents><Key>media/a&amp;b.json</Key></Contents><IsTruncated>false</IsTruncated></R>" "Key"
  = ["media/a&b.json"].
Proof. by vm_compute. Qed.

Definition toy_now : nat → Z := λ _, 1500.
(** A bucket with a record of each of two tenants, the id of one extending the other's. *)
Definition short_key : string := Eval vm_compute in store_key "ab" "events" "sequence".
Definition long_key : string := Eval vm_compute in store_key "abc" "events" "sequence".
Definition shared_bucket : gmap string bytes :=
  <[remote_name toy_store short_key := as_bytes "short"]>
    (<[remote_name toy_store long_key := as_bytes "long"]> ∅).
Definition shared_state : S3StoreState := mkS3StoreState toy_s3 shared_bucket 0.
Definition s3_world (s : S3StoreState) : World (s3_backend toy_now toy_store) :=
  @mkWorld (s3_backend toy_now toy_store) s 0 0 ∅ ∅ [].

Lemma shared_bucket_own : own_names toy_store shared_bucket.
Proof.
  intros name [b Hb]. unfold shared_bucket in Hb.
  apply lookup_insert_Some in Hb as [[<- _]|[_ Hb]]; [by exists short_key|].
  apply lookup_insert_Some in Hb as [[<- _]|[_ Hb]]; [by exists long_key|]. by rewrite lookup_empty in Hb.
Qed.

(** Witness of C21: a denied call and a resolve on the shared bucket. *)
Lemma service_over_s3_witness :
  let calls := [(sample_token "ab" "j1", sample_resolve "abc");
                (sample_token "ab" "j2", sample_resolve "ab")] in
  ∃ L : BackendLaws (guarded is_store_key (s3_backend toy_now toy_store)),
    (∀ s key, is_store_key key = true →
       b_view (BackendLaws := L) s !! key = bucket_objects toy_store s !! remote_name toy_store key) ∧
    (answers concrete_service calls (s3_world shared_state)).1
    = (answers concrete_service calls (guard_world (s3_world shared_state))).1 ∧
    guard_world (answers concrete_service calls (s3_world shared_state)).2
    = (answers concrete_service calls (guard_world (s3_world shared_state))).2.
Proof. apply (service_over_s3 concrete_service toy_now toy_store). reflexivity. Defined.


(** An instance: the record of "abc" is listed for "ab". *)
Lemma s3_listing_crosses_tenants_witness :
  ∃ values s', s3_list_values toy_now toy_store 5 ("events/" +:+ tenant_store_dir "ab" +:+ "/")
                 shared_state = (Ok (Some values), s') ∧ as_bytes "long" ∈ values.
Proof.
  destruct (s3_list_values toy_now toy_store 5 ("events/" +:+ tenant_store_dir "ab" +:+ "/") shared_state)
    as [[[values|]|e] s'] eqn:E.
  - exists values, s'. split; [reflexivity|].
    apply (s3_listing_crosses_tenants toy_now toy_store eq_refl 5 "ab" "abc" "GD" "events" "sequence"
             (as_bytes "long") shared_state values s').
    + reflexivity.
    + exact shared_bucket_own.
    + reflexivity.
    + vm_compute. congruence.
    + vm_compute. reflexivity.
    + vm_compute. reflexivity.
    + apply (bool_decide_eq_true_1 (_ < _)%nat). vm_compute. reflexivity.
    + exact E.
  - exfalso. apply (f_equal (λ p, match p.1 with Ok (Some _) => true | _ => false end)) in E.
    vm_compute in E. discriminate E.
  - exfalso. apply (f_equal (λ p, is_ok p.1)) in E. vm_compute in E. discriminate E.
Defined.
