(* ===== verification/S3Signing.v ===== *)
(** * The requests of the S3 client are accepted by the S3 surface

    The client of [S3Client.v] signs its requests with Signature Version 4, and
    [SigV4.v] verifies such signatures.  The two are written independently, in two
    crates; here they meet: what the client sends verifies under the same key. *)

From Stdlib Require Import ZArith Lia Ascii String Bool.
From stdpp Require Import base option list strings gmap numbers sorting.
From S2P Require Import Prelude RustStr Path Core Cbor Concrete Auth Crypto Store ServiceState Chunker AmzDate Distribution SigV4 ConcreteService ConcreteDist SigV4Props UrlStr S3Client S3Remote S3Laws ConcreteS3.

(** ** Visible text *)

Definition visible (c : ascii) : bool := in_range 33 126 c.

Ltac no_space c :=
  unfold visible, in_range; rewrite andb_true_iff, !Z.leb_le; intros [Hlo Hhi];
  unfold white_space_utf8; cbn [map rev app strip_any strip_bytes];
  repeat match goal with |- context [byte_val c =? ?z] =>
    rewrite (proj2 (Z.eqb_neq (byte_val c) z)) by lia end; done.
Lemma visible_not_space c b : visible c = true → strip_any white_space_utf8 (c :: b) = None.
Proof. no_space c. Qed.
Lemma visible_not_space_rev c b :
  visible c = true → strip_any (map (@rev Z) white_space_utf8) (c :: b) = None.
Proof. no_space c. Qed.
Lemma words_visible fuel b cur :
  (length b < fuel)%nat → forallb visible b = true →
  whitespace_words fuel b cur = match cur ++ b with [] => [] | l => [of_bytes l] end.
Proof.
  revert b cur. induction fuel as [|fuel IH]; intros b cur Hf Hb; [lia|].
  destruct b as [|c b]; cbn [whitespace_words].
  - cbn. rewrite app_nil_r. by destruct cur.
  - cbn in Hf, Hb. apply andb_true_iff in Hb as [Hc Hb]. rewrite visible_not_space by done.
    rewrite IH by (done || lia). rewrite <-app_assoc. cbn. by destruct cur.
Qed.
Lemma as_bytes_forallb (p : ascii → bool) s : forallb p (as_bytes s) = str_forallb p s.
Proof. by rewrite <-of_bytes_forallb, of_as_bytes. Qed.
Lemma normalize_visible s : str_forallb visible s = true → normalize_header_value s = s.
Proof.
  intros Hs. unfold normalize_header_value, split_whitespace.
  rewrite words_visible by (rewrite ?length_as_bytes, ?as_bytes_forallb; done || lia).
  rewrite app_nil_l. rewrite <-(of_as_bytes s) at 2. by destruct (as_bytes s).
Qed.
Lemma strip_all_visible fuel ps b :
  (∀ c b, visible c = true → strip_any ps (c :: b) = None) → strip_any ps [] = None →
  forallb visible b = true → strip_all fuel ps b = b.
Proof.
  intros Hps Hn Hb. destruct fuel; [done|]. cbn. destruct b as [|c b]; [by rewrite Hn|].
  cbn in Hb. apply andb_true_iff in Hb as [Hc _]. by rewrite Hps.
Qed.
Lemma forallb_rev {A} (p : A → bool) l : forallb p (rev l) = forallb p l.
Proof. induction l as [|x l IH]; [done|]. cbn. rewrite forallb_app, IH. cbn. by rewrite andb_true_r, andb_comm. Qed.
Lemma trim_visible s : str_forallb visible s = true → trim s = s.
Proof.
  intros Hs. rewrite <-as_bytes_forallb in Hs. unfold trim, trim_start.
  rewrite strip_all_visible, of_as_bytes by (done || apply visible_not_space). unfold trim_end.
  rewrite strip_all_visible, rev_involutive, of_as_bytes;
    [done|apply visible_not_space_rev|done|by rewrite forallb_rev].
Qed.
Lemma header_to_str_visible s : str_forallb visible s = true → header_to_str (as_bytes s) = Some s.
Proof.
  intros Hs. unfold header_to_str. rewrite as_bytes_forallb, of_as_bytes.
  rewrite (str_forallb_impl visible) by (done || intros c Hc; apply orb_true_iff; left;
    unfold visible, in_range in *; rewrite andb_true_iff, !Z.leb_le in *; lia). done.
Qed.

(** ** Hexadecimal digits *)

Lemma hex_digit_alphanumeric n : 0 <= n < 16 → is_ascii_alphanumeric (hex_digit n) = true.
Proof.
  intros Hn. assert (Hall : Forall (λ n, is_ascii_alphanumeric (hex_digit n) = true) (Z.of_nat <$> seq 0 16))
    by repeat constructor.
  rewrite Forall_forall in Hall. apply Hall. apply list_elem_of_fmap.
  exists (Z.to_nat n). split; [lia|]. apply elem_of_seq. lia.
Qed.
Lemma hex_lower_alphanumeric b : str_forallb is_ascii_alphanumeric (hex_lower b) = true.
Proof.
  induction b as [|c b IH]; [done|]. cbn [hex_lower hex_byte]. unfold hex_byte.
  rewrite !str_app_cons, str_app_nil_l. cbn [str_forallb]. pose proof (byte_val_range c).
  rewrite !hex_digit_alphanumeric, IH; [done|apply Z.mod_pos_bound; lia|].
  split; [apply Z.div_pos; lia|apply Z.div_lt_upper_bound; lia].
Qed.

(** ** The authorization header *)

Definition token_char (c : ascii) : bool := unreserved c || Ascii.eqb c ":"%char.
Definition plain_token (s : string) : bool := str_forallb token_char s.

Lemma token_char_visible c : token_char c = true → visible c = true.
Proof.
  unfold token_char, unreserved, is_ascii_alphanumeric, visible, in_range.
  rewrite !orb_true_iff, !andb_true_iff, !Z.leb_le, bool_decide_eq_true.
  intros [[Hc|Hc]|Hc%Ascii.eqb_eq]; [lia| |subst; by vm_compute].
  repeat (apply elem_of_cons in Hc as [->|Hc]; [by vm_compute|]). by apply not_elem_of_nil in Hc.
Qed.
Lemma plain_token_visible s : plain_token s = true → str_forallb visible s = true.
Proof. apply str_forallb_impl, token_char_visible. Qed.
Lemma plain_token_avoids c s : token_char c = false → plain_token s = true → str_contains_char c s = false.
Proof. apply str_contains_char_forallb. Qed.
Lemma alphanumeric_token s : str_forallb is_ascii_alphanumeric s = true → plain_token s = true.
Proof.
  apply str_forallb_impl. intros c Hc. unfold token_char, unreserved. by rewrite Hc.
Qed.

Lemma split_str_triple c p a b d :
  str_contains_char c a = false → str_contains_char c b = false → str_contains_char c d = false →
  split_str (String c p) (a +:+ String c p +:+ b +:+ String c p +:+ d) = [a; b; d].
Proof.
  intros Ha Hb Hd. unfold split_str.
  rewrite split_str_fuel_first by (done || rewrite str_app_length; lia). rewrite !str_app_length.
  rewrite split_str_fuel_first by (done || cbn; lia).
  rewrite split_str_fuel_atom by (done || cbn; lia). by rewrite !str_app_nil_l.
Qed.

(** The header lists the requests of the store are signed with. *)
Definition signed_names (only_if_absent : bool) : list string :=
  if only_if_absent then ["host"; "if-none-match"; "x-amz-content-sha256"; "x-amz-date"]
  else ["host"; "x-amz-content-sha256"; "x-amz-date"].

Lemma parse_client_credential ak date region :
  plain_token ak = true → plain_token date = true → plain_token region = true →
  parse_sigv4_credential (ak +:+ "/" +:+ (date +:+ "/" +:+ region +:+ "/s3/aws4_request"))
  = Ok (ak, date, region, "s3").
Proof.
  intros Hak Hdate Hregion. unfold parse_sigv4_credential.
  change (region +:+ "/s3/aws4_request") with (region +:+ String slash "s3/aws4_request").
  repeat change ("/" +:+ ?s) with (String slash s).
  by rewrite !split_on_app by (by apply plain_token_avoids).
Qed.
Lemma parse_authorization_shape ak date region names signature :
  plain_token ak = true → plain_token date = true → plain_token region = true →
  plain_token signature = true → str_contains_char "," names = false →
  parse_sigv4_authorization
    ("AWS4-HMAC-SHA256 Credential=" +:+ ak +:+ "/" +:+
     (date +:+ "/" +:+ region +:+ "/s3/aws4_request") +:+ ", SignedHeaders=" +:+
     names +:+ ", Signature=" +:+ signature) =
  Ok {| ps_access_key_id := ak; ps_date := date; ps_region := region; ps_service := "s3";
        ps_credential_scope := credential_scope date region "s3";
        ps_signed_headers := split_signed_headers names; ps_signature := signature |}.
Proof.
  intros Hak Hdate Hregion Hsig Hnames. unfold parse_sigv4_authorization.
  set (credential := ak +:+ "/" +:+ (date +:+ "/" +:+ region +:+ "/s3/aws4_request")).
  set (a := "Credential=" +:+ credential). set (b := "SignedHeaders=" +:+ names).
  set (d := "Signature=" +:+ signature).
  match goal with |- context [strip_prefix _ ?v] =>
    replace v with ("AWS4-HMAC-SHA256 " +:+ (a +:+ ", " +:+ b +:+ ", " +:+ d)) end.
  2: { subst a b d credential. by rewrite <-!str_app_assoc. }
  rewrite (proj2 (strip_prefix_Some _ _ _) eq_refl). cbn [ok_or]. rewrite ok_bind.
  assert (Hcomma : ∀ s, plain_token s = true → str_contains_char "," s = false)
    by (intros s; by apply plain_token_avoids).
  change ", " with (String "," " ") at 1 2 3.
  rewrite split_str_triple.
  2: { subst a credential.
       by rewrite !str_contains_char_app, (Hcomma ak), (Hcomma date), (Hcomma region). }
  2: { subst b. by rewrite str_contains_char_app, Hnames. }
  2: { subst d. by rewrite str_contains_char_app, (Hcomma signature). }
  cbn [authorization_parts]. subst a b d.
  change (strip_prefix "Credential=" ("Credential=" +:+ credential)) with (strip_prefix "" credential).
  change (strip_prefix "" credential) with (Some credential).
  change (strip_prefix "Credential=" ("SignedHeaders=" +:+ ?x)) with (@None string).
  change (strip_prefix "SignedHeaders=" ("SignedHeaders=" +:+ ?x)) with (Some x).
  change (strip_prefix "Credential=" ("Signature=" +:+ ?x)) with (@None string).
  change (strip_prefix "SignedHeaders=" ("Signature=" +:+ ?x)) with (@None string).
  change (strip_prefix "Signature=" ("Signature=" +:+ ?x)) with (Some x).
  cbn [ok_or]. rewrite ok_bind.
  subst credential. by rewrite parse_client_credential, ok_bind by done.
Qed.
Lemma parse_client_authorization ak date region absent signature :
  plain_token ak = true → plain_token date = true → plain_token region = true →
  plain_token signature = true →
  parse_sigv4_authorization
    ("AWS4-HMAC-SHA256 Credential=" +:+ ak +:+ "/" +:+
     (date +:+ "/" +:+ region +:+ "/s3/aws4_request") +:+ ", SignedHeaders=" +:+
     join ";" (signed_names absent) +:+ ", Signature=" +:+ signature) =
  Ok {| ps_access_key_id := ak; ps_date := date; ps_region := region; ps_service := "s3";
        ps_credential_scope := credential_scope date region "s3";
        ps_signed_headers := signed_names absent; ps_signature := signature |}.
Proof. intros. rewrite parse_authorization_shape by (done || by destruct absent). by destruct absent. Qed.

(** ** Time *)

(** [OffsetDateTime] is the civil date and time in UTC. *)
Class S3ClockLaws `{S3ClientDeps} : Prop :=
  utc_correct : ∀ ms, 0 <= ms < 253402300800000 →
    let '(year, month, day, (hour, minute, second)) := utc_fields ms in
    valid_date (year, month, day) = true ∧ days_from_civil year month day = ms / 86400000 ∧
    hour = ms mod 86400000 / 3600000 ∧ minute = ms mod 3600000 / 60000 ∧
    second = ms mod 60000 / 1000.

Lemma amz_timestamp_eq `{S3ClockLaws} now (s : S3StoreState) :
  0 <= now (s3_ticks s) < 253402300800000 →
  amz_timestamp now s =
  (Ok (amz_date_from_epoch_ms (now (s3_ticks s))), mkS3StoreState _ (s3_remote s) (S (s3_ticks s))).
Proof.
  intros Hms. unfold amz_timestamp. pose proof (utc_correct _ Hms) as Hutc.
  destruct (utc_fields _) as [[[y mo] d] [[h mi] sec]]. destruct Hutc as (Hv&Hd&->&->&->).
  unfold amz_date_from_epoch_ms. revert Hms Hd. generalize (now (s3_ticks s)) as ms. intros ms Hms Hd.
  assert (Hdays : ms / 1000 / 86400 = days_from_civil y mo d)
    by (rewrite Hd, Z.div_div by lia; done).
  rewrite Hdays, civil_from_days_from_civil by done.
  replace (ms / 1000 mod 86400 / 3600) with (ms mod 86400000 / 3600000)
    by (Z.to_euclidean_division_equations; lia).
  replace ((ms / 1000 mod 86400) mod 3600 / 60) with (ms mod 3600000 / 60000)
    by (Z.to_euclidean_division_equations; lia).
  replace ((ms / 1000 mod 86400) mod 60) with (ms mod 60000 / 1000)
    by (Z.to_euclidean_division_equations; lia).
  done.
Qed.

Lemma digit_token d : 0 <= d < 10 → token_char (digit d) = true.
Proof.
  intros Hd. unfold token_char, unreserved, is_ascii_alphanumeric, in_range, digit.
  rewrite byte_val_of_small by lia.
  rewrite (proj2 (Z.leb_le 48 _)), (proj2 (Z.leb_le _ 57)) by lia. done.
Qed.
Lemma fmt_pad_2_token n : 0 <= n < 100 → plain_token (fmt_pad 2 n) = true ∧ String.length (fmt_pad 2 n) = 2%nat.
Proof.
  intros Hn. rewrite fmt_pad_2 by done. split; [|done]. unfold plain_token. cbn.
  by rewrite !digit_token by (Z.to_euclidean_division_equations; lia).
Qed.
Lemma fmt_pad_4_token n : 0 <= n < 10000 → plain_token (fmt_pad 4 n) = true ∧ String.length (fmt_pad 4 n) = 4%nat.
Proof.
  intros Hn. rewrite fmt_pad_4 by done. split; [|done]. unfold plain_token. cbn.
  by rewrite !digit_token by (Z.to_euclidean_division_equations; lia).
Qed.

Lemma amz_date_shape ms :
  0 <= ms < 253402300800000 →
  ∃ date rest, amz_date_from_epoch_ms ms = date +:+ String "T" rest ∧
    String.length date = 8%nat ∧ plain_token date = true ∧ plain_token rest = true.
Proof.
  intros Hms. unfold amz_date_from_epoch_ms.
  set (secs := ms / 1000). set (days := secs / 86400). set (sod := secs mod 86400).
  assert (Hdays : 0 <= days < 2932897) by (unfold days, secs; Z.to_euclidean_division_equations; lia).
  assert (Hsod : 0 <= sod < 86400) by (apply Z.mod_pos_bound; lia).
  pose proof (civil_year_range days Hdays) as Hy. pose proof (days_from_civil_from_days days) as Hc.
  destruct (civil_from_days days) as [[y m] d]. destruct Hc as [Hv _].
  unfold valid_date, days_in_month in Hv. rewrite !andb_true_iff, !Z.leb_le in Hv.
  assert (Hd : 0 <= d < 100).
  { destruct Hv as [[[? ?] ?] Hv]. split; [lia|]. repeat case_match; lia. }
  destruct (fmt_pad_4_token y) as [Ty Ly]; [lia|]. destruct (fmt_pad_2_token m) as [Tm Lm]; [lia|].
  destruct (fmt_pad_2_token d) as [Td Ld]; [lia|].
  exists (fmt_pad 4 y +:+ fmt_pad 2 m +:+ fmt_pad 2 d).
  exists (fmt_pad 2 (sod / 3600) +:+ fmt_pad 2 (sod mod 3600 / 60) +:+ fmt_pad 2 (sod mod 60) +:+ "Z").
  split_and!.
  - by rewrite <-!str_app_assoc.
  - rewrite !str_app_length. lia.
  - unfold plain_token in *. by rewrite !str_forallb_app, Ty, Tm, Td.
  - assert (H2 : ∀ n, 0 <= n < 100 → str_forallb token_char (fmt_pad 2 n) = true)
      by (intros n Hn; by apply fmt_pad_2_token).
    unfold plain_token. rewrite !str_forallb_app.
    by rewrite !H2 by (Z.to_euclidean_division_equations; lia).
Qed.

Lemma substring_app a b : String.substring 0 (String.length a) (a +:+ b) = a.
Proof.
  induction a as [|c a IH]; [by destruct b|].
  rewrite str_app_cons. cbn [String.length String.substring]. by rewrite IH.
Qed.
Lemma get_app a c b : String.get (String.length a) (a +:+ String c b) = Some c.
Proof. induction a as [|x a IH]; [done|]. rewrite str_app_cons. exact IH. Qed.
Lemma token_boundary c : token_char c = true → in_range 128 191 c = false.
Proof.
  intros Hc%token_char_visible. unfold visible, in_range in *.
  rewrite andb_true_iff, !Z.leb_le in Hc. apply andb_false_iff. left. apply Z.leb_gt. lia.
Qed.
Lemma date_slice date rest :
  String.length date = 8%nat → plain_token date = true →
  str_slice 0 8 (date +:+ String "T" rest) = Some date.
Proof.
  intros Hl Ht. unfold str_slice, is_char_boundary. rewrite <-Hl, get_app, Nat.sub_0_r, substring_app.
  destruct date as [|c date]; [done|]. rewrite str_app_cons. cbn [String.get].
  unfold plain_token in Ht. cbn in Ht. apply andb_true_iff in Ht as [Hc _].
  by rewrite token_boundary.
Qed.

(** ** Verification *)

(** What a server receives of an exchange: each header once, and the URL taken apart
    at its query. *)
Record received (endpoint : string) (ex : HttpExchange) (b : HttpRequestBinding) : Prop := {
  rc_method : hb_method b = hx_method ex;
  rc_body : hb_body b = default [] (hx_body ex);
  rc_url : hx_url ex = endpoint +:+ hb_raw_path b +:+
             (if str_is_empty (hb_raw_query b) then "" else "?" +:+ hb_raw_query b);
  rc_path : str_contains_char "?" (hb_raw_path b) = false;
  rc_headers : ∀ name value, (name, value) ∈ hx_headers ex →
    header_get_all (hb_headers b) name = [as_bytes value];
}.

Lemma join_empty_cons x l : join "" (x :: l) = x +:+ join "" l.
Proof. destruct l; [by rewrite str_app_nil_r|done]. Qed.

Lemma canonical_headers_of headers hs :
  Forall (λ h, header_get_all headers h.1 = [as_bytes h.2] ∧ str_forallb visible h.2 = true) hs →
  canonical_headers headers (hs.*1) =
  Ok (join "" ((λ h, to_ascii_lowercase h.1 +:+ ":" +:+ trim h.2 +:+ newline) <$> hs)).
Proof.
  induction 1 as [|[name value] hs [Hget Hvis] _ IH]; [done|].
  cbn [fmap list_fmap fst snd canonical_headers] in *. unfold required_single_signed_header.
  rewrite Hget, header_to_str_visible by done. cbn [ok_or]. rewrite ok_bind.
  change ((λ x : string * string, x.1) <$> hs) with (hs.*1). rewrite IH, ok_bind.
  rewrite join_empty_cons, normalize_visible, trim_visible by done. by rewrite <-!str_app_assoc.
Qed.

Lemma covered_headers_eq `{S3ClientDeps} store ph ts absent :
  covered_headers store ph ts (headers_of absent) =
  if absent
  then [("host", st_endpoint_host store); ("if-none-match", "*"); ("x-amz-content-sha256", ph);
        ("x-amz-date", ts)]
  else [("host", st_endpoint_host store); ("x-amz-content-sha256", ph); ("x-amz-date", ts)].
Proof. by destruct absent. Qed.
Lemma covered_names `{S3ClientDeps} store ph ts absent :
  (covered_headers store ph ts (headers_of absent)).*1 = signed_names absent.
Proof. rewrite covered_headers_eq. by destruct absent. Qed.

Lemma canonical_uri_no_query `{S3ClientDeps} store key :
  str_contains_char "?" (canonical_uri store key) = false.
Proof.
  rewrite canonical_uri_eq, !str_contains_char_app.
  unfold percent_encode_path_segment. rewrite percent_encode_avoids, encoded_key_avoids by done. done.
Qed.
Lemma received_target `{S3ClientDeps} store key query path raw_query :
  request_url store key query = st_endpoint_url store +:+ path +:+
    (if str_is_empty raw_query then "" else "?" +:+ raw_query) →
  str_contains_char "?" path = false →
  path = canonical_uri store key ∧ raw_query = canonical_query_string query.
Proof.
  intros Hurl Hpath. pose proof (canonical_uri_no_query store key) as Huri.
  assert (Hsame : canonical_uri store key +:+ (if str_is_empty (canonical_query_string query) then ""
      else "?" +:+ canonical_query_string query)
    = path +:+ (if str_is_empty raw_query then "" else "?" +:+ raw_query)).
  { unfold request_url in Hurl. destruct (str_is_empty (canonical_query_string query));
      rewrite ?str_app_nil_r; apply str_app_inj_len in Hurl as [_ ->]; done. }
  clear Hurl. destruct (canonical_query_string query) as [|x q], raw_query as [|x' q'];
    cbn [str_is_empty] in Hsame; rewrite ?str_app_nil_r in Hsame;
    repeat change ("?" +:+ ?x) with (String "?" x) in Hsame.
  - done.
  - exfalso. rewrite Hsame, str_contains_char_app, str_contains_char_cons, orb_true_r in Huri. done.
  - exfalso. rewrite <-Hsame, str_contains_char_app, str_contains_char_cons, orb_true_r in Hpath. done.
  - by apply str_split_first in Hsame as [-> ->].
Qed.

Section accepted.
Context `{DD : DistDeps} `{!CborPayload CapabilityClaims} {B : Backend} `{BackendListing B}.
Context (ds : DistributionService) `{CD : S3ClientDeps} `{!S3ClockLaws}.
Context (now : nat → Z) (store : S3ObjectStore).
Abbreviation cfg := (st_config store).
(** Both crates use the same HMAC. *)
Hypothesis hmac_same : ∀ key m, s3_hmac_sha256 key m = hmac_sha256_mac key m.
Hypothesis names_plain :
  plain_token (sc_access_key cfg) = true ∧ plain_token (sc_region cfg) = true ∧
  plain_token (st_endpoint_host store) = true.

(** The server computes the canonical request the client signed. *)
Lemma canonical_request_agrees ts date m key query body absent b :
  plain_token ts = true →
  received (st_endpoint_url store) (signed_exchange store ts date m key query body (headers_of absent)) b →
  let ph := hex_lower (sha256 (default [] body)) in
  canonical_sigv4_request (hb_method b) (hb_raw_path b) (hb_raw_query b) (hb_headers b)
    (signed_names absent) ph =
  Ok (client_canonical_request store m key query
        (covered_headers store ph ts (headers_of absent)) ph).
Proof.
  intros Hts [Hm Hbody Hurl Hpath Hheaders]. cbn zeta.
  destruct (received_target store key query _ _ Hurl Hpath) as [-> ->].
  unfold canonical_sigv4_request, client_canonical_request. rewrite Hm, covered_names.
  assert (Hvalid : validate_signed_headers (signed_names absent) = Ok tt) by (by destruct absent).
  rewrite Hvalid, ok_bind. rewrite <-(covered_names store (hex_lower (sha256 (default [] body))) ts absent).
  rewrite canonical_headers_of; [by rewrite ok_bind|].
  assert (Hget : ∀ name value, (name, value) ∈ hx_headers (signed_exchange store ts date m key query body
    (headers_of absent)) → header_get_all (hb_headers b) name = [as_bytes value]) by done.
  cbn [signed_exchange hx_headers] in Hget.
  assert (Hhost : header_get_all (hb_headers b) "host" = [as_bytes (st_endpoint_host store)])
    by (apply (Hget "Host"); set_solver).
  pose proof (plain_token_visible _ (proj2 (proj2 names_plain))) as Vhost.
  pose proof (plain_token_visible _ (alphanumeric_token _ (hex_lower_alphanumeric (sha256 (default [] body))))) as Vhash.
  pose proof (plain_token_visible _ Hts) as Vts.
  rewrite covered_headers_eq.
  destruct absent; repeat (apply Forall_cons; split; [split; [cbn [fst snd]|done]|]); try done;
    apply Hget; unfold headers_of; set_solver.
Qed.

Lemma header_present headers name value :
  header_get_all headers name = [as_bytes value] → header_to_str (as_bytes value) = Some value →
  required_header headers name = Ok value.
Proof. intros Hget Hv. unfold required_header, header_get. rewrite Hget. cbn. by rewrite Hv. Qed.

Definition printable (c : ascii) : bool := in_range 32 126 c.
Lemma printable_header value :
  str_forallb printable value = true → header_to_str (as_bytes value) = Some value.
Proof.
  intros Hs. unfold header_to_str. rewrite as_bytes_forallb, of_as_bytes.
  rewrite (str_forallb_impl printable); [done| |done].
  intros c Hc. unfold printable in Hc. by rewrite Hc.
Qed.
Lemma plain_token_printable s : plain_token s = true → str_forallb printable s = true.
Proof.
  apply str_forallb_impl. intros c Hc%token_char_visible.
  unfold visible, printable, in_range in *. rewrite andb_true_iff, !Z.leb_le in *. lia.
Qed.

(** The signature of the client is the one the server computes. *)
Lemma signature_agrees ts date canonical :
  sigv4_signature (sc_secret_key cfg) date (sc_region cfg) "s3"
    (sigv4_string_to_sign ts (credential_scope date (sc_region cfg) "s3") canonical)
  = Ok (client_signature store ts date canonical).
Proof.
  unfold sigv4_signature, hmac_sha256, client_signature, signing_key. rewrite !hmac_same. done.
Qed.

Lemma time_window_accepts issued code kind (w : World B) :
  0 <= issued <= u64_max → Z.abs (clock (w_ticks w) - issued) <= MAX_SIGV4_CLOCK_SKEW_MS →
  ∃ w', ensure_sigv4_time_window issued code kind w = (Ok tt, w').
Proof.
  intros Hi Hw. unfold ensure_sigv4_time_window. rewrite ST_bind_run. unfold now_ms.
  eexists. unfold u64_sat_add, u64_sat_sub, u64_max in *.
  destruct (Z.ltb_spec (Z.min (clock (w_ticks w) + MAX_SIGV4_CLOCK_SKEW_MS) (2 ^ 64 - 1)) issued); [lia|].
  destruct (Z.ltb_spec MAX_SIGV4_CLOCK_SKEW_MS (Z.max (clock (w_ticks w) - issued) 0)); [lia|]. done.
Qed.

(** A received request of the client passes every check of the server. *)
Lemma exchange_verifies ts date rest issued m key query body absent b (w : World B) record w1 :
  ts = date +:+ String "T" rest → plain_token ts = true → plain_token date = true →
  parse_amz_date_with_code ts "invalid_sigv4" = Ok issued → 0 <= issued <= u64_max →
  received (st_endpoint_url store) (signed_exchange store ts date m key query body (headers_of absent)) b →
  sigv4_access_key ds (sc_access_key cfg) w = (Ok record, w1) →
  ak_secret_access_key record = sc_secret_key cfg →
  Z.abs (clock (w_ticks w1) - issued) <= MAX_SIGV4_CLOCK_SKEW_MS →
  ∃ w2 signature, authenticate_header_sigv4 ds b w = sigv4_auth_context record m signature w2.
Proof.
  intros Hts Tts Tdate Hparse Hissued Hrec Hkey Hsecret Hskew.
  destruct names_plain as (Tak&Tregion&Thost).
  pose proof (canonical_request_agrees ts date m key query body absent b Tts Hrec) as Hcanonical.
  cbn zeta in Hcanonical. destruct Hrec as [Hm Hbody _ _ Hheaders].
  set (ph := hex_lower (sha256 (default [] body))) in *.
  set (canonical := client_canonical_request store m key query
                      (covered_headers store ph ts (headers_of absent)) ph) in *.
  set (signature := client_signature store ts date canonical).
  assert (Tsig : plain_token signature = true) by apply alphanumeric_token, hex_lower_alphanumeric.
  set (authorization := "AWS4-HMAC-SHA256 Credential=" +:+ sc_access_key cfg +:+ "/" +:+
    client_scope store date +:+ ", SignedHeaders=" +:+ join ";" (signed_names absent) +:+
    ", Signature=" +:+ signature).
  assert (Hauth : required_header (hb_headers b) "authorization" = Ok authorization).
  { apply header_present.
    - subst authorization. rewrite <-(covered_names store ph ts absent).
      apply (Hheaders "Authorization"). apply list_elem_of_here.
    - apply printable_header. subst authorization. unfold client_scope.
      rewrite !str_forallb_app, !(plain_token_printable (sc_access_key cfg)),
        !(plain_token_printable date), !(plain_token_printable (sc_region cfg)),
        !(plain_token_printable signature) by done. by destruct absent. }
  assert (Hdate : required_header (hb_headers b) "x-amz-date" = Ok ts).
  { apply header_present; [|by apply printable_header, plain_token_printable].
    apply Hheaders. cbn. clear. set_solver. }
  assert (Hph : payload_hash_of b = ph).
  { unfold payload_hash_of, header_get. rewrite (Hheaders "x-amz-content-sha256" ph).
    - cbn. by rewrite printable_header
        by (apply plain_token_printable, alphanumeric_token, hex_lower_alphanumeric).
    - cbn. clear. set_solver. }
  destruct (time_window_accepts issued "invalid_sigv4" "header-based SigV4 request" w1 Hissued Hskew)
    as [w2 Hwindow].
  exists w2, signature. unfold authenticate_header_sigv4.
  rewrite (lift_bind_ok _ _ _ _ Hauth).
  erewrite lift_bind_ok by (by apply parse_client_authorization).
  cbn beta iota zeta delta [ps_access_key_id ps_date ps_region ps_service ps_credential_scope
    ps_signed_headers ps_signature].
  rewrite ST_bind_run, Hkey, (lift_bind_ok _ _ _ _ Hdate), (lift_bind_ok _ _ _ _ Hparse).
  rewrite ST_bind_run, Hwindow.
  assert (Hprefix : starts_with date ts = true) by (rewrite Hts; apply starts_with_app).
  rewrite Hprefix. cbn [negb]. rewrite Hph.
  assert (Hhash : hex_sha256 (hb_body b) = ph) by (rewrite Hbody; done).
  rewrite Hhash, String.eqb_refl. cbn [negb]. rewrite andb_false_r.
  rewrite (lift_bind_ok _ _ _ _ Hcanonical), Hsecret.
  rewrite (lift_bind_ok _ _ _ _ (signature_agrees ts date canonical)).
  fold signature. rewrite String.eqb_refl. cbn [negb]. by rewrite Hm.
Qed.

Lemma sigv4_auth_context_total record m signature (w : World B) :
  ∃ auth w', sigv4_auth_context record m signature w = (Ok auth, w') ∧
    cl_tenant_id (claims auth) = ak_tenant_id record.
Proof. by eexists _, _. Qed.

(** The exchange of a request made in a state. *)
Definition sent_exchange (s : S3StoreState) (m key : string) (query : list (string * string))
  (body : option bytes) (extra : list (string * string)) : HttpExchange :=
  let timestamp := amz_date_from_epoch_ms (now (s3_ticks s)) in
  signed_exchange store timestamp (String.substring 0 8 timestamp) m key query body extra.

Lemma request_signed m key query body extra s :
  let ms := now (s3_ticks s) in
  0 <= ms < 253402300800000 →
  request now store m key query body extra s =
  send store (sent_exchange s m key query body extra) (mkS3StoreState _ (s3_remote s) (S (s3_ticks s))).
Proof.
  intros ms Hms. destruct (amz_date_shape ms Hms) as (date&rest&Hshape&Hlen&Tdate&Trest).
  unfold request, sent_exchange. rewrite ST_bind_run, amz_timestamp_eq by done. fold ms.
  rewrite Hshape, <-Hlen, substring_app, Hlen.
  assert (Hslice : ok_or (str_slice 0 8 (date +:+ String "T" rest)) (panic_error "timestamp slice")
    = Ok date) by (rewrite date_slice by done; done).
  by rewrite (lift_bind_ok _ _ _ _ Hslice).
Qed.

(** C22: the two halves of Signature Version 4 agree.  A request of the S3 client,
    whatever its method, key, query and body, and with the [If-None-Match] header or
    without, that reaches the S3 surface as it was sent authenticates there as the
    tenant of its access key, if the server finds that key enabled with the client's
    secret and the two clocks differ by less than the allowed skew.  The access key,
    the region and the host of the client are plain text without separators. *)
Theorem client_requests_verify m key query body absent s :
  let ms := now (s3_ticks s) in
  let ex := sent_exchange s m key query body (headers_of absent) in
  0 <= ms < 253402300800000 →
  (∃ s1, request now store m key query body (headers_of absent) s = send store ex s1) ∧
  ∀ b (w : World B) record w1, received (st_endpoint_url store) ex b →
    sigv4_access_key ds (sc_access_key cfg) w = (Ok record, w1) →
    ak_secret_access_key record = sc_secret_key cfg →
    Z.abs (clock (w_ticks w1) - ms / 1000 * 1000) <= MAX_SIGV4_CLOCK_SKEW_MS →
    ∃ auth w2, authenticate_header_sigv4 ds b w = (Ok auth, w2) ∧
      cl_tenant_id (claims auth) = ak_tenant_id record.
Proof.
  intros ms ex Hms. split; [eexists; by apply request_signed|].
  intros b w record w1 Hrec Hkey Hsecret Hskew.
  destruct (amz_date_shape ms Hms) as (date&rest&Hshape&Hlen&Tdate&Trest).
  subst ex. unfold sent_exchange in Hrec. fold ms in Hrec.
  assert (Hsub : String.substring 0 8 (amz_date_from_epoch_ms ms) = date)
    by (rewrite Hshape, <-Hlen; apply substring_app).
  rewrite Hsub in Hrec.
  destruct (exchange_verifies _ date rest (ms / 1000 * 1000) m key query body absent b w record w1 Hshape)
    as (w2&signature&->); try done.
  - rewrite Hshape. unfold plain_token in *. rewrite str_forallb_app, Tdate. exact Trest.
  - by apply amz_date_roundtrip.
  - unfold u64_max. Z.to_euclidean_division_equations. lia.
  - apply sigv4_auth_context_total.
Qed.
End accepted.

(** ** Witness *)

Import ToyService ToyDist ToyS3.

#[local] Instance toy_clock_laws : S3ClockLaws.
Proof.
  intros ms Hms. change (utc_fields ms) with (toy_utc ms). unfold toy_utc. pose proof (days_from_civil_from_days (ms / 1000 / 86400)) as Hc.
  destruct (civil_from_days (ms / 1000 / 86400)) as [[y m] d]. destruct Hc as [Hv Hd].
  split_and!; [done| |Z.to_euclidean_division_equations; lia..].
  rewrite Hd, Z.div_div by lia. done.
Qed.

(** The exchange as a server reads it. *)
Definition arrives (endpoint : string) (ex : HttpExchange) : HttpRequestBinding :=
  let rest := default "" (strip_prefix endpoint (hx_url ex)) in
  let '(path, query) := default (rest, "") (split_once "?"%char rest) in
  mkHttpRequestBinding (hx_method ex) path query
    ((λ h, (to_ascii_lowercase h.1, as_bytes h.2)) <$> hx_headers ex) (default [] (hx_body ex)).

(** A conditional write, as it is sent and as it arrives. *)
Definition toy_exchange : HttpExchange :=
  sent_exchange (λ _, 1500) toy_store (mkS3StoreState toy_s3 (∅ : gmap string bytes) 0) "PUT" "docs/a b" []
    (Some (as_bytes "body")) (headers_of true).
Lemma toy_exchange_arrives :
  received "https://s3.local" toy_exchange (arrives "https://s3.local" toy_exchange).
Proof.
  split; [reflexivity..|]. intros name value Hin.
  assert (Hall : Forall (λ h, header_get_all (hb_headers (arrives "https://s3.local" toy_exchange)) h.1
    = [as_bytes h.2]) (hx_headers toy_exchange)).
  { apply (bool_decide_eq_true_1 (Forall _ _)). vm_compute. reflexivity. }
  rewrite Forall_forall in Hall. by apply (Hall (name, value)).
Qed.

(** Witness of C22: a conditional write at the time of the server, with the stored key. *)
Lemma client_requests_verify_witness :
  ∃ auth w2, authenticate_header_sigv4 concrete_dist (arrives "https://s3.local" toy_exchange) key_world
      = (Ok auth, w2) ∧ cl_tenant_id (claims auth) = "tenant-alpha".
Proof.
  assert (Hmac : ∀ k m, s3_hmac_sha256 k m = hmac_sha256_mac k m) by reflexivity.
  destruct (client_requests_verify concrete_dist (λ _, 1500) toy_store Hmac
    (conj eq_refl (conj eq_refl eq_refl)) "PUT" "docs/a b" [] (Some (as_bytes "body")) true
    (mkS3StoreState toy_s3 (∅ : gmap string bytes) 0)) as [_ Haccept]; [cbn; lia|].
  destruct (sigv4_access_key concrete_dist "AK" key_world) as [[record|e] w1] eqn:Hkey.
  - assert (Hfields : (λ p : result ApiError SigV4AccessKeyRecord * World disk, match p.1 with
      | Ok r => (ak_secret_access_key r, ak_tenant_id r, clock (w_ticks p.2)) | Err _ => ("", "", 0) end)
        (sigv4_access_key concrete_dist "AK" key_world) = ("secret", "tenant-alpha", 1500))
      by (vm_compute; reflexivity).
    rewrite Hkey in Hfields. cbn [fst snd] in Hfields.
    apply pair_equal_spec in Hfields as [[Hsecret Htenant]%pair_equal_spec Hclock].
    destruct (Haccept _ _ record w1 toy_exchange_arrives Hkey Hsecret) as (auth&w2&Hauth&Ht).
    + refine (eq_ind_r (λ z, Z.abs (z - 1500 `div` 1000 * 1000) <= MAX_SIGV4_CLOCK_SKEW_MS) _ Hclock).
      vm_compute. congruence.
    + exists auth, w2. split; [exact Hauth|]. by rewrite Ht.
  - exfalso. apply (f_equal (λ p, is_ok p.1)) in Hkey. vm_compute in Hkey. discriminate Hkey.
Defined.
