(* ===== verification/Startup.v ===== *)
(** * Start-up: from the environment of a process to a running service

    Models the construction of the services ([AlphaService::new] and the default
    services of [crates/hsp-service], [DistributionService::new] of
    [crates/hsp-distribution], [IssuerRegistry::load] of [crates/hsp-auth]), the two
    remaining operations of the storage backend ([ready], [ensure_store_roots]), the
    set-up of the four servers ([spawn_native_beta_server],
    [spawn_gateway_beta_server], [run_s3_server], [run_cdn_server]) and their [main]
    functions, up to the point where a server accepts requests or a report is
    printed.

    [Machine] is what a process finds when it starts: the disks by root directory,
    the object store behind the S3 client, and how far the clock and the random
    generator are.  A service that was built runs on [start_world], the stores of the
    machine with empty in-memory state. *)

From Stdlib Require Import ZArith Lia Ascii String Bool.
From stdpp Require Import base option list strings gmap numbers.
From S2P Require Import Prelude RustStr Core Auth Crypto Store ServiceState Observability AmzDate Distribution Buckets SigV4 UrlStr S3 Cdn Native Gateway S3Client.

(** What start-up uses of other crates and of the machine: JSON of the registry and
    of the access keys, socket addresses, the QUIC endpoint and the TCP listener
    (both give the local address or fail), self-signed certificates with the TLS
    configuration for them, and the URIs of the [http] crate. *)
Class HostDeps := {
  registry_from_slice : bytes → result string IssuerRegistry;
  access_keys_from_slice : bytes → result string (list SigV4AccessKeyRecord);
  socket_addr : Type;
  parse_socket_addr : string → result string socket_addr;
  socket_port : socket_addr → Z;
  bind_endpoint : socket_addr → result string socket_addr;
  bind_listener : socket_addr → result string unit;
  self_signed_config : string → result string bytes;
  uri : Type;
  parse_uri : string → option uri;
  (** The host of the authority, if the URI has one. *)
  uri_host : uri → option string;
  (** The URI with another authority, as text, if that is a valid URI. *)
  uri_with_authority : uri → string → option string;
}.

(** The errors [main] can end with, behind a [Box<dyn Error>], and a panic. *)
Inductive StartError :=
| ApiFailure (error : ApiError)
| CryptoFailure (error : CryptoError)
| TextFailure (message : string)
| Panicked (message : string).

(** ** Secrets and numbers from the environment *)

Definition hex_value (c : ascii) : option Z :=
  if in_range 48 57 c then Some (byte_val c - 48)
  else if in_range 97 102 c then Some (byte_val c - 87)
  else if in_range 65 70 c then Some (byte_val c - 55)
  else None.
(** [u8::from_str_radix(s, 16)]: an optional plus sign, then at least one digit. *)
Fixpoint hex_digits_u8 (s : string) (acc : Z) : option Z :=
  match s with
  | EmptyString => Some acc
  | String c s' =>
      d ← hex_value c;
      if acc * 16 + d <=? 255 then hex_digits_u8 s' (acc * 16 + d) else None
  end.
Definition u8_from_hex (s : string) : option Z :=
  match s with
  | EmptyString => None
  | String "+" EmptyString => None
  | String "+" s' => hex_digits_u8 s' 0
  | _ => hex_digits_u8 s 0
  end.

(** [Err] is the panic of a slice that cuts a character. *)
Fixpoint hex_slots (count index : nat) (value : string) : result StartError (option bytes) :=
  match count with
  | O => Ok (Some [])
  | S n =>
      digits ← ok_or (str_slice (index * 2) (index * 2 + 2) value)
                 (Panicked "byte index is not a char boundary");
      match u8_from_hex digits with
      | None => Ok None
      | Some b =>
          rest ← hex_slots n (S index) value;
          Ok (match rest with Some l => Some (byte_of b :: l) | None => None end)
      end
  end.
Definition parse_hex_32 (value : string) : result StartError (option bytes) :=
  if negb (str_len value =? 64) then Ok None else hex_slots 32 0 value.

(** [u16::from_str]. *)
Definition parse_u16 (s : string) : option Z :=
  n ← parse_u64 s; if n <=? 65535 then Some n else None.

Section environment.
Variable env : gmap string string.

Definition env_or (name fallback : string) : string := default fallback (env !! name).
Definition env_u64 (name : string) (fallback : Z) : Z :=
  default fallback (value ← env !! name; parse_u64 value).

Definition aws_kms_config_from_env : option AwsKmsProviderConfig :=
  key_alias ← env !! "HSP_AWS_KMS_KEY_ALIAS";
  let region := env_or "HSP_AWS_KMS_REGION" "us-east-1" in
  let workload_identity_required :=
    match env !! "HSP_AWS_WORKLOAD_IDENTITY_REQUIRED" with
    | Some value => eq_ignore_ascii_case value "true" || String.eqb value "1"
    | None => true
    end in
  Some (mkAwsKmsProviderConfig key_alias region workload_identity_required).

Definition namespace_signing_seed : result StartError bytes :=
  value ← ok_or (env !! "HSP_DISTRIBUTION_SIGNING_SEED")
            (TextFailure "HSP_DISTRIBUTION_SIGNING_SEED must be configured explicitly");
  seed ← parse_hex_32 value;
  ok_or seed (TextFailure "HSP_DISTRIBUTION_SIGNING_SEED must be a 64-character hex string").
Definition runtime_secret (name : string) (rejected : list string) : result StartError bytes :=
  map_err CryptoFailure (required_runtime_secret_from_env env name rejected).
End environment.

(** ** Configurations *)

(** [AlphaConfig] with the two fields that select the store. *)
Record AlphaSettings := mkAlphaSettings {
  as_config : AlphaConfig;
  as_root_dir : string;
  as_storage_backend : StorageBackendConfig;
}.
Section configs.
Context `{HostDeps}.
Record NativeBetaConfig := mkNativeBetaConfig {
  nb_bind_addr : socket_addr;
  nb_authority : string;
  nb_gateway_base_url : string;
  nb_root_dir : string;
  nb_issuer_registry_path : string;
  nb_server_instance_id : string;
  nb_kms_seed : bytes;
}.
Record GatewayBetaConfig := mkGatewayBetaConfig {
  gb_bind_addr : socket_addr;
  gb_authority : string;
  gb_gateway_base_url : string;
  gb_root_dir : string;
  gb_issuer_registry_path : string;
  gb_server_instance_id : string;
  gb_native_port : Z;
  gb_kms_seed : bytes;
}.
(** The fields [CdnServerConfig] and [S3ServerConfig] have in common. *)
Record EdgeServerConfig := mkEdgeServerConfig {
  ec_bind_addr : socket_addr;
  ec_authority : string;
  ec_gateway_base_url : string;
  ec_root_dir : string;
  ec_server_instance_id : string;
  ec_capability_audience : string;
  ec_immutable_cid_ttl_sec : Z;
  ec_namespace_ttl_sec : Z;
  ec_issuer_registry_path : string;
  ec_namespace_signing_seed : bytes;
  ec_namespace_signing_key_id : string;
  ec_edge_signing_secret : bytes;
  ec_kms_seed : bytes;
  ec_aws_kms : option AwsKmsProviderConfig;
}.
Record S3ServerConfig := mkS3ServerConfig {
  sg_edge : EdgeServerConfig;
  sg_storage_backend : StorageBackendConfig;
  sg_virtual_host_suffix : option string;
  sg_sigv4_access_keys : list SigV4AccessKeyRecord;
}.
End configs.

(** The handle of a QUIC server, with the state its tasks share and its store. *)
Record QuicHandle `{S3ClientDeps} `{HostDeps} (State : Type) := mkQuicHandle {
  qh_state : State;
  qh_store : StoreBackendKind;
  qh_local_addr : socket_addr;
  qh_certificate_der : bytes;
}.
Arguments mkQuicHandle {_ _ State}.
Arguments qh_state {_ _ State}.
Arguments qh_store {_ _ State}.
Arguments qh_local_addr {_ _ State}.
Arguments qh_certificate_der {_ _ State}.

(** ** The machine *)

Section startup.
Context `{DistDeps} `{S3ClientDeps} `{AwsCli} `{DebugText} `{HostDeps}.
(** The environment; the faults of each disk and whether its root directory exists,
    by operation; the clock of the S3 client. *)
Context (env : gmap string string) (faults : string → nat → option (FaultPoint * string))
  (root_exists : string → nat → bool) (now : nat → Z).

Record Machine := mkMachine {
  mc_disks : gmap string FsState;
  mc_s3 : S3StoreState;
  mc_draws : nat;
  mc_ticks : nat;
}.
Definition disk_at (root_dir : string) (m : Machine) : FsState :=
  default (mkFsState ∅ 0) (mc_disks m !! root_dir).
Definition set_disk (root_dir : string) (s : FsState) (m : Machine) : Machine :=
  mkMachine (<[root_dir := s]> (mc_disks m)) (mc_s3 m) (mc_draws m) (mc_ticks m).
Definition set_s3 (s : S3StoreState) (m : Machine) : Machine :=
  mkMachine (mc_disks m) s (mc_draws m) (mc_ticks m).

(** [StoreBackend]: the operations of the kind that was selected. *)
Definition store_backend (kind : StoreBackendKind) : Backend :=
  match kind with
  | FilesystemKind root_dir => fs_backend (faults root_dir)
  | S3Kind store => s3_backend now store
  end.
Definition store_of (kind : StoreBackendKind) (m : Machine) : bstate (store_backend kind) :=
  match kind with FilesystemKind root_dir => disk_at root_dir m | S3Kind _ => mc_s3 m end.
Definition put_store (kind : StoreBackendKind) : bstate (store_backend kind) → Machine → Machine :=
  match kind with FilesystemKind root_dir => set_disk root_dir | S3Kind _ => set_s3 end.

(** [create_dir_all] per kind of record; directories are not part of the state. *)
Fixpoint fs_ensure_store_roots (root_dir : string) (kinds : list string)
  : ST FsState ApiError unit := λ s,
  match kinds with
  | [] => (Ok tt, s)
  | _ :: rest =>
      match faults root_dir (fs_ops s) with
      | Some (_, error) => (Err (mkdir_error error), fs_next s (fs_files s))
      | None => fs_ensure_store_roots root_dir rest (fs_next s (fs_files s))
      end
  end.
Definition fs_ready (root_dir : string) (s : FsState) : bool * FsState :=
  (root_exists root_dir (fs_ops s), fs_next s (fs_files s)).

Definition ensure_store_roots (kind : StoreBackendKind) (kinds : list string)
  : ST (bstate (store_backend kind)) ApiError unit :=
  match kind with
  | FilesystemKind root_dir => fs_ensure_store_roots root_dir kinds
  | S3Kind store => s3_ensure_store_roots now store
  end.
Definition ready (kind : StoreBackendKind) : bstate (store_backend kind) → bool * bstate (store_backend kind) :=
  match kind with
  | FilesystemKind root_dir => fs_ready root_dir
  | S3Kind store => s3_ready now store
  end.

(** The world of a service that was just built on the store of [kind]. *)
Definition start_world (kind : StoreBackendKind) (m : Machine) : World (store_backend kind) :=
  mkWorld (store_of kind m) (mc_draws m) (mc_ticks m) ∅ ∅ [].

(** ** Construction of the services *)

Definition load_issuer_registry (path : string) : result ApiError IssuerRegistry :=
  b ← map_err (mkApiError CatPolicy "issuer_registry_read_failed") (read_file path);
  map_err (mkApiError CatPolicy "issuer_registry_invalid") (registry_from_slice b).

(** [AlphaService::new], with the store it was built on. *)
Definition alpha_service_new (config : AlphaSettings) (kms : LocalDevKms)
  : ST Machine ApiError (StoreBackendKind * AlphaService) :=
  kind ← lift_result (from_config (as_root_dir config) (as_storage_backend config));
  _ ← zoom (store_of kind) (put_store kind) (ensure_store_roots kind store_kinds);
  mret (kind, mkAlphaService (as_config config) kms None).
Definition with_issuer_registry (registry : IssuerRegistry) (sv : AlphaService) : AlphaService :=
  mkAlphaService (sv_config sv) (sv_kms sv) (Some registry).

Definition alpha_service_with_kms_seed (root_dir : string) (kms_seed : bytes)
  : ST Machine ApiError (StoreBackendKind * AlphaService) :=
  kms ← lift_result (map_err (λ error, crypto_error_to_api error "failed to initialize configured KMS")
          (from_seed kms_seed));
  alpha_service_new
    (mkAlphaSettings (mkAlphaConfig "localhost" "https://localhost/v1/" 443 "hsp-alpha-dev")
       root_dir FilesystemConfig) kms.
Definition default_alpha_service (root_dir : string)
  : ST Machine ApiError (StoreBackendKind * AlphaService) :=
  seed ← lift_result (map_err (λ error, crypto_error_to_api error
           "HSP_KMS_SEED must be configured for alpha service KMS")
           (required_runtime_secret_from_env env "HSP_KMS_SEED" DEFAULT_KMS_SEED_LITERALS));
  alpha_service_with_kms_seed root_dir seed.

Definition store_kms_of (aws_kms : option AwsKmsProviderConfig) (kms : LocalDevKms)
  : result ApiError KmsProvider :=
  match aws_kms with
  | Some aws =>
      provider ← map_err (λ error, crypto_error_to_api error "failed to initialize AWS KMS adapter")
                   (with_local_fallback env aws kms);
      Ok (aws_provider provider)
  | None => Ok (local_provider kms)
  end.

(** [DistributionService::new]; [root_dir] and [storage_backend] are those of its
    [alpha] settings. *)
Definition distribution_service_new (config : DistributionConfig) (root_dir : string)
  (storage_backend : StorageBackendConfig) (kms : LocalDevKms) (registry : IssuerRegistry)
  (signing_key : bytes) (signing_key_id : string) (edge_signing_secret : bytes)
  : ST Machine ApiError (StoreBackendKind * DistributionService) :=
  _ ← lift_result (validate_edge_signing_secret edge_signing_secret);
  if bool_decide (resolve_key_id registry (as_bytes signing_key_id) = None) then
    throw (mkApiError CatPolicy "distribution_signer_missing_from_registry"
             "distribution namespace signer is not trusted by the issuer registry")
  else
  kind ← lift_result (from_config root_dir storage_backend);
  '(_, alpha) ← alpha_service_new (mkAlphaSettings (dc_alpha config) root_dir storage_backend) kms;
  store_kms ← lift_result (store_kms_of (dc_aws_kms config) kms);
  _ ← zoom (store_of kind) (put_store kind) (ensure_store_roots kind dist_store_kinds);
  mret (kind, mkDistributionService config (with_issuer_registry registry alpha) kms store_kms
                registry signing_key signing_key_id edge_signing_secret).

(** [build_distribution_service] of both servers, without the access keys. *)
Definition edge_distribution_service (config : EdgeServerConfig)
  (storage_backend : StorageBackendConfig)
  : ST Machine ApiError (StoreBackendKind * DistributionService) :=
  registry ← lift_result (load_issuer_registry (ec_issuer_registry_path config));
  kms ← lift_result (map_err (λ error, crypto_error_to_api error "failed to initialize KMS")
          (from_seed (ec_kms_seed config)));
  distribution_service_new
    (mkDistributionConfig
       (mkAlphaConfig (ec_authority config) (ec_gateway_base_url config) 443
          (ec_server_instance_id config))
       (ec_capability_audience config) (ec_immutable_cid_ttl_sec config)
       (ec_namespace_ttl_sec config) false (ec_aws_kms config))
    (ec_root_dir config) storage_backend kms registry (ec_namespace_signing_seed config)
    (ec_namespace_signing_key_id config) (ec_edge_signing_secret config).

(** Run an operation of a service that was just built: it changes the store and draws
    randomness and time. *)
Definition on_start_world {E A} (kind : StoreBackendKind) (op : ST (World (store_backend kind)) E A)
  : ST Machine E A := λ m,
  let '(r, w) := op (start_world kind m) in
  let m' := put_store kind (w_store w) m in
  (r, mkMachine (mc_disks m') (mc_s3 m') (w_draws w) (w_ticks w)).

Fixpoint register_access_keys {B : Backend} (ds : DistributionService)
  (records : list SigV4AccessKeyRecord) : ST (World B) ApiError unit :=
  match records with
  | [] => mret tt
  | record :: rest =>
      _ ← register_sigv4_access_key ds record;
      register_access_keys ds rest
  end.

(** [build_distribution_service] of the S3 server. *)
Definition s3_distribution_service (config : S3ServerConfig)
  : ST Machine ApiError (StoreBackendKind * DistributionService) :=
  '(kind, service) ← edge_distribution_service (sg_edge config) (sg_storage_backend config);
  _ ← on_start_world kind (register_access_keys service (sg_sigv4_access_keys config));
  mret (kind, service).

(** ** The servers *)

Definition spawn_native_beta_server (config : NativeBetaConfig)
  : ST Machine StartError (QuicHandle NativeState) :=
  registry ← lift_result (map_err ApiFailure (load_issuer_registry (nb_issuer_registry_path config)));
  certificate_der ← lift_result (map_err TextFailure (self_signed_config (nb_authority config)));
  local_addr ← lift_result (map_err TextFailure (bind_endpoint (nb_bind_addr config)));
  kms ← lift_result (map_err ApiFailure (native_runtime_kms (nb_kms_seed config)));
  '(kind, service) ← map_error ApiFailure (alpha_service_new
    (mkAlphaSettings
       (mkAlphaConfig (nb_authority config) (nb_gateway_base_url config) (socket_port local_addr)
          (nb_server_instance_id config))
       (nb_root_dir config) FilesystemConfig) kms);
  mret (mkQuicHandle (mkNativeState (with_issuer_registry registry service) registry) kind
          local_addr certificate_der).

Definition resolved_gateway_base_url (base_url : string) (local_port : Z) : string :=
  default base_url
    (u ← parse_uri base_url;
     host ← uri_host u;
     uri_with_authority u
       (if str_contains_char ":"%char host && negb (starts_with host "[")
        then "[" +:+ host +:+ "]:" +:+ dec local_port
        else host +:+ ":" +:+ dec local_port)).

Definition spawn_gateway_beta_server (config : GatewayBetaConfig)
  : ST Machine StartError (QuicHandle GatewayState) :=
  registry ← lift_result (map_err ApiFailure (load_issuer_registry (gb_issuer_registry_path config)));
  certificate_der ← lift_result (map_err TextFailure (self_signed_config (gb_authority config)));
  local_addr ← lift_result (map_err TextFailure (bind_endpoint (gb_bind_addr config)));
  let gateway_base_url :=
    if socket_port (gb_bind_addr config) =? 0
    then resolved_gateway_base_url (gb_gateway_base_url config) (socket_port local_addr)
    else gb_gateway_base_url config in
  kms ← lift_result (map_err ApiFailure (gateway_runtime_kms (gb_kms_seed config)));
  '(kind, service) ← map_error ApiFailure (alpha_service_new
    (mkAlphaSettings
       (mkAlphaConfig (gb_authority config) gateway_base_url (gb_native_port config)
          (gb_server_instance_id config))
       (gb_root_dir config) FilesystemConfig) kms);
  mret (mkQuicHandle (mkGatewayState (with_issuer_registry registry service) registry) kind
          local_addr certificate_der).

(** Up to [axum::serve], with the store. *)
Definition run_s3_server (config : S3ServerConfig)
  : ST Machine StartError (StoreBackendKind * S3State) :=
  '(kind, service) ← map_error ApiFailure (s3_distribution_service config);
  _ ← lift_result (map_err TextFailure (bind_listener (ec_bind_addr (sg_edge config))));
  mret (kind, mkS3State service (sg_virtual_host_suffix config)).
(** The cache starts empty. *)
Definition run_cdn_server (config : EdgeServerConfig)
  : ST Machine StartError (StoreBackendKind * Cdn) :=
  '(kind, service) ← map_error ApiFailure (edge_distribution_service config FilesystemConfig);
  _ ← lift_result (map_err TextFailure (bind_listener (ec_bind_addr config)));
  mret (kind, mkCdn service (ec_immutable_cid_ttl_sec config) (ec_namespace_ttl_sec config)).

(** ** The programs *)

Inductive Report :=
| BootstrapReport (document : BootstrapDocument)
| ReadinessReported (report : ReadinessReport)
| InfoReport (response : InfoResponse).
Inductive Outcome :=
| ServingNative (handle : QuicHandle NativeState)
| ServingGateway (handle : QuicHandle GatewayState)
| ServingS3 (kind : StoreBackendKind) (state : S3State)
| ServingCdn (kind : StoreBackendKind) (cdn : Cdn)
| Printed (report : Report).

(** An address from the environment, or the default, which must parse. *)
Definition addr_or (name fallback message : string) : result StartError socket_addr :=
  match value ← env !! name; result_ok (parse_socket_addr value) with
  | Some addr => Ok addr
  | None => map_err (λ _, Panicked message) (parse_socket_addr fallback)
  end.
Definition print_readiness (kind : StoreBackendKind) : ST Machine StartError Outcome := λ m,
  let '(is_ready, s) := ready kind (store_of kind m) in
  (Ok (Printed (ReadinessReported (readiness is_ready))), put_store kind s m).

Definition hspd_serve : ST Machine StartError Outcome :=
  bind_addr ← lift_result (addr_or "HSP_BIND_ADDR" "127.0.0.1:9443" "invalid default bind address");
  kms_seed ← lift_result (runtime_secret env "HSP_KMS_SEED" DEFAULT_KMS_SEED_LITERALS);
  handle ← spawn_native_beta_server
    {| nb_bind_addr := bind_addr;
       nb_authority := env_or env "HSP_AUTHORITY" "localhost";
       nb_gateway_base_url := env_or env "HSP_GATEWAY_BASE_URL" "https://localhost/v1/";
       nb_root_dir := env_or env "HSP_ALPHA_ROOT" ".hsp-alpha";
       nb_issuer_registry_path := env_or env "HSP_ISSUER_REGISTRY" ".hsp-alpha/issuer-registry.json";
       nb_server_instance_id := env_or env "HSP_SERVER_INSTANCE_ID" "hsp-native-beta";
       nb_kms_seed := kms_seed |};
  mret (ServingNative handle).
Definition hspd_main (args : list string) : ST Machine StartError Outcome :=
  let root := env_or env "HSP_ALPHA_ROOT" ".hsp-alpha" in
  let command := default "info" (args !! 1%nat) in
  '(kind, service) ← map_error ApiFailure (default_alpha_service root);
  if String.eqb command "serve" then hspd_serve
  else if String.eqb command "bootstrap" then
    mret (Printed (BootstrapReport (bootstrap_document service)))
  else if String.eqb command "readiness" then print_readiness kind
  else mret (Printed (InfoReport info)).

Definition gw_serve : ST Machine StartError Outcome :=
  bind_addr ← lift_result (addr_or "HSP_GW_BIND_ADDR" "127.0.0.1:9444" "invalid default gateway bind");
  kms_seed ← lift_result (runtime_secret env "HSP_KMS_SEED" DEFAULT_KMS_SEED_LITERALS);
  handle ← spawn_gateway_beta_server
    {| gb_bind_addr := bind_addr;
       gb_authority := env_or env "HSP_AUTHORITY" "localhost";
       gb_gateway_base_url := env_or env "HSP_GATEWAY_BASE_URL" "https://localhost/v1/";
       gb_root_dir := env_or env "HSP_ALPHA_ROOT" ".hsp-alpha";
       gb_issuer_registry_path := env_or env "HSP_ISSUER_REGISTRY" ".hsp-alpha/issuer-registry.json";
       gb_server_instance_id := env_or env "HSP_SERVER_INSTANCE_ID" "hsp-gateway-beta";
       gb_native_port := default 9443 (value ← env !! "HSP_NATIVE_PORT"; parse_u16 value);
       gb_kms_seed := kms_seed |};
  mret (ServingGateway handle).
Definition gw_main (args : list string) : ST Machine StartError Outcome :=
  let root := env_or env "HSP_ALPHA_ROOT" ".hsp-alpha" in
  let command := default "bootstrap" (args !! 1%nat) in
  '(kind, service) ← map_error ApiFailure (default_alpha_service root);
  if String.eqb command "serve" then gw_serve
  else if String.eqb command "info" then mret (Printed (InfoReport info))
  else if String.eqb command "readiness" then print_readiness kind
  else mret (Printed (BootstrapReport (bootstrap_document service))).

(** The configuration both edge servers read, after their address and signing seed. *)
Definition edge_config (bind_addr : socket_addr) (seed edge_secret kms_seed : bytes)
  (instance audience : string) : EdgeServerConfig :=
  {| ec_bind_addr := bind_addr;
     ec_authority := env_or env "HSP_AUTHORITY" "localhost";
     ec_gateway_base_url := env_or env "HSP_GATEWAY_BASE_URL" "https://localhost";
     ec_root_dir := env_or env "HSP_ROOT_DIR" "./.hsp-data";
     ec_server_instance_id := env_or env "HSP_SERVER_INSTANCE_ID" instance;
     ec_capability_audience := env_or env "HSP_CAPABILITY_AUDIENCE" audience;
     ec_immutable_cid_ttl_sec := env_u64 env "HSP_IMMUTABLE_CID_TTL_SEC" 3600;
     ec_namespace_ttl_sec := env_u64 env "HSP_NAMESPACE_TTL_SEC" 5;
     ec_issuer_registry_path := env_or env "HSP_ISSUER_REGISTRY" "./deploy/issuer-registry.dev.json";
     ec_namespace_signing_seed := seed;
     ec_namespace_signing_key_id := env_or env "HSP_DISTRIBUTION_SIGNING_KEY_ID" "dist-key";
     ec_edge_signing_secret := edge_secret;
     ec_kms_seed := kms_seed;
     ec_aws_kms := aws_kms_config_from_env env |}.

Definition cdn_main : ST Machine StartError Outcome :=
  bind_addr ← lift_result (map_err TextFailure
    (parse_socket_addr (env_or env "HSP_CDN_BIND" "127.0.0.1:8082")));
  seed ← lift_result (namespace_signing_seed env);
  edge_secret ← lift_result (runtime_secret env "HSP_EDGE_SIGNING_SECRET" DEFAULT_EDGE_SIGNING_SECRET_LITERALS);
  kms_seed ← lift_result (runtime_secret env "HSP_KMS_SEED" DEFAULT_KMS_SEED_LITERALS);
  '(kind, cdn) ← run_cdn_server (edge_config bind_addr seed edge_secret kms_seed "hsp-cdn-dev" "hsp-cdn");
  mret (ServingCdn kind cdn).

Definition configured_access_keys : result StartError (list SigV4AccessKeyRecord) :=
  match env !! "HSP_SIGV4_ACCESS_KEYS" with
  | None => Ok []
  | Some path =>
      b ← map_err TextFailure (read_file path);
      map_err TextFailure (access_keys_from_slice b)
  end.
Definition s3_main : ST Machine StartError Outcome :=
  bind_addr ← lift_result (map_err TextFailure
    (parse_socket_addr (env_or env "HSP_S3_BIND" "127.0.0.1:8081")));
  seed ← lift_result (namespace_signing_seed env);
  access_keys ← lift_result configured_access_keys;
  storage_backend ← lift_result (map_err ApiFailure (storage_backend_config_from_env (λ name, env !! name)));
  edge_secret ← lift_result (runtime_secret env "HSP_EDGE_SIGNING_SECRET" DEFAULT_EDGE_SIGNING_SECRET_LITERALS);
  kms_seed ← lift_result (runtime_secret env "HSP_KMS_SEED" DEFAULT_KMS_SEED_LITERALS);
  '(kind, state) ← run_s3_server
    (mkS3ServerConfig (edge_config bind_addr seed edge_secret kms_seed "hsp-s3-dev" "hsp-s3")
       storage_backend (env !! "HSP_S3_VHOST_SUFFIX") access_keys);
  mret (ServingS3 kind state).

Inductive Program := Hspd | HspGw | HspS3 | HspCdn.
Definition run_program (program : Program) (args : list string) : ST Machine StartError Outcome :=
  match program with
  | Hspd => hspd_main args
  | HspGw => gw_main args
  | HspS3 => s3_main
  | HspCdn => cdn_main
  end.
End startup.
