(* ===== verification/StartupProps.v ===== *)
(** * Claims about start-up

    What holds of a service that a program has started: its secrets are those of the
    environment and strong, its signer is in the registry, and starting it changed no
    stored record but the access keys it was told to register.  A restarted server is
    the one that was stopped, so what the durable records promise holds across
    restarts. *)

From Stdlib Require Import ZArith Lia Ascii String Bool.
From stdpp Require Import base option list strings gmap numbers.
From S2P Require Import Prelude RustStr Core Cbor Concrete Auth Crypto CryptoProps Store ServiceState ServiceFacts Access ConcreteService AccessProps Observability AmzDate Distribution Buckets SigV4 DistFacts ConcreteDist S3 Cdn Native Gateway S3Client Startup.

(** ** Trimming twice *)

Lemma strip_bytes_length p b r : strip_bytes p b = Some r → length b = (length p + length r)%nat.
Proof.
  revert b. induction p as [|z p IH]; intros b; cbn; [by intros [= <-]|].
  destruct b as [|c b]; [done|]. destruct (_ =? _); [|done]. intros H. cbn. by rewrite (IH _ H).
Qed.
Lemma strip_any_length ps b r :
  Forall (λ p, p ≠ []) ps → strip_any ps b = Some r → (length r < length b)%nat.
Proof.
  induction 1 as [|p ps Hp _ IH]; cbn; [done|].
  destruct (strip_bytes p b) as [r'|] eqn:E; [|done]. intros [= <-].
  apply strip_bytes_length in E. destruct p; [done|]. cbn in E. lia.
Qed.
Lemma strip_all_stops ps fuel b :
  Forall (λ p, p ≠ []) ps → (length b <= fuel)%nat → strip_any ps (strip_all fuel ps b) = None.
Proof.
  intros Hps. revert b. induction fuel as [|f IH]; intros b Hf; cbn.
  - destruct b; [|cbn in Hf; lia]. clear Hf. induction Hps as [|p ps Hp _ IH]; [done|].
    cbn. destruct p; [done|]. done.
  - destruct (strip_any ps b) as [r|] eqn:E; [|done]. apply IH.
    apply strip_any_length in E; [lia|done].
Qed.
Lemma strip_all_done ps fuel b : strip_any ps b = None → strip_all fuel ps b = b.
Proof. intros H. destruct fuel; cbn; [done|]. by rewrite H. Qed.
Lemma strip_bytes_app p b c r : strip_bytes p b = Some r → strip_bytes p (b ++ c) = Some (r ++ c).
Proof.
  revert b. induction p as [|z p IH]; intros b; cbn; [by intros [= <-]|].
  destruct b as [|x b]; [done|]. cbn. destruct (_ =? _); [apply IH|done].
Qed.
Lemma strip_any_prefix ps b c : strip_any ps (b ++ c) = None → strip_any ps b = None.
Proof.
  induction ps as [|p ps IH]; cbn; [done|].
  destruct (strip_bytes p b) as [r|] eqn:E; [by rewrite (strip_bytes_app _ _ c _ E)|].
  destruct (strip_bytes p (b ++ c)); [done|apply IH].
Qed.
Lemma strip_all_suffix ps fuel b : ∃ a, b = a ++ strip_all fuel ps b.
Proof.
  revert b. induction fuel as [|f IH]; intros b; cbn; [by exists []|].
  destruct (strip_any ps b) as [r|] eqn:E; [|by exists []].
  assert (∃ a, b = a ++ r) as [a ->].
  { clear IH. induction ps as [|p ps IHp]; [done|]. cbn in E.
    destruct (strip_bytes p b) as [r'|] eqn:Ep; [|by apply IHp]. injection E as ->.
    clear IHp. revert b Ep. induction p as [|z p IHq]; intros b; cbn.
    - intros [= ->]. by exists [].
    - destruct b as [|x b]; [done|]. destruct (_ =? _); [|done].
      intros H%IHq. destruct H as [a ->]. by exists (x :: a). }
  destruct (IH r) as [a' Ha']. exists (a ++ a'). by rewrite <-app_assoc, <-Ha'.
Qed.

Lemma white_space_non_empty : Forall (λ p, p ≠ []) white_space_utf8.
Proof. by apply (bool_decide_unpack _). Qed.
Lemma white_space_rev_non_empty : Forall (λ p, p ≠ []) (map (@rev Z) white_space_utf8).
Proof. by apply (bool_decide_unpack _). Qed.

Lemma trim_trim s : trim (trim s) = trim s.
Proof.
  unfold trim. set (a := trim_start s).
  assert (Ha : strip_any white_space_utf8 (as_bytes a) = None).
  { unfold a, trim_start. rewrite as_of_bytes. apply strip_all_stops; [apply white_space_non_empty|].
    by rewrite length_as_bytes. }
  set (b := trim_end a).
  set (tail := strip_all (String.length a) (map (@rev Z) white_space_utf8) (rev (as_bytes a))).
  assert (Hb : as_bytes b = rev tail) by (unfold b, trim_end; by rewrite as_of_bytes).
  assert (Hstart : trim_start b = b).
  { unfold trim_start. rewrite strip_all_done; [apply of_as_bytes|].
    destruct (strip_all_suffix (map (@rev Z) white_space_utf8) (String.length a) (rev (as_bytes a)))
      as [pre Hpre]. fold tail in Hpre. apply (f_equal (@rev ascii)) in Hpre.
    rewrite rev_involutive, rev_app_distr, <-Hb in Hpre. rewrite Hpre in Ha.
    by apply strip_any_prefix in Ha. }
  rewrite Hstart. unfold trim_end at 1. rewrite Hb, rev_involutive, strip_all_done.
  - rewrite <-Hb. apply of_as_bytes.
  - apply strip_all_stops; [apply white_space_rev_non_empty|]. by rewrite length_rev, length_as_bytes.
Qed.

(** ** The signing seed *)

Lemma in_range_of lo hi n :
  0 <= n < 256 → in_range lo hi (byte_of n) = bool_decide (lo <= n <= hi).
Proof.
  intros Hn. unfold in_range. rewrite byte_val_of_small by lia.
  destruct (bool_decide_reflect (lo <= n <= hi)) as [[H1 H2]|Hno].
  - by rewrite !(proj2 (Z.leb_le _ _)) by lia.
  - apply andb_false_iff. rewrite !Z.leb_gt. lia.
Qed.
Lemma hex_value_digit n : 0 <= n < 16 → hex_value (hex_digit n) = Some n.
Proof.
  intros Hn. unfold hex_digit, hex_value. destruct (Z.ltb_spec n 10); rewrite !in_range_of by lia.
  - rewrite bool_decide_true by lia. rewrite byte_val_of_small by lia. f_equal. lia.
  - rewrite bool_decide_false, bool_decide_true by lia. rewrite byte_val_of_small by lia. f_equal. lia.
Qed.
Lemma hex_digit_not_plus n : 0 <= n < 16 → hex_digit n ≠ "+"%char.
Proof. intros Hn He. pose proof (hex_value_digit n Hn) as H. by rewrite He in H. Qed.
Lemma u8_from_hex_digit c s :
  c ≠ "+"%char → u8_from_hex (String c s) = hex_digits_u8 (String c s) 0.
Proof. intros Hc. destruct c as [[] [] [] [] [] [] [] []]; done. Qed.
Lemma u8_from_hex_byte c : u8_from_hex (hex_byte c) = Some (byte_val c).
Proof.
  pose proof (byte_val_range c).
  assert (0 <= byte_val c / 16 < 16) as Hq.
  { split; [apply Z.div_pos; lia|apply Z.div_lt_upper_bound; lia]. }
  pose proof (Z.mod_pos_bound (byte_val c) 16 eq_refl) as Hr.
  pose proof (Z.div_mod (byte_val c) 16).
  unfold hex_byte. rewrite u8_from_hex_digit by (by apply hex_digit_not_plus).
  cbn [hex_digits_u8]. rewrite !hex_value_digit by done. cbn -[Z.mul Z.div Z.modulo].
  rewrite (proj2 (Z.leb_le _ _)) by lia. rewrite (proj2 (Z.leb_le _ _)) by lia. f_equal. lia.
Qed.

Lemma string_get_none i s : String.get i s = None → (String.length s <= i)%nat.
Proof.
  revert i. induction s as [|c s IH]; intros i; cbn; [lia|]. destruct i; [done|].
  intros H%IH. lia.
Qed.
(** A slice of a digest in hexadecimal. *)
Lemma hex_char_ascii s i c : String.get i (hex_lower s) = Some c → in_range 128 191 c = false.
Proof.
  revert i. induction s as [|b s IH]; intros i; [done|]. cbn [hex_lower]. unfold hex_byte.
  pose proof (byte_val_range b). pose proof (Z.mod_pos_bound (byte_val b) 16 eq_refl).
  assert (0 <= byte_val b / 16 < 16) as Hq.
  { split; [apply Z.div_pos; lia|apply Z.div_lt_upper_bound; lia]. }
  assert (Hd : ∀ n, 0 <= n < 16 → in_range 128 191 (hex_digit n) = false).
  { intros n Hn. unfold hex_digit. destruct (Z.ltb_spec n 10); rewrite in_range_of by lia;
      apply bool_decide_false; lia. }
  destruct i as [|[|i]]; cbn; [intros [= <-]; by apply Hd..|apply IH].
Qed.
Lemma length_hex_lower b : String.length (hex_lower b) = (length b * 2)%nat.
Proof.
  induction b as [|x b IH]; [done|].
  change (S (S (String.length (hex_lower b))) = S (S (length b * 2))). by rewrite IH.
Qed.
Lemma hex_slice l c r :
  str_slice (length l * 2) (length l * 2 + 2) (hex_lower (l ++ c :: r)) = Some (hex_byte c).
Proof.
  unfold str_slice.
  assert (Hb : ∀ i, (i <= String.length (hex_lower (l ++ c :: r)))%nat →
            is_char_boundary (hex_lower (l ++ c :: r)) i = true).
  { intros i Hi. unfold is_char_boundary. destruct (String.get i _) as [x|] eqn:E.
    - by rewrite (hex_char_ascii _ _ _ E).
    - apply string_get_none in E. apply Nat.eqb_eq. lia. }
  rewrite !Hb by (rewrite length_hex_lower, length_app; cbn; lia). cbn. f_equal.
  replace (length l * 2 + 2 - length l * 2)%nat with 2%nat by lia. clear Hb.
  induction l as [|x l IH]; [cbn; by destruct (hex_lower r)|]. cbn. exact IH.
Qed.
Lemma hex_slots_lower l r : hex_slots (length r) (length l) (hex_lower (l ++ r)) = Ok (Some r).
Proof.
  revert l. induction r as [|c r IH]; intros l; [done|].
  cbn [length hex_slots]. rewrite hex_slice. cbn -[hex_byte u8_from_hex hex_lower]. rewrite u8_from_hex_byte.
  specialize (IH (l ++ [c])). rewrite length_app, Nat.add_1_r, <-app_assoc in IH. cbn -[hex_lower] in IH.
  rewrite IH. cbn. by rewrite byte_of_val.
Qed.

(** The seed an operator writes in hexadecimal is the seed that is used. *)
Theorem parse_hex_32_roundtrip seed :
  length seed = 32%nat → parse_hex_32 (hex_lower seed) = Ok (Some seed).
Proof.
  intros Hlen. unfold parse_hex_32.
  assert (str_len (hex_lower seed) = 64) as ->.
  { unfold str_len. by rewrite length_hex_lower, Hlen. }
  cbn [Z.eqb Pos.eqb negb]. rewrite <-Hlen. apply (hex_slots_lower []).
Qed.

(** The parser accepts more than hexadecimal: each byte may have a plus sign in place
    of its first digit, so 64 characters with 32 digits are a seed as well. *)
Theorem parse_hex_32_accepts_signs :
  parse_hex_32 (join "" (replicate 32 "+f")) = Ok (Some (replicate 32 (byte_of 15))).
Proof. reflexivity. Qed.

(** ** Secrets *)

Lemma map_err_ok {E F A} (f : E → F) (r : result E A) a : map_err f r = Ok a ↔ r = Ok a.
Proof. destruct r; cbn; naive_solver. Qed.
Lemma map_error_ok {S E F A} (f : E → F) (m : ST S E A) s a s' :
  map_error f m s = (Ok a, s') ↔ m s = (Ok a, s').
Proof.
  unfold map_error, attempt. rewrite ST_bind_run. unfold lift_result.
  destruct (m s) as [[] ?]; cbn; split; intros Heq; by simplify_eq.
Qed.
Lemma lift_result_ok {S E A} (r : result E A) (s s' : S) a :
  lift_result r s = (Ok a, s') ↔ r = Ok a ∧ s' = s.
Proof. unfold lift_result. split; [by intros [= -> ->]|by intros [-> ->]]. Qed.

Section startup.
Context `{DL : DistDepsLaws} `{S3C : S3ClientDeps} `{AC : AwsCli} `{DT : DebugText} `{HD : HostDeps}.
Context (env : gmap string string) (faults : string → nat → option (FaultPoint * string))
  (root_exists : string → nat → bool) (now : nat → Z).

(** [std::env::var] returns only values that are valid Unicode. *)
Definition unicode_env : Prop := map_Forall (λ _ v, from_utf8 (as_bytes v) = Some v) env.

(** The secret is the trimmed value of the variable, of at least 32 bytes, and none of
    the rejected literals in any case. *)
Definition strong_secret (name : string) (rejected : list string) (secret : bytes) : Prop :=
  ∃ value, env !! name = Some value ∧ secret = as_bytes (trim value) ∧ 32 <= len_u64 secret ∧
    ∀ l, l ∈ rejected → eq_ignore_ascii_case (trim value) l = false.
(** The key service the seed of the environment gives. *)
Definition environment_kms (kms : LocalDevKms) : Prop :=
  ∃ seed, strong_secret "HSP_KMS_SEED" DEFAULT_KMS_SEED_LITERALS seed ∧
    kms = mkLocalDevKms (sha256 seed) 1.

Lemma required_secret_strong name rejected b :
  unicode_env → required_runtime_secret_from_env env name rejected = Ok b →
  strong_secret name rejected b.
Proof.
  intros Hu. unfold required_runtime_secret_from_env. intros (value&Hv&H)%ok_or_bind_ok.
  unfold validate_runtime_secret in H. apply validate_runtime_secret_bytes_spec in H as (Hb&Hlen&Hl).
  rewrite (Hu _ _ Hv) in Hb, Hl. by exists value.
Qed.
Lemma runtime_secret_strong name rejected b :
  unicode_env → runtime_secret env name rejected = Ok b → strong_secret name rejected b.
Proof. intros Hu H%map_err_ok. by apply required_secret_strong. Qed.

Lemma revalidated_secret name rejected name' rejected' b b' :
  strong_secret name rejected b → validate_runtime_secret_bytes name' b rejected' = Ok b' → b' = b.
Proof.
  intros (value&_&->&_) [Hb' _]%validate_runtime_secret_bytes_spec. rewrite Hb'.
  unfold from_utf8. destruct (utf8_valid _); [|done]. by rewrite of_as_bytes, trim_trim.
Qed.
Lemma from_seed_ok seed kms : from_seed seed = Ok kms → kms = mkLocalDevKms (sha256 seed) 1.
Proof. unfold from_seed. destruct seed; naive_solver. Qed.
Lemma runtime_kms_environment seed kms :
  strong_secret "HSP_KMS_SEED" DEFAULT_KMS_SEED_LITERALS seed →
  native_runtime_kms seed = Ok kms ∨ gateway_runtime_kms seed = Ok kms ∨ from_seed seed = Ok kms →
  environment_kms kms.
Proof.
  intros Hs Hk. exists seed. split; [done|].
  assert (∀ e1 e2, (seed ← map_err e1 (validate_runtime_secret_bytes "HSP_KMS_SEED" seed
            DEFAULT_KMS_SEED_LITERALS); map_err e2 (from_seed seed)) = (Ok kms : result ApiError _) →
          kms = mkLocalDevKms (sha256 seed) 1) as Hv.
  { intros e1 e2 (seed'&Hv&Hf)%result_bind_ok. apply map_err_ok in Hv, Hf.
    rewrite (revalidated_secret _ _ _ _ _ _ Hs Hv) in Hf. by apply from_seed_ok. }
  destruct Hk as [Hk|[Hk|Hk]]; [exact (Hv _ _ Hk)..|by apply from_seed_ok].
Qed.

(** ** The services that were built *)

(** Follow a successful run through the binds the goal shows. *)
Ltac run_ok H :=
  repeat (lazymatch type of H with
          | mbind _ _ _ = _ =>
              let s := fresh "m" in let x := fresh "x" in let Hx := fresh "Hx" in
              apply ST_bind_ok in H as (x & s & Hx & H);
              first [apply lift_result_ok in Hx as [Hx ->] | apply map_error_ok in Hx | idtac]
          end).

Lemma alpha_service_new_ok config kms m kind sv m' :
  alpha_service_new faults now config kms m = (Ok (kind, sv), m') →
  from_config (as_root_dir config) (as_storage_backend config) = Ok kind ∧
  sv = mkAlphaService (as_config config) kms None.
Proof.
  unfold alpha_service_new. intros Hr. run_ok Hr. by injection Hr as -> <- _.
Qed.

(** The service has the secrets of the environment, its signer is in the registry it
    trusts, and its stores are encrypted by the key service of the environment or by
    the AWS key service it was told to use. *)
Record EnvironmentService (ds : DistributionService) : Prop := {
  es_kms : environment_kms (ds_object_kms ds);
  es_alpha : ds_alpha ds = mkAlphaService (dc_alpha (ds_config ds)) (ds_object_kms ds)
                             (Some (ds_issuer_registry ds));
  es_registry : load_issuer_registry (env_or env "HSP_ISSUER_REGISTRY" "./deploy/issuer-registry.dev.json")
                = Ok (ds_issuer_registry ds);
  es_edge_secret : strong_secret "HSP_EDGE_SIGNING_SECRET" DEFAULT_EDGE_SIGNING_SECRET_LITERALS
                     (ds_edge_signing_secret ds);
  es_signing_key : ∃ value, env !! "HSP_DISTRIBUTION_SIGNING_SEED" = Some value ∧
    parse_hex_32 value = Ok (Some (ds_namespace_signing_key ds));
  es_signer : is_Some (resolve_key_id (ds_issuer_registry ds)
                         (as_bytes (ds_namespace_signing_key_id ds)));
  es_plaintext : dc_plaintext_profile_enabled (ds_config ds) = false;
  es_store_kms : match aws_kms_config_from_env env with
                 | None => ds_store_kms ds = local_provider (ds_object_kms ds)
                 | Some config => ∃ aws, with_local_fallback env config (ds_object_kms ds) = Ok aws ∧
                                    ds_store_kms ds = aws_provider aws
                 end;
}.

Lemma namespace_signing_seed_ok seed :
  namespace_signing_seed env = Ok seed →
  ∃ value, env !! "HSP_DISTRIBUTION_SIGNING_SEED" = Some value ∧ parse_hex_32 value = Ok (Some seed).
Proof.
  unfold namespace_signing_seed. intros (value&Hv&(o&Ho&H)%result_bind_ok)%ok_or_bind_ok.
  exists value. split; [done|]. destruct o; [|done]. by injection H as <-.
Qed.

Lemma distribution_service_new_ok config root backend kms registry key key_id secret m kind ds m' :
  distribution_service_new env faults now config root backend kms registry key key_id secret m
    = (Ok (kind, ds), m') →
  from_config root backend = Ok kind ∧ is_Some (resolve_key_id registry (as_bytes key_id)) ∧
  ∃ store_kms, store_kms_of env (dc_aws_kms config) kms = Ok store_kms ∧
    ds = mkDistributionService config (mkAlphaService (dc_alpha config) kms (Some registry)) kms
           store_kms registry key key_id secret.
Proof.
  unfold distribution_service_new. intros (u&m1&[Hs ->]%lift_result_ok&Hr)%ST_bind_ok.
  destruct (bool_decide_reflect (resolve_key_id registry (as_bytes key_id) = None)) as [|Hkey]; [done|].
  run_ok Hr. destruct x0 as [kind' alpha]. run_ok Hr. injection Hr as -> <- _.
  apply alpha_service_new_ok in Hx0 as [_ ->].
  split; [done|]. split; [by apply not_eq_None_Some|]. by exists x0.
Qed.

Lemma edge_service_ok bind_addr seed edge_secret kms_seed instance audience backend m kind ds m' :
  namespace_signing_seed env = Ok seed →
  strong_secret "HSP_EDGE_SIGNING_SECRET" DEFAULT_EDGE_SIGNING_SECRET_LITERALS edge_secret →
  strong_secret "HSP_KMS_SEED" DEFAULT_KMS_SEED_LITERALS kms_seed →
  edge_distribution_service env faults now
    (edge_config env bind_addr seed edge_secret kms_seed instance audience) backend m
    = (Ok (kind, ds), m') →
  EnvironmentService ds ∧
  from_config (env_or env "HSP_ROOT_DIR" "./.hsp-data") backend = Ok kind.
Proof.
  intros Hseed Hedge Hkms. unfold edge_distribution_service. intros Hr. run_ok Hr.
  apply map_err_ok in Hx0.
  apply distribution_service_new_ok in Hr as (Hkind&Hsigner&store_kms&Hstore&->). split; [|done].
  assert (environment_kms x0) by (apply (runtime_kms_environment kms_seed); eauto).
  split; cbn; [done..|by apply namespace_signing_seed_ok|done|done|].
  unfold store_kms_of in Hstore. cbn in Hstore.
  destruct (aws_kms_config_from_env env) as [aws|]; [|by injection Hstore].
  apply result_bind_ok in Hstore as (provider&Hp%map_err_ok&[= <-]). eauto.
Qed.

Definition trusted_outcome (o : Outcome) : Prop :=
  match o with
  | ServingNative h =>
      let sv := nv_service (qh_state h) in
      environment_kms (sv_kms sv) ∧ sv_issuer_registry sv = Some (nv_issuer_registry (qh_state h)) ∧
      load_issuer_registry (env_or env "HSP_ISSUER_REGISTRY" ".hsp-alpha/issuer-registry.json")
      = Ok (nv_issuer_registry (qh_state h)) ∧
      qh_store h = FilesystemKind (env_or env "HSP_ALPHA_ROOT" ".hsp-alpha")
  | ServingGateway h =>
      let sv := gw_service (qh_state h) in
      environment_kms (sv_kms sv) ∧ sv_issuer_registry sv = Some (gw_issuer_registry (qh_state h)) ∧
      load_issuer_registry (env_or env "HSP_ISSUER_REGISTRY" ".hsp-alpha/issuer-registry.json")
      = Ok (gw_issuer_registry (qh_state h)) ∧
      qh_store h = FilesystemKind (env_or env "HSP_ALPHA_ROOT" ".hsp-alpha")
  | ServingS3 kind s3 =>
      EnvironmentService (ss_service s3) ∧
      ∃ backend, storage_backend_config_from_env (λ name, env !! name) = Ok backend ∧
        from_config (env_or env "HSP_ROOT_DIR" "./.hsp-data") backend = Ok kind
  | ServingCdn kind cdn =>
      EnvironmentService (cd_service cdn) ∧
      kind = FilesystemKind (env_or env "HSP_ROOT_DIR" "./.hsp-data")
  | Printed _ => ∃ kms, environment_kms kms
  end.

Lemma default_alpha_service_ok root m kind sv m' :
  unicode_env → default_alpha_service env faults now root m = (Ok (kind, sv), m') →
  environment_kms (sv_kms sv) ∧ kind = FilesystemKind root.
Proof.
  intros Hu. unfold default_alpha_service, alpha_service_with_kms_seed. intros Hr. run_ok Hr.
  apply map_err_ok in Hx, Hx0. apply alpha_service_new_ok in Hr as [[= <-] ->].
  split; [|done]. eapply runtime_kms_environment; [by apply required_secret_strong|eauto].
Qed.

Lemma spawn_native_ok config m h m' :
  spawn_native_beta_server faults now config m = (Ok h, m') →
  let sv := nv_service (qh_state h) in
  native_runtime_kms (nb_kms_seed config) = Ok (sv_kms sv) ∧
  sv_issuer_registry sv = Some (nv_issuer_registry (qh_state h)) ∧
  load_issuer_registry (nb_issuer_registry_path config) = Ok (nv_issuer_registry (qh_state h)) ∧
  qh_store h = FilesystemKind (nb_root_dir config).
Proof.
  unfold spawn_native_beta_server. intros Hr. run_ok Hr. destruct x3 as [kind sv].
  injection Hr as <- _. apply alpha_service_new_ok in Hx3 as [[= <-] ->].
  by split_and!; [apply map_err_ok in Hx2| |eapply map_err_ok|].
Qed.
Lemma spawn_gateway_ok config m h m' :
  spawn_gateway_beta_server faults now config m = (Ok h, m') →
  let sv := gw_service (qh_state h) in
  gateway_runtime_kms (gb_kms_seed config) = Ok (sv_kms sv) ∧
  sv_issuer_registry sv = Some (gw_issuer_registry (qh_state h)) ∧
  load_issuer_registry (gb_issuer_registry_path config) = Ok (gw_issuer_registry (qh_state h)) ∧
  qh_store h = FilesystemKind (gb_root_dir config).
Proof.
  unfold spawn_gateway_beta_server. intros Hr. run_ok Hr. cbn zeta in Hr. run_ok Hr.
  destruct x3 as [kind sv]. injection Hr as <- _. apply alpha_service_new_ok in Hx3 as [[= <-] ->].
  by split_and!; [apply map_err_ok in Hx2| |eapply map_err_ok|].
Qed.

Lemma hspd_serve_ok m o m' :
  unicode_env → hspd_serve env faults now m = (Ok o, m') → trusted_outcome o.
Proof.
  intros Hu. unfold hspd_serve. intros Hr. run_ok Hr. injection Hr as <- _.
  apply spawn_native_ok in Hx1 as (Hk&Hreg&Hload&Hst). cbn in Hk. split; [|done].
  eapply runtime_kms_environment; [by apply runtime_secret_strong|eauto].
Qed.
Lemma gw_serve_ok m o m' :
  unicode_env → gw_serve env faults now m = (Ok o, m') → trusted_outcome o.
Proof.
  intros Hu. unfold gw_serve. intros Hr. run_ok Hr. injection Hr as <- _.
  apply spawn_gateway_ok in Hx1 as (Hk&Hreg&Hload&Hst). cbn in Hk. split; [|done].
  eapply runtime_kms_environment; [by apply runtime_secret_strong|eauto].
Qed.
Lemma print_readiness_ok kind m o m' :
  print_readiness faults root_exists now kind m = (Ok o, m') → ∃ report, o = Printed report.
Proof. unfold print_readiness. destruct (ready _ _ _ _ _). intros [= <- _]. eauto. Qed.

(** C28: no program gets past start-up without strong secrets.  Whatever the arguments
    and the machine, a program that serves or prints a report found a seed of at least
    32 bytes that is none of the known defaults, and a server derives its key service
    from that seed and trusts the registry in the file [HSP_ISSUER_REGISTRY] names, or
    in its default file.  The native server and the gateway keep their files under
    [HSP_ALPHA_ROOT]; the two edge servers have, in addition, a strong edge secret, the
    signing seed of the environment and a signer their registry knows, the S3 server
    on the store that [HSP_STORAGE_BACKEND] and its parameters choose, the CDN always
    on the files under [HSP_ROOT_DIR]. *)
Theorem programs_start_with_strong_secrets program args m o m' :
  unicode_env → run_program env faults root_exists now program args m = (Ok o, m') →
  trusted_outcome o.
Proof.
  intros Hu Hr. destruct program; cbn [run_program] in Hr.
  - unfold hspd_main in Hr. run_ok Hr. destruct x as [kind sv].
    apply default_alpha_service_ok in Hx as [Hkms _]; [|done].
    repeat case_match; [by eapply hspd_serve_ok|..|]; try (injection Hr as <- _; by eexists).
    apply print_readiness_ok in Hr as [report ->]. by eexists.
  - unfold gw_main in Hr. run_ok Hr. destruct x as [kind sv].
    apply default_alpha_service_ok in Hx as [Hkms _]; [|done].
    repeat case_match; [by eapply gw_serve_ok|..|]; try (injection Hr as <- _; by eexists).
    apply print_readiness_ok in Hr as [report ->]. by eexists.
  - unfold s3_main, run_s3_server, s3_distribution_service in Hr. run_ok Hr.
    apply map_err_ok in Hx2. destruct x5 as [kind s3]. injection Hr as <- _. run_ok Hx5.
    destruct x5 as [kind' ds]. run_ok Hx5. injection Hx5 as -> <- _. run_ok Hx6.
    destruct x6 as [kind' ds']. run_ok Hx6. injection Hx6 as -> <- _.
    eapply edge_service_ok in Hx5 as [Hes Hkind]; [|done|by apply runtime_secret_strong..].
    split; [done|]. by exists x2.
  - unfold cdn_main, run_cdn_server in Hr. run_ok Hr. destruct x3 as [kind cdn].
    injection Hr as <- _. run_ok Hx3. destruct x3 as [kind' ds]. run_ok Hx3. injection Hx3 as -> <- _.
    eapply edge_service_ok in Hx4 as [Hes [= <-]]; [|done|by apply runtime_secret_strong..].
    by split.
Qed.

(** ** What start-up leaves behind *)

(** The names of the records of the access keys the S3 server registers. *)
Definition access_key_name (record : SigV4AccessKeyRecord) : string :=
  dist_store_key (ak_tenant_id record) DISTRIBUTION_METADATA_STORE
    ("access-key-" +:+ ak_access_key_id record).
Definition registered_names (program : Program) : list string :=
  match program, configured_access_keys env with
  | HspS3, Ok keys => access_key_name <$> keys
  | _, _ => []
  end.

(** The files of every disk are the same but for the given names. *)
Definition same_disks (names : list string) (m m' : Machine) : Prop :=
  ∀ root name, name ∉ names →
    fs_files (disk_at root m') !! name = fs_files (disk_at root m) !! name.
#[local] Instance same_disks_preorder names : PreOrder (same_disks names).
Proof.
  split; [by intros m root name|]. intros m1 m2 m3 H12 H23 root name Hn.
  by rewrite H23, H12.
Qed.

Lemma set_disk_same names root s m :
  (∀ name, name ∉ names → fs_files s !! name = fs_files (disk_at root m) !! name) →
  same_disks names m (set_disk root s m).
Proof.
  intros Hs root' name Hn. unfold disk_at, set_disk; cbn.
  destruct (decide (root = root')) as [<-|Hne]; [rewrite lookup_insert_eq; by apply Hs|].
  by rewrite lookup_insert_ne by done.
Qed.

Lemma fs_ensure_store_roots_files root kinds s :
  fs_files (fs_ensure_store_roots faults root kinds s).2 = fs_files s.
Proof.
  revert s. induction kinds as [|k kinds IH]; intros s; [done|]. cbn.
  destruct (faults root (fs_ops s)) as [[]|]; [done|]. by rewrite IH.
Qed.
Lemma ensure_roots_frame names kind kinds :
  preserves (same_disks names)
    (zoom (store_of faults now kind) (put_store faults now kind) (ensure_store_roots faults now kind kinds)).
Proof.
  intros m. unfold zoom. destruct kind as [root|store]; cbn.
  - pose proof (fs_ensure_store_roots_files root kinds (disk_at root m)) as Hf.
    destruct (fs_ensure_store_roots faults root kinds (disk_at root m)) as [r s]. cbn in *.
    apply set_disk_same. by rewrite Hf.
  - destruct (s3_ensure_store_roots now store (mc_s3 m)). done.
Qed.
Lemma print_readiness_frame names kind :
  preserves (same_disks names) (print_readiness faults root_exists now kind).
Proof.
  intros m. unfold print_readiness. destruct kind as [root|store]; cbn.
  - by apply set_disk_same.
  - destruct (s3_ready now store (mc_s3 m)). done.
Qed.
Lemma map_error_frame {S E F A} (R : S → S → Prop) `{!PreOrder R} (f : E → F) (m : ST S E A) :
  preserves R m → preserves R (map_error f m).
Proof. intros Hm. unfold map_error. apply preserves_bind; [apply _|by apply preserves_attempt|]. intros r. apply preserves_lift, _. Qed.

(** The store of a service differs at most in the given names. *)
Definition same_files {B : Backend} `{!BackendLaws B} (names : list string) (w w' : World B) : Prop :=
  ∀ name, name ∉ names → files w' !! name = files w !! name.
#[local] Instance same_files_preorder {B : Backend} `{!BackendLaws B} names :
  PreOrder (same_files (B := B) names).
Proof.
  split; [by intros m name|]. intros m1 m2 m3 H12 H23 name Hn. by rewrite H23, H12.
Qed.
Lemma register_access_keys_frame {B : Backend} `{!BackendLaws B} ds records names :
  Forall (λ record, access_key_name record ∈ names) records →
  preserves (same_files (B := B) names) (register_access_keys ds records).
Proof.
  induction 1 as [|record records Hin _ IH]; cbn; [apply preserves_ret, _|].
  apply preserves_bind; [apply _| |done]. unfold register_sigv4_access_key. case_match; [apply preserves_throw, _|].
  unfold dist_write_encrypted_json, dist_write_encrypted_bytes, dist_write_envelope.
  apply preserves_bind; [apply _|apply preserves_lift, _|]. intros b.
  apply preserves_bind; [apply _| |].
  - apply map_error_frame; [apply _|]. intros w name Hn. unfold dist_encrypt, zoom.
    by destruct (kms_encrypt _ _ _ _ _).
  - intros envelope. apply preserves_bind; [apply _|apply preserves_lift, _|]. intros e w name Hn.
    rewrite on_store_run. cbn. rewrite files_set_store. unfold files.
    destruct (b_write_view (access_key_name record) e (w_store w)) as [Ha _].
    eapply agree_off_lookup; [exact Ha|]. by intros ->.
Qed.

Lemma register_on_disk_frame names kind ds records :
  Forall (λ record, access_key_name record ∈ names) records →
  preserves (same_disks names)
    (on_start_world faults now kind (register_access_keys ds records)).
Proof.
  intros Hall m. unfold on_start_world. destruct kind as [root|store]; cbn.
  - pose proof (register_access_keys_frame (B := fs_backend (faults root)) ds records names Hall
      (start_world faults now (FilesystemKind root) m)) as Hf.
    destruct (register_access_keys ds records _) as [r w]. cbn in Hf |- *.
    exact (set_disk_same names root (w_store w) m Hf).
  - by destruct (register_access_keys ds records _).
Qed.

(** Start-up is a composition of these operations; what it reads is remembered. *)
Lemma preserves_lift_bind {S E A B} (R : S → S → Prop) `{!PreOrder R} (r : result E A)
  (f : A → ST S E B) :
  (∀ a, r = Ok a → preserves R (f a)) → preserves R (lift_result r ≫= f).
Proof. intros Hf s. rewrite ST_bind_run. unfold lift_result. destruct r; [by apply Hf|]. cbn. reflexivity. Qed.

Ltac start_frame :=
  repeat first
    [ progress (cbn zeta)
    | progress intros
    | lazymatch goal with
      | |- preserves _ (lift_result _ ≫= _) => apply preserves_lift_bind; [apply _|]
      | |- preserves _ (_ ≫= _) => apply preserves_bind; [apply _| |]
      | |- preserves _ (map_error _ _) => apply map_error_frame; [apply _|]
      | |- preserves _ (mret _) => apply preserves_ret, _
      | |- preserves _ (throw _) => apply preserves_throw, _
      | |- preserves _ (lift_result _) => apply preserves_lift, _
      | |- preserves _ (print_readiness _ _ _ _) => apply print_readiness_frame
      | |- preserves _ (zoom _ _ _) => apply ensure_roots_frame
      | |- preserves _ (match ?x with _ => _ end) => destruct x
      end ].

Lemma alpha_service_new_frame names config kms :
  preserves (same_disks names) (alpha_service_new faults now config kms).
Proof. unfold alpha_service_new. start_frame. Qed.
Lemma default_alpha_service_frame names root :
  preserves (same_disks names) (default_alpha_service env faults now root).
Proof.
  unfold default_alpha_service, alpha_service_with_kms_seed. start_frame. apply alpha_service_new_frame.
Qed.
Lemma edge_service_frame names config backend :
  preserves (same_disks names) (edge_distribution_service env faults now config backend).
Proof.
  unfold edge_distribution_service, distribution_service_new. start_frame.
  apply alpha_service_new_frame.
Qed.
Lemma s3_service_frame names config :
  Forall (λ record, access_key_name record ∈ names) (sg_sigv4_access_keys config) →
  preserves (same_disks names) (s3_distribution_service env faults now config).
Proof.
  intros Hall. unfold s3_distribution_service. start_frame; [apply edge_service_frame|].
  by apply register_on_disk_frame.
Qed.

Lemma startup_frame program args :
  preserves (same_disks (registered_names program))
    (run_program env faults root_exists now program args).
Proof.
  destruct program; cbn [run_program].
  - unfold hspd_main, hspd_serve, spawn_native_beta_server. start_frame;
      first [apply default_alpha_service_frame|apply alpha_service_new_frame].
  - unfold gw_main, gw_serve, spawn_gateway_beta_server. start_frame;
      first [apply default_alpha_service_frame|apply alpha_service_new_frame].
  - unfold s3_main, run_s3_server. start_frame. apply s3_service_frame. cbn.
    match goal with Hk : configured_access_keys env = Ok _ |- _ => unfold registered_names; rewrite Hk end.
    apply Forall_forall. intros r Hr%list_elem_of_In. apply list_elem_of_fmap. by exists r.
  - unfold cdn_main, run_cdn_server. start_frame. apply edge_service_frame.
Qed.

(** Starting a program, whether it succeeds or not, changes no file of any disk; only
    the S3 server writes, and only the records of the access keys it was given. *)
Theorem startup_keeps_records program args m root name :
  name ∉ registered_names program →
  let m' := (run_program env faults root_exists now program args m).2 in
  fs_files (disk_at root m') !! name = fs_files (disk_at root m) !! name.
Proof. intros Hn. by apply startup_frame. Qed.

(** ** Restarting the native server *)

(** What a server that was spawned is, as a function of its configuration. *)
Definition native_handle (config : NativeBetaConfig) : result StartError (QuicHandle NativeState) :=
  registry ← map_err ApiFailure (load_issuer_registry (nb_issuer_registry_path config));
  certificate_der ← map_err TextFailure (self_signed_config (nb_authority config));
  local_addr ← map_err TextFailure (bind_endpoint (nb_bind_addr config));
  kms ← map_err ApiFailure (native_runtime_kms (nb_kms_seed config));
  Ok (mkQuicHandle
        (mkNativeState
           (mkAlphaService (mkAlphaConfig (nb_authority config) (nb_gateway_base_url config)
                              (socket_port local_addr) (nb_server_instance_id config))
              kms (Some registry)) registry)
        (FilesystemKind (nb_root_dir config)) local_addr certificate_der).
Lemma spawn_native_handle config m h m' :
  spawn_native_beta_server faults now config m = (Ok h, m') → native_handle config = Ok h.
Proof.
  unfold spawn_native_beta_server, native_handle. intros Hr. run_ok Hr.
  rewrite Hx, Hx0, Hx1, Hx2. destruct x3 as [kind sv]. injection Hr as <- _.
  by apply alpha_service_new_ok in Hx3 as [[= <-] ->].
Qed.
Lemma hspd_serving args m h m' :
  hspd_main env faults root_exists now args m = (Ok (ServingNative h), m') →
  ∃ m1, hspd_serve env faults now m1 = (Ok (ServingNative h), m').
Proof.
  unfold hspd_main. intros Hr. run_ok Hr. destruct x as [kind sv].
  repeat case_match; try done; [by eauto|]. by apply print_readiness_ok in Hr as [].
Qed.
(** A restarted server is the server that was stopped. *)
Lemma hspd_restart args m h m' m2 h2 m2' :
  hspd_main env faults root_exists now args m = (Ok (ServingNative h), m') →
  hspd_main env faults root_exists now args m2 = (Ok (ServingNative h2), m2') → h2 = h.
Proof.
  intros [m1 H1]%hspd_serving [m3 H2]%hspd_serving. unfold hspd_serve in H1, H2.
  run_ok H1. run_ok H2. injection H1 as -> _. injection H2 as -> _.
  assert (x2 = x ∧ x3 = x0) as [-> ->] by (split; congruence).
  apply spawn_native_handle in Hx1, Hx4. congruence.
Qed.

(** Replays are refused by a restarted server.  After the native server admitted a
    mutation, it is stopped, and started again on a machine whose disk still has the
    replay record; then the same token id, operation and subject is refused, unless
    the first idempotency key is repeated, and then reported as a retry. *)
Theorem restarted_server_refuses_replay args m h m1 auth meta d auth' meta' m2 h2 m3 j
  (root := env_or env "HSP_ALPHA_ROOT" ".hsp-alpha") (w w1 : World (fs_backend (faults root))) :
  let sv := nv_service (qh_state h) in
  hspd_main env faults root_exists now args m = (Ok (ServingNative h), m1) →
  is_mutation (am_operation meta) = true →
  jti (claims auth) = Some j → jti (claims auth') = Some j →
  am_tenant_id meta' = am_tenant_id meta → am_operation meta' = am_operation meta →
  am_subject meta' = am_subject meta →
  authorize_request sv auth meta w = (Ok d, w1) →
  replay_record sv (fs_files (disk_at root m2)) meta j = replay_record sv (files w1) meta j →
  hspd_main env faults root_exists now args m2 = (Ok (ServingNative h2), m3) →
  let again := authorize_request (nv_service (qh_state h2)) auth' meta'
                 (start_world faults now (FilesystemKind root) m3) in
  (am_idempotency_key meta' ≠ Some (default "" (am_idempotency_key meta)) → is_ok again.1 = false) ∧
  (∀ d', again.1 = Ok d' → d' = mkAuthorizationDecision IdempotentRetry).
Proof.
  intros sv Hstart Hm Hj Hj' Et Eo Es (d0&w0&_&Hdur)%authorize_request_ok Hsame Hrestart again.
  pose proof (hspd_restart _ _ _ _ _ _ _ Hstart Hrestart) as ->.
  destruct (durable_replay_ok sv _ _ _ _ _ _ _ Hm Hj Hdur) as (r&Hr&Hk&_).
  assert (Hdisk : fs_files (disk_at root m3) = fs_files (disk_at root m2)).
  { apply map_eq. intros name. pose proof (startup_frame Hspd args m2 root name) as Hf.
    cbn [run_program] in Hf. rewrite Hrestart in Hf. apply Hf. apply not_elem_of_nil. }
  set (w2 := start_world faults now (FilesystemKind root) m3) in again.
  assert (replay_record sv (files (B := fs_backend (faults root)) w2) meta' j = Some r) as Hr2.
  { change (files w2) with (fs_files (disk_at root m3)). rewrite Hdisk.
    unfold replay_record in *. by rewrite Et, Eo, Es, Hsame. }
  subst again. fold sv. destruct (authorize_request sv auth' meta' w2) as [[d2|e] w3] eqn:Ha; [|by split].
  assert (is_mutation (am_operation meta') = true) as Hm' by by rewrite Eo.
  destruct (authorize_request_recorded sv _ _ _ _ _ _ _ Hm' Hj' Hr2 Ha) as [-> Hi].
  rewrite Hk in Hi. split; [done|]. by intros ? [= <-].
Qed.
End startup.

(** ** A concrete machine *)

Import ToyDist.

(** Files are named by their content; the object store answers every request. *)
#[local] Instance host_s3 : S3ClientDeps := {|
  s3_hmac_sha256 := λ key data, fnv1a (key ++ data);
  read_file := λ path, Ok (as_bytes path);
  base64_standard_decode := λ b, Ok b;
  agent := unit;
  default_agent := tt;
  usable_certificates := length;
  agent_with_roots := λ _, tt;
  utc_fields := λ ms, (1970, 1, 1, (0, 0, ms / 1000));
  remote := unit;
  agent_send := λ _ _ r, (AgentResponse (mkBodyReader [] None), r);
|}.
#[local] Instance host_deps : HostDeps := {|
  registry_from_slice := λ _, Ok (mkIssuerRegistry [mkIssuerRecord "issuer" "dist-key" "Ed25519" "" []]);
  access_keys_from_slice := λ _, Ok [];
  socket_addr := string;
  parse_socket_addr := λ s, Ok s;
  socket_port := λ _, 9443;
  bind_endpoint := λ a, Ok a;
  bind_listener := λ _, Ok tt;
  self_signed_config := λ authority, Ok (as_bytes authority);
  uri := string;
  parse_uri := λ s, Some s;
  uri_host := λ s, Some s;
  uri_with_authority := λ _ authority, Some ("https://" +:+ authority);
|}.
#[local] Instance host_debug : DebugText := {| debug_str := λ s, s |}.
#[local] Existing Instance concrete_aws.

Definition start_env : gmap string string :=
  list_to_map
    [("HSP_KMS_SEED", "  0123456789abcdef0123456789abcdef "); ("HSP_EDGE_SIGNING_SECRET", "fedcba9876543210fedcba9876543210");
     ("HSP_DISTRIBUTION_SIGNING_SEED", join "" (replicate 32 "0f"))].
Definition start_machine : Machine := mkMachine ∅ (mkS3StoreState _ tt 0) 0 0.

(** Witness of C28: the S3 server, with a seed that needs trimming. *)
Lemma programs_start_with_strong_secrets_witness :
  ∃ o m', run_program start_env (λ _, no_faults) (λ _ _, true) (λ _, 1500) HspS3 [] start_machine
            = (Ok o, m') ∧ trusted_outcome start_env o.
Proof.
  destruct (run_program start_env (λ _, no_faults) (λ _ _, true) (λ _, 1500) HspS3 [] start_machine)
    as [[o|e] m'] eqn:E.
  - exists o, m'. split; [reflexivity|].
    apply (programs_start_with_strong_secrets start_env (λ _, no_faults) (λ _ _, true) (λ _, 1500)
             HspS3 [] start_machine o m').
    + apply (bool_decide_eq_true_1 (unicode_env start_env)). vm_compute. reflexivity.
    + exact E.
  - exfalso. apply (f_equal (λ p, is_ok p.1)) in E. vm_compute in E. discriminate E.
Defined.
