(* ===== verification/Client.v ===== *)
(** * conformance: the reference client

    Models the client side of [conformance/hsp-conformance/src/main.rs]: how it signs
    capabilities and namespace records, binds them to a connection or to a request,
    presigns URLs, and speaks the native protocol on a stream.  [Conformance.v] has the
    scripts that drive the servers with it.  A panic of the client ([expect]) and an
    error are both [Err] with a text. *)

From Stdlib Require Import ZArith Lia Ascii String Bool.
From stdpp Require Import base option list strings gmap numbers.
From S2P Require Import Prelude RustStr Path Core Cbor Auth Crypto Store ServiceState AmzDate Distribution SigV4 UrlStr Http Wire Front.

Definition DIST_TENANT : string := "tenant-distribution".
Definition SIGV4_ACCESS_KEY_ID : string := "AKIAHSPCONFORMANCE".
Definition SIGV4_SECRET_ACCESS_KEY : string := "conformance-secret-access-key".
Definition SIGV4_REGION : string := "auto".
Definition SIGV4_SERVICE : string := "s3".

(** [ciborium::into_writer] of the claims, with the text of its error. *)
Class ClientDeps := { claims_to_cbor : CapabilityClaims → result string bytes }.
(** What the client relies on: claims read back, the bytes of the verifying key
    of a 32-byte signing key are a valid key, and a [HeaderValue] made from a string has its bytes and is printable. *)
Class ClientDepsLaws `{DistDeps} `{!CborPayload CapabilityClaims} `{HttpDeps} `{ClientDeps} : Prop := {
  claims_cbor_inverse : ∀ c b, claims_to_cbor c = Ok b → payload_from_cbor b = Some c;
  verifying_key_valid : ∀ key, length key = 32%nat →
    length (ed25519_verifying_key key) = 32%nat ∧ ed25519_key_valid (ed25519_verifying_key key) = true;
  header_value_text : ∀ s b, header_value s = Ok b → b = as_bytes s ∧ header_to_str b = Some s;
}.

(** ** Fixtures *)

Definition client_claims (jti aud tenant_id : string) (ops : list CapabilityScope)
  : CapabilityClaims :=
  {| iss := "issuer"; sub := "conformance-runner"; aud := aud; exp := u64_max; nbf := Some 0;
     jti := Some jti; ops := ops; cl_tenant_id := tenant_id; cl_namespace_prefix := None;
     cl_path_prefix := None; cl_max_object_size := Some 4096; cl_storage_classes := ["hot"];
     cl_key_policy_id := Some "policy-default"; cl_metadata_visibility := Some Split |}.
Definition sigv4_access_key_record : SigV4AccessKeyRecord :=
  {| ak_access_key_id := SIGV4_ACCESS_KEY_ID; ak_secret_access_key := SIGV4_SECRET_ACCESS_KEY;
     ak_tenant_id := DIST_TENANT; ak_namespace_prefix := None; ak_path_prefix := None;
     ak_max_object_size := Some (16 * 1024 * 1024); ak_storage_classes := ["hot"];
     ak_key_policy_id := "policy-default"; ak_metadata_visibility := Split; ak_enabled := true |}.
Definition manifest_for_chunk (chunk_cid : string) : Manifest :=
  mkManifest 1 "tenant-alpha" 11 11 "fixed-1m" [mkChunkRef 0 chunk_cid 0 11 11 "identity"]
    "application/octet-stream" 1
    (mkEncryptionDescriptor "public-e2ee-v1" "policy-default" "XChaCha20-Poly1305" "HPKE/X25519" Split
       [mkWrappedObjectKeyRecord "reader-1" "HPKE/X25519" "ZmFrZQ" 1 (Some "bm9uY2U")]
       {[ "content-language" := "ru" ]} ∅).

Section client.
Context `{DistDeps} `{HttpDeps} `{ClientDeps}.

(** The registry of [write_registry], for the signing key of the client. *)
Definition client_registry (signing_key : bytes) : IssuerRegistry :=
  mkIssuerRegistry
    [mkIssuerRecord "issuer" "test-key" "Ed25519" (b64url_encode (ed25519_verifying_key signing_key))
       ["hsp"; "hsp-s3"; "hsp-cdn"]].

(** ** Signatures *)

Definition sign_cose_payload {T} (into_writer : T → result string bytes) (signing_key : bytes)
  (payload_value : T) : result string string :=
  payload ← into_writer payload_value;
  let key_id := as_bytes "test-key" in
  token ← cose_sign1_to_vec key_id payload (ed25519_sign signing_key (cose_sign1_tbs key_id payload));
  Ok (b64url_encode token).
Definition sign_claims (signing_key : bytes) (c : CapabilityClaims) : result string string :=
  sign_cose_payload claims_to_cbor signing_key c.
Definition client_sign_namespace_record (signing_key : bytes) (record : NamespaceMutationRecord)
  : result string string :=
  sign_cose_payload record_to_cbor signing_key record.

(** ** Headers *)

(** [HeaderMap::insert] of a new name. *)
Definition insert_text (name value : string) (headers : HeaderMap) : result string HeaderMap :=
  v ← header_value value; Ok (headers ++ [(name, v)]).

Record DistributionAuthBinding := mkDistributionAuthBinding {
  da_method : string;
  da_raw_path : string;
  da_raw_query : string;
  da_body : bytes;
}.

Definition distribution_auth_headers (signing_key : bytes) (audience jti tenant_id : string)
  (ops : list CapabilityScope) (binding : DistributionAuthBinding) : result string HeaderMap :=
  let c := client_claims jti audience tenant_id ops in
  token ← sign_claims signing_key c;
  let nonce := jti +:+ "-nonce" in
  let payload_hash := hex_lower (sha256 (da_body binding)) in
  let canonical := token +:+ newline +:+ da_method binding +:+ newline +:+ da_raw_path binding
    +:+ newline +:+ da_raw_query binding +:+ newline +:+ payload_hash +:+ newline +:+ nonce in
  let proof := b64url_encode (sha256 (as_bytes canonical)) in
  headers ← insert_text "x-hsp-capability" token [];
  headers ← insert_text "x-hsp-request-nonce" nonce headers;
  insert_text "x-hsp-request-proof" proof headers.

Definition insert_distribution_encryption_headers (headers : HeaderMap) (idempotency_key : string)
  : result string HeaderMap :=
  insert_text "x-hsp-idempotency-key" idempotency_key
    (headers ++
     [("x-hsp-encryption-profile-id", as_bytes "public-e2ee-v1");
      ("x-hsp-key-policy-id", as_bytes "policy-default");
      ("x-hsp-metadata-visibility", as_bytes "split");
      ("x-hsp-content-encryption-suite", as_bytes "XChaCha20-Poly1305");
      ("x-hsp-key-wrapping-suite", as_bytes "HPKE/X25519");
      ("x-hsp-recipient-key-id", as_bytes "reader-1");
      ("x-hsp-wrapped-object-key", as_bytes "ZmFrZQ");
      ("x-hsp-encapsulated-key", as_bytes "bm9uY2U")]).

Definition distribution_write_headers (signing_key : bytes) (audience jti tenant_id : string)
  (binding : DistributionAuthBinding) (idempotency_key : string) : result string HeaderMap :=
  headers ← distribution_auth_headers signing_key audience jti tenant_id
              [ScopeRead; ScopeWrite; ScopeBind; ScopeUnbind; ScopeList] binding;
  insert_distribution_encryption_headers headers idempotency_key.

(** ** Responses of the S3 server *)

Definition xml_tag_value (body tag : string) : option string :=
  '(_, rest) ← split_once_str ("<" +:+ tag +:+ ">") body;
  '(value, _) ← split_once_str ("</" +:+ tag +:+ ">") rest;
  Some value.

(** The status and the text of the body of a response. *)
Definition expect_s3_error_code (status_text : Z → string) (status : Z) (body : string) (expected_status : Z)
  (expected_code : string) : result string string :=
  if negb (status =? expected_status) then
    Err ("expected S3 error status " +:+ status_text expected_status +:+ ", got " +:+ status_text status
         +:+ ": " +:+ body)
  else if negb (str_contains ("<Code>" +:+ expected_code +:+ "</Code>") body) then
    Err ("expected S3 error code " +:+ expected_code +:+ ", got body: " +:+ body)
  else Ok body.

(** ** Signature Version 4 *)

Definition sigv4_header_auth_headers (amz_date scope_date signed_headers : string)
  : result string HeaderMap :=
  let authorization :=
    "AWS4-HMAC-SHA256 Credential=" +:+ SIGV4_ACCESS_KEY_ID +:+ "/" +:+ scope_date +:+ "/" +:+
    SIGV4_REGION +:+ "/" +:+ SIGV4_SERVICE +:+ "/aws4_request, SignedHeaders=" +:+ signed_headers
    +:+ ", Signature=deadbeef" in
  headers ← insert_text "authorization" authorization [];
  insert_text "x-amz-date" amz_date headers.

(** The pairs of a [BTreeMap] come in key order, so the sort changes nothing. *)
Definition client_presign_query (params : gmap string string) : string :=
  join "&" ((λ '(key, value), key +:+ "=" +:+ value) <$> btree_iter params).
Definition sigv4_canonical_request (method raw_path raw_query host payload_hash : string) : string :=
  method +:+ newline +:+ raw_path +:+ newline +:+ raw_query +:+ newline +:+ "host:" +:+ host +:+
  newline +:+ newline +:+ "host" +:+ newline +:+ payload_hash.
Definition client_string_to_sign (date scope canonical_request : string) : string :=
  "AWS4-HMAC-SHA256" +:+ newline +:+ date +:+ newline +:+ scope +:+ newline +:+
  hex_lower (sha256 (as_bytes canonical_request)).
(** [new_from_slice] accepts keys of any length. *)
Definition client_sigv4_signature (secret_access_key date region service string_to_sign : string)
  : string :=
  let k_date := hmac_sha256_mac (as_bytes ("AWS4" +:+ secret_access_key)) (as_bytes date) in
  let k_region := hmac_sha256_mac k_date (as_bytes region) in
  let k_service := hmac_sha256_mac k_region (as_bytes service) in
  let k_signing := hmac_sha256_mac k_service (as_bytes "aws4_request") in
  hex_lower (hmac_sha256_mac k_signing (as_bytes string_to_sign)).

(** The client has its own copy of the date functions, with the same text. *)
Definition client_civil_from_days (days : Z) : Z * Z * Z := civil_from_days days.
Definition client_amz_date_from_epoch_ms (epoch_ms : Z) : string := amz_date_from_epoch_ms epoch_ms.

Definition presign_params (scope_date amz_date : string) (expires_sec : Z) : gmap string string :=
  <["X-Amz-SignedHeaders" := "host"]> (<["X-Amz-Expires" := dec expires_sec]>
  (<["X-Amz-Date" := amz_date]>
  (<["X-Amz-Credential" := SIGV4_ACCESS_KEY_ID +:+ "/" +:+ scope_date +:+ "/" +:+ SIGV4_REGION
       +:+ "/" +:+ SIGV4_SERVICE +:+ "/aws4_request"]>
  (<["X-Amz-Algorithm" := "AWS4-HMAC-SHA256"]> ∅)))).
Definition build_presigned_url (base host raw_path amz_date : string) (expires_sec : Z)
  : result string string :=
  scope_date ← ok_or (str_slice 0 8 amz_date) "byte index is out of bounds";
  let canonical_query := client_presign_query (presign_params scope_date amz_date expires_sec) in
  let canonical_request :=
    sigv4_canonical_request "GET" raw_path canonical_query host "UNSIGNED-PAYLOAD" in
  let scope := scope_date +:+ "/" +:+ SIGV4_REGION +:+ "/" +:+ SIGV4_SERVICE +:+ "/aws4_request" in
  let signature := client_sigv4_signature SIGV4_SECRET_ACCESS_KEY scope_date SIGV4_REGION
    SIGV4_SERVICE (client_string_to_sign amz_date scope canonical_request) in
  Ok (base +:+ raw_path +:+ "?" +:+ canonical_query +:+ "&X-Amz-Signature=" +:+ signature).

(** ** The native protocol *)

Definition export_failed : string := "failed to export TLS keying material".

Definition auth_frame (connection : Connection) (signing_key : bytes) (c : CapabilityClaims)
  : result string AuthFrame :=
  let nonce := "conformance-nonce" in
  token_b64 ← sign_claims signing_key c;
  exporter ← ok_or (export_keying_material connection tls_exporter_label (as_bytes nonce)) export_failed;
  Ok (mkAuthFrame token_b64 (mkChannelBindingProof "tls-exporter" (b64url_encode exporter) nonce)).

Definition client_auth_headers (connection : Connection) (signing_key : bytes) (c : CapabilityClaims)
  (nonce : string) : result string HeaderMap :=
  token_b64 ← sign_claims signing_key c;
  exporter ← ok_or (export_keying_material connection tls_exporter_label (as_bytes nonce)) export_failed;
  headers ← insert_text "x-hsp-capability" token_b64 [];
  headers ← insert_text "x-hsp-channel-binding-kind" "tls-exporter" headers;
  headers ← insert_text "x-hsp-channel-binding-proof" (b64url_encode exporter) headers;
  insert_text "x-hsp-channel-binding-nonce" nonce headers.

Definition uri_for (port : Z) (path_and_query : string) : string :=
  "https://localhost:" +:+ dec port +:+ path_and_query.
End client.

Section native_client.
Context {V : Type} `{WireDeps V} (W : Writer) (R : Reader).

(** The frames of a request. *)
Definition request_frames (auth : option AuthFrame) (header : ReqHeader V) (body : bytes)
  : list (Frame V) :=
  match auth with Some auth => [FrAuth auth] | None => [] end ++ [FrReqHeader header] ++
  (if bool_decide (body = []) then [] else [FrData body]) ++ [FrEnd].
Fixpoint send_frames (frames : list (Frame V)) : ST (wstate W) WireCodecError unit :=
  match frames with
  | [] => mret tt
  | frame :: rest => _ ← write_frame W frame; send_frames rest
  end.

(** The frames behind a response header: the data up to the end, or up to another
    frame; [None] when [fuel] frames were not enough. *)
Fixpoint read_data_frames (fuel : nat) (data_frames : list bytes)
  : ST (rstate R) WireCodecError (option (option (Frame V) * list bytes)) :=
  match fuel with
  | O => mret None
  | S f =>
      frame ← read_frame (V := V) R;
      match frame with
      | FrData b => read_data_frames f (data_frames ++ [b])
      | FrEnd => mret (Some (None, data_frames))
      | frame => mret (Some (Some frame, data_frames))
      end
  end.
Definition read_reply (fuel : nat)
  : ST (rstate R) WireCodecError (option (option (Frame V) * option (Frame V) * list bytes)) :=
  first ← attempt (read_frame (V := V) R);
  match first with
  | Ok (FrResHeader header) =>
      o ← read_data_frames fuel [];
      mret (match o with
            | Some (second, data) => Some (Some (FrResHeader header), second, data)
            | None => None
            end)
  | Ok first =>
      second ← attempt (read_frame (V := V) R);
      mret (Some (Some first, result_ok second, []))
  | Err _ => mret (Some (None, None, []))
  end.
(** On a stream that was opened; [finish_stream] is [SendStream::finish]. *)
Definition send_native_request (finish_stream : ST (wstate W) WireCodecError unit) (fuel : nat) (auth : option AuthFrame) (header : ReqHeader V)
  (body : bytes)
  : ST (wstate W * rstate R) WireCodecError
      (option (option (Frame V) * option (Frame V) * list bytes)) :=
  _ ← zoom fst (λ w s, (w, s.2)) (send_frames (request_frames auth header body));
  _ ← zoom fst (λ w s, (w, s.2)) finish_stream;
  zoom snd (λ r s, (s.1, r)) (read_reply fuel).
End native_client.

(** ** Requests to the gateway *)

Record GatewayRequest := mkGatewayRequest {
  gq_method : string;
  gq_uri : string;
  gq_headers : HeaderMap;
}.
(** The client side of an HTTP/3 connection, with the texts of its errors. *)
Record H3Client := mkH3Client {
  cstate : Type;
  build_request : string → string → result string GatewayRequest;
  send_request : GatewayRequest → ST cstate string unit;
  client_send_data : bytes → ST cstate string unit;
  client_finish : ST cstate string unit;
  recv_response : ST cstate string (Z * HeaderMap);
  client_recv_data : ST cstate string (option bytes);
}.

Section gateway_client.
Context (C : H3Client).

(** The rest of the body; [None] when [fuel] pieces were not enough. *)
Fixpoint collect_response (fuel : nat) (response_body : bytes) : ST (cstate C) string (option bytes) :=
  match fuel with
  | O => mret None
  | S f =>
      chunk ← client_recv_data C;
      match chunk with
      | Some b => collect_response f (response_body ++ b)
      | None => mret (Some response_body)
      end
  end.
Definition send_gateway_request (fuel : nat) (method uri : string) (headers : HeaderMap) (body : bytes)
  : ST (cstate C) string (option ((Z * HeaderMap) * bytes)) :=
  request ← lift_result (build_request C method uri);
  let request := mkGatewayRequest (gq_method request) (gq_uri request) headers in
  _ ← send_request C request;
  _ ← (if bool_decide (body = []) then mret tt else client_send_data C body);
  _ ← client_finish C;
  response ← recv_response C;
  o ← collect_response fuel [];
  mret (match o with Some response_body => Some (response, response_body) | None => None end).
End gateway_client.
