(* ===== verification/ConcreteClient.v ===== *)
(** * Concrete parameters of the reference client

    Tokens with the key id of the client and a serialiser of the claims, for the
    witnesses.  They model nothing of the source. *)

From Stdlib Require Import ZArith Lia Ascii String Bool.
From stdpp Require Import base option list strings gmap numbers.
From S2P Require Import Prelude RustStr Path Core Cbor Concrete Auth Crypto Store ServiceState ConcreteService Distribution ConcreteDist SigV4 SigV4Props Http ConcreteHttp Wire Client.

Import Toy ToyKms.

#[local] Existing Instances codec_json codec_json_laws.

#[local] Instance codec_scope : Codec CapabilityScope.
Proof.
  refine (codec_iso codec_Z
    (λ s, match s with ScopeRead => 0 | ScopeWrite => 1 | ScopeBind => 2 | ScopeUnbind => 3
          | ScopeList => 4 | ScopeSubscribe => 5 | ScopePin => 6 | ScopeReplicate => 7
          | AdminMetricsRead => 8 | AdminAuditRead => 9 | AdminRepair => 10 | AdminKeyRotate => 11
          | AdminPolicyWrite => 12 end)
    (λ z, default ScopeRead ([ScopeRead; ScopeWrite; ScopeBind; ScopeUnbind; ScopeList; ScopeSubscribe;
       ScopePin; ScopeReplicate; AdminMetricsRead; AdminAuditRead; AdminRepair; AdminKeyRotate;
       AdminPolicyWrite] !! Z.to_nat z)) _).
  solve_iso.
Defined.
#[local] Instance codec_claims : Codec CapabilityClaims.
Proof.
  refine (codec_iso _
    (λ c, (iss c, sub c, aud c, exp c, nbf c, jti c, ops c, cl_tenant_id c, cl_namespace_prefix c,
           cl_path_prefix c, cl_max_object_size c, cl_storage_classes c, cl_key_policy_id c,
           cl_metadata_visibility c))
    (λ '(x0, x1, x2, x3, x4, x5, x6, x7, x8, x9, x10, x11, x12, x13),
       mkCapabilityClaims x0 x1 x2 x3 x4 x5 x6 x7 x8 x9 x10 x11 x12 x13) _).
  solve_iso.
Defined.

(** Tokens as in the other witnesses, with the key id of the client. *)
Definition client_cose : Cose :=
  {| cose_from_slice := λ b, Some (mkCoseSign1 (Some b) (as_bytes "test-key") b (λ _, b));
     ed25519_key_valid := λ _, true;
     ed25519_signature_valid := λ _, true;
     ed25519_verify := λ _ m s, bool_decide (m = s) |}.
Definition client_deps (now : nat → Z) : Deps :=
  {| dep_cose := client_cose; dep_payload := concrete_payload; clock := now |}.
#[local] Instance toy_deps : Deps := client_deps (λ n, 1500 + Z.of_nat n).
#[local] Instance toy_deps_laws : DepsLaws.
Proof. split; apply _. Qed.
Definition client_dist_deps (deps : Deps) : DistDeps :=
  {| dist_deps := deps;
     edge_claims_to_vec := λ c, to_vec_pretty c;
     edge_claims_from_slice := λ b, from_slice b;
     hmac_sha256_mac := λ key data, fnv1a (key ++ data);
     record_to_cbor := λ r, to_vec_pretty r;
     cose_sign1_tbs := λ _ payload, payload;
     cose_sign1_to_vec := λ kid payload signature,
       if bool_decide (kid = as_bytes "test-key") && bool_decide (signature = payload)
       then Ok payload else Err "unsupported token";
     ed25519_sign := λ _ message, message;
     ed25519_verifying_key := λ key, key |}.
#[local] Instance toy_dist_deps : DistDeps := client_dist_deps toy_deps.
#[local] Instance toy_dist_deps_laws : DistDepsLaws.
Proof.
  split; try apply _.
  - intros c b Hb. by apply (from_slice_to_vec c).
  - intros r b Hb. change (result_ok (from_slice b : result string NamespaceMutationRecord) = Some r).
    by rewrite (from_slice_to_vec r b Hb).
  - intros kid payload signature b Hb. cbn in Hb.
    revert Hb. case_bool_decide as Hk; [|done]. subst kid. intros Hb.
    destruct (bool_decide_reflect (signature = payload)) as [->|]; [|done].
    injection Hb as <-. eexists. by split_and!.
  - intros key message. split; [done|]. cbn. by rewrite bool_decide_eq_true_2.
Qed.
#[local] Instance toy_claims : CborPayload CapabilityClaims :=
  {| payload_from_cbor := λ b, result_ok (codec_read b) |}.
#[local] Instance toy_client : ClientDeps := {| claims_to_cbor := codec_write |}.
#[local] Instance toy_client_laws : ClientDepsLaws (H0 := concrete_http).
Proof.
  split.
  - intros c b Hb. cbn. by rewrite (codec_read_write _ _ Hb).
  - done.
  - intros s b. cbn. unfold toy_header_value, header_to_str.
    destruct (str_forallb _ s) eqn:Hs; [|done]. intros [= <-]. split; [done|].
    rewrite <-of_bytes_forallb, of_as_bytes. by rewrite Hs.
Qed.

Module ToyClient.
#[export] Existing Instances toy_deps toy_dist_deps toy_dist_deps_laws toy_claims toy_client toy_client_laws.
End ToyClient.
