(* ===== verification/ClientProps.v ===== *)
(** * Claims about the reference client

    The servers admit the requests of the reference client: what it signs verifies on
    the native server, on the gateway and on the distribution surfaces, with exactly
    the claims it signed; the native server reads the request that was sent; and a
    presigned URL authenticates as the tenant of its access key. *)

From Stdlib Require Import ZArith Lia Ascii String Bool.
From stdpp Require Import base option list strings gmap numbers sorting.
From S2P Require Import Prelude RustStr Path Core Cbor Concrete Auth Crypto Store ServiceState ConcreteService ServiceFacts AmzDate Distribution SigV4 SigV4Props UrlStr Http ConcreteHttp Wire WireProps Front Native Gateway ConcreteDist ConcreteFront S3Client S3Signing Client ConcreteClient.

Section client.
Context `{DL : DistDepsLaws} `{CP : !CborPayload CapabilityClaims} `{HD : HttpDeps} `{CD : ClientDeps}
  `{CL : !ClientDepsLaws}.

(** ** Tokens *)

(** The audiences the registry of the client allows. *)
Definition client_audiences : list string := ["hsp"; "hsp-s3"; "hsp-cdn"].

Lemma sign_claims_verify key c token :
  length key = 32%nat → sign_claims key c = Ok token → iss c = "issuer" → aud c ∈ client_audiences →
  verify_cose_sign1_token token (client_registry key) = Ok c.
Proof.
  unfold sign_claims, sign_cose_payload. intros Hkey (payload&Hp&H)%result_bind_ok Hiss Haud.
  apply result_bind_ok in H as (cose_bytes&Hc&[= <-]).
  destruct (cose_sign1_inverse _ _ _ _ Hc) as (cose&Hslice&Hpay&_&Hsig&Htbs).
  destruct (ed25519_signed key (cose_sign1_tbs (as_bytes "test-key") payload)) as [Hform Hverify].
  destruct (verifying_key_valid key Hkey) as [Hlen Hvalid].
  unfold verify_cose_sign1_token, verify_cose_sign1_payload.
  rewrite b64url_decode_encode. cbn [ok_or]. rewrite ok_bind, Hslice. cbn [ok_or].
  rewrite ok_bind, Hpay. cbn [ok_or]. rewrite ok_bind, (claims_cbor_inverse _ _ Hp). cbn [ok_or].
  rewrite ok_bind. cbn [payload_iss payload_aud claims_issuer]. rewrite Hiss.
  change (resolve (client_registry key) "issuer") with (head (issuers (client_registry key))).
  cbn [client_registry issuers head ok_or]. rewrite ok_bind. cbn [algorithm audiences public_key_b64].
  assert (existsb (λ c0 : string, String.eqb c0 (aud c)) ["hsp"; "hsp-s3"; "hsp-cdn"] = true) as Ha.
  { apply existsb_exists. exists (aud c). split; [by apply list_elem_of_In|apply String.eqb_refl]. }
  rewrite Ha, b64url_decode_encode. cbn [String.eqb negb]. cbn -[ed25519_verify].
  by rewrite Hlen, Hvalid, Hsig, Htbs, Hform, Hverify.
Qed.

Lemma insert_text_ok name value headers headers' :
  insert_text name value headers = Ok headers' →
  ∃ v, headers' = headers ++ [(name, v)] ∧ header_to_str v = Some value.
Proof.
  unfold insert_text. intros (v&Hv&[= <-])%result_bind_ok.
  destruct (header_value_text _ _ Hv) as [_ Hs]. eauto.
Qed.

Lemma gateway_header_found headers name v s :
  header_get headers name = Some v → header_to_str v = Some s →
  Gateway.required_header headers name = Ok s.
Proof. intros Hg Hs. unfold Gateway.required_header. rewrite Hg. cbn. by rewrite Hs. Qed.
Lemma binding_header_found headers name v s :
  header_get headers name = Some v → header_to_str v = Some s →
  SigV4.required_header headers name = Ok s.
Proof. intros Hg Hs. unfold SigV4.required_header. rewrite Hg. cbn. by rewrite Hs. Qed.

(** ** Admission *)

Definition channel_proof (exporter : bytes) (nonce : string) : ChannelBindingProof :=
  mkChannelBindingProof "tls-exporter" (b64url_encode exporter) nonce.

Lemma exporter_binding_verifies exporter nonce :
  verify_tls_exporter_binding exporter (channel_proof exporter nonce) = Ok tt.
Proof. by apply verify_tls_exporter_binding_ok. Qed.

Lemma auth_frame_verifies connection key c frame :
  length key = 32%nat →
  auth_frame connection key c = Ok frame → iss c = "issuer" → aud c ∈ client_audiences →
  verify_auth_frame connection (client_registry key) frame
  = Ok (mkAuthContext c (Some (af_channel_binding frame))).
Proof.
  unfold auth_frame. intros Hkey (token&Ht&(exporter&He&[= <-])%ok_or_bind_ok)%result_bind_ok Hi Ha.
  unfold verify_auth_frame. cbn [af_token_b64 af_channel_binding cb_nonce].
  rewrite (sign_claims_verify _ _ _ Hkey Ht Hi Ha), ok_bind, He. cbn [ok_or]. rewrite ok_bind.
  fold (channel_proof exporter "conformance-nonce"). by rewrite exporter_binding_verifies.
Qed.

Lemma auth_headers_verify connection key c nonce headers :
  length key = 32%nat →
  client_auth_headers connection key c nonce = Ok headers → iss c = "issuer" → aud c ∈ client_audiences →
  ∃ binding, cb_nonce binding = nonce ∧
    verify_gateway_auth connection headers (client_registry key) = Ok (mkAuthContext c (Some binding)).
Proof.
  unfold client_auth_headers. intros Hkey (token&Ht&(exporter&He&H)%ok_or_bind_ok)%result_bind_ok Hi Ha.
  apply result_bind_ok in H as (h1&(v1&->&Hv1)%insert_text_ok&H).
  apply result_bind_ok in H as (h2&(v2&->&Hv2)%insert_text_ok&H).
  apply result_bind_ok in H as (h3&(v3&->&Hv3)%insert_text_ok&(v4&->&Hv4)%insert_text_ok).
  exists (channel_proof exporter nonce). split; [done|]. unfold verify_gateway_auth.
  erewrite (gateway_header_found _ "x-hsp-capability" v1); [|reflexivity|exact Hv1]. rewrite ok_bind.
  erewrite (gateway_header_found _ "x-hsp-channel-binding-kind" v2); [|reflexivity|exact Hv2]. rewrite ok_bind.
  erewrite (gateway_header_found _ "x-hsp-channel-binding-proof" v3); [|reflexivity|exact Hv3]. rewrite ok_bind.
  erewrite (gateway_header_found _ "x-hsp-channel-binding-nonce" v4); [|reflexivity|exact Hv4]. rewrite ok_bind.
  rewrite (sign_claims_verify _ _ _ Hkey Ht Hi Ha), ok_bind. cbn [cb_nonce]. rewrite He. cbn [ok_or]. rewrite ok_bind.
  fold (channel_proof exporter nonce). by rewrite exporter_binding_verifies.
Qed.

Lemma distribution_headers_verify ds key audience jti tenant ops binding headers more :
  length key = 32%nat → ds_issuer_registry ds = client_registry key → dc_capability_audience (ds_config ds) = audience →
  audience ∈ client_audiences →
  distribution_auth_headers key audience jti tenant ops binding = Ok headers →
  ∃ proof, authenticate_hsp_capability ds
      (mkHttpRequestBinding (da_method binding) (da_raw_path binding) (da_raw_query binding)
         (headers ++ more) (da_body binding))
    = Ok (mkAuthContext (client_claims jti audience tenant ops) (Some proof)).
Proof.
  intros Hkey Hreg Haud Hin. unfold distribution_auth_headers. intros (token&Ht&H)%result_bind_ok.
  apply result_bind_ok in H as (h1&(v1&->&Hv1)%insert_text_ok&H).
  apply result_bind_ok in H as (h2&(v2&->&Hv2)%insert_text_ok&(v3&->&Hv3)%insert_text_ok).
  eexists. unfold authenticate_hsp_capability.
  cbn [hb_headers hb_method hb_raw_path hb_raw_query hb_body].
  erewrite (binding_header_found _ "x-hsp-capability" v1); [|reflexivity|exact Hv1]. rewrite ok_bind.
  erewrite (binding_header_found _ "x-hsp-request-nonce" v2); [|reflexivity|exact Hv2]. rewrite ok_bind.
  erewrite (binding_header_found _ "x-hsp-request-proof" v3); [|reflexivity|exact Hv3]. rewrite ok_bind.
  rewrite Hreg, (sign_claims_verify _ _ _ Hkey Ht eq_refl Hin), ok_bind.
  cbn [aud client_claims]. rewrite Haud, String.eqb_refl. cbn [negb].
  unfold hex_sha256. rewrite String.eqb_refl. reflexivity.
Qed.
End client.

(** ** Requests on a native stream *)

Section native.
Context {V : Type} `{WD : WireDeps V} `{WDL : !WireDepsLaws V}.
Context (W : Writer) `{WL : !WriterLaws W} (R : Reader) `{RL : !ReaderLaws R}.

(** The reader delivers the frames one by one. *)
Fixpoint delivers (frames : list (Frame V)) (r r' : rstate R) : Prop :=
  match frames with
  | [] => r' = r
  | f :: rest => ∃ r1, read_frame R r = (Ok f, r1) ∧ delivers rest r1 r'
  end.

Lemma sent_frames_delivered frames w w' :
  Forall frame_ok frames → send_frames W frames w = (Ok tt, w') →
  ∃ b, written w' = written w ++ b ∧
    ∀ r rest, reliable R → coming r = b ++ rest → ∃ r', delivers frames r r' ∧ coming r' = rest.
Proof.
  intros Hok. revert w. induction Hok as [|f frames Hf Hok IH]; intros w; cbn [send_frames].
  { intros [_ <-]%ST_ret_ok. exists []. split; [by rewrite app_nil_r|].
    intros r rest _ Hc. by exists r. }
  intros (u&w1&Hw&H)%ST_bind_ok. destruct u.
  apply (write_frame_ok W) in Hw as (payload&Henc&Hlen&Hw1). apply IH in H as (b&Hw'&Hread).
  exists (frame_bytes (frame_type f) payload ++ b). split; [by rewrite Hw', Hw1, (assoc_L (++))|].
  intros r rest Hrel Hc. rewrite <-(assoc_L (++)) in Hc.
  destruct (read_frame_bytes R _ _ _ _ Hrel Hf Henc Hlen Hc) as (r1&Hr1&Hc1).
  destruct (Hread r1 rest Hrel Hc1) as (r2&Hr2&Hc2). exists r2. split; [|done]. by exists r1.
Qed.

Context `{ND : NativeDeps V} `{FD : FrontDeps} `{DL : DistDepsLaws} `{CP : !CborPayload CapabilityClaims}
  `{HD : HttpDeps} `{CD : ClientDeps} `{CL : !ClientDepsLaws}.
Context {B : Backend} (others : nat → World B → World B).

Lemma body_delivered body limit r r' fuel :
  delivers ((if bool_decide (body = []) then [] else [FrData body]) ++ [FrEnd]) r r' →
  len_u64 body <= limit → 0 <= limit < 2 ^ 64 → (2 <= fuel)%nat →
  read_body (V := V) R fuel limit [] r = (Ok (Some body), r').
Proof.
  intros Hd Hlen Hlim Hfuel. destruct fuel as [|[|fuel]]; [lia..|].
  case_bool_decide as Hb; cbn [app delivers] in Hd.
  - destruct Hd as (r1&Hr1&->). cbn [read_body]. rewrite ST_bind_run, Hr1. by subst.
  - destruct Hd as (r1&Hr1&r2&Hr2&->). cbn [read_body]. rewrite ST_bind_run, Hr1.
    destruct (Z.ltb_spec limit (u64_sat_add (len_u64 ([] : bytes)) (len_u64 body))) as [Hgt|_].
    { unfold u64_sat_add, len_u64 in *. cbn in Hgt. lia. }
    cbn [app]. by rewrite ST_bind_run, Hr2.
Qed.

(** C27: the native server serves what the client sent.  If the client signed a
    capability for this connection, with the registered key and an allowed audience,
    and wrote a request whose body is within the limit of its operation, then the
    task of the stream that receives these bytes serves the operation of the header
    with this body, for exactly the claims the client signed; what follows on the
    stream is left. *)
Theorem client_request_served key connection c frame header body w w' sv :
  length key = 32%nat → auth_frame connection key c = Ok frame → iss c = "issuer" → aud c ∈ client_audiences →
  send_frames W (request_frames (Some frame) header body) w = (Ok tt, w') →
  len_u64 body <= native_body_limit header →
  ∃ b, written w' = written w ++ b ∧
    ∀ fuel (s : Session R W B) rest, reliable R → (2 <= fuel)%nat → coming (ns_recv s) = b ++ rest →
    ∃ r', coming r' = rest ∧
      handle_request_stream (V := V) R W (mkNativeState sv (client_registry key)) connection others fuel s
      = serve_operation (V := V) R W (mkNativeState sv (client_registry key)) others fuel
          (Some (mkAuthContext c (Some (af_channel_binding frame)))) header body
          (mkSession r' (ns_send s) (ns_world s)).
Proof.
  intros Hkey Hframe Hi Ha Hsend Hlen.
  assert (Hok : Forall frame_ok (request_frames (Some frame) header body)).
  { unfold request_frames. case_bool_decide; by repeat constructor. }
  destruct (sent_frames_delivered _ _ _ Hok Hsend) as (b&Hw&Hread). exists b. split; [done|].
  intros fuel s rest Hrel Hfuel Hc. destruct (Hread _ _ Hrel Hc) as (r'&Hd&Hrest).
  exists r'. split; [done|]. unfold request_frames in Hd. cbn [app delivers] in Hd.
  destruct Hd as (r1&Hr1&r2&Hr2&Hd). apply (body_delivered _ (native_body_limit header) _ _ fuel) in Hd;
    [|done|by destruct header as [? []]|done].
  unfold handle_request_stream, accept_request. rewrite !ST_bind_run.
  unfold on_recv at 1, zoom at 1. rewrite Hr1. cbn [nv_issuer_registry].
  rewrite ST_bind_run. unfold lift_result at 1. rewrite (auth_frame_verifies _ _ _ _ Hkey Hframe Hi Ha).
  cbn [map_err]. rewrite ST_bind_run. unfold on_recv at 1, zoom at 1. cbn [ns_recv ns_send ns_world].
  rewrite Hr2. unfold mret at 1, ST_ret at 1. rewrite ST_bind_run.
  unfold on_recv at 1, zoom at 1. cbn [ns_recv ns_send ns_world]. by rewrite Hd.
Qed.
End native.

Section reply.
Context {V : Type} `{WD : WireDeps V} `{WDL : !WireDepsLaws V}.
Context (W : Writer) `{WL : !WriterLaws W} (R : Reader) `{RL : !ReaderLaws R}.

Lemma data_frames_delivered chunks acc r r' fuel :
  delivers R ((FrData (V := V) <$> chunks) ++ [FrEnd]) r r' → (length chunks < fuel)%nat →
  read_data_frames (V := V) R fuel acc r = (Ok (Some (None, acc ++ chunks)), r').
Proof.
  revert acc r fuel. induction chunks as [|b chunks IH]; intros acc r [|fuel] Hd Hf; try (cbn in Hf; lia);
    cbn [fmap list_fmap app delivers] in Hd; destruct Hd as (r1&Hr1&Hd); cbn [read_data_frames];
    rewrite ST_bind_run, Hr1.
  - cbn in Hd. subst. by rewrite app_nil_r.
  - rewrite (IH (acc ++ [b]) r1 fuel Hd) by (cbn in Hf; lia). by rewrite <-(assoc_L (++)).
Qed.

(** A response a server wrote as a header, data frames and the end is what the client
    returns for it, and the client stops reading behind it. *)
Theorem reply_delivered header chunks w w' :
  send_frames W ([FrResHeader header] ++ (FrData <$> chunks) ++ [FrEnd]) w = (Ok tt, w') →
  ∃ b, written w' = written w ++ b ∧
    ∀ r rest fuel, reliable R → coming r = b ++ rest → (length chunks < fuel)%nat →
    ∃ r', coming r' = rest ∧
      read_reply (V := V) R fuel r = (Ok (Some (Some (FrResHeader header), None, chunks)), r').
Proof.
  intros Hsend. edestruct (sent_frames_delivered W R) as (b&Hw&Hread); [|exact Hsend|].
  { constructor; [done|]. apply Forall_app. split; [|by repeat constructor].
    apply Forall_fmap, Forall_true. done. }
  exists b. split; [done|]. intros r rest fuel Hrel Hc Hfuel.
  destruct (Hread r rest Hrel Hc) as (r'&(r1&Hr1&Hd)&Hrest). exists r'. split; [done|].
  unfold read_reply. rewrite ST_bind_run. unfold attempt. rewrite Hr1.
  by rewrite ST_bind_run, (data_frames_delivered _ [] _ r') by done.
Qed.
End reply.

(** ** Responses of the gateway *)

(** The client returns the pieces of the body in the order in which they arrive. *)
Lemma response_collected (C : H3Client) (pieces : list bytes) (state : nat → cstate C) s acc fuel :
  (∀ n b, pieces !! n = Some b → client_recv_data C (state n) = (Ok (Some b), state (S n))) →
  client_recv_data C (state (length pieces)) = (Ok None, s) → (length pieces < fuel)%nat →
  collect_response C fuel acc (state 0%nat) = (Ok (Some (acc ++ mjoin pieces)), s).
Proof.
  revert state acc fuel. induction pieces as [|b pieces IH]; intros state acc [|fuel] Hsome Hnone Hf;
    try (cbn in Hf; lia); cbn [collect_response]; rewrite ST_bind_run.
  - cbn in Hnone. rewrite Hnone. cbn. by rewrite app_nil_r.
  - rewrite (Hsome 0%nat b eq_refl). cbn in Hf, Hnone. rewrite (IH (λ n, state (S n))).
    + by rewrite <-(assoc_L (++)).
    + intros n b' Hb. by apply (Hsome (S n)).
    + done.
    + lia.
Qed.

(** ** Presigned URLs *)

(** The query a client presigns, parameter by parameter. *)
Definition presign_segments (v1 v2 v3 v4 v5 : string) : list (string * string) :=
  [("X-Amz-Algorithm", v1); ("X-Amz-Credential", v2); ("X-Amz-Date", v3); ("X-Amz-Expires", v4);
   ("X-Amz-SignedHeaders", v5)].
Definition presign_map (v1 v2 v3 v4 v5 : string) : gmap string string :=
  <["X-Amz-SignedHeaders" := v5]> (<["X-Amz-Expires" := v4]> (<["X-Amz-Date" := v3]>
  (<["X-Amz-Credential" := v2]> (<["X-Amz-Algorithm" := v1]> ∅)))).
Definition pair_text (p : string * string) : string := p.1 +:+ "=" +:+ p.2.

Lemma presign_order v1 v2 v3 v4 v5 :
  btree_iter (presign_map v1 v2 v3 v4 v5) = presign_segments v1 v2 v3 v4 v5.
Proof. vm_compute. reflexivity. Qed.
Lemma signed_order v1 v2 v3 v4 v5 sig :
  List.filter (λ '(key, _), negb (String.eqb key "X-Amz-Signature"))
    (btree_iter (<["X-Amz-Signature" := sig]> (presign_map v1 v2 v3 v4 v5)))
  = presign_segments v1 v2 v3 v4 v5.
Proof. vm_compute. reflexivity. Qed.
Lemma presign_query_text v1 v2 v3 v4 v5 sig :
  client_presign_query (presign_map v1 v2 v3 v4 v5)
    = join "&" (pair_text <$> presign_segments v1 v2 v3 v4 v5) ∧
  canonical_presign_query (<["X-Amz-Signature" := sig]> (presign_map v1 v2 v3 v4 v5))
    = join "&" (pair_text <$> presign_segments v1 v2 v3 v4 v5).
Proof.
  unfold client_presign_query, canonical_presign_query. rewrite presign_order, signed_order. done.
Qed.

(** The server reads the parameters back. *)
Lemma insert_pairs_fresh code l acc :
  Forall (λ p, str_contains_char "=" p.1 = false) l → NoDup (l.*1) →
  (∀ p, p ∈ l → acc !! p.1 = None) →
  insert_pairs code (pair_text <$> l) acc = Ok (foldl (λ m p, <[p.1 := p.2]> m) acc l).
Proof.
  intros Hl. revert acc. induction Hl as [|[k v] l Hk Hl IH]; intros acc Hnd Hacc; [done|].
  cbn [fmap list_fmap insert_pairs pair_text fst snd] in *. apply NoDup_cons in Hnd as [Hnotin Hnd].
  change (pair_text (k, v)) with (k +:+ String "="%char v). rewrite split_once_app by done.
  cbn [default]. unfold id.
  pose proof (Hacc (k, v) (list_elem_of_here _ _)) as Hnone. cbn in Hnone.
  rewrite bool_decide_false by (rewrite Hnone; by intros []).
  cbn [foldl fst snd]. apply IH; [done|]. intros p Hp. cbn.
  rewrite lookup_insert_ne; [apply Hacc; by right|]. intros ->. apply Hnotin.
  by apply list_elem_of_fmap_2.
Qed.
Lemma presigned_query_read code v1 v2 v3 v4 v5 sig :
  Forall (λ v, str_contains_char "&" v = false) [v1; v2; v3; v4; v5; sig] →
  parse_unique_query_pairs
    (join "&" (pair_text <$> presign_segments v1 v2 v3 v4 v5) +:+ "&X-Amz-Signature=" +:+ sig) code
  = Ok (<["X-Amz-Signature" := sig]> (presign_map v1 v2 v3 v4 v5)).
Proof.
  intros Hv.
  assert (Hq : join "&" (pair_text <$> presign_segments v1 v2 v3 v4 v5) +:+ "&X-Amz-Signature=" +:+ sig
    = join "&" (pair_text <$> (presign_segments v1 v2 v3 v4 v5 ++ [("X-Amz-Signature", sig)]))).
  { unfold presign_segments, pair_text. cbn. by rewrite <-!str_app_assoc. }
  rewrite Hq. unfold parse_unique_query_pairs. change "&" with (String "&" "") at 1.
  rewrite split_on_join; [|done|].
  - assert (Hf : ∀ l : list (string * string), Forall (λ p, p.1 ≠ "") l →
      List.filter (λ segment, negb (str_is_empty segment)) (pair_text <$> l) = pair_text <$> l).
    { induction 1 as [|[[|c k] v] l Hne _ IH]; [done..|]. cbn in *. by rewrite IH. }
    rewrite Hf by (by repeat constructor).
    rewrite insert_pairs_fresh; [reflexivity|by repeat constructor| |].
    + apply (bool_decide_eq_true_1 (NoDup _)). vm_compute. reflexivity.
    + intros p _. apply lookup_empty.
  - rewrite !Forall_cons in Hv. destruct Hv as (H1&H2&H3&H4&H5&H6&_).
    unfold presign_segments, pair_text. cbn [app fmap list_fmap fst snd].
    repeat constructor; rewrite !str_contains_char_app; cbn; by rewrite ?H1, ?H2, ?H3, ?H4, ?H5, ?H6.
Qed.

Section presigned.
Context `{DL : DistDepsLaws} `{CP : !CborPayload CapabilityClaims} {B : Backend} `{BLi : BackendListing B}.
Context (ds : DistributionService).

Lemma client_presign_params date amz_date expires :
  presign_params date amz_date expires
  = presign_map "AWS4-HMAC-SHA256"
      (SIGV4_ACCESS_KEY_ID +:+ "/" +:+ (date +:+ "/" +:+ SIGV4_REGION +:+ "/s3/aws4_request"))
      amz_date (dec expires) "host".
Proof. reflexivity. Qed.

(** Both sides derive the same signature. *)
Lemma presign_signature_agrees date amz_date canonical :
  sigv4_signature SIGV4_SECRET_ACCESS_KEY date SIGV4_REGION "s3"
    (sigv4_string_to_sign amz_date (credential_scope date SIGV4_REGION "s3") canonical)
  = Ok (client_sigv4_signature SIGV4_SECRET_ACCESS_KEY date SIGV4_REGION SIGV4_SERVICE
          (client_string_to_sign amz_date
             (date +:+ "/" +:+ SIGV4_REGION +:+ "/" +:+ SIGV4_SERVICE +:+ "/aws4_request") canonical)).
Proof. reflexivity. Qed.

Lemma presign_canonical_agrees headers raw_path query host :
  header_get_all headers "host" = [as_bytes host] → str_forallb visible host = true →
  canonical_sigv4_request "GET" raw_path query headers (split_signed_headers "host") "UNSIGNED-PAYLOAD"
  = Ok (sigv4_canonical_request "GET" raw_path query host "UNSIGNED-PAYLOAD").
Proof.
  intros Hget Hvis. change (split_signed_headers "host") with ([("host", host)].*1).
  unfold canonical_sigv4_request. change (validate_signed_headers _) with (Ok (E := ApiError) tt).
  rewrite ok_bind, canonical_headers_of by (repeat constructor; done). rewrite ok_bind. f_equal.
  unfold sigv4_canonical_request. cbn [fmap list_fmap fst snd]. rewrite trim_visible by done.
  cbn [join]. change (join ";" ["host"]) with "host".
  change (join "" [?x]) with x. change (to_ascii_lowercase "host" +:+ ":" +:+ ?x) with ("host:" +:+ x).
  by rewrite <-!str_app_assoc.
Qed.

(** The signature of a URL of the client. *)
Definition url_signature (host raw_path date ts : string) (expires : Z) : string :=
  client_sigv4_signature SIGV4_SECRET_ACCESS_KEY date SIGV4_REGION SIGV4_SERVICE
    (client_string_to_sign ts
       (date +:+ "/" +:+ SIGV4_REGION +:+ "/" +:+ SIGV4_SERVICE +:+ "/aws4_request")
       (sigv4_canonical_request "GET" raw_path (client_presign_query (presign_params date ts expires))
          host "UNSIGNED-PAYLOAD")).

Lemma built_url_text base host raw_path date ts expires url raw_query :
  str_slice 0 8 ts = Some date →
  build_presigned_url base host raw_path ts expires = Ok url →
  url = base +:+ raw_path +:+ "?" +:+ raw_query →
  raw_query = client_presign_query (presign_params date ts expires) +:+ "&X-Amz-Signature=" +:+
    url_signature host raw_path date ts expires.
Proof.
  unfold build_presigned_url. intros ->. cbn [ok_or]. rewrite ok_bind. fold (url_signature host raw_path date ts expires).
  generalize (url_signature host raw_path date ts expires). generalize (client_presign_query (presign_params date ts expires)).
  intros q signature [= <-] Hurl.
  apply str_app_inj_len in Hurl as [_ Hurl]; [|done]. apply str_app_inj_len in Hurl as [_ Hurl]; [|done].
  by apply str_app_inj_len in Hurl as [_ <-].
Qed.

(** The server reads the URL back into its parameters. *)
Lemma built_url_params host raw_path date rest ts expires :
  ts = date +:+ String "T" rest → plain_token date = true → plain_token rest = true →
  let params := presign_params date ts expires in
  let signature := url_signature host raw_path date ts expires in
  parse_unique_query_pairs (client_presign_query params +:+ "&X-Amz-Signature=" +:+ signature)
    "invalid_presign" = Ok (<["X-Amz-Signature" := signature]> params) ∧
  canonical_presign_query (<["X-Amz-Signature" := signature]> params) = client_presign_query params.
Proof.
  intros Hshape Tdate Trest. cbn zeta.
  assert (Hamp : ∀ s, plain_token s = true → str_contains_char "&" s = false)
    by (intros s; by apply plain_token_avoids).
  assert (Tsig : plain_token (url_signature host raw_path date ts expires) = true)
    by apply alphanumeric_token, hex_lower_alphanumeric.
  revert Tsig. generalize (url_signature host raw_path date ts expires). intros signature Tsig.
  rewrite client_presign_params.
  destruct (presign_query_text "AWS4-HMAC-SHA256"
    (SIGV4_ACCESS_KEY_ID +:+ "/" +:+ (date +:+ "/" +:+ SIGV4_REGION +:+ "/s3/aws4_request"))
    ts (dec expires) "host" signature) as [Hc Hs].
  rewrite Hc, Hs. split; [|done]. apply presigned_query_read. repeat constructor.
  - by rewrite !str_contains_char_app, (Hamp date).
  - rewrite Hshape, str_contains_char_app, str_contains_char_cons, (Hamp date), (Hamp rest); done.
  - apply (str_contains_char_forallb (in_range 48 57)); [done|]. apply dec_digits.
    intros d Hd. unfold in_range, digit. rewrite byte_val_of_small by lia. lia.
  - by apply Hamp.
Qed.

(** A reading of the clock. *)
Definition ticked (w : World B) : World B :=
  mkWorld (w_store w) (w_draws w) (S (w_ticks w)) (w_replay w) (w_metrics w) (w_logs w).
Lemma time_window_world issued code kind (w w' : World B) r :
  ensure_sigv4_time_window issued code kind w = (r, w') → w' = ticked w.
Proof.
  unfold ensure_sigv4_time_window. rewrite ST_bind_run. unfold now_ms.
  repeat case_match; by intros [= _ <-].
Qed.
Lemma presign_map_lookups v1 v2 v3 v4 v5 sig :
  let params := <["X-Amz-Signature" := sig]> (presign_map v1 v2 v3 v4 v5) in
  params !! "X-Amz-Algorithm" = Some v1 ∧ params !! "X-Amz-Credential" = Some v2 ∧
  params !! "X-Amz-Date" = Some v3 ∧ params !! "X-Amz-Expires" = Some v4 ∧
  params !! "X-Amz-SignedHeaders" = Some v5 ∧ params !! "X-Amz-Signature" = Some sig.
Proof. split_and!; vm_compute; reflexivity. Qed.

(** A presigned URL of the client authenticates as the tenant of its access key; only
    writing the audit record can still fail. *)
Theorem presigned_url_authenticates base host raw_path ms expires url b (w : World B) record w1 r w' :
  0 <= ms < 253402300800000 → 0 <= expires <= MAX_PRESIGN_EXPIRES_SEC →
  build_presigned_url base host raw_path (client_amz_date_from_epoch_ms ms) expires = Ok url →
  url = base +:+ raw_path +:+ "?" +:+ hb_raw_query b → hb_method b = "GET" → hb_raw_path b = raw_path →
  header_get_all (hb_headers b) "host" = [as_bytes host] → str_forallb visible host = true →
  let issued := ms / 1000 * 1000 in
  Z.abs (clock (w_ticks w) - issued) <= MAX_SIGV4_CLOCK_SKEW_MS →
  clock (S (w_ticks w)) <= issued + expires * 1000 →
  sigv4_access_key ds SIGV4_ACCESS_KEY_ID (ticked (ticked w)) = (Ok record, w1) →
  ak_secret_access_key record = SIGV4_SECRET_ACCESS_KEY →
  authenticate_presigned_sigv4 ds b w = (r, w') →
  (∃ auth, r = Ok auth ∧ cl_tenant_id (claims auth) = ak_tenant_id record) ∨
  (∃ e audit w2, r = Err e ∧
     dist_write_encrypted_json ds (ak_tenant_id record) PRESIGN_AUDIT_STORE
       (cid_from_bytes (as_bytes (hb_raw_query b))) (audit : PresignAuditRecord) w2 = (Err e, w')).
Proof.
  intros Hms Hexp Hbuild Hurl Hmethod Hpath Hhost Hvis issued Hskew Hlive Hkey Hsecret.
  destruct (amz_date_shape ms Hms) as (date&rest&Hshape&Hlen&Tdate&Trest).
  assert (Hslice : str_slice 0 8 (amz_date_from_epoch_ms ms) = Some date)
    by (rewrite Hshape; by apply date_slice).
  apply (built_url_text _ _ _ _ _ _ _ _ Hslice Hbuild) in Hurl.
  destruct (built_url_params host raw_path date rest _ expires Hshape Tdate Trest) as [Hparams Hquery].
  cbn zeta in Hparams, Hquery. rewrite <-Hurl in Hparams.
  set (signature := url_signature _ _ _ _ _) in *.
  rewrite client_presign_params in Hparams, Hquery.
  destruct (presign_map_lookups "AWS4-HMAC-SHA256"
    (SIGV4_ACCESS_KEY_ID +:+ "/" +:+ (date +:+ "/" +:+ SIGV4_REGION +:+ "/s3/aws4_request"))
    (amz_date_from_epoch_ms ms) (dec expires) "host" signature) as (L1&L2&L3&L4&L5&L6).
  set (params := <["X-Amz-Signature" := signature]> _) in *.
  unfold authenticate_presigned_sigv4. rewrite (lift_bind_ok _ _ _ _ Hparams). cbn zeta.
  rewrite L1, L2, L3, L4, L5, L6. cbn [default ok_or mbind option_bind]. unfold id.
  rewrite parse_u64_dec by (unfold u64_range, MAX_PRESIGN_EXPIRES_SEC in *; lia).
  rewrite String.eqb_refl. cbn [negb ok_or].
  do 5 (erewrite lift_bind_ok by reflexivity).
  destruct (Z.ltb_spec MAX_PRESIGN_EXPIRES_SEC expires); [lia|].
  erewrite lift_bind_ok by (by apply amz_date_roundtrip). fold issued.
  assert (Hissued : 0 <= issued <= u64_max)
    by (unfold issued, u64_max; Z.to_euclidean_division_equations; lia).
  destruct (time_window_accepts issued "invalid_presign" "presigned URL" w Hissued Hskew) as [w2 Hwindow].
  rewrite ST_bind_run, Hwindow.
  apply time_window_world in Hwindow as ->. rewrite ST_bind_run. cbn [now_ms w_ticks w_store w_draws w_replay w_metrics w_logs ticked].
  assert (Hfuture : (u64_sat_add issued (expires * 1000) <? clock (S (w_ticks w))) = false).
  { apply Z.ltb_ge. unfold u64_sat_add, MAX_PRESIGN_EXPIRES_SEC, issued, u64_max in *.
    Z.to_euclidean_division_equations. lia. }
  rewrite Hfuture. erewrite lift_bind_ok by (by apply parse_client_credential). cbn beta iota.
  change (mkWorld _ _ _ _ _ _) with (ticked (ticked w)). rewrite ST_bind_run, Hkey, Hmethod, Hpath, Hquery.
  rewrite (lift_bind_ok _ _ _ _ (presign_canonical_agrees _ _ _ _ Hhost Hvis)), Hsecret.
  rewrite (lift_bind_ok _ _ _ _ (presign_signature_agrees _ _ _)), <-client_presign_params.
  fold (url_signature host raw_path date (amz_date_from_epoch_ms ms) expires). fold signature.
  rewrite String.eqb_refl. cbn [negb].
  rewrite ST_bind_run. unfold now_ms at 1. rewrite ST_bind_run.
  match goal with |- context [dist_write_encrypted_json ?d ?t ?k ?id ?a ?w2] =>
    destruct (dist_write_encrypted_json d t k id a w2) as [[u|e] w3] eqn:Hwrite end.
  - destruct (sigv4_auth_context_total record "GET" signature w3) as (auth&w4&->&Htenant).
    intros [= <- <-]. left. eauto.
  - intros [= <- <-]. right. eauto.
Qed.
End presigned.

(** ** Witness *)

Import ToyClient ToyWire ToyFront.

Definition client_key : bytes := replicate 32 "K"%char.
Definition sample_frame : AuthFrame :=
  match auth_frame sample_connection client_key (client_claims "j1" "hsp" "tenant-alpha" [ScopeRead]) with
  | Ok frame => frame
  | Err _ => mkAuthFrame "" (mkChannelBindingProof "" "" "")
  end.
Definition sample_request : ReqHeader string :=
  mkReqHeader 1 OpHead (Some 7) (Some PmJson) (Some 2) ∅ ∅.
Definition sample_sent : result WireCodecError unit * wstate mem_writer :=
  send_frames mem_writer (request_frames (Some sample_frame) sample_request (as_bytes "{}")) [].

(** Witness of C27: a HEAD request, read from a stream that carries nothing else. *)
Lemma client_request_served_witness :
  ∃ r', handle_request_stream (V := string) mem_reader mem_writer
      (mkNativeState concrete_service (client_registry client_key)) sample_connection (λ _ w, w) 2
      (@mkSession mem_reader mem_writer disk sample_sent.2 [] disk_world)
    = serve_operation (V := string) mem_reader mem_writer
        (mkNativeState concrete_service (client_registry client_key)) (λ _ w, w) 2
        (Some (mkAuthContext (client_claims "j1" "hsp" "tenant-alpha" [ScopeRead])
                 (Some (af_channel_binding sample_frame))))
        sample_request (as_bytes "{}") (@mkSession mem_reader mem_writer disk r' [] disk_world).
Proof.
  destruct (client_request_served (V := string) (B := disk) mem_writer mem_reader (λ _ w, w) client_key sample_connection
    (client_claims "j1" "hsp" "tenant-alpha" [ScopeRead]) sample_frame sample_request (as_bytes "{}") []
    sample_sent.2 concrete_service) as (b&Hb&Hserved).
  - reflexivity.
  - vm_compute. reflexivity.
  - reflexivity.
  - left.
  - unfold sample_sent. apply run_pair. vm_compute. reflexivity.
  - vm_compute. congruence.
  - destruct (Hserved 2%nat (@mkSession mem_reader mem_writer disk sample_sent.2 [] disk_world) [])
      as (r'&_&Heq).
    + exact mem_reader_reliable.
    + lia.
    + rewrite app_nil_r. exact Hb.
    + by exists r'.
Defined.
