(* ===== verification/Conformance.v ===== *)
(** * conformance: the suite

    Models the scripts of [conformance/hsp-conformance/src/main.rs] that drive the
    servers with the reference client of [Client.v] and compare their answers:
    [run_distribution_suite] over HTTP, [run_suite_inner] over the native protocol and
    the gateway, and the report they make.  The HTTP client, the QUIC connections and
    the clocks are parameters; the text of an error stands for the error.  A slice or
    index out of range is a panic, which ends the suite without a report; the encoders
    the client calls with [expect] do not fail on what it encodes and are errors here. *)

From Stdlib Require Import ZArith Lia Ascii String Bool.
From stdpp Require Import base option list strings gmap numbers.
From S2P Require Import Prelude RustStr Path Core Cbor Auth Crypto Store ServiceState AmzDate Distribution SigV4 UrlStr S3Client Http S3 Wire Front Client.

(** ** Reports *)

(** The [serde_json::Value]s the reports are made of. *)
Inductive Value :=
| VNull
| VBool (b : bool)
| VNumber (n : Z)
| VString (s : string)
| VObject (fields : list (string * Value)).
(** [value[name]] is [Null] where there is no such field. *)
Definition value_at (name : string) (v : Value) : Value :=
  match v with
  | VObject fields => default VNull (snd <$> List.find (λ x, String.eqb x.1 name) fields)
  | _ => VNull
  end.
(** [.as_bool().unwrap_or(false)] *)
Definition as_bool (v : Value) : bool := match v with VBool b => b | _ => false end.
Definition optional_text (o : option string) : Value := from_option VString VNull o.

(** ** The HTTP client *)

(** A response of [reqwest]; reading its body may fail. *)
Record HttpReply := mkHttpReply {
  hp_status : Z;
  hp_headers : HeaderMap;
  hp_body : result string bytes;
}.
(** The client, with its network and its clocks: a request by method, URL, headers and
    body; [text()] of a response; how a status is displayed; the system clock and the
    monotonic clock in milliseconds, and [sleep]. *)
Record HttpNet := mkHttpNet {
  hnstate : Type;
  hn_build : ST hnstate string unit;
  hn_send : string → string → HeaderMap → bytes → ST hnstate string HttpReply;
  hn_text : HttpReply → result string string;
  hn_status : Z → string;
  hn_now_ms : ST hnstate string Z;
  hn_instant_ms : ST hnstate string Z;
  hn_sleep_ms : Z → ST hnstate string unit;
}.

(** A step stops with an error, which the suite reports, or with a panic, which it does
    not. *)
Inductive Stop :=
| Failed (error : string)
| Panicked (message : string).
Definition propagate {S A} (r : result string A) : ST S Stop A := lift_result (map_err Failed r).
Definition or_panic {S A} (r : result string A) : ST S Stop A := lift_result (map_err Panicked r).
Definition fail {S A} (error : string) : ST S Stop A := throw (Failed error).
Definition net_io {S A} (m : ST S string A) : ST S Stop A := λ s, (map_err Failed (m s).1, (m s).2).

Definition all_ops : list CapabilityScope := [ScopeRead; ScopeWrite; ScopeBind; ScopeUnbind; ScopeList].
Definition read_ops : list CapabilityScope := [ScopeRead; ScopeList].
Definition double_quote : ascii := "034"%char.
(** [.headers().get(name).and_then(|value| value.to_str().ok())] *)
Definition reply_header (reply : HttpReply) (name : string) : option string :=
  header_get (hp_headers reply) name ≫= header_to_str.
(** The entity tag without its quotes. *)
Definition reply_etag (reply : HttpReply) : option string :=
  (λ value, trim_end_char double_quote (trim_start_char double_quote value)) <$> reply_header reply "etag".

Section distribution_suite.
Context `{DistDeps} `{HttpDeps} `{ClientDeps} (N : HttpNet) (signing_key : bytes).
Context (s3_port cdn_port : Z).
Abbreviation Suite := (ST (hnstate N) Stop).

Definition http_send (method url : string) (headers : HeaderMap) (body : bytes) : Suite HttpReply :=
  net_io (hn_send N method url headers body).
Definition s3_base : string := "http://127.0.0.1:" +:+ dec s3_port.
Definition cdn_base : string := "http://127.0.0.1:" +:+ dec cdn_port.

(** A request to a path with a query, and the headers that bind the caller to it. *)
Definition url_of (base raw_path raw_query : string) : string :=
  base +:+ raw_path +:+ (if str_is_empty raw_query then "" else "?" +:+ raw_query).
Definition auth_headers_for (audience jti tenant_id : string) (ops : list CapabilityScope)
  (method raw_path raw_query : string) (body : bytes) : Suite HeaderMap :=
  propagate (distribution_auth_headers signing_key audience jti tenant_id ops
    (mkDistributionAuthBinding method raw_path raw_query body)).
Definition write_headers_for (jti method raw_path raw_query : string) (body : bytes)
  (idempotency_key : string) : Suite HeaderMap :=
  propagate (distribution_write_headers signing_key "hsp-s3" jti DIST_TENANT
    (mkDistributionAuthBinding method raw_path raw_query body) idempotency_key).
Definition s3_request (jti : string) (ops : list CapabilityScope) (method raw_path raw_query : string)
  (body : bytes) (more : HeaderMap) : Suite HttpReply :=
  headers ← auth_headers_for "hsp-s3" jti DIST_TENANT ops method raw_path raw_query body;
  http_send method (url_of s3_base raw_path raw_query) (headers ++ more) body.
Definition s3_write_request (jti method raw_path raw_query : string) (body : bytes) (idempotency_key : string)
  : Suite HttpReply :=
  headers ← write_headers_for jti method raw_path raw_query body idempotency_key;
  http_send method (url_of s3_base raw_path raw_query) headers body.
Definition cdn_request (jti tenant_id method raw_path : string) (more : HeaderMap) : Suite HttpReply :=
  headers ← auth_headers_for "hsp-cdn" jti tenant_id read_ops method raw_path "" [];
  http_send method (url_of cdn_base raw_path "") (headers ++ more) [].

(** The checks behind a request. *)
Definition expect_status (expected : Z) (what : string) (reply : HttpReply) : Suite unit :=
  if hp_status reply =? expected then mret tt
  else fail (what +:+ " returned " +:+ hn_status N (hp_status reply)).
(** With the body in the message. *)
Definition expect_ok_or_body (what : string) (reply : HttpReply) : Suite unit :=
  if hp_status reply =? StatusOk then mret tt
  else fail (what +:+ " returned " +:+ hn_status N (hp_status reply) +:+ ": " +:+
              default "" (result_ok (hn_text N reply))).
Definition reply_bytes (reply : HttpReply) : Suite bytes := propagate (hp_body reply).
Definition reply_text (reply : HttpReply) : Suite string := propagate (hn_text N reply).

(** ** Objects on the S3 surface *)

Definition create_media : Suite unit :=
  create ← s3_request "s3-create-bucket" all_ops "PUT" "/media" "" [] [];
  expect_status StatusOk "s3 create bucket" create.
Definition create_replica : Suite unit :=
  replica_create ← s3_request "s3-create-replica-bucket" all_ops "PUT" "/replica" "" [] [];
  expect_status StatusOk "s3 create replica bucket" replica_create.

Definition ciphertext : bytes := as_bytes "cdn-ciphertext-object".
(** The object CID, from the entity tag. *)
Definition put_video : Suite string :=
  put ← s3_write_request "s3-put-object" "PUT" "/media/video.bin" "" ciphertext "conf-s3-put";
  _ ← expect_ok_or_body "s3 put object" put;
  propagate (ok_or (reply_etag put) "s3 put did not return etag").
Definition head_video : Suite string :=
  head ← s3_request "s3-head-object" read_ops "HEAD" "/media/video.bin" "" [] [];
  _ ← expect_status StatusOk "s3 head object" head;
  mret (default "" (reply_etag head)).
Definition get_video : Suite bytes :=
  get ← s3_request "s3-get-object" read_ops "GET" "/media/video.bin" "" [] [];
  _ ← expect_status StatusOk "s3 get object" get;
  reply_bytes get.
Definition list_media : Suite string :=
  list ← s3_request "s3-list-objects" read_ops "GET" "/media" "list-type=2" [] [];
  _ ← expect_status StatusOk "s3 list objects" list;
  reply_text list.
Definition put_acl : Suite unit :=
  put_acl ← s3_request "s3-put-acl" all_ops "PUT" "/media/video.bin" "acl" []
              [("x-amz-acl", as_bytes "public-read")];
  expect_status StatusOk "s3 put object acl" put_acl.
Definition get_acl : Suite string :=
  get_acl ← s3_request "s3-get-acl" read_ops "GET" "/media/video.bin" "acl" [] [];
  _ ← expect_status StatusOk "s3 get object acl" get_acl;
  reply_text get_acl.
Definition copy_video : Suite bytes :=
  copy ← s3_request "s3-copy-object" all_ops "PUT" "/media/video-copy.bin" "" []
           [("x-amz-copy-source", as_bytes "/media/video.bin")];
  _ ← expect_status StatusOk "s3 copy object" copy;
  copy_get ← s3_request "s3-get-copy-object" read_ops "GET" "/media/video-copy.bin" "" [] [];
  _ ← expect_status StatusOk "s3 get copied object" copy_get;
  reply_bytes copy_get.
(** The body of the bulk deletion, and the status of a read afterwards. *)
Definition delete_target : Suite (string * Z) :=
  delete_put ← s3_write_request "s3-put-delete-object" "PUT" "/media/delete-me.bin" "" (as_bytes "delete-me")
                 "conf-s3-delete-me-put";
  _ ← expect_status StatusOk "s3 put delete target" delete_put;
  let delete_body := "<Delete><Object><Key>delete-me.bin</Key></Object></Delete>" in
  delete_objects ← s3_request "s3-delete-objects" all_ops "POST" "/media" "delete" (as_bytes delete_body) [];
  _ ← expect_status StatusOk "s3 delete objects" delete_objects;
  delete_objects_body ← reply_text delete_objects;
  deleted_get ← s3_request "s3-get-deleted-object" read_ops "GET" "/media/delete-me.bin" "" [] [];
  mret (delete_objects_body, hp_status deleted_get).

(** ** Multipart uploads *)

Definition create_multipart : Suite string :=
  create_multipart ← s3_write_request "s3-create-multipart" "POST" "/media/multi.bin" "uploads" []
                       "conf-s3-multipart-create";
  _ ← expect_status StatusOk "s3 create multipart" create_multipart;
  create_multipart_body ← reply_text create_multipart;
  propagate (ok_or (xml_tag_value create_multipart_body "UploadId")
                 "multipart create did not return UploadId").
Definition part_1 : bytes := as_bytes "multi-".
Definition upload_part_1 (upload_id : string) : Suite string :=
  upload_part_1 ← s3_request "s3-upload-part-1" all_ops "PUT" "/media/multi.bin"
                    ("partNumber=1&uploadId=" +:+ upload_id) part_1 [];
  _ ← expect_status StatusOk "s3 upload part 1" upload_part_1;
  mret (default "" (reply_header upload_part_1 "etag")).
Definition part_2 : bytes := as_bytes "payload".
Definition upload_part_2 (upload_id : string) : Suite string :=
  upload_part_2 ← s3_request "s3-upload-part-2" all_ops "PUT" "/media/multi.bin"
                    ("partNumber=2&uploadId=" +:+ upload_id) part_2 [];
  _ ← expect_status StatusOk "s3 upload part 2" upload_part_2;
  mret (default "" (reply_header upload_part_2 "etag")).
Definition complete_body (part_1_etag part_2_etag : string) : string :=
  "<CompleteMultipartUpload><Part><PartNumber>1</PartNumber><ETag>" +:+ part_1_etag +:+
  "</ETag></Part><Part><PartNumber>2</PartNumber><ETag>" +:+ part_2_etag +:+
  "</ETag></Part></CompleteMultipartUpload>".
Definition complete_multipart (upload_id part_1_etag part_2_etag : string) : Suite bytes :=
  complete ← s3_request "s3-complete-multipart" all_ops "POST" "/media/multi.bin"
               ("uploadId=" +:+ upload_id) (as_bytes (complete_body part_1_etag part_2_etag)) [];
  _ ← expect_status StatusOk "s3 complete multipart" complete;
  multipart_get ← s3_request "s3-get-multipart-object" read_ops "GET" "/media/multi.bin" "" [] [];
  _ ← expect_status StatusOk "s3 get multipart object" multipart_get;
  reply_bytes multipart_get.
Definition abort_multipart : Suite unit :=
  abort_create ← s3_write_request "s3-create-abort-multipart" "POST" "/media/abort.bin" "uploads" []
                   "conf-s3-abort-create";
  _ ← expect_status StatusOk "s3 create abort multipart" abort_create;
  abort_create_body ← reply_text abort_create;
  abort_upload_id ← propagate (ok_or (xml_tag_value abort_create_body "UploadId")
                      "abort multipart create did not return UploadId");
  abort ← s3_request "s3-abort-multipart" all_ops "DELETE" "/media/abort.bin"
            ("uploadId=" +:+ abort_upload_id) [] [];
  expect_status StatusNoContent "s3 abort multipart" abort.

(** ** Replication *)

Definition elapsed_since (started : Z) : Suite Z :=
  now ← net_io (hn_instant_ms N); mret (now - started).
Definition put_replication : Suite unit :=
  let replication_config_body :=
    "<ReplicationConfiguration><DestinationBucket>replica</DestinationBucket><Enabled>true</Enabled></ReplicationConfiguration>" in
  replication_config ← s3_request "s3-put-replication" all_ops "PUT" "/media" "replication"
                         (as_bytes replication_config_body) [];
  expect_status StatusOk "s3 put replication config" replication_config.
(** The time it took and the number of copied objects. *)
Definition run_replication : Suite (Z * Z) :=
  replication_started ← net_io (hn_instant_ms N);
  replication_run ← s3_request "s3-run-replication" all_ops "POST" "/media" "replication-run" [] [];
  _ ← expect_status StatusOk "s3 replication-run" replication_run;
  replication_run_ms ← elapsed_since replication_started;
  replication_body ← reply_text replication_run;
  mret (replication_run_ms,
        default 0 (xml_tag_value replication_body "CopiedObjects" ≫= parse_u64)).
Definition get_replica : Suite bytes :=
  replica_get ← s3_request "s3-get-replica-object" read_ops "GET" "/replica/video.bin" "" [] [];
  _ ← expect_status StatusOk "s3 get replica object" replica_get;
  reply_bytes replica_get.

(** ** The CDN *)

Definition cache_status (reply : HttpReply) : string := default "" (reply_header reply "x-hsp-cache-status").
Definition cdn_get_1 : Suite (string * bytes) :=
  cdn_get_1 ← cdn_request "cdn-get-1" DIST_TENANT "GET" "/b/media/video.bin" [];
  _ ← expect_status StatusOk "cdn get by bucket/key" cdn_get_1;
  cdn_body_1 ← reply_bytes cdn_get_1;
  mret (cache_status cdn_get_1, cdn_body_1).
Definition cdn_get_2 : Suite string :=
  cdn_get_2 ← cdn_request "cdn-get-2" DIST_TENANT "GET" "/b/media/video.bin" [];
  _ ← expect_status StatusOk "cdn second get by bucket/key" cdn_get_2;
  mret (cache_status cdn_get_2).
Definition cdn_head : Suite string :=
  cdn_head ← cdn_request "cdn-head-object" DIST_TENANT "HEAD" "/b/media/video.bin" [];
  _ ← expect_status StatusOk "cdn head by bucket/key" cdn_head;
  mret (default "" (reply_etag cdn_head)).
Definition cdn_cid_path (object_cid : string) : string := "/cid/" +:+ object_cid.
Definition cdn_cid (object_cid : string) : Suite bytes :=
  cdn_cid ← cdn_request "cdn-get-cid" DIST_TENANT "GET" (cdn_cid_path object_cid) [];
  _ ← expect_status StatusOk "cdn get by cid" cdn_cid;
  reply_bytes cdn_cid.
Definition tenant_isolation_step (object_cid : string) : Suite (Z * string) :=
  reply ← cdn_request "cdn-tenant-isolation" "tenant-beta" "GET" (cdn_cid_path object_cid) [];
  mret (hp_status reply, default "" (result_ok (hn_text N reply))).
Definition cdn_range : Suite (Z * string * bytes) :=
  range_response ← cdn_request "cdn-range-read" DIST_TENANT "GET" "/b/media/video.bin"
                     [("range", as_bytes "bytes=0-3")];
  range_body ← reply_bytes range_response;
  mret (hp_status range_response, default "" (reply_header range_response "content-range"), range_body).

Definition updated_ciphertext : bytes := as_bytes "cdn-ciphertext-object-v2".
(** Overwrites the object and reads it from the CDN; cache status, body, time. *)
Definition rebind_video : Suite (string * bytes * Z) :=
  put_headers ← write_headers_for "s3-put-object-update" "PUT" "/media/video.bin" "" updated_ciphertext
                  "conf-s3-put-update";
  overwrite_started ← net_io (hn_instant_ms N);
  overwrite ← http_send "PUT" (url_of s3_base "/media/video.bin" "") put_headers updated_ciphertext;
  _ ← expect_ok_or_body "s3 overwrite" overwrite;
  _ ← net_io (hn_sleep_ms N 1600);
  cdn_rebind ← cdn_request "cdn-get-after-rebind" DIST_TENANT "GET" "/b/media/video.bin" [];
  _ ← expect_status StatusOk "cdn get after rebind" cdn_rebind;
  cdn_rebind_body ← reply_bytes cdn_rebind;
  cdn_rebind_ms ← elapsed_since overwrite_started;
  mret (cache_status cdn_rebind, cdn_rebind_body, cdn_rebind_ms).

(** ** Refused signatures *)

(** A read of the object with the given headers; the response has to be an error. *)
Definition refused_read (headers : HeaderMap) (raw_query expected_code : string) : Suite string :=
  reply ← http_send "GET" (url_of s3_base "/media/video.bin" raw_query) headers [];
  propagate (expect_s3_error_code (hn_status N) (hp_status reply) (default "" (result_ok (hn_text N reply)))
    StatusForbidden expected_code).
(** [&amz_date[0..8]] *)
Definition date_of (amz_date : string) : Suite string :=
  or_panic (ok_or (str_slice 0 8 amz_date) "byte index is out of bounds").
Definition stale_sigv4 : Suite string :=
  now ← net_io (hn_now_ms N);
  let stale_amz_date := client_amz_date_from_epoch_ms (u64_sat_sub now (10 * 60 * 1000)) in
  scope_date ← date_of stale_amz_date;
  headers ← propagate (sigv4_header_auth_headers stale_amz_date scope_date "host;x-amz-date");
  refused_read headers "" "invalid_sigv4".
Definition future_sigv4 : Suite string :=
  now ← net_io (hn_now_ms N);
  let future_amz_date := client_amz_date_from_epoch_ms (u64_sat_add now (10 * 60 * 1000)) in
  scope_date ← date_of future_amz_date;
  headers ← propagate (sigv4_header_auth_headers future_amz_date scope_date "host;x-amz-date");
  refused_read headers "" "invalid_sigv4".
Definition mismatch_sigv4 (current_amz_date : string) : Suite string :=
  headers ← propagate (sigv4_header_auth_headers current_amz_date "20000101" "host;x-amz-date");
  refused_read headers "" "invalid_sigv4".
Definition unsorted_sigv4 (current_amz_date : string) : Suite string :=
  scope_date ← date_of current_amz_date;
  headers ← propagate (sigv4_header_auth_headers current_amz_date scope_date "x-amz-date;host");
  refused_read headers "" "invalid_sigv4".
Definition missing_host_sigv4 (current_amz_date : string) : Suite string :=
  scope_date ← date_of current_amz_date;
  headers ← propagate (sigv4_header_auth_headers current_amz_date scope_date "x-amz-date");
  refused_read headers "" "invalid_sigv4".
Definition duplicate_header_sigv4 (current_amz_date : string) : Suite string :=
  scope_date ← date_of current_amz_date;
  headers ← propagate (sigv4_header_auth_headers current_amz_date scope_date "host;x-amz-date");
  headers ← or_panic (insert_text "x-amz-date" current_amz_date headers);
  refused_read headers "" "invalid_sigv4".
Definition duplicate_presign (current_amz_date : string) : Suite string :=
  scope_date ← date_of current_amz_date;
  refused_read []
    ("X-Amz-Algorithm=AWS4-HMAC-SHA256&X-Amz-Credential=" +:+ SIGV4_ACCESS_KEY_ID +:+ "/" +:+ scope_date
     +:+ "%2F" +:+ SIGV4_REGION +:+ "%2F" +:+ SIGV4_SERVICE
     +:+ "%2Faws4_request&X-Amz-SignedHeaders=host&X-Amz-Signature=deadbeef&X-Amz-Date=" +:+ current_amz_date
     +:+ "&X-Amz-Date=" +:+ current_amz_date +:+ "&X-Amz-Expires=30") "invalid_presign".

(** ** A presigned URL, used twice *)

Definition presigned_reads : Suite (bytes * bytes * Z) :=
  now ← net_io (hn_now_ms N);
  let near_expiry_date := client_amz_date_from_epoch_ms (u64_sat_sub now (4 * 60 * 1000)) in
  presign_started ← net_io (hn_instant_ms N);
  presign_url ← propagate (build_presigned_url s3_base ("127.0.0.1:" +:+ dec s3_port) "/media/video.bin"
                  near_expiry_date 300);
  presign_1 ← http_send "GET" presign_url [] [];
  _ ← expect_status StatusOk "presign get" presign_1;
  presign_body_1 ← reply_bytes presign_1;
  presign_2 ← http_send "GET" presign_url [] [];
  _ ← expect_status StatusOk "second presign get" presign_2;
  presign_body_2 ← reply_bytes presign_2;
  presign_roundtrip_ms ← elapsed_since presign_started;
  mret (presign_body_1, presign_body_2, presign_roundtrip_ms).

(** ** The report *)

(** What the steps observed. *)
Record DistributionResults := mkDistributionResults {
  dr_object_cid : string;
  dr_s3_head_etag : string;
  dr_s3_body : bytes;
  dr_list_body : string;
  dr_acl_body : string;
  dr_copy_body : bytes;
  dr_delete_objects_body : string;
  dr_deleted_status : Z;
  dr_multipart_body : bytes;
  dr_replication_run_ms : Z;
  dr_replication_copied_objects : Z;
  dr_replica_body : bytes;
  dr_cdn_cache_first : string;
  dr_cdn_body_1 : bytes;
  dr_cdn_cache_second : string;
  dr_cdn_head_etag : string;
  dr_cdn_cid_body : bytes;
  dr_isolation_status : Z;
  dr_isolation_body : string;
  dr_range_status : Z;
  dr_range_header : string;
  dr_range_body : bytes;
  dr_rebind_cache : string;
  dr_rebind_body : bytes;
  dr_rebind_ms : Z;
  dr_stale_body : string;
  dr_future_body : string;
  dr_mismatch_body : string;
  dr_unsorted_body : string;
  dr_missing_host_body : string;
  dr_duplicate_header_body : string;
  dr_duplicate_presign_body : string;
  dr_presign_body_1 : bytes;
  dr_presign_body_2 : bytes;
  dr_presign_roundtrip_ms : Z;
}.

Definition same_bytes (a b : bytes) : bool := bool_decide (a = b).
Definition replication_works (r : DistributionResults) : bool :=
  (0 <? dr_replication_copied_objects r) && same_bytes (dr_replica_body r) (dr_s3_body r).
Definition lists_video (r : DistributionResults) : bool := str_contains "<Key>video.bin</Key>" (dr_list_body r).
Definition multipart_works (r : DistributionResults) : bool := same_bytes (dr_multipart_body r) (part_1 ++ part_2).

Definition surface_report (r : DistributionResults) : Value :=
  VObject [("s3_object_cid", VString (dr_object_cid r)); ("s3_head_etag", VString (dr_s3_head_etag r));
    ("cdn_head_etag", VString (dr_cdn_head_etag r)); ("cdn_cache_first", VString (dr_cdn_cache_first r));
    ("cdn_cache_second", VString (dr_cdn_cache_second r)); ("cdn_rebind_cache", VString (dr_rebind_cache r));
    ("tenant_isolation_status", VNumber (dr_isolation_status r))].
Definition ok_field (b : bool) : Value := VObject [("ok", VBool b)].
Definition compatibility_report (r : DistributionResults) : Value :=
  VObject [("list_objects_v2", ok_field (lists_video r));
    ("copy_object", ok_field (same_bytes (dr_copy_body r) (dr_s3_body r)));
    ("delete_objects", ok_field (str_contains "<Key>delete-me.bin</Key>" (dr_delete_objects_body r)
       && (dr_deleted_status r =? StatusNotFound)));
    ("multipart", ok_field (multipart_works r)); ("replication", ok_field (replication_works r))].
Definition negative_report (r : DistributionResults) : Value :=
  VObject [("sigv4_stale_date", VBool (str_contains "older than the allowed clock skew window" (dr_stale_body r)));
    ("sigv4_future_date", VBool (str_contains "future X-Amz-Date" (dr_future_body r)));
    ("sigv4_scope_date_mismatch", VBool (str_contains "credential scope date" (dr_mismatch_body r)));
    ("sigv4_unsorted_headers", VBool (str_contains "sorted" (dr_unsorted_body r)));
    ("sigv4_missing_host", VBool (str_contains "include host" (dr_missing_host_body r)));
    ("sigv4_duplicate_header", VBool (str_contains "duplicate signed header" (dr_duplicate_header_body r)));
    ("presign_duplicate_query_parameter",
     VBool (str_contains "duplicate query parameter" (dr_duplicate_presign_body r)));
    ("cdn_tenant_cache_isolation",
     VBool (negb (dr_isolation_status r =? StatusOk)
            && (str_contains "object_not_found" (dr_isolation_body r)
                || str_contains "manifest_not_found" (dr_isolation_body r))));
    ("cdn_range_returns_content_range",
     VBool ((dr_range_status r =? StatusPartialContent) && starts_with "bytes 0-3/" (dr_range_header r)
            && same_bytes (dr_range_body r) (take 4 ciphertext)));
    ("cdn_namespace_rebind_purges_cache",
     VBool (eq_ignore_ascii_case (dr_rebind_cache r) "MISS" && same_bytes (dr_rebind_body r) updated_ciphertext));
    ("presign_near_expiry_replay_window",
     VBool (same_bytes (dr_presign_body_1 r) updated_ciphertext
            && same_bytes (dr_presign_body_2 r) updated_ciphertext))].
Definition timings_report (r : DistributionResults) : Value :=
  VObject [("replication_run", VNumber (dr_replication_run_ms r));
    ("cdn_namespace_rebind_visibility", VNumber (dr_rebind_ms r));
    ("presign_near_expiry_roundtrip", VNumber (dr_presign_roundtrip_ms r))].
Definition checks_report (r : DistributionResults) : Value :=
  VObject [("s3_put_get_roundtrip", VBool (same_bytes (dr_s3_body r) ciphertext));
    ("s3_head_matches_put_etag", VBool (String.eqb (dr_s3_head_etag r) (dr_object_cid r)));
    ("s3_acl_surface_works", VBool (str_contains "public-read" (dr_acl_body r)));
    ("s3_list_surface_works", VBool (lists_video r));
    ("s3_copy_surface_works", VBool (same_bytes (dr_copy_body r) (dr_s3_body r)));
    ("s3_delete_surface_works", VBool (dr_deleted_status r =? StatusNotFound));
    ("s3_multipart_surface_works", VBool (multipart_works r));
    ("s3_replication_surface_works", VBool (replication_works r));
    ("cdn_cache_hit_on_second_read", VBool (eq_ignore_ascii_case (dr_cdn_cache_second r) "HIT"));
    ("cdn_bucket_route_matches_s3", VBool (same_bytes (dr_cdn_body_1 r) (dr_s3_body r)));
    ("cdn_cid_route_matches_s3", VBool (same_bytes (dr_cdn_cid_body r) (dr_s3_body r)));
    ("cdn_head_matches_s3", VBool (String.eqb (dr_cdn_head_etag r) (dr_s3_head_etag r)));
    ("negative_matrix_complete", VBool true)].

Definition run_distribution_steps : Suite DistributionResults :=
  _ ← net_io (hn_build N);
  _ ← create_media; _ ← create_replica;
  object_cid ← put_video; s3_head_etag ← head_video; s3_body ← get_video;
  list_body ← list_media; _ ← put_acl; acl_body ← get_acl; copy_body ← copy_video;
  '(delete_objects_body, deleted_status) ← delete_target;
  upload_id ← create_multipart;
  part_1_etag ← upload_part_1 upload_id; part_2_etag ← upload_part_2 upload_id;
  multipart_body ← complete_multipart upload_id part_1_etag part_2_etag;
  _ ← abort_multipart; _ ← put_replication;
  '(replication_run_ms, copied) ← run_replication; replica_body ← get_replica;
  '(cdn_cache_first, cdn_body_1) ← cdn_get_1; cdn_cache_second ← cdn_get_2; cdn_head_etag ← cdn_head;
  cdn_cid_body ← cdn_cid object_cid;
  '(isolation_status, isolation_body) ← tenant_isolation_step object_cid;
  '(range_status, range_header, range_body) ← cdn_range;
  '(rebind_cache, rebind_body, rebind_ms) ← rebind_video;
  stale ← stale_sigv4; future ← future_sigv4;
  now ← net_io (hn_now_ms N);
  let current_amz_date := client_amz_date_from_epoch_ms now in
  mismatch ← mismatch_sigv4 current_amz_date; unsorted ← unsorted_sigv4 current_amz_date;
  missing_host ← missing_host_sigv4 current_amz_date;
  duplicate_header ← duplicate_header_sigv4 current_amz_date;
  presign_duplicate ← duplicate_presign current_amz_date;
  '(presign_body_1, presign_body_2, presign_ms) ← presigned_reads;
  mret (mkDistributionResults object_cid s3_head_etag s3_body list_body acl_body copy_body
          delete_objects_body deleted_status multipart_body replication_run_ms copied replica_body
          cdn_cache_first cdn_body_1 cdn_cache_second cdn_head_etag cdn_cid_body isolation_status
          isolation_body range_status range_header range_body rebind_cache rebind_body rebind_ms
          stale future mismatch unsorted missing_host duplicate_header presign_duplicate
          presign_body_1 presign_body_2 presign_ms).
Definition distribution_report (r : DistributionResults) : Value :=
  VObject [("surface", surface_report r); ("compatibility", compatibility_report r);
    ("negative", negative_report r); ("timings_ms", timings_report r); ("checks", checks_report r)].
Definition run_distribution_suite : Suite Value :=
  r ← run_distribution_steps; mret (distribution_report r).
End distribution_suite.

(** ** The native protocol and the gateway *)

(** [serde_json] at the types the suite sends and receives: request bodies, the
    parameters of a header from a [Value], and the answers. *)
Class SuiteDeps (V : Type) := {
  sd_put_init :: JsonWrite PutInitRequest;
  sd_put_commit :: JsonWrite PutCommitRequest;
  sd_get :: JsonWrite GetRequest;
  sd_info :: JsonRead InfoResponse;
  sd_put_init_response :: JsonRead PutInitResponse;
  sd_put_commit_response :: JsonRead PutCommitResponse;
  sd_get_meta :: JsonRead GetResponseMeta;
  sd_resolve :: JsonRead ResolveResponse;
  sd_list :: JsonRead ListResponse;
  sd_envelope :: JsonRead SubscribeEnvelope;
  params_from_value : Value → result string (gmap string V);
}.

(** The connections of the suite, beside its HTTP client: [connect_native] and
    [connect_gateway] to a port with a certificate, the stream of the next
    unidirectional stream, a request on a new bidirectional stream, and a request on
    the HTTP/3 connection. *)
Record SuiteNet := mkSuiteNet {
  sn_http : HttpNet;
  sn_writer : Writer;
  sn_reader : Reader;
  sn_finish : ST (wstate sn_writer) WireCodecError unit;
  sn_h3 : H3Client;
  sn_connect_native : string → Z → bytes → ST (hnstate sn_http) string Connection;
  sn_accept_uni : Connection → ST (hnstate sn_http) string (rstate sn_reader);
  sn_open_bi : Connection → ST (hnstate sn_http) string (wstate sn_writer * rstate sn_reader);
  sn_connect_gateway : string → Z → bytes → ST (hnstate sn_http) string (Connection * cstate sn_h3);
}.
(** The address of a server, by its port, and its certificate. *)
Record ServerAddress := mkServerAddress { sa_port : Z; sa_certificate_der : bytes }.

Section suite.
Context `{DistDeps} `{HttpDeps} `{ClientDeps} {V : Type} `{WireDeps V} `{SuiteDeps V}.
Context (N : SuiteNet) (signing_key : bytes) (fuel : nat).
Abbreviation net := (hnstate (sn_http N)).
Abbreviation Suite := (ST net Stop).

Definition never_ends : string := "the response does not end".
(** A program on streams of its own. *)
Definition on_streams {St A} (m : ST St WireCodecError A) (streams : St) : Suite A :=
  propagate (map_err wire_error_to_string (m streams).1).
Definition suite_native_request (connection : Connection) (auth : option AuthFrame) (header : ReqHeader V)
  (body : bytes) : Suite (option (Frame V) * list bytes) :=
  streams ← net_io (sn_open_bi N connection);
  o ← on_streams (send_native_request (sn_writer N) (sn_reader N) (sn_finish N) fuel auth header body) streams;
  match o with
  | Some (first, _, data_frames) => mret (first, data_frames)
  | None => fail never_ends
  end.
Definition json_header (operation : OperationName) : ReqHeader V :=
  mkReqHeader 1 operation None (Some PmJson) None ∅ ∅.
(** [if !matches!(first, Some(Frame::ResHeader(_)))] *)
Definition expect_res_header (first : option (Frame V)) (message : string) : Suite unit :=
  match first with Some (FrResHeader _) => mret tt | _ => fail message end.
(** [serde_json::from_slice(&data_frames[0])?] *)
Definition first_data {T} `{JsonRead T} (data_frames : list bytes) : Suite T :=
  b ← or_panic (ok_or (List.hd_error data_frames) "index out of bounds");
  propagate (from_json b).

(** *** The native server *)

Definition native_settings (connection : Connection) : Suite SettingsFrame :=
  settings_stream ← net_io (sn_accept_uni N connection);
  frame ← on_streams (read_frame (V := V) (sn_reader N)) settings_stream;
  match frame with
  | FrSettings settings => mret settings
  | frame => fail ("expected SETTINGS, got " +:+ frame_type_debug (frame_type frame))
  end.
Definition native_info (connection : Connection) : Suite InfoResponse :=
  '(first, data_frames) ← suite_native_request connection None (json_header OpInfo) [];
  _ ← expect_res_header first "native INFO did not return RES_HEADER";
  first_data data_frames.

Definition chunk_bytes : bytes := as_bytes "ciphertext!".
Definition chunk_cid : string := cid_from_bytes chunk_bytes.
Definition suite_manifest : Manifest := manifest_for_chunk chunk_cid.
Definition bind_metadata : metadata_map := {[ "label" := "quarterly" ]}.
Definition suite_bind_record : NamespaceMutationRecord :=
  mkNamespaceMutationRecord 1 "tenant-alpha" "docs" "reports/q1" KindBind (Some (manifest_cid suite_manifest))
    None None bind_metadata 2.
Definition base_claims (jti : string) : CapabilityClaims :=
  client_claims jti "hsp" "tenant-alpha" [ScopeRead; ScopeWrite; ScopeBind; ScopeList; ScopeSubscribe].
Definition without_jti (c : CapabilityClaims) : CapabilityClaims :=
  mkCapabilityClaims (iss c) (sub c) (aud c) (exp c) (nbf c) None (ops c) (cl_tenant_id c)
    (cl_namespace_prefix c) (cl_path_prefix c) (cl_max_object_size c) (cl_storage_classes c)
    (cl_key_policy_id c) (cl_metadata_visibility c).

Definition native_put_init (connection : Connection) : Suite PutInitResponse :=
  put_init_auth ← propagate (auth_frame connection signing_key (base_claims "native-conformance-put-init"));
  signed_record_b64 ← or_panic (client_sign_namespace_record signing_key suite_bind_record);
  body ← propagate (to_vec
    {| pi_tenant_id := "tenant-alpha"; pi_manifest := suite_manifest; pi_idempotency_key := "conf-init-1";
       pi_encryption_profile_id := "public-e2ee-v1"; pi_key_policy_id := "policy-default";
       pi_metadata_visibility := Split; pi_storage_class := "hot";
       pi_atomic_bind := Some
         {| ab_namespace := "docs"; ab_path := "reports/q1"; ab_if_revision := None;
            ab_metadata := bind_metadata; ab_ttl_ms := None; ab_signed_record_b64 := signed_record_b64 |} |});
  '(first, data_frames) ← suite_native_request connection (Some put_init_auth) (json_header OpPutInit) body;
  _ ← expect_res_header first "native PUT_INIT failed";
  first_data data_frames.
Definition native_put_chunk (connection : Connection) (session_id : string) : Suite unit :=
  put_chunk_auth ← propagate (auth_frame connection signing_key (base_claims "native-conformance-put-chunk"));
  params ← propagate (params_from_value (VObject
    [("tenant_id", VString "tenant-alpha"); ("session_id", VString session_id); ("chunk_index", VNumber 0);
     ("chunk_cid", VString chunk_cid); ("chunk_offset", VNumber 0);
     ("chunk_length", VNumber (len_u64 chunk_bytes)); ("content_encoding", VString "identity")]));
  '(first, _) ← suite_native_request connection (Some put_chunk_auth)
    (mkReqHeader 1 OpPutChunk None (Some PmRaw) (Some (len_u64 chunk_bytes)) params ∅) chunk_bytes;
  expect_res_header first "native PUT_CHUNK failed".
Definition native_put_commit (connection : Connection) (session_id : string) : Suite PutCommitResponse :=
  put_commit_auth ← propagate (auth_frame connection signing_key (base_claims "native-conformance-put-commit"));
  body ← propagate (to_vec
    {| cm_tenant_id := "tenant-alpha"; cm_session_id := session_id;
       cm_manifest_cid := manifest_cid suite_manifest; cm_idempotency_key := "conf-commit-1" |});
  '(first, data_frames) ← suite_native_request connection (Some put_commit_auth) (json_header OpPutCommit) body;
  _ ← expect_res_header first "native PUT_COMMIT failed";
  first_data data_frames.
Definition resolve_claims : CapabilityClaims := without_jti (base_claims "native-conformance-put-init").
Definition native_get (connection : Connection) : Suite GetResponseMeta :=
  resolve_auth ← propagate (auth_frame connection signing_key resolve_claims);
  body ← propagate (to_vec
    {| gq_tenant_id := "tenant-alpha"; gq_selector := selector_of_namespace "docs" "reports/q1";
       gq_preference := Some PrefManifestOnly; gq_range := None |});
  '(first, data_frames) ← suite_native_request connection (Some resolve_auth) (json_header OpGet) body;
  _ ← expect_res_header first "native GET by namespace failed";
  first_data data_frames.

(** *** The gateway *)

(** A request on the HTTP/3 connection, whose state goes on. *)
Definition gateway_request (port : Z) (headers : HeaderMap) (method path_and_query what : string)
  (h3 : cstate (sn_h3 N)) : Suite (HeaderMap * bytes * cstate (sn_h3 N)) :=
  let '(r, h3) := send_gateway_request (sn_h3 N) fuel method (uri_for port path_and_query) headers [] h3 in
  o ← propagate r;
  match o with
  | Some ((status, response_headers), body) =>
      if status =? StatusOk then mret (response_headers, body, h3)
      else fail ("gateway " +:+ what +:+ " returned " +:+ hn_status (sn_http N) status)
  | None => fail never_ends
  end.
Definition read_body_as {T} `{JsonRead T} (body : bytes) : Suite T := propagate (from_json body).

Record GatewayResults := mkGatewayResults {
  gwr_resolve : ResolveResponse;
  gwr_head_namespace : string;
  gwr_get_meta : GetResponseMeta;
  gwr_list : ListResponse;
  gwr_envelope : SubscribeEnvelope;
}.
Definition gateway_steps (gateway : ServerAddress) : Suite GatewayResults :=
  '(connection, h3) ← net_io (sn_connect_gateway N "localhost" (sa_port gateway) (sa_certificate_der gateway));
  gateway_headers ← propagate (client_auth_headers connection signing_key resolve_claims "gw-conformance-read");
  '(_, body, h3) ← gateway_request (sa_port gateway) gateway_headers "GET"
    "/v1/namespaces/docs/resolve/reports/q1?tenant_id=tenant-alpha" "RESOLVE" h3;
  resolve ← read_body_as body;
  '(response_headers, _, h3) ← gateway_request (sa_port gateway) gateway_headers "HEAD"
    "/v1/objects/namespace/docs/reports/q1?tenant_id=tenant-alpha" "HEAD" h3;
  let head_namespace :=
    default "" (header_get response_headers "x-hsp-resolved-namespace" ≫= header_to_str) in
  '(_, body, h3) ← gateway_request (sa_port gateway) gateway_headers "GET"
    "/v1/objects/namespace/docs/reports/q1?tenant_id=tenant-alpha&prefer=manifest-only" "GET" h3;
  gateway_get_meta ← read_body_as body;
  '(_, body, h3) ← gateway_request (sa_port gateway) gateway_headers "GET"
    "/v1/namespaces/docs/list?tenant_id=tenant-alpha&prefix=reports&recursive=true" "LIST" h3;
  list ← read_body_as body;
  '(_, body, _) ← gateway_request (sa_port gateway) gateway_headers "GET"
    "/v1/events?tenant_id=tenant-alpha&from_seq=0&namespace_prefix=docs&path_exact=reports/q1&event_type=namespace.bound"
    "events" h3;
  body ← propagate (ok_or (from_utf8 body) "invalid utf-8 sequence");
  first_line ← propagate (ok_or (List.hd_error (str_lines body)) "gateway events stream was empty");
  envelope ← propagate (from_json (as_bytes first_line));
  mret (mkGatewayResults resolve head_namespace gateway_get_meta list envelope).

(** *** The whole suite *)

Record NativeResults := mkNativeResults {
  nr_settings : SettingsFrame;
  nr_info : InfoResponse;
  nr_commit : PutCommitResponse;
  nr_get_meta : GetResponseMeta;
}.
Definition native_steps (native : ServerAddress) : Suite NativeResults :=
  connection ← net_io (sn_connect_native N "localhost" (sa_port native) (sa_certificate_der native));
  settings ← native_settings connection;
  info ← native_info connection;
  init ← native_put_init connection;
  _ ← native_put_chunk connection (pr_session_id init);
  commit ← native_put_commit connection (pr_session_id init);
  get_meta ← native_get connection;
  mret (mkNativeResults settings info commit get_meta).

Definition envelope_event_type (e : SubscribeEnvelope) : option EventType := ev_event_type <$> se_event e.
Definition suite_checks (n : NativeResults) (g : GatewayResults) (distribution : Value) : Value :=
  let check name := (name, VBool (as_bool (value_at name (value_at "checks" distribution)))) in
  VObject ([("native_and_gateway_object_match",
      VBool (bool_decide (rs_target_cid (gwr_resolve g) = Some (cmr_object_cid (nr_commit n)))));
    ("native_and_gateway_resolved_path_match",
      VBool (bool_decide (hr_resolved_path (gm_head (nr_get_meta n)) = hr_resolved_path (gm_head (gwr_get_meta g)))));
    ("list_contains_namespace_path",
      VBool (existsb (λ item, String.eqb (li_path item) "reports/q1") (ls_items (gwr_list g))));
    ("event_stream_contains_namespace_bound",
      VBool (bool_decide (envelope_event_type (gwr_envelope g) = Some NamespaceBound)));
    ("encrypted_store_ready", VBool (info_storage_encryption_required (nr_info n)))] ++
   (check <$> ["s3_put_get_roundtrip"; "s3_acl_surface_works"; "s3_list_surface_works"; "s3_copy_surface_works";
     "s3_delete_surface_works"; "s3_multipart_surface_works"; "s3_replication_surface_works";
     "cdn_cache_hit_on_second_read"; "cdn_head_matches_s3"; "negative_matrix_complete"])).
Definition suite_report (root : string) (n : NativeResults) (g : GatewayResults) (distribution : Value) : Value :=
  VObject [("ok", VBool true); ("root", VString root);
    ("native", VObject
      [("settings_server_instance_id", VString (set_server_instance_id (nr_settings n)));
       ("info_authority_profile", VString (info_authority_profile (nr_info n)));
       ("atomic_bind_upload", VBool true); ("object_cid", VString (cmr_object_cid (nr_commit n)));
       ("resolved_namespace", optional_text (hr_resolved_namespace (gm_head (nr_get_meta n))));
       ("resolved_path", optional_text (hr_resolved_path (gm_head (nr_get_meta n))))]);
    ("gateway", VObject
      [("resolve_revision", VNumber (rs_revision (gwr_resolve g)));
       ("resolve_target_cid", optional_text (rs_target_cid (gwr_resolve g)));
       ("head_namespace", VString (gwr_head_namespace g));
       ("get_manifest_only", VString (get_preference_as_str (gm_preference (gwr_get_meta g))));
       ("list_items", VNumber (len_u64 (ls_items (gwr_list g))));
       ("first_event_kind", VString (match se_kind (gwr_envelope g) with EnvEvent => "event" | EnvNotice => "notice" end));
       ("first_event_type", optional_text (event_type_as_str <$> envelope_event_type (gwr_envelope g)))]);
    ("distribution", value_at "surface" distribution);
    ("distribution_compatibility", value_at "compatibility" distribution);
    ("distribution_negative", value_at "negative" distribution);
    ("distribution_timings_ms", value_at "timings_ms" distribution);
    ("checks", suite_checks n g distribution)].

Definition run_suite_inner (root : string) (native gateway : ServerAddress) (s3_port cdn_port : Z) : Suite Value :=
  n ← native_steps native;
  g ← gateway_steps gateway;
  distribution ← run_distribution_suite (sn_http N) signing_key s3_port cdn_port;
  mret (suite_report root n g distribution).
(** An error becomes a report of its own; a panic has none. *)
Definition run_suite (root : string) (native gateway : ServerAddress) (s3_port cdn_port : Z) (s : net)
  : option Value * net :=
  let '(r, s) := run_suite_inner root native gateway s3_port cdn_port s in
  (match r with
   | Ok report => Some report
   | Err (Failed error) => Some (VObject [("ok", VBool false); ("root", VString root); ("error", VString error)])
   | Err (Panicked _) => None
   end, s).
End suite.
