(* ===== verification/ConformanceProps.v ===== *)
(** * conformance: what the suite shows

    The requests with a bad signature, sent by the suite to the S3 server over a
    loopback connection, are refused with the texts its report looks for. *)

From Stdlib Require Import ZArith Lia Ascii String Bool.
From stdpp Require Import base option list strings gmap numbers.
From S2P Require Import Prelude RustStr Path Core Cbor Concrete Auth Crypto Store ServiceState ConcreteService AmzDate Distribution Buckets SigV4 DistFacts ConcreteDist SigV4Props UrlStr Http S3Xml ConcreteHttp S3 S3Client S3Signing Wire WireProps Front ConcreteFront Client ConcreteClient ClientProps Conformance.

(** ** The S3 server behind the HTTP client *)

(** A text that XML leaves as it is: printable, without markup. *)
Definition xml_plain (s : string) : bool :=
  str_forallb (λ c, in_range 32 126 c
    && negb (existsb (Ascii.eqb c) ["<"; ">"; "&"; "'"; "034"]%char)) s.
(** Documented behaviour of the crates: printable ASCII is a header value, a body within
    the limit is read, and the error document has an element for the code and one for the
    message. *)
Class WireTextLaws `{HttpDeps} `{XmlDeps} : Prop := {
  printable_header : ∀ s, str_forallb (in_range 32 126) s = true → header_value s = Ok (as_bytes s);
  small_body : ∀ body limit, len_u64 body <= limit → to_bytes body limit = Ok body;
  error_document : ∀ code message, xml_plain code = true → xml_plain message = true →
    ∃ before between after, to_xml_string (mkErrorXml code message) =
      Ok (before +:+ "<Code>" +:+ code +:+ "</Code>" +:+ between +:+ message +:+ after);
}.

Section loopback.
Context `{DistDeps} `{!CborPayload CapabilityClaims} {B : Backend} `{BackendListing B}.
Context `{HttpDeps} `{XmlDeps} (s3 : S3State) (s3_port client_now : Z).

(** The HTTP client in front of the server: the URL is taken apart at the first question
    mark, the client adds its own headers, and a panic of the server closes the
    connection. *)
Definition loopback_send (method url : string) (headers : HeaderMap) (body : bytes)
  : ST (World B) string HttpReply := λ w,
  match strip_prefix (s3_base s3_port) url with
  | None => (Err "error sending request", w)
  | Some target =>
      let '(path, query) :=
        match split_once "?" target with Some (p, q) => (p, Some q) | None => (target, None) end in
      let request := mkRequest method path query
        ([("accept", as_bytes "*/*"); ("host", as_bytes ("127.0.0.1:" +:+ dec s3_port))] ++ headers) body in
      match handle_request s3 request w with
      | (Some response, w') =>
          (Ok (mkHttpReply (rs_status response) (rs_headers response) (Ok (rs_body response))), w')
      | (None, w') => (Err "connection closed before message completed", w')
      end
  end.
Definition loopback : HttpNet :=
  {| hnstate := World B;
     hn_build := mret tt;
     hn_send := loopback_send;
     hn_text := λ reply, b ← hp_body reply; Ok (of_bytes b);
     hn_status := dec;
     hn_now_ms := mret client_now;
     hn_instant_ms := mret client_now;
     hn_sleep_ms := λ _, mret tt |}.
End loopback.

Lemma str_contains_app s pre p post : s = pre +:+ p +:+ post → str_contains p s = true.
Proof.
  intros ->.
  assert (Hp : starts_with p (p +:+ post) = true).
  { apply starts_with_spec. by exists post. }
  induction pre as [|c pre IH].
  - rewrite str_app_nil_l. destruct (p +:+ post); cbn [str_contains]; by rewrite Hp.
  - rewrite str_app_cons. cbn [str_contains]. by rewrite IH, orb_true_r.
Qed.

Section refusals.
Context `{DD : DistDeps} `{CP : !CborPayload CapabilityClaims} {B : Backend} `{LB : BackendListing B}.
Context `{HD : HttpDeps} `{XD : XmlDeps} `{CD : ClientDeps} `{WL : !WireTextLaws}.
Context (s3 : S3State) (s3_port client_now : Z).
Abbreviation net := (loopback (B := B) s3 s3_port client_now).
Abbreviation ds := (ss_service s3).

(** The headers the server receives. *)
Definition received_headers (headers : HeaderMap) : HeaderMap :=
  [("accept", as_bytes "*/*"); ("host", as_bytes ("127.0.0.1:" +:+ dec s3_port))] ++ headers.

(** A read of the object, as the server gets it. *)
Definition video_request (query : string) (headers : HeaderMap) : Request :=
  mkRequest "GET" "/media/video.bin" (if str_is_empty query then None else Some query)
    (received_headers headers) [].
Lemma loopback_read query headers (w w' : World B) response :
  handle_request s3 (video_request query headers) w = (Some response, w') →
  loopback_send s3 s3_port "GET" (url_of (s3_base s3_port) "/media/video.bin" query) headers [] w =
  (Ok (mkHttpReply (rs_status response) (rs_headers response) (Ok (rs_body response))), w').
Proof.
  intros Hr. unfold loopback_send, url_of.
  rewrite (proj2 (strip_prefix_Some _ _ _) eq_refl).
  unfold video_request, received_headers in Hr. destruct (str_is_empty query).
  - rewrite str_app_nil_r. cbn [split_once Ascii.eqb Bool.eqb mbind option_bind]. by rewrite Hr.
  - change ("/media/video.bin" +:+ "?" +:+ query) with ("/media/video.bin" +:+ String "?" query).
    rewrite split_once_app by done. by rewrite Hr.
Qed.

(** A request whose authentication fails with [code] is the error the suite expects, and
    its body has the message. *)
Lemma refused_body headers query code part before after (w w' : World B) :
  xml_plain code = true → xml_plain (before +:+ part +:+ after) = true →
  code ≠ "panic" →
  authenticate_request s3 "GET" "/media/video.bin" query (received_headers headers) [] w
    = (Err (auth_error code (before +:+ part +:+ after)), w') →
  ∃ body, refused_read net s3_port headers query code w = (Ok body, w') ∧ str_contains part body = true.
Proof.
  intros Hcode Hmessage Hpanic Hauth.
  destruct (error_document code (before +:+ part +:+ after)) as (x & y & z & Hdoc); [done..|].
  set (body := x +:+ "<Code>" +:+ code +:+ "</Code>" +:+ y +:+ (before +:+ part +:+ after) +:+ z) in *.
  assert (Hhandle : handle_request s3 (video_request query headers) w =
    (Some (api_error_response (auth_error code (before +:+ part +:+ after))), w')).
  { unfold handle_request, handle. unfold video_request. cbn [rq_body rq_method rq_path rq_query rq_headers].
    rewrite small_body by done. cbn [map_err]. rewrite (lift_bind_ok (Ok []) [] _ w eq_refl).
    cbn [String.eqb Ascii.eqb Bool.eqb andb]. rewrite ST_bind_run.
    replace (default "" (if str_is_empty query then None else Some query)) with query by (by destruct query).
    rewrite Hauth. cbn. unfold is_panic. cbn. by rewrite (proj2 (String.eqb_neq code "panic")). }
  exists body. split.
  2: { apply (str_contains_app _ (x +:+ "<Code>" +:+ code +:+ "</Code>" +:+ y +:+ before) _ (after +:+ z)).
       subst body. by rewrite <-!str_app_assoc. }
  unfold refused_read, http_send, net_io. rewrite ST_bind_run. cbn [hn_send loopback].
  rewrite (loopback_read _ _ _ _ _ Hhandle). cbn [map_err fst snd].
  assert (Hbody : rs_body (api_error_response (auth_error code (before +:+ part +:+ after))) = as_bytes body).
  { unfold api_error_response, error_xml. cbn [rs_body err_code err_message auth_error]. by rewrite Hdoc. }
  rewrite Hbody. cbn [hn_text hp_body hp_status loopback]. rewrite ok_bind. cbn [result_ok default].
  unfold id. rewrite of_as_bytes. unfold propagate, lift_result, expect_s3_error_code. cbn [rs_status api_error_response err_category auth_error status_for_category].
  rewrite Z.eqb_refl. cbn [negb]. replace (str_contains _ body) with true; [done|].
  symmetry. apply (str_contains_app _ x _ (y +:+ (before +:+ part +:+ after) +:+ z)).
  subst body. by rewrite <-!str_app_assoc.
Qed.

(** ** Signatures in the header *)

(** The headers of a request with a signature, printable as they are. *)
Definition sigv4_headers (amz_date scope_date signed_headers : string) : HeaderMap :=
  [("authorization", as_bytes ("AWS4-HMAC-SHA256 Credential=" +:+ SIGV4_ACCESS_KEY_ID +:+ "/" +:+
      (scope_date +:+ "/" +:+ SIGV4_REGION +:+ "/s3/aws4_request") +:+ ", SignedHeaders=" +:+ signed_headers
      +:+ ", Signature=deadbeef"));
   ("x-amz-date", as_bytes amz_date)].
Lemma printable_visible s : str_forallb visible s = true → str_forallb (in_range 32 126) s = true.
Proof.
  apply str_forallb_impl. unfold visible, in_range. intros c. rewrite !andb_true_iff, !Z.leb_le. lia.
Qed.
Lemma sigv4_headers_ok amz_date scope_date signed_headers :
  plain_token amz_date = true → plain_token scope_date = true → str_forallb visible signed_headers = true →
  sigv4_header_auth_headers amz_date scope_date signed_headers = Ok (sigv4_headers amz_date scope_date signed_headers).
Proof.
  intros Hdate Hscope Hnames. unfold sigv4_header_auth_headers, insert_text.
  rewrite (printable_header amz_date) by (by apply printable_visible, plain_token_visible).
  rewrite printable_header.
  - rewrite !ok_bind. unfold sigv4_headers. cbn [app]. do 4 f_equal. by rewrite <-!str_app_assoc.
  - rewrite !str_forallb_app. rewrite (printable_visible signed_headers), (printable_visible scope_date) by
      (done || by apply plain_token_visible). done.
Qed.

(** ** Reading the header *)

Lemma as_bytes_to_str s : str_forallb (in_range 32 126) s = true → header_to_str (as_bytes s) = Some s.
Proof.
  intros Hs. unfold header_to_str. rewrite as_bytes_forallb, of_as_bytes.
  rewrite (str_forallb_impl (in_range 32 126)); [done| |done]. intros c Hc. by rewrite Hc.
Qed.

(** The request, with its date a second time or not. *)
Definition sigv4_request (amz_date scope_date names : string) (again : bool) : HeaderMap :=
  sigv4_headers amz_date scope_date names ++ (if again then [("x-amz-date", as_bytes amz_date)] else []).
(** What the server does with it once it knows the key. *)
Lemma header_request_run amz_date scope_date names again issued (w w1 : World B) record :
  plain_token amz_date = true → plain_token scope_date = true → str_forallb visible names = true →
  str_contains_char "," names = false →
  parse_amz_date_with_code amz_date "invalid_sigv4" = Ok issued →
  sigv4_access_key ds SIGV4_ACCESS_KEY_ID w = (Ok record, w1) →
  let headers := received_headers (sigv4_request amz_date scope_date names again) in
  authenticate_request s3 "GET" "/media/video.bin" "" headers [] w =
  (_ ← ensure_sigv4_time_window issued "invalid_sigv4" "header-based SigV4 request";
   if negb (starts_with scope_date amz_date) then
     throw (sigv4_error "x-amz-date does not match credential scope date")
   else
   canonical ← lift_result (canonical_sigv4_request "GET" "/media/video.bin" "" headers
     (split_signed_headers names) (hex_sha256 []));
   expected ← lift_result (sigv4_signature (ak_secret_access_key record) scope_date SIGV4_REGION "s3"
     (sigv4_string_to_sign amz_date (credential_scope scope_date SIGV4_REGION "s3") canonical));
   if negb (String.eqb expected "deadbeef") then throw (sigv4_error "AWS Signature V4 verification failed")
   else sigv4_auth_context record "GET" "deadbeef") w1.
Proof.
  intros Hdate Hscope Hnames Hcomma Hparse Hkey headers.
  set (authorization := "AWS4-HMAC-SHA256 Credential=" +:+ SIGV4_ACCESS_KEY_ID +:+ "/" +:+
      (scope_date +:+ "/" +:+ SIGV4_REGION +:+ "/s3/aws4_request") +:+ ", SignedHeaders=" +:+ names
      +:+ ", Signature=deadbeef").
  assert (Ha : required_header headers "authorization" = Ok authorization).
  { unfold required_header. replace (header_get headers "authorization") with (Some (as_bytes authorization))
      by (by destruct again). cbn [mbind option_bind]. rewrite as_bytes_to_str; [done|].
    subst authorization. rewrite !str_forallb_app.
    by rewrite (printable_visible names), (printable_visible scope_date) by (done || by apply plain_token_visible). }
  assert (Hd : required_header headers "x-amz-date" = Ok amz_date).
  { unfold required_header. replace (header_get headers "x-amz-date") with (Some (as_bytes amz_date))
      by (by destruct again). cbn [mbind option_bind]. rewrite as_bytes_to_str; [done|].
    by apply printable_visible, plain_token_visible. }
  replace (authenticate_request s3 "GET" "/media/video.bin" "" headers [] w)
    with (authenticate_header_sigv4 ds (mkHttpRequestBinding "GET" "/media/video.bin" "" headers []) w)
    by (by destruct again).
  unfold authenticate_header_sigv4. cbn [hb_headers hb_method hb_raw_path hb_raw_query hb_body].
  rewrite (lift_bind_ok _ _ _ _ Ha).
  rewrite (lift_bind_ok _ _ _ _ (parse_authorization_shape SIGV4_ACCESS_KEY_ID scope_date SIGV4_REGION names
    "deadbeef" eq_refl Hscope eq_refl eq_refl Hcomma)).
  cbn [ps_access_key_id ps_date ps_region ps_service ps_credential_scope ps_signed_headers ps_signature].
  rewrite ST_bind_run, Hkey. rewrite (lift_bind_ok _ _ _ _ Hd), (lift_bind_ok _ _ _ _ Hparse).
  replace (payload_hash_of _) with (hex_sha256 []) by (by destruct again).
  rewrite String.eqb_refl, andb_false_r. done.
Qed.

(** ** Times *)

Lemma window_stale issued code kind (w : World B) :
  0 <= clock (w_ticks w) <= u64_max → issued + MAX_SIGV4_CLOCK_SKEW_MS < clock (w_ticks w) →
  ensure_sigv4_time_window issued code kind w =
  (Err (auth_error code (kind +:+ " is older than the allowed clock skew window")), ticked w).
Proof.
  intros Hnow Hold. unfold ensure_sigv4_time_window, MAX_SIGV4_CLOCK_SKEW_MS in *.
  rewrite ST_bind_run. unfold now_ms, u64_sat_add, u64_sat_sub, u64_max in *.
  rewrite (proj2 (Z.ltb_ge _ _)) by lia. by rewrite (proj2 (Z.ltb_lt _ _)) by lia.
Qed.
Lemma window_future issued code kind (w : World B) :
  clock (w_ticks w) + MAX_SIGV4_CLOCK_SKEW_MS < issued →
  ensure_sigv4_time_window issued code kind w =
  (Err (auth_error code (kind +:+ " has a future X-Amz-Date outside the allowed clock skew")), ticked w).
Proof.
  intros Hnew. unfold ensure_sigv4_time_window. rewrite ST_bind_run. unfold now_ms, u64_sat_add.
  by rewrite (proj2 (Z.ltb_lt _ _)) by lia.
Qed.
Lemma window_open issued code kind (w : World B) :
  0 <= issued <= u64_max → Z.abs (clock (w_ticks w) - issued) <= MAX_SIGV4_CLOCK_SKEW_MS →
  ensure_sigv4_time_window issued code kind w = (Ok tt, ticked w).
Proof.
  intros Hi Ha. destruct (time_window_accepts issued code kind w Hi Ha) as [w' Hw].
  by rewrite Hw, (time_window_world _ _ _ _ _ _ Hw).
Qed.

(** A date of the client, with its day. *)
Lemma client_date ms :
  0 <= ms < 253402300800000 →
  let amz_date := client_amz_date_from_epoch_ms ms in
  ∃ date, str_slice 0 8 amz_date = Some date ∧ plain_token date = true ∧ plain_token amz_date = true ∧
    starts_with date amz_date = true ∧
    parse_amz_date_with_code amz_date "invalid_sigv4" = Ok (ms / 1000 * 1000).
Proof.
  intros Hms amz_date. subst amz_date. unfold client_amz_date_from_epoch_ms.
  pose proof (amz_date_roundtrip ms "invalid_sigv4" Hms) as Hparse.
  destruct (amz_date_shape ms Hms) as (date&rest&Hshape&Hlen&Tdate&Trest).
  exists date. rewrite Hshape in *. split_and!; [by apply date_slice|done| | |done].
  - unfold plain_token in *. rewrite str_forallb_app. cbn [str_forallb]. by rewrite Tdate, Trest.
  - apply starts_with_spec. eauto.
Qed.

Context (w w1 : World B) (record : SigV4AccessKeyRecord).
Hypothesis key_known : sigv4_access_key ds SIGV4_ACCESS_KEY_ID w = (Ok record, w1).
(** The clocks of the suite and of the server are at most a minute apart, and ten minutes
    before and after are dates with four digits in their year. *)
Hypothesis client_time : 600000 <= client_now < 253402300200000.
Hypothesis server_time : Z.abs (clock (w_ticks w1) - client_now) <= 60000.

(** The step finishes, and its entry of the report is true. *)
Definition reported (step : ST (World B) Stop string) (field : DistributionResults → string) (name : string)
  : Prop :=
  ∃ body w', step w = (Ok body, w') ∧
    ∀ r, field r = body → value_at name (negative_report r) = VBool true.

Lemma reported_refusal step field name headers query code before part after w' :
  step w = refused_read net s3_port headers query code w →
  (∀ r, value_at name (negative_report r) = VBool (str_contains part (field r))) →
  xml_plain code = true → xml_plain (before +:+ part +:+ after) = true → code ≠ "panic" →
  authenticate_request s3 "GET" "/media/video.bin" query (received_headers headers) [] w
    = (Err (auth_error code (before +:+ part +:+ after)), w') →
  reported step field name.
Proof.
  intros Hstep Hname Hcode Hmessage Hpanic Hauth.
  destruct (refused_body headers query code part before after w w') as (body & Hbody & Hpart); [done..|].
  exists body, w'. rewrite Hstep. split; [done|]. intros r <-. by rewrite Hname, Hpart.
Qed.

(** The steps send the headers of [sigv4_request]. *)
Lemma signed_step amz_date scope_date names (w0 : World B) :
  plain_token amz_date = true → plain_token scope_date = true → str_forallb visible names = true →
  (headers ← propagate (sigv4_header_auth_headers amz_date scope_date names);
   refused_read net s3_port headers "" "invalid_sigv4") w0
  = refused_read net s3_port (sigv4_request amz_date scope_date names false) "" "invalid_sigv4" w0.
Proof.
  intros Ha Hs Hn. unfold propagate. rewrite sigv4_headers_ok by done. cbn [map_err].
  rewrite (lift_bind_ok (Ok _) _ _ _ eq_refl). unfold sigv4_request. by rewrite app_nil_r.
Qed.
Lemma date_step {A} amz_date date (f : string → ST (World B) Stop A) (w0 : World B) :
  str_slice 0 8 amz_date = Some date → (scope_date ← date_of net amz_date; f scope_date) w0 = f date w0.
Proof. intros Hs. unfold date_of, or_panic. by rewrite Hs. Qed.

Lemma stale_reported : reported (stale_sigv4 net s3_port) dr_stale_body "sigv4_stale_date".
Proof.
  destruct (client_date (client_now - 600000)) as (date&Hslice&Tdate&Tamz&_&Hparse); [lia|].
  eapply (reported_refusal _ _ _ (sigv4_request _ date "host;x-amz-date" false) "" "invalid_sigv4"
    "header-based SigV4 request is " "older than the allowed clock skew window" ""); [|done..|].
  - unfold stale_sigv4, net_io. rewrite ST_bind_run. cbn [hn_now_ms loopback mret ST_ret map_err fst snd].
    replace (u64_sat_sub client_now (10 * 60 * 1000)) with (client_now - 600000) by (unfold u64_sat_sub; lia).
    rewrite (date_step _ _ _ _ Hslice). by apply signed_step.
  - rewrite (header_request_run _ date "host;x-amz-date" false _ _ _ _ Tamz Tdate eq_refl eq_refl Hparse key_known).
    rewrite ST_bind_run, window_stale; [reflexivity|..];
    unfold MAX_SIGV4_CLOCK_SKEW_MS, u64_max; Z.to_euclidean_division_equations; lia.
Qed.
Lemma future_reported : reported (future_sigv4 net s3_port) dr_future_body "sigv4_future_date".
Proof.
  destruct (client_date (client_now + 600000)) as (date&Hslice&Tdate&Tamz&_&Hparse); [lia|].
  eapply (reported_refusal _ _ _ (sigv4_request _ date "host;x-amz-date" false) "" "invalid_sigv4"
    "header-based SigV4 request has a " "future X-Amz-Date" " outside the allowed clock skew"); [|done..|].
  - unfold future_sigv4, net_io. rewrite ST_bind_run. cbn [hn_now_ms loopback mret ST_ret map_err fst snd].
    replace (u64_sat_add client_now (10 * 60 * 1000)) with (client_now + 600000)
      by (unfold u64_sat_add, u64_max; lia).
    rewrite (date_step _ _ _ _ Hslice). by apply signed_step.
  - rewrite (header_request_run _ date "host;x-amz-date" false _ _ _ _ Tamz Tdate eq_refl eq_refl Hparse key_known).
    rewrite ST_bind_run, window_future; [reflexivity|].
    unfold MAX_SIGV4_CLOCK_SKEW_MS; Z.to_euclidean_division_equations; lia.
Qed.

(** A request of the present: whatever the canonical request cannot be made of. *)
Abbreviation current := (client_amz_date_from_epoch_ms client_now).
Lemma current_window code kind :
  ensure_sigv4_time_window (client_now / 1000 * 1000) code kind w1 = (Ok tt, ticked w1).
Proof.
  apply window_open; unfold MAX_SIGV4_CLOCK_SKEW_MS, u64_max; Z.to_euclidean_division_equations; lia.
Qed.
Lemma current_refused date names again message :
  str_slice 0 8 current = Some date → str_forallb visible names = true → str_contains_char "," names = false →
  canonical_sigv4_request "GET" "/media/video.bin" ""
    (received_headers (sigv4_request current date names again)) (split_signed_headers names) (hex_sha256 [])
    = Err (sigv4_error message) →
  authenticate_request s3 "GET" "/media/video.bin" ""
    (received_headers (sigv4_request current date names again)) [] w = (Err (sigv4_error message), ticked w1).
Proof.
  intros Hslice Hvisible Hcomma Hcanonical.
  destruct (client_date client_now) as (date'&Hslice'&Tdate&Tamz&Hstarts&Hparse); [lia|].
  rewrite Hslice in Hslice'. injection Hslice' as <-.
  rewrite (header_request_run _ date names again _ _ _ _ Tamz Tdate Hvisible Hcomma Hparse key_known).
  rewrite ST_bind_run, current_window, Hstarts. cbn [negb]. by rewrite Hcanonical.
Qed.

Lemma mismatch_reported :
  starts_with "20000101" current = false →
  reported (mismatch_sigv4 net s3_port current) dr_mismatch_body "sigv4_scope_date_mismatch".
Proof.
  intros Hday. destruct (client_date client_now) as (date&Hslice&Tdate&Tamz&_&Hparse); [lia|].
  eapply (reported_refusal _ _ _ (sigv4_request current "20000101" "host;x-amz-date" false) "" "invalid_sigv4"
    "x-amz-date does not match " "credential scope date" ""); [by apply signed_step|done..|].
  rewrite (header_request_run _ "20000101" "host;x-amz-date" false _ _ _ _ Tamz eq_refl eq_refl eq_refl Hparse key_known).
  by rewrite ST_bind_run, current_window, Hday.
Qed.
Lemma unsorted_reported :
  reported (unsorted_sigv4 net s3_port current) dr_unsorted_body "sigv4_unsorted_headers".
Proof.
  destruct (client_date client_now) as (date&Hslice&Tdate&Tamz&_&_); [lia|].
  eapply (reported_refusal _ _ _ (sigv4_request current date "x-amz-date;host" false) "" "invalid_sigv4"
    "signed headers must be lowercase, unique, and " "sorted" ""); [|done..|by eapply current_refused].
  unfold unsorted_sigv4. rewrite (date_step _ _ _ _ Hslice). by apply signed_step.
Qed.
Lemma missing_host_reported :
  reported (missing_host_sigv4 net s3_port current) dr_missing_host_body "sigv4_missing_host".
Proof.
  destruct (client_date client_now) as (date&Hslice&Tdate&Tamz&_&_); [lia|].
  eapply (reported_refusal _ _ _ (sigv4_request current date "x-amz-date" false) "" "invalid_sigv4"
    "signed headers must " "include host" ""); [|done..|by eapply current_refused].
  unfold missing_host_sigv4. rewrite (date_step _ _ _ _ Hslice). by apply signed_step.
Qed.
Lemma host_received headers :
  Forall (λ h, h.1 ≠ "host") headers →
  required_single_signed_header (received_headers headers) "host" = Ok ("127.0.0.1:" +:+ dec s3_port).
Proof.
  intros Hh. unfold required_single_signed_header.
  assert (Hget : header_get_all (received_headers headers) "host" = [as_bytes ("127.0.0.1:" +:+ dec s3_port)]).
  { unfold received_headers, header_get_all. change (to_ascii_lowercase "host") with "host".
    assert (Hnone : List.filter (λ h : string * bytes, String.eqb h.1 "host") headers = []).
    { induction Hh as [|h l Hn _ IH]; [done|]. cbn [List.filter].
      by rewrite (proj2 (String.eqb_neq h.1 "host") Hn). }
    rewrite List.filter_app, Hnone. done. }
  rewrite Hget, as_bytes_to_str; [done|]. rewrite str_forallb_app. apply andb_true_iff. split; [done|].
  apply dec_digits. intros d Hd. unfold in_range, digit. rewrite byte_val_of_small by lia. lia.
Qed.
Lemma duplicate_header_reported :
  reported (duplicate_header_sigv4 net s3_port current) dr_duplicate_header_body "sigv4_duplicate_header".
Proof.
  destruct (client_date client_now) as (date&Hslice&Tdate&Tamz&_&_); [lia|].
  eapply (reported_refusal _ _ _ (sigv4_request current date "host;x-amz-date" true) "" "invalid_sigv4"
    "" "duplicate signed header" " `x-amz-date` is not allowed"); [|done..|].
  - unfold duplicate_header_sigv4, propagate, or_panic. rewrite (date_step _ _ _ _ Hslice).
    rewrite sigv4_headers_ok by done. cbn [map_err]. rewrite (lift_bind_ok (Ok _) _ _ _ eq_refl).
    unfold insert_text. by rewrite (printable_header current) by (by apply printable_visible, plain_token_visible).
  - eapply current_refused; [done..|]. unfold canonical_sigv4_request.
    change (validate_signed_headers (split_signed_headers "host;x-amz-date")) with (@Ok ApiError unit tt).
    change (split_signed_headers "host;x-amz-date") with ["host"; "x-amz-date"].
    rewrite ok_bind. cbn [canonical_headers]. by rewrite host_received by (by repeat constructor).
Qed.

(** ** A query with a parameter twice *)

Definition duplicate_query (date amz_date : string) : string :=
  "X-Amz-Algorithm=AWS4-HMAC-SHA256&X-Amz-Credential=" +:+ SIGV4_ACCESS_KEY_ID +:+ "/" +:+ date
     +:+ "%2F" +:+ SIGV4_REGION +:+ "%2F" +:+ SIGV4_SERVICE
     +:+ "%2Faws4_request&X-Amz-SignedHeaders=host&X-Amz-Signature=deadbeef&X-Amz-Date=" +:+ amz_date
     +:+ "&X-Amz-Date=" +:+ amz_date +:+ "&X-Amz-Expires=30".
Lemma duplicate_query_pairs date amz_date code :
  plain_token date = true → plain_token amz_date = true →
  parse_unique_query_pairs (duplicate_query date amz_date) code
  = Err (auth_error code "duplicate query parameter `X-Amz-Date` is not allowed").
Proof.
  intros Tdate Tamz.
  assert (Hq : duplicate_query date amz_date = join "&" (pair_text <$>
    [("X-Amz-Algorithm", "AWS4-HMAC-SHA256");
     ("X-Amz-Credential", SIGV4_ACCESS_KEY_ID +:+ "/" +:+ date +:+ "%2Fauto%2Fs3%2Faws4_request");
     ("X-Amz-SignedHeaders", "host"); ("X-Amz-Signature", "deadbeef"); ("X-Amz-Date", amz_date);
     ("X-Amz-Date", amz_date); ("X-Amz-Expires", "30")])).
  { unfold duplicate_query, pair_text. cbn. by rewrite <-!str_app_assoc. }
  assert (Hamp : ∀ s, plain_token s = true → str_contains_char "&" s = false)
    by (intros s; by apply plain_token_avoids).
  rewrite Hq. unfold parse_unique_query_pairs. change "&" with (String "&" "") at 1.
  rewrite split_on_join; [vm_compute; reflexivity|done|].
  unfold pair_text. cbn [fmap list_fmap fst snd].
  repeat constructor; rewrite !str_contains_char_app; cbn; by rewrite ?(Hamp date), ?(Hamp amz_date).
Qed.

Lemma duplicate_presign_reported :
  reported (duplicate_presign net s3_port current) dr_duplicate_presign_body
    "presign_duplicate_query_parameter".
Proof.
  destruct (client_date client_now) as (date&Hslice&Tdate&Tamz&_&_); [lia|].
  eapply (reported_refusal _ _ _ [] (duplicate_query date current) "invalid_presign"
    "" "duplicate query parameter" " `X-Amz-Date` is not allowed"); [|done..|].
  - unfold duplicate_presign. by rewrite (date_step _ _ _ _ Hslice).
  - unfold authenticate_request, authenticate_sigv4. cbn [hb_raw_query].
    assert (Hs : str_contains "X-Amz-Signature=" (duplicate_query date current) = true).
    { eapply (str_contains_app _ ("X-Amz-Algorithm=AWS4-HMAC-SHA256&X-Amz-Credential=" +:+ SIGV4_ACCESS_KEY_ID
        +:+ "/" +:+ date +:+ "%2F" +:+ SIGV4_REGION +:+ "%2F" +:+ SIGV4_SERVICE
        +:+ "%2Faws4_request&X-Amz-SignedHeaders=host&")). unfold duplicate_query.
      rewrite <-!str_app_assoc. reflexivity. }
    rewrite Hs. cbn. unfold authenticate_presigned_sigv4. cbn [hb_raw_query].
    by rewrite duplicate_query_pairs.
Qed.

(** C40: the refusals of the suite.  Against the S3 server that knows the access key of
    the suite, with clocks at most a minute apart and on any day but the first of January
    2000, each of the seven requests with a bad signature (too old, from the future, for
    another day, with unsorted headers, without the host, with a header twice, with a
    parameter twice) is refused with the status and the code the step expects, so the step
    finishes, and the body has the text that makes its entry of the report true. *)
Theorem suite_refusals_reported :
  starts_with "20000101" current = false →
  reported (stale_sigv4 net s3_port) dr_stale_body "sigv4_stale_date" ∧
  reported (future_sigv4 net s3_port) dr_future_body "sigv4_future_date" ∧
  reported (mismatch_sigv4 net s3_port current) dr_mismatch_body "sigv4_scope_date_mismatch" ∧
  reported (unsorted_sigv4 net s3_port current) dr_unsorted_body "sigv4_unsorted_headers" ∧
  reported (missing_host_sigv4 net s3_port current) dr_missing_host_body "sigv4_missing_host" ∧
  reported (duplicate_header_sigv4 net s3_port current) dr_duplicate_header_body "sigv4_duplicate_header" ∧
  reported (duplicate_presign net s3_port current) dr_duplicate_presign_body
    "presign_duplicate_query_parameter".
Proof.
  intros Hday. split_and!; [apply stale_reported|apply future_reported|by apply mismatch_reported|
    apply unsorted_reported|apply missing_host_reported|apply duplicate_header_reported|
    apply duplicate_presign_reported].
Qed.
End refusals.

(** ** Witnesses *)

(** The parameters of the client with a clock of November 2023, and error documents. *)
Definition suite_deps : DistDeps := client_dist_deps (client_deps (λ n, 1700000000000 + Z.of_nat n)).
Definition suite_xml : XmlDeps :=
  {| xml_error_doc := {| to_xml_string := λ e,
       Ok ("<Error><Code>" +:+ ex_code e +:+ "</Code><Message>" +:+ ex_message e +:+ "</Message></Error>") |};
     xml_buckets := @xml_buckets concrete_xml; xml_listing := @xml_listing concrete_xml;
     xml_delete := @xml_delete concrete_xml; xml_deleted := @xml_deleted concrete_xml;
     xml_copied := @xml_copied concrete_xml; xml_initiated := @xml_initiated concrete_xml;
     xml_complete := @xml_complete concrete_xml; xml_completed := @xml_completed concrete_xml;
     xml_acl := @xml_acl concrete_xml; xml_acl_read := @xml_acl_read concrete_xml;
     xml_lifecycle := @xml_lifecycle concrete_xml; xml_lifecycle_read := @xml_lifecycle_read concrete_xml;
     xml_retention := @xml_retention concrete_xml; xml_retention_read := @xml_retention_read concrete_xml;
     xml_hold := @xml_hold concrete_xml; xml_hold_read := @xml_hold_read concrete_xml;
     xml_website := @xml_website concrete_xml; xml_website_read := @xml_website_read concrete_xml;
     xml_replication := @xml_replication concrete_xml;
     xml_replication_read := @xml_replication_read concrete_xml;
     xml_replication_status := @xml_replication_status concrete_xml |}.

Import Toy ToyKms ToyService.
#[local] Existing Instances suite_deps suite_xml concrete_http no_capabilities.
#[local] Instance suite_text_laws : WireTextLaws.
Proof.
  split.
  - intros s Hs. cbn. unfold toy_header_value. rewrite (str_forallb_impl (in_range 32 126)); [done| |done].
    intros c Hc. by rewrite Hc.
  - intros body limit Hl. cbn. by rewrite (proj2 (Z.leb_le _ _) Hl).
  - intros code message _ _. by exists "<Error>", "<Message>", "</Message></Error>".
Qed.

Definition suite_s3 : S3State := mkS3State concrete_dist None.
Definition suite_world : World disk := Eval vm_compute in
  (register_sigv4_access_key concrete_dist sigv4_access_key_record disk_world).2.

(** Witness of C40: the key of the suite is registered. *)
Lemma suite_refusals_reported_witness :
  reported (B := disk) suite_world (stale_sigv4 (loopback suite_s3 9000 1700000000000) 9000) dr_stale_body "sigv4_stale_date".
Proof.
  destruct (run_ok (sigv4_access_key concrete_dist SIGV4_ACCESS_KEY_ID) suite_world) as (record & w1 & E);
    [vm_compute; reflexivity|].
  refine (proj1 (suite_refusals_reported suite_s3 9000 1700000000000 suite_world w1 record E _ _ _)).
  - lia.
  - assert (Ht : w_ticks (sigv4_access_key concrete_dist SIGV4_ACCESS_KEY_ID suite_world).2 = w_ticks suite_world)
      by (vm_compute; reflexivity).
    rewrite E in Ht. cbn [snd] in Ht. rewrite Ht. vm_compute. congruence.
  - vm_compute. reflexivity.
Defined.
