(* ===== verification/Interleaving.v ===== *)
(** * Concurrent calls of the services

    The servers run their requests as concurrent tasks, and several servers may share
    one store.  Here calls of the service and of the distribution service, each with
    the configuration of its server, interleave between any two store calls.

    A [StoreEvent] is a store call with its answer.  The backend [scripted] answers
    the calls of one task from a list of events, so the code of the services runs as
    it is.  A history lists the events of all tasks in the order in which they reach
    the store; [interleaved] says that every answer is the one the shared store gives
    at that point and that every task follows its own events to the end.  Each task
    has its own clock, generator and caches, which over-approximates tasks that share
    them.  Store calls are atomic.

    [task_alone] shows that every run of one task is such a history, with the answer
    and the store the task has without interference. *)

From Stdlib Require Import ZArith Lia Ascii String Bool.
From stdpp Require Import base option list strings gmap numbers sorting.
From S2P Require Import Prelude RustStr Path Core Cbor CborFacts Auth Crypto Store ServiceState ServiceFacts Access Namespaces Objects Subscribe Service Distribution DistFacts DistService ServiceRel DistRel.

(** ** Store calls *)

Inductive StoreEvent :=
| EvExists (key : string) (r : bool)
| EvRead (key : string) (r : result ApiError (option bytes))
| EvWrite (key : string) (b : bytes) (r : result ApiError unit)
| EvCreate (key : string) (b : bytes) (r : result ApiError bool)
| EvDelete (key : string) (r : result ApiError unit)
| EvListValues (prefix : string) (r : result ApiError (list bytes))
| EvListDirs (prefix : string) (r : result ApiError (list string)).

(** The store after a call, if the answer is the store's. *)
Definition perform {B : Backend} `{BackendListing B} (e : StoreEvent) (s : bstate B) : option (bstate B) :=
  let check {R} `{EqDecision R} (r : R) (p : R * bstate B) :=
    if bool_decide (p.1 = r) then Some p.2 else None in
  match e with
  | EvExists k r => check r (b_exists B k s)
  | EvRead k r => check r (b_read B k s)
  | EvWrite k b r => check r (b_write B k b s)
  | EvCreate k b r => check r (b_create B k b s)
  | EvDelete k r => check r (b_delete B k s)
  | EvListValues p r => check r (b_list_values p s)
  | EvListDirs p r => check r (b_list_child_dirs p s)
  end.
Fixpoint perform_all {B : Backend} `{BackendListing B} (events : list StoreEvent) (s : bstate B) : option (bstate B) :=
  match events with
  | [] => Some s
  | e :: rest => s' ← perform e s; perform_all rest s'
  end.

Lemma perform_all_app {B : Backend} `{BackendListing B} l1 l2 (s : bstate B) :
  perform_all (l1 ++ l2) s = s' ← perform_all l1 s; perform_all l2 s'.
Proof.
  revert s. induction l1 as [|e l1 IH]; intros s; [done|]. cbn.
  destruct (perform e s) as [s1|]; [apply IH|done].
Qed.

(** ** Scripts *)

Definition off_script : ApiError := storage_error "off_script" "".
(** [None] when a call was not the next event. *)
Definition scripted : Backend :=
  {| bstate := option (list StoreEvent);
     b_exists := λ k s, match s with
       | Some (EvExists k' r :: rest) => if String.eqb k k' then (r, Some rest) else (false, None)
       | _ => (false, None)
       end;
     b_read := λ k s, match s with
       | Some (EvRead k' r :: rest) => if String.eqb k k' then (r, Some rest) else (Err off_script, None)
       | _ => (Err off_script, None)
       end;
     b_write := λ k b s, match s with
       | Some (EvWrite k' b' r :: rest) =>
           if String.eqb k k' && bool_decide (b = b') then (r, Some rest) else (Err off_script, None)
       | _ => (Err off_script, None)
       end;
     b_create := λ k b s, match s with
       | Some (EvCreate k' b' r :: rest) =>
           if String.eqb k k' && bool_decide (b = b') then (r, Some rest) else (Err off_script, None)
       | _ => (Err off_script, None)
       end;
     b_delete := λ k s, match s with
       | Some (EvDelete k' r :: rest) => if String.eqb k k' then (r, Some rest) else (Err off_script, None)
       | _ => (Err off_script, None)
       end |}.
#[export] Instance scripted_listing : BackendListing scripted :=
  @Build_BackendListing scripted
    (λ p s, match s with
       | Some (EvListValues p' r :: rest) => if String.eqb p p' then (r, Some rest) else (Err off_script, None)
       | _ => (Err off_script, None)
       end)
    (λ p s, match s with
       | Some (EvListDirs p' r :: rest) => if String.eqb p p' then (r, Some rest) else (Err off_script, None)
       | _ => (Err off_script, None)
       end).

(** A backend that keeps the events of its calls. *)
Definition recording (B : Backend) : Backend :=
  let log {R} (e : R → StoreEvent) (p : R * bstate B) (l : list StoreEvent) := (p.1, (p.2, l ++ [e p.1])) in
  {| bstate := bstate B * list StoreEvent;
     b_exists := λ k s, log (EvExists k) (b_exists B k s.1) s.2;
     b_read := λ k s, log (EvRead k) (b_read B k s.1) s.2;
     b_write := λ k b s, log (EvWrite k b) (b_write B k b s.1) s.2;
     b_create := λ k b s, log (EvCreate k b) (b_create B k b s.1) s.2;
     b_delete := λ k s, log (EvDelete k) (b_delete B k s.1) s.2 |}.
#[export] Instance recording_listing (B : Backend) `{BackendListing B} : BackendListing (recording B) :=
  @Build_BackendListing (recording B)
    (λ p s, let x := b_list_values (B := B) p s.1 in (x.1, (x.2, s.2 ++ [EvListValues p x.1])))
    (λ p s, let x := b_list_child_dirs (B := B) p s.1 in (x.1, (x.2, s.2 ++ [EvListDirs p x.1]))).
Definition with_log {B : Backend} (w : World B) : World (recording B) :=
  @mkWorld (recording B) (w_store w, []) (w_draws w) (w_ticks w) (w_replay w) (w_metrics w) (w_logs w).

(** The other components of a world, with a script for a store. *)
Definition with_script {B : Backend} (script : list StoreEvent) (w : World B) : World scripted :=
  @mkWorld scripted (Some script) (w_draws w) (w_ticks w) (w_replay w) (w_metrics w) (w_logs w).

(** ** Tasks *)

(** A task serves a call of a service or of a distribution service, or runs the
    admission of a request. *)
Inductive Task :=
| Serve (sv : AlphaService) (auth : AuthContext) (c : ServiceCall)
| Admit (sv : AlphaService) (auth : AuthContext) (meta : AuthRequestMeta)
| Distribute (ds : DistributionService) (auth : AuthContext) (c : DistCall).
Definition Answer (t : Task) : Type :=
  match t with
  | Serve _ _ _ => ServiceReply
  | Admit _ _ _ => AuthorizationDecision
  | Distribute _ _ _ => DistReply
  end.

Section tasks.
Context `{DD : DistDeps}.

Definition run_task {B : Backend} `{BackendListing B} (t : Task) : ST (World B) ApiError (Answer t) :=
  match t with
  | Serve sv auth c => answer sv auth c
  | Admit sv auth meta => authorize_request sv auth meta
  | Distribute ds auth c => dist_answer ds auth c
  end.

(** The answer of a task that runs alone, and its events. *)
Definition run_alone {B : Backend} `{BackendListing B} (t : Task) (w : World B)
  : result ApiError (Answer t) * list StoreEvent :=
  let '(r, w') := run_task (B := recording B) t (with_log w) in (r, (w_store w').2).

(** A task with its own clock, generator and caches, and how it ended. *)
Record Run := mkRun {
  rn_task : Task;
  rn_local : World scripted;
  rn_answer : result ApiError (Answer rn_task);
}.
Definition follows (script : list StoreEvent) (x : Run) : Prop :=
  ∃ w, run_task (rn_task x) (with_script script (rn_local x)) = (rn_answer x, w) ∧ w_store w = Some [].

Definition events_of (i : nat) (history : list (nat * StoreEvent)) : list StoreEvent :=
  (List.filter (λ x, Nat.eqb x.1 i) history).*2.

Record interleaved {B : Backend} `{BackendListing B} (history : list (nat * StoreEvent)) (runs : list Run) (s s' : bstate B)
  : Prop := {
  il_store : perform_all history.*2 s = Some s';
  il_tasks : ∀ i x, runs !! i = Some x → follows (events_of i history) x;
  il_known : ∀ i e, (i, e) ∈ history → (i < length runs)%nat;
}.

(** ** Sequential runs *)

(** [m2] makes on a script the calls [m1] makes on a store. *)
Definition records {B : Backend} `{BackendListing B} E A (m1 : ST (World B) E A) (m2 : ST (World scripted) E A) : Prop :=
  ∀ w, ∃ used, perform_all used (w_store w) = Some (w_store (m1 w).2) ∧
    ∀ rest, m2 (with_script (used ++ rest) w) = ((m1 w).1, with_script rest (m1 w).2).

Lemma records_pure {B : Backend} `{BackendListing B} E A (m1 : ST (World B) E A) (m2 : ST (World scripted) E A) :
  (∀ w, w_store (m1 w).2 = w_store w ∧
        ∀ rest, m2 (with_script rest w) = ((m1 w).1, with_script rest (m1 w).2)) →
  records E A m1 m2.
Proof. intros Hpure w. destruct (Hpure w) as [Hs Hrest]. exists []. by rewrite Hs. Qed.

Lemma records_call {B : Backend} `{BackendListing B} A (e : result ApiError A → StoreEvent)
  (m1 : ST (bstate B) ApiError A) (m2 : ST (bstate scripted) ApiError A) :
  (∀ s, perform (e (m1 s).1) s = Some (m1 s).2) →
  (∀ r rest, m2 (Some (e r :: rest)) = (r, Some rest)) →
  records ApiError A (on_store m1) (on_store m2).
Proof.
  intros Hperform Hscript w. exists [e (m1 (w_store w)).1]. unfold on_store, zoom. cbn.
  rewrite Hperform. destruct (m1 (w_store w)) as [r s]. cbn. split; [done|]. intros rest.
  by rewrite Hscript.
Qed.

Lemma records_read {B : Backend} `{BackendListing B} key :
  records ApiError _ (on_store (b_read B key)) (on_store (b_read scripted key)).
Proof.
  apply (records_call _ (EvRead key)); intros; cbn.
  - by rewrite bool_decide_eq_true_2.
  - by rewrite String.eqb_refl.
Qed.
Lemma records_write {B : Backend} `{BackendListing B} key b :
  records ApiError _ (on_store (b_write B key b)) (on_store (b_write scripted key b)).
Proof.
  apply (records_call _ (EvWrite key b)); intros; cbn.
  - by rewrite bool_decide_eq_true_2.
  - by rewrite String.eqb_refl, bool_decide_eq_true_2.
Qed.
Lemma records_delete {B : Backend} `{BackendListing B} key :
  records ApiError _ (on_store (b_delete B key)) (on_store (b_delete scripted key)).
Proof.
  apply (records_call _ (EvDelete key)); intros; cbn.
  - by rewrite bool_decide_eq_true_2.
  - by rewrite String.eqb_refl.
Qed.

#[local] Instance records_service {B : Backend} `{BackendListing B} : ServiceRel B scripted records.
Proof.
  split; intros.
  - by apply records_pure.
  - by apply records_pure.
  - by apply records_pure.
  - intros w. destruct (H0 w) as (u1&Hu1&Hm1). rewrite ST_bind_run.
    destruct (m1 w) as [[a|e] w1] eqn:E1; cbn [fst snd] in *.
    + destruct (H1 a w1) as (u2&Hu2&Hm2). exists (u1 ++ u2). rewrite perform_all_app, Hu1.
      split; [exact Hu2|]. intros rest. rewrite ST_bind_run, <-(assoc_L (++)), Hm1. apply Hm2.
    + exists u1. split; [done|]. intros rest. by rewrite ST_bind_run, Hm1.
  - intros w. destruct (H0 w) as (u1&Hu1&Hm1). exists u1. unfold attempt.
    destruct (m1 w) as [r w1]. split; [done|]. intros rest. by rewrite Hm1.
  - apply records_pure. intros w. unfold zoom. cbn. by destruct (m (w_draws w)).
  - apply records_pure. intros w. unfold zoom. cbn. by destruct (m (w_replay w)).
  - by apply records_pure.
  - by apply records_pure.
  - apply records_read.
  - apply records_write.
  - apply (records_call _ (EvCreate (store_key t k key) b)); intros; cbn.
    + by rewrite bool_decide_eq_true_2.
    + by rewrite String.eqb_refl, bool_decide_eq_true_2.
  - apply records_delete.
  - intros w. exists [EvExists (store_key t "chunks" cid) (b_exists B (store_key t "chunks" cid) (w_store w)).1].
    unfold chunk_exists. cbn. rewrite bool_decide_eq_true_2 by done.
    destruct (b_exists B _ _) as [r s]. cbn. split; [done|]. intros rest. by rewrite String.eqb_refl.
Qed.
#[local] Instance records_dist {B : Backend} `{BackendListing B} :
  DistRel B scripted dist_store_kinds records.
Proof.
  split; intros.
  - apply _.
  - apply records_read.
  - apply records_write.
  - apply records_delete.
  - eapply (records_call _ (EvListValues _)); intros; cbn.
    + by rewrite bool_decide_eq_true_2.
    + by rewrite String.eqb_refl.
Qed.

(** Every task runs on a script as it runs on a store, for the events of that run. *)
Lemma task_is_recorded {B : Backend} `{BackendListing B} t :
  records (B := B) ApiError _ (run_task t) (run_task t).
Proof.
  destruct t as [sv auth c|sv auth meta|ds auth c].
  - apply (service_parametric (rel := records)).
  - apply (sim_authorize (rel := records)).
  - by apply (dist_parametric (rel := records) (wkinds := dist_store_kinds)).
Qed.

(** A task that runs alone is an interleaving of one task. *)
Theorem task_alone {B : Backend} `{BackendListing B} t (w : World B) :
  ∃ history, interleaved history [mkRun t (with_script [] w) (run_task t w).1]
    (w_store w) (w_store (run_task t w).2).
Proof.
  destruct (task_is_recorded t w) as (used&Hp&Hrun). exists (pair 0%nat <$> used).
  assert (Hsnd : (pair 0%nat <$> used).*2 = used)
    by (rewrite <-list_fmap_compose; apply list_fmap_id).
  split.
  - by rewrite Hsnd.
  - intros [|i] x Hx; [injection Hx as <-|done].
    assert (Hown : events_of 0 (pair 0%nat <$> used) = used).
    { clear. induction used as [|e used IH]; [done|]. cbn. by f_equal. }
    exists (with_script [] (run_task t w).2). rewrite Hown. split; [|done].
    rewrite <-(app_nil_r used) at 1. apply Hrun.
  - intros i e (e'&Heq&_)%list_elem_of_fmap. injection Heq as -> _. cbn. lia.
Qed.

(** The log of a recording is the script of its task. *)
Lemma recording_performs {B : Backend} `{BackendListing B} events (s s' : bstate (recording B)) :
  perform_all events s = Some s' → perform_all events s.1 = Some s'.1 ∧ s'.2 = s.2 ++ events.
Proof.
  revert s. induction events as [|e events IH]; intros s; cbn; [intros [= ->]; by rewrite app_nil_r|].
  intros (s1&Hs1&Hrest)%bind_Some. apply IH in Hrest as [Hp Hl].
  assert (He : perform e s.1 = Some s1.1 ∧ s1.2 = s.2 ++ [e]).
  { destruct e; cbn in Hs1 |- *; case_bool_decide as Hr; try done; injection Hs1 as <-; cbn; by rewrite Hr. }
  destruct He as [-> He]. split; [exact Hp|]. by rewrite Hl, He, <-(assoc_L (++)).
Qed.
Lemma run_alone_follows {B : Backend} `{BackendListing B} t (w : World B) :
  follows (run_alone t w).2 (mkRun t (with_script [] w) (run_alone t w).1).
Proof.
  destruct (task_is_recorded (B := recording B) t (with_log w)) as (used&Hp&Hrun). unfold run_alone.
  destruct (run_task t (with_log w)) as [r w'] eqn:E. cbn in Hp, Hrun |- *.
  apply recording_performs in Hp as [_ Hl]. cbn in Hl. rewrite Hl.
  exists (with_script [] w'). split; [|done]. rewrite <-(app_nil_r used) at 1. apply Hrun.
Qed.
End tasks.


(** * What a task does to the store

    [scripts P m m] says that the store calls of [m] on a script have the property [P],
    whatever the script answers.  [ScriptProp] lists what [P] has to satisfy for the
    methods of the services to have it: it holds of every single call they make
    ([service_event]) and of sequences of such calls.  [gates] says that a method
    succeeds only after events that give evidence of something, such as an admission
    or a look at a lock. *)

(** ** Properties of scripts *)

(** The store calls the services make, where the distribution service writes records
    of the kinds [wkinds]. *)
Inductive service_event `{DistDeps} (wkinds : list string) : StoreEvent → Prop :=
| SeExists k r : service_event wkinds (EvExists k r)
| SeRead k r : service_event wkinds (EvRead k r)
| SeWrite t k key b r :
    one_of written_kinds k = true → service_event wkinds (EvWrite (store_key t k key) b r)
| SeCreate t k key b r :
    one_of created_kinds k = true → service_event wkinds (EvCreate (store_key t k key) b r)
| SeDelete t k key r :
    one_of deleted_kinds k = true → service_event wkinds (EvDelete (store_key t k key) r)
| SeDistWrite t k key b r :
    one_of wkinds k = true → service_event wkinds (EvWrite (dist_store_key t k key) b r)
| SeDistDelete t k key r :
    one_of dist_deleted_kinds k = true → service_event wkinds (EvDelete (dist_store_key t k key) r)
| SeListValues p r : service_event wkinds (EvListValues p r).

Class ScriptProp `{DistDeps} (wkinds : list string) (P : list StoreEvent → Prop) : Prop := {
  sp_nil : P [];
  sp_app : ∀ l l', P l → P l' → P (l ++ l');
  sp_call : ∀ e, service_event wkinds e → P [e];
}.
#[export] Instance script_all `{DistDeps} wkinds : ScriptProp wkinds (Forall (service_event wkinds)).
Proof. split; [done|intros; by apply Forall_app|intros; by apply Forall_singleton]. Qed.
#[export] Instance script_any `{DistDeps} : ScriptProp dist_store_kinds (λ _, True).
Proof. by split. Qed.

(** From one world to a later one by calls with the property; a script that is
    [None] was left. *)
Definition does (P : list StoreEvent → Prop) (w w' : World scripted) : Prop :=
  (w_ticks w <= w_ticks w')%nat ∧
  ∀ rest, w_store w' = Some rest → ∃ used, w_store w = Some (used ++ rest) ∧ P used.
Definition scripts (P : list StoreEvent → Prop) (E A : Type) (m m' : ST (World scripted) E A) : Prop :=
  ∀ w : World scripted, does P w (m w).2.

Section properties.
Context `{DD : DistDeps} {wkinds : list string} (P : list StoreEvent → Prop) `{SP : !ScriptProp wkinds P}.
Implicit Types w : World scripted.

Lemma does_same w w' : (w_ticks w <= w_ticks w')%nat → w_store w' = w_store w → does P w w'.
Proof using SP. intros Ht Hs. split; [done|]. intros rest Hr. exists []. rewrite <-Hs. split; [done|apply sp_nil]. Qed.
Lemma does_trans w1 w2 w3 : does P w1 w2 → does P w2 w3 → does P w1 w3.
Proof using SP.
  intros [Ht1 H1] [Ht2 H2]. split; [lia|]. intros rest Hr. destruct (H2 _ Hr) as (u2&Hw2&Hu2).
  destruct (H1 _ Hw2) as (u1&->&Hu1). exists (u1 ++ u2). rewrite (assoc_L (++)). split; [done|by apply sp_app].
Qed.
Lemma does_call w w' e rest :
  (w_ticks w <= w_ticks w')%nat → w_store w = Some (e :: rest) → w_store w' = Some rest →
  service_event wkinds e → does P w w'.
Proof using SP.
  intros Ht Hw Hw' He. split; [done|]. intros rest' Hr. rewrite Hw' in Hr. injection Hr as <-.
  exists [e]. split; [done|by apply sp_call].
Qed.
Lemma does_off w w' : (w_ticks w <= w_ticks w')%nat → w_store w' = None → does P w w'.
Proof using Type. intros Ht Hw'. split; [done|]. by rewrite Hw'. Qed.
End properties.

Create HintDb hsp_script.
#[export] Hint Resolve SeExists SeRead SeWrite SeCreate SeDelete SeDistWrite SeDistDelete SeListValues : hsp_script.

Ltac script_call :=
  intros w; unfold on_store, zoom, chunk_exists; cbn; destruct (w_store w) as [[|[] ?]|] eqn:Hw; cbn;
  repeat match goal with |- context [if ?b then _ else _] => let Hb := fresh "Hb" in destruct b eqn:Hb end;
  cbn; rewrite ?andb_true_iff, ?String.eqb_eq in *; destruct_and?; subst;
  solve [by apply does_off | eapply does_call; [eassumption|exact (le_n _)|exact Hw|done|eauto with hsp_script]].

#[export] Instance scripts_service `{DistDeps} wkinds P `{SP : !ScriptProp wkinds P} :
  ServiceRel scripted scripted (scripts P).
Proof.
  split; intros; try (intros w; apply (does_same P (wkinds := wkinds)); cbn; done || lia).
  - intros w. rewrite ST_bind_run. specialize (H0 w). destruct (m1 w) as [[a|e] w1]; [|done].
    eapply (does_trans P (wkinds := wkinds)); [exact H0|]. apply H1.
  - intros w. specialize (H0 w). unfold attempt. by destruct (m1 w).
  - intros w. unfold zoom. destruct (m (w_draws w)). by apply (does_same P (wkinds := wkinds)).
  - intros w. unfold zoom. destruct (m (w_replay w)). by apply (does_same P (wkinds := wkinds)).
  - intros w. apply (does_same P (wkinds := wkinds)); [exact (Nat.le_succ_diag_r (w_ticks w))|done].
  - script_call.
  - script_call.
  - script_call.
  - script_call.
  - script_call.
Qed.
#[export] Instance scripts_dist `{DistDeps} wkinds P `{SP : !ScriptProp wkinds P} :
  DistRel scripted scripted wkinds (scripts P).
Proof. split; intros; [by eapply scripts_service|script_call..]. Qed.

(** ** Tasks *)

Definition is_lock_task (t : Task) : bool :=
  match t with Distribute _ _ c => is_lock_call c | _ => false end.

Section tasks.
Context `{DD : DistDeps}.

(** Every task has the property, if it covers the kinds the task writes. *)
Lemma task_scripts {wkinds} P `{SP : !ScriptProp wkinds P} t :
  forallb (one_of wkinds) dist_written_kinds = true →
  (is_lock_task t = true → one_of wkinds OBJECT_LOCK_STORE = true) →
  scripts P ApiError _ (run_task t) (run_task t).
Proof.
  intros Hwritten Hlock. destruct t as [sv auth c|sv auth meta|ds auth c].
  - apply (service_parametric (rel := scripts P)).
  - apply (sim_authorize (rel := scripts P)).
  - by apply (dist_parametric (rel := scripts P) (wkinds := wkinds)).
Qed.
Lemma follows_does P script x :
  does P (with_script script (rn_local x)) (run_task (rn_task x) (with_script script (rn_local x))).2 →
  follows script x → P script.
Proof.
  intros [_ Hd] (w&Hrun&Hend). rewrite Hrun in Hd. destruct (Hd _ Hend) as (used&Hs&HP).
  rewrite app_nil_r in Hs. by injection Hs as ->.
Qed.

Lemma events_of_elem i e (history : list (nat * StoreEvent)) : e ∈ events_of i history ↔ (i, e) ∈ history.
Proof.
  unfold events_of. rewrite list_elem_of_fmap. split.
  - intros ([i' e']&->&Hin). apply list_elem_of_In, filter_In in Hin as [Hin Hi].
    apply Nat.eqb_eq in Hi. cbn in Hi. subst. by apply list_elem_of_In.
  - intros Hin. exists (i, e). split; [done|]. apply list_elem_of_In, filter_In.
    by rewrite <-list_elem_of_In, Nat.eqb_refl.
Qed.
Lemma events_of_app i (l l' : list (nat * StoreEvent)) :
  events_of i (l ++ l') = events_of i l ++ events_of i l'.
Proof. unfold events_of. by rewrite List.filter_app, fmap_app. Qed.

(** ** Evidence of success *)

(** [C a b script]: the script, with clock readings from [a] up to [b], shows
    something; more events before it and more readings show it as well. *)
Class Evidence (C : nat → nat → list StoreEvent → Prop) : Prop :=
  evidence_grows : ∀ a b a' b' used l,
    (a' <= a)%nat → (b <= b')%nat → C a b l → C a' b' (used ++ l).
(** A success of [m] is evidence. *)
Definition gates {A} (C : nat → nat → list StoreEvent → Prop) (m : ST (World scripted) ApiError A) : Prop :=
  ∀ (w w' : World scripted) script rest a, w_store w = Some script → m w = (Ok a, w') → w_store w' = Some rest →
  C (w_ticks w) (w_ticks w') script.

Section gates.
Context (C : nat → nat → list StoreEvent → Prop) `{!Evidence C} {P : list StoreEvent → Prop} {A A' : Type}.
Implicit Types m : ST (World scripted) ApiError A.
Implicit Types f : A → ST (World scripted) ApiError A'.

Lemma gates_first m f : gates C m → (∀ a, scripts P ApiError A' (f a) (f a)) → gates C (m ≫= f).
Proof.
  intros Hm Hf w w' script rest a' Hw (a&w1&Hrun&H)%ST_bind_ok Hrest.
  pose proof (Hf a w1) as Hd. rewrite H in Hd. destruct Hd as [Ht Hd].
  destruct (Hd _ Hrest) as (used&Hw1&_). cbn in Ht.
  apply (evidence_grows (w_ticks w) (w_ticks w1) _ _ []); [done..|]. exact (Hm _ _ _ _ _ Hw Hrun Hw1).
Qed.
Lemma gates_then m f :
  scripts P ApiError A m m → (∀ a, gates C (f a)) → (∀ a, scripts P ApiError A' (f a) (f a)) →
  gates C (m ≫= f).
Proof.
  intros Hm Hf Hd w w' script rest a' Hw (a&w1&Hrun&H)%ST_bind_ok Hrest.
  pose proof (Hd a w1) as Hd1. rewrite H in Hd1. destruct Hd1 as [_ Hd1].
  destruct (Hd1 _ Hrest) as (used1&Hw1&_).
  pose proof (Hm w) as Hm1. rewrite Hrun in Hm1. destruct Hm1 as [Ht Hm1].
  destruct (Hm1 _ Hw1) as (used&Hw0&_). cbn in Ht.
  rewrite Hw in Hw0. injection Hw0 as ->. eapply evidence_grows; [exact Ht|done|].
  exact (Hf a _ _ _ _ _ Hw1 H Hrest).
Qed.
Lemma gates_lift (r : result ApiError A) f :
  (∀ a, r = Ok a → gates C (f a)) → gates C (lift_result r ≫= f).
Proof.
  intros Hf w w' script rest a' Hw (a&w1&Hrun&H)%ST_bind_ok Hrest. unfold lift_result in Hrun.
  injection Hrun as -> <-. by apply (Hf a eq_refl w w' script rest a').
Qed.
Lemma gates_throw e : gates (A := A) C (throw e).
Proof. by intros w. Qed.
End gates.
Lemma gates_now {A'} C `{!Evidence C} (f : Z → ST (World scripted) ApiError A') :
  (∀ a, gates C (f a)) → gates C (now_ms ≫= f).
Proof.
  intros Hf w w' script rest a' Hw (a&w1&Hrun&H)%ST_bind_ok Hrest. injection Hrun as <- <-.
  apply (evidence_grows (S (w_ticks w)) (w_ticks w') _ _ []); [lia|done|].
  refine (Hf _ _ _ _ _ _ _ H Hrest). exact Hw.
Qed.
End tasks.
