(* ===== verification/InterleavingProps.v ===== *)
(** * Claims about concurrent calls

    Replays are refused among concurrent requests: of two admitted mutations with the
    same tenant, token id, operation and subject at most one is not a retry, and both
    carry the same idempotency key. *)

From Stdlib Require Import ZArith Lia Ascii String Bool.
From stdpp Require Import base option list strings gmap numbers sorting.
From S2P Require Import Prelude RustStr Path Core Cbor CborFacts Concrete Auth Crypto Store ServiceState ServiceFacts Access Namespaces Objects Subscribe ConcreteService AccessProps NamespaceSpec NamespaceProps Service Distribution DistFacts DistService ConcreteDist ServiceRel DistRel Interleaving.

(** ** What tasks do to the store *)

Section tasks.
Context `{DL : DistDepsLaws}.

Abbreviation disciplined := (scripts (Forall (service_event dist_store_kinds))).

(** Every event of a history is one the services make. *)
Lemma history_events {B : Backend} `{BackendListing B} history runs (s s' : bstate B) :
  interleaved history runs s s' → Forall (service_event dist_store_kinds) history.*2.
Proof.
  intros [_ Htasks Hknown]. apply Forall_fmap, Forall_forall. intros [i e] Hin. cbn.
  destruct (lookup_lt_is_Some_2 _ _ (Hknown _ _ Hin)) as [x Hx].
  apply (Forall_forall _ (events_of i history)); [|by apply events_of_elem].
  eapply follows_does; [|by apply Htasks]. by apply (task_scripts (wkinds := dist_store_kinds) _ (rn_task x)).
Qed.

(** ** Replay records *)

Section store.
Context {B : Backend} `{BL : BackendLaws B} `{L : BackendListing B} `{LL : !BackendListingLaws B}.

Lemma agree_lookup (k k' : string) (m m' : gmap string bytes) :
  k ≠ k' → agree_off k m m' → m' !! k' = m !! k'.
Proof.
  intros Hne Ha. unfold agree_off in Ha. rewrite <-(lookup_delete_ne m k k'), Ha by done.
  by rewrite lookup_delete_ne.
Qed.
Lemma replay_not_written kinds t k key t' key' :
  one_of kinds k = true → forallb slash_free kinds = true → one_of kinds "replay" = false →
  store_key t k key ≠ store_key t' "replay" key'.
Proof.
  intros Hk Hfree Hno Heq. pose proof Hk as (k'&Hin&->%String.eqb_eq)%existsb_exists.
  rewrite forallb_forall in Hfree. apply store_key_inj in Heq as (->&_&_); [congruence|by apply Hfree|done].
Qed.
Lemma replay_not_dist kinds t k key t' key' :
  one_of kinds k = true → forallb slash_free kinds = true → one_of kinds "replay" = false →
  dist_store_key t k key ≠ store_key t' "replay" key'.
Proof.
  intros Hk Hfree Hno Heq. pose proof Hk as (k'&Hin&->%String.eqb_eq)%existsb_exists.
  rewrite forallb_forall in Hfree.
  destruct (in_dir_unique t k' t' "replay" (dist_store_key t k' key)) as [_ ->];
    [by apply Hfree|done|apply dist_key_in_dir|rewrite Heq; apply store_key_in_dir|congruence].
Qed.

(** A replay record is never changed. *)
Lemma replay_kept e (s s' : bstate B) t key b :
  service_event dist_store_kinds e → perform e s = Some s' →
  b_view s !! store_key t "replay" key = Some b → b_view s' !! store_key t "replay" key = Some b.
Proof.
  intros He Hp Hb. destruct He as [k r|k r|t' k key' x r Hk|t' k key' x r Hk|t' k key' r Hk|t' k key' x r Hk|t' k key' r Hk|p r]; cbn in Hp;
    case_bool_decide; try done; injection Hp as <-.
  - by rewrite (proj1 (b_exists_view k s)).
  - by rewrite (proj1 (b_read_view k s)).
  - rewrite <-Hb. apply (agree_lookup (store_key t' k key')); [|apply b_write_view].
    by apply (replay_not_written written_kinds).
  - destruct (b_create_view (store_key t' k key') x s) as (Ha&Hsame&_).
    destruct (decide (store_key t' k key' = store_key t "replay" key)) as [Heq|Hne].
    + rewrite Heq in *. by rewrite Hsame.
    + rewrite <-Hb. by apply (agree_lookup (store_key t' k key')).
  - rewrite <-Hb. apply (agree_lookup (store_key t' k key')); [|apply b_delete_view].
    by apply (replay_not_written deleted_kinds).
  - rewrite <-Hb. apply (agree_lookup (dist_store_key t' k key')); [|apply b_write_view].
    by apply (replay_not_dist dist_store_kinds).
  - rewrite <-Hb. apply (agree_lookup (dist_store_key t' k key')); [|apply b_delete_view].
    by apply (replay_not_dist dist_deleted_kinds).
  - by rewrite (proj1 (b_list_values_view p s)).
Qed.
Lemma replay_stays l (s s' : bstate B) t key b :
  Forall (service_event dist_store_kinds) l → perform_all l s = Some s' →
  b_view s !! store_key t "replay" key = Some b → b_view s' !! store_key t "replay" key = Some b.
Proof.
  intros Hl. revert s. induction Hl as [|e l He Hl IH]; intros s; cbn; [by intros [= ->]|].
  intros (s1&Hs1&Hrest)%bind_Some Hb. eapply IH; [done|]. by eapply replay_kept.
Qed.

Context (l : list StoreEvent) (s0 s1 : bstate B) (t : TenantId) (key : string).
Hypothesis Hservice : Forall (service_event dist_store_kinds) l.
Hypothesis Hperformed : perform_all l s0 = Some s1.
Abbreviation k := (store_key t "replay" key).

(** What a task read or created is what the store holds at the end. *)
Lemma read_is_final b : EvRead k (Ok (Some b)) ∈ l → b_view s1 !! k = Some b.
Proof.
  intros (l1&l2&Hl)%list_elem_of_split. rewrite Hl in Hservice, Hperformed.
  apply Forall_app in Hservice as [_ [_ Hl2]%Forall_cons].
  rewrite perform_all_app in Hperformed. apply bind_Some in Hperformed as (sa&_&Hp).
  cbn in Hp. apply bind_Some in Hp as (sb&Hr&Hp). case_bool_decide as Hans; [|done].
  injection Hr as <-. eapply replay_stays; [exact Hl2|exact Hp|].
  destruct (b_read_view k sa) as [-> Ho]. by rewrite <-(Ho _ Hans).
Qed.
Lemma created_is_final b : EvCreate k b (Ok true) ∈ l → b_view s1 !! k = Some b.
Proof.
  intros (l1&l2&Hl)%list_elem_of_split. rewrite Hl in Hservice, Hperformed.
  apply Forall_app in Hservice as [_ [_ Hl2]%Forall_cons].
  rewrite perform_all_app in Hperformed. apply bind_Some in Hperformed as (sa&_&Hp).
  cbn in Hp. apply bind_Some in Hp as (sb&Hr&Hp). case_bool_decide as Hans; [|done].
  injection Hr as <-. eapply replay_stays; [exact Hl2|exact Hp|].
  destruct (b_create_view k b sa) as (_&_&Ht&_). destruct (Ht Hans) as [_ ->].
  by rewrite lookup_insert_eq.
Qed.
(** It is created once. *)
Lemma created_once l1 l2 l3 b b' :
  l = l1 ++ EvCreate k b (Ok true) :: l2 ++ EvCreate k b' (Ok true) :: l3 → False.
Proof.
  intros Hl. rewrite Hl in Hservice, Hperformed.
  apply Forall_app in Hservice as [_ [_ [Hl2 _]%Forall_app]%Forall_cons].
  rewrite perform_all_app in Hperformed. apply bind_Some in Hperformed as (sa&_&Hp).
  cbn in Hp. apply bind_Some in Hp as (sb&Hr&Hp). case_bool_decide as Hans; [|done].
  injection Hr as <-. rewrite perform_all_app in Hp. apply bind_Some in Hp as (sc&Hc&Hp).
  destruct (b_create_view k b sa) as (_&_&Ht&_). destruct (Ht Hans) as [_ Hview].
  pose proof (replay_stays _ _ _ t key b Hl2 Hc) as Hkept. rewrite Hview, lookup_insert_eq in Hkept.
  cbn in Hp. apply bind_Some in Hp as (sd&Hd&_). case_bool_decide as Hans'; [|done].
  destruct (b_create_view k b' sc) as (_&_&Ht'&_). destruct (Ht' Hans') as [Hnone _].
  rewrite Hkept in Hnone; done.
Qed.
End store.

(** ** Admission on a script *)

Context (sv : AlphaService).

(** What identifies a mutation for the replay log: its operation, tenant and subject,
    and the idempotency key it carries. *)
Record Mutation := mkMutation {
  mu_operation : OperationName;
  mu_tenant : TenantId;
  mu_subject : string;
  mu_key : option string;
}.
Definition mutation_of (meta : AuthRequestMeta) : Mutation :=
  mkMutation (am_operation meta) (am_tenant_id meta) (am_subject meta) (am_idempotency_key meta).
Definition log_key (mu : Mutation) (j : string) : string :=
  durable_replay_key (mu_tenant mu) j (mu_operation mu) (mu_subject mu).

(** The record in the bytes of a replay file. *)
Definition replay_in (mu : Mutation) (j : string) (b : bytes) : option ReplayRecord :=
  stored sv {[store_key (mu_tenant mu) "replay" (log_key mu j) := b]} (mu_tenant mu) "replay" (log_key mu j).
(** The events of an admitted mutation: it created its record, or read one with its
    idempotency key. *)
Definition admitted (mu : Mutation) (j : string) (script : list StoreEvent) : Prop :=
  let k := store_key (mu_tenant mu) "replay" (log_key mu j) in
  ∃ b r, replay_in mu j b = Some r ∧
    (EvCreate k b (Ok true) ∈ script ∧ rp_idempotency_key r = default "" (mu_key mu) ∨
     EvRead k (Ok (Some b)) ∈ script ∧ mu_key mu = Some (rp_idempotency_key r)).

Lemma scripted_create {T} `{JT : Json T} `{JL : !JsonLaws T} t kind key (v : T) (w w' : World scripted) created rest :
  create_encrypted_json sv t kind key v w = (Ok created, w') → w_store w' = Some rest →
  ∃ b, w_store w = Some (EvCreate (store_key t kind key) b (Ok created) :: rest) ∧
       stored sv {[store_key t kind key := b]} t kind key = Some v.
Proof.
  unfold create_encrypted_json. intros (p&w1&Hp&H)%ST_bind_ok Hrest.
  unfold lift_result in Hp. injection Hp as Hp <-. destruct (to_vec_pretty v) as [p'|] eqn:Hv; [|done].
  injection Hp as ->. apply ST_bind_ok in H as (r&w2&Henc&H). unfold attempt, encrypt_payload, zoom in Henc.
  destruct (encrypt_store_payload (sv_kms sv) t kind p (w_draws w)) as [r' d] eqn:Hcrypt.
  injection Henc as <- <-. destruct r' as [env|]; [|done]. unfold create_envelope in H.
  apply ST_bind_ok in H as (x&w3&Hx&H). unfold lift_result in Hx. injection Hx as Hx <-.
  destruct (to_vec_pretty env) as [x'|] eqn:Henv; [|done]. injection Hx as ->.
  rewrite on_store_run in H. cbn in H. exists x. split.
  - destruct (w_store w) as [[|[] script]|]; try done.
    destruct (String.eqb_spec (store_key t kind key) key0) as [<-|]; [|done].
    case_bool_decide as Hb; [|done]. subst. cbn in H. injection H as -> <-. cbn in Hrest. congruence.
  - unfold stored. rewrite <-insert_empty, (stored_bytes_envelope _ _ _ _ _ _ _ _ _ _ Hcrypt Henv). cbn.
    by rewrite (from_slice_to_vec _ _ Hv).
Qed.
Lemma scripted_read {T} `{JT : Json T} t kind key (w w' : World scripted) (o : option T) rest :
  read_encrypted_json sv t kind key w = (Ok o, w') → w_store w' = Some rest →
  ∃ ob, w_store w = Some (EvRead (store_key t kind key) (Ok ob) :: rest) ∧
    o = ob ≫= λ b, stored sv {[store_key t kind key := b]} t kind key.
Proof.
  unfold read_encrypted_json, read_encrypted_bytes. intros (p&w1&Hp&H)%ST_bind_ok Hrest.
  apply ST_bind_ok in Hp as (ob&w2&Hr&Hp). rewrite on_store_run in Hr. exists ob.
  assert (Hscript : ∃ rest', w_store w = Some (EvRead (store_key t kind key) (Ok ob) :: rest') ∧
    w_store w2 = Some rest').
  { cbn in Hr. destruct (w_store w) as [[|[] script]|]; try done.
    destruct (String.eqb_spec (store_key t kind key) key0) as [<-|]; [|done].
    cbn in Hr. injection Hr as -> <-. by exists script. }
  destruct Hscript as (rest'&Hw&Hw2). rewrite Hw.
  destruct ob as [b|].
  - apply ST_bind_ok in Hp as (env&w3&He&Hp). unfold lift_result in He. injection He as He <-.
    destruct (from_slice b) as [env'|] eqn:Henv; [|done]. injection He as ->.
    destruct (decrypt_store_payload (sv_kms sv) t kind env) as [q|] eqn:Hd.
    + apply ST_ret_ok in Hp as [<- <-]. apply ST_bind_ok in H as (v&w4&Hv&H).
      unfold lift_result in Hv. injection Hv as Hv <-.
      destruct (from_slice q) as [v'|] eqn:Hq; [|done]. injection Hv as ->.
      apply ST_ret_ok in H as [<- <-]. split; [congruence|]. cbn. unfold stored, stored_bytes.
      rewrite lookup_singleton_eq. cbn. rewrite Henv. cbn. rewrite Hd. cbn. by rewrite Hq.
    + rewrite ST_bind_run in Hp. by destruct (record_observation _ _) as [[]].
  - apply ST_ret_ok in Hp as [<- <-]. apply ST_ret_ok in H as [<- <-]. split; [congruence|done].
Qed.

Lemma authorize_admits auth meta j script rest (w w' : World scripted) d :
  is_mutation (am_operation meta) = true → jti (claims auth) = Some j →
  w_store w = Some script → authorize_request sv auth meta w = (Ok d, w') →
  w_store w' = Some rest → admitted (mutation_of meta) j script.
Proof.
  intros Hm Hj Hscript Hrun Hend. unfold authorize_request in Hrun.
  apply ST_bind_ok in Hrun as (now&w1&Hn&H). injection Hn as <- <-.
  apply ST_bind_ok in H as (r&w2&Hr&H). unfold attempt, zoom in Hr.
  destruct (authorize _ _ _ _) as [r' seen]. injection Hr as <- <-.
  destruct r' as [d0|reason]; [|rewrite ST_bind_run in H;
    by destruct (authorization_denied_api_error sv meta reason _) as [[]]].
  unfold observe_durable_replay in H. rewrite Hm, Hj in H. cbn [negb] in H. cbn zeta in H.
  apply ST_bind_ok in H as (at_ms&w3&Hn&H). injection Hn as <- <-.
  apply ST_bind_ok in H as (created&w4&Hc&H). destruct created.
  - apply ST_ret_ok in H as [<- <-]. destruct (scripted_create _ _ _ _ _ _ _ _ Hc Hend) as (b&Hs&Hb).
    cbn in Hs. rewrite Hscript in Hs. injection Hs as ->.
    exists b. eexists. split; [exact Hb|]. left. split; [left|done].
  - apply ST_bind_ok in H as (o&w5&Ho&H). apply ST_bind_ok in H as (existing&w6&He&H).
    unfold lift_result in He. injection He as He <-. destruct o as [x|]; [|done]. injection He as ->.
    case_bool_decide as Hk; [|rewrite ST_bind_run in H;
      by destruct (authorization_denied_api_error sv meta ReplayDetected _) as [[]]].
    apply ST_ret_ok in H as [<- <-]. destruct (scripted_read _ _ _ _ _ _ _ Ho Hend) as (ob&Hs5&Hob).
    destruct (scripted_create _ _ _ _ _ _ _ _ Hc Hs5) as (b&Hs&_).
    cbn in Hs. rewrite Hscript in Hs. injection Hs as ->. destruct ob as [b'|]; [|done]. exists b', existing. split; [done|]. right.
    split; [right; left|done].
Qed.

(** ** Gates *)

(** A success is evidence of an admission. *)
Definition admission (mu : Mutation) (j : string) (a b : nat) (script : list StoreEvent) : Prop :=
  admitted mu j script.
#[local] Instance admission_evidence mu j : Evidence (admission mu j).
Proof.
  intros a b a' b' used l _ _ (x&r&Hr&H). exists x, r. split; [done|]. rewrite !elem_of_app. tauto.
Qed.
Lemma gates_authorize auth meta j :
  is_mutation (am_operation meta) = true → jti (claims auth) = Some j →
  gates (admission (mutation_of meta) j) (authorize_request sv auth meta).
Proof. intros Hm Hj w w' script rest d Hw Hrun Hrest. by eapply authorize_admits. Qed.

Ltac gate_first := apply (gates_first _ (P := Forall (service_event dist_store_kinds))).
Ltac gate_then := apply (gates_then _ (P := Forall (service_event dist_store_kinds))).
Ltac disciplined_method :=
  first
    [ apply (sim_write_json (rel := disciplined)); reflexivity
    | apply (sim_read_json (rel := disciplined)); reflexivity
    | apply (sim_write_bytes (rel := disciplined)); reflexivity
    | apply (sim_ret (rel := disciplined)) | apply (sim_throw (rel := disciplined))
    | apply (sim_lift (rel := disciplined)) | apply (sim_now (rel := disciplined))
    | apply (sim_observation (rel := disciplined)) | apply (sim_chunk_exists (rel := disciplined))
    | apply (sim_elapsed (rel := disciplined)) | apply (sim_missing_chunks (rel := disciplined))
    | apply (sim_apply_bind (rel := disciplined)) | apply (sim_apply_unbind (rel := disciplined))
    | apply (sim_apply_commit (rel := disciplined)) | apply (sim_authorize (rel := disciplined)) ].
Ltac disciplined_step :=
  lazymatch goal with
  | |- ∀ _, _ => intros ?
  | |- disciplined _ _ (match ?x with _ => _ end) _ => destruct x
  | |- disciplined _ _ (_ ≫= _) (_ ≫= _) => apply (rel_bind (rel := disciplined))
  | |- disciplined _ _ _ _ => disciplined_method
  end.
Ltac disciplined_code := repeat (cbn zeta beta; disciplined_step).

(** ** The mutations of the service *)

(** The mutation a task asks a service for. *)
Definition task_mutation (t : Task) : option (AlphaService * AuthContext * Mutation) :=
  match t with
  | Serve sv auth (CallPutInit r) => Some (sv, auth, mutation_of (put_init_meta r (manifest_cid (pi_manifest r))))
  | Serve sv auth (CallPutChunk r b) =>
      Some (sv, auth, mkMutation OpPutChunk (pc_tenant_id r) (pc_session_id r +:+ ":" +:+ dec (pc_chunk_index r)) None)
  | Serve sv auth (CallPutCommit r) =>
      Some (sv, auth, mkMutation OpPutCommit (cm_tenant_id r) (cm_session_id r) (Some (cm_idempotency_key r)))
  | Serve sv auth (CallBind r) =>
      '(ns, path) ← result_ok (canonical_namespace_and_path (br_namespace r) (br_path r));
      Some (sv, auth, mutation_of (namespace_meta OpBind (br_tenant_id r) ns path (Some (br_idempotency_key r))))
  | Serve sv auth (CallUnbind r) =>
      '(ns, path) ← result_ok (canonical_namespace_and_path (ur_namespace r) (ur_path r));
      Some (sv, auth, mutation_of (namespace_meta OpUnbind (ur_tenant_id r) ns path (Some (ur_idempotency_key r))))
  | Serve _ _ _ | Distribute _ _ _ => None
  | Admit sv auth meta => if is_mutation (am_operation meta) then Some (sv, auth, mutation_of meta) else None
  end.

Lemma put_init_gated auth r j :
  jti (claims auth) = Some j →
  gates (admission (mutation_of (put_init_meta r (manifest_cid (pi_manifest r)))) j) (put_init sv auth r).
Proof.
  intros Hj. unfold put_init. apply gates_now; [apply _|]. intros at_ms. repeat (apply gates_lift; intros ? _).
  gate_first; [by apply gates_authorize|]. disciplined_code.
Qed.
Lemma put_chunk_gated auth r b j :
  jti (claims auth) = Some j →
  gates (admission (mkMutation OpPutChunk (pc_tenant_id r) (pc_session_id r +:+ ":" +:+ dec (pc_chunk_index r)) None) j)
    (put_chunk sv auth r b).
Proof.
  intros Hj. unfold put_chunk. apply gates_now; [apply _|]. intros at_ms. destruct (negb _).
  { gate_then; [disciplined_code| |disciplined_code]. intros latency.
    gate_then; [disciplined_code| |disciplined_code]. intros []. apply gates_throw. }
  gate_then; [disciplined_code| |disciplined_code]. intros o.
  apply gates_lift. intros session _. apply gates_lift. intros [] _.
  gate_first; [by apply (gates_authorize auth (session_meta _ _ _ _ _ _ _))|]. disciplined_code.
Qed.
Lemma put_commit_gated auth r j :
  jti (claims auth) = Some j →
  gates (admission (mkMutation OpPutCommit (cm_tenant_id r) (cm_session_id r) (Some (cm_idempotency_key r))) j)
    (put_commit sv auth r).
Proof.
  intros Hj. unfold put_commit. apply gates_now; [apply _|]. intros at_ms.
  gate_then; [disciplined_code| |disciplined_code]. intros o.
  apply gates_lift. intros session _. destruct (negb _); [apply gates_throw|].
  gate_first; [by apply (gates_authorize auth (session_meta _ _ _ _ _ _ _))|]. disciplined_code.
Qed.
Lemma bind_gated auth r j ns path :
  jti (claims auth) = Some j → canonical_namespace_and_path (br_namespace r) (br_path r) = Ok (ns, path) →
  gates (admission (mutation_of (namespace_meta OpBind (br_tenant_id r) ns path (Some (br_idempotency_key r)))) j)
    (bind sv auth r).
Proof.
  intros Hj Hc. unfold bind, bind_internal. apply gates_lift. intros [ns' path'] Heq. rewrite Hc in Heq.
  injection Heq as <- <-. apply gates_lift. intros record _.
  gate_first; [by apply gates_authorize|]. disciplined_code.
Qed.
Lemma unbind_gated auth r j ns path :
  jti (claims auth) = Some j → canonical_namespace_and_path (ur_namespace r) (ur_path r) = Ok (ns, path) →
  gates (admission (mutation_of (namespace_meta OpUnbind (ur_tenant_id r) ns path (Some (ur_idempotency_key r)))) j)
    (unbind sv auth r).
Proof.
  intros Hj Hc. unfold unbind, unbind_internal. apply gates_now; [apply _|]. intros at_ms.
  apply gates_lift. intros [ns' path'] Heq. rewrite Hc in Heq.
  injection Heq as <- <-. apply gates_lift. intros record _. destruct (_ && _); [apply gates_throw|].
  gate_first; [by apply gates_authorize|]. disciplined_code.
Qed.

Lemma task_admitted script x auth mu j :
  task_mutation (rn_task x) = Some (sv, auth, mu) → jti (claims auth) = Some j →
  is_ok (rn_answer x) = true → follows script x → admitted mu j script.
Proof.
  intros Hmu Hj Hok (w&Hrun&Hend). destruct x as [t local [a|e]]; [|done]. cbn in *.
  assert (Hgates : gates (admission mu j) (run_task t)).
  { destruct t as [sv' auth' c|sv' auth' meta|]; cbn in Hmu |- *; [| |done].
    - destruct c; try done; cbn [answer]; (gate_first; [|disciplined_code]).
      + injection Hmu as -> -> <-. by apply put_init_gated.
      + injection Hmu as -> -> <-. by apply put_chunk_gated.
      + injection Hmu as -> -> <-. by apply put_commit_gated.
      + destruct (canonical_namespace_and_path _ _) as [[ns path]|] eqn:Hc; [|done].
        injection Hmu as -> -> <-. by apply bind_gated.
      + destruct (canonical_namespace_and_path _ _) as [[ns path]|] eqn:Hc; [|done].
        injection Hmu as -> -> <-. by apply unbind_gated.
    - destruct (is_mutation _) eqn:Hm; [|done]. injection Hmu as -> -> <-. by apply gates_authorize. }
  exact (Hgates (with_script script local) w script [] a eq_refl Hrun Hend).
Qed.

(** Two events of different tasks stand one before the other. *)
Lemma events_ordered {A} (x y : A) (l : list A) :
  x ≠ y → x ∈ l → y ∈ l →
  (∃ l1 l2 l3, l = l1 ++ x :: l2 ++ y :: l3) ∨ (∃ l1 l2 l3, l = l1 ++ y :: l2 ++ x :: l3).
Proof.
  intros Hne (l1&l2&->)%list_elem_of_split [Hy|Hy]%elem_of_app.
  - right. apply list_elem_of_split in Hy as (l3&l4&->). exists l3, l4, l2. by rewrite <-(assoc_L (++)).
  - left. apply elem_of_cons in Hy as [->|Hy]; [done|].
    apply list_elem_of_split in Hy as (l3&l4&->). by exists l1, l3, l4.
Qed.
Lemma created_by_one {B : Backend} `{BL : BackendLaws B} `{L : BackendListing B} `{LL : !BackendListingLaws B}
  (history : list (nat * StoreEvent)) (s s' : bstate B) t key i i' b b' :
  Forall (service_event dist_store_kinds) history.*2 → perform_all history.*2 s = Some s' → i ≠ i' →
  (i, EvCreate (store_key t "replay" key) b (Ok true)) ∈ history →
  (i', EvCreate (store_key t "replay" key) b' (Ok true)) ∈ history → False.
Proof.
  intros Hall Hp Hne Hi Hi'.
  edestruct (λ Hxy, events_ordered _ _ _ Hxy Hi Hi') as [(l1&l2&l3&Hl)|(l1&l2&l3&Hl)];
    [by intros [= ->]|..];
    apply (f_equal (fmap snd)) in Hl; rewrite fmap_app, fmap_cons, fmap_app, fmap_cons in Hl;
    by apply (created_once _ _ _ _ _ Hall Hp) in Hl.
Qed.

(** C6: replays are refused among concurrent requests.  Let any number of calls
    of services and distribution services run at the same time on one store,
    interleaved between any two store calls, each with its own clock and caches.  If two mutations that present the same token id for
    the same tenant, operation and subject both succeed, then one of them repeats the
    idempotency key of the other. *)
Theorem concurrent_replays_refused {B : Backend} `{BL : BackendLaws B} `{L : BackendListing B}
  `{LL : !BackendListingLaws B} history runs (s s' : bstate B)
  i i' x x' auth auth' mu mu' j :
  interleaved history runs s s' → i ≠ i' → runs !! i = Some x → runs !! i' = Some x' →
  task_mutation (rn_task x) = Some (sv, auth, mu) → task_mutation (rn_task x') = Some (sv, auth', mu') →
  jti (claims auth) = Some j → jti (claims auth') = Some j →
  mu_tenant mu = mu_tenant mu' → mu_operation mu = mu_operation mu' → mu_subject mu = mu_subject mu' →
  is_ok (rn_answer x) = true → is_ok (rn_answer x') = true →
  mu_key mu' = Some (default "" (mu_key mu)) ∨ mu_key mu = Some (default "" (mu_key mu')).
Proof.
  intros Hil Hne Hx Hx' Hmu Hmu' Hj Hj' Et Eo Es Hok Hok'.
  pose proof (history_events _ _ _ _ Hil) as Hall. destruct Hil as [Hp Htasks _].
  pose proof (task_admitted _ _ _ _ _ Hmu Hj Hok (Htasks _ _ Hx)) as (b&r&Hr&Hev).
  pose proof (task_admitted _ _ _ _ _ Hmu' Hj' Hok' (Htasks _ _ Hx')) as (b'&r'&Hr'&Hev').
  assert (Hkey : log_key mu' j = log_key mu j) by (unfold log_key; by rewrite Et, Eo, Es).
  unfold replay_in in Hr, Hr'. rewrite Hkey, <-Et in Hr', Hev'.
  set (k := store_key (mu_tenant mu) "replay" (log_key mu j)) in *.
  assert (Hin : ∀ e i, e ∈ events_of i history → e ∈ history.*2).
  { intros e n He%events_of_elem. by apply (list_elem_of_fmap_2 snd _ (n, e)). }
  assert (Hb : b_view s' !! k = Some b).
  { destruct Hev as [[He _]|[He _]]; apply Hin in He.
    - by eapply created_is_final.
    - by eapply read_is_final. }
  assert (Hb' : b_view s' !! k = Some b').
  { destruct Hev' as [[He _]|[He _]]; apply Hin in He.
    - by eapply created_is_final.
    - by eapply read_is_final. }
  rewrite Hb in Hb'. injection Hb' as <-. rewrite Hr in Hr'. injection Hr' as <-.
  destruct Hev as [[He Hk]|[He Hk]], Hev' as [[He' Hk']|[He' Hk']].
  - exfalso. apply events_of_elem in He, He'. by eapply created_by_one.
  - left. by rewrite Hk', Hk.
  - right. by rewrite Hk, Hk'.
  - left. by rewrite Hk', Hk.
Qed.
End tasks.

(** ** Concrete histories *)

Import ToyService ToyDist.

Definition task_q1 : Task := Serve concrete_service (sample_token "tenant-alpha" "j1") (CallBind sample_bind).
Definition alone (t : Task) : result ApiError (Answer t) * list StoreEvent :=
  run_alone (B := disk) t sample_world.
Definition run_of (t : Task) : Run := mkRun t (with_script [] sample_world) (alone t).1.
(** Every call of the first task, followed by the one of the second. *)
Fixpoint in_step (l l' : list StoreEvent) : list (nat * StoreEvent) :=
  match l, l' with
  | e :: rest, e' :: rest' => (0%nat, e) :: (1%nat, e') :: in_step rest rest'
  | _, _ => (pair 0%nat <$> l) ++ (pair 1%nat <$> l')
  end.
(** The tasks of two members follow their events. *)
Lemma two_runs_interleaved (x x' : Run) history (s s' : bstate disk) :
  perform_all history.*2 s = Some s' →
  follows (events_of 0 history) x → follows (events_of 1 history) x' →
  forallb (λ e : nat * StoreEvent, Nat.ltb e.1 2) history = true →
  interleaved history [x; x'] s s'.
Proof.
  intros Hp Hx Hx' Hids. split; [done| |].
  - intros [|[|i]] y Hy; [by injection Hy as <-..|done].
  - intros i e Hin%list_elem_of_In. rewrite forallb_forall in Hids. by apply Hids, Nat.ltb_lt in Hin.
Qed.

Lemma events_own i l : events_of i (pair i <$> l) = l.
Proof.
  induction l as [|e l IH]; [done|]. unfold events_of in *. cbn. rewrite Nat.eqb_refl. cbn. by f_equal.
Qed.
Lemma events_other i i' l : i ≠ i' → events_of i (pair i' <$> l) = [].
Proof.
  intros Hne. induction l as [|e l IH]; [done|]. unfold events_of in *. cbn.
  by rewrite (proj2 (Nat.eqb_neq i' i)) by done.
Qed.
Lemma ids_own i l :
  Nat.ltb i 2 = true → forallb (λ e : nat * StoreEvent, Nat.ltb e.1 2) (pair i <$> l) = true.
Proof. intros Hi. induction l as [|e l IH]; [done|]. cbn [fmap list_fmap forallb fst]. by rewrite Hi. Qed.
Lemma events_in_step l l' : events_of 0 (in_step l l') = l ∧ events_of 1 (in_step l l') = l'.
Proof.
  revert l'. induction l as [|e l IH]; intros [|e' l']; cbn [in_step]; rewrite ?app_nil_r, ?app_nil_l.
  - done.
  - by split; [apply events_other|apply (events_own 1)].
  - by split; [apply (events_own 0)|apply events_other].
  - destruct (IH l') as [H0 H1]. unfold events_of in *. cbn. by rewrite H0, H1.
Qed.
Lemma in_step_ids l l' : forallb (λ e : nat * StoreEvent, Nat.ltb e.1 2) (in_step l l') = true.
Proof.
  revert l'. induction l as [|e l IH]; intros [|e' l']; cbn [in_step]; rewrite ?app_nil_r, ?app_nil_l;
    [done|by apply ids_own..|apply IH].
Qed.
(** A retry of a bind that is admitted as soon as the bind has created its replay
    record, before the bind does anything else. *)
Definition q1_meta : AuthRequestMeta :=
  namespace_meta OpBind "tenant-alpha" "docs" "reports/q1" (Some "idem-1").
Definition retry : Task := Admit concrete_service (sample_token "tenant-alpha" "j1") q1_meta.
Definition retry_world : World disk :=
  @mkWorld disk
    (default (w_store sample_world) (perform_all (take 1 (alone task_q1).2) (w_store sample_world))) 100 200 ∅ ∅ [].
Definition retry_alone : result ApiError (Answer retry) * list StoreEvent :=
  run_alone (B := disk) retry retry_world.
Definition retry_history : list (nat * StoreEvent) :=
  (pair 0%nat <$> take 1 (alone task_q1).2) ++ (pair 1%nat <$> retry_alone.2)
  ++ (pair 0%nat <$> drop 1 (alone task_q1).2).
Definition retry_run : Run := mkRun retry (with_script [] retry_world) retry_alone.1.
Lemma retry_interleaved s' :
  perform_all (B := disk) retry_history.*2 (w_store sample_world) = Some s' →
  interleaved retry_history [run_of task_q1; retry_run] (w_store sample_world) s'.
Proof.
  intros Hs'. apply two_runs_interleaved; [exact Hs'|..]; unfold retry_history.
  - rewrite !events_of_app, !events_own, events_other, app_nil_l, take_drop by done.
    exact (run_alone_follows task_q1 sample_world).
  - rewrite !events_of_app, !(events_other 1 0), events_own, app_nil_l, app_nil_r by done.
    exact (run_alone_follows retry retry_world).
  - by rewrite !forallb_app, !ids_own.
Qed.

(** Witness of C6: the bind and its retry both succeed, with the same key. *)
Lemma concurrent_replays_refused_witness :
  is_ok (alone task_q1).1 = true ∧ is_ok retry_alone.1 = true ∧
  (mu_key (mutation_of q1_meta) = Some (default "" (mu_key (mutation_of q1_meta))) ∨
   mu_key (mutation_of q1_meta) = Some (default "" (mu_key (mutation_of q1_meta)))).
Proof.
  assert (Hq1 : is_ok (alone task_q1).1 = true) by (vm_compute; reflexivity).
  assert (Hretry : is_ok retry_alone.1 = true) by (vm_compute; reflexivity).
  split; [exact Hq1|]. split; [exact Hretry|].
  assert (Hrun : (λ o : option (bstate disk), match o with Some _ => true | None => false end)
    (perform_all retry_history.*2 (w_store sample_world)) = true) by (vm_compute; reflexivity).
  destruct (perform_all retry_history.*2 (w_store sample_world)) as [s'|] eqn:Hs'; [|discriminate Hrun].
  exact (concurrent_replays_refused concrete_service retry_history [run_of task_q1; retry_run]
    (w_store sample_world) s' 0 1 (run_of task_q1) retry_run (sample_token "tenant-alpha" "j1")
    (sample_token "tenant-alpha" "j1") (mutation_of q1_meta) (mutation_of q1_meta) "j1"
    (retry_interleaved s' Hs') (λ H : 0%nat = 1%nat, O_S 0 H) eq_refl eq_refl eq_refl eq_refl eq_refl eq_refl
    eq_refl eq_refl eq_refl Hq1 Hretry).
Defined.
