(* ===== verification/LockConcurrency.v ===== *)
(** * Claims about object locks under concurrency

    Retention and legal holds among calls that run at the same time.  The proof is by
    rely and guarantee: [sound] is what every reader may rely on for the content of a
    file, and a task whose reads so far were sound writes only sound content
    ([guarded]), even if a write is torn.  A protection that is in force when the
    calls start therefore stays in force, and a deletion among them is refused. *)

From Stdlib Require Import ZArith Lia Ascii String Bool.
From stdpp Require Import base option list strings gmap numbers sorting.
From S2P Require Import Prelude RustStr Path Core Cbor CborFacts Concrete Auth Crypto Store ServiceState ServiceFacts Access Namespaces Objects NamespaceSpec NamespaceProps Service Distribution Buckets DistObjects Multipart DistFacts DistService ConcreteService ConcreteDist Locks ServiceRel DistRel Interleaving InterleavingProps.

(** ** Protections *)

Inductive Protection := ComplianceUntil (U : Z) | LegalHold.
(** The record is at least as strict as the protection. *)
Definition protects (p : Protection) (r : ObjectLockRecord) : Prop :=
  match p with
  | ComplianceUntil U =>
      is_compliance (ol_mode r) = true ∧ ∃ U', ol_immutable_until_ms r = Some U' ∧ U <= U'
  | LegalHold => ol_legal_hold r = true
  end.
Definition is_admin (auth : AuthContext) : bool := has_scope auth [AdminRepair].

Section locks.
Context `{DDL : DistDepsLaws} `{EP : !EnvelopePrefixLaw} (ds : DistributionService) `{KL : !KmsLaws (ds_store_kms ds)}.
Context (p : Protection) (t : TenantId) (key : string).
Implicit Types w : World scripted.

(** The lock of the object holds the protection, or cannot be read. *)
Definition lock_protects (f : gmap string bytes) : Prop :=
  lock_unreadable ds f t key ∨ ∃ r, lock_at ds f t key = Some r ∧ protects p r.

(** What a task may do about the protection: no administrator lifts a legal hold, and
    a compliance retention until [U] is meant while the clock is before [U]. *)
Definition clock_in (U : Z) (a b : nat) : Prop := ∀ i, (a <= i < b)%nat → clock i < U.
Definition respects (auth : AuthContext) (a b : nat) : Prop :=
  match p with
  | ComplianceUntil U => clock_in U a b
  | LegalHold => is_admin auth = false
  end.

(** ** Sound files *)

(** Lock files hold records that name them, and the lock of the object is there and
    holds the protection, as far as it can be read. *)
Definition sound (name : string) (o : option bytes) : Prop :=
  (∀ t' key' b r, name = lock_name t' key' → o = Some b → lock_in ds t' b = Some r →
     lock_names t' name r) ∧
  (name = lock_name t key → ∃ b, o = Some b ∧ ∀ r, lock_in ds t b = Some r → protects p r).
Definition all_sound (f : gmap string bytes) : Prop := ∀ name, sound name (f !! name).

Definition not_lock (name : string) : Prop := ∀ t' key', name ≠ lock_name t' key'.
Lemma sound_other name o : not_lock name → sound name o.
Proof. intros Hn. split; [intros ???? ->|intros ->]; by edestruct Hn. Qed.

Lemma all_sound_init f : locks_wf ds f → lock_protects f → all_sound f.
Proof.
  intros Hwf Hp name. split.
  - intros t' key' b r -> Hb Hr. apply (Hwf t' key'). by rewrite lock_at_in, Hb.
  - intros ->. destruct Hp as [[[b Hb] Hbad]|(r&Hr&Hpr)].
    + exists b. split; [done|]. rewrite lock_at_in, Hb in Hbad. cbn in Hbad. intros r Hr. congruence.
    + rewrite lock_at_in in Hr. destruct (f !! lock_name t key) as [b|]; [|done]. exists b.
      split; [done|]. intros r' Hr'. cbn in Hr. congruence.
Qed.
Lemma all_sound_protects f : all_sound f → lock_protects f.
Proof.
  intros Hall. destruct (Hall (lock_name t key)) as [_ Ho]. destruct (Ho eq_refl) as (b&Hb&Hr).
  unfold lock_protects, lock_unreadable. rewrite lock_at_in, Hb. cbn.
  destruct (lock_in ds t b) as [r|]; [right; eauto|left; eauto].
Qed.
Lemma all_sound_wf f : all_sound f → locks_wf ds f.
Proof.
  intros Hall t' key' r. rewrite lock_at_in. intros (b&Hb&Hr)%bind_Some.
  destruct (Hall (lock_name t' key')) as [Hn _]. by eapply Hn.
Qed.

(** ** Events *)

Definition read_sound (e : StoreEvent) : Prop :=
  match e with EvRead k (Ok o) => sound k o | _ => True end.
Definition write_sound (e : StoreEvent) : Prop :=
  match e with
  | EvWrite k b _ => ∀ n, sound k (Some (take n b))
  | EvCreate k _ _ | EvDelete k _ => not_lock k
  | _ => True
  end.
(** A task that has read sound content only writes sound content. *)
Definition guarded (l : list StoreEvent) : Prop :=
  ∀ l1 e l2, l = l1 ++ e :: l2 → Forall read_sound l1 → write_sound e.

Lemma service_key_not_lock t' k key' : slash_free k = true → k ≠ OBJECT_LOCK_STORE → not_lock (store_key t' k key').
Proof.
  intros Hk Hne t2 key2 Heq. apply Hne.
  apply (in_dir_unique t' k t2 OBJECT_LOCK_STORE (store_key t' k key')); [done|done|apply store_key_in_dir|].
  rewrite Heq. apply dist_key_in_dir.
Qed.
Lemma dist_key_not_lock t' k key' : slash_free k = true → k ≠ OBJECT_LOCK_STORE → not_lock (dist_store_key t' k key').
Proof.
  intros Hk Hne t2 key2 Heq. apply Hne.
  apply (in_dir_unique t' k t2 OBJECT_LOCK_STORE (dist_store_key t' k key')); [done|done|apply dist_key_in_dir|].
  rewrite Heq. apply dist_key_in_dir.
Qed.
Lemma kind_not_lock kinds k :
  one_of kinds k = true → forallb slash_free kinds = true → one_of kinds OBJECT_LOCK_STORE = false →
  slash_free k = true ∧ k ≠ OBJECT_LOCK_STORE.
Proof.
  intros Hk Hfree Hno. pose proof Hk as (k'&Hin&->%String.eqb_eq)%existsb_exists.
  rewrite forallb_forall in Hfree. split; [by apply Hfree|]. intros ->. congruence.
Qed.
Lemma service_event_sound e : service_event dist_written_kinds e → write_sound e.
Proof.
  intros [k r|k r|t' k key' b r Hk|t' k key' b r Hk|t' k key' r Hk|t' k key' b r Hk|t' k key' r Hk|x r];
    cbn; try done; try intros n; try apply sound_other;
    first [apply service_key_not_lock | apply dist_key_not_lock]; by eapply kind_not_lock.
Qed.
#[local] Instance guarded_script : ScriptProp dist_written_kinds guarded.
Proof.
  split.
  - intros l1 e l2 Hl. by destruct l1.
  - intros l l' Hl Hl' l1 e l2 Heq Hr. apply app_eq_inv in Heq as [(k&->&Hk)|(k&->&->)].
    + destruct k as [|e' k]; cbn in Hk.
      * subst l'. by apply (Hl' [] e l2).
      * injection Hk as -> ->. by apply (Hl l1 e' k).
    + apply Forall_app in Hr as [_ Hr]. by apply (Hl' k e l2).
  - intros e He l1 e' l2 Heq _. apply service_event_sound in He. destruct l1 as [|x l1]; [|by destruct l1].
    by injection Heq as ->.
Qed.
Lemma guarded_read k o l : (sound k o → Forall write_sound l) → guarded (EvRead k (Ok o) :: l).
Proof.
  intros Hl [|x l1] e l2 Heq Hr; injection Heq as <- Heq; [done|]. subst l.
  apply Forall_cons in Hr as [Hk _]. specialize (Hl Hk). apply Forall_app in Hl as [_ Hl].
  by apply Forall_cons in Hl as [? _].
Qed.

(** ** Calls on locks *)

Definition ends (P : list StoreEvent → Prop) w w' : Prop :=
  ∀ rest, w_store w' = Some rest → ∃ used, w_store w = Some (used ++ rest) ∧ P used.
Lemma ends_same w w' : w_store w' = w_store w → ends (Forall write_sound) w w'.
Proof. intros Hs rest Hr. exists []. by rewrite <-Hs. Qed.
Lemma ends_store P w w1 w' : w_store w1 = w_store w → ends P w1 w' → ends P w w'.
Proof. intros H1 He rest Hr. destruct (He rest Hr) as (u&Hu&HP). exists u. split; [congruence|done]. Qed.

(** An operation that keeps the protection, by a caller who respects it. *)
Definition keeps {A} (auth : AuthContext) (m : ST (World scripted) ApiError A) : Prop :=
  ∀ w, respects auth (w_ticks w) (w_ticks (m w).2) → ends guarded w (m w).2.
Lemma respects_sub auth a b a' b' :
  (a <= a')%nat → (b' <= b)%nat → respects auth a b → respects auth a' b'.
Proof. unfold respects, clock_in. intros Ha Hb. destruct p; [|done]. intros Hc i Hi. apply Hc. lia. Qed.
Lemma keeps_then {A A'} auth (m : ST (World scripted) ApiError A) (f : A → ST (World scripted) ApiError A') :
  scripts guarded ApiError A m m → (∀ a, keeps auth (f a)) → keeps auth (m ≫= f).
Proof.
  intros Hm Hf w. rewrite ST_bind_run. specialize (Hm w).
  destruct (m w) as [[a|e] w1]; [|intros _; exact (proj2 Hm)]. cbn in Hm. intros Hr rest Hrest.
  destruct (Hf a w1) with (rest := rest) as (u2&Hw1&Hu2); [|done|].
  { eapply respects_sub; [apply Hm|reflexivity|exact Hr]. }
  destruct Hm as [_ Hm]. destruct (Hm _ Hw1) as (u1&->&Hu1). exists (u1 ++ u2).
  rewrite (assoc_L (++)). split; [done|by apply sp_app].
Qed.
Lemma keeps_reply {A A'} auth (m : ST (World scripted) ApiError A) (g : A → A') :
  keeps auth m → keeps auth (m ≫= λ x, mret (g x)).
Proof. intros Hm w. rewrite ST_bind_run. specialize (Hm w). by destruct (m w) as [[a|e] w1]. Qed.

(** The code of both services makes calls of any kind. *)
Ltac any_method := first
  [ apply (sim_ret (rel := scripts (λ _, True))) | apply (sim_throw (rel := scripts (λ _, True)))
  | apply (sim_lift (rel := scripts (λ _, True))) | apply (sim_now (rel := scripts (λ _, True)))
  | apply (sim_retention_allowed (rel := scripts (λ _, True)))
  | apply (sim_dist_write_json (rel := scripts (λ _, True)) (wkinds := dist_store_kinds)); reflexivity
  | apply (sim_require_bucket (rel := scripts (λ _, True)))
  | apply (sim_map_error (rel := scripts (λ _, True))) | apply (sim_resolve_key (rel := scripts (λ _, True)))
  | apply (sim_unlocked (rel := scripts (λ _, True)))
  | apply (sim_unbind_internal (rel := scripts (λ _, True))) ].
Ltac any_script := repeat (cbn zeta beta; lazymatch goal with
  | |- ∀ _, _ => intros ?
  | |- scripts _ _ _ (match ?x with _ => _ end) _ => destruct x
  | |- scripts _ _ _ (_ ≫= _) _ => apply (rel_bind (rel := scripts (λ _, True)))
  | |- scripts _ _ _ _ _ => any_method
  end).

Section calls.
Context (ds' : DistributionService) (Hkms : ds_store_kms ds' = ds_store_kms ds).

Lemma lock_in_shared t' b : lock_in ds' t' b = lock_in ds t' b.
Proof. unfold lock_in, dist_decrypt. by rewrite Hkms. Qed.

(** A lock read that succeeds on a script. *)
Lemma scripted_lock_read t' key' w w' o rest :
  dist_read_encrypted_json ds' t' OBJECT_LOCK_STORE key' w = (Ok o, w') → w_store w' = Some rest →
  ∃ ob, w_store w = Some (EvRead (lock_name t' key') (Ok ob) :: rest) ∧ w_ticks w' = w_ticks w ∧
    o = ob ≫= lock_in ds t' ∧ (o = None → ob = None).
Proof.
  unfold dist_read_encrypted_json, dist_read_encrypted_bytes. intros (q&w1&Hq&H)%ST_bind_ok Hrest.
  apply ST_bind_ok in Hq as (ob&w2&Hr&Hq). rewrite on_store_run in Hr. exists ob.
  assert (Hscript : ∃ rest', w_store w = Some (EvRead (lock_name t' key') (Ok ob) :: rest') ∧
    w_store w2 = Some rest' ∧ w_ticks w2 = w_ticks w).
  { cbn in Hr. fold (lock_name t' key') in Hr. destruct (w_store w) as [[|[] script]|]; try done.
    destruct (String.eqb_spec (lock_name t' key') key0) as [<-|]; [|done].
    cbn in Hr. injection Hr as -> <-. by exists script. }
  destruct Hscript as (rest'&Hw&Hw2&Ht). rewrite Hw. destruct ob as [b|].
  - apply ST_bind_ok in Hq as (x&w3&Hx&Hq). unfold lift_result in Hx. injection Hx as Hx <-.
    apply ST_ret_ok in Hq as [<- <-]. apply ST_bind_ok in H as (v&w4&Hv&H).
    unfold lift_result in Hv. injection Hv as Hv <-. apply ST_ret_ok in H as [<- <-].
    destruct (from_slice x) as [v'|] eqn:Hfs; [|done]. injection Hv as ->.
    split_and!; [congruence|done| |done]. cbn. rewrite <-lock_in_shared. unfold lock_in. rewrite Hx. cbn.
    by rewrite Hfs.
  - apply ST_ret_ok in Hq as [<- <-]. apply ST_ret_ok in H as [<- <-]. split_and!; [congruence|done..].
Qed.

(** Reading a lock, then writing: the writes may rely on a sound read. *)
Lemma ends_read {A} t' key' (f : option ObjectLockRecord → ST (World scripted) ApiError A) w :
  (∀ o, scripts (λ _, True) ApiError A (f o) (f o)) →
  (∀ ob w1, sound (lock_name t' key') ob → (ob ≫= lock_in ds t' = None → ob = None) →
     w_ticks w1 = w_ticks w → 
     dist_read_encrypted_json ds' t' OBJECT_LOCK_STORE key' w = (Ok (ob ≫= lock_in ds t'), w1) →
     ends (Forall write_sound) w1 (f (ob ≫= lock_in ds t') w1).2) →
  ends guarded w ((dist_read_encrypted_json ds' t' OBJECT_LOCK_STORE key' ≫= f) w).2.
Proof.
  intros Hmono Hf rest. rewrite ST_bind_run.
  destruct (dist_read_encrypted_json ds' t' OBJECT_LOCK_STORE key' w) as [[o|e] w1] eqn:Hread; cbn [snd].
  - intros Hrest. destruct (Hmono o w1) as [_ Hu]. destruct (Hu _ Hrest) as (u&Hw1&_).
    destruct (scripted_lock_read _ _ _ _ _ _ Hread Hw1) as (ob&Hw&Ht&->&Hnone). rewrite Hw.
    exists (EvRead (lock_name t' key') (Ok ob) :: u). split; [done|]. apply guarded_read. intros Hsound.
    destruct (Hf ob w1 Hsound Hnone Ht eq_refl rest Hrest) as (u'&Hw1'&Hall). rewrite Hw1 in Hw1'.
    injection Hw1' as Heq. by apply app_inv_tail in Heq as ->.
  - intros Hrest. pose proof (sim_dist_read_json (rel := scripts guarded) (T := ObjectLockRecord) ds' t'
      OBJECT_LOCK_STORE key' eq_refl w) as [_ Hd]. rewrite Hread in Hd. by apply Hd.
Qed.

(** Writing a lock record that names its file and holds the protection. *)
Lemma ends_write t' key' r w :
  lock_names t' (lock_name t' key') r → (lock_name t' key' = lock_name t key → protects p r) →
  ends (Forall write_sound) w (dist_write_encrypted_json ds' t' OBJECT_LOCK_STORE key' r w).2.
Proof.
  intros Hnames Hprot. unfold dist_write_encrypted_json. rewrite ST_bind_run. unfold lift_result.
  destruct (to_vec_pretty r) as [q|e] eqn:Hq; cbn; [|by apply ends_same].
  unfold dist_write_encrypted_bytes, map_error. rewrite ST_bind_run, ST_bind_run. unfold attempt, dist_encrypt, zoom.
  rewrite Hkms. destruct (kms_encrypt (ds_store_kms ds) t' OBJECT_LOCK_STORE q (w_draws w)) as [[env|e] d] eqn:Henc;
    cbn; [|by apply ends_same].
  unfold dist_write_envelope. rewrite ST_bind_run. unfold lift_result.
  destruct (to_vec_pretty env) as [x|e] eqn:Hx; cbn; [|by apply ends_same].
  rewrite on_store_run. cbn. fold (lock_name t' key').
  intros rest. destruct (w_store w) as [[|[] l]|]; cbn; try done.
  destruct (String.eqb_spec (lock_name t' key') key0) as [<-|]; [|done]. case_bool_decide; [|done]. subst b. cbn.
  intros [= <-]. exists [EvWrite (lock_name t' key') x r0]. split; [done|]. apply Forall_singleton. cbn. intros n.
  pose proof (λ n, lock_bytes ds t' r q _ env d x n Hq Henc Hx) as Hbytes. split.
  - intros t2 key2 b r' Heq [= <-] Hr'. apply lock_name_tenant in Heq as Ht. subst t2.
    destruct (Hbytes n) as [Hn|Hn]; rewrite Hn in Hr'; [done|]. by injection Hr' as <-.
  - intros Heq. apply lock_name_tenant in Heq as Ht. subst t'. eexists. split; [done|]. intros r' Hr'.
    destruct (Hbytes n) as [Hn|Hn]; rewrite Hn in Hr'; [done|]. injection Hr' as <-. by apply Hprot.
Qed.

(** The record a lock call works on, after a sound read. *)
Lemma sound_record t' bucket k ob at_ms :
  let name := lock_name t' (object_lock_store_key bucket k) in
  let r := default (no_lock t' bucket k at_ms) (ob ≫= lock_in ds t') in
  sound name ob → (ob ≫= lock_in ds t' = None → ob = None) →
  lock_names t' name r ∧ (name = lock_name t key → protects p r).
Proof.
  cbn zeta. intros [Hn Hp] Hnone. split.
  - destruct (ob ≫= lock_in ds t') as [r|] eqn:Ho; [|done]. apply bind_Some in Ho as (b&->&Hr). by eapply Hn.
  - intros Heq. apply lock_name_tenant in Heq as Ht. subst t'. destruct (Hp Heq) as (b&->&Hb). cbn in *.
    destruct (lock_in ds t b) as [r|]; [by apply Hb|]. by discriminate (Hnone eq_refl).
Qed.

Lemma allowed_store current until mode auth w :
  w_store (ensure_retention_update_allowed current until mode auth w).2 = w_store w.
Proof.
  unfold ensure_retention_update_allowed. destruct (ol_immutable_until_ms current); [|done].
  rewrite ST_bind_run. cbn. by repeat case_match.
Qed.

Lemma retention_protects current until mode auth w w' u at_ms :
  ensure_retention_update_allowed current until mode auth w = (Ok u, w') →
  respects auth (w_ticks w) (w_ticks w') → protects p current →
  protects p (mkObjectLockRecord (ol_tenant_id current) (ol_bucket current) (ol_key current)
                until (ol_legal_hold current) mode at_ms).
Proof.
  intros Ha Hresp Hp. unfold protects, respects in *. destruct p as [U|]; cbn; [|done].
  destruct Hp as (Hc&U'&HU'&Hle).
  destruct (retention_allowed_spec _ _ _ _ _ _ _ Ha U' HU' Hc) as (->&U2&->&Hle2).
  - intros i Hi. specialize (Hresp i Hi). lia.
  - split; [done|]. exists U2. split; [done|lia].
Qed.

(** The last steps of a lock call: a clock reading and the write of the record. *)
Lemma ends_update t' key' (g : Z → ObjectLockRecord) w :
  (∀ at_ms, lock_names t' (lock_name t' key') (g at_ms)) →
  (∀ at_ms, lock_name t' key' = lock_name t key → protects p (g at_ms)) →
  ends (Forall write_sound) w
    ((now_ms ≫= λ at_ms, dist_write_encrypted_json ds' t' OBJECT_LOCK_STORE key' (g at_ms) ≫=
        λ _, mret (g at_ms)) w).2.
Proof.
  intros Hn Hp. rewrite ST_bind_run. cbn [now_ms]. rewrite ST_bind_run.
  set (w1 := @mkWorld scripted _ _ (S (w_ticks w)) _ _ _).
  pose proof (ends_write t' key' (g (clock (w_ticks w))) w1 (Hn _) (Hp _)) as He.
  by destruct (dist_write_encrypted_json _ _ _ _ _ w1) as [[[]|e] w2].
Qed.
Lemma update_ticks t' key' (g : Z → ObjectLockRecord) w :
  (w_ticks w <= w_ticks ((now_ms ≫= λ at_ms, dist_write_encrypted_json ds' t' OBJECT_LOCK_STORE key' (g at_ms) ≫=
        λ _, mret (g at_ms)) w).2)%nat.
Proof.
  rewrite ST_bind_run. cbn [now_ms]. rewrite ST_bind_run. set (w1 := @mkWorld scripted _ _ (S (w_ticks w)) _ _ _).
  pose proof (dist_write_ticks ds' t' OBJECT_LOCK_STORE key' (g (clock (w_ticks w))) w1) as Ht.
  destruct (dist_write_encrypted_json _ _ _ _ _ w1) as [[[]|e] w2]; cbn in *; rewrite Ht; lia.
Qed.

Lemma retention_keeps auth t' b k until mode :
  keeps auth (put_object_retention ds' auth t' b k until mode).
Proof.
  unfold put_object_retention. apply keeps_then; [apply sim_lift|]. intros bucket.
  apply keeps_then; [apply sim_lift|]. intros k'. apply keeps_then; [apply sim_lift|]. intros _.
  apply keeps_then; [apply sim_require_bucket|]. intros _ w Hresp.
  apply ends_read; [any_script|]. intros ob w1 Hsound Hnone Ht Hread.
  rewrite ST_bind_run, Hread in Hresp.
  destruct (sound_record t' bucket k' ob (clock (w_ticks w1)) Hsound Hnone) as [Hnames Hprot].
  rewrite ST_bind_run in Hresp |- *. cbn [now_ms] in Hresp |- *. cbn zeta in Hresp |- *.
  set (r := default (no_lock t' bucket k' (clock (w_ticks w1))) (ob ≫= lock_in ds t')) in *.
  set (w2 := @mkWorld scripted _ _ (S (w_ticks w1)) _ _ _) in *.
  rewrite ST_bind_run in Hresp |- *.
  pose proof (allowed_store r until mode auth w2) as Hstore.
  destruct (ensure_retention_update_allowed r until mode auth w2) as [[u|e] w3] eqn:Ha; cbn [snd] in *;
    [|by apply ends_same].
  refine (ends_store _ w1 w3 _ Hstore (ends_update t' _ _ w3 _ _)); [done|]. intros at_ms Heq.
  apply (retention_protects r until mode auth w2 w3 u at_ms Ha); [|by apply Hprot].
  eapply respects_sub; [| |exact Hresp]; [cbn; lia|]. etrans; [|apply update_ticks]. done.
Qed.

Lemma hold_keeps auth t' b k hold : keeps auth (put_object_legal_hold ds' auth t' b k hold).
Proof.
  unfold put_object_legal_hold. apply keeps_then; [apply sim_lift|]. intros bucket.
  apply keeps_then; [apply sim_lift|]. intros k'. apply keeps_then; [apply sim_lift|]. intros _.
  apply keeps_then; [apply sim_require_bucket|]. intros _ w Hresp.
  apply ends_read; [any_script|]. intros ob w1 Hsound Hnone _ _.
  destruct (sound_record t' bucket k' ob (clock (w_ticks w1)) Hsound Hnone) as [[Ht' Hname] Hprot].
  rewrite ST_bind_run. cbn [now_ms]. cbn zeta.
  set (r := default (no_lock t' bucket k' (clock (w_ticks w1))) (ob ≫= lock_in ds t')) in *.
  set (w2 := @mkWorld scripted _ _ (S (w_ticks w1)) _ _ _) in *.
  rewrite ST_bind_run. unfold lift_result.
  destruct (if ol_legal_hold r && negb hold then _ else _) as [u|e] eqn:Hc; [|by apply ends_same].
  cbn [ol_tenant_id ol_bucket ol_key]. rewrite Ht'.
  refine (ends_store _ w1 w2 _ eq_refl (ends_update t' _ _ w2 _ _)).
  - done.
  - intros at_ms Heq. rewrite Hname in Heq. specialize (Hprot Heq).
    unfold protects, respects in *. destruct p as [U|]; cbn; [done|].
    rewrite Hprot in Hc. destruct hold; [done|]. cbn in Hc. unfold require_admin_repair in Hc.
    unfold is_admin in Hresp. by rewrite Hresp in Hc.
Qed.
End calls.

(** ** Histories *)

(** The lock calls of a run respect the protection, and read locks with the same keys. *)
Definition run_end (script : list StoreEvent) (x : Run) : World scripted :=
  (run_task (rn_task x) (with_script script (rn_local x))).2.
Definition run_respects (script : list StoreEvent) (x : Run) : Prop :=
  match rn_task x with
  | Distribute ds' auth c => is_lock_call c = true →
      ds_store_kms ds' = ds_store_kms ds ∧ respects auth (w_ticks (rn_local x)) (w_ticks (run_end script x))
  | _ => True
  end.

Lemma run_guarded script x : run_respects script x → follows script x → guarded script.
Proof.
  intros Hresp Hfollows. destruct (is_lock_task (rn_task x)) eqn:Hlock.
  - destruct Hfollows as (w&Hrun&Hend). unfold run_respects, run_end in Hresp. rewrite Hrun in Hresp. cbn in Hresp.
    destruct x as [[| |ds' auth c] local ans]; try done. cbn in *. destruct (Hresp Hlock) as [Hkms Hr].
    assert (Hkeeps : keeps auth (dist_answer ds' auth c)).
    { destruct c; try done; cbn [dist_answer]; apply keeps_reply; [by apply retention_keeps|by apply hold_keeps]. }
    destruct (Hkeeps (with_script script local)) with (rest := @nil StoreEvent) as (used&Hs&Hg); rewrite ?Hrun; [done..|].
    rewrite app_nil_r in Hs. by injection Hs as ->.
  - eapply follows_does; [|done]. by apply (task_scripts (wkinds := dist_written_kinds) guarded (rn_task x));
      [|rewrite Hlock].
Qed.

Section store.
Context {B : Backend} `{BL : BackendLaws B} `{L : BackendListing B} `{LL : !BackendListingLaws B}.
Context `{TW : !BackendTornWrites B}.
Implicit Types s : bstate B.

Lemma all_sound_off f f' k : all_sound f → agree_off k f f' → sound k (f' !! k) → all_sound f'.
Proof using Type.
  intros Hall Hoff Hk name. destruct (decide (name = k)) as [->|Hne]; [done|].
  rewrite (agree_lookup k name f f'); [apply Hall|done|done].
Qed.
Lemma perform_sound e s s' :
  all_sound (b_view s) → write_sound e → perform e s = Some s' → all_sound (b_view s') ∧ read_sound e.
Proof.
  intros Hall Hw. destruct e as [k r|k r|k b r|k b r|k r|x r|x r]; cbn; case_bool_decide as Hr; try done;
    intros [= <-]; (split; [|try done]).
  - by rewrite (proj1 (b_exists_view k s)).
  - by rewrite (proj1 (b_read_view k s)).
  - destruct r as [o|]; [|done]. rewrite (proj2 (b_read_view k s) _ Hr). apply Hall.
  - destruct (b_write_view k b s) as [Ha Hok]. apply (all_sound_off _ _ k Hall Ha).
    destruct (b_write B k b s) as [[[]|err] s1] eqn:Hb; cbn in *.
    + rewrite Hok, lookup_insert_eq by done. rewrite <-(take_ge b (length b)) by done. apply Hw.
    + pose proof (b_write_torn k b s err) as Ht. rewrite Hb in Ht. cbn in Ht.
      destruct (Ht eq_refl) as [->|[n ->]]; [apply Hall|apply Hw].
  - destruct (b_create_view k b s) as (Ha&_). by apply (all_sound_off _ _ k Hall Ha), sound_other.
  - destruct (b_delete_view k s) as (Ha&_). by apply (all_sound_off _ _ k Hall Ha), sound_other.
  - by rewrite (proj1 (b_list_values_view x s)).
  - by rewrite (proj1 (b_list_child_dirs_view x s)).
Qed.

Lemma history_sound (runs : list Run) (past todo : list (nat * StoreEvent)) s s' :
  (∀ i e, (i, e) ∈ past ++ todo → (i < length runs)%nat) →
  (∀ i x, runs !! i = Some x → guarded (events_of i (past ++ todo))) →
  Forall read_sound past.*2 → all_sound (b_view s) → perform_all todo.*2 s = Some s' →
  all_sound (b_view s') ∧ Forall read_sound (past ++ todo).*2.
Proof.
  revert past s. induction todo as [|[i e] todo IH]; intros past s Hknown Hguard Hpast Hall; cbn.
  - intros [= ->]. by rewrite app_nil_r.
  - intros (s1&Hs1&Hrest)%bind_Some.
    destruct (lookup_lt_is_Some_2 runs i) as [x Hx]; [apply (Hknown i e); set_solver|].
    assert (Hw : write_sound e).
    { specialize (Hguard i x Hx). rewrite events_of_app in Hguard.
      assert (He : events_of i ((i, e) :: todo) = e :: events_of i todo)
        by (unfold events_of; cbn; by rewrite Nat.eqb_refl).
      rewrite He in Hguard. eapply Hguard; [done|]. rewrite Forall_forall in Hpast |- *.
      intros e' He'%events_of_elem. apply Hpast. by apply (list_elem_of_fmap_2 snd _ (i, e')). }
    destruct (perform_sound e s s1 Hall Hw Hs1) as [Hall1 Hr].
    replace (past ++ (i, e) :: todo) with ((past ++ [(i, e)]) ++ todo) in * by (by rewrite <-(assoc_L (++))).
    eapply IH; [done..| |done|done]. rewrite fmap_app. apply Forall_app. split; [done|]. by apply Forall_singleton.
Qed.

Lemma interleaved_sound history (runs : list Run) s s' :
  interleaved history runs s s' → locks_wf ds (b_view s) → lock_protects (b_view s) →
  (∀ i x, runs !! i = Some x → run_respects (events_of i history) x) →
  all_sound (b_view s') ∧ Forall read_sound history.*2.
Proof.
  intros [Hp Htasks Hknown] Hwf Hprot Hresp. apply (history_sound runs [] history s s'); try done.
  - intros i x Hx. apply (run_guarded _ x); [by apply Hresp|by apply Htasks].
  - by apply all_sound_init.
Qed.

(** ** Looking at a lock *)

(** Evidence that the lock was read and did not stand in the way. *)
Definition lock_passed (auth : AuthContext) (a b : nat) (script : list StoreEvent) : Prop :=
  ∃ ob, EvRead (lock_name t key) (Ok ob) ∈ script ∧ (ob ≫= lock_in ds t = None → ob = None) ∧
    ∀ r, ob ≫= lock_in ds t = Some r → ol_legal_hold r = false ∧
      ∀ until, ol_immutable_until_ms r = Some until →
        is_admin auth = true ∨ ∃ i, (a <= i < b)%nat ∧ until <= clock i.
#[local] Instance lock_passed_evidence auth : Evidence (lock_passed auth).
Proof using Type.
  intros a b a' b' used l Ha Hb (ob&Hin&Hnone&Hr). exists ob. rewrite elem_of_app. split_and!; [by right|done|].
  intros r Ho. destruct (Hr r Ho) as [Hh Hu]. split; [done|]. intros T Huntil.
  destruct (Hu T Huntil) as [?|(i&Hi&Hc)]; [by left|right]. exists i. split; [lia|done].
Qed.

Lemma unlocked_gates ds' bucket k delete_op auth :
  ds_store_kms ds' = ds_store_kms ds → object_lock_store_key bucket k = key →
  gates (lock_passed auth) (ensure_object_mutation_unlocked ds' t bucket k delete_op auth).
Proof using Type.
  intros Hkms Hkey w w' script rest a Hw Hrun Hrest. unfold ensure_object_mutation_unlocked in Hrun.
  rewrite Hkey in Hrun. apply ST_bind_ok in Hrun as (o&w1&Hread&H).
  assert (Hs1 : w_store w1 = Some rest).
  { revert H. repeat case_match; rewrite ?ST_bind_run; cbn; repeat case_match; intros [= _ <-]; done. }
  destruct (scripted_lock_read ds' Hkms _ _ _ _ _ _ Hread Hs1) as (ob&Hs&Ht&->&Hnone).
  rewrite Hw in Hs. injection Hs as ->. exists ob. split_and!; [left|done|]. intros r Hr. rewrite Hr in H.
  destruct (ol_legal_hold r); [done|]. split; [done|]. intros T Huntil. rewrite Huntil, ST_bind_run in H.
  cbn in H. unfold is_admin. destruct (has_scope auth [AdminRepair]); [by left|right].
  rewrite andb_true_r in H. destruct (Z.ltb_spec (clock (w_ticks w1)) T) as [?|Hle]; [done|].
  injection H as _ <-. exists (w_ticks w1). cbn. split; [lia|done].
Qed.

(** A deletion that succeeds has looked at the lock. *)
Lemma delete_gates ds' auth request k :
  ds_store_kms ds' = ds_store_kms ds → dq_tenant_id request = t →
  canonical_object_key_name (dq_key request) = Ok k →
  object_lock_store_key (dq_bucket request) k = key →
  gates (lock_passed auth) (delete_object ds' auth request).
Proof using Type.
  intros Hkms Ht Hk Hkey. unfold delete_object, unbind. rewrite Ht, Hk.
  apply (gates_then _ (P := λ _, True)); [any_script| |any_script]. intros bucket.
  apply gates_lift. intros k' [= <-]. apply gates_lift. intros u _.
  apply (gates_then _ (P := λ _, True)); [any_script| |any_script]. intros resolved.
  destruct (rs_tombstone resolved); [apply gates_throw|].
  apply (gates_first _ (P := λ _, True)); [by apply unlocked_gates|any_script].
Qed.

(** The callers a protection holds off: a legal hold everyone, a compliance retention
    those who are no administrators, before its end. *)
Definition held_off (auth : AuthContext) (a b : nat) : Prop :=
  match p with ComplianceUntil U => is_admin auth = false ∧ clock_in U a b | LegalHold => True end.
Lemma protected_not_passed auth a b script :
  Forall read_sound script → held_off auth a b → ¬ lock_passed auth a b script.
Proof using Type.
  intros Hsound Hheld (ob&Hin&Hnone&Hpass). rewrite Forall_forall in Hsound.
  destruct (Hsound _ Hin) as [_ Hp]. destruct (Hp eq_refl) as (x&->&Hx). cbn in *.
  destruct (lock_in ds t x) as [r|]; [|by discriminate (Hnone eq_refl)].
  destruct (Hpass r eq_refl) as [Hhold Huntil]. specialize (Hx r eq_refl).
  unfold protects, held_off in *. destruct p as [U|]; [|congruence]. destruct Hheld as [Hadmin Hclock].
  destruct Hx as (_&U'&HU'&Hle). destruct (Huntil U' HU') as [?|(i&Hi&Hc)]; [congruence|].
  specialize (Hclock i Hi). lia.
Qed.

Lemma delete_refused script ds' auth request k local ans :
  let x := mkRun (Distribute ds' auth (CallDeleteObject request)) local ans in
  Forall read_sound script → follows script x → ds_store_kms ds' = ds_store_kms ds →
  dq_tenant_id request = t → canonical_object_key_name (dq_key request) = Ok k →
  object_lock_store_key (dq_bucket request) k = key →
  held_off auth (w_ticks local) (w_ticks (run_end script x)) → is_ok ans = false.
Proof using Type.
  intros x Hreads (w&Hrun&Hend) Hkms Ht Hk Hkey Hheld. destruct ans as [a|e]; [|done]. exfalso.
  unfold run_end, x in Hheld. cbn in Hheld, Hrun. rewrite Hrun in Hheld.
  apply ST_bind_ok in Hrun as (resp&w1&Hrun&Hret). apply ST_ret_ok in Hret as [_ <-].
  exact (protected_not_passed auth _ _ script Hreads Hheld
    (delete_gates ds' auth request k Hkms Ht Hk Hkey (with_script script local) w1 _ [] resp eq_refl Hrun Hend)).
Qed.

(** C9: a lock that is in force stays in force under concurrency.  Let any number of
    calls of services and distribution services run at the same time on one store,
    interleaved between any two store calls, and let writes fail and be torn.  If the
    lock of an object holds a compliance retention until [U] when they start and the
    lock calls among them read the clock before [U], or if it holds a legal hold and
    no lock call is an administrator's, then it holds the same protection, or a
    stricter one, when they are done, or cannot be read; every lock record still names
    the file it is in.  A deletion among the calls fails if its bucket, as the request
    spells it, and its canonical key give the key the lock is stored under: under a
    legal hold for every caller, under a compliance retention for every caller who is
    no administrator and reads the clock before its end.  Another spelling of the
    bucket gives another lock key, and nothing is said of it. *)
Theorem lock_survives_concurrency history (runs : list Run) s s' :
  interleaved history runs s s' → locks_wf ds (b_view s) → lock_protects (b_view s) →
  (∀ i x, runs !! i = Some x → run_respects (events_of i history) x) →
  lock_protects (b_view s') ∧ locks_wf ds (b_view s') ∧
  ∀ i ds' auth request k local ans,
    let x := mkRun (Distribute ds' auth (CallDeleteObject request)) local ans in
    runs !! i = Some x → ds_store_kms ds' = ds_store_kms ds → dq_tenant_id request = t →
    canonical_object_key_name (dq_key request) = Ok k → object_lock_store_key (dq_bucket request) k = key →
    held_off auth (w_ticks local) (w_ticks (run_end (events_of i history) x)) → is_ok ans = false.
Proof.
  intros Hil Hwf Hprot Hresp. destruct (interleaved_sound _ _ _ _ Hil Hwf Hprot Hresp) as [Hall Hreads].
  split_and!; [by apply all_sound_protects|by apply all_sound_wf|]. intros i ds' auth request k local ans x Hx.
  apply (delete_refused (events_of i history)); [|by apply Hil].
  rewrite Forall_forall in Hreads |- *. intros e He%events_of_elem. apply Hreads.
  by apply (list_elem_of_fmap_2 snd _ (i, e)).
Qed.
End store.
End locks.

(** ** Concrete histories *)

Import ToyService ToyDist.

(** The world with a bucket, a bound object and its lock. *)
Definition bound_world : World disk := (run_task task_q1 (sample_world : World disk)).2.
Definition object_locked_world : World disk :=
  Eval vm_compute in run_dist_calls concrete_dist lock_calls bound_world.
Definition the_lock : string := object_lock_store_key "docs" "reports/q1".

Definition delete_request : DeleteObjectRequest :=
  mkDeleteObjectRequest "tenant-alpha" "docs" "reports/q1" "idem-9".
Definition delete_task : Task := Distribute concrete_dist writer (CallDeleteObject delete_request).
Definition shorten_task : Task :=
  Distribute concrete_dist repairer
    (CallPutRetention "tenant-alpha" "docs" "reports/q1" (Some 2000) (Some "COMPLIANCE")).

(** Two tasks in step, each as it runs alone from the same world. *)
Definition run_from (w : World disk) (t : Task) : Run := mkRun t (with_script [] w) (run_alone t w).1.
Definition pair_history (w : World disk) (t t' : Task) : list (nat * StoreEvent) :=
  in_step (run_alone t w).2 (run_alone t' w).2.
Definition pair_store (w : World disk) (t t' : Task) : option (bstate disk) :=
  perform_all (pair_history w t t').*2 (w_store w).
Lemma pair_interleaved w t t' s' :
  pair_store w t t' = Some s' →
  interleaved (pair_history w t t') [run_from w t; run_from w t'] (w_store w) s'.
Proof.
  intros Hs'. destruct (events_in_step (run_alone t w).2 (run_alone t' w).2) as [H0 H1].
  apply two_runs_interleaved; [exact Hs'| | |apply in_step_ids]; unfold pair_history; rewrite ?H0, ?H1;
    apply run_alone_follows.
Qed.

(** A store with one lock file, which its record names. *)
Lemma one_lock_wf f t key r :
  forallb (λ x : string * bytes, negb (starts_with "object-lock/" x.1) || String.eqb x.1 (lock_name t key))
    (map_to_list f) = true →
  lock_at concrete_dist f t key = Some r → lock_names t (lock_name t key) r → locks_wf concrete_dist f.
Proof.
  rewrite forallb_forall. intros Hall Hr Hnames t' key' r' Hr'. pose proof Hr' as Hfile. rewrite lock_at_in in Hfile.
  apply bind_Some in Hfile as (b&Hb&_). apply elem_of_map_to_list, list_elem_of_In, Hall, orb_true_iff in Hb as [Hb|Hb].
  - exfalso. apply negb_true_iff, not_true_iff_false in Hb. apply Hb, starts_with_spec.
    exists (dist_tenant_store_dir t' +:+ "/" +:+ dist_store_file_name key'). reflexivity.
  - cbn [fst] in Hb. apply String.eqb_eq in Hb. apply lock_name_tenant in Hb as Ht. subst t'.
    rewrite (lock_at_name _ _ _ _ _ Hb), Hr in Hr'. injection Hr' as <-. by rewrite Hb.
Qed.
Lemma object_locked_world_wf : locks_wf concrete_dist (files object_locked_world).
Proof.
  eapply (one_lock_wf _ "tenant-alpha" the_lock); [vm_compute; reflexivity..|]. by split.
Qed.
Lemma compliance_in_force :
  lock_protects concrete_dist (ComplianceUntil 90000) "tenant-alpha" the_lock (files object_locked_world).
Proof.
  right. eexists. split; [vm_compute; reflexivity|]. cbn. split; [reflexivity|]. exists 90000. split; [reflexivity|lia].
Qed.
(** Readings of the concrete clock, up to the hundredth. *)
Lemma early_readings a b : Nat.leb b 100 = true → clock_in 90000 a b.
Proof. intros Hb%Nat.leb_le i Hi. cbn -[Z.add Z.lt]. lia. Qed.

Lemma pair_respects w t t' :
  (is_lock_task t = true → run_respects concrete_dist (ComplianceUntil 90000) (events_of 0 (pair_history w t t')) (run_from w t)) →
  (is_lock_task t' = true → run_respects concrete_dist (ComplianceUntil 90000) (events_of 1 (pair_history w t t')) (run_from w t')) →
  ∀ i x, [run_from w t; run_from w t'] !! i = Some x →
    run_respects concrete_dist (ComplianceUntil 90000) (events_of i (pair_history w t t')) x.
Proof.
  intros H0 H1 [|[|i]] x Hx; [injection Hx as <-|injection Hx as <-|done].
  - destruct t as [| |d a c]; try done. unfold run_respects. cbn [rn_task run_from]. intros Hl. by apply H0.
  - destruct t' as [| |d a c]; try done. unfold run_respects. cbn [rn_task run_from]. intros Hl. by apply H1.
Qed.

(** Witness of C9: a writer deletes the object while an administrator tries to shorten
    its compliance retention. *)
Lemma lock_survives_concurrency_witness :
  is_ok (run_alone delete_task object_locked_world).1 = false ∧
  ∃ s', pair_store object_locked_world delete_task shorten_task = Some s' ∧
    lock_protects concrete_dist (ComplianceUntil 90000) "tenant-alpha" the_lock (b_view s').
Proof.
  assert (Hrun : (λ o : option (bstate disk), match o with Some _ => true | None => false end)
    (pair_store object_locked_world delete_task shorten_task) = true) by (vm_compute; reflexivity).
  destruct (pair_store object_locked_world delete_task shorten_task) as [s'|] eqn:Hs'; [|discriminate Hrun].
  destruct (lock_survives_concurrency concrete_dist (ComplianceUntil 90000) "tenant-alpha" the_lock _ _ _ s'
    (pair_interleaved _ _ _ s' Hs') object_locked_world_wf compliance_in_force) as (Hprot&_&Hdelete).
  { apply pair_respects; [done|]. intros _ _. split; [reflexivity|apply early_readings; vm_compute; reflexivity]. }
  split; [|exists s'; split; [reflexivity|exact Hprot]].
  eapply (Hdelete 0%nat concrete_dist writer delete_request "reports/q1").
  - reflexivity.
  - reflexivity.
  - reflexivity.
  - vm_compute. reflexivity.
  - reflexivity.
  - split; [reflexivity|]. apply early_readings. vm_compute. reflexivity.
Defined.
